(* ===== verification/_CoqProject ===== *)
-Q . S2P
Prelude.v
Ring.v
Fcntl.v
Riscv.v
Mem.v
Kalloc.v
Vm.v
PageTable.v
Cow.v
Uvm.v
Fault.v
Proc.v
Sched.v
ProcLife.v
ProcInv.v
Spinlock.v
Pipe.v
Bio.v
Virtio.v
Log.v
Fs.v
FsBlock.v
FsProps.v
Syscall.v
Trap.v
File.v
Exec.v
FsUser.v
Sysfile.v
FdInv.v
Print.v
Console.v
Uprint.v
Grep.v
Umalloc.v
Sh.v
Mkfs.v
Cafe.v
Ucall.v
Ulib.v
Utils.v
Shell.v
ShMain.v
KernMap.v
Hart.v
Plic.v
Boot.v
BootKernel.v
