(* ===== verification/Prelude.v ===== *)
(** * A verification development for the operating system of this repository

    The program is a variant of the teaching operating system xv6 for RISC-V (directory
    [src/initial-xv6/src]) with copy-on-write fork, a priority based scheduler (PBS), the
    system calls [waitx], [setpriority] and [getreadcount]; next to the kernel there are the user
    library and programs ([user]), the tool that builds the disk image ([mkfs]), and a simulation
    of a coffee shop with threads ([src/concurrency]).  This library models the C code as
    Rocq functions and proves what makes the parts correct.

    ** Conventions

    Machine integers are [Z] with the wrap-around of their width written out ([u8], [u32],
    [u64], [i32] below).  C code over a state [S] is a function of the monad [M S] of this
    file: it returns a value and the new state ([Ok]), stops the machine ([Panic]), or runs
    out of fuel ([Diverge]).  A loop that is not structural takes fuel, and a theorem about
    it shows that the fuel the definition passes is enough.  Code outside the C sources of
    the kernel (the loader's addresses, the trampoline, the address of [forkret]) is a parameter of the
    definitions that use it (class [Image] of [Kalloc.v], section variables of [Proc.v]).

    ** Files

    - [Prelude]: results and the monad, machine integers, the tactics [mrun], [minv] and
      [ifs], the lemmas shared by all components.
    - [Ring]: a ring buffer with free-running indices as a queue, for any size and index
      width; used by pipes, the disk's rings, and the console.
    - [Fcntl]: the flags of [open].
    - [Riscv]: page and page-table-entry macros ([riscv.h], [memlayout.h], [param.h]).
    - [Mem]: byte memory and the routines of [string.c]; [memmove] for overlapping ranges.
    - [Kalloc]: the physical page allocator of [kalloc.c] with the reference counts of
      copy-on-write; it refines a stack of free pages with a counter per page.
    - [Vm]: the code of [vm.c] and the copy-on-write part of [kalloc.c].
    - [PageTable]: the page tables in memory represent a map from addresses to entries;
      [walk], [mappages], [walkaddr] against that map.
    - [Cow], [Uvm], [Fault]: a ghost map of all user mappings with exact reference counts;
      [uvmalloc], [uvmdealloc], [uvmcowpy] and [dup_pg] keep it, and after a fork a store of
      the child is private to the child.
    - [Proc]: the process table and the operations of [proc.c].  A function that gives up
      the CPU is cut at [swtch].  What it needs of open files and inodes is the class
      [FileLayer], over the same kernel state.
    - [Sched]: the PBS scheduler: selection over a table that may change during the scan,
      priority arithmetic, statistics of a tick.
    - [ProcLife], [ProcInv]: the table as a map from slots to abstract processes; a step
      relation of everything a kernel does to it; the invariant of all reachable states, for
      any file layer that satisfies the laws [FileLayerOk].
    - [Spinlock]: spin locks and interrupt nesting of [spinlock.c] with the instructions of
      the harts interleaved; sleep locks of [sleeplock.c].
    - [Pipe]: the ring buffer of [pipe.c] as a queue of bytes.
    - [Bio]: the buffer cache of [bio.c] with its LRU list.  The class [Cache] is what the
      layers above call, [CacheOk] what they rely on; the code satisfies it, so a client sees an
      array of blocks.
    - [Virtio]: the disk driver [virtio_disk.c] next to the device and all calls that wait in it.
      The device is the class [BlockDevice]; the disk of [Bio] is an instance, so a completed
      call has the effect of the one-step transfer there.  No panic, every command served once,
      no lost wakeup.
    - [Log]: [log.c] over any [Cache].  The disk writes of a run are recorded, and a crash is any
      prefix of them: an operation is atomic and durable, and recovery can itself crash.
    - [Fs]: the code of [fs.c].  [FsBlock]: lemmas on blocks, bitmap, block map and reads
      over the transaction view of [Log].  [FsProps]: the theorems on [balloc], [bmap],
      [dirlookup], [iget], the inode format and path elements.  [FsUser]: [readi] into user
      memory, with copies that fail, inside or outside a transaction.
    - [Syscall]: [syscall.c] and [sysproc.c].  A handler that waits ends in [Blocked] with what it
      has on its stack, and [resume] continues it.  [sys_sleep] returns after the ticks
      it was asked for or when killed; [sys_setpriority].
    - [Trap]: [trap.c] next to the supervisor registers of the hart.  A killed process
      never gets back to user mode; a store fault that [dup_pg] does not resolve repeats.
    - [File]: the file table of [file.c] inside the kernel state, and pipes' allocation and
      closing.  [kernel_files] implements [FileLayer], [kernel_files_ok] proves its laws.
    - [Exec]: [exec.c]; all or nothing for the slot of the calling process, and where the new
      program's stack starts.
    - [Sysfile]: [sysfile.c].  [kernel_calls] implements the interface [FileCalls] of the
      dispatcher.
    - [FdInv]: descriptors of all processes and reference counts of open files agree in every
      reachable state, through all error paths, [fork] and [exit].
    - [Print]: the kernel's [printf], [panic] and [procdump].  [Console]: [uart.c] and [console.c]; the
      input is a line editor, output keeps its order.
    - [Uprint]: [user/printf.c] and [atoi]; numbers printed are read back, and the two [printf]s agree.
    - [Grep]: [user/grep.c]: the matcher decides the language of the pattern; the loop writes the
      lines of a text file that match however [read] cuts the input.
    - [Umalloc]: [user/umalloc.c]: blocks handed out are apart, the free list stays sorted and joined.
    - [Sh]: the parser of [user/sh.c]: it ends on every line, its words are terminated in place,
      and every command tree has a text that is parsed back to it.
    - [Mkfs]: [mkfs/mkfs.c]: the image satisfies what [FsBlock] assumes of a disk, with the files in it.
    - [Cafe]: [concurrency/1.c], every interleaving of the calls of its threads: one order at a time
      per barista, every visit ends, no deadlock, no waiting with enough baristas.
    - [Ucall]: user programs as trees of system calls; the kernel they run on is the interface
      [Streams].  [Ulib]: [user/ulib.c].  [Utils]: [cat], [wc], [grep], [ls] and the other small
      programs; what they print is a function of what is in the files.
    - [Shell]: [runcmd] of [user/sh.c] in a world of processes, pipes and descriptors: the jobs of a
      command are started with the right descriptors, and no pipe end is left open.  [ShMain]:
      the shell's loop over a session of lines, at a terminal it shares with the programs it
      starts, and [user/init.c].
    - [KernMap]: [kvmmake] has enough memory and maps exactly the layout of [memlayout.h].
    - [Hart]: the control registers and their accessors ([riscv.h]), [start.c] and the timer handler of
      [kernelvec.S].  [Plic]: [plic.c] and the interrupt controller.
    - [Boot]: [main.c] on all harts from reset, interleaved with timer and device interrupts; the
      kernel is the interface [Subsystems].  [BootKernel]: the kernel of the other files as an
      instance, so that the invariant of [ProcInv] holds of the machine from reset; [forkret].

    ** Fuel and blocking

    Loops over a size take one unit of fuel per round that size allows: pages of a range
    ([mappages_fuel] also covers a range that wraps around), bytes of a transfer, entries of a
    directory, elements of a path; [PageTable.mappages_terminates], [FsProps.skipelem_spec] and the
    functional theorems, which give the result of the run, show that it is enough.  File
    system code that would wait for an inode lock or for space in the log does not return
    ([Diverge]): nobody else runs inside a file system call here.  Waiting in [sleep], [wait],
    pipes and devices is modelled: the process is off the CPU and its call is resumed.

    A wait in the disk driver, in the console and in the coffee shop is modelled likewise: the caller
    is asleep until its wakeup, and the theorems say when that comes.  [Sh.parse_fuel] and the
    round counts of [Grep], [Umalloc], [Console], [Mkfs] and of the loops of user programs ([Ulib],
    [Utils], [ShMain]) are shown enough by the theorems that give their results.  The other harts' loop on
    [started] in [Boot] is a step that changes nothing.

    ** Not modelled

    Assembly other than [timervec]: [entry.S] sets the stack pointer, and the rest of [kernelvec.S],
    [swtch.S], [trampoline.S] save and restore registers.  [ramdisk.c], which is not built; the test
    programs ([usertests.c], [grind.c] and the like), which exercise the kernel and carry no logic of
    it.  The drivers are not put under the kernel as a whole: [File] and [Trap] keep the console and
    the devices as interfaces ([DevSw], [Devices]), and memory is in order: fences have no effect. *)

From stdpp Require Import base list strings gmap.
From Stdlib Require Import ZArith Lia.

#[global] Open Scope Z_scope.

(** ** Results of kernel code: a value, a call of [panic], or a loop whose fuel ran out. *)

Inductive outcome (A : Type) : Type :=
  | Ok (a : A)
  | Panic (msg : string)
  | Diverge.
Arguments Ok {A} a.
Arguments Panic {A} msg.
Arguments Diverge {A}.

(** The state monad of the model: stateful C code over a state [S] is a function
    from the state at entry to the value returned and the state at exit. *)
Definition M (S A : Type) : Type := S -> outcome (A * S).

Definition ret {S A} (a : A) : M S A := fun s => Ok (a, s).

Definition bind {S A B} (m : M S A) (k : A -> M S B) : M S B :=
  fun s => match m s with
           | Ok (a, s') => k a s'
           | Panic msg => Panic msg
           | Diverge => Diverge
           end.

Definition panic {S A} (msg : string) : M S A := fun _ => Panic msg.

Definition diverge {S A} : M S A := fun _ => Diverge.

Definition gets {S A} (f : S -> A) : M S A := fun s => Ok (f s, s).

Definition modify {S} (f : S -> S) : M S unit := fun s => Ok (tt, f s).

Declare Scope kernel_scope.
Delimit Scope kernel_scope with kernel.

Notation "'let!' x := m 'in' k" :=
  (bind m (fun x => k))
  (at level 10, x binder, m at level 100, k at level 200,
   format "'[v' 'let!'  x  :=  m  'in' '/' k ']'") : kernel_scope.
Notation "'do!' m 'in' k" :=
  (bind m (fun _ => k))
  (at level 10, m at level 100, k at level 200,
   format "'[v' 'do!'  m  'in' '/' k ']'") : kernel_scope.

#[global] Open Scope kernel_scope.

(** ** C integers: values are integers, stored at their width. *)

Definition u8 (x : Z) : Z := x mod 2 ^ 8.
Definition u16 (x : Z) : Z := x mod 2 ^ 16.
Definition u32 (x : Z) : Z := x mod 2 ^ 32.
Definition u64 (x : Z) : Z := x mod 2 ^ 64.

(** Conversion to [int]: two's complement at 32 bits. *)
Definition i32 (x : Z) : Z := (x + 2 ^ 31) mod 2 ^ 32 - 2 ^ 31.

(** [if (v & f)]. *)
Definition has (v f : Z) : bool := negb (Z.land v f =? 0).

(** ** Laws of the monad, as the proofs use them *)

Lemma bind_ok {S A B} (m : M S A) (k : A -> M S B) s a s' :
  m s = Ok (a, s') -> bind m k s = k a s'.
Proof. intros H. unfold bind. by rewrite H. Qed.

Lemma bind_Ok_inv {S A B} (m : M S A) (k : A -> M S B) s r :
  bind m k s = Ok r -> exists a s', m s = Ok (a, s') /\ k a s' = Ok r.
Proof. unfold bind. destruct (m s) as [[a s']| |]; naive_solver. Qed.

Lemma Ok_inv {S A} (a b : A) (s t : S) : Ok (a, s) = Ok (b, t) -> a = b /\ s = t.
Proof. intros H. split; congruence. Qed.

Lemma bind_panic {S A B} (m : M S A) (k : A -> M S B) s msg :
  m s = Panic msg -> bind m k s = Panic msg.
Proof. intros H. unfold bind. by rewrite H. Qed.

Lemma bind_ret {S A B} (a : A) (k : A -> M S B) s : bind (ret a) k s = k a s.
Proof. reflexivity. Qed.

Lemma bind_gets {S A B} (f : S -> A) (k : A -> M S B) s : bind (gets f) k s = k (f s) s.
Proof. reflexivity. Qed.

Lemma bind_modify {S B} (f : S -> S) (k : unit -> M S B) s :
  bind (modify f) k s = k tt (f s).
Proof. reflexivity. Qed.

Lemma bind_assoc {S A B C} (m : M S A) (k : A -> M S B) (l : B -> M S C) s :
  bind (bind m k) l s = bind m (fun a => bind (k a) l) s.
Proof. unfold bind. by destruct (m s) as [[a s']| |]. Qed.

(** The value of a run, and the run itself from its value. *)
Definition value {S A} (o : outcome (A * S)) : option A :=
  match o with Ok (a, _) => Some a | _ => None end.

Lemma value_Some {S A} (o : outcome (A * S)) a : value o = Some a -> exists s, o = Ok (a, s).
Proof. destruct o as [[b s]| |]; [intros [= ->]; eauto | done..]. Qed.

Create Rewrite HintDb monad.
#[export] Hint Rewrite @bind_ret @bind_gets @bind_modify : monad.

(** One step of symbolic execution of monadic code in the goal. *)
Ltac mrun := autorewrite with monad; cbn beta iota.

(** Reduce the conditions of [if]s that have become constants. *)
Ltac ifs := cbn [negb andb orb]; cbv iota.
Tactic Notation "mrun" "with" constr(H) := rewrite (bind_ok _ _ _ _ _ H); cbn beta iota.

(** Inversion of a successful run in hypothesis [H]. *)
Ltac minv H :=
  repeat match type of H with
  | bind (ret _) _ _ = Ok _ => rewrite bind_ret in H
  | bind (gets _) _ _ = Ok _ => rewrite bind_gets in H
  | bind (modify _) _ _ = Ok _ => rewrite bind_modify in H
  | panic _ _ = Ok _ => discriminate H
  | diverge _ = Ok _ => discriminate H
  end; cbn beta iota in H.

(** ** Integers *)

Lemma u8_range x : 0 <= u8 x < 256.
Proof. apply Z.mod_pos_bound. lia. Qed.

Lemma u32_range x : 0 <= u32 x < 2 ^ 32.
Proof. apply Z.mod_pos_bound. lia. Qed.

Lemma u64_range x : 0 <= u64 x < 2 ^ 64.
Proof. apply Z.mod_pos_bound. lia. Qed.

Lemma i32_range x : - 2 ^ 31 <= i32 x < 2 ^ 31.
Proof. unfold i32. pose proof (Z.mod_pos_bound (x + 2 ^ 31) (2 ^ 32)). lia. Qed.

Lemma u8_small x : 0 <= x < 256 -> u8 x = x.
Proof. intros. apply Z.mod_small. lia. Qed.

Lemma u16_small x : 0 <= x < 2 ^ 16 -> u16 x = x.
Proof. intros. apply Z.mod_small. lia. Qed.

Lemma u32_small x : 0 <= x < 2 ^ 32 -> u32 x = x.
Proof. intros. apply Z.mod_small. lia. Qed.

Lemma u64_small x : 0 <= x < 2 ^ 64 -> u64 x = x.
Proof. intros. apply Z.mod_small. lia. Qed.

Lemma i32_small x : - 2 ^ 31 <= x < 2 ^ 31 -> i32 x = x.
Proof. intros. unfold i32. rewrite Z.mod_small; lia. Qed.

Lemma has_spec v f : has v f = true <-> Z.land v f <> 0.
Proof. unfold has. rewrite negb_true_iff, Z.eqb_neq. done. Qed.

Lemma has_false v f : has v f = false <-> Z.land v f = 0.
Proof. unfold has. rewrite negb_false_iff, Z.eqb_eq. done. Qed.

(** Equality of integers bit by bit. *)
Lemma has_pow2 v n : 0 <= n -> has v (2 ^ n) = Z.testbit v n.
Proof.
  intros Hn. unfold has. rewrite Z.land_comm.
  destruct (Z.testbit v n) eqn:E.
  - apply negb_true_iff, Z.eqb_neq. intros H.
    assert (Z.testbit (Z.land (2 ^ n) v) n = false) as H1 by (rewrite H; apply Z.bits_0).
    rewrite Z.land_spec, Z.pow2_bits_true, E in H1 by done. done.
  - apply negb_false_iff, Z.eqb_eq, Z.bits_inj'. intros i Hi.
    rewrite Z.land_spec, Z.bits_0, Z.pow2_bits_eqb by done.
    destruct (Z.eqb_spec n i); subst; rewrite ?E; by rewrite ?andb_false_r.
Qed.

Lemma land_lnot_ones a n : 0 <= n -> Z.land a (Z.lnot (Z.ones n)) = a - a mod 2 ^ n.
Proof.
  intros Hn. rewrite <- Z.ldiff_land, Z.ldiff_ones_r, Z.shiftl_mul_pow2, Z.shiftr_div_pow2 by lia.
  pose proof (Z.div_mod a (2 ^ n)). lia.
Qed.

(** [lor] of numbers with disjoint bits is their sum. *)
Lemma lor_shift_add a b n : 0 <= n -> 0 <= b < 2 ^ n -> Z.lor (a * 2 ^ n) b = a * 2 ^ n + b.
Proof.
  intros Hn Hb. rewrite <- Z.shiftl_mul_pow2 by done.
  assert (Z.land (Z.shiftl a n) b = 0) as Hz.
  { apply Z.bits_inj'. intros i Hi. rewrite Z.land_spec, Z.bits_0, Z.shiftl_spec by done.
    destruct (Z.ltb_spec i n); [by rewrite Z.testbit_neg_r by lia |].
    rewrite <- (Z.mod_small b (2 ^ n)), Z.mod_pow2_bits_high by lia. apply andb_false_r. }
  by rewrite Z.add_nocarry_lxor, Z.lxor_lor by done.
Qed.

Lemma high_bits_0 a n i : 0 <= a < 2 ^ n -> n <= i -> Z.testbit a i = false.
Proof.
  intros Ha Hi. destruct (Z.ltb_spec n 0); [rewrite Z.pow_neg_r in Ha by done; lia |].
  rewrite <- (Z.mod_small a (2 ^ n)) by done. apply Z.mod_pow2_bits_high. lia.
Qed.

Lemma bits_range a n : 0 <= n -> (forall i, n <= i -> Z.testbit a i = false) -> 0 <= a < 2 ^ n.
Proof.
  intros Hn H. assert (a = a mod 2 ^ n) as ->; [| apply Z.mod_pos_bound; lia].
  apply Z.bits_inj'. intros i Hi. destruct (Z.ltb_spec i n).
  - by rewrite Z.mod_pow2_bits_low.
  - by rewrite Z.mod_pow2_bits_high, H.
Qed.

Lemma lor_range a b n : 0 <= n -> 0 <= a < 2 ^ n -> 0 <= b < 2 ^ n -> 0 <= Z.lor a b < 2 ^ n.
Proof.
  intros Hn Ha Hb. apply bits_range; [done |]. intros i Hi.
  by rewrite Z.lor_spec, (high_bits_0 a n), (high_bits_0 b n).
Qed.

Lemma land_range a b n : 0 <= n -> 0 <= a < 2 ^ n -> 0 <= Z.land a b < 2 ^ n.
Proof.
  intros Hn Ha. apply bits_range; [done |]. intros i Hi.
  by rewrite Z.land_spec, (high_bits_0 a n).
Qed.

(** ** Lists *)

Lemma Forall_seq_lt (P : nat -> Prop) n : (forall i, (i < n)%nat -> P i) -> Forall P (seq 0 n).
Proof. intros H. apply Forall_forall. intros x Hx%elem_of_seq. apply H. lia. Qed.

Lemma NoDup_app_swap {A} (l k : list A) : NoDup (l ++ k) -> NoDup (k ++ l).
Proof. rewrite !NoDup_app. naive_solver. Qed.

Lemma fmap_alter {A B} (f : A -> B) g h i (l : list A) :
  (forall x, f (g x) = h (f x)) -> f <$> alter g i l = alter h i (f <$> l).
Proof.
  intros H. apply list_eq. intros j. rewrite list_lookup_fmap, !list_lookup_alter, list_lookup_fmap.
  case_decide as E; subst; [| by rewrite list_lookup_fmap]. destruct (l !! j); simpl; by rewrite ?H.
Qed.

Lemma alter_id {A} (l : list A) i : alter (fun x => x) i l = l.
Proof.
  apply list_eq. intros j. rewrite list_lookup_alter. case_decide; subst; [| done]. by destruct (l !! j).
Qed.

Lemma alter_twice {A} (f g : A -> A) i (l : list A) :
  alter f i (alter g i l) = alter (fun x => f (g x)) i l.
Proof.
  apply list_eq. intros j. rewrite !list_lookup_alter. case_decide as E; [| done].
  rewrite decide_True by done. by destruct (l !! i).
Qed.

(** ** C strings *)

(** The characters of a C string before its 0. *)
Fixpoint cut0 (l : list Z) : list Z :=
  match l with
  | [] => []
  | c :: l' => if c =? 0 then [] else c :: cut0 l'
  end.

Lemma cut0_spec (l w : list Z) k :
  (forall j c, w !! j = Some c -> l !! (k + j)%nat = Some c) -> l !! (k + length w)%nat = Some 0 ->
  Forall (fun c => c <> 0) w -> cut0 (drop k l) = w.
Proof.
  revert k. induction w as [|c w IH]; intros k Hw H0 Hnz.
  - cbn in H0. rewrite Nat.add_0_r in H0. by rewrite (drop_S _ _ _ H0).
  - apply Forall_cons in Hnz as [Hc Hnz]. pose proof (Hw 0%nat c eq_refl) as Hk. rewrite Nat.add_0_r in Hk.
    rewrite (drop_S _ _ _ Hk). cbn [cut0]. destruct (Z.eqb_spec c 0); [done |]. f_equal. apply (IH (S k)).
    + intros j x Hx. specialize (Hw (S j) x Hx). by rewrite Nat.add_succ_r in Hw.
    + cbn [length] in H0. by rewrite Nat.add_succ_r in H0.
    + done.
Qed.
