(* ===== verification/Ring.v ===== *)
(** * Ring: arrays indexed by free-running counters

    The pattern shared by [pipe.c] ([nread], [nwrite]), [console.c] ([cons.r], [cons.w], [cons.e]),
    [uart.c] ([uart_tx_r], [uart_tx_w]) and the two rings of [virtio_disk.c]: an array of [cap]
    elements, a read and a write counter of a machine width that are never reduced, and
    accesses at [counter % cap].  [ringq cap W buf r w q] says that between the counters the
    array holds the queue [q]; it is kept when the counters wrap around at [W], provided
    [cap] divides [W]. *)

From stdpp Require Import base list.
From Stdlib Require Import ZArith Lia.
From S2P Require Import Prelude.

(** The sizes for which the counters work. *)
Class RingSize (cap W : Z) : Prop := {
  rs_pos : 0 < cap;
  rs_lt : cap < W;
  rs_div : (cap | W);
}.

Section Ring.
Context {A : Type} (cap W : Z).

Record ringq (buf : list A) (r w : Z) (q : list A) : Prop := {
  rq_len : Z.of_nat (length buf) = cap;
  rq_cap : Z.of_nat (length q) <= cap;
  rq_r : 0 <= r < W;
  rq_w : w = (r + Z.of_nat (length q)) mod W;
  rq_data : forall j, (j < length q)%nat -> buf !! Z.to_nat ((r + Z.of_nat j) mod cap) = q !! j;
}.

Context {RS : RingSize cap W}.

Lemma mod_cap_W x : (x mod W) mod cap = x mod cap.
Proof.
  destruct RS as [Hcap Hlt [d Hd]]. pose proof (Z.div_mod x W ltac:(lia)) as E. rewrite E at 2.
  replace (W * (x / W) + x mod W) with (x mod W + (d * (x / W)) * cap) by (rewrite Hd; ring).
  by rewrite Z.mod_add by lia.
Qed.

Lemma mod_W_add x y : (x mod W + y) mod W = (x + y) mod W.
Proof. destruct RS. apply Z.add_mod_idemp_l. lia. Qed.

Lemma mod_small_eq a b m : 0 < m -> Z.abs (a - b) < m -> a mod m = b mod m -> a = b.
Proof.
  intros Hm Hab E. pose proof (Z.div_mod a m ltac:(lia)). pose proof (Z.div_mod b m ltac:(lia)).
  destruct (Z.lt_trichotomy (a / m) (b / m)) as [?|[E'|?]]; [nia | rewrite E' in *; lia | nia].
Qed.

Lemma slot_lt x : (Z.to_nat (x mod cap) < Z.to_nat cap)%nat.
Proof. pose proof (Z.mod_pos_bound x cap rs_pos). lia. Qed.

Lemma slot_inj a (j k : nat) :
  Z.of_nat j < cap -> Z.of_nat k < cap ->
  Z.to_nat ((a + Z.of_nat j) mod cap) = Z.to_nat ((a + Z.of_nat k) mod cap) -> j = k.
Proof.
  destruct RS. intros Hj Hk E. pose proof (Z.mod_pos_bound (a + Z.of_nat j) cap rs_pos).
  pose proof (Z.mod_pos_bound (a + Z.of_nat k) cap rs_pos).
  cut (a + Z.of_nat j = a + Z.of_nat k); [lia |]. apply (mod_small_eq _ _ cap); lia.
Qed.

Lemma rq_nil buf r : Z.of_nat (length buf) = cap -> 0 <= r < W -> ringq buf r r [].
Proof.
  destruct RS. intros Hl Hr. split; cbn [length]; try lia.
  rewrite Z.add_0_r, Z.mod_small; lia.
Qed.

Lemma rq_w_range buf r w q : ringq buf r w q -> 0 <= w < W.
Proof. destruct RS. intros []. subst w. apply Z.mod_pos_bound. lia. Qed.

(** The counters tell the length of the queue. *)
Lemma rq_count buf r w q : ringq buf r w q -> (w - r) mod W = Z.of_nat (length q).
Proof.
  destruct RS. intros []. subst w. rewrite Zminus_mod_idemp_l.
  replace (r + Z.of_nat (length q) - r) with (Z.of_nat (length q)) by lia.
  apply Z.mod_small. lia.
Qed.

Lemma rq_empty buf r w q : ringq buf r w q -> (w =? r) = bool_decide (q = []).
Proof.
  destruct RS. intros H. pose proof (rq_count _ _ _ _ H) as E. pose proof (rq_w_range _ _ _ _ H).
  destruct H. destruct (Z.eqb_spec w r) as [Hw|Hw].
  - rewrite Hw, Z.sub_diag, Z.mod_0_l in E by lia. rewrite bool_decide_eq_true_2; [done |].
    apply length_zero_iff_nil. lia.
  - rewrite bool_decide_eq_false_2; [done |]. intros ->. apply Hw.
    apply (mod_small_eq _ _ W); [lia | lia |]. rewrite rq_w0. cbn [length]. rewrite Z.add_0_r.
    by rewrite Z.mod_mod by lia.
Qed.

Lemma rq_full buf r w q :
  ringq buf r w q -> (w =? (r + cap) mod W) = bool_decide (Z.of_nat (length q) = cap).
Proof.
  destruct RS. intros []. rewrite rq_w0. destruct (Z.eqb_spec ((r + Z.of_nat (length q)) mod W) ((r + cap) mod W)) as [E|E].
  - apply mod_small_eq in E; [| lia..]. rewrite bool_decide_eq_true_2; [done | lia].
  - rewrite bool_decide_eq_false_2; [done |]. intros H. apply E. by rewrite H.
Qed.

Lemma rq_push buf r w q x :
  ringq buf r w q -> Z.of_nat (length q) < cap ->
  ringq (<[Z.to_nat (w mod cap) := x]> buf) r ((w + 1) mod W) (q ++ [x]).
Proof.
  destruct RS. intros [] Hq. split; rewrite ?length_insert, ?length_app; cbn [length]; try lia.
  - rewrite rq_w0, mod_W_add. f_equal. lia.
  - intros j Hj. rewrite rq_w0, mod_cap_W. destruct (decide (j = length q)) as [->|Hne].
    + rewrite list_lookup_insert_eq by (pose proof (slot_lt (r + Z.of_nat (length q))); lia).
      by rewrite lookup_app_r, Nat.sub_diag by lia.
    + rewrite list_lookup_insert_ne by (intros E%slot_inj; lia).
      rewrite lookup_app_l by lia. apply rq_data0. lia.
Qed.

Lemma rq_head buf r w x q : ringq buf r w (x :: q) -> buf !! Z.to_nat (r mod cap) = Some x.
Proof. destruct RS. intros []. specialize (rq_data0 0%nat). rewrite Z.add_0_r in rq_data0. apply rq_data0. simpl. lia. Qed.

Lemma rq_pop buf r w x q : ringq buf r w (x :: q) -> ringq buf ((r + 1) mod W) w q.
Proof.
  destruct RS. intros []. cbn [length] in *. split; try lia.
  - apply Z.mod_pos_bound. lia.
  - rewrite rq_w0, mod_W_add. f_equal. lia.
  - intros j Hj. specialize (rq_data0 (S j)). change ((x :: q) !! S j) with (q !! j) in rq_data0.
    rewrite <- rq_data0 by lia. f_equal. f_equal.
    rewrite <- mod_cap_W, mod_W_add, mod_cap_W. f_equal. lia.
Qed.

(** Taking back the last element written. *)
Lemma rq_last buf r w q x :
  ringq buf r w (q ++ [x]) -> buf !! Z.to_nat (((w - 1) mod W) mod cap) = Some x.
Proof.
  destruct RS. intros []. rewrite length_app in *. cbn [length] in *.
  specialize (rq_data0 (length q)). rewrite lookup_app_r, Nat.sub_diag in rq_data0 by lia.
  cbn in rq_data0. rewrite <- rq_data0 by lia. f_equal. f_equal.
  rewrite rq_w0, mod_cap_W, <- (mod_cap_W (_ - 1)), Zminus_mod_idemp_l, mod_cap_W. f_equal. lia.
Qed.

Lemma rq_unpush buf r w q x : ringq buf r w (q ++ [x]) -> ringq buf r ((w - 1) mod W) q.
Proof.
  destruct RS. intros []. rewrite length_app in *. cbn [length] in *. split; try lia.
  - rewrite rq_w0, Zminus_mod_idemp_l. f_equal. lia.
  - intros j Hj. rewrite rq_data0 by lia. by rewrite lookup_app_l.
Qed.

(** Dropping a suffix of a queue leaves a prefix held up to the smaller counter, and the
    other way around two queues in a row make one. *)
Lemma rq_split buf r w q1 q2 :
  ringq buf r w (q1 ++ q2) ->
  ringq buf r ((r + Z.of_nat (length q1)) mod W) q1 /\ ringq buf ((r + Z.of_nat (length q1)) mod W) w q2.
Proof.
  destruct RS. intros []. rewrite length_app in *. split.
  - split; try lia. intros j Hj. rewrite rq_data0 by lia. by rewrite lookup_app_l.
  - split; try lia.
    + apply Z.mod_pos_bound. lia.
    + rewrite rq_w0, mod_W_add. f_equal. lia.
    + intros j Hj. specialize (rq_data0 (length q1 + j)%nat). rewrite lookup_app_r in rq_data0 by lia.
      replace (length q1 + j - length q1)%nat with j in rq_data0 by lia. rewrite <- rq_data0 by lia.
      f_equal. f_equal. rewrite <- mod_cap_W, mod_W_add, mod_cap_W. f_equal. lia.
Qed.

End Ring.

Arguments ringq {A}.
