(* ===== verification/Fcntl.v ===== *)
(** * Fcntl: the flags of [open], [kernel/fcntl.h], which the kernel and user programs share. *)

From Stdlib Require Import ZArith.
Local Open Scope Z_scope.

Definition O_RDONLY : Z := 0x000.
Definition O_WRONLY : Z := 0x001.
Definition O_RDWR : Z := 0x002.
Definition O_CREATE : Z := 0x200.
Definition O_TRUNC : Z := 0x400.
