(* ===== verification/Riscv.v ===== *)
(** * Riscv: addresses, page-table entries and the memory layout

    The macros of [kernel/riscv.h] and [kernel/memlayout.h] the rest of the kernel
    computes with, and the arithmetic facts about them: rounding to pages, the
    split of a virtual address into its three table indices, the packing of a
    physical page number with flag bits in an Sv39 entry. *)

From stdpp Require Import base list.
From Stdlib Require Import ZArith Lia.
From S2P Require Import Prelude.

Definition PGSIZE : Z := 4096.
Definition PGSHIFT : Z := 12.

Definition PGROUNDUP (sz : Z) : Z := Z.land (u64 (sz + PGSIZE - 1)) (Z.lnot (PGSIZE - 1)).
Definition PGROUNDDOWN (a : Z) : Z := Z.land a (Z.lnot (PGSIZE - 1)).

Definition PTE_V : Z := Z.shiftl 1 0.
Definition PTE_R : Z := Z.shiftl 1 1.
Definition PTE_W : Z := Z.shiftl 1 2.
Definition PTE_X : Z := Z.shiftl 1 3.
Definition PTE_U : Z := Z.shiftl 1 4.
Definition PTE_COW : Z := Z.shiftl 1 8.

Definition PA2PTE (pa : Z) : Z := u64 (Z.shiftl (Z.shiftr pa 12) 10).
Definition PTE2PA (pte : Z) : Z := u64 (Z.shiftl (Z.shiftr pte 10) 12).
Definition PTE_FLAGS (pte : Z) : Z := Z.land pte 1023.

Definition PXMASK : Z := 511.
Definition PXSHIFT (level : Z) : Z := PGSHIFT + 9 * level.
Definition PX (level va : Z) : Z := Z.land (Z.shiftr va (PXSHIFT level)) PXMASK.

Definition MAXVA : Z := Z.shiftl 1 (9 + 9 + 9 + 12 - 1).

Definition UART0 : Z := 268435456.
Definition VIRTIO0 : Z := 268439552.
Definition PLIC : Z := 201326592.
Definition UART0_IRQ : Z := 10.
Definition VIRTIO0_IRQ : Z := 1.
Definition KERNBASE : Z := 2147483648.
Definition PHYSTOP : Z := KERNBASE + 128 * 1024 * 1024.
Definition TRAMPOLINE : Z := MAXVA - PGSIZE.
Definition KSTACK (p : Z) : Z := TRAMPOLINE - (p + 1) * 2 * PGSIZE.
Definition TRAPFRAME : Z := TRAMPOLINE - PGSIZE.

(** [kernel/param.h] *)
Definition NPROC : nat := 64.
Definition NOFILE : nat := 16.
Definition NFILE : nat := 100.
Definition NINODE : nat := 50.
Definition NDEV : Z := 10.
Definition ROOTDEV : Z := 1.
Definition MAXARG : nat := 32.
Definition MAXOPBLOCKS : Z := 10.
Definition LOGSIZE : Z := MAXOPBLOCKS * 3.
Definition NBUF : nat := 30.
Definition MAXPATH : Z := 128.

(** ** Facts *)

Ltac unfold_consts :=
  unfold TRAPFRAME, TRAMPOLINE, PHYSTOP, KERNBASE, MAXVA, PGSIZE in *;
  change (Z.shiftl 1 (9 + 9 + 9 + 12 - 1)) with 274877906944 in *.

Lemma PGROUNDDOWN_eq a : PGROUNDDOWN a = a - a mod PGSIZE.
Proof. apply (land_lnot_ones a 12). lia. Qed.

Lemma PGROUNDUP_eq a : PGROUNDUP a = u64 (a + 4095) - u64 (a + 4095) mod PGSIZE.
Proof.
  unfold PGROUNDUP. replace (a + PGSIZE - 1) with (a + 4095) by (unfold PGSIZE; lia).
  apply (land_lnot_ones _ 12). lia.
Qed.

Lemma PGROUNDDOWN_aligned a : PGROUNDDOWN a mod PGSIZE = 0.
Proof.
  rewrite PGROUNDDOWN_eq. unfold PGSIZE. pose proof (Z.div_mod a 4096).
  replace (a - a mod 4096) with (a / 4096 * 4096) by lia. apply Z.mod_mul. lia.
Qed.

Lemma PGROUNDDOWN_bounds a : PGROUNDDOWN a <= a < PGROUNDDOWN a + PGSIZE.
Proof. rewrite PGROUNDDOWN_eq. unfold PGSIZE. pose proof (Z.mod_pos_bound a 4096). lia. Qed.

Lemma PGROUNDDOWN_id a : a mod PGSIZE = 0 -> PGROUNDDOWN a = a.
Proof. rewrite PGROUNDDOWN_eq. lia. Qed.

Lemma PGROUNDUP_aligned a : PGROUNDUP a mod PGSIZE = 0.
Proof.
  rewrite PGROUNDUP_eq, <- PGROUNDDOWN_eq. apply PGROUNDDOWN_aligned.
Qed.

Lemma PGROUNDUP_bounds a :
  0 <= a -> a + 4095 < 2 ^ 64 -> a <= PGROUNDUP a < a + PGSIZE.
Proof.
  intros. rewrite PGROUNDUP_eq, u64_small by lia. unfold PGSIZE.
  pose proof (Z.mod_pos_bound (a + 4095) 4096). lia.
Qed.

Lemma PGROUNDUP_id a : 0 <= a -> a + 4095 < 2 ^ 64 -> a mod PGSIZE = 0 -> PGROUNDUP a = a.
Proof.
  intros H0 H1 H2. rewrite PGROUNDUP_eq, u64_small by lia. unfold PGSIZE in *.
  pose proof (Z.div_mod a 4096). rewrite H2 in *.
  replace (a + 4095) with (4095 + a / 4096 * 4096) by lia.
  rewrite Z.mod_add, (Z.mod_small 4095) by lia. lia.
Qed.

Lemma aligned_next a : a mod PGSIZE = 0 -> (a + PGSIZE) mod PGSIZE = 0.
Proof.
  intros H. replace (a + PGSIZE) with (a + 1 * PGSIZE) by lia.
  by rewrite Z.mod_add by (unfold PGSIZE; lia).
Qed.

Lemma PX_eq l va : 0 <= l -> PX l va = (va / 2 ^ (12 + 9 * l)) mod 512.
Proof.
  intros. unfold PX, PXSHIFT, PXMASK, PGSHIFT.
  change 511 with (Z.ones 9). rewrite Z.land_ones, Z.shiftr_div_pow2 by lia. done.
Qed.

Lemma PX_range l va : 0 <= l -> 0 <= PX l va < 512.
Proof. intros. rewrite PX_eq by done. apply Z.mod_pos_bound. lia. Qed.

Lemma PX_inj va va' :
  0 <= va < MAXVA -> 0 <= va' < MAXVA -> va mod PGSIZE = va' mod PGSIZE ->
  PX 2 va = PX 2 va' -> PX 1 va = PX 1 va' -> PX 0 va = PX 0 va' -> va = va'.
Proof.
  rewrite !PX_eq by lia. unfold_consts.
  change (2 ^ (12 + 9 * 2)) with (4096 * 512 * 512).
  change (2 ^ (12 + 9 * 1)) with (4096 * 512). change (2 ^ (12 + 9 * 0)) with 4096.
  rewrite <- !Z.div_div by lia.
  intros ? ? Ho H2 H1 H0.
  assert (0 <= va / 4096 / 512 / 512 < 512 /\ 0 <= va' / 4096 / 512 / 512 < 512) as [??].
  { rewrite !Z.div_div by lia. split; split; try (apply Z.div_pos; lia);
      apply Z.div_lt_upper_bound; lia. }
  rewrite !(Z.mod_small (_ / 512)) in H2 by done.
  pose proof (Z.div_mod va 4096). pose proof (Z.div_mod va' 4096).
  pose proof (Z.div_mod (va / 4096) 512). pose proof (Z.div_mod (va' / 4096) 512).
  pose proof (Z.div_mod (va / 4096 / 512) 512). pose proof (Z.div_mod (va' / 4096 / 512) 512).
  lia.
Qed.

(** A page number and ten flag bits packed into an entry come back unchanged. *)
Lemma PA2PTE_eq pa : 0 <= pa < 2 ^ 56 -> PA2PTE pa = pa / 4096 * 1024.
Proof.
  intros H. unfold PA2PTE. rewrite Z.shiftr_div_pow2, Z.shiftl_mul_pow2 by lia.
  apply u64_small. change (2 ^ 12) with 4096. change (2 ^ 10) with 1024.
  assert (0 <= pa / 4096 < 2 ^ 44); [| lia].
  split; [apply Z.div_pos; lia | apply Z.div_lt_upper_bound; lia].
Qed.

Lemma PA2PTE_lor pa f :
  0 <= pa < 2 ^ 56 -> 0 <= f < 1024 -> Z.lor (PA2PTE pa) f = pa / 4096 * 1024 + f.
Proof. intros. rewrite PA2PTE_eq by done. apply (lor_shift_add _ _ 10); lia. Qed.

Lemma PTE2PA_eq pte : 0 <= pte < 2 ^ 54 -> PTE2PA pte = pte / 1024 * 4096.
Proof.
  intros H. unfold PTE2PA. rewrite Z.shiftr_div_pow2, Z.shiftl_mul_pow2 by lia.
  apply u64_small. change (2 ^ 12) with 4096. change (2 ^ 10) with 1024.
  assert (0 <= pte / 1024 < 2 ^ 44); [| lia].
  split; [apply Z.div_pos; lia | apply Z.div_lt_upper_bound; lia].
Qed.

Lemma PTE_FLAGS_eq pte : PTE_FLAGS pte = pte mod 1024.
Proof. unfold PTE_FLAGS. apply (Z.land_ones pte 10). lia. Qed.

Lemma pte_pack pa f :
  0 <= pa < 2 ^ 56 -> pa mod PGSIZE = 0 -> 0 <= f < 1024 ->
  PTE2PA (Z.lor (PA2PTE pa) f) = pa /\ PTE_FLAGS (Z.lor (PA2PTE pa) f) = f.
Proof.
  intros Hpa Hal Hf. rewrite PA2PTE_lor by done. unfold PGSIZE in Hal.
  assert (0 <= pa / 4096 < 2 ^ 44)
    by (split; [apply Z.div_pos; lia | apply Z.div_lt_upper_bound; lia]).
  rewrite PTE2PA_eq, PTE_FLAGS_eq by lia.
  rewrite Z.div_add_l, (Z.div_small f) by lia.
  rewrite (Z.add_comm _ f), Z.mod_add, (Z.mod_small f) by lia.
  pose proof (Z.div_mod pa 4096). lia.
Qed.

(** The virtual pages of the kernel stacks are distinct and separated by guard pages. *)
Lemma KSTACK_apart p q : 0 <= p < q -> KSTACK q + 2 * PGSIZE <= KSTACK p.
Proof. intros. unfold KSTACK, PGSIZE. lia. Qed.
