(* ===== verification/Mem.v ===== *)
(** * Mem: physical memory and [kernel/string.c]

    Memory is a total function from byte addresses to bytes.  Multi-byte objects
    (page-table entries, trapframe slots, free-list links) are read and written
    little-endian by [load] and [store].  The routines of [string.c] are modelled
    as their loops; [memset] and [memmove] also have a closed form, one
    update of the whole range, which the rest of the kernel model calls, and the
    loops are proved to compute exactly that form. *)

From stdpp Require Import base list.
From Stdlib Require Import ZArith Lia.
From S2P Require Import Prelude.

Definition mem : Type := Z -> Z.

(** [*(char* )a = v] *)
Definition upd (m : mem) (a v : Z) : mem := fun x => if x =? a then v else m x.

Definition in_range (a n x : Z) : bool := (a <=? x) && (x <? a + n).

(** Little-endian load of [n] bytes. *)
Fixpoint load (n : nat) (m : mem) (a : Z) : Z :=
  match n with
  | O => 0
  | S n' => u8 (m a) + 256 * load n' m (a + 1)
  end.

(** Little-endian store of the [n] low bytes of [v]. *)
Definition store (n : nat) (m : mem) (a v : Z) : mem :=
  fun x => if in_range a (Z.of_nat n) x then (v / 256 ^ (x - a)) mod 256 else m x.

Definition load64 : mem -> Z -> Z := load 8.
Definition store64 : mem -> Z -> Z -> mem := store 8.
Definition load32 : mem -> Z -> Z := load 4.
Definition store32 : mem -> Z -> Z -> mem := store 4.

(** Closed forms. *)
Definition memset (m : mem) (dst c n : Z) : mem :=
  fun x => if in_range dst n x then u8 c else m x.

Definition memmove (m : mem) (dst src n : Z) : mem :=
  fun x => if in_range dst n x then m (src + (x - dst)) else m x.

(** ** The loops of [string.c] *)

Fixpoint memset_loop (n : nat) (i : Z) (m : mem) (dst c : Z) : mem :=
  match n with
  | O => m
  | S n' => memset_loop n' (i + 1) (upd m (dst + i) (u8 c)) dst c
  end.

Fixpoint memcmp (n : nat) (m : mem) (s1 s2 : Z) : Z :=
  match n with
  | O => 0
  | S n' => if negb (m s1 =? m s2) then m s1 - m s2 else memcmp n' m (s1 + 1) (s2 + 1)
  end.

(** [while(n-- > 0) *--d = *--s;] with [d] and [s] one past the last byte. *)
Fixpoint memmove_bwd (n : nat) (m : mem) (d s : Z) : mem :=
  match n with
  | O => m
  | S n' => memmove_bwd n' (upd m (d - 1) (m (s - 1))) (d - 1) (s - 1)
  end.

(** [while(n-- > 0) *d++ = *s++;] *)
Fixpoint memmove_fwd (n : nat) (m : mem) (d s : Z) : mem :=
  match n with
  | O => m
  | S n' => memmove_fwd n' (upd m d (m s)) (d + 1) (s + 1)
  end.

Definition memmove_loop (m : mem) (dst src : Z) (n : nat) : mem :=
  if (n =? 0)%nat then m
  else if (src <? dst) && (dst <? src + Z.of_nat n)
  then memmove_bwd n m (dst + Z.of_nat n) (src + Z.of_nat n)
  else memmove_fwd n m dst src.

Definition memcpy (m : mem) (dst src : Z) (n : nat) : mem := memmove_loop m dst src n.

Fixpoint strncmp (n : nat) (m : mem) (p q : Z) : Z :=
  match n with
  | O => 0
  | S n' => if negb (m p =? 0) && (m p =? m q) then strncmp n' m (p + 1) (q + 1)
            else u8 (m p) - u8 (m q)
  end.

(** First loop of [strncpy]: the memory, how often the second loop runs, and [s]. *)
Fixpoint strncpy_copy (n : nat) (m : mem) (s t : Z) : mem * nat * Z :=
  match n with
  | O => (m, O, s)
  | S n' => let c := m t in
            let m' := upd m s c in
            if c =? 0 then (m', n', s + 1) else strncpy_copy n' m' (s + 1) (t + 1)
  end.

Fixpoint strncpy_zero (n : nat) (m : mem) (s : Z) : mem :=
  match n with
  | O => m
  | S n' => strncpy_zero n' (upd m s 0) (s + 1)
  end.

Definition strncpy (m : mem) (s t : Z) (n : nat) : mem :=
  let '(m', k, s') := strncpy_copy n m s t in strncpy_zero k m' s'.

(** The loop of [safestrcpy], entered with [n - 1] copies allowed. *)
Fixpoint safestrcpy_copy (n : nat) (m : mem) (s t : Z) : mem * Z :=
  match n with
  | O => (m, s)
  | S n' => let c := m t in
            let m' := upd m s c in
            if c =? 0 then (m', s + 1) else safestrcpy_copy n' m' (s + 1) (t + 1)
  end.

Definition safestrcpy (m : mem) (s t n : Z) : mem :=
  if n <=? 0 then m
  else let '(m', s') := safestrcpy_copy (Z.to_nat (n - 1)) m s t in upd m' s' 0.

(** [strlen] on a string whose NUL is among the first [fuel] bytes. *)
Fixpoint strlen (fuel : nat) (m : mem) (s : Z) (n : Z) : option Z :=
  match fuel with
  | O => None
  | S f => if m (s + n) =? 0 then Some n else strlen f m s (n + 1)
  end.

(** ** Reference views *)

(** The characters of the string at [a], at most [n] of them. *)
Fixpoint cstr (n : nat) (m : mem) (a : Z) : list Z :=
  match n with
  | O => []
  | S n' => if m a =? 0 then [] else m a :: cstr n' m (a + 1)
  end.

(** ** Loads and stores *)

Lemma in_range_spec a n x : in_range a n x = true <-> a <= x < a + n.
Proof. unfold in_range. rewrite andb_true_iff, Z.leb_le, Z.ltb_lt. lia. Qed.

Lemma in_range_false a n x : in_range a n x = false <-> ~ (a <= x < a + n).
Proof. rewrite <- in_range_spec. by destruct in_range. Qed.

(** Case split on a range test in the goal, with the arithmetic it stands for. *)
Ltac range_case :=
  match goal with
  | |- context [in_range ?a ?n ?x] =>
      let E := fresh "Hr" in
      destruct (in_range a n x) eqn:E;
      [apply in_range_spec in E | apply in_range_false in E]
  | |- context [?a =? ?b] => destruct (Z.eqb_spec a b)
  end.

Lemma load_range n m a : 0 <= load n m a < 256 ^ Z.of_nat n.
Proof.
  revert a. induction n as [|n IH]; intros a; simpl load; [lia |].
  rewrite Nat2Z.inj_succ, Z.pow_succ_r by lia.
  pose proof (u8_range (m a)). specialize (IH (a + 1)). lia.
Qed.

Lemma load64_range m a : 0 <= load64 m a < 2 ^ 64.
Proof. apply (load_range 8). Qed.

Lemma load_ext n m m' a :
  (forall x, a <= x < a + Z.of_nat n -> m x = m' x) -> load n m a = load n m' a.
Proof.
  revert a. induction n as [|n IH]; intros a H; simpl; [done |].
  rewrite H by lia. f_equal. f_equal. apply IH. intros x Hx. apply H. lia.
Qed.

Lemma store_other n m a v x :
  ~ (a <= x < a + Z.of_nat n) -> store n m a v x = m x.
Proof. intros H. unfold store. by rewrite (proj2 (in_range_false _ _ _) H). Qed.

Lemma load_store_gen n k m a v b :
  a <= b -> b + Z.of_nat n <= a + Z.of_nat k ->
  load n (store k m a v) b = (v / 256 ^ (b - a)) mod 256 ^ Z.of_nat n.
Proof.
  revert b. induction n as [|n IH]; intros b Hb Hn; simpl load.
  { by rewrite Z.mod_1_r. }
  rewrite IH by lia. unfold store at 1. rewrite (proj2 (in_range_spec _ _ _)) by lia.
  unfold u8. change (2 ^ 8) with 256. rewrite Z.mod_mod by lia.
  rewrite Nat2Z.inj_succ, Z.pow_succ_r, Z.rem_mul_r by lia.
  replace (b + 1 - a) with (1 + (b - a)) by lia.
  rewrite Z.pow_add_r, Z.pow_1_r, (Z.mul_comm 256 (256 ^ (b - a))), <- Z.div_div by lia. done.
Qed.

Lemma load_store_eq n m a v : load n (store n m a v) a = v mod 256 ^ Z.of_nat n.
Proof. rewrite load_store_gen by lia. by rewrite Z.sub_diag, Z.div_1_r. Qed.

Lemma load_store_ne n k m a b v :
  b + Z.of_nat n <= a \/ a + Z.of_nat k <= b -> load n (store k m a v) b = load n m b.
Proof. intros H. apply load_ext. intros x Hx. apply store_other. lia. Qed.

Lemma load64_store64 m a v : load64 (store64 m a v) a = u64 v.
Proof.
  unfold load64, store64. rewrite load_store_gen by lia. by rewrite Z.sub_diag, Z.div_1_r.
Qed.

Lemma load64_store64_ne m a b v :
  b + 8 <= a \/ a + 8 <= b -> load64 (store64 m a v) b = load64 m b.
Proof. intros H. apply load_ext. intros x Hx. apply store_other. lia. Qed.

Lemma load_memset_zero n m a k b :
  a <= b -> b + Z.of_nat n <= a + k -> load n (memset m a 0 k) b = 0.
Proof.
  revert b. induction n as [|n IH]; intros b Hb Hn; simpl; [done |].
  rewrite IH by lia. unfold memset. rewrite (proj2 (in_range_spec _ _ _)) by lia. done.
Qed.

Lemma memset_other m a c k x : ~ (a <= x < a + k) -> memset m a c k x = m x.
Proof. intros H. unfold memset. by rewrite (proj2 (in_range_false _ _ _) H). Qed.

Lemma memmove_other m d s k x : ~ (d <= x < d + k) -> memmove m d s k x = m x.
Proof. intros H. unfold memmove. by rewrite (proj2 (in_range_false _ _ _) H). Qed.

(** ** Correctness of the string routines *)

Lemma memset_loop_spec n i m dst c x :
  memset_loop n i m dst c x = memset m (dst + i) c (Z.of_nat n) x.
Proof.
  revert i m. induction n as [|n IH]; intros i m; simpl memset_loop.
  { unfold memset. range_case; [lia | done]. }
  rewrite IH. unfold memset, upd. repeat range_case; done || lia.
Qed.

Lemma memmove_fwd_spec n m d s x :
  d <= s \/ s + Z.of_nat n <= d ->
  memmove_fwd n m d s x = memmove m d s (Z.of_nat n) x.
Proof.
  revert m d s. induction n as [|n IH]; intros m d s H; simpl memmove_fwd.
  { unfold memmove. range_case; [lia | done]. }
  rewrite IH by lia. unfold memmove, upd.
  repeat range_case; try lia; try done; f_equal; lia.
Qed.

Lemma memmove_bwd_spec n m d s x :
  s <= d ->
  memmove_bwd n m (d + Z.of_nat n) (s + Z.of_nat n) x = memmove m d s (Z.of_nat n) x.
Proof.
  revert m. induction n as [|n IH]; intros m H; simpl memmove_bwd.
  { unfold memmove. range_case; [lia | done]. }
  replace (d + Z.of_nat (S n) - 1) with (d + Z.of_nat n) by lia.
  replace (s + Z.of_nat (S n) - 1) with (s + Z.of_nat n) by lia.
  rewrite IH by lia. unfold memmove, upd.
  repeat range_case; try lia; try done; f_equal; lia.
Qed.

Lemma memmove_loop_eq m d s n x : memmove_loop m d s n x = memmove m d s (Z.of_nat n) x.
Proof.
  unfold memmove_loop. destruct (Nat.eqb_spec n 0) as [->|Hn].
  { unfold memmove. range_case; [lia | done]. }
  destruct ((s <? d) && (d <? s + Z.of_nat n)) eqn:E.
  - apply memmove_bwd_spec. lia.
  - apply memmove_fwd_spec. lia.
Qed.

Lemma cstr_nil n m a : m a = 0 -> cstr n m a = [].
Proof. intros H. destruct n; simpl; [done |]. by rewrite H. Qed.

Lemma strncmp_zero_iff n m p q :
  (forall a, 0 <= m a < 256) ->
  strncmp n m p q = 0 <-> cstr n m p = cstr n m q.
Proof.
  intros Hm. revert p q. induction n as [|n IH]; intros p q; simpl; [done |].
  rewrite !u8_small by apply Hm.
  destruct (Z.eqb_spec (m p) 0) as [Hp|Hp]; simpl.
  - destruct (Z.eqb_spec (m q) 0); simpl; rewrite ?Hp; split; intros; try lia; done.
  - destruct (Z.eqb_spec (m p) (m q)) as [He|He]; simpl.
    + destruct (Z.eqb_spec (m q) 0); [lia |]. rewrite IH, He. split; [by intros -> | congruence].
    + destruct (Z.eqb_spec (m q) 0); split; intros H; try lia; try done. injection H. lia.
Qed.

Lemma strncpy_zero_spec n m s x :
  strncpy_zero n m s x = memset m s 0 (Z.of_nat n) x.
Proof.
  revert m s. induction n as [|n IH]; intros m s; simpl strncpy_zero.
  { unfold memset. range_case; [lia | done]. }
  rewrite IH. unfold memset, upd. repeat range_case; done || lia.
Qed.

Lemma cstr_ext n m m' a :
  (forall x, a <= x < a + Z.of_nat n -> m x = m' x) -> cstr n m a = cstr n m' a.
Proof.
  revert a. induction n as [|n IH]; intros a H; simpl; [done |].
  rewrite H by lia. by rewrite (IH (a + 1)) by (intros; apply H; lia).
Qed.

(** Bytes [s .. s+n) do not overlap bytes [t .. t+n). *)
Definition apart (s t n : Z) : Prop := s + n <= t \/ t + n <= s.

Lemma safestrcpy_copy_spec n m s t m' s' :
  apart s t (Z.of_nat n) -> safestrcpy_copy n m s t = (m', s') ->
  s <= s' <= s + Z.of_nat n /\
  (forall x, ~ (s <= x < s + Z.of_nat n) -> m' x = m x) /\
  cstr (S n) (upd m' s' 0) s = cstr n m t.
Proof.
  unfold apart. revert m s t. induction n as [|n IH]; intros m s t Hd H; simpl in H.
  { simplify_eq. split_and!; [lia | lia | done |]. simpl. unfold upd. by rewrite Z.eqb_refl. }
  simpl cstr at 2. destruct (Z.eqb_spec (m t) 0) as [Hc|Hc].
  - simplify_eq. split_and!; [lia | lia | |].
    + intros x Hx. unfold upd. range_case; [lia | done].
    + simpl. unfold upd. repeat (range_case; try lia; try done).
  - apply IH in H as (Hs & Ho & Hstr); [| lia]. split_and!; [lia | lia | |].
    + intros x Hx. rewrite Ho by lia. unfold upd. range_case; [lia | done].
    + rewrite <- (cstr_ext n (upd m s (m t)) m (t + 1)), <- Hstr
        by (intros; unfold upd; range_case; [lia | done]).
      remember (S n) as n1. simpl.
      assert (upd m' s' 0 s = m t) as Hv.
      { unfold upd at 1. range_case; [lia |]. rewrite Ho by lia. unfold upd. by rewrite Z.eqb_refl. }
      rewrite Hv. by destruct (Z.eqb_spec (m t) 0).
Qed.

Lemma strncpy_copy_spec n m s t m' k s' :
  apart s t (Z.of_nat n) -> strncpy_copy n m s t = (m', k, s') ->
  s' + Z.of_nat k = s + Z.of_nat n /\
  (forall x, ~ (s <= x < s') -> m' x = m x) /\
  (forall i, s <= i < s' -> m' i = nth (Z.to_nat (i - s)) (cstr n m t) 0) /\
  Z.of_nat (length (cstr n m t)) <= s' - s.
Proof.
  unfold apart. revert m s t. induction n as [|n IH]; intros m s t Hd H; simpl in H.
  { simplify_eq. simpl. split_and!; [lia | done | lia | lia]. }
  simpl cstr. destruct (Z.eqb_spec (m t) 0) as [Hc|Hc].
  - simplify_eq. simpl. split_and!; [lia | | | lia].
    + intros x Hx. unfold upd. range_case; [lia | done].
    + intros i Hi. replace i with s by lia. rewrite Z.sub_diag. simpl.
      unfold upd. by rewrite Z.eqb_refl.
  - apply IH in H as (Hs & Ho & Hstr & Hlen); [| lia].
    rewrite (cstr_ext n (upd m s (m t)) m) in Hstr, Hlen
      by (intros; unfold upd; range_case; [lia | done]).
    split_and!; [lia | | | simpl; lia].
    + intros x Hx. rewrite Ho by lia. unfold upd. range_case; [lia | done].
    + intros i Hi. destruct (Z.eq_dec i s) as [->|Hne].
      * rewrite Z.sub_diag. simpl. rewrite Ho by lia. unfold upd. by rewrite Z.eqb_refl.
      * rewrite Hstr by lia. replace (Z.to_nat (i - s)) with (S (Z.to_nat (i - (s + 1)))) by lia.
        done.
Qed.

(** ** Properties *)

(** [memmove] moves the [n] source bytes to the destination whatever the overlap of
    the two ranges, in either direction, and changes no other byte: the two copying loops
    of [string.c] compute the one-step update of the range. *)
Lemma memmove_correct (m : mem) (dst src : Z) (n : nat) (x : Z) :
  memmove_loop m dst src n x =
  if in_range dst (Z.of_nat n) x then m (src + (x - dst)) else m x.
Proof. apply memmove_loop_eq. Qed.

(** [safestrcpy] into a buffer of [n > 0] bytes that does not overlap the source leaves a
    NUL-terminated string there, equal to the source string cut to [n - 1] characters, and
    writes nothing outside the buffer. *)
Lemma safestrcpy_spec (m : mem) (s t n : Z) (Hn : 0 < n) (Hd : apart s t n) :
  cstr (Z.to_nat n) (safestrcpy m s t n) s = cstr (Z.to_nat (n - 1)) m t /\
  (exists i, 0 <= i < n /\ safestrcpy m s t n (s + i) = 0) /\
  (forall x, ~ (s <= x < s + n) -> safestrcpy m s t n x = m x).
Proof.
  unfold safestrcpy. destruct (Z.leb_spec n 0); [lia |].
  destruct (safestrcpy_copy _ _ _ _) as [m' s'] eqn:E.
  apply safestrcpy_copy_spec in E as (Hs & Ho & Hc); [| unfold apart in *; lia].
  replace (Z.to_nat n) with (S (Z.to_nat (n - 1))) by lia. split_and!; [done | |].
  - exists (s' - s). split; [lia |]. unfold upd. range_case; [done | lia].
  - intros x Hx. unfold upd. range_case; [lia | apply Ho; lia].
Qed.

(** [strncpy] into [n] bytes that do not overlap the source copies the source string,
    at most [n] characters of it, and fills the rest of the [n] bytes with NULs; directory
    entries rely on the padding. Nothing else is written. *)
Lemma strncpy_spec (m : mem) (s t : Z) (n : nat) (Hd : apart s t (Z.of_nat n)) :
  (forall i, 0 <= i < Z.of_nat n ->
     strncpy m s t n (s + i) = nth (Z.to_nat i) (cstr n m t) 0) /\
  (forall x, ~ (s <= x < s + Z.of_nat n) -> strncpy m s t n x = m x).
Proof.
  unfold strncpy. destruct (strncpy_copy _ _ _ _) as [[m' k] s'] eqn:E.
  apply strncpy_copy_spec in E as (Hs & Ho & Hc & Hl); [| done].
  split; intros x Hx; rewrite strncpy_zero_spec; unfold memset; range_case; try lia.
  - rewrite nth_overflow by lia. done.
  - rewrite Hc by lia. f_equal. lia.
  - by rewrite Ho by lia.
Qed.

(** [strncmp] (and so [namecmp]) is zero exactly when the two strings, cut at [n]
    characters, are equal. *)
Lemma strncmp_correct (m : mem) (p q : Z) (n : nat) (Hm : forall a, 0 <= m a < 256) :
  strncmp n m p q = 0 <-> cstr n m p = cstr n m q.
Proof. by apply strncmp_zero_iff. Qed.
