(* ===== verification/Kalloc.v ===== *)
(** * Kalloc: the physical page allocator of [kernel/kalloc.c]

    State: the contents of physical memory, the head of the free list (the list itself is
    threaded through the first word of each free page) and the per-page copy-on-write
    counters [pg_cowrefs].  [kfree] of a page with a positive counter only decrements
    it.  Each critical section of the C code runs here as one uninterrupted step, so
    [acquire] and [release] do not appear; the locks themselves are the subject of
    [Spinlock.v].

    [alloc_inv s fl] says that the linked list in memory is the duplicate-free list [fl]
    of page addresses; [kalloc], [kfree] and [freerange] are proved to be pop, push and
    a series of pushes on [fl]. *)

From stdpp Require Import base list sets strings.
From Stdlib Require Import ZArith Lia.
From S2P Require Import Prelude Riscv Mem.

(** Symbols the linker script places: [end], [etext] and the trampoline page. *)
Class Image : Type := {
  kernel_end : Z;
  etext : Z;
  trampoline : Z;
}.

(** What [kernel.ld] guarantees about them. *)
Class ImageOk (I : Image) : Prop := {
  kernel_end_range : KERNBASE <= kernel_end <= PHYSTOP;
  etext_range : KERNBASE < etext <= kernel_end;
  etext_aligned : etext mod PGSIZE = 0;
  trampoline_range : KERNBASE <= trampoline /\ trampoline + PGSIZE <= etext;
  trampoline_aligned : trampoline mod PGSIZE = 0;
}.

(** An image whose kernel fills all but the last 24 pages of RAM; the witnesses run on it. *)
Definition small_image : Image := {|
  kernel_end := PHYSTOP - 24 * PGSIZE;
  etext := KERNBASE + 8 * PGSIZE;
  trampoline := KERNBASE + 7 * PGSIZE;
|}.

#[export] Instance small_image_ok : ImageOk small_image.
Proof. by constructor; vm_compute. Qed.

Record vm : Type := mkvm {
  mem_of : mem;
  freelist : Z;
  pg_cowrefs : Z -> Z;
}.

Definition set_mem (f : mem -> mem) (s : vm) : vm :=
  mkvm (f (mem_of s)) (freelist s) (pg_cowrefs s).
Definition set_freelist (p : Z) (s : vm) : vm := mkvm (mem_of s) p (pg_cowrefs s).
Definition set_count (i v : Z) (s : vm) : vm :=
  mkvm (mem_of s) (freelist s) (upd (pg_cowrefs s) i v).

Definition ld64 (a : Z) : M vm Z := gets (fun s => load64 (mem_of s) a).
Definition st64 (a v : Z) : M vm unit := modify (set_mem (fun m => store64 m a v)).
Definition do_memset (dst c n : Z) : M vm unit := modify (set_mem (fun m => memset m dst c n)).
Definition do_memmove (dst src n : Z) : M vm unit :=
  modify (set_mem (fun m => memmove m dst src n)).

Section Code.
Context `{I : Image}.

(** The test on a physical address in [kfree] and [cowmappage]. *)
Definition bad_pa (pa : Z) : bool :=
  negb (pa mod PGSIZE =? 0) || (pa <? kernel_end) || (PHYSTOP <=? pa).

Definition kfree (pa : Z) : M vm unit :=
  if bad_pa pa then panic "kfree" else
  let pageIndex := i32 (pa / PGSIZE) in
  let! count := gets (fun s => pg_cowrefs s pageIndex) in
  if count <? 0 then panic "kfree: cow page with negative reference count" else
  if 0 <? count then modify (set_count pageIndex (u64 (count - 1))) else
  do! do_memset pa 1 PGSIZE in
  let! head := gets freelist in
  do! st64 pa head in
  modify (set_freelist pa).

(** [for (; p + PGSIZE <= pa_end; p += PGSIZE) kfree(p);] *)
Fixpoint freerange_loop (fuel : nat) (p pa_end : Z) : M vm unit :=
  if negb (p + PGSIZE <=? pa_end) then ret tt else
  match fuel with
  | O => diverge
  | S f => do! kfree p in freerange_loop f (p + PGSIZE) pa_end
  end.

Definition freerange (pa_start pa_end : Z) : M vm unit :=
  let p := PGROUNDUP pa_start in
  freerange_loop (Z.to_nat ((pa_end - p) / PGSIZE)) p pa_end.

Definition kinit : M vm unit := freerange kernel_end PHYSTOP.

(** Memory and counters at boot: the array is in the kernel's zeroed data. *)
Definition boot_vm (m : mem) : vm := mkvm m 0 (fun _ => 0).

Definition kalloc : M vm Z :=
  let! r := gets freelist in
  if negb (r =? 0) then
    do! (let! next := ld64 r in
         do! modify (set_freelist next) in
         modify (set_count (r / PGSIZE) 0)) in
    do! do_memset r 5 PGSIZE in
    ret r
  else ret r.

(** ** The allocator's invariant *)

Definition valid_page (p : Z) : Prop := p mod PGSIZE = 0 /\ kernel_end <= p < PHYSTOP.

Fixpoint chain (m : mem) (p : Z) (l : list Z) : Prop :=
  match l with
  | [] => p = 0
  | q :: l' => p = q /\ chain m (load64 m q) l'
  end.

Record alloc_inv (s : vm) (fl : list Z) : Prop := {
  inv_chain : chain (mem_of s) (freelist s) fl;
  inv_nodup : NoDup fl;
  inv_valid : Forall valid_page fl;
  inv_counts : forall i, 0 <= pg_cowrefs s i < 2 ^ 64;
}.

(** The pages [freerange] hands out, last page first. *)
Fixpoint pages_down (n : nat) (p : Z) (acc : list Z) : list Z :=
  match n with
  | O => acc
  | S n' => pages_down n' (p + PGSIZE) (p :: acc)
  end.

(** ** Abstract allocator: a stack of free pages and a counter per page *)

Record pool : Type := mkpool { free_pages : list Z; refs : Z -> Z }.

Inductive alloc_op : Type :=
  | OpAlloc
  | OpFree (pa : Z).

Definition spec_op (o : alloc_op) (q : pool) : outcome (Z * pool) :=
  match o with
  | OpAlloc =>
      match free_pages q with
      | [] => Ok (0, q)
      | p :: l => Ok (p, mkpool l (upd (refs q) (p / PGSIZE) 0))
      end
  | OpFree p =>
      if bad_pa p then Panic "kfree" else
      let c := refs q (p / PGSIZE) in
      if 0 <? c then Ok (0, mkpool (free_pages q) (upd (refs q) (p / PGSIZE) (c - 1)))
      else Ok (0, mkpool (p :: free_pages q) (refs q))
  end.

(** A run of operations, the values they return collected in order. *)
Fixpoint spec_ops (os : list alloc_op) (q : pool) : outcome (list Z * pool) :=
  match os with
  | [] => Ok ([], q)
  | o :: os' =>
      match spec_op o q with
      | Ok (v, q') => match spec_ops os' q' with
                      | Ok (vs, q'') => Ok (v :: vs, q'')
                      | Panic msg => Panic msg
                      | Diverge => Diverge
                      end
      | Panic msg => Panic msg
      | Diverge => Diverge
      end
  end.

Definition run_op (o : alloc_op) : M vm Z :=
  match o with
  | OpAlloc => kalloc
  | OpFree p => do! kfree p in ret 0
  end.

Fixpoint run_ops (os : list alloc_op) : M vm (list Z) :=
  match os with
  | [] => ret []
  | o :: os' => let! v := run_op o in let! vs := run_ops os' in ret (v :: vs)
  end.

(** No page is freed while it is on the free list. *)
Fixpoint no_double_free (os : list alloc_op) (q : pool) : Prop :=
  match os with
  | [] => True
  | o :: os' =>
      match o with OpFree p => p ∉ free_pages q | OpAlloc => True end /\
      match spec_op o q with Ok (_, q') => no_double_free os' q' | _ => True end
  end.

(** The simulation relation. *)
Definition models (s : vm) (q : pool) : Prop :=
  alloc_inv s (free_pages q) /\ forall i, pg_cowrefs s i = refs q i.

End Code.

(** The address ranges of two pages are disjoint. *)
Definition in_page (p x : Z) : Prop := p <= x < p + PGSIZE.

(** [m'] agrees with [m] outside the pages [ps]. *)
Definition same_outside (ps : list Z) (m m' : mem) : Prop :=
  forall x, (forall p, p ∈ ps -> ~ in_page p x) -> m' x = m x.

(** Prove a property of every element of an explicit list. *)
Ltac each := repeat (apply Forall_cons_2; [done |]); apply Forall_nil_2.

(** ** Lemmas *)

Section Facts.
Context `{I : Image} {Iok : ImageOk I}.

Lemma valid_page_bounds p : valid_page p -> KERNBASE <= p /\ p + PGSIZE <= PHYSTOP /\ p <> 0.
Proof.
  intros [Ha Hr]. pose proof kernel_end_range. unfold_consts.
  pose proof (Z.div_mod p 4096). lia.
Qed.

Lemma valid_page_index p : valid_page p -> i32 (p / PGSIZE) = p / PGSIZE.
Proof.
  intros H%valid_page_bounds. unfold_consts. apply i32_small.
  split; [pose proof (Z.div_pos p 4096); lia | apply Z.div_lt_upper_bound; lia].
Qed.

Lemma bad_pa_valid p : bad_pa p = false <-> valid_page p.
Proof.
  unfold bad_pa, valid_page. rewrite !orb_false_iff, negb_false_iff, Z.eqb_eq.
  rewrite Z.ltb_ge, Z.leb_gt. naive_solver lia.
Qed.

Lemma pages_disjoint p q x :
  p mod PGSIZE = 0 -> q mod PGSIZE = 0 -> in_page p x -> in_page q x -> p = q.
Proof.
  unfold in_page, PGSIZE. intros Hp Hq H1 H2.
  pose proof (Z.div_mod p 4096). pose proof (Z.div_mod q 4096). lia.
Qed.

Lemma page_index_inj p q : valid_page p -> valid_page q -> p / PGSIZE = q / PGSIZE -> p = q.
Proof.
  intros [Hp _] [Hq _] H. unfold PGSIZE in *.
  pose proof (Z.div_mod p 4096). pose proof (Z.div_mod q 4096). lia.
Qed.

Lemma same_outside_refl ps m : same_outside ps m m.
Proof. intros x _. done. Qed.

Lemma same_outside_trans ps m1 m2 m3 :
  same_outside ps m1 m2 -> same_outside ps m2 m3 -> same_outside ps m1 m3.
Proof. intros H1 H2 x Hx. rewrite H2, H1; auto. Qed.

Lemma same_outside_weaken ps qs m m' :
  ps ⊆ qs -> same_outside ps m m' -> same_outside qs m m'.
Proof. intros Hs H x Hx. apply H. intros p Hp. apply Hx. set_solver. Qed.

Lemma same_outside_memset ps m p c : p ∈ ps -> same_outside ps m (memset m p c PGSIZE).
Proof. intros Hp x Hx. apply memset_other. by apply (Hx p). Qed.

Lemma same_outside_memmove ps m p q : p ∈ ps -> same_outside ps m (memmove m p q PGSIZE).
Proof. intros Hp x Hx. apply memmove_other. by apply (Hx p). Qed.

Lemma same_outside_store64 ps m p a v :
  p ∈ ps -> p <= a -> a + 8 <= p + PGSIZE -> same_outside ps m (store64 m a v).
Proof.
  intros Hp H1 H2 x Hx. apply store_other. intros Hr. apply (Hx p); [done |].
  unfold in_page. lia.
Qed.

(** A word in a page that is not among the changed ones keeps its value. *)
Lemma load64_outside ps m m' p a :
  same_outside ps m m' -> p ∉ ps -> Forall (fun q => q mod PGSIZE = 0) (p :: ps) ->
  p <= a -> a + 8 <= p + PGSIZE -> load64 m' a = load64 m a.
Proof.
  intros Hs Hp Hal H1 H2. apply load_ext. intros x Hx. apply Hs. intros q Hq Hin.
  rewrite Forall_cons, Forall_forall in Hal. destruct Hal as [Hpa Hqa].
  apply Hp. rewrite (pages_disjoint p q x); auto. unfold in_page. lia.
Qed.

Lemma valid_page_aligned p : valid_page p -> p mod PGSIZE = 0.
Proof. by intros []. Qed.

Lemma chain_outside ps m m' p fl :
  same_outside ps m m' -> Forall valid_page fl -> Forall valid_page ps ->
  (forall q, q ∈ fl -> q ∉ ps) -> chain m p fl -> chain m' p fl.
Proof.
  intros Hs Hfl Hps. revert p Hfl. induction fl as [|q fl IH]; intros p Hfl Hd H; simpl in *; [done |].
  destruct H as [-> Hc]. apply Forall_cons in Hfl as [Hq Hfl]. split; [done |].
  rewrite (load64_outside ps m m' q) by
    (try apply Hd; try (constructor; [by apply valid_page_aligned|
       eapply Forall_impl; [exact Hps | by intros ? []]]);
     try (unfold PGSIZE; lia); set_solver || done).
  apply IH; [done | | done]. intros. apply Hd. set_solver.
Qed.

(** Writing to pages that are not free preserves the invariant. *)
Lemma alloc_inv_outside ps s m' fl :
  alloc_inv s fl -> same_outside ps (mem_of s) m' -> Forall valid_page ps ->
  (forall q, q ∈ fl -> q ∉ ps) ->
  alloc_inv (mkvm m' (freelist s) (pg_cowrefs s)) fl.
Proof.
  intros [Hc Hn Hv Hr] Hs Hps Hd. split; simpl; try done.
  by apply (chain_outside ps (mem_of s)).
Qed.

Lemma upd_counts_range (c : Z -> Z) i v :
  (forall j, 0 <= c j < 2 ^ 64) -> 0 <= v < 2 ^ 64 -> forall j, 0 <= upd c i v j < 2 ^ 64.
Proof. intros Hc Hv j. unfold upd. case_match; auto. Qed.

Lemma kalloc_nil s : alloc_inv s [] -> kalloc s = Ok (0, s).
Proof. intros [Hc _ _ _]. simpl in Hc. unfold kalloc. mrun. by rewrite Hc. Qed.

(** The state after a successful [kalloc] of page [p]. *)
Definition popped (p : Z) (s : vm) : vm :=
  mkvm (memset (mem_of s) p 5 PGSIZE) (load64 (mem_of s) p)
       (upd (pg_cowrefs s) (p / PGSIZE) 0).

Lemma kalloc_cons s p fl :
  alloc_inv s (p :: fl) -> kalloc s = Ok (p, popped p s) /\ alloc_inv (popped p s) fl.
Proof.
  intros [Hc Hn Hv Hr]. destruct Hc as [Hp Hc].
  apply Forall_cons in Hv as [Hpv Hv]. apply NoDup_cons in Hn as [Hpn Hn].
  pose proof (valid_page_bounds p Hpv) as Hb. split.
  - unfold kalloc. mrun. rewrite Hp. destruct (Z.eqb_spec p 0); [lia |]. done.
  - split; simpl; try done.
    + apply (chain_outside [p] (mem_of s)); auto; [apply same_outside_memset |]; set_solver.
    + apply upd_counts_range; [done | lia].
Qed.

(** Whatever the free list, [kalloc] returns: a null pointer exactly when it is empty. *)
Lemma kalloc_total s fl :
  alloc_inv s fl ->
  (fl = [] /\ kalloc s = Ok (0, s)) \/
  (exists p fl', fl = p :: fl' /\ kalloc s = Ok (p, popped p s) /\ alloc_inv (popped p s) fl').
Proof.
  intros H. destruct fl as [|p fl'].
  - left. split; [done | by apply kalloc_nil].
  - right. exists p, fl'. split; [done | by apply kalloc_cons].
Qed.

(** The state after [kfree] puts page [p] on the free list. *)
Definition pushed (p : Z) (s : vm) : vm :=
  mkvm (store64 (memset (mem_of s) p 1 PGSIZE) p (freelist s)) p (pg_cowrefs s).

Lemma kfree_bad s p : ~ valid_page p -> kfree p s = Panic "kfree".
Proof. intros H. unfold kfree. destruct (bad_pa p) eqn:E; [done | by apply bad_pa_valid in E]. Qed.

Lemma chain_head_range m p fl : Forall valid_page fl -> chain m p fl -> 0 <= p < 2 ^ 64.
Proof.
  destruct fl as [|q fl]; simpl; [lia |]. intros [Hq _]%Forall_cons [-> _].
  apply valid_page_bounds in Hq. unfold_consts. lia.
Qed.

Lemma kfree_last s p fl :
  alloc_inv s fl -> valid_page p -> p ∉ fl -> pg_cowrefs s (p / PGSIZE) = 0 ->
  kfree p s = Ok (tt, pushed p s) /\ alloc_inv (pushed p s) (p :: fl).
Proof.
  intros [Hc Hn Hv Hr] Hp Hnin H0. pose proof (valid_page_bounds p Hp) as Hb. split.
  - unfold kfree. rewrite (proj2 (bad_pa_valid p) Hp). rewrite valid_page_index by done.
    mrun. rewrite H0. done.
  - split; simpl; try done; try by constructor.
    split; [done |]. rewrite load64_store64, u64_small by by eapply chain_head_range.
    apply (chain_outside [p] (mem_of s)); auto.
    + eapply same_outside_trans; [apply (same_outside_memset _ _ p 1); set_solver |].
      apply (same_outside_store64 _ _ p); [set_solver | lia | unfold PGSIZE; lia].
    + set_solver.
Qed.

Lemma kfree_shared s p fl :
  alloc_inv s fl -> valid_page p -> 0 < pg_cowrefs s (p / PGSIZE) ->
  kfree p s = Ok (tt, set_count (p / PGSIZE) (pg_cowrefs s (p / PGSIZE) - 1) s) /\
  alloc_inv (set_count (p / PGSIZE) (pg_cowrefs s (p / PGSIZE) - 1) s) fl.
Proof.
  intros [Hc Hn Hv Hr] Hp H0. pose proof (Hr (p / PGSIZE)). split.
  - unfold kfree. rewrite (proj2 (bad_pa_valid p) Hp), valid_page_index by done. mrun.
    destruct (Z.ltb_spec (pg_cowrefs s (p / PGSIZE)) 0); [lia |].
    destruct (Z.ltb_spec 0 (pg_cowrefs s (p / PGSIZE))); [| lia].
    unfold modify. by rewrite u64_small by lia.
  - split; simpl; try done. apply upd_counts_range; [done | lia].
Qed.

Lemma pages_down_elem n p acc q :
  q ∈ pages_down n p acc <-> q ∈ acc \/ exists i, 0 <= i < Z.of_nat n /\ q = p + i * PGSIZE.
Proof.
  revert p acc. induction n as [|n IH]; intros p acc; simpl pages_down.
  { split; [by left | intros [?|(i & ? & _)]; [done | lia]]. }
  rewrite IH, elem_of_cons. split.
  - intros [[->|H]|(i & Hi & ->)]; [right; exists 0 | by left | right; exists (i + 1)];
      (split; [lia |]); lia.
  - intros [H|(i & Hi & ->)]; [by left; right |].
    destruct (Z.eq_dec i 0) as [->|Hne]; [left; left; lia |].
    right. exists (i - 1). split; lia.
Qed.

Lemma freerange_loop_spec n fuel p fl s :
  alloc_inv s fl -> (forall i, pg_cowrefs s i = 0) ->
  (n <= fuel)%nat -> p mod PGSIZE = 0 -> kernel_end <= p ->
  p + Z.of_nat n * PGSIZE <= PHYSTOP -> PHYSTOP < p + Z.of_nat n * PGSIZE + PGSIZE ->
  (forall q, q ∈ fl -> q < p) ->
  exists s', freerange_loop fuel p PHYSTOP s = Ok (tt, s') /\
             alloc_inv s' (pages_down n p fl) /\ (forall i, pg_cowrefs s' i = 0).
Proof.
  revert fuel p fl s. induction n as [|n IH]; intros fuel p fl s Hi H0 Hf Hal He Hle Hlt Hq.
  - exists s. split; [| done]. destruct fuel; simpl; destruct (Z.leb_spec (p + PGSIZE) PHYSTOP); done || lia.
  - destruct fuel as [|fuel]; [lia |]. simpl.
    destruct (Z.leb_spec (p + PGSIZE) PHYSTOP); [simpl | unfold PGSIZE in *; lia].
    assert (valid_page p) as Hv by (split; [done | unfold PGSIZE in *; lia]).
    destruct (kfree_last s p fl) as [Hk Hinv]; try done.
    { intros Hin. apply Hq in Hin. lia. }
    mrun with Hk. apply IH; unfold PGSIZE in *; try done; try lia.
    + by apply aligned_next.
    + set_unfold. intros q [->|Hin]; [lia |]. specialize (Hq q Hin). lia.
Qed.

Lemma kinit_ok m :
  exists s', kinit (boot_vm m) = Ok (tt, s') /\
    alloc_inv s' (pages_down (Z.to_nat ((PHYSTOP - PGROUNDUP kernel_end) / PGSIZE))
                             (PGROUNDUP kernel_end) []) /\
    (forall i, pg_cowrefs s' i = 0).
Proof.
  pose proof kernel_end_range. pose proof (PGROUNDUP_aligned kernel_end) as Ha.
  pose proof (PGROUNDUP_bounds kernel_end). unfold_consts.
  set (p := PGROUNDUP kernel_end) in *.
  pose proof (Z.div_mod p 4096). pose proof (Z.div_mod (2147483648 + 128 * 1024 * 1024 - p) 4096).
  pose proof (Z.mod_pos_bound (2147483648 + 128 * 1024 * 1024 - p) 4096).
  unfold kinit, freerange. fold p. unfold_consts.
  apply freerange_loop_spec; unfold_consts; try done; try lia.
  - split; simpl; [done | constructor | constructor | lia].
  - set_solver.
Qed.
End Facts.

Section Refinement.
Context `{I : Image} {Iok : ImageOk I}.

Lemma run_op_sim o s q :
  models s q -> match o with OpFree p => p ∉ free_pages q | OpAlloc => True end ->
  match spec_op o q with
  | Ok (v, q') => exists s', run_op o s = Ok (v, s') /\ models s' q'
  | Panic msg => run_op o s = Panic msg
  | Diverge => False
  end.
Proof.
  intros [Hi Hc] Hd. destruct o as [|p]; simpl.
  - destruct (free_pages q) as [|p l] eqn:E.
    + exists s. split; [by apply kalloc_nil |]. split; [by rewrite E | done].
    + destruct (kalloc_cons _ _ _ Hi) as [Hk Hi']. exists (popped p s).
      split; [done |]. split; [done |]. intros i. simpl. unfold upd. case_match; [done | apply Hc].
  - destruct (bad_pa p) eqn:Hb.
    { rewrite bind_panic with (msg := "kfree"); [done |]. unfold kfree. by rewrite Hb. }
    apply bad_pa_valid in Hb. pose proof (inv_counts _ _ Hi (p / PGSIZE)) as Hr.
    rewrite <- Hc. destruct (Z.ltb_spec 0 (pg_cowrefs s (p / PGSIZE))).
    + destruct (kfree_shared _ _ _ Hi Hb) as [Hk Hi']; [done |].
      mrun with Hk. eexists. split; [done |]. split; [done |].
      intros i. simpl. unfold upd. case_match; [done | apply Hc].
    + destruct (kfree_last _ _ _ Hi Hb) as [Hk Hi']; [done | lia |].
      mrun with Hk. eexists. split; [done |]. by split.
Qed.

Lemma run_ops_sim os s q :
  models s q -> no_double_free os q ->
  match spec_ops os q with
  | Ok (vs, q') => exists s', run_ops os s = Ok (vs, s') /\ models s' q'
  | Panic msg => run_ops os s = Panic msg
  | Diverge => False
  end.
Proof.
  revert s q. induction os as [|o os IH]; intros s q Hm Hd; simpl in *.
  { by exists s. }
  destruct Hd as [Ho Hd]. pose proof (run_op_sim o s q Hm Ho) as Hs.
  destruct (spec_op o q) as [[v q']|msg|]; [| by rewrite (bind_panic _ _ _ _ Hs) | done].
  destruct Hs as (s1 & Hr1 & Hm1). specialize (IH s1 q' Hm1 Hd).
  rewrite (bind_ok _ _ _ _ _ Hr1). destruct (spec_ops os q') as [[vs q'']|msg|]; [| | done].
  - destruct IH as (s2 & Hr2 & Hm2). rewrite (bind_ok _ _ _ _ _ Hr2). by exists s2.
  - by rewrite (bind_panic _ _ _ _ IH).
Qed.

(** ** Properties *)

(** [kinit] builds a free list of every whole page between the end of the kernel and
    [PHYSTOP], each once, with every copy-on-write counter zero; it terminates and does
    not panic. *)
Lemma kinit_spec (m : mem) :
  exists s' fl, kinit (boot_vm m) = Ok (tt, s') /\ alloc_inv s' fl /\
    (forall i, pg_cowrefs s' i = 0) /\
    (forall p, p ∈ fl <-> p mod PGSIZE = 0 /\ kernel_end <= p /\ p + PGSIZE <= PHYSTOP).
Proof.
  destruct (kinit_ok m) as (s' & Hr & Hi & Hc). eexists s', _. split_and!; try done.
  intros p. rewrite pages_down_elem. pose proof kernel_end_range.
  pose proof (PGROUNDUP_aligned kernel_end) as Ha. pose proof (PGROUNDUP_bounds kernel_end) as Hb.
  unfold_consts. set (e := PGROUNDUP kernel_end) in *. clearbody e.
  pose proof (Z.div_mod e 4096). pose proof (Z.div_mod p 4096).
  pose proof (Z.div_mod (2147483648 + 128 * 1024 * 1024 - e) 4096).
  pose proof (Z.mod_pos_bound (2147483648 + 128 * 1024 * 1024 - e) 4096).
  rewrite Z2Nat.id by (apply Z.div_pos; lia). split.
  - intros [Hx%not_elem_of_nil|(i & Hi' & ->)]; [done |].
    rewrite Z.mod_add by lia. lia.
  - intros (H4 & H5 & H6). right. exists ((p - e) / 4096).
    assert (p - e = (p / 4096 - e / 4096) * 4096) as -> by lia. rewrite Z.div_mul by lia. lia.
Qed.

(** C20: on any run of [kalloc] and [kfree] without double frees, the allocator behaves as
    the abstract one: a stack of free pages, where [kalloc] pops and clears the counter
    (and yields a null pointer only when no page is left) and [kfree] pushes, or only
    decrements the counter of a shared page, or panics on an address that is not a page of
    allocatable memory. *)
Theorem allocator_refines (os : list alloc_op) (s : vm) (q : pool)
    (Hm : models s q) (Hd : no_double_free os q) :
  match spec_ops os q with
  | Ok (vs, q') => exists s', run_ops os s = Ok (vs, s') /\ models s' q'
  | Panic msg => run_ops os s = Panic msg
  | Diverge => False
  end.
Proof. by apply run_ops_sim. Qed.

End Refinement.

(** ** Witnesses *)

Definition zero_mem : mem := fun _ => 0.

Lemma allocator_refines_witness :
  let q := mkpool [PHYSTOP - PGSIZE] (fun _ => 0) in
  let s := mkvm zero_mem (PHYSTOP - PGSIZE) (fun _ => 0) in
  exists s', run_ops (I := small_image) [OpAlloc; OpAlloc; OpFree (PHYSTOP - PGSIZE)] s
             = Ok ([PHYSTOP - PGSIZE; 0; 0], s') /\
             models (I := small_image) s' (mkpool [PHYSTOP - PGSIZE]
               (upd (fun _ => 0) ((PHYSTOP - PGSIZE) / PGSIZE) 0)).
Proof.
  intros q s.
  refine (allocator_refines (I := small_image)
    [OpAlloc; OpAlloc; OpFree (PHYSTOP - PGSIZE)] s q _ _).
  - split; [| done]. split; simpl; [by split | apply NoDup_singleton | | intros; lia].
    constructor; [by split | constructor].
  - vm_compute. split_and!; try done. apply not_elem_of_nil.
Defined.
