(* ===== verification/Vm.v ===== *)
(** * Vm: page tables and user memory, [kernel/vm.c] and the copy-on-write half of
    [kernel/kalloc.c]

    A page table is what it is in the C code: pages of 512 eight-byte entries in the physical
    memory of [Kalloc.vm], addressed through [PTE2PA].  A [pte_t *] is the physical
    address of the entry, 0 the null pointer.  Kernel buffers that [copyin]/[copyout]
    move are lists of bytes.  [sfence_vma] has no effect in the model (there is no TLB);
    the table switch of [kvminithart] is the return value [MAKE_SATP] only.

    Loops carry a fuel argument that each caller computes from the sizes it is given;
    [PageTable.v] shows that it never runs out. *)

From stdpp Require Import base list strings.
From Stdlib Require Import ZArith Lia.
From S2P Require Import Prelude Riscv Mem Kalloc.

(** ** Definitions *)

Section Code.
Context `{I : Image}.

(** The loop of [walk] from level [level] down to 1, then the address of the leaf entry. *)
Fixpoint walk_loop (level : nat) (pagetable va : Z) (alloc : bool) : M vm Z :=
  match level with
  | O => ret (pagetable + 8 * PX 0 va)
  | S l =>
      let pte := pagetable + 8 * PX (Z.of_nat level) va in
      let! v := ld64 pte in
      if has v PTE_V then walk_loop l (PTE2PA v) va alloc
      else if negb alloc then ret 0
      else
        let! p := kalloc in
        if p =? 0 then ret 0 else
        do! do_memset p 0 PGSIZE in
        do! st64 pte (Z.lor (PA2PTE p) PTE_V) in
        walk_loop l p va alloc
  end.

Definition walk (pagetable va : Z) (alloc : bool) : M vm Z :=
  if MAXVA <=? va then panic "walk" else walk_loop 2 pagetable va alloc.

Definition walkaddr (pagetable va : Z) : M vm Z :=
  if MAXVA <=? va then ret 0 else
  let! pte := walk pagetable va false in
  if pte =? 0 then ret 0 else
  let! v := ld64 pte in
  if negb (has v PTE_V) then ret 0 else
  if negb (has v PTE_U) then ret 0 else
  ret (PTE2PA v).

Fixpoint mappages_loop (fuel : nat) (pagetable a last pa perm : Z) : M vm Z :=
  match fuel with
  | O => diverge
  | S f =>
      let! pte := walk pagetable a true in
      if pte =? 0 then ret (-1) else
      let! v := ld64 pte in
      if has v PTE_V then panic "mappages: remap" else
      do! st64 pte (Z.lor (Z.lor (PA2PTE pa) (u64 perm)) PTE_V) in
      if a =? last then ret 0 else
      mappages_loop f pagetable (u64 (a + PGSIZE)) last (u64 (pa + PGSIZE)) perm
  end.

(** Fuel: the pages from [a] to [last], or to the end of the address space when the
    size wraps around and the loop can only stop there. *)
Definition mappages_fuel (a last : Z) : nat :=
  S (S (Z.to_nat ((if last <? a then MAXVA - a else last - a) / PGSIZE))).

Definition mappages (pagetable va size pa perm : Z) : M vm Z :=
  if size =? 0 then panic "mappages: size" else
  let a := PGROUNDDOWN va in
  let last := PGROUNDDOWN (u64 (va + size - 1)) in
  mappages_loop (mappages_fuel a last) pagetable a last pa perm.

Definition kvmmap (kpgtbl va pa sz perm : Z) : M vm unit :=
  let! r := mappages kpgtbl va sz pa perm in
  if negb (r =? 0) then panic "kvmmap" else ret tt.

Fixpoint uvmunmap_loop (fuel : nat) (pagetable a limit : Z) (do_free : bool) : M vm unit :=
  if negb (a <? limit) then ret tt else
  match fuel with
  | O => diverge
  | S f =>
      let! pte := walk pagetable a false in
      if pte =? 0 then panic "uvmunmap: walk" else
      let! v := ld64 pte in
      if negb (has v PTE_V) then panic "uvmunmap: not mapped" else
      if PTE_FLAGS v =? PTE_V then panic "uvmunmap: not a leaf" else
      do! (if do_free then kfree (PTE2PA v) else ret tt) in
      do! st64 pte 0 in
      uvmunmap_loop f pagetable (u64 (a + PGSIZE)) limit do_free
  end.

Definition uvmunmap (pagetable va npages : Z) (do_free : bool) : M vm unit :=
  if negb (va mod PGSIZE =? 0) then panic "uvmunmap: not aligned" else
  uvmunmap_loop (Z.to_nat npages) pagetable va (u64 (va + u64 (npages * PGSIZE))) do_free.

Definition uvmcreate : M vm Z :=
  let! pagetable := kalloc in
  if pagetable =? 0 then ret 0 else
  do! do_memset pagetable 0 PGSIZE in
  ret pagetable.

(** [memmove] from a kernel buffer holding the bytes [l]. *)
Definition write_bytes (a : Z) (l : list Z) : M vm unit :=
  modify (set_mem (fun m x =>
    if in_range a (Z.of_nat (length l)) x then nth (Z.to_nat (x - a)) l 0 else m x)).

(** [n] bytes of memory from [a]. *)
Definition bytes_at (m : mem) (a : Z) (n : nat) : list Z :=
  (fun i => m (a + Z.of_nat i)) <$> seq 0 n.

Definition uvmfirst (pagetable : Z) (src : list Z) : M vm unit :=
  if PGSIZE <=? Z.of_nat (length src) then panic "uvmfirst: more than a page" else
  let! mem := kalloc in
  do! do_memset mem 0 PGSIZE in
  do! mappages pagetable 0 PGSIZE mem (Z.lor (Z.lor (Z.lor PTE_W PTE_R) PTE_X) PTE_U) in
  write_bytes mem src.

Definition uvmdealloc (pagetable oldsz newsz : Z) : M vm Z :=
  if oldsz <=? newsz then ret oldsz else
  do! (if PGROUNDUP newsz <? PGROUNDUP oldsz then
         let npages := i32 ((PGROUNDUP oldsz - PGROUNDUP newsz) / PGSIZE) in
         uvmunmap pagetable (PGROUNDUP newsz) (u64 npages) true
       else ret tt) in
  ret newsz.

(** [oldsz] is already rounded up here. *)
Fixpoint uvmalloc_loop (fuel : nat) (pagetable oldsz a newsz xperm : Z) : M vm Z :=
  if negb (a <? newsz) then ret newsz else
  match fuel with
  | O => diverge
  | S f =>
      let! mem := kalloc in
      if mem =? 0 then
        do! uvmdealloc pagetable a oldsz in ret 0
      else
      do! do_memset mem 0 PGSIZE in
      let! r := mappages pagetable a PGSIZE mem (Z.lor (Z.lor PTE_R PTE_U) xperm) in
      if negb (r =? 0) then
        do! kfree mem in
        do! uvmdealloc pagetable a oldsz in
        ret 0
      else uvmalloc_loop f pagetable oldsz (u64 (a + PGSIZE)) newsz xperm
  end.

Definition uvmalloc (pagetable oldsz newsz xperm : Z) : M vm Z :=
  if newsz <? oldsz then ret oldsz else
  let oldsz := PGROUNDUP oldsz in
  uvmalloc_loop (S (Z.to_nat ((newsz - oldsz) / PGSIZE))) pagetable oldsz oldsz newsz xperm.

(** The loop of [freewalk] over the entries [i], ..., 511 of one table. *)
Fixpoint freewalk_loop (rec : Z -> M vm unit) (n : nat) (i pagetable : Z) : M vm unit :=
  match n with
  | O => ret tt
  | S n' =>
      let! pte := ld64 (pagetable + 8 * i) in
      do! (if has pte PTE_V && (Z.land pte (Z.lor (Z.lor PTE_R PTE_W) PTE_X) =? 0) then
             do! rec (PTE2PA pte) in
             st64 (pagetable + 8 * i) 0
           else if has pte PTE_V then panic "freewalk: leaf"
           else ret tt) in
      freewalk_loop rec n' (i + 1) pagetable
  end.

(** [depth] bounds the recursion; the tables [walk] builds have three levels. *)
Fixpoint freewalk (depth : nat) (pagetable : Z) : M vm unit :=
  match depth with
  | O => diverge
  | S d =>
      do! freewalk_loop (freewalk d) 512 0 pagetable in
      kfree pagetable
  end.

Definition uvmfree (pagetable sz : Z) : M vm unit :=
  do! (if 0 <? sz then uvmunmap pagetable 0 (PGROUNDUP sz / PGSIZE) true else ret tt) in
  freewalk 3 pagetable.

(** ** Copy-on-write *)

Definition cowmappage (pagetable va size pa perm : Z) : M vm Z :=
  if bad_pa pa then panic "cowmappage: invalid physical address" else
  let pageIndex := i32 (pa / PGSIZE) in
  let! mappingResult := mappages pagetable va size pa (Z.lor perm PTE_COW) in
  do! (if mappingResult =? 0 then
         let! c := gets (fun s => pg_cowrefs s pageIndex) in
         modify (set_count pageIndex (u64 (c + 1)))
       else ret tt) in
  ret mappingResult.

Definition dup_pg (pt va : Z) : M vm Z :=
  if (MAXVA <=? va) || (va =? 0) then ret (-1) else
  let! pte := walk pt va false in
  if pte =? 0 then ret (-1) else
  let! v := ld64 pte in
  if negb (has v PTE_COW) then ret 0 else
  if negb (has v PTE_U) then ret (-1) else
  if negb (has v PTE_V) then ret (-1) else
  let oldpa := PTE2PA v in
  let! newpa := kalloc in
  if newpa =? 0 then ret (-2) else
  do! do_memmove newpa oldpa PGSIZE in
  do! st64 pte (Z.lor (Z.lor (Z.lor (Z.lor (Z.lor (PA2PTE newpa) PTE_U) PTE_V) PTE_W) PTE_X) PTE_R) in
  do! (let! v' := ld64 pte in st64 pte (Z.land v' (Z.lnot PTE_COW))) in
  do! kfree oldpa in
  ret 0.

(** [*pte &= ~PTE_W; *pte |= PTE_COW;] *)
Definition cow_mark (v : Z) : Z := Z.lor (Z.land v (Z.lnot PTE_W)) PTE_COW.

(** The [err:] label: unmap what was copied and return [-1], as an unsigned 64-bit value. *)
Definition uvmcowpy_err (new i : Z) : M vm Z :=
  do! uvmunmap new 0 (i / PGSIZE) true in
  ret (u64 (-1)).

Fixpoint uvmcowpy_loop (fuel : nat) (old new i sz : Z) : M vm Z :=
  if negb (i <? sz) then ret 0 else
  match fuel with
  | O => diverge
  | S f =>
      let! pte := walk old i false in
      if pte =? 0 then panic "uvmreadonly: pte should exist" else
      let! v := ld64 pte in
      if negb (has v PTE_V) then panic "uvmreadonly: page not present" else
      do! st64 pte (Z.land v (Z.lnot PTE_W)) in
      do! (let! v' := ld64 pte in st64 pte (Z.lor v' PTE_COW)) in
      let! v2 := ld64 pte in
      let! r := cowmappage new i PGSIZE (PTE2PA v2) (PTE_FLAGS v2) in
      if r <? 0 then uvmcowpy_err new i
      else uvmcowpy_loop f old new (u64 (i + PGSIZE)) sz
  end.

Definition uvmcowpy (old new sz : Z) : M vm Z :=
  uvmcowpy_loop (S (Z.to_nat (sz / PGSIZE))) old new 0 sz.

Definition uvmclear (pagetable va : Z) : M vm unit :=
  let! pte := walk pagetable va false in
  if pte =? 0 then panic "uvmclear" else
  let! v := ld64 pte in
  st64 pte (Z.land v (Z.lnot PTE_U)).

(** ** Copies between kernel and user memory *)

Fixpoint copyout_loop (fuel : nat) (pagetable dstva : Z) (src : list Z) : M vm Z :=
  match src with
  | [] => ret 0
  | _ =>
      match fuel with
      | O => diverge
      | S f =>
          let va0 := PGROUNDDOWN dstva in
          let! d := dup_pg pagetable va0 in
          if d <? 0 then ret (-1) else
          let! pa0 := walkaddr pagetable va0 in
          if pa0 =? 0 then ret (-1) else
          let n0 := PGSIZE - (dstva - va0) in
          let n := if Z.of_nat (length src) <? n0 then Z.of_nat (length src) else n0 in
          do! write_bytes (pa0 + (dstva - va0)) (take (Z.to_nat n) src) in
          copyout_loop f pagetable (u64 (va0 + PGSIZE)) (drop (Z.to_nat n) src)
      end
  end.

Definition copyout (pagetable dstva : Z) (src : list Z) : M vm Z :=
  copyout_loop (length src) pagetable dstva src.

(** [copyin] returns its status and the bytes stored at [dst]. *)
Fixpoint copyin_loop (fuel : nat) (pagetable srcva : Z) (len : Z) (dst : list Z)
  : M vm (Z * list Z) :=
  if negb (0 <? len) then ret (0, dst) else
  match fuel with
  | O => diverge
  | S f =>
      let va0 := PGROUNDDOWN srcva in
      let! pa0 := walkaddr pagetable va0 in
      if pa0 =? 0 then ret (-1, dst) else
      let n0 := PGSIZE - (srcva - va0) in
      let n := if len <? n0 then len else n0 in
      let! bytes := gets (fun s => bytes_at (mem_of s) (pa0 + (srcva - va0)) (Z.to_nat n)) in
      copyin_loop f pagetable (u64 (va0 + PGSIZE)) (len - n) (dst ++ bytes)
  end.

Definition copyin (pagetable srcva len : Z) : M vm (Z * list Z) :=
  copyin_loop (Z.to_nat len) pagetable srcva len [].

(** The inner loop of [copyinstr] over the [n] bytes left in one page:
    whether a NUL was found, what is left of [max], and the bytes stored. *)
Fixpoint copyinstr_page (n : nat) (m : mem) (p max : Z) (dst : list Z) : bool * Z * list Z :=
  match n with
  | O => (false, max, dst)
  | S n' => if m p =? 0 then (true, max, dst ++ [0])
            else copyinstr_page n' m (p + 1) (max - 1) (dst ++ [m p])
  end.

Fixpoint copyinstr_loop (fuel : nat) (pagetable srcva max : Z) (dst : list Z)
  : M vm (Z * list Z) :=
  if negb (0 <? max) then ret (-1, dst) else
  match fuel with
  | O => diverge
  | S f =>
      let va0 := PGROUNDDOWN srcva in
      let! pa0 := walkaddr pagetable va0 in
      if pa0 =? 0 then ret (-1, dst) else
      let n0 := PGSIZE - (srcva - va0) in
      let n := if max <? n0 then max else n0 in
      let! r := gets (fun s =>
        copyinstr_page (Z.to_nat n) (mem_of s) (pa0 + (srcva - va0)) max dst) in
      let '(got_null, max', dst') := r in
      if got_null then ret (0, dst')
      else copyinstr_loop f pagetable (u64 (va0 + PGSIZE)) max' dst'
  end.

Definition copyinstr (pagetable srcva max : Z) : M vm (Z * list Z) :=
  copyinstr_loop (Z.to_nat max) pagetable srcva max [].

(** ** The kernel's own table *)

(** [proc_mapstacks] of [kernel/proc.c]: a page and a mapping per kernel stack. *)
Fixpoint proc_mapstacks (n : nat) (i kpgtbl : Z) : M vm unit :=
  match n with
  | O => ret tt
  | S n' =>
      let! pa := kalloc in
      if pa =? 0 then panic "kalloc" else
      do! kvmmap kpgtbl (KSTACK i) pa PGSIZE (Z.lor PTE_R PTE_W) in
      proc_mapstacks n' (i + 1) kpgtbl
  end.

Definition kvmmake : M vm Z :=
  let! kpgtbl := kalloc in
  do! do_memset kpgtbl 0 PGSIZE in
  do! kvmmap kpgtbl UART0 UART0 PGSIZE (Z.lor PTE_R PTE_W) in
  do! kvmmap kpgtbl VIRTIO0 VIRTIO0 PGSIZE (Z.lor PTE_R PTE_W) in
  do! kvmmap kpgtbl PLIC PLIC 4194304 (Z.lor PTE_R PTE_W) in
  do! kvmmap kpgtbl KERNBASE KERNBASE (etext - KERNBASE) (Z.lor PTE_R PTE_X) in
  do! kvmmap kpgtbl etext etext (PHYSTOP - etext) (Z.lor PTE_R PTE_W) in
  do! kvmmap kpgtbl TRAMPOLINE trampoline PGSIZE (Z.lor PTE_R PTE_X) in
  do! proc_mapstacks NPROC 0 kpgtbl in
  ret kpgtbl.

End Code.

(** ** A memory for witnesses *)

(** One user page, at address 4096, that starts with "hi!". *)
Definition user_pt : Z := KERNBASE + 2 ^ 24.
Definition user_page : Z := user_pt + 12288.
Definition user_vm : vm :=
  let m := store64 (store64 (fun _ => 0) user_page 0x216968) user_pt (Z.lor (PA2PTE (user_pt + 4096)) PTE_V) in
  let m := store64 m (user_pt + 4096) (Z.lor (PA2PTE (user_pt + 8192)) PTE_V) in
  boot_vm (store64 m (user_pt + 8200) (Z.lor (PA2PTE user_page) 23)).
