(* ===== verification/PageTable.v ===== *)
(** * PageTable: what the table-walking code of [Vm.v] computes

    A table with root [r] is read as a tree: [node m r path] is the page reached from [r]
    by following valid entries, and [leaf m r va] the entry [walk] finds for [va] (0 when
    there is none).  [pt_wf] says that the tables with roots [roots] are trees: no page
    is reached along two paths, and none is on the free list.  Under it [walk] returns the
    address of the leaf entry, allocating missing tables without changing any
    translation, and a store through that address changes exactly one translation. *)

From stdpp Require Import base list sets strings.
From Stdlib Require Import ZArith Lia.
From S2P Require Import Prelude Riscv Mem Kalloc Vm.

(** ** Definitions *)

Fixpoint node (m : mem) (a : Z) (path : list Z) : option Z :=
  match path with
  | [] => Some a
  | i :: rest => let pte := load64 m (a + 8 * i) in
                 if has pte PTE_V then node m (PTE2PA pte) rest else None
  end.

Definition path_of (va : Z) : list Z := [PX 2 va; PX 1 va].

Definition leaf (m : mem) (r va : Z) : Z :=
  match node m r (path_of va) with
  | Some t => load64 m (t + 8 * PX 0 va)
  | None => 0
  end.

Definition path_ok (p : list Z) : Prop := (length p <= 2)%nat /\ Forall (fun i => 0 <= i < 512) p.

(** A page-aligned virtual address below [MAXVA]. *)
Definition va_ok (va : Z) : Prop := 0 <= va < MAXVA /\ va mod PGSIZE = 0.

Section Theory.
Context `{I : Image} {Iok : ImageOk I}.

Record pt_wf (m : mem) (roots fl : list Z) : Prop := {
  wf_page : forall r p a, r ∈ roots -> path_ok p -> node m r p = Some a ->
            valid_page a /\ a ∉ fl;
  wf_inj : forall r1 r2 p1 p2 a, r1 ∈ roots -> r2 ∈ roots -> path_ok p1 -> path_ok p2 ->
           node m r1 p1 = Some a -> node m r2 p2 = Some a -> r1 = r2 /\ p1 = p2;
}.

Definition is_table (m : mem) (roots : list Z) (a : Z) : Prop :=
  exists r p, r ∈ roots /\ path_ok p /\ node m r p = Some a.

(** ** Nodes *)

Lemma node_app m a p q :
  node m a (p ++ q) = match node m a p with Some b => node m b q | None => None end.
Proof.
  revert a. induction p as [|i p IH]; intros a; simpl; [done |]. by destruct has.
Qed.

Lemma node_snoc m a p i :
  node m a (p ++ [i]) =
  match node m a p with
  | Some b => let pte := load64 m (b + 8 * i) in
              if has pte PTE_V then Some (PTE2PA pte) else None
  | None => None
  end.
Proof. rewrite node_app. done. Qed.

Lemma path_ok_app p q : path_ok (p ++ q) -> path_ok p.
Proof. unfold path_ok. rewrite length_app, Forall_app. intros. split; [lia | tauto]. Qed.

Lemma path_ok_nil : path_ok [].
Proof. split; [simpl; lia | constructor]. Qed.

Lemma path_ok_of va : path_ok (path_of va).
Proof. split; [done |]. repeat apply Forall_cons_2; try apply PX_range; try lia. constructor. Qed.

Lemma path_ok_snoc p i : path_ok p -> (length p <= 1)%nat -> 0 <= i < 512 -> path_ok (p ++ [i]).
Proof.
  intros [Hl Hf] H1 Hi. split; [rewrite length_app; simpl; lia |].
  apply Forall_app. split; [done | by apply Forall_singleton].
Qed.

(** The walk along [p] reads the same entries in [m] and [m']. *)
Lemma node_agree m m' r p :
  (forall q j rest b, p = q ++ j :: rest -> node m r q = Some b ->
     load64 m' (b + 8 * j) = load64 m (b + 8 * j)) ->
  node m' r p = node m r p.
Proof.
  revert r. induction p as [|i p IH]; intros r H; simpl; [done |].
  rewrite (H [] i p r) by done. destruct has eqn:E; [| done].
  apply IH. intros q j rest b -> Hn. apply (H (i :: q) j rest); [done |].
  simpl. by rewrite E.
Qed.

Lemma entry_in_page i : 0 <= i < 512 -> 8 * i + 8 <= PGSIZE.
Proof. unfold PGSIZE. lia. Qed.

Lemma path_ok_mid q j rest : path_ok (q ++ j :: rest) -> path_ok q /\ 0 <= j < 512 /\ (length q <= 1)%nat.
Proof.
  intros H. split; [by eapply path_ok_app |]. destruct H as [Hl Hf].
  rewrite Forall_app, Forall_cons in Hf. rewrite length_app in Hl. simpl in Hl.
  split; [tauto | lia].
Qed.

(** Writes outside the tables do not move any node. *)
Lemma node_outside ps m m' roots fl r p :
  pt_wf m roots fl -> same_outside ps m m' -> Forall valid_page ps ->
  (forall a, is_table m roots a -> a ∉ ps) ->
  r ∈ roots -> path_ok p -> node m' r p = node m r p.
Proof.
  intros Hwf Hs Hps Hd Hr Hp. apply node_agree. intros q j rest b -> Hb.
  apply path_ok_mid in Hp as (Hq & Hj & _).
  destruct (wf_page _ _ _ Hwf r q b) as [Hv _]; try done.
  apply (load64_outside ps m m' b); try done.
  - apply Hd. by exists r, q.
  - constructor; [by apply valid_page_aligned |].
    eapply Forall_impl; [exact Hps | by intros ? []].
  - lia.
  - unfold PGSIZE. lia.
Qed.

(** Two distinct entries of tables do not overlap. *)
Lemma entries_apart a b i j :
  valid_page a -> valid_page b -> 0 <= i < 512 -> 0 <= j < 512 ->
  (a, i) <> (b, j) -> b + 8 * j + 8 <= a + 8 * i \/ a + 8 * i + 8 <= b + 8 * j.
Proof.
  intros [Ha _] [Hb _] Hi Hj Hne. unfold PGSIZE in *.
  pose proof (Z.div_mod a 4096). pose proof (Z.div_mod b 4096).
  destruct (Z.eq_dec a b) as [->|]; [| lia].
  assert (i <> j) by congruence. lia.
Qed.

(** A store to a leaf entry moves no node. *)
Lemma node_store_leaf m roots fl r p t i v r' p' :
  pt_wf m roots fl -> r ∈ roots -> path_ok p -> length p = 2%nat -> node m r p = Some t ->
  0 <= i < 512 -> r' ∈ roots -> path_ok p' ->
  node (store64 m (t + 8 * i) v) r' p' = node m r' p'.
Proof.
  intros Hwf Hr Hp Hl Ht Hi Hr' Hp'. apply node_agree. intros q j rest b -> Hb.
  apply path_ok_mid in Hp' as (Hq & Hj & Hlq).
  destruct (wf_page _ _ _ Hwf r' q b) as [Hvb _]; try done.
  destruct (wf_page _ _ _ Hwf r p t) as [Hvt _]; try done.
  apply load64_store64_ne. apply entries_apart; try done.
  intros [= -> _]. destruct (wf_inj _ _ _ Hwf r r' p q b) as [_ ->]; try done. lia.
Qed.

(** ** Linking a fresh, zeroed table page *)

Section Link.
Variables (m m' : mem) (roots fl fl' : list Z) (r a j p : Z) (q : list Z).
Hypothesis Hwf : pt_wf m roots fl.
Hypothesis Hr : r ∈ roots.
Hypothesis Hq : path_ok q.
Hypothesis Hlq : (length q <= 1)%nat.
Hypothesis Hj : 0 <= j < 512.
Hypothesis Ha : node m r q = Some a.
Hypothesis Hinv : has (load64 m (a + 8 * j)) PTE_V = false.
Hypothesis Hp : valid_page p.
Hypothesis Hpfl : p ∈ fl.
Hypothesis Hfl' : forall x, x ∈ fl' -> x ∈ fl /\ x <> p.
Hypothesis Hm' : forall b i, valid_page b -> 0 <= i < 512 ->
  load64 m' (b + 8 * i) =
  if decide (b = p) then 0
  else if decide ((b, i) = (a, j)) then Z.lor (PA2PTE p) PTE_V else load64 m (b + 8 * i).

Lemma link_pte : PTE2PA (Z.lor (PA2PTE p) PTE_V) = p /\ has (Z.lor (PA2PTE p) PTE_V) PTE_V = true.
Proof.
  pose proof (valid_page_bounds p Hp) as Hb. destruct Hp as [Hal _]. unfold_consts.
  destruct (pte_pack p PTE_V) as [H1 _]; unfold PGSIZE; try done; try lia.
  split; [done |]. change PTE_V with (2 ^ 0) at 2. rewrite has_pow2 by lia.
  rewrite Z.lor_spec. by rewrite orb_true_r.
Qed.

Lemma fresh_not_node r' x : r' ∈ roots -> path_ok x -> node m r' x <> Some p.
Proof. intros H1 H2 H3. by destruct (wf_page _ _ _ Hwf r' x p). Qed.

Lemma link_mono r' x b : r' ∈ roots -> path_ok x -> node m r' x = Some b -> node m' r' x = Some b.
Proof.
  intros H1 H2 H3. rewrite (node_agree m); [done |]. intros q' j' rest b' -> Hb'.
  pose proof H2 as (Hq' & Hj' & _)%path_ok_mid.
  destruct (wf_page _ _ _ Hwf r' q' b') as [Hv' _]; try done.
  rewrite Hm' by done. destruct decide as [->|_]; [by apply fresh_not_node in Hb' |].
  destruct decide as [[= -> ->]|_]; [| done].
  rewrite node_app, Hb' in H3. simpl in H3. by rewrite Hinv in H3.
Qed.

Lemma link_inv r' x b :
  r' ∈ roots -> path_ok x -> node m' r' x = Some b ->
  node m r' x = Some b \/ (r' = r /\ x = q ++ [j] /\ b = p).
Proof.
  intros H1. revert b. induction x as [|l x IH] using rev_ind; intros b H2 H3; [by left |].
  pose proof (path_ok_mid _ _ _ H2) as (Hx & Hl & _).
  rewrite node_snoc in H3. destruct (node m' r' x) as [c|] eqn:E; [| done]. cbv zeta in H3.
  destruct (IH c Hx eq_refl) as [Hc|(-> & -> & ->)].
  - destruct (wf_page _ _ _ Hwf r' x c) as [Hv _]; try done.
    rewrite Hm' in H3 by done. destruct decide as [->|_]; [by apply fresh_not_node in Hc |].
    destruct decide as [[= -> ->]|_].
    + right. destruct (wf_inj _ _ _ Hwf r r' q x a) as [<- <-]; try done.
      destruct link_pte as [E1 E2]. rewrite E2, E1 in H3. by simplify_eq.
    + left. rewrite node_snoc, Hc. done.
  - rewrite Hm', decide_True in H3 by done. done.
Qed.

Lemma link_wf : pt_wf m' roots fl'.
Proof.
  assert (path_ok (q ++ [j])) as Hqj by by apply path_ok_snoc.
  split.
  - intros r' x b H1 H2 [H3|(-> & -> & ->)]%link_inv; try done.
    + destruct (wf_page _ _ _ Hwf r' x b) as [Hv Hn]; try done.
      split; [done |]. intros [? _]%Hfl'. done.
    + split; [done |]. intros [_ ?]%Hfl'. done.
  - intros r1 r2 x y b Hr1 Hr2 Hx Hy E1 E2. apply link_inv in E1; [| done..].
    apply link_inv in E2; [| done..].
    destruct E1 as [E1|(-> & -> & ->)], E2 as [E2|(-> & -> & E)]; try done.
    + by apply (wf_inj _ _ _ Hwf) with b.
    + subst. by apply fresh_not_node in E1.
    + by apply fresh_not_node in E2.
Qed.

Lemma link_node : node m' r (q ++ [j]) = Some p.
Proof.
  rewrite node_snoc, (link_mono r q a) by done. cbv zeta.
  destruct (wf_page _ _ _ Hwf r q a) as [Hva _]; try done.
  rewrite Hm' by done. rewrite decide_False by (intros ->; by apply fresh_not_node in Ha).
  rewrite decide_True by done. destruct link_pte as [-> ->]. done.
Qed.

Lemma link_leaf r' va : r' ∈ roots -> leaf m' r' va = leaf m r' va.
Proof.
  intros H1. unfold leaf. pose proof (path_ok_of va) as Hok.
  pose proof (PX_range 0 va ltac:(lia)) as HP.
  destruct (node m r' (path_of va)) as [t|] eqn:E.
  - rewrite (link_mono _ _ _ H1 Hok E).
    destruct (wf_page _ _ _ Hwf _ _ _ H1 Hok E) as [Hvt _].
    rewrite Hm' by done. rewrite decide_False by (intros ->; by apply fresh_not_node in E).
    rewrite decide_False; [done |]. intros [= -> _].
    destruct (wf_inj _ _ _ Hwf _ _ _ _ _ Hr H1 Hq Hok Ha E) as [_ ->]. simpl in Hlq. lia.
  - destruct (node m' r' (path_of va)) as [t|] eqn:E'; [| done].
    destruct (link_inv _ _ _ H1 Hok E') as [?|(-> & _ & ->)]; [congruence |].
    by rewrite Hm', decide_True by done.
Qed.
End Link.

(** ** What operations on the tables with roots [roots] may do to the rest of the state *)

Record ext (roots : list Z) (s : vm) (fl : list Z) (s' : vm) (fl' : list Z) : Prop := {
  ext_alloc : alloc_inv s' fl';
  ext_wf : pt_wf (mem_of s') roots fl';
  ext_suffix : exists used, fl = used ++ fl';
  ext_tables : forall a, is_table (mem_of s') roots a -> is_table (mem_of s) roots a \/ a ∈ fl;
  ext_frame : forall p x, valid_page p -> p ∉ fl -> ~ is_table (mem_of s) roots p ->
              in_page p x -> mem_of s' x = mem_of s x;
  ext_counts : forall p, valid_page p -> p ∉ fl ->
               pg_cowrefs s' (p / PGSIZE) = pg_cowrefs s (p / PGSIZE);
}.

Definition same_leaves (roots : list Z) (m m' : mem) : Prop :=
  forall r va, r ∈ roots -> leaf m' r va = leaf m r va.

Lemma ext_refl roots s fl : alloc_inv s fl -> pt_wf (mem_of s) roots fl -> ext roots s fl s fl.
Proof. intros H1 H2. split; auto. by exists []. Qed.

Lemma ext_fl roots s fl s' fl' p : ext roots s fl s' fl' -> p ∈ fl' -> p ∈ fl.
Proof. intros H Hp. destruct (ext_suffix _ _ _ _ _ H) as [u ->]. set_solver. Qed.

Lemma ext_trans roots s1 fl1 s2 fl2 s3 fl3 :
  ext roots s1 fl1 s2 fl2 -> ext roots s2 fl2 s3 fl3 -> ext roots s1 fl1 s3 fl3.
Proof.
  intros H12 H23. destruct H12, H23. split; auto.
  - destruct ext_suffix0 as [u ->], ext_suffix1 as [v ->]. exists (u ++ v). by rewrite app_assoc.
  - intros a [H|H]%ext_tables1; [by apply ext_tables0 |]. right.
    destruct ext_suffix0 as [u ->]. set_solver.
  - intros p x Hp Hn Ht Hx. rewrite (ext_frame1 p x), (ext_frame0 p x); auto.
    + destruct ext_suffix0 as [u ->]. set_solver.
    + intros [|]%ext_tables0; done.
  - intros p Hp Hn. rewrite ext_counts1, ext_counts0; auto.
    destruct ext_suffix0 as [u ->]. set_solver.
Qed.

(** ** Entries *)

Lemma pte_range p f : 0 <= p < 2 ^ 56 -> 0 <= f < 1024 -> 0 <= Z.lor (PA2PTE p) f < 2 ^ 54.
Proof.
  intros Hp Hf. rewrite PA2PTE_lor by done.
  assert (0 <= p / 4096 < 2 ^ 44); [| lia].
  split; [apply Z.div_pos; lia | apply Z.div_lt_upper_bound; lia].
Qed.

Lemma valid_page_range p : valid_page p -> 0 <= p < 2 ^ 56.
Proof. intros H%valid_page_bounds. unfold_consts. lia. Qed.

(** ** [walk] without allocation *)

Definition slot (m : mem) (r va : Z) : Z :=
  match node m r (path_of va) with
  | Some t => t + 8 * PX 0 va
  | None => 0
  end.

Lemma walk_loop_false l va a s :
  (l <= 2)%nat ->
  walk_loop l a va false s =
  Ok (match node (mem_of s) a (drop (2 - l) (path_of va)) with
      | Some t => t + 8 * PX 0 va
      | None => 0
      end, s).
Proof.
  revert a. induction l as [|l IH]; intros a Hl; [done |].
  simpl walk_loop. unfold ld64. mrun.
  assert (drop (2 - S l) (path_of va) = PX (Z.of_nat (S l)) va :: drop (2 - l) (path_of va)) as ->
    by (destruct l as [|[|]]; done || lia).
  simpl node. destruct has; [| done]. by rewrite IH by lia.
Qed.

Lemma walk_false r va s :
  va < MAXVA -> walk r va false s = Ok (slot (mem_of s) r va, s).
Proof.
  intros H. unfold walk. destruct (Z.leb_spec MAXVA va); [lia |].
  by rewrite walk_loop_false.
Qed.

Lemma slot_nonzero m roots fl r va t :
  pt_wf m roots fl -> r ∈ roots -> node m r (path_of va) = Some t ->
  slot m r va = t + 8 * PX 0 va /\ slot m r va <> 0 /\ valid_page t.
Proof.
  intros Hwf Hr Ht. unfold slot. rewrite Ht.
  destruct (wf_page _ _ _ Hwf r (path_of va) t) as [Hv _]; auto using path_ok_of.
  pose proof (PX_range 0 va ltac:(lia)). pose proof (valid_page_bounds t Hv).
  unfold_consts. split_and!; [done | lia | done].
Qed.

Lemma leaf_valid_node m r va : has (leaf m r va) PTE_V = true ->
  exists t, node m r (path_of va) = Some t /\ leaf m r va = load64 m (t + 8 * PX 0 va).
Proof. unfold leaf. destruct node as [t|]; [eauto | done]. Qed.

Lemma leaf_range m r va : 0 <= leaf m r va < 2 ^ 64.
Proof. unfold leaf. destruct node; [apply load64_range | lia]. Qed.

(** ** A store to a leaf entry changes one translation *)

Lemma leaf_store m roots fl r va t v :
  pt_wf m roots fl -> r ∈ roots -> va_ok va -> node m r (path_of va) = Some t ->
  let m' := store64 m (t + 8 * PX 0 va) v in
  pt_wf m' roots fl /\
  leaf m' r va = u64 v /\
  (forall r' va', r' ∈ roots -> va_ok va' -> (r', va') <> (r, va) -> leaf m' r' va' = leaf m r' va') /\
  (forall a, is_table m' roots a <-> is_table m roots a).
Proof.
  intros Hwf Hr Hva Ht m'. pose proof (path_ok_of va) as Hok.
  pose proof (PX_range 0 va ltac:(lia)) as HP.
  assert (forall r' p', r' ∈ roots -> path_ok p' -> node m' r' p' = node m r' p') as Hn.
  { intros. by eapply (node_store_leaf m roots fl r (path_of va)). }
  split_and!.
  - split.
    + intros r' p a H1 H2. rewrite Hn by done. by apply (wf_page _ _ _ Hwf).
    + intros r1 r2 p1 p2 a H1 H2 H3 H4. rewrite !Hn by done. by apply (wf_inj _ _ _ Hwf).
  - unfold leaf. rewrite Hn, Ht by done. apply load64_store64.
  - intros r' va' Hr' Hva' Hne. pose proof (path_ok_of va') as Hok'.
    pose proof (PX_range 0 va' ltac:(lia)) as HP'.
    unfold leaf. rewrite Hn by done. destruct (node m r' (path_of va')) as [t'|] eqn:Ht'; [| done].
    destruct (wf_page _ _ _ Hwf _ _ _ Hr Hok Ht) as [Hvt _].
    destruct (wf_page _ _ _ Hwf _ _ _ Hr' Hok' Ht') as [Hvt' _].
    apply load64_store64_ne, entries_apart; try done. intros [= -> HPX].
    destruct (wf_inj _ _ _ Hwf _ _ _ _ _ Hr Hr' Hok Hok' Ht Ht') as [-> Hpath].
    apply Hne. f_equal. injection Hpath as H2 H1. destruct Hva as [? Hal], Hva' as [? Hal'].
    apply PX_inj; congruence.
  - intros a. unfold is_table. split; intros (r' & p & ? & ? & ?); exists r', p;
      (split_and!; [done | done |]); [rewrite <- Hn by done | rewrite Hn by done]; done.
Qed.

(** ** [walk] with allocation *)

Lemma path_step l va : (l <= 1)%nat ->
  take (2 - l) (path_of va) = take (2 - S l) (path_of va) ++ [PX (Z.of_nat (S l)) va].
Proof. intros. destruct l as [|[|]]; done || lia. Qed.

Lemma path_ok_take n va : path_ok (take n (path_of va)).
Proof. apply (path_ok_app _ (drop n (path_of va))). rewrite take_drop. apply path_ok_of. Qed.

(** Allocating and linking one table page, as one step of [walk]. *)
Definition linked (p a j : Z) (s : vm) : vm :=
  set_mem (fun m => store64 (memset m p 0 PGSIZE) (a + 8 * j) (Z.lor (PA2PTE p) PTE_V))
          (popped p s).

Lemma linked_loads s p a j b i :
  valid_page p -> valid_page a -> a <> p -> 0 <= j < 512 -> valid_page b -> 0 <= i < 512 ->
  load64 (mem_of (linked p a j s)) (b + 8 * i) =
  if decide (b = p) then 0
  else if decide ((b, i) = (a, j)) then Z.lor (PA2PTE p) PTE_V
  else load64 (mem_of s) (b + 8 * i).
Proof.
  intros Hp Ha Hne Hj Hb Hi. unfold linked. simpl mem_of.
  destruct (decide (b = p)) as [->|Hbp].
  - rewrite load64_store64_ne by (apply entries_apart; congruence).
    apply load_memset_zero; unfold PGSIZE; lia.
  - destruct decide as [[= -> ->]|He].
    + rewrite load64_store64. apply u64_small.
      pose proof (pte_range p PTE_V (valid_page_range p Hp) ltac:(done)). lia.
    + rewrite load64_store64_ne by (apply entries_apart; congruence).
      apply (load64_outside [p] _ _ b); try (unfold PGSIZE; lia).
      * eapply same_outside_trans;
          [apply (same_outside_memset _ _ p 5) | apply (same_outside_memset _ _ p 0)]; set_solver.
      * set_solver.
      * repeat apply Forall_cons_2; try by apply valid_page_aligned. constructor.
Qed.

Lemma linked_ext roots s p fl r q a j :
  alloc_inv s (p :: fl) -> pt_wf (mem_of s) roots (p :: fl) -> r ∈ roots -> path_ok q ->
  (length q <= 1)%nat -> 0 <= j < 512 -> node (mem_of s) r q = Some a ->
  has (load64 (mem_of s) (a + 8 * j)) PTE_V = false ->
  ext roots s (p :: fl) (linked p a j s) fl /\
  same_leaves roots (mem_of s) (mem_of (linked p a j s)) /\
  node (mem_of (linked p a j s)) r (q ++ [j]) = Some p.
Proof.
  intros Hi Hwf Hr Hq Hlq Hj Ha Hv.
  assert (valid_page p) as Hp by (apply inv_valid in Hi; by apply Forall_cons in Hi as [? _]).
  destruct (wf_page _ _ _ Hwf _ _ _ Hr Hq Ha) as [Hva Hna].
  assert (a <> p /\ a ∉ fl) as [Hap Hafl] by set_solver.
  assert (p ∉ fl) as Hpfl by (apply inv_nodup in Hi; by apply NoDup_cons in Hi as [? _]).
  pose proof (linked_loads s p a j) as Hld.
  assert (forall x, x ∈ fl -> x ∈ p :: fl /\ x <> p) as Hsub by set_solver.
  assert (p ∈ p :: fl) as Hpin by set_solver.
  assert (same_outside [p; a] (mem_of s) (mem_of (linked p a j s))) as Hso.
  { eapply same_outside_trans; [apply (same_outside_memset _ _ p 5); set_solver |].
    eapply same_outside_trans; [apply (same_outside_memset _ _ p 0); set_solver |].
    apply (same_outside_store64 _ _ a); [set_solver | lia | unfold PGSIZE; lia]. }
  split_and!.
  - split.
    + destruct (kalloc_cons _ _ _ Hi) as [_ Hi'].
      apply (alloc_inv_outside [p; a] _ _ _ Hi'); [| each | set_solver].
      simpl. eapply same_outside_trans; [apply (same_outside_memset _ _ p 0); set_solver |].
      apply (same_outside_store64 _ _ a); [set_solver | lia | unfold PGSIZE; lia].
    + eapply (link_wf (mem_of s) _ roots (p :: fl) fl r a j p q); auto.
    + by exists [p].
    + intros b (r' & x & Hr' & Hx & Hb).
      eapply (link_inv (mem_of s) _ roots (p :: fl) fl r a j p q) in Hb as [Hb|(-> & -> & ->)]; auto.
      left. by exists r', x.
    + intros p' x Hp' Hn Ht Hx. apply Hso. intros y Hy Hin.
      assert (y mod PGSIZE = 0) by (set_unfold; destruct Hy as [->|[->|[]]]; by apply valid_page_aligned).
      assert (y = p') as -> by (eapply pages_disjoint; eauto using valid_page_aligned).
      set_unfold. destruct Hy as [->|[->|[]]]; [tauto |]. apply Ht. by exists r, q.
    + intros p' Hp' Hn. simpl. unfold upd. destruct (Z.eqb_spec (p' / PGSIZE) (p / PGSIZE)) as [E|]; [| done].
      apply page_index_inj in E; try done. set_solver.
  - intros r' va Hr'. eapply (link_leaf (mem_of s) _ roots (p :: fl) fl r a j p q); auto.
  - eapply (link_node (mem_of s) _ roots (p :: fl) r a j p q); auto.
Qed.

(** [walk] with [alloc != 0]: it returns the leaf slot, or 0 when memory ran out; no
    translation changes. *)
Lemma walk_loop_alloc roots l va r a s fl :
  alloc_inv s fl -> pt_wf (mem_of s) roots fl -> r ∈ roots -> (l <= 2)%nat ->
  node (mem_of s) r (take (2 - l) (path_of va)) = Some a ->
  exists res s' fl', walk_loop l a va true s = Ok (res, s') /\ ext roots s fl s' fl' /\
    same_leaves roots (mem_of s) (mem_of s') /\
    ((res = 0 /\ fl' = []) \/
     exists t, node (mem_of s') r (path_of va) = Some t /\ res = t + 8 * PX 0 va).
Proof.
  revert a s fl. induction l as [|l IH]; intros a s fl Hi Hwf Hr Hl Ha.
  { eexists _, s, fl. split_and!; [done | by apply ext_refl | done | right; by exists a]. }
  simpl walk_loop. unfold ld64. mrun. set (j := PX (Z.of_nat (S l)) va) in *.
  pose proof (path_step l va ltac:(lia)) as Hstep.
  destruct has eqn:Hv.
  { apply IH; try done; [lia |]. rewrite Hstep, node_snoc, Ha. cbv zeta. fold j. by rewrite Hv. }
  simpl negb. cbv iota. destruct (kalloc_total s fl Hi) as [[-> Hk]|(p & fl1 & -> & Hk & _)].
  { mrun with Hk. eexists 0, s, []. split_and!; [done | by apply ext_refl | done | by left]. }
  assert (valid_page p) as Hp by (apply inv_valid in Hi; by apply Forall_cons in Hi as [? _]).
  mrun with Hk. destruct (Z.eqb_spec p 0); [by apply valid_page_bounds in Hp; lia |].
  unfold do_memset, st64. mrun.
  destruct (linked_ext roots s p fl1 r (take (2 - S l) (path_of va)) a j) as (He & Hsl & Hn);
    try done; [apply path_ok_take | rewrite length_take; simpl; lia | apply PX_range; lia |].
  change (set_mem _ (set_mem _ (popped p s))) with (linked p a j s).
  destruct (IH p (linked p a j s) fl1) as (res & s' & fl' & Hw & He' & Hsl' & Hres);
    try done; [apply He | apply He | lia | by rewrite Hstep |].
  exists res, s', fl'. split_and!; [done | by eapply ext_trans | | done].
  intros r' va' Hr'. by rewrite Hsl', Hsl.
Qed.

Lemma walk_alloc roots va r s fl :
  alloc_inv s fl -> pt_wf (mem_of s) roots fl -> r ∈ roots -> va < MAXVA ->
  exists res s' fl', walk r va true s = Ok (res, s') /\ ext roots s fl s' fl' /\
    same_leaves roots (mem_of s) (mem_of s') /\
    ((res = 0 /\ fl' = []) \/
     exists t, node (mem_of s') r (path_of va) = Some t /\ res = t + 8 * PX 0 va).
Proof.
  intros. unfold walk. destruct (Z.leb_spec MAXVA va); [lia |]. by apply walk_loop_alloc.
Qed.

(** When the tables for [va] exist, [walk] allocates nothing. *)
Lemma walk_valid roots fl r va t alloc s :
  pt_wf (mem_of s) roots fl -> r ∈ roots -> va < MAXVA ->
  node (mem_of s) r (path_of va) = Some t ->
  walk r va alloc s = Ok (slot (mem_of s) r va, s).
Proof.
  intros _ _ Hlt Ht. unfold walk, slot. destruct (Z.leb_spec MAXVA va); [lia |]. rewrite Ht.
  unfold path_of in Ht. simpl in Ht. simpl walk_loop. unfold ld64.
  change (Z.of_nat 2) with 2. change (Z.of_nat 1) with 1. mrun.
  destruct (has (load64 (mem_of s) (r + 8 * PX 2 va)) PTE_V); [| done]. mrun.
  destruct has; [| done]. by simplify_eq.
Qed.

(** The store of a leaf entry, as a step on states. *)
Definition set_pte (a v : Z) (s : vm) : vm := set_mem (fun m => store64 m a v) s.

Lemma set_pte_ext roots s fl r va t v :
  alloc_inv s fl -> pt_wf (mem_of s) roots fl -> r ∈ roots -> va_ok va ->
  node (mem_of s) r (path_of va) = Some t ->
  let s' := set_pte (t + 8 * PX 0 va) v s in
  ext roots s fl s' fl /\
  leaf (mem_of s') r va = u64 v /\
  (forall r' va', r' ∈ roots -> va_ok va' -> (r', va') <> (r, va) ->
     leaf (mem_of s') r' va' = leaf (mem_of s) r' va') /\
  (forall a, is_table (mem_of s') roots a <-> is_table (mem_of s) roots a) /\
  node (mem_of s') r (path_of va) = Some t.
Proof.
  intros Hi Hwf Hr Hva Ht s'. pose proof (path_ok_of va) as Hok.
  pose proof (PX_range 0 va ltac:(lia)) as HP.
  destruct (leaf_store _ _ _ _ _ _ v Hwf Hr Hva Ht) as (Hwf' & Hl & Hlo & Htab).
  destruct (wf_page _ _ _ Hwf _ _ _ Hr Hok Ht) as [Hvt Hnt].
  assert (same_outside [t] (mem_of s) (mem_of s')) as Hso.
  { apply (same_outside_store64 _ _ t); [set_solver | lia | unfold PGSIZE; lia]. }
  split_and!; try done.
  - split; try done.
    + apply (alloc_inv_outside [t] _ _ _ Hi Hso); [each | set_solver].
    + by exists [].
    + intros a Ha. left. by apply Htab.
    + intros p x Hp Hn Hnt' Hx. apply Hso. intros y Hy Hin.
      apply list_elem_of_singleton in Hy as ->. apply Hnt'.
      assert (t = p) as <- by (eapply pages_disjoint; eauto using valid_page_aligned).
      by exists r, (path_of va).
  - unfold s', set_pte. cbn [mem_of set_mem].
    by rewrite (node_store_leaf (mem_of s) roots fl r (path_of va)).
Qed.

(** ** [mappages] *)

Lemma mappages_loop_step roots f r a last pa perm s fl :
  alloc_inv s fl -> pt_wf (mem_of s) roots fl -> r ∈ roots -> va_ok a ->
  (has (leaf (mem_of s) r a) PTE_V = true ->
     mappages_loop (S f) r a last pa perm s = Panic "mappages: remap") /\
  (has (leaf (mem_of s) r a) PTE_V = false ->
   exists s' fl', ext roots s fl s' fl' /\
    ((mappages_loop (S f) r a last pa perm s = Ok (-1, s') /\ fl' = [] /\
      same_leaves roots (mem_of s) (mem_of s')) \/
     (mappages_loop (S f) r a last pa perm s =
        (if a =? last then Ok (0, s')
         else mappages_loop f r (u64 (a + PGSIZE)) last (u64 (pa + PGSIZE)) perm s') /\
      leaf (mem_of s') r a = u64 (Z.lor (Z.lor (PA2PTE pa) (u64 perm)) PTE_V) /\
      (forall r' va', r' ∈ roots -> va_ok va' -> (r', va') <> (r, a) ->
         leaf (mem_of s') r' va' = leaf (mem_of s) r' va')))).
Proof.
  intros Hi Hwf Hr Ha. pose proof Ha as [[_ Hlt] _].
  destruct (walk_alloc roots a r s fl Hi Hwf Hr Hlt) as (res & s1 & fl1 & Hw & He & Hsl & Hres).
  assert (leaf (mem_of s1) r a = leaf (mem_of s) r a) as Hleaf by by apply Hsl.
  destruct Hres as [[-> ->]|(t & Ht & ->)].
  - split.
    + intros Hv. destruct (leaf_valid_node _ _ _ Hv) as (t & Ht & _).
      rewrite (walk_valid roots fl) with (t := t) in Hw by done. injection Hw as E _.
      by destruct (slot_nonzero _ _ _ _ _ _ Hwf Hr Ht) as (_ & H0 & _).
    + intros _. exists s1, []. split; [done |]. left. simpl. mrun with Hw. done.
  - pose proof (PX_range 0 a ltac:(lia)) as HP.
    destruct (slot_nonzero _ _ _ _ _ _ (ext_wf _ _ _ _ _ He) Hr Ht) as (Hsl0 & Hnz & Hvt).
    rewrite Hsl0 in Hnz.
    assert (load64 (mem_of s1) (t + 8 * PX 0 a) = leaf (mem_of s) r a) as Hld.
    { rewrite <- Hleaf. unfold leaf. by rewrite Ht. }
    split; intros Hv; simpl mappages_loop; rewrite (bind_ok _ _ _ _ _ Hw).
    + destruct (Z.eqb_spec (t + 8 * PX 0 a) 0); [done |]. unfold ld64. mrun.
      by rewrite Hld, Hv.
    + destruct (set_pte_ext roots s1 fl1 r a t (Z.lor (Z.lor (PA2PTE pa) (u64 perm)) PTE_V))
        as (He2 & Hl2 & Hlo2 & _ & _); try done; try apply He.
      eexists _, fl1. split; [by eapply ext_trans |]. right. split_and!.
      * destruct (Z.eqb_spec (t + 8 * PX 0 a) 0); [done |]. unfold ld64, st64. mrun.
        rewrite Hld, Hv. mrun. by destruct (a =? last).
      * done.
      * intros r' va' Hr' Hva' Hne. rewrite Hlo2 by done. by apply Hsl.
Qed.

(** The entry [mappages] writes for physical page [pa]. *)
Definition mk_pte (pa perm : Z) : Z := Z.lor (PA2PTE pa) (Z.lor perm PTE_V).

Lemma mk_pte_flags perm : 0 <= perm < 1024 -> 0 <= Z.lor perm PTE_V < 1024.
Proof. intros. by apply (lor_range _ _ 10). Qed.

Lemma mk_pte_u64 pa perm :
  0 <= pa < 2 ^ 56 -> 0 <= perm < 1024 ->
  u64 (Z.lor (Z.lor (PA2PTE pa) (u64 perm)) PTE_V) = mk_pte pa perm.
Proof.
  intros Hpa Hp. unfold mk_pte. rewrite <- Z.lor_assoc, (u64_small perm) by lia.
  apply u64_small. pose proof (pte_range pa _ Hpa (mk_pte_flags perm Hp)). lia.
Qed.

Lemma va_ok_next va : va_ok va -> va + PGSIZE < MAXVA -> va_ok (va + PGSIZE).
Proof.
  intros [Hr Ha] Hlt. split; [unfold PGSIZE in *; lia | by apply aligned_next].
Qed.

(** Aligned addresses are a page apart. *)
Lemma va_ok_gap a b : va_ok a -> va_ok b -> a < b -> a + PGSIZE <= b.
Proof.
  intros [_ Ha] [_ Hb] H. unfold PGSIZE in *.
  pose proof (Z.div_mod a 4096). pose proof (Z.div_mod b 4096). lia.
Qed.

Lemma mappages_loop_spec roots r perm last n : forall pa f a s fl,
  alloc_inv s fl -> pt_wf (mem_of s) roots fl -> r ∈ roots -> va_ok a ->
  0 <= pa -> pa + Z.of_nat n * PGSIZE < 2 ^ 56 -> 0 <= perm < 1024 ->
  last = a + Z.of_nat n * PGSIZE -> last < MAXVA -> (n < f)%nat ->
  (forall va, va_ok va -> a <= va <= last -> has (leaf (mem_of s) r va) PTE_V = false) ->
  exists res s' fl',
    mappages_loop f r a last pa perm s = Ok (res, s') /\ ext roots s fl s' fl' /\
    (forall r' va, r' ∈ roots -> va_ok va -> ~ (r' = r /\ a <= va <= last) ->
       leaf (mem_of s') r' va = leaf (mem_of s) r' va) /\
    ((res = -1 /\ fl' = []) \/
     (res = 0 /\ forall va, va_ok va -> a <= va <= last ->
        leaf (mem_of s') r va = mk_pte (pa + (va - a)) perm)).
Proof.
  induction n as [|n IH]; intros pa f a s fl Hi Hwf Hr Ha Hpa Hpa2 Hperm Hlast Hlt Hf Hfree;
    (destruct f as [|f]; [lia |]);
    destruct (mappages_loop_step roots f r a last pa perm s fl Hi Hwf Hr Ha) as [_ Hstep];
    (destruct Hstep as (s1 & fl1 & He & [(Heq & -> & Hsl)|(Heq & Hl & Hlo)]);
      [apply Hfree; [done | unfold PGSIZE in *; lia]
      | eexists (-1), s1, []; split_and!; [done | done | intros; by apply Hsl | by left] |]);
    rewrite mk_pte_u64 in Hl by (unfold PGSIZE in *; lia);
    assert (forall r' va, r' ∈ roots -> va_ok va -> ~ (r' = r /\ a <= va <= last) ->
       leaf (mem_of s1) r' va = leaf (mem_of s) r' va) as Hlo'
      by (intros r' va ?? Hne; apply Hlo; [done.. | intros [= -> ->]; apply Hne; unfold PGSIZE in *; lia]).
  - exists 0, s1, fl1. rewrite Heq. replace last with a by lia. rewrite Z.eqb_refl.
    split_and!; [done | done | intros; apply Hlo'; [done.. | lia] |]. right. split; [done |].
    intros va Hva ?. replace va with a by lia. by rewrite Z.sub_diag, Z.add_0_r.
  - rewrite Heq. destruct (Z.eqb_spec a last); [unfold PGSIZE in *; lia |].
    rewrite !u64_small by (unfold_consts; destruct Ha; lia).
    pose proof (va_ok_next a Ha ltac:(unfold PGSIZE in *; lia)) as Ha'.
    destruct (IH (pa + PGSIZE) f (a + PGSIZE) s1 fl1) as (res & s2 & fl2 & Hrun & He2 & Hout & Hres);
      try apply He; try done; try (unfold PGSIZE in *; lia).
    { intros va Hva Hin. rewrite Hlo; [apply Hfree; [done | unfold PGSIZE in *; lia] | done..|].
      intros [= ->]. unfold PGSIZE in *. lia. }
    exists res, s2, fl2. split_and!; [done | by eapply ext_trans | |].
    + intros r' va Hr' Hva Hne. rewrite Hout; [by apply Hlo' | done.. |].
      intros [-> ?]. apply Hne. unfold PGSIZE in *. lia.
    + destruct Hres as [?|[-> Hmap]]; [by left | right]. split; [done |]. intros va Hva Hin.
      destruct (Z.eq_dec va a) as [->|Hne].
      * rewrite Hout, Hl, Z.sub_diag, Z.add_0_r; try done. unfold PGSIZE. lia.
      * pose proof (va_ok_gap a va Ha Hva ltac:(lia)).
        rewrite Hmap by (done || lia). f_equal. lia.
Qed.

(** ** [mappages] never runs out of fuel *)

Lemma walk_no_diverge r va alloc s : walk r va alloc s <> Diverge.
Proof.
  unfold walk. case_match; [done |].
  assert (forall l a s', walk_loop l a va alloc s' <> Diverge) as H'; [| apply H'].
  induction l as [|l IH]; intros a s'; simpl; [done |]. unfold ld64. mrun.
  case_match; [apply IH |]. case_match; [done |].
  unfold bind, kalloc, ld64, do_memset, st64. mrun.
  destruct (freelist s' =? 0) eqn:E; simpl; [rewrite E; done |]. rewrite E. apply IH.
Qed.

Lemma walk_beyond r va alloc s : MAXVA <= va -> walk r va alloc s = Panic "walk".
Proof. intros. unfold walk. by destruct (Z.leb_spec MAXVA va); [| lia]. Qed.

Lemma mappages_loop_fuel r last perm f : forall a pa s,
  0 <= a < 2 ^ 64 -> a mod PGSIZE = 0 -> 0 <= last < 2 ^ 64 -> last mod PGSIZE = 0 ->
  (if last <? a then MAXVA - a else last - a) < Z.of_nat f * PGSIZE ->
  (0 < f)%nat -> mappages_loop f r a last pa perm s <> Diverge.
Proof.
  induction f as [|f IH]; intros a pa s Ha Haa Hl Hla Hm Hf; [lia |]. simpl.
  destruct (Z.ltb_spec a MAXVA) as [Hlt|Hge]; [| by rewrite bind_panic with (msg := "walk"); [|apply walk_beyond]].
  unfold bind at 1. pose proof (walk_no_diverge r a true s). destruct walk as [[pte s1]| |]; [|done..].
  destruct (pte =? 0); [done |]. unfold ld64. mrun. destruct has; [done |]. unfold st64. mrun.
  destruct (Z.eqb_spec a last) as [->|Hne]; [done |].
  unfold_consts. rewrite u64_small by lia.
  pose proof (Z.div_mod a 4096). pose proof (Z.div_mod last 4096).
  pose proof (aligned_next a Haa).
  apply IH; unfold PGSIZE; try done; try lia;
    destruct (Z.ltb_spec last a); destruct (Z.ltb_spec last (a + 4096)); try lia.
Qed.

(** ** Writes to pages that are not tables *)

Lemma tables_outside ps m m' roots fl fl' :
  pt_wf m roots fl -> same_outside ps m m' -> Forall valid_page ps ->
  (forall a, is_table m roots a -> a ∉ ps) ->
  (forall a, a ∈ fl' -> a ∈ fl \/ a ∈ ps) ->
  pt_wf m' roots fl' /\ same_leaves roots m m' /\
  (forall a, is_table m' roots a <-> is_table m roots a).
Proof.
  intros Hwf Hs Hps Hd Hfl.
  assert (forall r p, r ∈ roots -> path_ok p -> node m' r p = node m r p) as Hn
    by (intros; by eapply node_outside).
  split_and!.
  - split.
    + intros r p a Hr Hp Ha. rewrite Hn in Ha by done.
      destruct (wf_page _ _ _ Hwf r p a) as [Hv Hnin]; try done. split; [done |].
      intros [?|?]%Hfl; [done |]. apply (Hd a); [by exists r, p | done].
    + intros r1 r2 p1 p2 a H1 H2 H3 H4. rewrite !Hn by done. by apply (wf_inj _ _ _ Hwf).
  - intros r va Hr. unfold leaf. pose proof (path_ok_of va) as Hok.
    rewrite Hn by done. destruct (node m r (path_of va)) as [t|] eqn:Ht; [| done].
    pose proof (PX_range 0 va ltac:(lia)).
    destruct (wf_page _ _ _ Hwf _ _ _ Hr Hok Ht) as [Hv _].
    apply (load64_outside ps m m' t); try done; [| | lia | unfold PGSIZE; lia].
    + apply Hd. by exists r, (path_of va).
    + constructor; [by apply valid_page_aligned |].
      eapply Forall_impl; [exact Hps | by intros ? []].
  - intros a. unfold is_table. split; intros (r & p & ? & ? & ?); exists r, p;
      (split_and!; [done | done |]); [rewrite <- Hn by done | rewrite Hn by done]; done.
Qed.

(** ** [uvmcreate]: a root table with no translation *)

Lemma zero_page_node m p path a :
  (forall i, 0 <= i < 512 -> load64 m (p + 8 * i) = 0) ->
  path_ok path -> node m p path = Some a -> path = [] /\ a = p.
Proof.
  intros Hz [_ Hf] Hn. destruct path as [|i path]; [by simplify_eq/= |].
  apply Forall_cons in Hf as [Hi _]. simpl in Hn. by rewrite Hz in Hn by done.
Qed.

Lemma uvmcreate_spec roots s p fl :
  alloc_inv s (p :: fl) -> pt_wf (mem_of s) roots (p :: fl) ->
  exists s', uvmcreate s = Ok (p, s') /\ alloc_inv s' fl /\ pt_wf (mem_of s') (p :: roots) fl /\
    same_leaves roots (mem_of s) (mem_of s') /\ (forall va, leaf (mem_of s') p va = 0) /\
    (forall a, is_table (mem_of s') (p :: roots) a -> a = p \/ is_table (mem_of s) roots a) /\
    pg_cowrefs s' = upd (pg_cowrefs s) (p / PGSIZE) 0 /\
    same_outside [p] (mem_of s) (mem_of s') /\ p ∉ roots.
Proof.
  intros Hi Hwf. destruct (kalloc_cons _ _ _ Hi) as [Hk Hi'].
  assert (valid_page p) as Hp by (apply inv_valid in Hi; by apply Forall_cons in Hi as [? _]).
  assert (p ∉ fl) as Hpn by (apply inv_nodup in Hi; by apply NoDup_cons in Hi as [? _]).
  assert (forall a, is_table (mem_of s) roots a -> a ∉ [p]) as Hnt.
  { intros a (r & q & Hr & Hq & Ha). destruct (wf_page _ _ _ Hwf r q a) as [_ Hn]; try done. set_solver. }
  set (s' := set_mem (fun m => memset m p 0 PGSIZE) (popped p s)).
  assert (same_outside [p] (mem_of s) (mem_of s')) as Hso.
  { eapply same_outside_trans; [apply (same_outside_memset _ _ p 5) | apply (same_outside_memset _ _ p 0)];
      set_solver. }
  destruct (tables_outside [p] (mem_of s) (mem_of s') roots (p :: fl) (p :: fl))
    as (Hwf' & Hsl & Htab); try done; [each | naive_solver |].
  assert (forall i, 0 <= i < 512 -> load64 (mem_of s') (p + 8 * i) = 0) as Hz.
  { intros i Hi0. apply load_memset_zero; unfold PGSIZE; lia. }
  assert (p ∉ roots) as Hpr.
  { intros Hin. apply (Hnt p); [| set_solver]. exists p, []. split_and!; [done | apply path_ok_nil | done]. }
  exists s'. split_and!; try done.
  - unfold uvmcreate. mrun with Hk. destruct (Z.eqb_spec p 0); [by apply valid_page_bounds in Hp; lia |]. done.
  - apply (alloc_inv_outside [p] _ _ _ Hi'); [apply same_outside_memset; set_solver | each | set_solver].
  - split.
    + intros r q a Hr Hq Ha. destruct (decide (r = p)) as [->|].
      * by apply zero_page_node in Ha as [-> ->].
      * destruct (wf_page _ _ _ Hwf' r q a) as [? Hn]; set_solver.
    + intros r1 r2 p1 p2 a Hr1 Hr2 Hp1 Hp2 H1 H2.
      assert (forall r q, r ∈ p :: roots -> r <> p -> path_ok q -> node (mem_of s') r q <> Some p) as Hnp.
      { intros r q Hr Hne Hq Ha. destruct (wf_page _ _ _ Hwf' r q p) as [_ Hn]; set_solver. }
      destruct (decide (r1 = p)) as [->|Hne1], (decide (r2 = p)) as [->|Hne2].
      * apply zero_page_node in H1 as [-> ->]; try done. by apply zero_page_node in H2 as [-> _].
      * apply zero_page_node in H1 as [-> ->]; try done. by apply Hnp in H2.
      * apply zero_page_node in H2 as [-> ->]; try done. by apply Hnp in H1.
      * apply (wf_inj _ _ _ Hwf') with a; set_solver.
  - intros va. unfold leaf. simpl. pose proof (PX_range 2 va ltac:(lia)). by rewrite Hz.
  - intros a (r & q & Hr & Hq & Ha). destruct (decide (r = p)) as [->|].
    + apply zero_page_node in Ha as [-> ->]; auto.
    + right. apply Htab. exists r, q. set_solver.
Qed.

(** ** Properties *)

(** [mappages] over a range of pages none of which is mapped, in a tree-shaped table:
    it returns 0 with every page of the range translated to the corresponding physical page
    with the requested permissions, or -1 when physical memory is exhausted; it neither
    panics nor runs on, no translation outside the range changes in any table, and no
    page other than table pages and formerly free pages is written. *)
Lemma mappages_spec (roots : list Z) (r va size pa perm : Z) (s : vm) (fl : list Z)
    (Hi : alloc_inv s fl) (Hwf : pt_wf (mem_of s) roots fl) (Hr : r ∈ roots)
    (Hva : 0 <= va) (Hsize : 0 < size) (Hend : va + size <= MAXVA)
    (Hpa : 0 <= pa /\ pa + size < 2 ^ 55) (Hperm : 0 <= perm < 1024)
    (Hfree : forall p, va_ok p -> PGROUNDDOWN va <= p < va + size ->
       has (leaf (mem_of s) r p) PTE_V = false) :
  exists res s' fl',
    mappages r va size pa perm s = Ok (res, s') /\ ext roots s fl s' fl' /\
    (forall r' p, r' ∈ roots -> va_ok p -> ~ (r' = r /\ PGROUNDDOWN va <= p < va + size) ->
       leaf (mem_of s') r' p = leaf (mem_of s) r' p) /\
    ((res = -1 /\ fl' = []) \/
     (res = 0 /\ forall p, va_ok p -> PGROUNDDOWN va <= p < va + size ->
        leaf (mem_of s') r p = mk_pte (pa + (p - PGROUNDDOWN va)) perm)).
Proof.
  unfold mappages. destruct (Z.eqb_spec size 0); [lia |].
  unfold_consts. rewrite (u64_small (va + size - 1)) by lia.
  pose proof (PGROUNDDOWN_bounds va) as Hb1. pose proof (PGROUNDDOWN_aligned va) as Ha1.
  pose proof (PGROUNDDOWN_bounds (va + size - 1)) as Hb2.
  pose proof (PGROUNDDOWN_aligned (va + size - 1)) as Ha2.
  set (a := PGROUNDDOWN va) in *. set (l := PGROUNDDOWN (va + size - 1)) in *.
  unfold PGSIZE in *. pose proof (Z.div_mod a 4096). pose proof (Z.div_mod l 4096).
  assert (va_ok a) as Hok by (split; unfold_consts; lia).
  assert (l - a = (l / 4096 - a / 4096) * 4096) as Hla by lia.
  assert (forall p, va_ok p -> a <= p <= l <-> a <= p < va + size) as Hin.
  { intros p [_ Hp]. unfold PGSIZE in Hp. pose proof (Z.div_mod p 4096). lia. }
  destruct (mappages_loop_spec roots r perm l (Z.to_nat (l / 4096 - a / 4096)) pa
              (mappages_fuel a l) a s fl)
    as (res & s' & fl' & Hrun & He & Hout & Hres); try done; unfold PGSIZE; try lia.
  - unfold_consts. lia.
  - unfold mappages_fuel, PGSIZE. destruct (Z.ltb_spec l a); [lia |].
    rewrite Hla, Z.div_mul by lia. lia.
  - intros p Hp Hr'. apply Hfree; [done | by apply Hin].
  - exists res, s', fl'. split_and!; [done | done | |].
    + intros r' p Hr' Hp Hne. apply Hout; [done.. |]. by rewrite Hin.
    + destruct Hres as [?|[-> Hmap]]; [by left | right]. split; [done |].
      intros p Hp Hr'. by apply Hmap, Hin.
Qed.

(** [mappages] always returns or panics, for any table, address and size: also when
    [va + size] wraps around, the walk past [MAXVA] stops it. *)
Lemma mappages_terminates (r va size pa perm : Z) (s : vm) (Hva : 0 <= va < 2 ^ 64) :
  mappages r va size pa perm s <> Diverge.
Proof.
  unfold mappages. destruct (size =? 0); [done |].
  pose proof (PGROUNDDOWN_bounds va). pose proof (PGROUNDDOWN_aligned va).
  pose proof (u64_range (va + size - 1)) as Hu.
  pose proof (PGROUNDDOWN_bounds (u64 (va + size - 1))).
  pose proof (PGROUNDDOWN_aligned (u64 (va + size - 1))).
  set (a := PGROUNDDOWN va) in *. set (l := PGROUNDDOWN (u64 (va + size - 1))) in *.
  unfold PGSIZE in *. pose proof (Z.div_mod a 4096). pose proof (Z.div_mod l 4096).
  apply mappages_loop_fuel; unfold PGSIZE; try done; try lia.
  - unfold mappages_fuel. unfold_consts.
    destruct (Z.ltb_spec l a) as [Hl|Hl].
    + pose proof (Z.div_mod (274877906944 - a) 4096). pose proof (Z.mod_pos_bound (274877906944 - a) 4096). lia.
    + pose proof (Z.div_mod (l - a) 4096). pose proof (Z.mod_pos_bound (l - a) 4096). lia.
  - unfold mappages_fuel. lia.
Qed.

Lemma walkaddr_eval (r va : Z) (s : vm) :
  walkaddr r va s =
  Ok (if (MAXVA <=? va) || (slot (mem_of s) r va =? 0) then 0
      else let v := load64 (mem_of s) (slot (mem_of s) r va) in
           if has v PTE_V && has v PTE_U then PTE2PA v else 0, s).
Proof.
  unfold walkaddr. destruct (Z.leb_spec MAXVA va); [done |].
  rewrite (bind_ok _ _ _ _ _ (walk_false r va s ltac:(lia))). simpl orb.
  destruct (slot _ _ _ =? 0); [done |]. unfold ld64. mrun. cbv zeta.
  destruct (has _ PTE_V); simpl; [| done]. by destruct (has _ PTE_U).
Qed.

(** [walkaddr] never changes the state or panics; it yields the physical page of a valid
    user-accessible leaf entry and 0 for anything else. *)
Lemma walkaddr_spec (r va : Z) (s : vm) :
  walkaddr r va s =
  Ok (if (MAXVA <=? va) || (slot (mem_of s) r va =? 0) then 0
      else let v := load64 (mem_of s) (slot (mem_of s) r va) in
           if has v PTE_V && has v PTE_U then PTE2PA v else 0, s).
Proof. apply walkaddr_eval. Qed.

End Theory.

(** ** Witnesses *)

(** A booted machine with one empty table. *)
Lemma boot_one_table :
  exists s r fl, alloc_inv (I := small_image) s fl /\ (2 < length fl)%nat /\
    pt_wf (I := small_image) (mem_of s) [r] fl /\ (forall va, leaf (mem_of s) r va = 0) /\
    (forall i, pg_cowrefs s i = 0).
Proof.
  destruct (kinit_ok (I := small_image) zero_mem) as (s0 & _ & Hi & Hc).
  destruct (pages_down _ _ _) as [|p fl] eqn:E; [by vm_compute in E |].
  destruct (uvmcreate_spec (I := small_image) [] s0 p fl)
    as (s1 & _ & Hi1 & Hwf & _ & Hl & _ & Hc1 & _ & _).
  - done.
  - split; intros; set_solver.
  - exists s1, p, fl. split_and!; try done.
    + apply (f_equal length) in E. revert E. vm_compute. injection 1 as <-. lia.
    + intros i. rewrite Hc1. unfold upd. case_match; auto.
Qed.

