(* ===== verification/Cow.v ===== *)
(** * Cow: copy-on-write memory, the contract of [uvmcowpy], [cowmappage], [dup_pg],
    [uvmunmap] and [kfree] together

    The user mappings of all address spaces are viewed as one finite map [G] from (root,
    page address) to the valid leaf entry there.  [cow_inv] relates it to memory: [G] is
    exactly what the tables say below [TRAPFRAME]; no mapped page is free or a table; and the
    counter of a mapped page is the number of its mappings minus one.  [fork]'s
    [uvmcowpy], the page-fault path [dup_pg] and [uvmunmap] preserve it, so a page is put
    on the free list exactly when its last mapping goes. *)

From stdpp Require Import base list sets gmap strings.
From Stdlib Require Import ZArith Lia.
From S2P Require Import Prelude Riscv Mem Kalloc Vm PageTable.

(** ** Definitions *)

(** The entry [uvmcowpy] gives the child for a parent entry [v]. *)
Definition child_pte (v : Z) : Z :=
  mk_pte (PTE2PA v) (Z.lor (PTE_FLAGS (cow_mark v)) PTE_COW).

(** The entry [dup_pg] installs for a private copy in page [p]. *)
Definition dup_pte (p : Z) : Z :=
  Z.lor (PA2PTE p) (Z.lor (Z.lor (Z.lor (Z.lor PTE_U PTE_V) PTE_W) PTE_X) PTE_R).

(** A page-aligned user address: below the trapframe and trampoline pages. *)
Definition uva (va : Z) : Prop := va_ok va /\ va < TRAPFRAME.

(** How many mappings in [G] lead to physical page [p]. *)
Definition nrefs (G : gmap (Z * Z) Z) (p : Z) : nat :=
  size (filter (fun kv => PTE2PA kv.2 = p) G).

Definition valid_entry (v : Z) : option Z := if has v PTE_V then Some v else None.

Section Theory.
Context `{I : Image} {Iok : ImageOk I}.

Record cow_inv (s : vm) (roots fl : list Z) (G : gmap (Z * Z) Z) : Prop := {
  ci_alloc : alloc_inv s fl;
  ci_wf : pt_wf (mem_of s) roots fl;
  ci_view : forall r va, r ∈ roots -> uva va ->
            G !! (r, va) = valid_entry (leaf (mem_of s) r va);
  ci_dom : forall r va v, G !! (r, va) = Some v -> r ∈ roots /\ uva va;
  ci_data : forall k v, G !! k = Some v ->
            valid_page (PTE2PA v) /\ (PTE2PA v ∉ fl) /\ ~ is_table (mem_of s) roots (PTE2PA v);
  ci_count : forall k v, G !! k = Some v ->
             pg_cowrefs s (PTE2PA v / PGSIZE) = Z.of_nat (nrefs G (PTE2PA v)) - 1;
}.

(** ** Counting mappings *)

Lemma nrefs_delete G k v p :
  G !! k = Some v ->
  nrefs G p = ((if decide (PTE2PA v = p) then 1 else 0) + nrefs (delete k G) p)%nat.
Proof.
  intros Hk. unfold nrefs. rewrite <- (insert_delete_id G k v) at 1 by done.
  rewrite map_filter_insert. simpl. destruct decide as [He|Hne].
  - rewrite map_size_insert_None; [done |]. apply map_lookup_filter_None. left. apply lookup_delete_eq.
  - rewrite delete_delete_eq. done.
Qed.

Lemma nrefs_insert_new G k v p :
  G !! k = None ->
  nrefs (<[k:=v]> G) p = ((if decide (PTE2PA v = p) then 1 else 0) + nrefs G p)%nat.
Proof.
  intros Hk. rewrite (nrefs_delete _ k v) by apply lookup_insert_eq.
  by rewrite delete_insert_id.
Qed.

Lemma nrefs_insert G k v w p :
  G !! k = Some w ->
  ((if decide (PTE2PA w = p) then 1 else 0) + nrefs (<[k:=v]> G) p =
   (if decide (PTE2PA v = p) then 1 else 0) + nrefs G p)%nat.
Proof.
  intros Hk. rewrite (nrefs_delete G k w) by done.
  rewrite (nrefs_delete (<[k:=v]> G) k v) by apply lookup_insert_eq.
  rewrite delete_insert_eq. lia.
Qed.

Lemma nrefs_pos G k v : G !! k = Some v -> (0 < nrefs G (PTE2PA v))%nat.
Proof. intros H. rewrite (nrefs_delete _ k v) by done. rewrite decide_True; lia. Qed.

Lemma nrefs_0 G p : (forall k v, G !! k = Some v -> PTE2PA v <> p) -> nrefs G p = 0%nat.
Proof.
  intros H. unfold nrefs. apply map_size_empty_iff, map_empty_filter_2.
  intros k v Hk. by apply (H k v).
Qed.

(** ** Steps that change no translation *)

Lemma valid_entry_Some v w : valid_entry v = Some w -> w = v /\ has v PTE_V = true.
Proof. unfold valid_entry. destruct has; naive_solver. Qed.

Lemma cow_leaf s roots fl G r va v :
  cow_inv s roots fl G -> G !! (r, va) = Some v ->
  leaf (mem_of s) r va = v /\ has v PTE_V = true /\ r ∈ roots /\ uva va.
Proof.
  intros H Hk. destruct (ci_dom _ _ _ _ H _ _ _ Hk) as [Hr Hva].
  rewrite (ci_view _ _ _ _ H) in Hk by done. by apply valid_entry_Some in Hk as [-> ?].
Qed.

Lemma cow_ext s roots fl G s' fl' :
  cow_inv s roots fl G -> ext roots s fl s' fl' -> same_leaves roots (mem_of s) (mem_of s') ->
  cow_inv s' roots fl' G.
Proof.
  intros H He Hsl. destruct H, He. split; try done.
  - intros r va Hr Hva. rewrite Hsl by done. by apply ci_view0.
  - intros k v Hk. destruct (ci_data0 k v Hk) as (Hv & Hn & Ht). split_and!; [done | |].
    + destruct ext_suffix as [u ->]. set_solver.
    + intros [|]%ext_tables; done.
  - intros k v Hk. destruct (ci_data0 k v Hk) as (Hv & Hn & Ht).
    rewrite ext_counts by done. by apply ci_count0 with k.
Qed.

(** ** [kfree] of a page that is in use *)

Record freed (roots : list Z) (p : Z) (s : vm) (fl : list Z) (s' : vm) (fl' : list Z) : Prop := {
  fr_alloc : alloc_inv s' fl';
  fr_wf : pt_wf (mem_of s') roots fl';
  fr_leaves : same_leaves roots (mem_of s) (mem_of s');
  fr_tables : forall a, is_table (mem_of s') roots a <-> is_table (mem_of s) roots a;
  fr_mem : same_outside [p] (mem_of s) (mem_of s');
  fr_counts : forall q, valid_page q -> q <> p ->
              pg_cowrefs s' (q / PGSIZE) = pg_cowrefs s (q / PGSIZE);
  fr_case :
    (0 < pg_cowrefs s (p / PGSIZE) /\ fl' = fl /\ (forall x, mem_of s' x = mem_of s x) /\
     pg_cowrefs s' (p / PGSIZE) = pg_cowrefs s (p / PGSIZE) - 1) \/
    (pg_cowrefs s (p / PGSIZE) = 0 /\ fl' = p :: fl);
}.

Lemma kfree_freed roots p s fl :
  alloc_inv s fl -> pt_wf (mem_of s) roots fl -> valid_page p -> p ∉ fl ->
  ~ is_table (mem_of s) roots p ->
  exists s' fl', kfree p s = Ok (tt, s') /\ freed roots p s fl s' fl'.
Proof.
  intros Hi Hwf Hp Hn Ht. pose proof (inv_counts _ _ Hi (p / PGSIZE)) as Hc.
  destruct (Z.eq_dec (pg_cowrefs s (p / PGSIZE)) 0) as [H0|H0].
  - destruct (kfree_last _ _ _ Hi Hp Hn H0) as [Hk Hi'].
    assert (same_outside [p] (mem_of s) (mem_of (pushed p s))) as Hso.
    { eapply same_outside_trans; [apply (same_outside_memset _ _ p 1); set_solver |].
      apply (same_outside_store64 _ _ p); [set_solver | lia | unfold PGSIZE; lia]. }
    destruct (tables_outside [p] (mem_of s) (mem_of (pushed p s)) roots fl (p :: fl))
      as (Hwf' & Hsl & Htab); try done; [each | set_solver | set_solver |].
    eexists _, _. split; [done |]. split; try done. by right.
  - destruct (kfree_shared _ _ _ Hi Hp) as [Hk Hi']; [lia |].
    eexists _, fl. split; [done |]. split; try done.
    + intros q Hq Hne. simpl. unfold upd.
      destruct (Z.eqb_spec (q / PGSIZE) (p / PGSIZE)) as [E|]; [| done].
      by apply page_index_inj in E.
    + left. split_and!; try done; [lia |]. simpl. unfold upd. by rewrite Z.eqb_refl.
Qed.

(** ** One mapping dropped: [kfree] and the entry cleared *)

Lemma has_0 f : has 0 f = false.
Proof. by apply has_false. Qed.

Lemma cow_unmap s roots fl G r va v t s1 fl1 :
  cow_inv s roots fl G -> G !! (r, va) = Some v -> node (mem_of s) r (path_of va) = Some t ->
  freed roots (PTE2PA v) s fl s1 fl1 ->
  cow_inv (set_pte (t + 8 * PX 0 va) 0 s1) roots fl1 (delete (r, va) G).
Proof.
  intros H Hk Ht Hf. destruct (cow_leaf _ _ _ _ _ _ _ H Hk) as (Hl & HV & Hr & Hva).
  destruct (ci_data _ _ _ _ H _ _ Hk) as (Hp & Hpn & Hpt).
  assert (node (mem_of s1) r (path_of va) = Some t) as Ht1.
  { rewrite <- Ht. apply (node_outside [PTE2PA v] _ _ roots fl);
      [apply H | apply Hf | each | | done | apply path_ok_of].
    intros a Ha ->%list_elem_of_singleton. done. }
  destruct (set_pte_ext roots s1 fl1 r va t 0) as (He & Hl' & Hlo & Htab & _);
    try apply Hf; try done; [apply Hva |].
  assert (forall k w, G !! k = Some w -> k <> (r, va) -> PTE2PA w = PTE2PA v ->
            (1 < nrefs G (PTE2PA v))%nat) as Hmore.
  { intros k w Hw Hne E. rewrite (nrefs_delete _ _ _ _ Hk), decide_True by done.
    rewrite <- E. pose proof (nrefs_pos (delete (r, va) G) k w) as Hpos.
    rewrite lookup_delete_ne in Hpos by done. specialize (Hpos Hw). lia. }
  split; try apply He.
  - intros r' va' Hr' Hva'. destruct (decide ((r', va') = (r, va))) as [[= -> ->]|Hne].
    + by rewrite lookup_delete_eq, Hl'.
    + rewrite lookup_delete_ne by done. rewrite Hlo by (done || apply Hva').
      rewrite (fr_leaves _ _ _ _ _ _ Hf) by done. by apply (ci_view _ _ _ _ H).
  - intros r' va' w [_ Hw]%lookup_delete_Some. by eapply (ci_dom _ _ _ _ H).
  - intros k w [Hne Hw]%lookup_delete_Some. destruct (ci_data _ _ _ _ H _ _ Hw) as (Hq & Hqn & Hqt).
    split_and!; [done | | by rewrite Htab, (fr_tables _ _ _ _ _ _ Hf)].
    destruct (fr_case _ _ _ _ _ _ Hf) as [(_ & -> & _)|(H0 & ->)]; [done |].
    apply not_elem_of_cons. split; [| done]. intros E.
    pose proof (Hmore k w Hw ltac:(done) E). pose proof (ci_count _ _ _ _ H _ _ Hk). lia.
  - intros k w [Hne Hw]%lookup_delete_Some. simpl pg_cowrefs.
    pose proof (nrefs_delete _ _ _ (PTE2PA w) Hk) as Hn. destruct decide as [E|E].
    + rewrite <- E in Hn |- *. pose proof (Hmore k w Hw ltac:(done) ltac:(done)).
      pose proof (ci_count _ _ _ _ H _ _ Hk).
      destruct (fr_case _ _ _ _ _ _ Hf) as [(_ & _ & _ & ->)|(Hz & _)]; lia.
    + rewrite (fr_counts _ _ _ _ _ _ Hf), (ci_count _ _ _ _ H _ _ Hw) by
        (try apply (ci_data _ _ _ _ H _ _ Hw); congruence). lia.
Qed.

(** The mapped pages of [G] hold the same bytes in [s] and [s']. *)
Definition same_data (G : gmap (Z * Z) Z) (s s' : vm) : Prop :=
  forall k v x, G !! k = Some v -> in_page (PTE2PA v) x -> mem_of s' x = mem_of s x.

Lemma ext_data s roots fl G s' fl' :
  cow_inv s roots fl G -> ext roots s fl s' fl' -> same_data G s s'.
Proof.
  intros H He k v x Hk Hx. destruct (ci_data _ _ _ _ H _ _ Hk) as (Hp & Hn & Ht).
  by apply (ext_frame _ _ _ _ _ He (PTE2PA v)).
Qed.

Lemma same_data_trans G G' s1 s2 s3 :
  same_data G s1 s2 -> same_data G' s2 s3 ->
  (forall k v, G !! k = Some v -> exists k' v', G' !! k' = Some v' /\ PTE2PA v' = PTE2PA v) ->
  same_data G s1 s3.
Proof.
  intros H1 H2 HG k v x Hk Hx. destruct (HG k v Hk) as (k' & v' & Hk' & E).
  rewrite (H2 k' v' x), (H1 k v x); try done. by rewrite E.
Qed.

(** ** [uvmunmap] with [do_free] *)

Lemma uvmunmap_loop_step roots r a f limit s fl G v :
  cow_inv s roots fl G -> G !! (r, a) = Some v -> PTE_FLAGS v <> PTE_V -> a < limit ->
  exists s1 fl1, cow_inv s1 roots fl1 (delete (r, a) G) /\ same_data (delete (r, a) G) s s1 /\
    uvmunmap_loop (S f) r a limit true s = uvmunmap_loop f r (u64 (a + PGSIZE)) limit true s1.
Proof.
  intros H Hk Hfl Hlt. destruct (cow_leaf _ _ _ _ _ _ _ H Hk) as (Hl & HV & Hr & Hva).
  destruct (ci_data _ _ _ _ H _ _ Hk) as (Hp & Hpn & Hpt).
  rewrite <- Hl in HV. destruct (leaf_valid_node _ _ _ HV) as (t & Ht & Hld).
  destruct (slot_nonzero _ _ _ _ _ _ (ci_wf _ _ _ _ H) Hr Ht) as (Hs & Hnz & _).
  destruct (kfree_freed roots (PTE2PA v) s fl) as (s1 & fl1 & Hk1 & Hf1); try done; try apply H.
  pose proof (cow_unmap _ _ _ _ _ _ _ _ _ _ H Hk Ht Hf1) as H'.
  exists (set_pte (t + 8 * PX 0 a) 0 s1), fl1. split_and!; [done | |].
  { intros k w x Hw Hx. destruct (ci_data _ _ _ _ H' _ _ Hw) as (Hq & Hqn & Hqt).
    pose proof Hw as [_ Hw']%lookup_delete_Some.
    destruct (ci_data _ _ _ _ H _ _ Hw') as (_ & _ & Hqt').
    rewrite <- (fr_tables _ _ _ _ _ _ Hf1) in Hqt'.
    transitivity (mem_of s1 x).
    - apply store_other. intros Hr8. apply Hqt'. exists r, (path_of a).
      assert (node (mem_of s1) r (path_of a) = Some t) as Ht1.
      { rewrite <- Ht. apply (node_outside [PTE2PA v] _ _ roots fl);
          [apply H | apply Hf1 | each | | done | apply path_ok_of].
        intros b Hb ->%list_elem_of_singleton. done. }
      split_and!; [done | apply path_ok_of |]. rewrite Ht1. f_equal.
      destruct (wf_page _ _ _ (fr_wf _ _ _ _ _ _ Hf1) _ _ _ Hr (path_ok_of a) Ht1) as [Hvt _].
      pose proof (PX_range 0 a ltac:(lia)).
      apply (pages_disjoint t (PTE2PA w) x); [by apply valid_page_aligned.. | | done].
      unfold in_page, PGSIZE in *. lia.
    - destruct (fr_case _ _ _ _ _ _ Hf1) as [(_ & _ & Hm & _)|(_ & ->)]; [done |].
      apply (fr_mem _ _ _ _ _ _ Hf1). intros q Hq' Hin. apply list_elem_of_singleton in Hq' as ->.
      apply Hqn. assert (PTE2PA w = PTE2PA v) as ->; [| apply elem_of_cons; by left].
      apply (pages_disjoint _ _ x); [by apply valid_page_aligned.. | done | done]. }
  simpl uvmunmap_loop. destruct (Z.ltb_spec a limit); [simpl | lia].
  assert (walk r a false s = Ok (slot (mem_of s) r a, s)) as Hw by (apply walk_false, Hva).
  mrun with Hw. destruct (Z.eqb_spec (slot (mem_of s) r a) 0); [done |].
  unfold ld64. mrun. rewrite Hs, <- Hld, HV. ifs. rewrite Hl.
  destruct (Z.eqb_spec (PTE_FLAGS v) PTE_V); [done |]. mrun with Hk1. done.
Qed.

Lemma uvmunmap_loop_cow roots r n : forall f a s fl G,
  cow_inv s roots fl G -> (n <= f)%nat -> 0 <= a -> a mod PGSIZE = 0 ->
  a + Z.of_nat n * PGSIZE <= TRAPFRAME ->
  (forall va, va_ok va -> a <= va < a + Z.of_nat n * PGSIZE ->
     exists v, G !! (r, va) = Some v /\ PTE_FLAGS v <> PTE_V) ->
  exists s' fl' G',
    uvmunmap_loop f r a (a + Z.of_nat n * PGSIZE) true s = Ok (tt, s') /\
    cow_inv s' roots fl' G' /\ same_data G' s s' /\
    (forall r' va, va_ok va -> G' !! (r', va) =
       if decide (r' = r /\ a <= va < a + Z.of_nat n * PGSIZE) then None else G !! (r', va)).
Proof.
  induction n as [|n IH]; intros f a s fl G H Hf Ha0 Ha Hle Hall.
  - exists s, fl, G. split_and!; [| done | done | intros; rewrite decide_False by lia; done].
    rewrite Z.mul_0_l, Z.add_0_r. destruct f; simpl; by rewrite Z.ltb_irrefl.
  - destruct f as [|f]; [lia |].
    assert (va_ok a) as Hok by (split; unfold_consts; lia).
    destruct (Hall a Hok) as (v & Hk & Hfl); [unfold PGSIZE; lia |].
    destruct (uvmunmap_loop_step roots r a f (a + Z.of_nat (S n) * PGSIZE) s fl G v)
      as (s1 & fl1 & H1 & Hd1 & ->); try done; [unfold PGSIZE; lia |].
    rewrite u64_small by (unfold_consts; lia).
    replace (a + Z.of_nat (S n) * PGSIZE) with (a + PGSIZE + Z.of_nat n * PGSIZE) in * by lia.
    destruct (IH f (a + PGSIZE) s1 fl1 (delete (r, a) G)) as (s' & fl' & G' & Hrun & H' & Hd' & HG);
      try done; try (unfold PGSIZE in *; lia).
    + by apply aligned_next.
    + intros va Hva Hin. rewrite lookup_delete_ne by (intros [= ->]; unfold PGSIZE in *; lia).
      apply Hall; [done | unfold PGSIZE in *; lia].
    + assert (forall k v, G' !! k = Some v -> delete (r, a) G !! k = Some v) as Hsub.
      { intros [r' va] w Hw. destruct (ci_dom _ _ _ _ H' _ _ _ Hw) as [_ [Hva _]].
        rewrite HG in Hw by done. by destruct decide. }
      exists s', fl', G'. split_and!; [done | done | |].
      { intros k w x Hw Hx. by rewrite (Hd' k w x), (Hd1 k w x) by auto. }
      intros r' va Hva. rewrite HG by done.
      destruct (decide ((r', va) = (r, a))) as [[= -> ->]|Hne].
      * rewrite lookup_delete_eq.
        destruct (decide (r = r /\ a <= a < a + PGSIZE + Z.of_nat n * PGSIZE)) as [_|Hn];
          [by destruct decide | unfold PGSIZE in Hn; lia].
      * rewrite lookup_delete_ne by congruence.
        destruct (decide (r' = r)) as [->|]; [| rewrite !decide_False by tauto; done].
        assert (va <> a) by congruence.
        destruct (Z.ltb_spec va a) as [?|?]; [rewrite !decide_False by (unfold PGSIZE; lia); done |].
        pose proof (va_ok_gap a va Hok Hva ltac:(lia)).
        destruct (decide (r = r /\ a <= va < a + PGSIZE + Z.of_nat n * PGSIZE)) as [?|Hn].
        -- by rewrite decide_True by lia.
        -- rewrite decide_False; [done |]. intros [_ ?]. apply Hn. lia.
Qed.

(** ** One mapping added or rewritten *)

Lemma cow_map s roots fl G s1 fl1 r va v c :
  cow_inv s roots fl G -> ext roots s fl s1 fl1 -> r ∈ roots -> uva va -> G !! (r, va) = None ->
  leaf (mem_of s1) r va = v -> has v PTE_V = true ->
  (forall r' va', r' ∈ roots -> va_ok va' -> (r', va') <> (r, va) ->
     leaf (mem_of s1) r' va' = leaf (mem_of s) r' va') ->
  valid_page (PTE2PA v) -> PTE2PA v ∉ fl1 -> ~ is_table (mem_of s1) roots (PTE2PA v) ->
  (forall i, 0 <= c i < 2 ^ 64) ->
  (forall p, valid_page p -> p <> PTE2PA v -> c (p / PGSIZE) = pg_cowrefs s1 (p / PGSIZE)) ->
  c (PTE2PA v / PGSIZE) = Z.of_nat (nrefs G (PTE2PA v)) ->
  cow_inv (mkvm (mem_of s1) (freelist s1) c) roots fl1 (<[(r, va) := v]> G).
Proof.
  intros H He Hr Hva Hnone Hl HV Hlo Hpv Hpn Hpt Hcr Hco Hcp.
  pose proof (ext_alloc _ _ _ _ _ He) as [? ? ? _].
  split; try done; [apply He | | | |].
  - intros r' va' Hr' Hva'. destruct (decide ((r', va') = (r, va))) as [[= -> ->]|Hne].
    + rewrite lookup_insert_eq. simpl. unfold valid_entry. by rewrite Hl, HV.
    + rewrite lookup_insert_ne by done. simpl. rewrite Hlo by (done || apply Hva').
      by apply (ci_view _ _ _ _ H).
  - intros r' va' w [[[= <- <-] _]|[_ Hw]]%lookup_insert_Some; [done |].
    by eapply (ci_dom _ _ _ _ H).
  - intros k w [[<- <-]|[_ Hw]]%lookup_insert_Some; [done |].
    destruct (ci_data _ _ _ _ H _ _ Hw) as (Hq & Hqn & Hqt). split_and!; [done | |].
    + intros Hin. by apply (ext_fl _ _ _ _ _ _ He) in Hin.
    + intros [|]%(ext_tables _ _ _ _ _ He); done.
  - intros k w [[<- <-]|[_ Hw]]%lookup_insert_Some; simpl; rewrite nrefs_insert_new by done.
    + rewrite Hcp, decide_True by done. lia.
    + destruct decide as [<-|Hne]; [rewrite Hcp; lia |].
      destruct (ci_data _ _ _ _ H _ _ Hw) as (Hq & Hqn & _).
      rewrite Hco, (ext_counts _ _ _ _ _ He) by (done || congruence).
      rewrite (ci_count _ _ _ _ H _ _ Hw). lia.
Qed.

Lemma cow_rewrite s roots fl G r va t v w :
  cow_inv s roots fl G -> G !! (r, va) = Some w -> node (mem_of s) r (path_of va) = Some t ->
  0 <= v < 2 ^ 64 -> has v PTE_V = true -> PTE2PA v = PTE2PA w ->
  cow_inv (set_pte (t + 8 * PX 0 va) v s) roots fl (<[(r, va) := v]> G).
Proof.
  intros H Hk Ht Hv HV Hpa. destruct (cow_leaf _ _ _ _ _ _ _ H Hk) as (_ & _ & Hr & Hva).
  destruct (set_pte_ext roots s fl r va t v) as (He & Hl & Hlo & Htab & _); try done;
    try apply H; [apply Hva |]. rewrite u64_small in Hl by done.
  split; try apply He.
  - intros r' va' Hr' Hva'. destruct (decide ((r', va') = (r, va))) as [[= -> ->]|Hne].
    + rewrite lookup_insert_eq. unfold valid_entry. by rewrite Hl, HV.
    + rewrite lookup_insert_ne by done. rewrite Hlo by (done || apply Hva').
      by apply (ci_view _ _ _ _ H).
  - intros r' va' x [[[= <- <-] _]|[_ Hw]]%lookup_insert_Some; [done |].
    by eapply (ci_dom _ _ _ _ H).
  - intros k x Hx. rewrite Htab.
    apply lookup_insert_Some in Hx as [[<- <-]|[_ Hw]]; [rewrite Hpa |]; by eapply (ci_data _ _ _ _ H).
  - intros k x Hx. simpl pg_cowrefs. pose proof (nrefs_insert G (r, va) v w (PTE2PA x) Hk) as Hn.
    rewrite Hpa in Hn.
    apply lookup_insert_Some in Hx as [[<- <-]|[_ Hw]].
    + rewrite Hpa in *. rewrite (ci_count _ _ _ _ H _ _ Hk). lia.
    + rewrite (ci_count _ _ _ _ H _ _ Hw). lia.
Qed.

(** ** A page taken from the free list and filled *)

Lemma free_not_table m roots fl p : pt_wf m roots fl -> p ∈ fl -> ~ is_table m roots p.
Proof. intros Hwf Hp (r & q & Hr & Hq & Ha). by destruct (wf_page _ _ _ Hwf r q p Hr Hq Ha). Qed.

Lemma pop_ext roots s p fl m' :
  alloc_inv s (p :: fl) -> pt_wf (mem_of s) roots (p :: fl) ->
  same_outside [p] (mem_of (popped p s)) m' ->
  let s' := mkvm m' (freelist (popped p s)) (pg_cowrefs (popped p s)) in
  ext roots s (p :: fl) s' fl /\ same_leaves roots (mem_of s) m' /\
  (forall a, is_table m' roots a <-> is_table (mem_of s) roots a).
Proof.
  intros Hi Hwf Hso s'. destruct (kalloc_cons _ _ _ Hi) as [_ Hi1].
  pose proof (inv_valid _ _ Hi) as [Hpv Hflv]%Forall_cons.
  pose proof (inv_nodup _ _ Hi) as [Hpn _]%NoDup_cons.
  assert (same_outside [p] (mem_of s) m') as Hso'.
  { eapply same_outside_trans; [apply (same_outside_memset _ _ p 5); set_solver | done]. }
  destruct (tables_outside [p] (mem_of s) m' roots (p :: fl) fl) as (Hwf' & Hsl & Htab); try done.
  { each. }
  { intros a Ha ->%list_elem_of_singleton. by apply (free_not_table _ _ _ p Hwf); [set_solver |]. }
  { set_solver. }
  split_and!; [| done | done]. split.
  - apply (alloc_inv_outside [p] (popped p s)); try done; [each |]. intros q Hq ->%list_elem_of_singleton. done.
  - done.
  - by exists [p].
  - intros a Ha. left. by apply Htab.
  - intros q x Hq Hqn _ Hx. apply Hso'. intros p' ->%list_elem_of_singleton Hin.
    apply Hqn. rewrite (pages_disjoint q p x) by (done || by apply valid_page_aligned). set_solver.
  - intros q Hq Hqn. simpl. unfold upd. destruct (Z.eqb_spec (q / PGSIZE) (p / PGSIZE)) as [E|]; [| done].
    apply page_index_inj in E as ->; [| done..]. set_solver.
Qed.

(** ** Bounds on the number of mappings *)

Definition key_index (k : Z * Z) : Z := k.1 / 4096 * 2 ^ 26 + k.2 / 4096.

Lemma root_valid s roots fl G r : cow_inv s roots fl G -> r ∈ roots -> valid_page r.
Proof. intros H Hr. by apply (wf_page _ _ _ (ci_wf _ _ _ _ H) r [] r Hr path_ok_nil). Qed.

Lemma key_index_range r va : valid_page r -> va_ok va -> 0 <= key_index (r, va) < 2 ^ 46.
Proof.
  intros Hr%valid_page_bounds [Hva _]. unfold key_index. simpl fst. simpl snd. unfold_consts.
  assert (0 <= r / 4096 < 2 ^ 20)
    by (split; [apply Z.div_pos; lia | apply Z.div_lt_upper_bound; lia]).
  assert (0 <= va / 4096 < 2 ^ 26)
    by (split; [apply Z.div_pos; lia | apply Z.div_lt_upper_bound; lia]). lia.
Qed.

Lemma key_index_inj r va r' va' :
  valid_page r -> valid_page r' -> va_ok va -> va_ok va' ->
  key_index (r, va) = key_index (r', va') -> (r, va) = (r', va').
Proof.
  intros [Hr _] [Hr' _] [Hva Ha] [Hva' Ha'] E. unfold key_index in E. simpl in E.
  unfold_consts.
  assert (0 <= va / 4096 < 2 ^ 26) by (split; [apply Z.div_pos; lia | apply Z.div_lt_upper_bound; lia]).
  assert (0 <= va' / 4096 < 2 ^ 26) by (split; [apply Z.div_pos; lia | apply Z.div_lt_upper_bound; lia]).
  pose proof (Z.div_mod r 4096). pose proof (Z.div_mod r' 4096).
  pose proof (Z.div_mod va 4096). pose proof (Z.div_mod va' 4096).
  assert (va / 4096 = va' / 4096 /\ r / 4096 = r' / 4096) by lia. f_equal; lia.
Qed.

Lemma nrefs_bound s roots fl G p : cow_inv s roots fl G -> Z.of_nat (nrefs G p) <= 2 ^ 46.
Proof.
  intros H. assert (forall k v, (k, v) ∈ map_to_list G -> valid_page k.1 /\ va_ok k.2) as Hkeys.
  { intros [r va] v Hk%elem_of_map_to_list. destruct (ci_dom _ _ _ _ H _ _ _ Hk) as [Hr Hva].
    split; [by eapply root_valid | apply Hva]. }
  assert (forall k, k ∈ (map_to_list G).*1 -> valid_page k.1 /\ va_ok k.2) as Hkeys'.
  { intros k ([k' v] & -> & Hk)%list_elem_of_fmap. by eapply Hkeys. }
  assert (nrefs G p <= size G)%nat as H1 by apply map_subseteq_size, map_filter_subseteq.
  assert (size G <= length (seqZ 0 (2 ^ 46)))%nat as H2; [| rewrite length_seqZ in H2; lia].
  rewrite <- length_map_to_list, <- (length_fmap fst), <- (length_fmap key_index).
  apply submseteq_length, NoDup_submseteq.
  - apply NoDup_fmap_2_strong; [| apply NoDup_fst_map_to_list].
    intros [r va] [r' va'] H3%Hkeys' H4%Hkeys'. apply key_index_inj; tauto.
  - intros n ([r va] & -> & Hk%Hkeys')%list_elem_of_fmap. apply elem_of_seqZ.
    pose proof (key_index_range r va). naive_solver lia.
Qed.

(** ** Flag bits of the entries *)

Lemma PTE2PA_low v w : (forall i, 10 <= i -> Z.testbit v i = Z.testbit w i) -> PTE2PA v = PTE2PA w.
Proof.
  intros H. unfold PTE2PA. do 2 f_equal. apply Z.bits_inj'. intros i Hi.
  rewrite !Z.shiftr_spec by done. apply H. lia.
Qed.

Lemma PTE2PA_clear_W v : PTE2PA (Z.land v (Z.lnot PTE_W)) = PTE2PA v.
Proof.
  apply PTE2PA_low. intros j Hj. rewrite Z.land_spec, Z.lnot_spec by lia.
  change PTE_W with (2 ^ 2). rewrite Z.pow2_bits_eqb by lia.
  destruct (Z.eqb_spec 2 j); [lia |]. apply andb_true_r.
Qed.

Lemma cow_mark_bit v i : 0 <= i ->
  Z.testbit (cow_mark v) i = (Z.testbit v i && negb (i =? 2)) || (i =? 8).
Proof.
  intros Hi. unfold cow_mark. rewrite Z.lor_spec, Z.land_spec, Z.lnot_spec by done.
  change PTE_W with (2 ^ 2). change PTE_COW with (2 ^ 8). rewrite !Z.pow2_bits_eqb by lia.
  by rewrite (Z.eqb_sym 2), (Z.eqb_sym 8).
Qed.

Lemma cow_mark_spec v :
  PTE2PA (cow_mark v) = PTE2PA v /\ has (cow_mark v) PTE_V = has v PTE_V /\
  has (cow_mark v) PTE_U = has v PTE_U /\
  has (cow_mark v) PTE_W = false /\ has (cow_mark v) PTE_COW = true.
Proof.
  split.
  { apply PTE2PA_low. intros i Hi. rewrite cow_mark_bit by lia.
    destruct (Z.eqb_spec i 2), (Z.eqb_spec i 8); try lia. by destruct Z.testbit. }
  change PTE_V with (2 ^ 0). change PTE_U with (2 ^ 4). change PTE_W with (2 ^ 2).
  change PTE_COW with (2 ^ 8). rewrite !has_pow2, !cow_mark_bit by lia.
  split_and!; by destruct (Z.testbit v _).
Qed.

Lemma cow_mark_range v : 0 <= v < 2 ^ 64 -> 0 <= cow_mark v < 2 ^ 64.
Proof. intros. apply (lor_range _ _ 64); [lia | by apply (land_range _ _ 64) | done]. Qed.

Lemma PTE_FLAGS_range v : 0 <= PTE_FLAGS v < 1024.
Proof. rewrite PTE_FLAGS_eq. apply Z.mod_pos_bound. lia. Qed.

Lemma child_perm_range v : 0 <= Z.lor (PTE_FLAGS v) PTE_COW < 1024.
Proof. apply (lor_range _ _ 10); [lia | apply PTE_FLAGS_range | done]. Qed.

Lemma mk_pte_spec p perm :
  valid_page p -> 0 <= perm < 1024 ->
  PTE2PA (mk_pte p perm) = p /\ PTE_FLAGS (mk_pte p perm) = Z.lor perm PTE_V /\
  has (mk_pte p perm) PTE_V = true.
Proof.
  intros Hp Hperm. pose proof (valid_page_range p Hp). pose proof (valid_page_aligned p Hp).
  unfold mk_pte. pose proof (mk_pte_flags perm Hperm).
  destruct (pte_pack p (Z.lor perm PTE_V)) as [-> ->]; try done. split_and!; [done.. |].
  change PTE_V with (2 ^ 0). rewrite has_pow2, !Z.lor_spec by lia. by rewrite !orb_true_r.
Qed.

Lemma child_pte_spec v :
  valid_page (PTE2PA v) ->
  PTE2PA (child_pte v) = PTE2PA v /\ has (child_pte v) PTE_V = true /\
  PTE_FLAGS (child_pte v) = Z.lor (Z.lor (PTE_FLAGS (cow_mark v)) PTE_COW) PTE_V.
Proof.
  intros Hp. destruct (mk_pte_spec (PTE2PA v) _ Hp (child_perm_range (cow_mark v))) as (? & ? & ?). done.
Qed.

(** ** [cowmappage] *)

Lemma mappages_page r a pa perm s : va_ok a ->
  mappages r a PGSIZE pa perm s = mappages_loop 2 r a a pa perm s.
Proof.
  intros [Hr Ha]. unfold mappages. unfold_consts. rewrite PGROUNDDOWN_id by done.
  rewrite u64_small by lia.
  assert (PGROUNDDOWN (a + 4096 - 1) = a) as ->.
  { pose proof (PGROUNDDOWN_aligned (a + 4096 - 1)) as Hb. pose proof (PGROUNDDOWN_bounds (a + 4096 - 1)) as Hc.
    unfold PGSIZE in *. set (b := PGROUNDDOWN (a + 4096 - 1)) in *. clearbody b.
    pose proof (Z.div_mod a 4096). pose proof (Z.div_mod b 4096). lia. }
  unfold mappages_fuel. by rewrite Z.ltb_irrefl, Z.sub_diag.
Qed.

(** Mapping an existing page once more, with its counter incremented; or running out of memory. *)
Lemma cowmappage_cow s roots fl G r va k w perm :
  cow_inv s roots fl G -> r ∈ roots -> uva va -> G !! (r, va) = None ->
  G !! k = Some w -> 0 <= perm < 1024 ->
  exists res s' fl', cowmappage r va PGSIZE (PTE2PA w) perm s = Ok (res, s') /\ same_data G s s' /\
    ((res = -1 /\ cow_inv s' roots fl' G) \/
     (res = 0 /\ cow_inv s' roots fl' (<[(r, va) := mk_pte (PTE2PA w) (Z.lor perm PTE_COW)]> G))).
Proof.
  intros H Hr Hva Hnone Hk Hperm. destruct (ci_data _ _ _ _ H _ _ Hk) as (Hp & Hpn & Hpt).
  pose proof (valid_page_range _ Hp) as Hpr.
  assert (0 <= Z.lor perm PTE_COW < 1024) as Hperm' by by apply (lor_range _ _ 10).
  unfold cowmappage. rewrite (proj2 (bad_pa_valid _) Hp), valid_page_index by done.
  pose proof (ci_view _ _ _ _ H r va Hr Hva) as Hview. rewrite Hnone in Hview.
  assert (has (leaf (mem_of s) r va) PTE_V = false) as Hinv
    by (unfold valid_entry in Hview; by destruct has).
  destruct (mappages_loop_step roots 1 r va va (PTE2PA w) (Z.lor perm PTE_COW) s fl) as [_ Hstep];
    try apply H; try done; [apply Hva |].
  destruct (Hstep Hinv) as (s1 & fl1 & He & [(Hrun & -> & Hsl)|(Hrun & Hl & Hlo)]);
    rewrite <- (mappages_page r va) in Hrun by apply Hva.
  - eexists (-1), s1, []. mrun with Hrun. split_and!; [done | by eapply ext_data |].
    left. split; [done | by eapply cow_ext].
  - rewrite Z.eqb_refl in Hrun. rewrite mk_pte_u64 in Hl by lia.
    destruct (mk_pte_spec _ _ Hp Hperm') as (E1 & _ & E3).
    eexists 0, _, fl1. mrun with Hrun. change (0 =? 0) with true. cbv iota.
    rewrite bind_assoc. mrun. split_and!; [done | |].
    { intros k' v' x Hk' Hx. simpl. by apply (ext_data _ _ _ _ _ _ H He k' v' x). }
    right. split; [done |].
    assert (pg_cowrefs s1 (PTE2PA w / PGSIZE) + 1 = Z.of_nat (nrefs G (PTE2PA w))) as Hcnt.
    { rewrite (ext_counts _ _ _ _ _ He), (ci_count _ _ _ _ H _ _ Hk) by done. lia. }
    pose proof (nrefs_bound _ _ _ _ (PTE2PA w) H). rewrite u64_small by lia.
    apply (cow_map s roots fl G s1 fl1); rewrite ?E1; try done.
    + intros Hin. by apply (ext_fl _ _ _ _ _ _ He) in Hin.
    + intros [|]%(ext_tables _ _ _ _ _ He); done.
    + apply upd_counts_range; [apply He | lia].
    + intros p Hpv Hne. unfold upd. destruct (Z.eqb_spec (p / PGSIZE) (PTE2PA w / PGSIZE)) as [E|]; [| done].
      by apply page_index_inj in E.
    + unfold upd. by rewrite Z.eqb_refl.
Qed.

(** ** [uvmcowpy] *)

Lemma uvmcowpy_loop_step s roots fl G f old new i sz v :
  cow_inv s roots fl G -> old ∈ roots -> new ∈ roots -> old <> new -> uva i -> i < sz ->
  G !! (old, i) = Some v -> G !! (new, i) = None -> 0 <= v < 2 ^ 64 ->
  exists s1 fl1, same_data G s s1 /\
   ((uvmcowpy_loop (S f) old new i sz s = uvmcowpy_loop f old new (u64 (i + PGSIZE)) sz s1 /\
     cow_inv s1 roots fl1 (<[(new, i) := child_pte v]> (<[(old, i) := cow_mark v]> G))) \/
    (uvmcowpy_loop (S f) old new i sz s = uvmcowpy_err new i s1 /\
     cow_inv s1 roots fl1 (<[(old, i) := cow_mark v]> G))).
Proof.
  intros H Ho Hn Hne Hva Hlt Hk Hnone Hv.
  destruct (cow_leaf _ _ _ _ _ _ _ H Hk) as (Hl & HV & _ & _).
  pose proof HV as HV'. rewrite <- Hl in HV'. destruct (leaf_valid_node _ _ _ HV') as (t & Ht & Hld).
  destruct (slot_nonzero _ _ _ _ _ _ (ci_wf _ _ _ _ H) Ho Ht) as (Hs & Hnz & _).
  destruct (cow_mark_spec v) as (Epa & EV & _ & _ & _). pose proof (cow_mark_range v Hv) as Hmr.
  pose proof (land_range v (Z.lnot PTE_W) 64 ltac:(lia) Hv) as Hv1.
  set (a := t + 8 * PX 0 i) in *. set (v1 := Z.land v (Z.lnot PTE_W)) in *.
  assert (cow_inv (set_pte a v1 s) roots fl (<[(old, i) := v1]> G)) as H1.
  { apply cow_rewrite with v; try done.
    - unfold v1. change PTE_V with (2 ^ 0) in *. rewrite has_pow2 in * by lia.
      rewrite Z.land_spec, HV. done.
    - apply PTE2PA_clear_W. }
  destruct (set_pte_ext roots s fl old i t v1) as (He1 & _ & _ & _ & Ht1); try done;
    try apply H; [apply Hva |].
  assert (cow_inv (set_pte a (cow_mark v) (set_pte a v1 s)) roots fl (<[(old, i) := cow_mark v]> G)) as H2.
  { assert (<[(old, i) := cow_mark v]> G = <[(old, i) := cow_mark v]> (<[(old, i) := v1]> G)) as ->
      by by rewrite insert_insert_eq.
    apply cow_rewrite with v1; try done.
    - apply lookup_insert_eq.
    - by rewrite EV.
    - by rewrite Epa, <- PTE2PA_clear_W. }
  destruct (set_pte_ext roots (set_pte a v1 s) fl old i t (cow_mark v)) as (He2 & _); try done;
    try apply H1; [apply Hva |].
  destruct (cowmappage_cow _ roots fl _ new i (old, i) (cow_mark v) (PTE_FLAGS (cow_mark v)) H2)
    as (res & s3 & fl3 & Hrun & Hsd & Hres); try done.
  { rewrite lookup_insert_ne by congruence. done. }
  { apply lookup_insert_eq. }
  { apply PTE_FLAGS_range. }
  exists s3, fl3. split.
  { intros k w x Hw Hx. destruct (decide (k = (old, i))) as [->|Hk'].
    - rewrite (Hsd (old, i) (cow_mark v)), <- (ext_data _ _ _ _ _ _ H (ext_trans _ _ _ _ _ _ _ He1 He2) _ _ x Hw Hx);
        [done | apply lookup_insert_eq |]. rewrite Hk in Hw. simplify_eq. by rewrite Epa.
    - rewrite (Hsd k w), <- (ext_data _ _ _ _ _ _ H (ext_trans _ _ _ _ _ _ _ He1 He2) _ _ x Hw Hx);
        [done | by rewrite lookup_insert_ne | done]. }
  assert (uvmcowpy_loop (S f) old new i sz s =
          if res <? 0 then uvmcowpy_err new i s3 else uvmcowpy_loop f old new (u64 (i + PGSIZE)) sz s3) as ->.
  { simpl uvmcowpy_loop. destruct (Z.ltb_spec i sz); [ifs | lia].
    assert (walk old i false s = Ok (slot (mem_of s) old i, s)) as Hw by (apply walk_false, Hva).
    mrun with Hw. destruct (Z.eqb_spec (slot (mem_of s) old i) 0); [done |].
    unfold ld64, st64. rewrite Hs. mrun. rewrite <- Hld, Hl, HV. ifs. mrun.
    rewrite bind_assoc. mrun. fold v1. change (set_mem (fun m => store64 m a v1) s) with (set_pte a v1 s).
    assert (load64 (mem_of (set_pte a v1 s)) a = v1) as -> by (simpl; rewrite load64_store64; by apply u64_small).
    change (Z.lor v1 PTE_COW) with (cow_mark v).
    change (set_mem (fun m => store64 m a (cow_mark v)) (set_pte a v1 s))
      with (set_pte a (cow_mark v) (set_pte a v1 s)).
    assert (load64 (mem_of (set_pte a (cow_mark v) (set_pte a v1 s))) a = cow_mark v) as ->
      by (simpl; rewrite load64_store64; by apply u64_small).
    mrun with Hrun. by destruct (res <? 0). }
  destruct Hres as [[-> Hc]|[-> Hc]]; simpl; [by right | left]. split; [done |].
  unfold child_pte. by rewrite Epa in Hc.
Qed.

(** How far [uvmcowpy] has come: pages below [i] are copied. *)
Definition copied (G0 G : gmap (Z * Z) Z) (old new i : Z) : Prop :=
  forall r va, va_ok va -> G !! (r, va) =
    if decide (va < i /\ r = old) then cow_mark <$> G0 !! (old, va)
    else if decide (va < i /\ r = new) then child_pte <$> G0 !! (old, va)
    else G0 !! (r, va).

Lemma copied_step G0 G old new i v :
  copied G0 G old new i -> old <> new -> va_ok i -> G0 !! (old, i) = Some v ->
  copied G0 (<[(new, i) := child_pte v]> (<[(old, i) := cow_mark v]> G)) old new (i + PGSIZE).
Proof.
  intros HJ Hne Hi Hv r va Hva.
  destruct (decide (va = i)) as [->|Hvi].
  - destruct (decide (r = new)) as [->|Hrn].
    { rewrite lookup_insert_eq, decide_False, decide_True by (unfold PGSIZE; naive_solver lia). by rewrite Hv. }
    rewrite lookup_insert_ne by congruence. destruct (decide (r = old)) as [->|Hro].
    { rewrite lookup_insert_eq, decide_True by (unfold PGSIZE; naive_solver lia). by rewrite Hv. }
    rewrite lookup_insert_ne by congruence. rewrite HJ by done. by rewrite !decide_False by naive_solver lia.
  - rewrite !lookup_insert_ne by congruence. rewrite HJ by done.
    assert (va < i <-> va < i + PGSIZE) as Hiff.
    { split; [unfold PGSIZE; lia |]. intros ?. destruct (Z.ltb_spec i va); [| lia].
      pose proof (va_ok_gap i va Hi Hva ltac:(done)). lia. }
    repeat destruct decide; naive_solver lia.
Qed.

Lemma child_pte_not_bare v : valid_page (PTE2PA v) -> PTE_FLAGS (child_pte v) <> PTE_V.
Proof.
  intros Hp. destruct (child_pte_spec v Hp) as (_ & _ & ->). intros E.
  apply (f_equal (fun x => Z.testbit x 8)) in E. change PTE_COW with (2 ^ 8) in E.
  rewrite !Z.lor_spec, Z.pow2_bits_true in E by lia. by rewrite orb_true_r in E.
Qed.

(** The [err:] path: what was mapped in the child is unmapped again. *)
Lemma uvmcowpy_err_cow s roots fl G0 G old new i v :
  cow_inv s roots fl (<[(old, i) := cow_mark v]> G) -> copied G0 G old new i -> old <> new ->
  uva i -> new ∈ roots -> G0 !! (old, i) = Some v ->
  (forall va, va_ok va -> va < i -> is_Some (G0 !! (old, va))) ->
  (forall k w, G0 !! k = Some w -> valid_page (PTE2PA w)) ->
  exists s' fl' G', uvmcowpy_err new i s = Ok (u64 (-1), s') /\ cow_inv s' roots fl' G' /\
    same_data G' s s' /\
    (forall r va, va_ok va -> G' !! (r, va) =
       if decide (r = new /\ va < i) then None else (<[(old, i) := cow_mark v]> G) !! (r, va)).
Proof.
  intros H HJ Hne Hi Hn Hv Hold Hpv. unfold uvmcowpy_err, uvmunmap.
  destruct Hi as [[Hi0 Hia] Hi1]. unfold PGSIZE in Hia.
  pose proof (Z.div_mod i 4096). pose proof (Z.div_pos i 4096).
  destruct (uvmunmap_loop_cow roots new (Z.to_nat (i / 4096)) (Z.to_nat (i / 4096)) 0 s fl _ H)
    as (s' & fl' & G' & Hrun & H' & Hd' & HG); try done; unfold PGSIZE; try lia.
  { intros va Hva Hin. destruct (Hold va Hva) as [w Hw]; [lia |]. exists (child_pte w).
    split; [| by apply child_pte_not_bare, (Hpv _ _ Hw)].
    rewrite lookup_insert_ne by congruence. rewrite HJ by done.
    rewrite decide_False, decide_True by naive_solver lia. by rewrite Hw. }
  exists s', fl', G'. unfold_consts. split_and!; [| done | done |].
  - change (0 mod 4096) with 0. ifs. change (0 =? 0) with true. ifs.
    rewrite (u64_small (i / 4096 * 4096)), u64_small by lia.
    replace (0 + i / 4096 * 4096) with (0 + Z.of_nat (Z.to_nat (i / 4096)) * 4096) by lia.
    by mrun with Hrun.
  - intros r va Hva. rewrite HG by done. pose proof Hva as [? _].
    destruct (decide (r = new /\ va < i)) as [?|Hno].
    + by rewrite decide_True by lia.
    + rewrite decide_False; [done |]. intros [-> ?]. apply Hno. lia.
Qed.

(** Every mapping of [G0] is still there in [G], to the same page. *)
Definition keeps (G0 G : gmap (Z * Z) Z) : Prop :=
  forall k v, G0 !! k = Some v -> exists v', G !! k = Some v' /\ PTE2PA v' = PTE2PA v.

Lemma same_data_keeps G0 G s s' : same_data G s s' -> keeps G0 G -> same_data G0 s s'.
Proof.
  intros H HG k v x Hk Hx. destruct (HG k v Hk) as (v' & Hk' & E).
  apply (H k v'); [done | by rewrite E].
Qed.

Lemma same_data_comp G s1 s2 s3 : same_data G s1 s2 -> same_data G s2 s3 -> same_data G s1 s3.
Proof. intros H1 H2 k v x Hk Hx. by rewrite (H2 k v), (H1 k v). Qed.

(** The mappings after a failed [uvmcowpy]: none in the child, the parent's pages below
    [j] marked. *)
Definition undone (G0 G : gmap (Z * Z) Z) (old j : Z) : Prop :=
  forall r va, va_ok va -> G !! (r, va) =
    if decide (r = old /\ va < j) then cow_mark <$> G0 !! (old, va) else G0 !! (r, va).

Section Fork.
Context (roots fl0 : list Z) (G0 : gmap (Z * Z) Z) (s0 : vm) (old new sz : Z).
Hypothesis H0 : cow_inv s0 roots fl0 G0.
Hypothesis Hold : old ∈ roots.
Hypothesis Hnew : new ∈ roots.
Hypothesis Hne : old <> new.
Hypothesis Hsz : 0 <= sz <= TRAPFRAME.
Hypothesis Hmapped : forall va, va_ok va -> va < sz -> is_Some (G0 !! (old, va)).
Hypothesis Hfresh : forall va, va_ok va -> va < sz -> G0 !! (new, va) = None.

Lemma G0_entry va v : G0 !! (old, va) = Some v -> 0 <= v < 2 ^ 64 /\ valid_page (PTE2PA v).
Proof.
  intros Hk. destruct (cow_leaf _ _ _ _ _ _ _ H0 Hk) as (<- & _ & _ & _). split.
  - apply leaf_range.
  - by apply (ci_data _ _ _ _ H0 _ _ Hk).
Qed.

Lemma copied_keeps G i :
  copied G0 G old new i -> (forall va, va_ok va -> va < i -> va < sz) -> keeps G0 G.
Proof.
  intros HJ Hi [r va] v Hk. destruct (ci_dom _ _ _ _ H0 _ _ _ Hk) as [_ [Hva _]].
  rewrite HJ by done. destruct decide as [[Hlt ->]|Ho].
  - rewrite Hk. eexists. split; [done | apply cow_mark_spec].
  - destruct decide as [[Hlt ->]|_]; [| by exists v].
    rewrite Hfresh in Hk by eauto. done.
Qed.

Lemma undone_keeps G j : undone G0 G old j -> keeps G0 G.
Proof.
  intros HU [r va] v Hk. destruct (ci_dom _ _ _ _ H0 _ _ _ Hk) as [_ [Hva _]].
  rewrite HU by done. destruct decide as [[-> Hlt]|_]; [| by exists v].
  rewrite Hk. eexists. split; [done | apply cow_mark_spec].
Qed.

Lemma copied_lt i : va_ok i -> i < sz -> forall va, va_ok va -> va < i + PGSIZE -> va < sz.
Proof.
  intros Hi Hlt va Hva H. destruct (Z.ltb_spec i va) as [Hg|]; [| lia].
  pose proof (va_ok_gap i va Hi Hva Hg). lia.
Qed.

Lemma err_undone G i v s fl :
  cow_inv s roots fl (<[(old, i) := cow_mark v]> G) -> copied G0 G old new i -> uva i -> i < sz ->
  G0 !! (old, i) = Some v ->
  exists s' fl' G', uvmcowpy_err new i s = Ok (u64 (-1), s') /\ cow_inv s' roots fl' G' /\
    same_data G0 s s' /\ undone G0 G' old (i + PGSIZE).
Proof.
  intros H HJ Hi Hlt Hv.
  destruct (uvmcowpy_err_cow s roots fl G0 G old new i v)
    as (s' & fl' & G' & Hrun & H' & Hd & HG); try done.
  { intros va Hva ?. apply Hmapped; [done | lia]. }
  { intros k w Hw. by apply (ci_data _ _ _ _ H0 k). }
  assert (undone G0 G' old (i + PGSIZE)) as HU.
  { intros r va Hva. rewrite HG by done. destruct (decide (r = new /\ va < i)) as [[-> ?]|Hn].
    { rewrite decide_False by naive_solver. by rewrite Hfresh by (done || lia). }
    destruct (decide ((r, va) = (old, i))) as [[= -> ->]|Hk].
    { rewrite lookup_insert_eq, decide_True by (unfold PGSIZE; lia). by rewrite Hv. }
    rewrite lookup_insert_ne by congruence. rewrite HJ by done.
    rewrite (decide_False (P := va < i /\ r = new)) by naive_solver.
    destruct (decide (r = old)) as [->|]; [| by rewrite !decide_False by naive_solver].
    destruct (decide (va < i)); [rewrite !decide_True by (unfold PGSIZE; lia); done |].
    rewrite !decide_False; [done | | lia]. intros [_ ?].
    pose proof (va_ok_gap i va). destruct (decide (va = i)); [congruence |].
    destruct Hi. unfold PGSIZE in *. intuition lia. }
  exists s', fl', G'. split_and!; try done.
  eapply same_data_keeps; [done | by eapply undone_keeps].
Qed.

Lemma uvmcowpy_loop_cow n : forall f i s fl G,
  cow_inv s roots fl G -> same_data G0 s0 s -> copied G0 G old new i -> (n <= f)%nat ->
  0 <= i -> i mod PGSIZE = 0 -> i + Z.of_nat n * PGSIZE <= TRAPFRAME ->
  sz <= i + Z.of_nat n * PGSIZE -> (n <> 0%nat -> i + (Z.of_nat n - 1) * PGSIZE < sz) ->
  exists res s' fl' G', uvmcowpy_loop f old new i sz s = Ok (res, s') /\
    cow_inv s' roots fl' G' /\ same_data G0 s0 s' /\
    ((res = 0 /\ copied G0 G' old new (i + Z.of_nat n * PGSIZE)) \/
     (res = u64 (-1) /\ exists j, undone G0 G' old j)).
Proof.
  induction n as [|n IH]; intros f i s fl G H Hd HJ Hf Hi0 Hia Hle Hge Hlast.
  - exists 0, s, fl, G. rewrite Z.mul_0_l, Z.add_0_r in *. split_and!; [| done | done | by left].
    destruct f; simpl; destruct (Z.ltb_spec i sz); done || lia.
  - destruct f as [|f]; [lia |]. unfold PGSIZE in Hle, Hge, Hlast. assert (i < sz) as Hlt by lia.
    assert (uva i) as Hva by (split; [split; unfold_consts |]; lia).
    destruct (Hmapped i (proj1 Hva) Hlt) as [v Hv]. destruct (G0_entry i v Hv) as [Hvr Hvp].
    assert (forall va, va_ok va -> va < i -> va < sz) as Hbelow by (intros; lia).
    destruct (uvmcowpy_loop_step s roots fl G f old new i sz v) as (s1 & fl1 & Hd1 & Hstep); try done.
    { rewrite HJ by apply Hva. by rewrite !decide_False by lia. }
    { rewrite HJ by apply Hva. rewrite !decide_False by lia. apply Hfresh; [apply Hva | done]. }
    pose proof (same_data_comp _ _ _ _ Hd (same_data_keeps _ _ _ _ Hd1 (copied_keeps G i HJ Hbelow))) as Hd1'.
    destruct Hstep as [[-> H1]|[-> H1]].
    + rewrite u64_small by (unfold_consts; lia).
      replace (i + Z.of_nat (S n) * PGSIZE) with (i + PGSIZE + Z.of_nat n * PGSIZE) by lia.
      apply (IH f _ s1 fl1 _ H1 Hd1'); try (unfold PGSIZE in *; lia).
      * apply copied_step; try done. apply Hva.
      * by apply aligned_next.
    + destruct (err_undone G i v s1 fl1) as (s' & fl' & G' & Hrun & H' & Hd' & HU); try done.
      exists (u64 (-1)), s', fl', G'. split_and!; [done | done | by eapply same_data_comp |].
      right. split; [done | by eexists].
Qed.

End Fork.
End Theory.
