(* ===== verification/Uvm.v ===== *)
(** * Uvm: growing and shrinking a user address space, [uvmalloc], [uvmdealloc] and
    [uvmunmap]

    Stated on the view [cow_inv] of [Cow.v]: [uvmalloc] adds mappings to fresh, zeroed,
    private pages or leaves every mapping as it was; [uvmunmap] removes mappings and frees a
    page exactly when its last mapping goes. *)

From stdpp Require Import base list sets gmap strings.
From Stdlib Require Import ZArith Lia.
From S2P Require Import Prelude Riscv Mem Kalloc Vm PageTable Cow.

Section Theory.
Context `{I : Image} {Iok : ImageOk I}.

(** [kfree] of a page in use that no address space maps. *)
Lemma cow_free_unmapped s roots fl G p s' fl' :
  cow_inv s roots fl G -> (forall k v, G !! k = Some v -> PTE2PA v <> p) ->
  freed roots p s fl s' fl' -> cow_inv s' roots fl' G /\ same_data G s s'.
Proof.
  intros H Hno Hf. split.
  - split; try apply Hf; try apply H.
    + intros r va Hr Hva. rewrite (fr_leaves _ _ _ _ _ _ Hf) by done. by apply (ci_view _ _ _ _ H).
    + intros k v Hk. destruct (ci_data _ _ _ _ H _ _ Hk) as (Hq & Hqn & Hqt).
      split_and!; [done | | by rewrite (fr_tables _ _ _ _ _ _ Hf)].
      specialize (Hno k v Hk). destruct (fr_case _ _ _ _ _ _ Hf) as [(_ & -> & _)|(_ & ->)]; set_solver.
    + intros k v Hk. rewrite (fr_counts _ _ _ _ _ _ Hf); [by apply (ci_count _ _ _ _ H k) | | by eauto].
      by apply (ci_data _ _ _ _ H k).
  - intros k v x Hk Hx. destruct (fr_case _ _ _ _ _ _ Hf) as [(_ & _ & Hm & _)|(_ & ->)]; [done |].
    apply (fr_mem _ _ _ _ _ _ Hf). intros q ->%list_elem_of_singleton Hin. apply (Hno k v Hk).
    apply (pages_disjoint _ _ x); try done; apply valid_page_aligned.
    + by apply (ci_data _ _ _ _ H k).
    + pose proof (inv_valid _ _ (fr_alloc _ _ _ _ _ _ Hf)) as [? _]%Forall_cons. done.
Qed.

(** ** One iteration of [uvmalloc] *)

Lemma uvmalloc_loop_step s roots fl G f r oldsz a newsz xperm :
  cow_inv s roots fl G -> r ∈ roots -> uva a -> G !! (r, a) = None -> a < newsz ->
  let perm := Z.lor (Z.lor PTE_R PTE_U) xperm in
  0 <= perm < 1024 ->
  exists s1 fl1, same_data G s s1 /\
   ((uvmalloc_loop (S f) r oldsz a newsz xperm s =
       (do! uvmdealloc r a oldsz in ret 0) s1 /\ cow_inv s1 roots fl1 G) \/
    (exists p, uvmalloc_loop (S f) r oldsz a newsz xperm s =
       uvmalloc_loop f r oldsz (u64 (a + PGSIZE)) newsz xperm s1 /\
       cow_inv s1 roots fl1 (<[(r, a) := mk_pte p perm]> G) /\
       valid_page p /\ p ∈ fl /\ (forall x, in_page p x -> mem_of s1 x = 0))).
Proof.
  intros H Hr Hva Hnone Hlt perm Hperm. simpl uvmalloc_loop.
  destruct (Z.ltb_spec a newsz); [ifs | lia].
  destruct (kalloc_total _ _ (ci_alloc _ _ _ _ H)) as [[-> Hka]|(p & fl3 & -> & Hka & Hi1)].
  { exists s, []. split; [done |]. left. split; [by mrun with Hka | done]. }
  pose proof (inv_valid _ _ (ci_alloc _ _ _ _ H)) as [Hpv _]%Forall_cons.
  pose proof (inv_nodup _ _ (ci_alloc _ _ _ _ H)) as [Hpn _]%NoDup_cons.
  pose proof (valid_page_bounds p Hpv) as (_ & _ & Hp0). pose proof (valid_page_range p Hpv) as Hpr.
  assert (~ is_table (mem_of s) roots p) as Hpt
    by (apply (free_not_table _ _ _ p (ci_wf _ _ _ _ H)); set_solver).
  assert (forall k v, G !! k = Some v -> PTE2PA v <> p) as Hunm.
  { intros k v Hk <-. destruct (ci_data _ _ _ _ H _ _ Hk) as (_ & Hn & _). set_solver. }
  set (s2 := set_mem (fun m => memset m p 0 PGSIZE) (popped p s)).
  destruct (pop_ext roots s p fl3 (mem_of s2)) as (He2 & Hsl2 & Htab2); try apply H.
  { apply same_outside_memset. set_solver. }
  change (mkvm _ _ _) with s2 in He2.
  pose proof (cow_ext _ _ _ _ _ _ H He2 Hsl2) as H2.
  mrun with Hka. destruct (Z.eqb_spec p 0); [done |]. unfold do_memset. mrun.
  change (set_mem _ (popped p s)) with s2.
  assert (has (leaf (mem_of s2) r a) PTE_V = false) as Hinv.
  { pose proof (ci_view _ _ _ _ H2 r a Hr Hva) as Hv. rewrite Hnone in Hv.
    unfold valid_entry in Hv. by destruct has. }
  fold perm.
  destruct (mappages_loop_step roots 1 r a a p perm s2 fl3) as [_ Hstep]; try apply H2; try done; [apply Hva |].
  destruct (Hstep Hinv) as (s3 & fl4 & He3 & Hcase).
  pose proof (ext_trans _ _ _ _ _ _ _ He2 He3) as He.
  assert (~ is_table (mem_of s3) roots p) as Hpt3.
  { intros [Ht|Ht]%(ext_tables _ _ _ _ _ He3); [by apply Htab2 in Ht | done]. }
  assert (p ∉ fl4) as Hp4 by (intros Hin%(ext_fl _ _ _ _ _ _ He3); done).
  destruct Hcase as [(Hrun & -> & Hsl)|(Hrun & Hl & Hlo)];
    rewrite <- (mappages_page r a) in Hrun by apply Hva.
  - mrun with Hrun. change (-1 =? 0) with false. ifs.
    pose proof (cow_ext _ _ _ _ _ _ H2 He3 Hsl) as H3.
    destruct (kfree_freed roots p s3 []) as (s4 & fl5 & Hk4 & Hf4); try apply He3; try done.
    destruct (cow_free_unmapped _ _ _ _ _ _ _ H3 Hunm Hf4) as [H4 Hd4].
    exists s4, fl5. split; [| left; split; [by mrun with Hk4 | done]].
    eapply same_data_comp; [by apply (ext_data _ _ _ _ _ _ H He) | done].
  - rewrite Z.eqb_refl in Hrun. mrun with Hrun. ifs. rewrite mk_pte_u64 in Hl by lia.
    destruct (mk_pte_spec _ _ Hpv Hperm) as (E1 & _ & E3).
    exists s3, fl4. split; [by apply (ext_data _ _ _ _ _ _ H He) |]. right. exists p.
    refine (conj eq_refl (conj _ (conj Hpv (conj _ _)))); [| set_solver |].
    + destruct s3 as [m3 l3 c3]. apply (cow_map s2 roots fl3 G (mkvm m3 l3 c3) fl4); rewrite ?E1; try done.
      * apply He3.
      * rewrite nrefs_0 by done. simpl.
        pose proof (ext_counts _ _ _ _ _ He3 p Hpv Hpn) as Hc. simpl in Hc. rewrite Hc.
        unfold upd. by rewrite Z.eqb_refl.
    + intros x Hx. rewrite (ext_frame _ _ _ _ _ He3 p x); try done.
      * simpl. unfold memset. by rewrite (proj2 (in_range_spec p PGSIZE x)) by done.
      * by rewrite <- Htab2 in Hpt.
Qed.
(** ** [uvmdealloc] *)

Lemma PGROUNDUP_le sz lim : 0 <= sz <= lim -> lim + 4095 < 2 ^ 64 -> lim mod PGSIZE = 0 ->
  PGROUNDUP sz <= lim.
Proof.
  intros Hsz Hlim Ha. pose proof (PGROUNDUP_bounds sz). pose proof (PGROUNDUP_aligned sz).
  unfold PGSIZE in *. set (u := PGROUNDUP sz) in *. clearbody u.
  pose proof (Z.div_mod u 4096). pose proof (Z.div_mod lim 4096). lia.
Qed.

(** The mappings of [r] in a range of addresses are gone, the others are as they were. *)
Definition removed (G G' : gmap (Z * Z) Z) (r lo hi : Z) : Prop :=
  forall r' va, va_ok va -> G' !! (r', va) =
    if decide (r' = r /\ lo <= va < hi) then None else G !! (r', va).

(** Every page of the range is mapped by an entry with permission bits. *)
Definition populated (G : gmap (Z * Z) Z) (r lo hi : Z) : Prop :=
  forall va, va_ok va -> lo <= va < hi -> exists v, G !! (r, va) = Some v /\ PTE_FLAGS v <> PTE_V.

Lemma uvmunmap_cow s roots fl G r lo n :
  cow_inv s roots fl G -> 0 <= lo -> lo mod PGSIZE = 0 -> 0 <= n -> lo + n * PGSIZE <= TRAPFRAME ->
  populated G r lo (lo + n * PGSIZE) ->
  exists s' fl' G', uvmunmap r lo n true s = Ok (tt, s') /\ cow_inv s' roots fl' G' /\
    same_data G' s s' /\ removed G G' r lo (lo + n * PGSIZE).
Proof.
  intros H Hlo Ha Hn Hle Hp.
  destruct (uvmunmap_loop_cow roots r (Z.to_nat n) (Z.to_nat n) lo s fl G H)
    as (s' & fl' & G' & Hrun & H' & Hd & HG); try done; rewrite ?Z2Nat.id by done; try done.
  rewrite Z2Nat.id in Hrun, HG by done. exists s', fl', G'. split_and!; try done.
  unfold uvmunmap. rewrite Ha. change (0 =? 0) with true. ifs.
  rewrite (u64_small (n * PGSIZE)), u64_small by (unfold_consts; lia). done.
Qed.

Lemma uvmdealloc_cow s roots fl G r oldsz newsz :
  cow_inv s roots fl G -> 0 <= newsz -> 0 <= oldsz <= TRAPFRAME ->
  populated G r (PGROUNDUP newsz) (PGROUNDUP oldsz) ->
  exists s' fl' G', uvmdealloc r oldsz newsz s = Ok (Z.min oldsz newsz, s') /\
    cow_inv s' roots fl' G' /\ same_data G' s s' /\
    removed G G' r (PGROUNDUP newsz) (if newsz <? oldsz then PGROUNDUP oldsz else PGROUNDUP newsz).
Proof.
  intros H Hn Ho Hp. unfold uvmdealloc. destruct (Z.leb_spec oldsz newsz) as [Hle|Hlt].
  { exists s, fl, G. rewrite Z.min_l by done. split_and!; try done.
    intros r' va Hva. destruct (Z.ltb_spec newsz oldsz); [lia |]. by rewrite decide_False by lia. }
  rewrite Z.min_r by lia. destruct (Z.ltb_spec newsz oldsz); [| lia].
  pose proof (PGROUNDUP_le oldsz TRAPFRAME Ho ltac:(unfold_consts; lia) eq_refl) as Hu.
  pose proof (PGROUNDUP_bounds oldsz). pose proof (PGROUNDUP_bounds newsz).
  pose proof (PGROUNDUP_aligned oldsz) as Ha. pose proof (PGROUNDUP_aligned newsz) as Ha'.
  unfold_consts. set (o := PGROUNDUP oldsz) in *. set (l := PGROUNDUP newsz) in *. clearbody o l.
  pose proof (Z.div_mod o 4096). pose proof (Z.div_mod l 4096).
  destruct (Z.ltb_spec l o) as [Hlo|Hge].
  - assert (o - l = (o / 4096 - l / 4096) * 4096) as E by lia.
    assert ((o - l) / 4096 = o / 4096 - l / 4096) as E2 by (rewrite E; by rewrite Z.div_mul by lia).
    rewrite E2, (i32_small (_ - _)), u64_small by lia.
    destruct (uvmunmap_cow s roots fl G r l (o / 4096 - l / 4096)) as (s' & fl' & G' & Hrun & H' & Hd & HG);
      unfold PGSIZE; rewrite <- ?E; replace (l + (o - l)) with o in * by lia; try done; try lia.
    exists s', fl', G'. mrun with Hrun. split_and!; try done. unfold PGSIZE in HG. rewrite <- E in HG.
    by replace (l + (o - l)) with o in HG by lia.
  - exists s, fl, G. mrun. split_and!; try done. intros r' va Hva. by rewrite decide_False by lia.
Qed.
(** ** [uvmalloc] *)

(** The addresses of [r] from [lo] to [hi] are mapped to private, zeroed pages with permissions
    [perm]; everything else is mapped as in [G0]. *)
Definition grown (G0 : gmap (Z * Z) Z) (r lo perm : Z) (s : vm) (G : gmap (Z * Z) Z) (hi : Z) : Prop :=
  forall r' va, va_ok va ->
    if decide (r' = r /\ lo <= va < hi) then
      exists p, G !! (r', va) = Some (mk_pte p perm) /\ valid_page p /\ nrefs G p = 1%nat /\
        forall x, in_page p x -> mem_of s x = 0
    else G !! (r', va) = G0 !! (r', va).

Section Grow.
Context (roots fl0 : list Z) (G0 : gmap (Z * Z) Z) (s0 : vm) (r lo newsz xperm : Z).
Let perm := Z.lor (Z.lor PTE_R PTE_U) xperm.
Hypothesis H0 : cow_inv s0 roots fl0 G0.
Hypothesis Hr : r ∈ roots.
Hypothesis Hlo : 0 <= lo /\ lo mod PGSIZE = 0.
Hypothesis Hnewsz : newsz <= TRAPFRAME.
Hypothesis Hperm : 0 <= perm < 1024.
Hypothesis Hfree : forall va, va_ok va -> lo <= va < PGROUNDUP newsz -> G0 !! (r, va) = None.

Lemma perm_not_bare p : valid_page p -> PTE_FLAGS (mk_pte p perm) <> PTE_V.
Proof.
  intros Hp. destruct (mk_pte_spec p perm Hp Hperm) as (_ & -> & _). intros E.
  apply (f_equal (fun x => Z.testbit x 1)) in E. unfold perm in E. by rewrite !Z.lor_spec in E.
Qed.

Lemma grown_keeps s G a : grown G0 r lo perm s G a -> a <= PGROUNDUP newsz -> keeps G0 G.
Proof.
  intros HG Ha [r' va] v Hk. destruct (ci_dom _ _ _ _ H0 _ _ _ Hk) as [_ [Hva _]].
  specialize (HG r' va Hva). destruct decide as [[-> Hin]|_].
  - rewrite Hfree in Hk by (done || lia). done.
  - exists v. split; [congruence | done].
Qed.

Lemma grown_populated s G a : grown G0 r lo perm s G a -> populated G r lo a.
Proof.
  intros HG va Hva Hin. specialize (HG r va Hva). rewrite decide_True in HG by done.
  destruct HG as (p & Hk & Hp & _). exists (mk_pte p perm). split; [done | by apply perm_not_bare].
Qed.

Lemma grown_step s fl G a s1 fl1 p :
  cow_inv s roots fl G -> grown G0 r lo perm s G a -> va_ok a -> lo <= a ->
  cow_inv s1 roots fl1 (<[(r, a) := mk_pte p perm]> G) -> G !! (r, a) = None ->
  valid_page p -> p ∈ fl -> (forall x, in_page p x -> mem_of s1 x = 0) -> same_data G s s1 ->
  grown G0 r lo perm s1 (<[(r, a) := mk_pte p perm]> G) (a + PGSIZE).
Proof.
  intros H HG Ha Hla H1 Hnone Hp Hpf Hz Hd r' va Hva. specialize (HG r' va Hva).
  destruct (mk_pte_spec p perm Hp Hperm) as (E1 & _ & _).
  destruct (decide ((r', va) = (r, a))) as [[= -> ->]|Hne].
  - rewrite decide_True by (unfold PGSIZE; lia). exists p. rewrite lookup_insert_eq.
    split; [done |]. split; [done |]. split; [| done].
    rewrite nrefs_insert_new, E1, decide_True by done. rewrite nrefs_0; [done |].
    intros k v Hk <-. by destruct (ci_data _ _ _ _ H _ _ Hk) as (_ & ? & _).
  - destruct (decide (r' = r /\ lo <= va < a)) as [[-> Hin]|Hout].
    + rewrite decide_True by (unfold PGSIZE; lia). destruct HG as (q & Hk & Hq & Hn & Hzq).
      exists q. rewrite lookup_insert_ne by congruence.
      destruct (mk_pte_spec q perm Hq Hperm) as (E2 & _ & _).
      split; [done |]. split; [done |]. split.
      * rewrite nrefs_insert_new, E1, decide_False, Hn; [done | | done]. intros <-.
        destruct (ci_data _ _ _ _ H _ _ Hk) as (_ & Hn' & _). rewrite E2 in Hn'. done.
      * intros x Hx. rewrite (Hd _ _ _ Hk); [by apply Hzq | by rewrite E2].
    + rewrite decide_False; [by rewrite lookup_insert_ne by congruence |].
      intros [-> Hin]. destruct (decide (va = a)); [congruence |].
      pose proof (va_ok_gap a va Ha Hva). apply Hout. split; [done |].
      destruct (Z.ltb_spec a va); unfold PGSIZE in *; lia.
Qed.

(** Running out of memory takes back what was added. *)
Lemma grow_undo s fl G a :
  cow_inv s roots fl G -> grown G0 r lo perm s G a -> lo <= a -> va_ok a -> a <= PGROUNDUP newsz ->
  a <= TRAPFRAME ->
  exists s' fl', (do! uvmdealloc r a lo in ret 0) s = Ok (0, s') /\ cow_inv s' roots fl' G0 /\
    same_data G0 s s'.
Proof.
  intros H HG Hla Ha Hle Hat. destruct Ha as [Har Ha]. destruct Hlo as [Hlo0 Hloa].
  assert (PGROUNDUP a = a /\ PGROUNDUP lo = lo) as [Ea El]
    by (split; apply PGROUNDUP_id; unfold_consts; done || lia).
  destruct (uvmdealloc_cow s roots fl G r a lo) as (s' & fl' & G' & Hrun & H' & Hd & HR); try done; try lia.
  { rewrite Ea, El. by eapply grown_populated. }
  assert (G' = G0) as ->.
  { apply map_eq. intros [r' va].
    assert (va_ok va -> G' !! (r', va) = G0 !! (r', va)) as Heq.
    { intros Hva. rewrite HR, Ea, El by done. specialize (HG r' va Hva).
      destruct (Z.ltb_spec lo a).
      - destruct decide as [[-> Hin]|_]; [| done]. symmetry. apply Hfree; [done | lia].
      - rewrite decide_False by lia. rewrite decide_False in HG by lia. done. }
    destruct (G' !! (r', va)) as [v|] eqn:E; [apply Heq; by apply (ci_dom _ _ _ _ H' _ _ _ E) |].
    destruct (G0 !! (r', va)) as [v|] eqn:E0; [| done]. apply Heq.
    by apply (ci_dom _ _ _ _ H0 _ _ _ E0). }
  exists s', fl'. by mrun with Hrun.
Qed.

Lemma uvmalloc_loop_cow n : forall f a s fl G,
  cow_inv s roots fl G -> same_data G0 s0 s -> grown G0 r lo perm s G a -> (n <= f)%nat ->
  lo <= a -> a mod PGSIZE = 0 -> a + Z.of_nat n * PGSIZE <= TRAPFRAME ->
  newsz <= a + Z.of_nat n * PGSIZE -> (n <> 0%nat -> a + Z.of_nat n * PGSIZE = PGROUNDUP newsz /\ a + (Z.of_nat n - 1) * PGSIZE < newsz) ->
  exists res s' fl' G', uvmalloc_loop f r lo a newsz xperm s = Ok (res, s') /\
    cow_inv s' roots fl' G' /\ same_data G0 s0 s' /\
    ((res = newsz /\ grown G0 r lo perm s' G' (a + Z.of_nat n * PGSIZE)) \/ (res = 0 /\ G' = G0)).
Proof.
  induction n as [|n IH]; intros f a s fl G H Hd HG Hf Hla Haa Hle Hge Hlast.
  - exists newsz, s, fl, G. rewrite Z.mul_0_l, Z.add_0_r in *. split_and!; [| done | done | by left].
    destruct f; simpl; destruct (Z.ltb_spec a newsz); done || lia.
  - destruct f as [|f]; [lia |]. destruct (Hlast ltac:(done)) as [Hu Hlt0].
    unfold PGSIZE in Hle, Hge, Hu, Hlt0.
    assert (uva a) as Hva by (split; [split; unfold_consts |]; lia).
    assert (G !! (r, a) = None) as Hnone.
    { specialize (HG r a (proj1 Hva)). rewrite decide_False in HG by lia. rewrite HG.
      apply Hfree; [apply Hva | lia]. }
    destruct (uvmalloc_loop_step s roots fl G f r lo a newsz xperm) as (s1 & fl1 & Hd1 & Hstep); try done; [lia |].
    pose proof (same_data_comp _ _ _ _ Hd
      (same_data_keeps _ _ _ _ Hd1 (grown_keeps _ _ _ HG ltac:(lia)))) as Hd1'.
    destruct Hstep as [[-> H1]|(p & -> & H1 & Hp & Hpf & Hz)].
    + destruct (grow_undo s1 fl1 G a) as (s' & fl' & Hrun & H' & Hd'); try done; try lia; try apply Hva.
      { intros r' va Hva'. specialize (HG r' va Hva'). destruct decide as [[-> Hin]|]; [| done].
        destruct HG as (q & Hk & Hq & Hn & Hzq). exists q. split; [done |]. split; [done |]. split; [done |].
        intros x Hx. destruct (mk_pte_spec q perm Hq Hperm) as (E2 & _ & _).
        rewrite (Hd1 _ _ _ Hk); [by apply Hzq | by rewrite E2]. }
      exists 0, s', fl', G0. split_and!; try done; [by eapply same_data_comp | by right].
    + rewrite u64_small by (unfold_consts; lia).
      replace (a + Z.of_nat (S n) * PGSIZE) with (a + PGSIZE + Z.of_nat n * PGSIZE) by lia.
      apply (IH f _ s1 fl1 _ H1 Hd1'); try (unfold PGSIZE in *; lia).
      * eapply grown_step; try done. apply Hva.
      * by apply aligned_next.
Qed.
End Grow.
(** ** Properties *)

(** [uvmalloc] either returns the new size, with every page between the two sizes mapped
    to a zeroed page that nothing else maps, or returns 0 with every mapping as it was; in
    both cases the other mappings and the bytes of the pages mapped before are unchanged,
    and the reference counts remain exact. *)
Lemma uvmalloc_spec (roots : list Z) (r oldsz newsz xperm : Z) (s : vm) (fl : list Z)
    (G : gmap (Z * Z) Z)
    (H : cow_inv s roots fl G) (Hr : r ∈ roots) (Hsz : 0 <= oldsz <= newsz) (Hmax : newsz <= TRAPFRAME)
    (Hperm : 0 <= Z.lor (Z.lor PTE_R PTE_U) xperm < 1024)
    (Hfree : forall va, va_ok va -> PGROUNDUP oldsz <= va < PGROUNDUP newsz -> G !! (r, va) = None) :
  exists res s' fl' G', uvmalloc r oldsz newsz xperm s = Ok (res, s') /\
    cow_inv s' roots fl' G' /\ same_data G s s' /\
    ((res = newsz /\ grown G r (PGROUNDUP oldsz) (Z.lor (Z.lor PTE_R PTE_U) xperm) s' G' (PGROUNDUP newsz)) \/
     (res = 0 /\ G' = G)).
Proof.
  unfold uvmalloc. destruct (Z.ltb_spec newsz oldsz); [lia |].
  pose proof (PGROUNDUP_le newsz TRAPFRAME ltac:(lia) ltac:(unfold_consts; lia) eq_refl) as Hu.
  pose proof (PGROUNDUP_bounds oldsz) as Hb1. pose proof (PGROUNDUP_bounds newsz) as Hb2.
  pose proof (PGROUNDUP_aligned oldsz) as Ha1. pose proof (PGROUNDUP_aligned newsz) as Ha2.
  set (n := Z.to_nat ((PGROUNDUP newsz - PGROUNDUP oldsz) / PGSIZE)).
  assert (PGROUNDUP oldsz + Z.of_nat n * PGSIZE = PGROUNDUP newsz /\ (n <> 0%nat -> PGROUNDUP oldsz < newsz) /\
          0 <= PGROUNDUP oldsz) as (E & Hn & Hp).
  { unfold n. unfold_consts. set (o := PGROUNDUP oldsz) in *. set (l := PGROUNDUP newsz) in *. clearbody o l.
    pose proof (Z.div_mod o 4096). pose proof (Z.div_mod l 4096).
    assert (l - o = (l / 4096 - o / 4096) * 4096) as -> by lia. rewrite Z.div_mul by lia. lia. }
  rewrite <- E. apply (uvmalloc_loop_cow roots fl G s r (PGROUNDUP oldsz) newsz xperm H Hr) with (fl := fl) (G := G);
    try done; try (unfold PGSIZE in *; unfold_consts; lia).
  - intros r' va Hva. by rewrite decide_False by lia.
  - unfold n, PGSIZE in *. unfold_consts. set (o := PGROUNDUP oldsz) in *. set (l := PGROUNDUP newsz) in *.
    clearbody o l. pose proof (Z.div_mod o 4096). pose proof (Z.div_mod l 4096).
    pose proof (Z.div_mod (newsz - o) 4096). pose proof (Z.mod_pos_bound (newsz - o) 4096).
    assert (l - o = (l / 4096 - o / 4096) * 4096) as -> by lia. rewrite Z.div_mul by lia. lia.
Qed.

(** Shrinking with [uvmdealloc] unmaps exactly the pages between the two sizes, and every
    page that is still mapped somewhere keeps its bytes and an exact reference count, so a
    physical page is freed exactly when its last mapping goes. *)
Lemma uvmdealloc_spec (roots : list Z) (r oldsz newsz : Z) (s : vm) (fl : list Z) (G : gmap (Z * Z) Z)
    (H : cow_inv s roots fl G) (Hn : 0 <= newsz) (Ho : 0 <= oldsz <= TRAPFRAME)
    (Hp : populated G r (PGROUNDUP newsz) (PGROUNDUP oldsz)) :
  exists s' fl' G', uvmdealloc r oldsz newsz s = Ok (Z.min oldsz newsz, s') /\
    cow_inv s' roots fl' G' /\ same_data G' s s' /\
    removed G G' r (PGROUNDUP newsz) (if newsz <? oldsz then PGROUNDUP oldsz else PGROUNDUP newsz).
Proof. by apply uvmdealloc_cow with fl. Qed.

End Theory.

(** ** Witnesses *)

Lemma cow_inv_empty `{I : Image} (s : vm) (roots fl : list Z) :
  alloc_inv s fl -> pt_wf (mem_of s) roots fl -> (forall r va, r ∈ roots -> leaf (mem_of s) r va = 0) ->
  cow_inv s roots fl ∅.
Proof.
  intros Hi Hwf Hl. split; try done. intros r va Hr _. by rewrite Hl.
Qed.

(** A machine booted on the small image, with two empty tables. *)
Definition boot_two : M vm (Z * Z) :=
  do! kinit (I := small_image) in let! r := uvmcreate in let! n := uvmcreate in ret (r, n).

(** [m] runs from the boot state to value [x] and state [s]. *)
Inductive boots_to {A} (m : M vm A) (x : A) (s : vm) : Prop :=
  | Boots (Hrun : m (boot_vm zero_mem) = Ok (x, s)).

Lemma boot_two_tables :
  exists s r n fl, boots_to boot_two (r, n) s /\
    cow_inv (I := small_image) s [n; r] fl ∅ /\ r <> n.
Proof.
  destruct (kinit_ok (I := small_image) zero_mem) as (s0 & Hk%Boots & Hi & Hc).
  destruct (pages_down _ _ _) as [|p [|q fl]] eqn:E; [by vm_compute in E | by vm_compute in E |]. clear E.
  destruct (uvmcreate_spec (I := small_image) [] s0 p (q :: fl)) as (s1 & Hr1 & Hi1 & Hwf1 & _ & Hl1 & _);
    [exact Hi | split; intros; set_solver |].
  destruct (uvmcreate_spec (I := small_image) [p] s1 q fl) as (s2 & Hr2 & Hi2 & Hwf2 & Hsl & Hl2 & _ & _ & _ & Hn);
    [exact Hi1 | exact Hwf1 |].
  exists s2, p, q, fl. split; [| split; [| set_solver]].
  { constructor. unfold boot_two. clear -Hk Hr1 Hr2. destruct Hk as [Hk]. mrun with Hk. mrun with Hr1. by mrun with Hr2. }
  clear Hk Hr1 Hr2. apply cow_inv_empty; [done | done |].
  intros r va [-> | ->%list_elem_of_singleton]%elem_of_cons; [done |]. rewrite Hsl; [done | set_solver].
Qed.

(** The allocation in the boot state succeeds, as running it shows. *)
Lemma boot_alloc_value :
  value ((let! x := boot_two in uvmalloc (I := small_image) x.1 0 8192 PTE_W) (boot_vm zero_mem)) = Some 8192.
Proof. vm_compute. reflexivity. Qed.

(** Two mapped pages in one of two address spaces. *)
Lemma boot_two_pages :
  exists s r n fl G, cow_inv (I := small_image) s [n; r] fl G /\ r <> n /\
    grown (I := small_image) ∅ r (PGROUNDUP 0) (Z.lor (Z.lor PTE_R PTE_U) PTE_W) s G (PGROUNDUP 8192) /\
    boots_to (let! x := boot_two in do! uvmalloc (I := small_image) x.1 0 8192 PTE_W in ret x) (r, n) s.
Proof.
  destruct boot_two_tables as (s & r & n & fl & Hrun & H & Hne).
  destruct (uvmalloc_loop_cow (I := small_image) [n; r] fl ∅ s r 0 8192 PTE_W H)
    with (n := 2%nat) (f := 3%nat) (a := 0) (s := s) (fl := fl) (G := (∅ : gmap (Z * Z) Z))
    as (res & s' & fl' & G' & H1 & H2 & H3 & H4);
    [set_solver | done | done | done | done | done | | lia | lia | done | done | done | done |].
  { intros r' va Hva. by rewrite decide_False by lia. }
  change (uvmalloc (I := small_image) r 0 8192 PTE_W s = Ok (res, s')) in H1.
  destruct Hrun as [Hrun]. pose proof boot_alloc_value as Hv. rewrite (bind_ok _ _ _ _ _ Hrun) in Hv. simpl in Hv. rewrite H1 in Hv.
  simpl in Hv. injection Hv as ->.
  assert (boots_to boot_two (r, n) s) as Hb by by constructor. clear Hrun.
  destruct H4 as [[_ H4]|[? _]]; [| done].
  exists s', r, n, fl', G'. split_and!; [done | done | done |].
  destruct Hb as [Hrun]. constructor. mrun with Hrun. simpl. mrun with H1. reflexivity.
Qed.

