(* ===== verification/Fault.v ===== *)
(** * Fault: the copy-on-write page fault, [dup_pg], and the properties of the whole
    copy-on-write mechanism

    [dup_pg] replaces the mapping of a marked page by one to a private copy and drops the
    reference to the shared page.  Its proof reuses the view [cow_inv] of [Cow.v]; the
    properties of [uvmcowpy], [uvmunmap] and [dup_pg] are collected at the end. *)

From stdpp Require Import base list sets gmap strings.
From Stdlib Require Import ZArith Lia.
From S2P Require Import Prelude Riscv Mem Kalloc Vm PageTable Cow Uvm.

Section Theory.
Context `{I : Image} {Iok : ImageOk I}.

(** ** An address and its page *)

Lemma PX_rounddown l va : 0 <= l -> PX l (PGROUNDDOWN va) = PX l va.
Proof.
  intros Hl. rewrite !PX_eq by done. rewrite PGROUNDDOWN_eq. unfold PGSIZE.
  rewrite Z.pow_add_r, <- !Z.div_div by lia. change (2 ^ 12) with 4096.
  pose proof (Z.div_mod va 4096). replace (va - va mod 4096) with (va / 4096 * 4096) by lia.
  by rewrite Z.div_mul by lia.
Qed.

Lemma path_rounddown va : path_of (PGROUNDDOWN va) = path_of va.
Proof. unfold path_of. by rewrite !PX_rounddown by lia. Qed.

Lemma slot_rounddown m r va : slot m r (PGROUNDDOWN va) = slot m r va.
Proof. unfold slot. by rewrite path_rounddown, PX_rounddown by lia. Qed.


(** ** One mapping moved to a fresh page *)

Lemma cow_move s roots fl G r va v w p s3 fl3 s4 fl4 :
  cow_inv s roots fl G -> G !! (r, va) = Some v -> ext roots s fl s3 fl3 ->
  leaf (mem_of s3) r va = w -> has w PTE_V = true -> PTE2PA w = p ->
  (forall r' va', r' ∈ roots -> va_ok va' -> (r', va') <> (r, va) ->
     leaf (mem_of s3) r' va' = leaf (mem_of s) r' va') ->
  valid_page p -> p ∈ fl -> p ∉ fl3 -> ~ is_table (mem_of s3) roots p ->
  pg_cowrefs s3 (p / PGSIZE) = 0 -> freed roots (PTE2PA v) s3 fl3 s4 fl4 ->
  cow_inv s4 roots fl4 (<[(r, va) := w]> G).
Proof.
  intros H Hk He Hl HV Hpw Hlo Hpv Hpf Hp3 Hpt Hp0 Hf.
  destruct (cow_leaf _ _ _ _ _ _ _ H Hk) as (_ & _ & Hr & Hva).
  destruct (ci_data _ _ _ _ H _ _ Hk) as (Hov & Hon & _).
  assert (p <> PTE2PA v) as Hpo by congruence.
  assert (nrefs G p = 0%nat) as Hnp.
  { apply nrefs_0. intros k' v' Hk' <-. by destruct (ci_data _ _ _ _ H _ _ Hk') as (_ & ? & _). }
  pose proof (ci_count _ _ _ _ H _ _ Hk) as Hcv. rewrite <- (ext_counts _ _ _ _ _ He) in Hcv by done.
  assert (forall k' v', G !! k' = Some v' -> k' <> (r, va) -> PTE2PA v' = PTE2PA v ->
            (1 < nrefs G (PTE2PA v))%nat) as Hmore.
  { intros k' v' Hk' Hne E. rewrite (nrefs_delete _ _ _ _ Hk), decide_True by done.
    rewrite <- E. pose proof (nrefs_pos (delete (r, va) G) k' v') as Hpos.
    rewrite lookup_delete_ne in Hpos by done. specialize (Hpos Hk'). lia. }
  split; try apply Hf.
  - intros r' va' Hr' Hva'. rewrite (fr_leaves _ _ _ _ _ _ Hf) by done.
    destruct (decide ((r', va') = (r, va))) as [[= -> ->]|Hne].
    + rewrite lookup_insert_eq. unfold valid_entry. by rewrite Hl, HV.
    + rewrite lookup_insert_ne by done. rewrite Hlo by (done || apply Hva'). by apply (ci_view _ _ _ _ H).
  - intros r' va' x [[[= <- <-] _]|[_ Hx]]%lookup_insert_Some; [done |]. by eapply (ci_dom _ _ _ _ H).
  - intros k x Hx. rewrite (fr_tables _ _ _ _ _ _ Hf).
    apply lookup_insert_Some in Hx as [[<- <-]|[Hne Hx]].
    + rewrite Hpw. split_and!; [done | | done].
      destruct (fr_case _ _ _ _ _ _ Hf) as [(_ & -> & _)|(_ & ->)]; set_solver.
    + destruct (ci_data _ _ _ _ H _ _ Hx) as (Hq & Hqn & Hqt). split_and!; [done | |].
      * assert (PTE2PA x ∉ fl3) by (intros ?%(ext_fl _ _ _ _ _ _ He); done).
        destruct (fr_case _ _ _ _ _ _ Hf) as [(_ & -> & _)|(Hz & ->)]; [done |].
        apply not_elem_of_cons. split; [| done]. intros E. pose proof (Hmore k x Hx ltac:(done) E). lia.
      * intros [|]%(ext_tables _ _ _ _ _ He); done.
  - intros k x Hx. pose proof (nrefs_insert G (r, va) w v (PTE2PA x) Hk) as Hn. rewrite Hpw in Hn.
    apply lookup_insert_Some in Hx as [[<- <-]|[Hne Hx]].
    + rewrite Hpw in *. rewrite (fr_counts _ _ _ _ _ _ Hf) by done. rewrite Hp0.
      rewrite decide_False, decide_True in Hn by congruence. lia.
    + destruct (ci_data _ _ _ _ H _ _ Hx) as (Hq & Hqn & _). rewrite (decide_False (P := p = PTE2PA x)) in Hn by congruence.
      destruct (decide (PTE2PA v = PTE2PA x)) as [E|E].
      * rewrite <- E in *. pose proof (Hmore k x Hx ltac:(done) ltac:(done)).
        destruct (fr_case _ _ _ _ _ _ Hf) as [(_ & _ & _ & ->)|(Hz & _)]; lia.
      * rewrite (fr_counts _ _ _ _ _ _ Hf), (ext_counts _ _ _ _ _ He) by (done || congruence).
        rewrite (ci_count _ _ _ _ H _ _ Hx). lia.
Qed.
(** ** The entry [dup_pg] writes *)

Lemma dup_pte_spec p : valid_page p ->
  PTE2PA (dup_pte p) = p /\
  PTE_FLAGS (dup_pte p) = Z.lor (Z.lor (Z.lor (Z.lor PTE_V PTE_R) PTE_W) PTE_X) PTE_U /\
  has (dup_pte p) PTE_V = true /\ 0 <= dup_pte p < 2 ^ 64.
Proof.
  intros Hp. pose proof (valid_page_range _ Hp) as Hr. unfold dup_pte.
  destruct (pte_pack p 31) as [E1 E2]; [done | by apply valid_page_aligned | done |].
  change (Z.lor (Z.lor (Z.lor (Z.lor PTE_U PTE_V) PTE_W) PTE_X) PTE_R) with 31.
  split; [done |]. split; [done |]. split.
  - change PTE_V with (2 ^ 0). by rewrite has_pow2, Z.lor_spec, orb_true_r by lia.
  - pose proof (pte_range p 31). lia.
Qed.

Lemma dup_pte_eq p : valid_page p ->
  Z.lor (Z.lor (Z.lor (Z.lor (Z.lor (PA2PTE p) PTE_U) PTE_V) PTE_W) PTE_X) PTE_R = dup_pte p /\
  Z.land (dup_pte p) (Z.lnot PTE_COW) = dup_pte p.
Proof.
  intros Hp. split; [unfold dup_pte; by rewrite !Z.lor_assoc |].
  destruct (dup_pte_spec p Hp) as (_ & Hf & _). rewrite PTE_FLAGS_eq in Hf.
  apply Z.bits_inj'. intros i Hi. rewrite Z.land_spec, Z.lnot_spec by done.
  change PTE_COW with (2 ^ 8). rewrite Z.pow2_bits_eqb by lia.
  destruct (Z.eqb_spec 8 i) as [<-|]; [| apply andb_true_r]. rewrite andb_false_r.
  rewrite <- (Z.mod_pow2_bits_low _ 10) by lia. change (2 ^ 10) with 1024. by rewrite Hf.
Qed.

(** The tail of [dup_pg], once the entry at [pte] is known to be marked. *)
Definition dup_copy (pte oldpa : Z) : M vm Z :=
  let! newpa := kalloc in
  if newpa =? 0 then ret (-2) else
  do! do_memmove newpa oldpa PGSIZE in
  do! st64 pte (Z.lor (Z.lor (Z.lor (Z.lor (Z.lor (PA2PTE newpa) PTE_U) PTE_V) PTE_W) PTE_X) PTE_R) in
  do! (let! v' := ld64 pte in st64 pte (Z.land v' (Z.lnot PTE_COW))) in
  do! kfree oldpa in
  ret 0.

(** [dup_pg], branch by branch, on the entry for the page of [va]. *)
Lemma dup_pg_eval r va s :
  0 < va < MAXVA ->
  let pte := slot (mem_of s) r (PGROUNDDOWN va) in
  let v := load64 (mem_of s) pte in
  dup_pg r va s =
    if pte =? 0 then Ok (-1, s) else
    if negb (has v PTE_COW) then Ok (0, s) else
    if negb (has v PTE_U) then Ok (-1, s) else
    if negb (has v PTE_V) then Ok (-1, s) else
    dup_copy pte (PTE2PA v) s.
Proof.
  intros Hva pte v. unfold dup_pg. destruct (Z.leb_spec MAXVA va); [lia |].
  destruct (Z.eqb_spec va 0); [lia |]. ifs.
  assert (walk r va false s = Ok (pte, s)) as Hw by (unfold pte; rewrite slot_rounddown; by apply walk_false).
  mrun with Hw. destruct (pte =? 0); [done |]. unfold ld64 at 1. mrun. fold v.
  destruct (has v PTE_COW); [ifs | done]. destruct (has v PTE_U); [ifs | done].
  by destruct (has v PTE_V).
Qed.

(** A mapped address has an entry in memory. *)
Lemma cow_slot s roots fl G r a v :
  cow_inv s roots fl G -> G !! (r, a) = Some v ->
  exists t, node (mem_of s) r (path_of a) = Some t /\ slot (mem_of s) r a = t + 8 * PX 0 a /\
    (slot (mem_of s) r a =? 0) = false /\ load64 (mem_of s) (slot (mem_of s) r a) = v /\ has v PTE_V = true.
Proof.
  intros H Hk. destruct (cow_leaf _ _ _ _ _ _ _ H Hk) as (Hl & HV & Hr & _).
  pose proof HV as HV'. rewrite <- Hl in HV'. destruct (leaf_valid_node _ _ _ HV') as (t & Ht & Hld).
  destruct (slot_nonzero _ _ _ _ _ _ (ci_wf _ _ _ _ H) Hr Ht) as (Hs & Hnz & _).
  exists t. split_and!; [done | done | by apply Z.eqb_neq | by rewrite Hs, <- Hld | done].
Qed.

(** What a fresh page [p] and two stores to the entry do, before [kfree]. *)
Lemma dup_install s roots p fl r a t src :
  alloc_inv s (p :: fl) -> pt_wf (mem_of s) roots (p :: fl) -> r ∈ roots -> va_ok a ->
  node (mem_of s) r (path_of a) = Some t -> valid_page src -> src <> p -> ~ is_table (mem_of s) roots src ->
  let s2 := set_mem (fun m => memmove m p src PGSIZE) (popped p s) in
  let s4 := set_pte (t + 8 * PX 0 a) (dup_pte p) (set_pte (t + 8 * PX 0 a) (dup_pte p) s2) in
  ext roots s (p :: fl) s4 fl /\ leaf (mem_of s4) r a = dup_pte p /\
  (forall r' va', r' ∈ roots -> va_ok va' -> (r', va') <> (r, a) ->
     leaf (mem_of s4) r' va' = leaf (mem_of s) r' va') /\
  (forall q, is_table (mem_of s4) roots q <-> is_table (mem_of s) roots q) /\
  pg_cowrefs s4 (p / PGSIZE) = 0 /\
  (forall i, 0 <= i < PGSIZE -> mem_of s4 (p + i) = mem_of s (src + i)).
Proof.
  intros Hi Hwf Hr Ha Ht Hsrc Hne Hst s2 s4.
  pose proof (inv_valid _ _ Hi) as [Hpv _]%Forall_cons.
  pose proof (inv_nodup _ _ Hi) as [Hpn _]%NoDup_cons.
  assert (~ is_table (mem_of s) roots p) as Hpt by (apply (free_not_table _ _ _ p Hwf); set_solver).
  destruct (pop_ext roots s p fl (mem_of s2)) as (He2 & Hsl2 & Htab2); try done.
  { apply same_outside_memmove. set_solver. }
  change (mkvm _ _ _) with s2 in He2.
  assert (node (mem_of s2) r (path_of a) = Some t) as Ht2.
  { rewrite <- Ht. apply (node_outside [p] (mem_of s) _ roots (p :: fl)); try done.
    - eapply same_outside_trans; [apply (same_outside_memset _ _ p 5); set_solver |].
      apply same_outside_memmove. set_solver.
    - each.
    - intros b Hb ->%list_elem_of_singleton. done.
    - apply path_ok_of. }
  destruct (dup_pte_spec p Hpv) as (_ & _ & _ & Erange).
  destruct (set_pte_ext roots s2 fl r a t (dup_pte p)) as (He3 & _ & Hlo3 & Htab3 & Ht3);
    try apply He2; try done.
  destruct (set_pte_ext roots (set_pte (t + 8 * PX 0 a) (dup_pte p) s2) fl r a t (dup_pte p))
    as (He4 & Hl4 & Hlo4 & Htab4 & _); try apply He3; try done. fold s4 in He4, Hl4, Hlo4, Htab4.
  assert (forall q, is_table (mem_of s4) roots q <-> is_table (mem_of s) roots q) as Htab
    by (intros q; by rewrite Htab4, Htab3, <- Htab2).
  split_and!; [by eapply ext_trans, ext_trans | by rewrite Hl4, u64_small | | done | |].
  - intros r' va' Hr' Hva' Hk. by rewrite Hlo4, Hlo3, Hsl2.
  - simpl. unfold upd. by rewrite Z.eqb_refl.
  - intros i Hin. assert (in_page p (p + i)) as Hpi by (unfold in_page; lia).
    rewrite (ext_frame _ _ _ _ _ (ext_trans _ _ _ _ _ _ _ He3 He4) p); try done; [| by rewrite <- Htab2 in Hpt].
    simpl. unfold memmove. rewrite (proj2 (in_range_spec p PGSIZE (p + i))) by done.
    replace (src + (p + i - p)) with (src + i) by lia. apply memset_other. intros Hx.
    apply Hne. apply (pages_disjoint _ _ (src + i)); try done;
      [by apply valid_page_aligned.. |]. unfold in_page. lia.
Qed.

(** The branch that copies, from a marked user mapping. *)
Lemma dup_pg_copy s roots fl G r va v :
  cow_inv s roots fl G -> 0 < va < TRAPFRAME -> G !! (r, PGROUNDDOWN va) = Some v ->
  has v PTE_COW = true -> has v PTE_U = true ->
  (fl = [] /\ dup_pg r va s = Ok (-2, s)) \/
  (exists p fl3 s' fl', fl = p :: fl3 /\ dup_pg r va s = Ok (0, s') /\
     cow_inv s' roots fl' (<[(r, PGROUNDDOWN va) := dup_pte p]> G) /\
     (forall i, 0 <= i < PGSIZE -> mem_of s' (p + i) = mem_of s (PTE2PA v + i)) /\
     same_data (delete (r, PGROUNDDOWN va) G) s s').
Proof.
  intros H Hva Hk Hcow HU.
  destruct (cow_slot _ _ _ _ _ _ _ H Hk) as (t & Ht & Hs & Hnz & Hld & HV).
  rewrite dup_pg_eval by (unfold_consts; lia). rewrite Hnz, Hld, Hcow, HU, HV, Hs. ifs.
  set (a := PGROUNDDOWN va) in *. unfold dup_copy.
  destruct (cow_leaf _ _ _ _ _ _ _ H Hk) as (_ & _ & Hr & Hua).
  destruct (ci_data _ _ _ _ H _ _ Hk) as (Hov & Hon & Hot).
  destruct (kalloc_total _ _ (ci_alloc _ _ _ _ H)) as [[-> Hka]|(p & fl3 & -> & Hka & Hi1)].
  { left. split; [done |]. by mrun with Hka. }
  right. pose proof (inv_valid _ _ (ci_alloc _ _ _ _ H)) as [Hpv _]%Forall_cons.
  pose proof (inv_nodup _ _ (ci_alloc _ _ _ _ H)) as [Hpn _]%NoDup_cons.
  pose proof (valid_page_bounds p Hpv) as (_ & _ & Hp0).
  destruct (dup_pte_spec p Hpv) as (Epa & _ & EV & Erange). destruct (dup_pte_eq p Hpv) as [E1 E2].
  destruct (dup_install s roots p fl3 r a t (PTE2PA v)) as (He & Hl & Hlo & Htab & Hc & Hdata);
    try apply H; try done; [apply Hua | set_solver |].
  set (s4 := set_pte _ _ (set_pte _ _ _)) in *.
  destruct (kfree_freed roots (PTE2PA v) s4 fl3) as (s5 & fl5 & Hk5 & Hf5); try apply He; try done.
  { set_solver. } { by rewrite Htab. }
  assert (cow_inv s5 roots fl5 (<[(r, a) := dup_pte p]> G)) as H5.
  { eapply (cow_move s roots (p :: fl3) G r a v (dup_pte p) p s4 fl3); try done; [set_solver |].
    rewrite Htab. apply (free_not_table _ _ _ p (ci_wf _ _ _ _ H)). set_solver. }
  exists p, fl3, s5, fl5. split_and!; [done | | done | |].
  - mrun with Hka. destruct (Z.eqb_spec p 0); [done |]. unfold do_memmove, st64, ld64. mrun.
    rewrite E1, bind_assoc. mrun.
    set (s3 := set_mem (fun m => store64 m (t + 8 * PX 0 a) (dup_pte p)) _).
    assert (load64 (mem_of s3) (t + 8 * PX 0 a) = dup_pte p) as ->
      by (simpl; rewrite load64_store64; by apply u64_small).
    rewrite E2. change (set_mem _ s3) with s4. by mrun with Hk5.
  - intros i Hin. rewrite <- Hdata by done. apply (fr_mem _ _ _ _ _ _ Hf5).
    intros q ->%list_elem_of_singleton Hx. assert (p = PTE2PA v) as ->; [| set_solver].
    apply (pages_disjoint _ _ (p + i)); [by apply valid_page_aligned.. | | done]. unfold in_page; lia.
  - intros k w x [Hne Hw]%lookup_delete_Some Hx.
    rewrite <- (ext_data _ _ _ _ _ _ H He k w x Hw Hx).
    destruct (fr_case _ _ _ _ _ _ Hf5) as [(_ & _ & Hm & _)|(_ & ->)]; [done |].
    apply (fr_mem _ _ _ _ _ _ Hf5). intros q ->%list_elem_of_singleton Hin.
    destruct (ci_data _ _ _ _ H5 k w) as (Hwv & Hwn & _); [by rewrite lookup_insert_ne |].
    assert (PTE2PA w = PTE2PA v); [| set_solver].
    by apply (pages_disjoint _ _ x); [by apply valid_page_aligned.. | |].
Qed.

(** ** [uvmcowpy] as a whole *)

Lemma uvmcowpy_cow roots old new sz s fl G :
  cow_inv s roots fl G -> old ∈ roots -> new ∈ roots -> old <> new -> 0 <= sz <= TRAPFRAME ->
  (forall va, va_ok va -> va < sz -> is_Some (G !! (old, va))) ->
  (forall va, va_ok va -> va < sz -> G !! (new, va) = None) ->
  exists res s' fl' G', uvmcowpy old new sz s = Ok (res, s') /\
    cow_inv s' roots fl' G' /\ same_data G s s' /\
    ((res = 0 /\ copied G G' old new (PGROUNDUP sz)) \/
     (res = 2 ^ 64 - 1 /\ exists j, undone G G' old j)).
Proof.
  intros H Hold Hnew Hne Hsz Hmapped Hfresh.
  pose proof (PGROUNDUP_le sz TRAPFRAME Hsz ltac:(unfold_consts; lia) eq_refl) as Hu.
  pose proof (PGROUNDUP_bounds sz) as Hb. pose proof (PGROUNDUP_aligned sz) as Ha.
  unfold PGSIZE in *. pose proof (Z.div_mod (PGROUNDUP sz) 4096). pose proof (Z.div_mod sz 4096).
  pose proof (Z.mod_pos_bound sz 4096). unfold_consts.
  destruct (uvmcowpy_loop_cow roots fl G s old new sz H Hold Hnew Hne) with
    (n := Z.to_nat (PGROUNDUP sz / 4096)) (f := S (Z.to_nat (sz / 4096))) (i := 0) (s := s) (fl := fl) (G := G)
    as (res & s' & fl' & G' & Hrun & H' & Hd & Hres); unfold_consts; try done; try lia.
  { intros r va [Hva _]. by rewrite !decide_False by lia. }
  exists res, s', fl', G'. split_and!; [done | done | done |].
  replace (0 + Z.of_nat (Z.to_nat (PGROUNDUP sz / 4096)) * 4096) with (PGROUNDUP sz) in Hres by lia. done.
Qed.

Lemma has_flags v i : 0 <= i < 10 -> has v (2 ^ i) = has (PTE_FLAGS v) (2 ^ i).
Proof. intros Hi. rewrite !has_pow2, PTE_FLAGS_eq by lia. symmetry.
  change 1024 with (2 ^ 10). apply Z.mod_pow2_bits_low. lia.
Qed.

Lemma child_pte_marked v : valid_page (PTE2PA v) ->
  has (child_pte v) PTE_COW = true /\ has (child_pte v) PTE_U = has v PTE_U /\
  has (child_pte v) PTE_W = false.
Proof.
  intros Hp. destruct (child_pte_spec v Hp) as (_ & _ & Hf). destruct (cow_mark_spec v) as (_ & _ & HU & HW & _).
  change PTE_COW with (2 ^ 8). change PTE_U with (2 ^ 4) in *. change PTE_W with (2 ^ 2) in *.
  rewrite (has_flags (child_pte v) 8), (has_flags (child_pte v) 4), (has_flags (child_pte v) 2), Hf by lia.
  rewrite (has_flags (cow_mark v) 4) in HU by lia. rewrite (has_flags (cow_mark v) 2) in HW by lia.
  rewrite !has_pow2, ?Z.lor_spec in * by lia. rewrite <- HU, HW. simpl.
  by rewrite !orb_true_r, !orb_false_r.
Qed.

(** ** Properties *)

(** C14: [uvmcowpy] terminates without a panic.  When it returns 0, every page of the parent
    is marked copy-on-write and read-only and the child has an entry to the same
    physical page; when memory for the child's tables runs out it returns the unsigned
    value of -1, and the child has no mapping left.  In both cases no byte of a page that was
    mapped changes, all other mappings are unchanged and every reference count is the
    number of mappings minus one. *)
Theorem uvmcowpy_spec (roots : list Z) (old new sz : Z) (s : vm) (fl : list Z) (G : gmap (Z * Z) Z)
    (H : cow_inv s roots fl G) (Hold : old ∈ roots) (Hnew : new ∈ roots) (Hne : old <> new)
    (Hsz : 0 <= sz <= TRAPFRAME)
    (Hmapped : forall va, va_ok va -> va < sz -> is_Some (G !! (old, va)))
    (Hfresh : forall va, va_ok va -> va < sz -> G !! (new, va) = None) :
  exists res s' fl' G', uvmcowpy old new sz s = Ok (res, s') /\
    cow_inv s' roots fl' G' /\ same_data G s s' /\
    ((res = 0 /\ copied G G' old new (PGROUNDUP sz)) \/
     (res = 2 ^ 64 - 1 /\ exists j, undone G G' old j)).
Proof. by apply uvmcowpy_cow with fl. Qed.

(** The entry [dup_pg] looks at, and its result where it changes nothing. *)
Lemma dup_pg_refuses r va s : 0 < va < MAXVA ->
  match node (mem_of s) r (path_of (PGROUNDDOWN va)) with
  | None => dup_pg r va s = Ok (-1, s)
  | Some t => t + 8 * PX 0 (PGROUNDDOWN va) <> 0 ->
      let v := leaf (mem_of s) r (PGROUNDDOWN va) in
      if negb (has v PTE_COW) then dup_pg r va s = Ok (0, s)
      else has v PTE_U && has v PTE_V = false -> dup_pg r va s = Ok (-1, s)
  end.
Proof.
  intros Hva. rewrite dup_pg_eval by done. unfold slot, leaf. destruct (node _ _ _) as [t|]; [| done].
  intros Ht%Z.eqb_neq. cbv zeta. rewrite Ht. destruct (has _ PTE_COW); ifs; [| done].
  destruct (has _ PTE_U); ifs; [| done]. cbn [andb]. by intros ->.
Qed.

(** An entry that is not valid and not marked is accepted with 0, although the comment above
    [dup_pg] promises -1 for a page that is not valid. *)
Lemma dup_pg_accepts_invalid r va s t : 0 < va < MAXVA ->
  node (mem_of s) r (path_of (PGROUNDDOWN va)) = Some t -> t + 8 * PX 0 (PGROUNDDOWN va) <> 0 ->
  leaf (mem_of s) r (PGROUNDDOWN va) = 0 -> dup_pg r va s = Ok (0, s).
Proof. intros Hva Ht Hnz Hl. pose proof (dup_pg_refuses r va s Hva) as H. rewrite Ht, Hl in H. by apply H. Qed.


(** C3: copy-on-write gives the child its own memory.  After [uvmcowpy] has returned 0, a
    store fault of the child on a page of the parent either finds no free page, or leaves
    the child with a private page holding the bytes the parent's page had at the fork,
    while the parent still maps its page, with the same bytes. *)
Theorem fork_isolation (roots : list Z) (old new sz va v : Z) (s s1 : vm) (fl : list Z) (G : gmap (Z * Z) Z)
    (H : cow_inv s roots fl G) (Hold : old ∈ roots) (Hnew : new ∈ roots) (Hne : old <> new)
    (Hsz : 0 <= sz <= TRAPFRAME)
    (Hmapped : forall va, va_ok va -> va < sz -> is_Some (G !! (old, va)))
    (Hfresh : forall va, va_ok va -> va < sz -> G !! (new, va) = None)
    (Hva : va_ok va /\ 0 < va < sz) (Hv : G !! (old, va) = Some v) (HU : has v PTE_U = true)
    (Hfork : uvmcowpy old new sz s = Ok (0, s1)) :
  dup_pg new va s1 = Ok (-2, s1) \/
  exists s2 p, dup_pg new va s1 = Ok (0, s2) /\ p <> PTE2PA v /\
    leaf (mem_of s2) new va = dup_pte p /\ leaf (mem_of s2) old va = cow_mark v /\
    forall i, 0 <= i < PGSIZE ->
      mem_of s2 (p + i) = mem_of s (PTE2PA v + i) /\ mem_of s2 (PTE2PA v + i) = mem_of s (PTE2PA v + i).
Proof.
  destruct (uvmcowpy_cow _ _ _ _ _ _ _ H Hold Hnew Hne Hsz Hmapped Hfresh)
    as (res & s' & fl1 & G1 & Hrun & H1 & Hd1 & Hres). rewrite Hfork in Hrun. injection Hrun as <- <-.
  destruct Hres as [[_ HG]|[? _]]; [| done]. destruct Hva as [Hva Hin].
  pose proof (PGROUNDUP_bounds sz ltac:(lia) ltac:(unfold_consts; lia)) as Hb.
  assert (PGROUNDDOWN va = va) as Ea by apply PGROUNDDOWN_id, Hva.
  assert (G1 !! (new, va) = Some (child_pte v)) as Hk.
  { rewrite HG by done. rewrite decide_False, decide_True by (lia || naive_solver). by rewrite Hv. }
  assert (G1 !! (old, va) = Some (cow_mark v)) as Hko.
  { rewrite HG by done. rewrite decide_True by lia. by rewrite Hv. }
  destruct (ci_data _ _ _ _ H _ _ Hv) as (Hpv & _). destruct (child_pte_marked v Hpv) as (HC & HU' & _).
  destruct (child_pte_spec v Hpv) as (Epa & _). destruct (cow_mark_spec v) as (Epm & _).
  destruct (dup_pg_copy s1 roots fl1 G1 new va (child_pte v) H1)
    as [[_ ?]|(p & fl3 & s2 & fl2 & -> & Hrun2 & H2 & Hdata & Hd2)]; rewrite ?Ea; try done;
    [lia | congruence | by left |].
  right. rewrite Ea in *. exists s2, p. split_and!; [done | | | |].
  - intros ->. destruct (ci_data _ _ _ _ H1 _ _ Hko) as (_ & Hn & _). rewrite Epm in Hn. set_solver.
  - by apply (cow_leaf _ _ _ _ _ _ _ H2), lookup_insert_eq.
  - apply (cow_leaf _ _ _ _ _ _ _ H2). rewrite lookup_insert_ne by congruence. done.
  - intros i Hi. assert (mem_of s1 (PTE2PA v + i) = mem_of s (PTE2PA v + i)) as E
      by (apply (Hd1 _ _ _ Hv); unfold in_page; lia).
    rewrite Epa in Hdata. split; [by rewrite Hdata |]. rewrite <- E. apply (Hd2 (old, va) (cow_mark v)).
    + by rewrite lookup_delete_ne by congruence.
    + rewrite Epm. unfold in_page. lia.
Qed.

(** The copy [dup_pg] installs is writable and executable whatever the permissions
    of the page it copies, since [uvmcowpy] marks every page: a fork followed by a store
    turns a read-only page into a writable and executable one. *)
Lemma dup_pg_grants_all (roots : list Z) (r va v p : Z) (s : vm) (fl : list Z) (G : gmap (Z * Z) Z)
    (H : cow_inv s roots (p :: fl) G) (Hva : 0 < va < TRAPFRAME)
    (Hk : G !! (r, PGROUNDDOWN va) = Some v) (HC : has v PTE_COW = true) (HU : has v PTE_U = true) :
  exists s', dup_pg r va s = Ok (0, s') /\
    PTE_FLAGS (leaf (mem_of s') r (PGROUNDDOWN va)) =
      Z.lor (Z.lor (Z.lor (Z.lor PTE_V PTE_R) PTE_W) PTE_X) PTE_U.
Proof.
  destruct (dup_pg_copy _ _ _ _ _ _ _ H Hva Hk HC HU)
    as [[? _]|(p' & fl3 & s' & fl' & [= <- <-] & Hrun & H' & _)]; [done |].
  exists s'. split; [done |]. pose proof (inv_valid _ _ (ci_alloc _ _ _ _ H)) as [Hpv _]%Forall_cons.
  assert (leaf (mem_of s') r (PGROUNDDOWN va) = dup_pte p) as ->
    by by apply (cow_leaf _ _ _ _ _ _ _ H'), lookup_insert_eq.
  by destruct (dup_pte_spec p Hpv) as (_ & -> & _).
Qed.
End Theory.

(** ** Witnesses *)

Definition rw_perm : Z := Z.lor (Z.lor PTE_R PTE_U) PTE_W.

Lemma grown_lookup (r n : Z) (s : vm) (G : gmap (Z * Z) Z) :
  r <> n -> grown (I := small_image) ∅ r (PGROUNDUP 0) rw_perm s G (PGROUNDUP 8192) ->
  (forall va, va_ok va -> va < 8192 -> exists p, G !! (r, va) = Some (mk_pte p rw_perm) /\ valid_page (I := small_image) p) /\
  (forall va, va_ok va -> va < 8192 -> G !! (n, va) = None).
Proof.
  intros Hne HG. change (PGROUNDUP 0) with 0 in HG. change (PGROUNDUP 8192) with 8192 in HG.
  split; intros va Hva Hlt; [specialize (HG r va Hva) | specialize (HG n va Hva)].
  - rewrite decide_True in HG by (destruct Hva; lia). destruct HG as (p & ? & ? & _). by exists p.
  - rewrite decide_False in HG by naive_solver. by rewrite HG.
Qed.

Lemma value_split {A} (m : M vm A) (f g : A -> M vm Z) (b s : vm) (x : A) :
  m b = Ok (x, s) -> value ((let! y := m in f y) b) = Some 0 ->
  value ((let! y := m in do! f y in g y) b) = Some 0 ->
  exists s1 s2, f x s = Ok (0, s1) /\ g x s1 = Ok (0, s2).
Proof.
  intros Hrun H1 H2. rewrite (bind_ok _ _ _ _ _ Hrun) in H1. rewrite (bind_ok _ _ _ _ _ Hrun) in H2.
  destruct (f x s) as [[res s1]| |] eqn:E; simpl in H1; [| done..]. injection H1 as ->.
  rewrite (bind_ok _ _ _ _ _ E) in H2.
  destruct (g x s1) as [[res s2]| |] eqn:E2; simpl in H2; [| done..]. injection H2 as ->. by exists s1, s2.
Qed.

(** The machine with two mapped pages, then the fork and a fault of the child. *)
Definition boot_pages : M vm (Z * Z) :=
  let! x := boot_two in do! uvmalloc (I := small_image) x.1 0 8192 PTE_W in ret x.

Definition fork_step (x : Z * Z) : M vm Z := uvmcowpy (I := small_image) x.1 x.2 8192.
Definition fault_step (x : Z * Z) : M vm Z := dup_pg (I := small_image) x.2 4096.

Lemma boot_fork_value : value ((let! x := boot_pages in fork_step x) (boot_vm zero_mem)) = Some 0.
Proof. vm_compute. reflexivity. Qed.

Lemma boot_fault_value :
  value ((let! x := boot_pages in do! fork_step x in fault_step x) (boot_vm zero_mem)) = Some 0.
Proof. vm_compute. reflexivity. Qed.

(** Both steps succeed from that machine's state. *)
Lemma boot_runs r n s : boots_to boot_pages (r, n) s ->
  exists s1 s2, fork_step (r, n) s = Ok (0, s1) /\ fault_step (r, n) s1 = Ok (0, s2).
Proof. intros [Hrun]. exact (value_split _ _ _ _ _ _ Hrun boot_fork_value boot_fault_value). Qed.

Lemma uvmcowpy_spec_witness :
  exists s r n G, exists res s' fl' G', uvmcowpy (I := small_image) r n 8192 s = Ok (res, s') /\
    cow_inv (I := small_image) s' [n; r] fl' G' /\ same_data G s s' /\
    ((res = 0 /\ copied G G' r n (PGROUNDUP 8192)) \/ (res = 2 ^ 64 - 1 /\ exists j, undone G G' r j)).
Proof.
  destruct boot_two_pages as (s & r & n & fl & G & H & Hne & HG & _). exists s, r, n, G.
  destruct (grown_lookup r n s G Hne HG) as [Hm Hf].
  apply (uvmcowpy_spec (I := small_image) [n; r] r n 8192 s fl G); try done; [set_solver | set_solver |].
  intros va Hva Hlt. destruct (Hm va Hva Hlt) as (p & -> & _). done.
Defined.

Lemma fork_isolation_witness :
  exists s s1 r n v, uvmcowpy (I := small_image) r n 8192 s = Ok (0, s1) /\
    (dup_pg (I := small_image) n 4096 s1 = Ok (-2, s1) \/
     exists s2 p, dup_pg (I := small_image) n 4096 s1 = Ok (0, s2) /\ p <> PTE2PA v /\
      leaf (mem_of s2) n 4096 = dup_pte p /\ leaf (mem_of s2) r 4096 = cow_mark v /\
      forall i, 0 <= i < PGSIZE ->
        mem_of s2 (p + i) = mem_of s (PTE2PA v + i) /\ mem_of s2 (PTE2PA v + i) = mem_of s (PTE2PA v + i)).
Proof.
  destruct boot_two_pages as (s & r & n & fl & G & H & Hne & HG & Hb).
  destruct (grown_lookup r n s G Hne HG) as [Hm Hf]. destruct (boot_runs r n s Hb) as (s1 & s2 & Hfork & _).
  unfold fork_step in Hfork. cbn [fst snd] in Hfork.
  clear Hb. destruct (Hm 4096 ltac:(by split)) as (p & Hp & Hpv); [done |].
  exists s, s1, r, n, (mk_pte p rw_perm). split; [exact Hfork |].
  eapply (fork_isolation (I := small_image) [n; r] r n 8192 4096 _ s s1 fl G H);
    [set_solver | set_solver | exact Hne | done | | exact Hf | by split | exact Hp | | exact Hfork].
  - intros va Hva Hlt. destruct (Hm va Hva Hlt) as (q & -> & _). done.
  - destruct (mk_pte_spec p rw_perm Hpv) as (_ & Hfl & _); [done |].
    change PTE_U with (2 ^ 4). rewrite has_flags by lia. rewrite Hfl. reflexivity.
Defined.


