(* ===== verification/Proc.v ===== *)
(** * Proc: processes, [kernel/proc.c]

    The process table, the CPUs' current processes, [nextpid], [initproc] and [ticks], with
    physical memory ([Kalloc.vm]) and an abstract file layer underneath.  A
    [struct proc *] is the index of its slot ([None] for the null pointer); a sleep channel
    is a constructor of [wchan].  Code that runs on hart [c] takes [c] as an argument, the
    value of [r_tp()].

    The spin locks are not part of this state: each operation below runs its critical
    sections without interference, and the locks that justify this are the subject of
    [Spinlock.v].  Where the C code gives up the CPU in the middle of a function ([sleep],
    [wait], [exit], [yield]) the function is cut at the call of [swtch]: the first part ends
    with the process in a state the scheduler can see, the second part runs when it is
    scheduled again. *)

From stdpp Require Import base list strings.
From Stdlib Require Import ZArith Lia.
From S2P Require Import Prelude Riscv Mem Kalloc Vm.

(** ** Data *)

Inductive procstate : Type := UNUSED | USED | SLEEPING | RUNNABLE | RUNNING | ZOMBIE.

#[export] Instance procstate_eq_dec : EqDecision procstate.
Proof. solve_decision. Defined.

(** Addresses the kernel sleeps on: a process slot ([wait]), the tick counter
    ([sys_sleep]), or another object. *)
Inductive wchan : Type :=
  | NoChan
  | ChProc (i : nat)
  | ChTicks
  | ChAddr (a : Z).

#[export] Instance wchan_eq_dec : EqDecision wchan.
Proof. solve_decision. Defined.

(** Saved kernel registers: [ra], [sp] and [s0] to [s11]. *)
Record ctx : Type := mkctx { ctx_ra : Z; ctx_sp : Z; ctx_s : list Z }.

Record proc : Type := mkproc {
  state : procstate;
  chan : wchan;
  killed : Z;
  xstate : Z;
  pid : Z;
  parent : option nat;
  kstack : Z;
  sz : Z;
  pagetable : Z;
  trapframe : Z;
  context : ctx;
  ofile : list Z;
  cwd : Z;
  name : list Z;
  rtime : Z;
  ctime : Z;
  etime : Z;
  SP : Z;
  DP : Z;
  RBI : Z;
  RTime : Z;
  STime : Z;
  WTime : Z;
  start_time : Z;
  numScheduled : Z;
}.

Definition set_state (v : procstate) (p : proc) : proc :=
  mkproc v (chan p) (killed p) (xstate p) (pid p) (parent p) (kstack p) (sz p) (pagetable p)
    (trapframe p) (context p) (ofile p) (cwd p) (name p) (rtime p) (ctime p) (etime p) (SP p)
    (DP p) (RBI p) (RTime p) (STime p) (WTime p) (start_time p) (numScheduled p).
Definition set_chan (v : wchan) (p : proc) : proc :=
  mkproc (state p) v (killed p) (xstate p) (pid p) (parent p) (kstack p) (sz p) (pagetable p)
    (trapframe p) (context p) (ofile p) (cwd p) (name p) (rtime p) (ctime p) (etime p) (SP p)
    (DP p) (RBI p) (RTime p) (STime p) (WTime p) (start_time p) (numScheduled p).
Definition set_killed (v : Z) (p : proc) : proc :=
  mkproc (state p) (chan p) v (xstate p) (pid p) (parent p) (kstack p) (sz p) (pagetable p)
    (trapframe p) (context p) (ofile p) (cwd p) (name p) (rtime p) (ctime p) (etime p) (SP p)
    (DP p) (RBI p) (RTime p) (STime p) (WTime p) (start_time p) (numScheduled p).
Definition set_xstate (v : Z) (p : proc) : proc :=
  mkproc (state p) (chan p) (killed p) v (pid p) (parent p) (kstack p) (sz p) (pagetable p)
    (trapframe p) (context p) (ofile p) (cwd p) (name p) (rtime p) (ctime p) (etime p) (SP p)
    (DP p) (RBI p) (RTime p) (STime p) (WTime p) (start_time p) (numScheduled p).
Definition set_pid (v : Z) (p : proc) : proc :=
  mkproc (state p) (chan p) (killed p) (xstate p) v (parent p) (kstack p) (sz p) (pagetable p)
    (trapframe p) (context p) (ofile p) (cwd p) (name p) (rtime p) (ctime p) (etime p) (SP p)
    (DP p) (RBI p) (RTime p) (STime p) (WTime p) (start_time p) (numScheduled p).
Definition set_parent (v : option nat) (p : proc) : proc :=
  mkproc (state p) (chan p) (killed p) (xstate p) (pid p) v (kstack p) (sz p) (pagetable p)
    (trapframe p) (context p) (ofile p) (cwd p) (name p) (rtime p) (ctime p) (etime p) (SP p)
    (DP p) (RBI p) (RTime p) (STime p) (WTime p) (start_time p) (numScheduled p).
Definition set_kstack (v : Z) (p : proc) : proc :=
  mkproc (state p) (chan p) (killed p) (xstate p) (pid p) (parent p) v (sz p) (pagetable p)
    (trapframe p) (context p) (ofile p) (cwd p) (name p) (rtime p) (ctime p) (etime p) (SP p)
    (DP p) (RBI p) (RTime p) (STime p) (WTime p) (start_time p) (numScheduled p).
Definition set_sz (v : Z) (p : proc) : proc :=
  mkproc (state p) (chan p) (killed p) (xstate p) (pid p) (parent p) (kstack p) v (pagetable p)
    (trapframe p) (context p) (ofile p) (cwd p) (name p) (rtime p) (ctime p) (etime p) (SP p)
    (DP p) (RBI p) (RTime p) (STime p) (WTime p) (start_time p) (numScheduled p).
Definition set_pagetable (v : Z) (p : proc) : proc :=
  mkproc (state p) (chan p) (killed p) (xstate p) (pid p) (parent p) (kstack p) (sz p) v
    (trapframe p) (context p) (ofile p) (cwd p) (name p) (rtime p) (ctime p) (etime p) (SP p)
    (DP p) (RBI p) (RTime p) (STime p) (WTime p) (start_time p) (numScheduled p).
Definition set_trapframe (v : Z) (p : proc) : proc :=
  mkproc (state p) (chan p) (killed p) (xstate p) (pid p) (parent p) (kstack p) (sz p)
    (pagetable p) v (context p) (ofile p) (cwd p) (name p) (rtime p) (ctime p) (etime p) (SP p)
    (DP p) (RBI p) (RTime p) (STime p) (WTime p) (start_time p) (numScheduled p).
Definition set_context (v : ctx) (p : proc) : proc :=
  mkproc (state p) (chan p) (killed p) (xstate p) (pid p) (parent p) (kstack p) (sz p)
    (pagetable p) (trapframe p) v (ofile p) (cwd p) (name p) (rtime p) (ctime p) (etime p) (SP p)
    (DP p) (RBI p) (RTime p) (STime p) (WTime p) (start_time p) (numScheduled p).
Definition set_ofile (v : list Z) (p : proc) : proc :=
  mkproc (state p) (chan p) (killed p) (xstate p) (pid p) (parent p) (kstack p) (sz p)
    (pagetable p) (trapframe p) (context p) v (cwd p) (name p) (rtime p) (ctime p) (etime p)
    (SP p) (DP p) (RBI p) (RTime p) (STime p) (WTime p) (start_time p) (numScheduled p).
Definition set_cwd (v : Z) (p : proc) : proc :=
  mkproc (state p) (chan p) (killed p) (xstate p) (pid p) (parent p) (kstack p) (sz p)
    (pagetable p) (trapframe p) (context p) (ofile p) v (name p) (rtime p) (ctime p) (etime p)
    (SP p) (DP p) (RBI p) (RTime p) (STime p) (WTime p) (start_time p) (numScheduled p).
Definition set_name (v : list Z) (p : proc) : proc :=
  mkproc (state p) (chan p) (killed p) (xstate p) (pid p) (parent p) (kstack p) (sz p)
    (pagetable p) (trapframe p) (context p) (ofile p) (cwd p) v (rtime p) (ctime p) (etime p)
    (SP p) (DP p) (RBI p) (RTime p) (STime p) (WTime p) (start_time p) (numScheduled p).
Definition set_rtime (v : Z) (p : proc) : proc :=
  mkproc (state p) (chan p) (killed p) (xstate p) (pid p) (parent p) (kstack p) (sz p)
    (pagetable p) (trapframe p) (context p) (ofile p) (cwd p) (name p) v (ctime p) (etime p)
    (SP p) (DP p) (RBI p) (RTime p) (STime p) (WTime p) (start_time p) (numScheduled p).
Definition set_ctime (v : Z) (p : proc) : proc :=
  mkproc (state p) (chan p) (killed p) (xstate p) (pid p) (parent p) (kstack p) (sz p)
    (pagetable p) (trapframe p) (context p) (ofile p) (cwd p) (name p) (rtime p) v (etime p)
    (SP p) (DP p) (RBI p) (RTime p) (STime p) (WTime p) (start_time p) (numScheduled p).
Definition set_etime (v : Z) (p : proc) : proc :=
  mkproc (state p) (chan p) (killed p) (xstate p) (pid p) (parent p) (kstack p) (sz p)
    (pagetable p) (trapframe p) (context p) (ofile p) (cwd p) (name p) (rtime p) (ctime p) v
    (SP p) (DP p) (RBI p) (RTime p) (STime p) (WTime p) (start_time p) (numScheduled p).
Definition set_SP (v : Z) (p : proc) : proc :=
  mkproc (state p) (chan p) (killed p) (xstate p) (pid p) (parent p) (kstack p) (sz p)
    (pagetable p) (trapframe p) (context p) (ofile p) (cwd p) (name p) (rtime p) (ctime p)
    (etime p) v (DP p) (RBI p) (RTime p) (STime p) (WTime p) (start_time p) (numScheduled p).
Definition set_DP (v : Z) (p : proc) : proc :=
  mkproc (state p) (chan p) (killed p) (xstate p) (pid p) (parent p) (kstack p) (sz p)
    (pagetable p) (trapframe p) (context p) (ofile p) (cwd p) (name p) (rtime p) (ctime p)
    (etime p) (SP p) v (RBI p) (RTime p) (STime p) (WTime p) (start_time p) (numScheduled p).
Definition set_RBI (v : Z) (p : proc) : proc :=
  mkproc (state p) (chan p) (killed p) (xstate p) (pid p) (parent p) (kstack p) (sz p)
    (pagetable p) (trapframe p) (context p) (ofile p) (cwd p) (name p) (rtime p) (ctime p)
    (etime p) (SP p) (DP p) v (RTime p) (STime p) (WTime p) (start_time p) (numScheduled p).
Definition set_RTime (v : Z) (p : proc) : proc :=
  mkproc (state p) (chan p) (killed p) (xstate p) (pid p) (parent p) (kstack p) (sz p)
    (pagetable p) (trapframe p) (context p) (ofile p) (cwd p) (name p) (rtime p) (ctime p)
    (etime p) (SP p) (DP p) (RBI p) v (STime p) (WTime p) (start_time p) (numScheduled p).
Definition set_STime (v : Z) (p : proc) : proc :=
  mkproc (state p) (chan p) (killed p) (xstate p) (pid p) (parent p) (kstack p) (sz p)
    (pagetable p) (trapframe p) (context p) (ofile p) (cwd p) (name p) (rtime p) (ctime p)
    (etime p) (SP p) (DP p) (RBI p) (RTime p) v (WTime p) (start_time p) (numScheduled p).
Definition set_WTime (v : Z) (p : proc) : proc :=
  mkproc (state p) (chan p) (killed p) (xstate p) (pid p) (parent p) (kstack p) (sz p)
    (pagetable p) (trapframe p) (context p) (ofile p) (cwd p) (name p) (rtime p) (ctime p)
    (etime p) (SP p) (DP p) (RBI p) (RTime p) (STime p) v (start_time p) (numScheduled p).
Definition set_numScheduled (v : Z) (p : proc) : proc :=
  mkproc (state p) (chan p) (killed p) (xstate p) (pid p) (parent p) (kstack p) (sz p)
    (pagetable p) (trapframe p) (context p) (ofile p) (cwd p) (name p) (rtime p) (ctime p)
    (etime p) (SP p) (DP p) (RBI p) (RTime p) (STime p) (WTime p) (start_time p) v.

(** A slot of the table as the loader leaves it: zeroed. *)
Definition proc0 : proc :=
  mkproc UNUSED NoChan 0 0 0 None 0 0 0 0 (mkctx 0 0 (replicate 12 0)) (replicate NOFILE 0) 0
    (replicate 16 0) 0 0 0 0 0 0 0 0 0 0 0.

Record cpu : Type := mkcpu { cpu_proc : option nat }.

Definition NCPU : nat := 8.

Record kernel (F : Type) : Type := mkkernel {
  kvm : vm;
  procs : list proc;
  cpus : list cpu;
  nextpid : Z;
  initproc : option nat;
  ticks : Z;
  kfs : F;
}.
Arguments mkkernel {F}.
Arguments kvm {F}.
Arguments procs {F}.
Arguments cpus {F}.
Arguments nextpid {F}.
Arguments initproc {F}.
Arguments ticks {F}.
Arguments kfs {F}.

(** What [proc.c] uses of the file layer, whose state is [F]: code of [file.c], [fs.c] and
    [log.c] that runs on a hart, over the whole kernel state (closing a pipe frees its page
    and wakes processes). *)
Class FileLayer (F : Type) : Type := {
  filedup : Z -> M (kernel F) Z;
  fileclose : nat -> Z -> M (kernel F) unit;
  idup : Z -> M (kernel F) Z;
  iput : nat -> Z -> M (kernel F) unit;
  begin_op : nat -> M (kernel F) unit;
  end_op : nat -> M (kernel F) unit;
  namei_root : M (kernel F) Z;
}.

(** Offsets in [struct trapframe]. *)
Definition tf_epc : Z := 24.
Definition tf_sp : Z := 48.
Definition tf_a0 : Z := 112.
Definition tf_a1 : Z := 120.
Definition tf_a7 : Z := 168.
Definition tf_size : Z := 288.

Section Code.
Context `{I : Image} {F : Type} `{FS : FileLayer F}.

(** The address of [forkret]. *)
Context (forkret_addr : Z).

Definition set_procs (f : list proc -> list proc) (k : kernel F) : kernel F :=
  mkkernel (kvm k) (f (procs k)) (cpus k) (nextpid k) (initproc k) (ticks k) (kfs k).
Definition set_cpus (f : list cpu -> list cpu) (k : kernel F) : kernel F :=
  mkkernel (kvm k) (procs k) (f (cpus k)) (nextpid k) (initproc k) (ticks k) (kfs k).
Definition set_nextpid (v : Z) (k : kernel F) : kernel F :=
  mkkernel (kvm k) (procs k) (cpus k) v (initproc k) (ticks k) (kfs k).
Definition set_initproc (v : option nat) (k : kernel F) : kernel F :=
  mkkernel (kvm k) (procs k) (cpus k) (nextpid k) v (ticks k) (kfs k).
Definition set_ticks (v : Z) (k : kernel F) : kernel F :=
  mkkernel (kvm k) (procs k) (cpus k) (nextpid k) (initproc k) v (kfs k).

(** Memory and file operations inside the kernel's state. *)
Definition on_vm {A} (m : M vm A) : M (kernel F) A := fun k =>
  match m (kvm k) with
  | Ok (a, s) => Ok (a, mkkernel s (procs k) (cpus k) (nextpid k) (initproc k) (ticks k) (kfs k))
  | Panic msg => Panic msg
  | Diverge => Diverge
  end.

Definition on_fs {A} (m : M F A) : M (kernel F) A := fun k =>
  match m (kfs k) with
  | Ok (a, s) => Ok (a, mkkernel (kvm k) (procs k) (cpus k) (nextpid k) (initproc k) (ticks k) s)
  | Panic msg => Panic msg
  | Diverge => Diverge
  end.

Definition getp {A} (i : nat) (f : proc -> A) : M (kernel F) A :=
  gets (fun k => f (nth i (procs k) proc0)).
Definition modp (i : nat) (f : proc -> proc) : M (kernel F) unit :=
  modify (set_procs (alter f i)).

(** [for (p = proc; p < &proc[NPROC]; p++) body] *)
Fixpoint for_procs (n : nat) (i : nat) (body : nat -> M (kernel F) unit) : M (kernel F) unit :=
  match n with
  | O => ret tt
  | S n' => do! body i in for_procs n' (S i) body
  end.

(** The first slot from [i] on that satisfies [f]. *)
Fixpoint find_proc (n : nat) (i : nat) (f : nat -> proc -> bool) : M (kernel F) (option nat) :=
  match n with
  | O => ret None
  | S n' => let! b := getp i (f i) in
            if (b : bool) then ret (Some i) else find_proc n' (S i) f
  end.

Definition procinit : M (kernel F) unit :=
  for_procs NPROC 0 (fun i =>
    do! modp i (set_state UNUSED) in
    modp i (set_kstack (KSTACK (Z.of_nat i)))).

Definition myproc (c : nat) : M (kernel F) (option nat) :=
  gets (fun k => cpu_proc (nth c (cpus k) (mkcpu None))).

(** Following the pointer [myproc()] returns; a null pointer faults in the kernel. *)
Definition cur (c : nat) : M (kernel F) nat :=
  let! p := myproc c in
  match p with
  | Some i => ret i
  | None => panic "kerneltrap"
  end.

Definition set_cpu_proc (c : nat) (p : option nat) : M (kernel F) unit :=
  modify (set_cpus (alter (fun _ => mkcpu p) c)).

(** [nextpid] is an [int]: the increment wraps around. *)
Definition allocpid : M (kernel F) Z :=
  let! pid := gets nextpid in
  do! modify (set_nextpid (i32 (pid + 1))) in
  ret pid.

Definition proc_pagetable (p : nat) : M (kernel F) Z :=
  let! pagetable := on_vm uvmcreate in
  if pagetable =? 0 then ret 0 else
  let! r := on_vm (mappages pagetable TRAMPOLINE PGSIZE trampoline (Z.lor PTE_R PTE_X)) in
  if r <? 0 then do! on_vm (uvmfree pagetable 0) in ret 0 else
  let! tf := getp p trapframe in
  let! r := on_vm (mappages pagetable TRAPFRAME PGSIZE tf (Z.lor PTE_R PTE_W)) in
  if r <? 0 then
    do! on_vm (uvmunmap pagetable TRAMPOLINE 1 false) in
    do! on_vm (uvmfree pagetable 0) in
    ret 0
  else ret pagetable.

Definition proc_freepagetable (pagetable sz : Z) : M (kernel F) unit :=
  do! on_vm (uvmunmap pagetable TRAMPOLINE 1 false) in
  do! on_vm (uvmunmap pagetable TRAPFRAME 1 false) in
  on_vm (uvmfree pagetable sz).

(** The stores of [freeproc] after the memory is gone, in the order of the source. *)
Definition clear_proc (p : proc) : proc :=
  let p := set_pagetable 0 p in
  let p := set_sz 0 p in
  let p := set_pid 0 p in
  let p := set_parent None p in
  let p := set_name (<[0%nat := 0]> (name p)) p in
  let p := set_chan NoChan p in
  let p := set_killed 0 p in
  let p := set_xstate 0 p in
  let p := set_state UNUSED p in
  let p := set_rtime 0 p in
  let p := set_etime 0 p in
  let p := set_RTime 0 p in
  let p := set_WTime 0 p in
  let p := set_STime 0 p in
  let p := set_numScheduled 0 p in
  set_SP 50 p.

Definition freeproc (p : nat) : M (kernel F) unit :=
  let! tf := getp p trapframe in
  do! (if negb (tf =? 0) then on_vm (kfree tf) else ret tt) in
  do! modp p (set_trapframe 0) in
  let! pt := getp p pagetable in
  let! size := getp p sz in
  do! (if negb (pt =? 0) then proc_freepagetable pt size else ret tt) in
  modp p clear_proc.

(** The initialisation at the end of [allocproc]. *)
Definition init_proc (now : Z) (p : proc) : proc :=
  let p := set_context (mkctx forkret_addr (u64 (kstack p + PGSIZE)) (replicate 12 0)) p in
  let p := set_rtime 0 p in
  let p := set_etime 0 p in
  let p := set_ctime now p in
  let p := set_RTime 0 p in
  let p := set_WTime 0 p in
  let p := set_STime 0 p in
  let p := set_numScheduled 0 p in
  set_SP 50 p.

Definition allocproc : M (kernel F) (option nat) :=
  let! found := find_proc NPROC 0 (fun _ p => bool_decide (state p = UNUSED)) in
  match found with
  | None => ret None
  | Some p =>
      let! pid := allocpid in
      do! modp p (set_pid pid) in
      do! modp p (set_state USED) in
      let! tf := on_vm kalloc in
      do! modp p (set_trapframe tf) in
      if tf =? 0 then do! freeproc p in ret None else
      let! pt := proc_pagetable p in
      do! modp p (set_pagetable pt) in
      if pt =? 0 then do! freeproc p in ret None else
      let! now := gets ticks in
      do! modp p (init_proc now) in
      ret (Some p)
  end.

(** [safestrcpy] between two buffers of [n] bytes outside simulated memory. *)
Fixpoint safestr (n : nat) (dst src : list Z) : list Z :=
  match n, dst, src with
  | S O, _ :: dst', _ => 0 :: dst'
  | S n', _ :: dst', c :: src' => if c =? 0 then 0 :: dst' else c :: safestr n' dst' src'
  | S _, _ :: dst', [] => 0 :: dst'
  | _, _, _ => dst
  end.

Definition initcode : list Z :=
  [0x17; 0x05; 0x00; 0x00; 0x13; 0x05; 0x45; 0x02;
   0x97; 0x05; 0x00; 0x00; 0x93; 0x85; 0x35; 0x02;
   0x93; 0x08; 0x70; 0x00; 0x73; 0x00; 0x00; 0x00;
   0x93; 0x08; 0x20; 0x00; 0x73; 0x00; 0x00; 0x00;
   0xef; 0xf0; 0x9f; 0xff; 0x2f; 0x69; 0x6e; 0x69;
   0x74; 0x00; 0x00; 0x24; 0x00; 0x00; 0x00; 0x00;
   0x00; 0x00; 0x00; 0x00].

(** The characters of "initcode". *)
Definition initcode_name : list Z := [105; 110; 105; 116; 99; 111; 100; 101].

Definition userinit : M (kernel F) unit :=
  let! r := allocproc in
  do! modify (set_initproc r) in
  match r with
  | None => panic "kerneltrap"
  | Some p =>
      let! pt := getp p pagetable in
      do! on_vm (uvmfirst pt initcode) in
      do! modp p (set_sz PGSIZE) in
      let! tf := getp p trapframe in
      do! on_vm (st64 (tf + tf_epc) 0) in
      do! on_vm (st64 (tf + tf_sp) PGSIZE) in
      do! modp p (fun q => set_name (safestr 16 (name q) initcode_name) q) in
      let! dir := namei_root in
      do! modp p (set_cwd dir) in
      modp p (set_state RUNNABLE)
  end.

Definition growproc (c : nat) (n : Z) : M (kernel F) Z :=
  let! p := cur c in
  let! size := getp p sz in
  let! pt := getp p pagetable in
  if 0 <? n then
    let! size' := on_vm (uvmalloc pt size (u64 (size + n)) PTE_W) in
    if size' =? 0 then ret (-1) else
    do! modp p (set_sz size') in ret 0
  else if n <? 0 then
    let! size' := on_vm (uvmdealloc pt size (u64 (size + n))) in
    do! modp p (set_sz size') in ret 0
  else do! modp p (set_sz size) in ret 0.

(** [for (i = 0; i < NOFILE; i++) if (p->ofile[i]) np->ofile[i] = filedup(p->ofile[i]);] *)
Fixpoint dup_files (n i : nat) (p np : nat) : M (kernel F) unit :=
  match n with
  | O => ret tt
  | S n' =>
      let! f := getp p (fun q => nth i (ofile q) 0) in
      do! (if negb (f =? 0) then
             let! g := filedup f in
             modp np (fun q => set_ofile (<[i := g]> (ofile q)) q)
           else ret tt) in
      dup_files n' (S i) p np
  end.

Definition fork (c : nat) : M (kernel F) Z :=
  let! p := cur c in
  let! r := allocproc in
  match r with
  | None => ret (-1)
  | Some np =>
      let! pt := getp p pagetable in
      let! npt := getp np pagetable in
      let! size := getp p sz in
      let! r := on_vm (uvmcowpy pt npt size) in
      if r <? 0 then do! freeproc np in ret (-1) else
      do! modp np (set_sz size) in
      let! tf := getp p trapframe in
      let! ntf := getp np trapframe in
      do! on_vm (do_memmove ntf tf tf_size) in
      do! on_vm (st64 (ntf + tf_a0) 0) in
      do! dup_files NOFILE 0 p np in
      let! dir := getp p cwd in
      let! dir' := idup dir in
      do! modp np (set_cwd dir') in
      let! nm := getp p name in
      do! modp np (fun q => set_name (safestr 16 (name q) nm) q) in
      let! pid := getp np pid in
      do! modp np (set_parent (Some p)) in
      do! modp np (set_state RUNNABLE) in
      ret pid
  end.

(** ** Sleeping and waking *)

(** One slot of [wakeup]'s loop. *)
Definition wake_one (me : option nat) (ch : wchan) (i : nat) (p : proc) : proc :=
  if bool_decide (Some i = me) then p
  else if bool_decide (state p = SLEEPING) && bool_decide (chan p = ch)
  then set_state RUNNABLE p else p.

Definition wakeup (c : nat) (ch : wchan) : M (kernel F) unit :=
  for_procs NPROC 0 (fun i => let! me := myproc c in modp i (wake_one me ch i)).

(** [sleep] up to the call of [sched]; [lk] has been released. *)
Definition sleep (c : nat) (ch : wchan) : M (kernel F) unit :=
  let! p := cur c in
  do! modp p (set_chan ch) in
  modp p (set_state SLEEPING).

(** The rest of [sleep], when the process runs again. *)
Definition sleep_return (c : nat) : M (kernel F) unit :=
  let! p := cur c in
  modp p (set_chan NoChan).

Definition yield (c : nat) : M (kernel F) unit :=
  let! p := cur c in
  modp p (set_state RUNNABLE).

Definition kill (pid_arg : Z) : M (kernel F) Z :=
  let! r := find_proc NPROC 0 (fun _ p => pid p =? pid_arg) in
  match r with
  | None => ret (-1)
  | Some i =>
      do! modp i (set_killed 1) in
      do! modp i (fun p => if bool_decide (state p = SLEEPING) then set_state RUNNABLE p else p) in
      ret 0
  end.

Definition setkilled (p : nat) : M (kernel F) unit := modp p (set_killed 1).
Definition is_killed (p : nat) : M (kernel F) Z := getp p killed.

(** ** Exit and wait *)

Definition reparent (c p : nat) : M (kernel F) unit :=
  for_procs NPROC 0 (fun i =>
    let! pp := getp i parent in
    if bool_decide (pp = Some p) then
      let! init := gets initproc in
      do! modp i (set_parent init) in
      match init with
      | Some j => wakeup c (ChProc j)
      | None => wakeup c NoChan
      end
    else ret tt).

Fixpoint close_files (n fd : nat) (c p : nat) : M (kernel F) unit :=
  match n with
  | O => ret tt
  | S n' =>
      let! f := getp p (fun q => nth fd (ofile q) 0) in
      do! (if negb (f =? 0) then
             do! fileclose c f in
             modp p (fun q => set_ofile (<[fd := 0]> (ofile q)) q)
           else ret tt) in
      close_files n' (S fd) c p
  end.

(** [exit] up to the call of [sched], which does not return. *)
Definition exit (c : nat) (status : Z) : M (kernel F) unit :=
  let! p := cur c in
  let! init := gets initproc in
  if bool_decide (Some p = init) then panic "init exiting" else
  do! close_files NOFILE 0 c p in
  do! begin_op c in
  let! dir := getp p cwd in
  do! iput c dir in
  do! end_op c in
  do! modp p (set_cwd 0) in
  do! reparent c p in
  let! par := getp p parent in
  do! wakeup c (match par with Some j => ChProc j | None => NoChan end) in
  do! modp p (set_xstate status) in
  do! modp p (set_state ZOMBIE) in
  let! now := gets ticks in
  modp p (set_etime now).

(** The bytes of an [int] or [uint] in memory. *)
Definition int_bytes (v : Z) : list Z :=
  (fun i => (u32 v / 256 ^ Z.of_nat i) mod 256) <$> seq 0 4.

(** What one scan of the table in [wait] or [waitx] leads to. *)
Inductive wait_result : Type :=
  | WaitReturn (v : Z) (times : option (Z * Z))
  | WaitSleep.

(** A zombie child in slot [i] was found. [waitx] also stores its times, [rtime] and
    [wtime], before the copy of the status. *)
Definition wait_reap (c p i : nat) (addr : Z) : M (kernel F) wait_result :=
  let! pid := getp i pid in
  let! q := getp i (fun q => q) in
  let times := Some (rtime q, u32 (etime q - ctime q - rtime q)) in
  let! pt := getp p pagetable in
  let! r := (if negb (addr =? 0) then on_vm (copyout pt addr (int_bytes (xstate q))) else ret 0) in
  if r <? 0 then ret (WaitReturn (-1) times) else
  do! freeproc i in
  ret (WaitReturn pid times).

(** The scan: the first zombie child, or whether there are children at all. *)
Fixpoint wait_scan (n i : nat) (c p : nat) (addr : Z) (havekids : bool) : M (kernel F) wait_result :=
  match n with
  | O =>
      let! k := is_killed p in
      if negb havekids || negb (k =? 0) then ret (WaitReturn (-1) None)
      else do! sleep c (ChProc p) in ret WaitSleep
  | S n' =>
      let! pp := getp i parent in
      if bool_decide (pp = Some p) then
        let! st := getp i state in
        if bool_decide (st = ZOMBIE) then wait_reap c p i addr
        else wait_scan n' (S i) c p addr true
      else wait_scan n' (S i) c p addr havekids
  end.

(** One iteration of the loop of [wait], which has no times to report; [WaitSleep] means that
    the process sleeps on its own slot and iterates again when it is scheduled. *)
Definition wait (c : nat) (addr : Z) : M (kernel F) wait_result :=
  let! p := cur c in
  let! r := wait_scan NPROC 0 c p addr false in
  ret (match r with WaitReturn v _ => WaitReturn v None | WaitSleep => WaitSleep end).

(** One iteration of the loop of [waitx]. *)
Definition waitx (c : nat) (addr : Z) : M (kernel F) wait_result :=
  let! p := cur c in
  wait_scan NPROC 0 c p addr false.

(** ** Scheduling *)

(** [swtch] back to the scheduler loop of hart [c], which clears its current process. *)
Definition sched_back (c : nat) : M (kernel F) unit :=
  do! (let! p := cur c in
       let! st := getp p state in
       if bool_decide (st = RUNNING) then panic "sched running" else ret tt) in
  set_cpu_proc c None.

(** The body of the round-robin loop for slot [i]: whether it was switched to. *)
Definition rr_try (c i : nat) : M (kernel F) bool :=
  let! st := getp i state in
  if bool_decide (st = RUNNABLE) then
    do! modp i (set_state RUNNING) in
    do! set_cpu_proc c (Some i) in
    ret true
  else ret false.

(** The round-robin loop from slot [i] on, up to the next switch. *)
Fixpoint rr_scan (n : nat) (c i : nat) : M (kernel F) (option nat) :=
  match n with
  | O => ret None
  | S n' => let! b := rr_try c i in
            if (b : bool) then ret (Some i) else rr_scan n' c (S i)
  end.

(** ** Copies to and from user or kernel memory *)

Definition either_copyout (c : nat) (user_dst : bool) (dst : Z) (src : list Z) : M (kernel F) Z :=
  let! p := cur c in
  if user_dst then let! pt := getp p pagetable in on_vm (copyout pt dst src)
  else do! on_vm (write_bytes dst src) in ret 0.

Definition either_copyin (c : nat) (user_src : bool) (src len : Z) : M (kernel F) (Z * list Z) :=
  let! p := cur c in
  if user_src then let! pt := getp p pagetable in on_vm (copyin pt src len)
  else let! l := on_vm (gets (fun s => bytes_at (mem_of s) src (Z.to_nat len))) in ret (0, l).

End Code.
