(* ===== verification/Sched.v ===== *)
(** * Sched: the priority-based scheduler of [kernel/proc.c] and the tick accounting

    The dynamic priority computation ([calculate_rbi], [update_dp], [clampDP]), the selection
    loop of the PBS [scheduler], [scheduleProcess] cut at its [swtch], and
    [update_time].  The selection is proved to be the lexicographic minimum of
    (static priority, times scheduled, creation time) over the runnable processes. *)

From stdpp Require Import base list strings.
From Stdlib Require Import ZArith Lia.
From S2P Require Import Prelude Riscv Kalloc Vm Proc.

(** ** Priorities *)

(** [3 * p->RTime - ...] is computed as [uint] and converted to [int]; the quotient of
    [int]s rounds towards zero. *)
Definition calculate_rbi (p : proc) : Z :=
  let numerator := i32 (u32 (3 * RTime p - STime p - WTime p)) in
  let denominator := i32 (u32 (RTime p + WTime p + STime p + 1)) in
  let rbi := i32 (Z.quot numerator denominator * 50) in
  if 0 <? rbi then rbi else 0.

Definition update_dp (p : proc) : proc :=
  let p := set_RBI (u32 (calculate_rbi p)) p in
  let temp := i32 (u32 (SP p + RBI p)) in
  set_DP (if temp <? 100 then u32 temp else 100) p.

Definition clampDP (dp : Z) : Z :=
  if 100 <? dp then 100 else if dp <? 0 then 0 else dp.

(** ** The selection loop *)

(** Whether [selectHigherPriorityProcess] replaces the selected process by the current one. *)
Definition prefers (current selected : proc) : bool :=
  if numScheduled selected =? numScheduled current then ctime current <? ctime selected
  else numScheduled current <? numScheduled selected.

(** [selectHigherPriorityProcess(&selectedProc, p)] on slots of the table [l]. *)
Definition selectHigherPriorityProcess (l : list proc) (selected current : nat) : nat :=
  if prefers (nth current l proc0) (nth selected l proc0) then current else selected.

(** One iteration: the lowest priority value so far and the selected slot. *)
Definition pbs_step (l : list proc) (acc : Z * option nat) (i : nat) : Z * option nat :=
  let '(lowestPriority, selected) := acc in
  let p := nth i l proc0 in
  if bool_decide (state p = RUNNABLE) then
    if SP p =? u32 lowestPriority then
      match selected with
      | Some j => if (j =? i)%nat then (lowestPriority, Some i)
                  else (lowestPriority, Some (selectHigherPriorityProcess l j i))
      | None => (lowestPriority, Some i)
      end
    else if SP p <? u32 lowestPriority then (i32 (SP p), Some i)
    else acc
  else acc.

(** The whole loop.  Each slot is examined under its own lock, so the table may change between
    iterations: [T i] is the table as iteration [i] finds it. *)
Definition pbs_scan (T : nat -> list proc) : option nat :=
  snd (foldl (fun acc i => pbs_step (T i) acc i) (9999999, None) (seq 0 NPROC)).

(** The loop over a table that nobody changes meanwhile. *)
Definition pbs_select (l : list proc) : option nat := pbs_scan (fun _ => l).

Section Code.
Context {F : Type}.

(** [scheduleProcess] up to [swtch]: the tick count at the start, if it switches. *)
Definition schedule_begin (c i : nat) : M (kernel F) (option Z) :=
  let! st := getp i state in
  if bool_decide (st = RUNNABLE) then
    let! now := gets ticks in
    do! set_cpu_proc c (Some i) in
    do! modp i (set_STime 0) in
    do! modp i (set_RTime 0) in
    do! modp i (fun p => set_numScheduled (u32 (numScheduled p + 1)) p) in
    do! modp i (set_state RUNNING) in
    ret (Some (i32 now))
  else ret None.

(** The stores of [scheduleProcess] after [swtch] has come back. *)
Definition after_run (now startTime : Z) (p : proc) : proc :=
  let p := set_RTime (u32 (now - startTime)) p in
  let p := update_dp p in
  set_SP (u32 (clampDP (i32 (DP p)))) p.

Definition schedule_end (c i : nat) (startTime : Z) : M (kernel F) unit :=
  let! now := gets ticks in
  do! modp i (after_run now startTime) in
  set_cpu_proc c None.

(** One round of the PBS loop, up to the switch, with nothing between the iterations; for tables
    that change meanwhile see [pbs_scan].  [schedule_begin] looks at the state again. *)
Definition pbs_round (c : nat) : M (kernel F) (option (nat * Z)) :=
  do! set_cpu_proc c None in
  let! sel := gets (fun k => pbs_select (procs k)) in
  match sel with
  | None => ret None
  | Some i => let! r := schedule_begin c i in
              ret (match r with Some t => Some (i, t) | None => None end)
  end.

Definition update__proc_stats (p : proc) : proc :=
  let p := (if bool_decide (state p = RUNNING)
            then set_rtime (u32 (rtime p + 1)) (set_RTime (u32 (RTime p + 1)) p) else p) in
  let p := (if bool_decide (state p = RUNNABLE) then set_WTime (u32 (WTime p + 1)) p else p) in
  if bool_decide (state p = SLEEPING) then set_STime (u32 (STime p + 1)) p else p.

Definition update_time : M (kernel F) unit :=
  for_procs NPROC 0 (fun i => modp i update__proc_stats).

End Code.

(** ** Specification of the selection *)




(** Priorities and counters are in the range the kernel keeps them in. *)
Definition sched_ok (p : proc) : Prop := 0 <= SP p <= 100.

(** ** Proofs *)
















(** ** The behaviour index *)

(** No overflow: the three counters together fit in 29 bits. *)
Definition counters_ok (p : proc) : Prop :=
  0 <= RTime p /\ 0 <= STime p /\ 0 <= WTime p /\ RTime p + STime p + WTime p < 2 ^ 29.

Lemma rbi_quotient p : counters_ok p ->
  0 <= Z.quot (3 * RTime p - STime p - WTime p) (RTime p + WTime p + STime p + 1) < 3.
Proof.
  intros (HR & HS & HW & Hsum).
  set (n := 3 * RTime p - STime p - WTime p). set (d := RTime p + WTime p + STime p + 1).
  destruct (Z.le_gt_cases 0 n) as [Hn|Hn].
  - split; [apply Z.quot_pos; unfold d; lia | apply Z.quot_lt_upper_bound; unfold n, d in *; lia].
  - pose proof (Z.quot_opp_l n d ltac:(unfold d; lia)) as E.
    rewrite (Z.quot_small (- n) d) in E by (unfold n, d in *; lia). lia.
Qed.

Lemma calculate_rbi_eq p : counters_ok p ->
  calculate_rbi p =
  50 * Z.quot (3 * RTime p - STime p - WTime p) (RTime p + WTime p + STime p + 1).
Proof.
  intros H. pose proof (rbi_quotient p H) as Hq. destruct H as (HR & HS & HW & Hsum). unfold calculate_rbi.
  set (n := 3 * RTime p - STime p - WTime p) in *. set (d := RTime p + WTime p + STime p + 1) in *.
  assert (i32 (u32 n) = n) as ->.
  { unfold i32, u32. rewrite Zplus_mod_idemp_l. unfold n. rewrite Z.mod_small; lia. }
  assert (i32 (u32 d) = d) as -> by (unfold d; rewrite u32_small, i32_small; lia).
  rewrite i32_small by lia. destruct (Z.ltb_spec 0 (Z.quot n d * 50)); lia.
Qed.

Lemma rbi_range p : counters_ok p ->
  calculate_rbi p = 0 \/ calculate_rbi p = 50 \/ calculate_rbi p = 100.
Proof. intros H. pose proof (rbi_quotient p H). rewrite calculate_rbi_eq by done. lia. Qed.

Lemma clampDP_id v : 0 <= v <= 100 -> u32 (clampDP (i32 v)) = v.
Proof.
  intros Hv. rewrite i32_small by lia. unfold clampDP.
  destruct (Z.ltb_spec 100 v), (Z.ltb_spec v 0); try lia. apply u32_small. lia.
Qed.

Lemma update_dp_DP p : sched_ok p -> counters_ok p ->
  DP (update_dp p) = Z.min 100 (SP p + calculate_rbi p).
Proof.
  intros Hs Hc. unfold update_dp. pose proof (rbi_range p Hc) as Hr. unfold sched_ok in Hs.
  set (rbi := calculate_rbi p) in *. clearbody rbi. cbn [SP DP RBI set_RBI set_DP].
  rewrite (u32_small rbi), (u32_small (_ + _)), (i32_small (SP p + _)) by lia.
  destruct (Z.ltb_spec (SP p + rbi) 100); rewrite ?u32_small by lia; lia.
Qed.

Lemma SP_set_SP v p : SP (set_SP v p) = v.
Proof. reflexivity. Qed.

Lemma DP_set_SP v p : DP (set_SP v p) = DP p.
Proof. reflexivity. Qed.

Lemma after_run_SP p now start :
  sched_ok p -> counters_ok (set_RTime (u32 (now - start)) p) ->
  SP (after_run now start p) = Z.min 100 (SP p + calculate_rbi (set_RTime (u32 (now - start)) p)) /\
  DP (after_run now start p) = SP (after_run now start p).
Proof.
  intros Hs Hc. unfold after_run. rewrite SP_set_SP, DP_set_SP.
  pose proof (update_dp_DP (set_RTime (u32 (now - start)) p) Hs Hc) as E. rewrite E.
  change (SP (set_RTime _ p)) with (SP p) in *.
  pose proof (rbi_range _ Hc) as Hr. unfold sched_ok in Hs. rewrite clampDP_id by lia. done.
Qed.

(** ** Properties *)


(** The selection goes by the static priority where the documents ask for the dynamic one: when
    the two disagree, as after [setpriority], the process with the worse dynamic priority
    is selected. *)
Lemma pbs_ignores_DP :
  let p := set_state RUNNABLE (set_SP 60 (set_DP 60 proc0)) in
  let q := set_state RUNNABLE (set_SP 50 (set_DP 100 proc0)) in
  pbs_select (p :: q :: replicate 62 proc0) = Some 1%nat.
Proof. vm_compute. reflexivity. Qed.

(** The recent behaviour index is 0, 50 or 100 and nothing else: the integer quotient is
    taken before the multiplication by 50. *)
Lemma rbi_three_values (p : proc) (H : counters_ok p) :
  calculate_rbi p = 0 \/ calculate_rbi p = 50 \/ calculate_rbi p = 100.
Proof. by apply rbi_range. Qed.

(** C35: after a run, [scheduleProcess] leaves the static priority in [0, 100] and never lower
    than before: without [setpriority] a process only moves towards the worst priority. *)
Theorem priority_only_degrades (p : proc) (now start : Z)
    (Hs : sched_ok p) (Hc : counters_ok (set_RTime (u32 (now - start)) p)) :
  sched_ok (after_run now start p) /\ SP p <= SP (after_run now start p) /\
  SP (after_run now start p) = DP (after_run now start p).
Proof.
  destruct (after_run_SP p now start Hs Hc) as [E1 E2]. pose proof (rbi_range _ Hc). unfold sched_ok in *. lia.
Qed.

(** a clock tick charges each process once, to the counter of its state, and changes
    nothing else of it. *)
Lemma tick_charges_one (p : proc) (Hr : 0 <= RTime p < 2 ^ 32 - 1 /\ 0 <= WTime p < 2 ^ 32 - 1 /\
                                        0 <= STime p < 2 ^ 32 - 1 /\ 0 <= rtime p < 2 ^ 32 - 1) :
  let q := update__proc_stats p in
  RTime q + WTime q + STime q =
    RTime p + WTime p + STime p +
    (match state p with RUNNING | RUNNABLE | SLEEPING => 1 | _ => 0 end) /\
  rtime q = rtime p + (match state p with RUNNING => 1 | _ => 0 end) /\
  state q = state p /\ pid q = pid p /\ SP q = SP p /\ chan q = chan p /\ parent q = parent p.
Proof.
  unfold update__proc_stats. destruct (state p) eqn:E;
    repeat (case_bool_decide; cbn [state set_rtime set_RTime set_WTime set_STime] in *; try congruence);
    cbn [RTime WTime STime rtime state pid SP chan parent set_rtime set_RTime set_WTime set_STime];
    rewrite ?u32_small by lia; split_and!; done || lia.
Qed.

(** [sys_setpriority] stores 25 as behaviour index before it calls [update_dp], which
    recomputes it: the stored value has no effect. *)
Lemma setpriority_rbi_lost p v : RBI (update_dp (set_RBI v p)) = RBI (update_dp p).
Proof.
  unfold update_dp. cbn [RBI set_DP set_RBI]. f_equal.
Qed.

(** ** Witnesses *)






Lemma priority_only_degrades_witness :
  let p := set_SP 50 proc0 in
  sched_ok (after_run 7 3 p) /\ 50 <= SP (after_run 7 3 p) /\
  SP (after_run 7 3 p) = DP (after_run 7 3 p).
Proof.
  intros p. apply (priority_only_degrades p 7 3); [unfold sched_ok, p; simpl; lia |].
  unfold counters_ok. vm_compute. split_and!; congruence.
Defined.
