(* ===== verification/ProcLife.v ===== *)
(** * ProcLife: the life cycle of processes

    Each operation of [Proc.v] is related to its effect on an abstract table that keeps of a
    process only its state, sleep channel, pid and parent.  [kstep] is the
    interleaving of whole operations on all harts; [life_inv] is the invariant of every
    reachable table: distinct pids, each running process on exactly one hart, every live
    process with a living parent, so that a zombie can always be reaped. *)

From stdpp Require Import base list strings.
From Stdlib Require Import ZArith Lia.
From S2P Require Import Prelude Riscv Mem Kalloc Vm Proc Sched.

(** ** The abstract table *)

Record pcore : Type := Core {
  c_state : procstate;
  c_chan : wchan;
  c_pid : Z;
  c_parent : option nat;
}.

Definition core (p : proc) : pcore := Core (state p) (chan p) (pid p) (parent p).

Record astate : Type := Abs {
  tab : list pcore;
  on : list (option nat);
  npid : Z;
  ini : option nat;
}.

Definition free_core : pcore := Core UNUSED NoChan 0 None.
Definition with_state (s : procstate) (c : pcore) : pcore := Core s (c_chan c) (c_pid c) (c_parent c).
Definition with_parent (j : option nat) (c : pcore) : pcore := Core (c_state c) (c_chan c) (c_pid c) j.
Definition with_chan (ch : wchan) (c : pcore) : pcore := Core (c_state c) ch (c_pid c) (c_parent c).

Definition upd_tab (f : list pcore -> list pcore) (a : astate) : astate :=
  Abs (f (tab a)) (on a) (npid a) (ini a).

Section Life.
Context `{I : Image} {F : Type} `{FS : FileLayer F} (fra : Z).

Definition absk (k : kernel F) : astate :=
  Abs (core <$> procs k) (cpu_proc <$> cpus k) (nextpid k) (initproc k).

(** [m] changes the abstract table by [f], when it returns. *)
Definition effect {A} (m : M (kernel F) A) (f : astate -> astate) : Prop :=
  forall k a k', m k = Ok (a, k') -> absk k' = f (absk k).

(** [m] does not change the abstract table. *)
Definition frames {A} (m : M (kernel F) A) : Prop := effect m (fun a => a).

Lemma frames_ret {A} (x : A) : frames (ret x).
Proof. intros k a k' [= <- <-]. done. Qed.

Lemma frames_gets {A} (f : kernel F -> A) : frames (gets f).
Proof. intros k a k' [= <- <-]. done. Qed.

Lemma frames_panic {A} msg : frames (A := A) (panic msg).
Proof. intros k a k' [=]. Qed.

Lemma frames_on_vm {A} (m : M vm A) : frames (on_vm m).
Proof. intros k a k'. unfold on_vm. destruct (m (kvm k)) as [[x s]| |]; naive_solver. Qed.

Lemma frames_on_fs {A} (m : M F A) : frames (on_fs m).
Proof. intros k a k'. unfold on_fs. destruct (m (kfs k)) as [[x s]| |]; naive_solver. Qed.

Lemma effect_bind {A B} (m : M (kernel F) A) (n : A -> M (kernel F) B) f g :
  effect m f -> (forall a, effect (n a) g) -> effect (bind m n) (fun x => g (f x)).
Proof.
  intros Hm Hn k b k' (a & s & H1 & H2)%bind_Ok_inv.
  rewrite (Hn a _ _ _ H2). by rewrite (Hm _ _ _ H1).
Qed.

Lemma frames_bind {A B} (m : M (kernel F) A) (n : A -> M (kernel F) B) f :
  frames m -> (forall a, effect (n a) f) -> effect (bind m n) f.
Proof. apply effect_bind. Qed.

Lemma frames_if {A} (b : bool) (m n : M (kernel F) A) f :
  effect m f -> effect n f -> effect (if b then m else n) f.
Proof. by destruct b. Qed.

Lemma effect_modp i f g :
  (forall p, core (f p) = g (core p)) -> effect (modp i f) (upd_tab (alter g i)).
Proof.
  intros H k a k' [= <- <-]. unfold absk, upd_tab. simpl. f_equal. by apply fmap_alter.
Qed.

Lemma frames_modp i f : (forall p, core (f p) = core p) -> frames (modp i f).
Proof.
  intros H k a k' Hr. pose proof (effect_modp i f (fun c => c) H k a k' Hr) as ->.
  unfold upd_tab. rewrite alter_id. by destruct (absk k).
Qed.
End Life.

Create HintDb frames.
#[export] Hint Resolve frames_ret frames_gets frames_panic frames_on_vm frames_on_fs : frames.

(** Show that straight-line code frames the abstract table. *)
Ltac framed :=
  repeat match goal with
  | |- forall _, _ => intros ?
  | |- effect (bind _ _) (fun a => a) => apply frames_bind
  | |- frames (bind _ _) => apply frames_bind
  | |- effect (if _ then _ else _) _ => apply frames_if
  | |- frames (if _ then _ else _) => apply frames_if
  | |- frames (getp _ _) => apply frames_gets
  | |- effect (getp _ _) (fun a => a) => apply frames_gets
  | |- effect (modp _ _) (fun a => a) => apply frames_modp; reflexivity
  | |- frames (modp _ _) => apply frames_modp; reflexivity
  | |- effect ?m (fun a => a) => change (frames m); solve [auto with frames]
  | |- frames _ => solve [auto with frames]
  end.

(** The table after some sleeping processes have been made runnable. *)
Definition relaxed (l l' : list pcore) : Prop :=
  Forall2 (fun p p' => p' = p \/ (c_state p = SLEEPING /\ p' = with_state RUNNABLE p)) l l'.

Lemma relaxed_refl l : relaxed l l.
Proof. apply Forall2_same_length_lookup_2; [done |]. intros i x y Hx Hy. left. congruence. Qed.

Lemma relaxed_trans l1 l2 l3 : relaxed l1 l2 -> relaxed l2 l3 -> relaxed l1 l3.
Proof.
  unfold relaxed. rewrite !Forall2_same_length_lookup. intros [L1 H1] [L2 H2]. split; [lia |].
  intros i x z Hx Hz. assert (is_Some (l2 !! i)) as [y Hy].
  { apply lookup_lt_is_Some_2. apply lookup_lt_Some in Hx. lia. }
  destruct (H1 i x y Hx Hy) as [->|[Hs ->]]; [by eapply H2 |].
  right. split; [done |]. by destruct (H2 i _ z Hy Hz) as [->|[? _]].
Qed.

Section Relax.
Context {F : Type}.

(** [m] at most makes sleeping processes runnable. *)
Definition relaxes {A} (m : M (kernel F) A) : Prop :=
  forall k a k', m k = Ok (a, k') -> exists l, relaxed (tab (absk k)) l /\ absk k' = upd_tab (fun _ => l) (absk k).

Lemma relaxes_frames {A} (m : M (kernel F) A) : frames m -> relaxes m.
Proof. intros H k a k' Hm%H. exists (tab (absk k)). split; [apply relaxed_refl |]. rewrite Hm. by destruct (absk k). Qed.

Lemma relaxes_bind {A B} (m : M (kernel F) A) (n : A -> M (kernel F) B) :
  relaxes m -> (forall a, relaxes (n a)) -> relaxes (bind m n).
Proof.
  intros Hm Hn k b k' (a & k1 & (l1 & Hl1 & E1)%Hm & (l2 & Hl2 & E2)%Hn)%bind_Ok_inv.
  rewrite E1 in E2, Hl2. exists l2. split; [by eapply relaxed_trans | done].
Qed.

Lemma relaxes_if {A} (b : bool) (m n : M (kernel F) A) : relaxes m -> relaxes n -> relaxes (if b then m else n).
Proof. by destruct b. Qed.

End Relax.

(** What the process layer relies on: taking a reference leaves the process table alone, and
    giving one up, or a transaction, at most wakes processes. *)
Class FileLayerOk (F : Type) {FS : FileLayer F} : Prop := {
  filedup_frames f : frames (filedup f);
  idup_frames i : frames (idup i);
  namei_root_frames : frames namei_root;
  fileclose_relaxes c f : relaxes (fileclose c f);
  iput_relaxes c i : relaxes (iput c i);
  begin_op_relaxes c : relaxes (begin_op c);
  end_op_relaxes c : relaxes (end_op c);
}.

#[export] Hint Resolve filedup_frames idup_frames namei_root_frames : frames.

Section Life2.
Context `{I : Image} {F : Type} `{FS : FileLayer F} {FO : FileLayerOk F} (fra : Z).

Lemma frames_proc_pagetable p : frames (F := F) (proc_pagetable p).
Proof. unfold proc_pagetable. framed. Qed.

Lemma frames_proc_freepagetable pt sz : frames (F := F) (proc_freepagetable pt sz).
Proof. unfold proc_freepagetable. framed. Qed.

Lemma frames_dup_files n i p np : frames (dup_files n i p np).
Proof. revert i. induction n as [|n IH]; intros i; simpl; framed. Qed.

#[local] Hint Resolve frames_proc_pagetable frames_proc_freepagetable frames_dup_files : frames.

Lemma relaxes_close_files n i c p : relaxes (close_files n i c p).
Proof.
  revert i. induction n as [|n IH]; intros i; simpl; [apply relaxes_frames, frames_ret |].
  apply relaxes_bind; [apply relaxes_frames, frames_gets | intros f]. apply relaxes_bind; [| done].
  apply relaxes_if; [| apply relaxes_frames, frames_ret].
  apply relaxes_bind; [apply fileclose_relaxes | intros _]. by apply relaxes_frames, frames_modp.
Qed.

Lemma freeproc_effect i : effect (F := F) (freeproc i) (upd_tab (alter (fun _ => free_core) i)).
Proof.
  unfold freeproc. do 6 (apply frames_bind; [framed | intros ?]). by apply effect_modp.
Qed.

(** ** Searching the table *)

Fixpoint find_from (n i : nat) (f : nat -> proc -> bool) (l : list proc) : option nat :=
  match n with
  | O => None
  | S n' => if f i (nth i l proc0) then Some i else find_from n' (S i) f l
  end.

Lemma find_proc_eq n i f (k : kernel F) : find_proc n i f k = Ok (find_from n i f (procs k), k).
Proof.
  revert i. induction n as [|n IH]; intros i; simpl; [done |].
  unfold getp. rewrite bind_gets. destruct (f i _); [done | apply IH].
Qed.

Lemma find_from_Some n i f l j :
  find_from n i f l = Some j ->
  (i <= j < i + n)%nat /\ f j (nth j l proc0) = true /\
  forall h, (i <= h < j)%nat -> f h (nth h l proc0) = false.
Proof.
  revert i. induction n as [|n IH]; intros i; simpl; [done |]. destruct (f i _) eqn:E.
  - intros [= <-]. split_and!; [lia | lia | done | lia].
  - intros (H1 & H2 & H3)%IH. split_and!; [lia | lia | done |].
    intros h Hh. destruct (decide (h = i)) as [->|]; [done | apply H3; lia].
Qed.

Lemma find_from_None n i f l :
  find_from n i f l = None -> forall h, (i <= h < i + n)%nat -> f h (nth h l proc0) = false.
Proof.
  revert i. induction n as [|n IH]; intros i; simpl; [lia |]. destruct (f i _) eqn:E; [done |].
  intros H h Hh. destruct (decide (h = i)) as [->|]; [done | apply (IH (S i) H); lia].
Qed.

(** ** Loops over the table *)

Fixpoint map_range {A} (n i : nat) (f : nat -> A -> A) (l : list A) : list A :=
  match n with
  | O => l
  | S n' => map_range n' (S i) f (alter (f i) i l)
  end.

Lemma map_range_lookup {A} n i (f : nat -> A -> A) l j :
  map_range n i f l !! j = if decide (i <= j < i + n)%nat then f j <$> l !! j else l !! j.
Proof.
  revert i l. induction n as [|n IH]; intros i l; simpl.
  - by rewrite decide_False by lia.
  - rewrite IH, list_lookup_alter. destruct (decide (i = j)) as [->|Hne].
    + rewrite decide_False, decide_True by lia. done.
    + destruct (decide (S i <= j < S i + n)%nat); [rewrite decide_True by lia | rewrite decide_False by lia]; done.
Qed.

Lemma map_range_imap {A} (f : nat -> A -> A) (l : list A) : map_range (length l) 0 f l = imap f l.
Proof.
  apply list_eq. intros j. rewrite map_range_lookup, list_lookup_imap. simpl.
  destruct (l !! j) as [x|] eqn:E; [rewrite decide_True by (apply lookup_lt_Some in E; lia) |]; [done |].
  by case_decide.
Qed.

Lemma for_modp n i f (k : kernel F) :
  for_procs n i (fun j => modp j (f j)) k = Ok (tt, set_procs (map_range n i f) k).
Proof.
  revert i k. induction n as [|n IH]; intros i k; simpl; [by destruct k |].
  unfold modp at 1. rewrite bind_modify, IH. done.
Qed.

Lemma for_procs_ext n i (f g : nat -> M (kernel F) unit) (P : kernel F -> Prop) k :
  (forall j k, P k -> f j k = g j k) -> (forall j k k', P k -> g j k = Ok (tt, k') -> P k') -> P k ->
  for_procs n i f k = for_procs n i g k.
Proof.
  intros Hfg Hp. revert i k. induction n as [|n IH]; intros i k Hk; simpl; [done |].
  unfold bind. rewrite Hfg by done. destruct (g i k) as [[[] k']| |] eqn:E; [| done..]. eauto.
Qed.

(** The process running on hart [c]. *)
Definition cpu_of (k : kernel F) (c : nat) : option nat := cpu_proc (nth c (cpus k) (mkcpu None)).

Lemma wakeup_eq c ch (k : kernel F) :
  wakeup c ch k = Ok (tt, set_procs (map_range NPROC 0 (wake_one (cpu_of k c) ch)) k).
Proof.
  rewrite <- for_modp. unfold wakeup.
  apply (for_procs_ext _ _ _ _ (fun k' => cpu_of k' c = cpu_of k c)); [| | done].
  - intros j k' <-. done.
  - intros j k' k'' <- [= <-]. done.
Qed.

(** ** Abstract effects *)

(** The process on hart [c] in the abstract state. *)
Definition aon (a : astate) (c : nat) : option nat := default None (on a !! c).

Lemma cpu_of_abs k c : cpu_of k c = aon (absk k) c.
Proof. unfold cpu_of, aon, absk. simpl. rewrite nth_lookup, list_lookup_fmap. by destruct (cpus k !! c). Qed.

Definition wake_core (me : option nat) (ch : wchan) (i : nat) (p : pcore) : pcore :=
  if bool_decide (Some i = me) then p
  else if bool_decide (c_state p = SLEEPING) && bool_decide (c_chan p = ch)
  then with_state RUNNABLE p else p.

Lemma fmap_map_range {A B} (h : A -> B) n i f g (l : list A) :
  (forall j x, h (f j x) = g j (h x)) -> h <$> map_range n i f l = map_range n i g (h <$> l).
Proof.
  intros H. revert i l. induction n as [|n IH]; intros i l; simpl; [done |].
  rewrite IH. f_equal. apply fmap_alter. apply H.
Qed.

Lemma core_wake me ch i p : core (wake_one me ch i p) = wake_core me ch i (core p).
Proof. unfold wake_one, wake_core. simpl. repeat case_bool_decide; done. Qed.

Lemma wakeup_abs c ch (k k' : kernel F) :
  wakeup c ch k = Ok (tt, k') ->
  absk k' = upd_tab (map_range NPROC 0 (wake_core (aon (absk k) c) ch)) (absk k).
Proof.
  rewrite wakeup_eq. intros [_ <-]%Ok_inv. rewrite <- cpu_of_abs. unfold absk at 1, upd_tab.
  cbn [procs cpus nextpid initproc set_procs tab on npid ini absk]. f_equal. apply fmap_map_range. intros. apply core_wake.
Qed.

Lemma map_range_length {A} n i (f : nat -> A -> A) l : length (map_range n i f l) = length l.
Proof. revert i l. induction n as [|n IH]; intros i l; simpl; [done |]. by rewrite IH, length_alter. Qed.

Lemma relaxed_wake me ch n i l : relaxed l (map_range n i (wake_core me ch) l).
Proof.
  apply Forall2_same_length_lookup_2; [by rewrite map_range_length |]. intros j x y Hx Hy.
  rewrite map_range_lookup, Hx in Hy. simpl in Hy. case_decide; [| left; congruence].
  injection Hy as <-. unfold wake_core. repeat case_bool_decide; simpl; auto.
Qed.

Lemma wakeup_relaxed c ch (k k' : kernel F) :
  wakeup c ch k = Ok (tt, k') -> exists l, relaxed (tab (absk k)) l /\ absk k' = upd_tab (fun _ => l) (absk k).
Proof. intros H%wakeup_abs. eexists. split; [| exact H]. apply relaxed_wake. Qed.

(** [allocproc], up to the fields the abstract table keeps. *)
Lemma allocproc_abs (k : kernel F) r k' :
  allocproc fra k = Ok (r, k') ->
  match r with
  | Some i =>
      (i < NPROC)%nat /\ state (nth i (procs k) proc0) = UNUSED /\
      absk k' = Abs (alter (fun p => Core USED (c_chan p) (npid (absk k)) (c_parent p)) i (tab (absk k)))
                    (on (absk k)) (i32 (npid (absk k) + 1)) (ini (absk k))
  | None =>
      absk k' = absk k \/
      exists i, (i < NPROC)%nat /\ state (nth i (procs k) proc0) = UNUSED /\
        absk k' = Abs (alter (fun _ => free_core) i (tab (absk k))) (on (absk k))
                      (i32 (npid (absk k) + 1)) (ini (absk k))
  end.
Proof.
  unfold allocproc. rewrite (bind_ok _ _ _ _ _ (find_proc_eq _ _ _ _)).
  destruct (find_from _ _ _ _) as [i|] eqn:Hf; [| intros [= <- <-]; by left].
  apply find_from_Some in Hf as (Hi & Hun%bool_decide_eq_true & _). unfold allocpid.
  rewrite bind_assoc, bind_gets, bind_assoc, bind_modify, bind_ret. unfold modp at 1 2.
  rewrite !bind_modify. set (k1 := set_procs (alter (set_state USED) i) _).
  assert (absk k1 = Abs (alter (fun p => Core USED (c_chan p) (npid (absk k)) (c_parent p)) i (tab (absk k)))
                        (on (absk k)) (i32 (npid (absk k) + 1)) (ini (absk k))) as E1.
  { unfold absk. simpl. f_equal. rewrite alter_twice. by apply fmap_alter. }
  intros (tf & k2 & H2%frames_on_vm & H)%bind_Ok_inv.
  apply bind_Ok_inv in H as ([] & k3 & H3%frames_modp & H); [| done].
  assert (forall k4 : kernel F, absk k4 = absk k1 -> forall k5, freeproc i k4 = Ok (tt, k5) ->
    absk k5 = Abs (alter (fun _ => free_core) i (tab (absk k))) (on (absk k))
                  (i32 (npid (absk k) + 1)) (ini (absk k))) as Hfree.
  { intros k4 E4 k5 ->%freeproc_effect. rewrite E4, E1. unfold upd_tab. simpl. by rewrite alter_twice. }
  destruct (tf =? 0).
  { apply bind_Ok_inv in H as ([] & k4 & H4 & [= <- <-]). right. exists i. split_and!; [lia | done |].
    eapply Hfree; [| done]. congruence. }
  apply bind_Ok_inv in H as (pt & k4 & H4%frames_proc_pagetable & H).
  apply bind_Ok_inv in H as ([] & k5 & H5%frames_modp & H); [| done]. destruct (pt =? 0).
  { apply bind_Ok_inv in H as ([] & k6 & H6 & [= <- <-]). right. exists i. split_and!; [lia | done |].
    eapply Hfree; [| done]. congruence. }
  rewrite bind_gets in H. apply bind_Ok_inv in H as ([] & k6 & H6%frames_modp & [= <- <-]); [| done].
  split_and!; [lia | done |]. congruence.
Qed.

(** [uvmcowpy] returns an unsigned value: it is never negative. *)
Lemma uvmcowpy_loop_nonneg n old new i size s r s' :
  uvmcowpy_loop n old new i size s = Ok (r, s') -> 0 <= r.
Proof.
  revert i s. induction n as [|n IH]; intros i s; simpl; destruct (i <? size); simpl; intros H; try done;
    try (injection H as <- <-; lia).
  apply bind_Ok_inv in H as (pte & s1 & _ & H). destruct (pte =? 0); [done |].
  apply bind_Ok_inv in H as (v & s2 & _ & H). destruct (negb _); [done |].
  apply bind_Ok_inv in H as ([] & s3 & _ & H). apply bind_Ok_inv in H as ([] & s4 & _ & H).
  apply bind_Ok_inv in H as (v2 & s5 & _ & H). apply bind_Ok_inv in H as (res & s6 & _ & H).
  destruct (res <? 0); [| by eapply IH].
  apply bind_Ok_inv in H as ([] & s7 & _ & [= <- <-]). apply u64_range.
Qed.

(** [fork]: no slot or no memory, or a runnable child with a fresh pid and the caller
    as parent. *)
Lemma fork_abs c (k : kernel F) r k' :
  fork fra c k = Ok (r, k') ->
  exists p, aon (absk k) c = Some p /\
   ((r = -1 /\ (absk k' = absk k \/
      exists i, (i < NPROC)%nat /\ state (nth i (procs k) proc0) = UNUSED /\
        absk k' = Abs (alter (fun _ => free_core) i (tab (absk k))) (on (absk k))
                      (i32 (npid (absk k) + 1)) (ini (absk k)))) \/
    (exists i, (i < NPROC)%nat /\ state (nth i (procs k) proc0) = UNUSED /\
        absk k' = Abs (alter (fun q => Core RUNNABLE (c_chan q) (npid (absk k)) (Some p)) i (tab (absk k)))
                      (on (absk k)) (i32 (npid (absk k) + 1)) (ini (absk k)))).
Proof.
  unfold fork, cur, myproc. rewrite bind_assoc, bind_gets. change (cpu_proc _) with (cpu_of k c).
  rewrite <- cpu_of_abs. destruct (cpu_of k c) as [p|]; [| done]. rewrite bind_ret.
  intros (r0 & k1 & H1%allocproc_abs & H)%bind_Ok_inv. exists p. split; [done |].
  destruct r0 as [i|]; [| injection H as <- <-; by left]. destruct H1 as (Hi & Hun & E1). right.
  exists i. split_and!; [done | done |]. unfold getp in H. repeat rewrite bind_gets in H.
  apply bind_Ok_inv in H as (cr & k2 & H2 & H). pose proof (frames_on_vm _ _ _ _ H2) as E2.
  assert (0 <= cr) as Hcr.
  { unfold on_vm in H2. destruct (uvmcowpy _ _ _ _) as [[x s]| |] eqn:E; [| done..].
    injection H2 as -> _. by eapply uvmcowpy_loop_nonneg. }
  destruct (Z.ltb_spec cr 0); [lia |].
  apply bind_Ok_inv in H as ([] & k3 & H3%frames_modp & H); [| done]. repeat rewrite bind_gets in H.
  apply bind_Ok_inv in H as ([] & k4 & H4%frames_on_vm & H).
  apply bind_Ok_inv in H as ([] & k5 & H5%frames_on_vm & H).
  apply bind_Ok_inv in H as ([] & k6 & H6%frames_dup_files & H). repeat rewrite bind_gets in H.
  apply bind_Ok_inv in H as (dir & k7 & H7%idup_frames & H).
  apply bind_Ok_inv in H as ([] & k8 & H8%frames_modp & H); [| done]. repeat rewrite bind_gets in H.
  apply bind_Ok_inv in H as ([] & k9 & H9%frames_modp & H); [| done]. repeat rewrite bind_gets in H.
  apply bind_Ok_inv in H as ([] & k10 & H10%(effect_modp _ _ (with_parent (Some p))) & H); [| done].
  apply bind_Ok_inv in H as ([] & k11 & H11%(effect_modp _ _ (with_state RUNNABLE)) & [= <- <-]); [| done].
  assert (absk k9 = absk k1) as E9 by congruence. rewrite H11, H10, E9, E1. unfold upd_tab. simpl.
  by rewrite !alter_twice.
Qed.

End Life2.
