(* ===== verification/ProcInv.v ===== *)
(** * ProcInv: the invariant of the process table over all interleavings

    [kstep] is one whole kernel operation on some hart; [reachable] starts after [procinit]
    and [userinit].  [life_inv] holds of every reachable table. *)

From stdpp Require Import base list strings relations.
From Stdlib Require Import ZArith Lia.
From S2P Require Import Prelude Riscv Mem Kalloc Vm Proc Sched ProcLife.

(** A process that can still run. *)
Definition alive (p : pcore) : Prop :=
  c_state p = SLEEPING \/ c_state p = RUNNABLE \/ c_state p = RUNNING.

Lemma alive_used p : alive p -> c_state p <> UNUSED.
Proof. by intros [->|[->| ->]]. Qed.

Record life_inv (a : astate) : Prop := {
  li_len : length (tab a) = NPROC;
  li_cpus : length (on a) = NCPU;
  li_run : forall c i, aon a c = Some i -> exists p, tab a !! i = Some p /\ c_state p = RUNNING;
  li_inj : forall c c' i, aon a c = Some i -> aon a c' = Some i -> c = c';
  li_on : forall i p, tab a !! i = Some p -> c_state p = RUNNING -> exists c, aon a c = Some i;
  li_pid : forall i p, tab a !! i = Some p -> c_state p <> UNUSED -> 0 < c_pid p < npid a;
  li_pid_inj : forall i j p q, tab a !! i = Some p -> tab a !! j = Some q ->
    c_state p <> UNUSED -> c_state q <> UNUSED -> c_pid p = c_pid q -> i = j;
  li_unused : forall i p, tab a !! i = Some p -> c_state p = UNUSED -> p = free_core;
  li_used : forall i p, tab a !! i = Some p -> c_state p <> USED;
  li_parent : forall i p j, tab a !! i = Some p -> c_parent p = Some j ->
    exists q, tab a !! j = Some q /\ alive q;
  li_older : forall i p j q, tab a !! i = Some p -> c_parent p = Some j -> tab a !! j = Some q -> c_pid q < c_pid p;
  li_first : forall i p, ini a = Some i -> tab a !! i = Some p -> c_pid p = 1 /\ c_parent p = None;
  li_init : exists i p, ini a = Some i /\ tab a !! i = Some p /\ alive p;
  li_orphan : forall i p, tab a !! i = Some p -> c_state p <> UNUSED -> c_parent p = None -> ini a = Some i;
  li_sleep : forall i p, tab a !! i = Some p -> c_state p = SLEEPING -> c_chan p <> NoChan;
  li_npid : 0 < npid a;
}.

(** ** Steps of the abstract table that keep the invariant *)

Lemma life_relaxed a l : life_inv a -> relaxed (tab a) l -> life_inv (upd_tab (fun _ => l) a).
Proof.
  intros H [Hlen Hl]%Forall2_same_length_lookup.
  assert (forall i p', l !! i = Some p' -> exists p, tab a !! i = Some p /\
            (p' = p \/ (c_state p = SLEEPING /\ p' = with_state RUNNABLE p))) as Hb.
  { intros i p' Hp'. assert (is_Some (tab a !! i)) as [p Hp].
    { apply lookup_lt_is_Some_2. apply lookup_lt_Some in Hp'. lia. }
    exists p. eauto. }
  assert (forall i p, tab a !! i = Some p -> exists p', l !! i = Some p' /\
            (p' = p \/ (c_state p = SLEEPING /\ p' = with_state RUNNABLE p))) as Hf.
  { intros i p Hp. assert (is_Some (l !! i)) as [p' Hp'].
    { apply lookup_lt_is_Some_2. apply lookup_lt_Some in Hp. lia. }
    exists p'. eauto. }
  assert (forall p p', (p' = p \/ (c_state p = SLEEPING /\ p' = with_state RUNNABLE p)) ->
            c_pid p' = c_pid p /\ c_parent p' = c_parent p /\ (alive p -> alive p') /\
            (c_state p' = UNUSED -> p' = p) /\ (c_state p' <> UNUSED -> c_state p <> UNUSED) /\
            (c_state p' = USED -> c_state p = USED) /\ (c_state p' = RUNNING -> p' = p) /\
            (c_state p = RUNNING -> p' = p) /\ (c_state p' = SLEEPING -> p' = p)) as Hrel.
  { intros p p' [->|[Hs ->]]; unfold alive; simpl; rewrite ?Hs; split_and!; auto; try congruence. }
  destruct H. split; simpl; try done.
  - lia.
  - intros c i Hc. destruct (li_run0 c i Hc) as (p & Hp & Hs). destruct (Hf i p Hp) as (p' & Hp' & Hr).
    destruct (Hrel _ _ Hr) as (_ & _ & _ & _ & _ & _ & _ & E & _). exists p'. split; [done |]. by rewrite (E Hs).
  - intros i p' Hp' Hs. destruct (Hb i p' Hp') as (p & Hp & Hr).
    destruct (Hrel _ _ Hr) as (_ & _ & _ & _ & _ & _ & E & _). assert (p' = p) as -> by auto. eauto.
  - intros i p' Hp' Hs. destruct (Hb i p' Hp') as (p & Hp & Hr).
    destruct (Hrel _ _ Hr) as (-> & _ & _ & _ & E & _). eauto.
  - intros i j p' q' Hp' Hq' Hps Hqs. destruct (Hb i p' Hp') as (p & Hp & Hr). destruct (Hb j q' Hq') as (q & Hq & Hr').
    destruct (Hrel _ _ Hr) as (-> & _ & _ & _ & E & _). destruct (Hrel _ _ Hr') as (-> & _ & _ & _ & E' & _). eauto.
  - intros i p' Hp' Hs. destruct (Hb i p' Hp') as (p & Hp & Hr).
    destruct (Hrel _ _ Hr) as (_ & _ & _ & E & _). assert (p' = p) as -> by auto. eauto.
  - intros i p' Hp' Hs. destruct (Hb i p' Hp') as (p & Hp & Hr).
    destruct (Hrel _ _ Hr) as (_ & _ & _ & _ & _ & E & _). by apply (li_used0 i p Hp), E.
  - intros i p' j Hp' Hj. destruct (Hb i p' Hp') as (p & Hp & Hr).
    destruct (Hrel _ _ Hr) as (_ & E & _). rewrite E in Hj. destruct (li_parent0 i p j Hp Hj) as (q & Hq & Ha).
    destruct (Hf j q Hq) as (q' & Hq' & Hr'). destruct (Hrel _ _ Hr') as (_ & _ & Ea & _). eauto.
  - intros i p' j q' Hp' Hj Hq'. destruct (Hb i p' Hp') as (p & Hp & Hr). destruct (Hb j q' Hq') as (q & Hq & Hr').
    destruct (Hrel _ _ Hr) as (-> & E & _). destruct (Hrel _ _ Hr') as (-> & _). rewrite E in Hj. eauto.
  - intros i p' Hi Hp'. destruct (Hb i p' Hp') as (p & Hp & Hr). destruct (Hrel _ _ Hr) as (-> & -> & _). eauto.
  - destruct li_init0 as (i & p & Hi & Hp & Ha). destruct (Hf i p Hp) as (p' & Hp' & Hr).
    destruct (Hrel _ _ Hr) as (_ & _ & Ea & _). exists i, p'. eauto.
  - intros i p' Hp' Hs Hn. destruct (Hb i p' Hp') as (p & Hp & Hr).
    destruct (Hrel _ _ Hr) as (_ & E & _ & _ & E2 & _). rewrite E in Hn. eauto.
  - intros i p' Hp' Hs. destruct (Hb i p' Hp') as (p & Hp & Hr).
    destruct (Hrel _ _ Hr) as (_ & _ & _ & _ & _ & _ & _ & _ & E). assert (p' = p) as -> by auto. eauto.
Qed.

(** Lookup in an altered table. *)
Lemma alter_Some {A} (f : A -> A) i j (l : list A) y :
  alter f i l !! j = Some y -> (i = j /\ exists x, l !! i = Some x /\ y = f x) \/ (i <> j /\ l !! j = Some y).
Proof.
  rewrite list_lookup_alter. case_decide as E; [subst; left | by right]. split; [done |].
  destruct (l !! j) as [x|]; [| done]. exists x. by injection H as <-.
Qed.

Lemma alter_Some_intro {A} (f : A -> A) i j (l : list A) x :
  l !! j = Some x -> alter f i l !! j = Some (if decide (i = j) then f x else x).
Proof. intros H. rewrite list_lookup_alter. case_decide; subst; by rewrite ?H. Qed.

(** A new pid handed out and thrown away. *)
Lemma life_npid a : life_inv a -> npid a < 2 ^ 31 - 1 ->
  life_inv (Abs (tab a) (on a) (i32 (npid a + 1)) (ini a)).
Proof.
  intros H Hn. pose proof (li_npid _ H). rewrite i32_small by lia. destruct H. split; simpl; try done; try lia.
  intros i p Hp Hs. specialize (li_pid0 i p Hp Hs). lia.
Qed.

Lemma alter_insert {A} (f : A -> A) i (l : list A) x : l !! i = Some x -> alter f i l = <[i := f x]> l.
Proof.
  intros H. apply list_eq. intros j. rewrite list_lookup_alter, list_lookup_insert.
  apply lookup_lt_Some in H as Hlt. repeat case_decide; subst; rewrite ?H; try done; lia.
Qed.

(** One slot and the harts changed. *)
Record slot_ok (a : astate) (i : nat) (q' : pcore) (n' : Z) : Prop := {
  so_used : c_state q' <> USED;
  so_unused : c_state q' = UNUSED -> q' = free_core;
  so_npid : npid a <= n';
  so_pid : c_state q' <> UNUSED -> 0 < c_pid q' < n' /\
    forall j p, j <> i -> tab a !! j = Some p -> c_state p <> UNUSED -> c_pid p <> c_pid q';
  so_parent : forall j, c_parent q' = Some j ->
    j <> i /\ exists r, tab a !! j = Some r /\ alive r /\ c_pid r < c_pid q';
  so_child : forall j p, j <> i -> tab a !! j = Some p -> c_parent p = Some i -> c_pid q' < c_pid p;
  so_first : ini a = Some i -> c_pid q' = 1 /\ c_parent q' = None;
  so_alive : alive q' \/
    ((forall j p, j <> i -> tab a !! j = Some p -> c_parent p <> Some i) /\ ini a <> Some i);
  so_orphan : c_parent q' = None -> c_state q' <> UNUSED -> ini a = Some i;
  so_sleep : c_state q' = SLEEPING -> c_chan q' <> NoChan;
}.

Lemma life_update a i q q' on' n' :
  life_inv a -> tab a !! i = Some q -> slot_ok a i q' n' ->
  let a' := Abs (<[i := q']> (tab a)) on' n' (ini a) in
  length on' = NCPU ->
  (forall c j, aon a' c = Some j -> if decide (j = i) then c_state q' = RUNNING else aon a c = Some j) ->
  (forall c c', aon a' c = Some i -> aon a' c' = Some i -> c = c') ->
  (c_state q' = RUNNING -> exists c, aon a' c = Some i) ->
  (forall c j, j <> i -> aon a c = Some j -> aon a' c = Some j) ->
  life_inv a'.
Proof.
  intros H Hq Hs a' Hlen Hon1 Hon2 Hon3 Hon4. destruct H, Hs.
  assert (i < length (tab a))%nat as Hlt by by eapply lookup_lt_Some.
  assert (forall j p, tab a' !! j = Some p -> (j = i /\ p = q') \/ (j <> i /\ tab a !! j = Some p)) as Hb.
  { intros j p [(-> & -> & _)|[Hne Hp]]%list_lookup_insert_Some; auto. }
  assert (tab a' !! i = Some q') as Hi by by apply list_lookup_insert_eq.
  assert (forall j p, j <> i -> tab a !! j = Some p -> tab a' !! j = Some p) as Hf.
  { intros j p Hne Hp. simpl. by rewrite list_lookup_insert_ne. }
  split.
  - simpl. by rewrite length_insert.
  - done.
  - intros c j Hc. pose proof (Hon1 c j Hc) as H1. case_decide as E; [subst; eauto |].
    destruct (li_run0 c j H1) as (p & Hp & Hps). eauto.
  - intros c c' j Hc Hc'. destruct (decide (j = i)) as [->|E]; [by apply Hon2 |].
    pose proof (Hon1 c j Hc). pose proof (Hon1 c' j Hc'). rewrite decide_False in * by done. eauto.
  - intros j p [[-> ->]|[Hne Hp]]%Hb Hps; [by apply Hon3 |].
    destruct (li_on0 j p Hp Hps) as [c Hc]. eauto.
  - intros j p [[-> ->]|[Hne Hp]]%Hb Hps; [by apply so_pid0 |].
    specialize (li_pid0 j p Hp Hps). simpl. lia.
  - intros j1 j2 p1 p2 [[-> ->]|[Hn1 Hp1]]%Hb [[-> ->]|[Hn2 Hp2]]%Hb Hs1 Hs2 E; [done | | |].
    + destruct (so_pid0 Hs1) as [_ Hd]. by destruct (Hd j2 p2 Hn2 Hp2 Hs2).
    + destruct (so_pid0 Hs2) as [_ Hd]. by destruct (Hd j1 p1 Hn1 Hp1 Hs1).
    + eauto.
  - intros j p [[-> ->]|[Hne Hp]]%Hb Hps; eauto.
  - intros j p [[-> ->]|[Hne Hp]]%Hb; eauto.
  - intros j p h [[-> ->]|[Hne Hp]]%Hb Hh.
    + destruct (so_parent0 h Hh) as (Hn & r & Hr & Ha & _); eauto.
    + destruct (li_parent0 j p h Hp Hh) as (r & Hr & Ha). destruct (decide (h = i)) as [->|]; [| eauto].
      exists q'. split; [done |]. destruct so_alive0 as [|[Hno _]]; [done |]. by destruct (Hno j p Hne Hp).
  - intros j p h r [[-> ->]|[Hne Hp]]%Hb Hh [[-> ->]|[Hnr Hr]]%Hb.
    + by destruct (so_parent0 i Hh).
    + destruct (so_parent0 h Hh) as (_ & r' & Hr' & _ & Hlt'). congruence.
    + by eapply so_child0.
    + by eapply li_older0.
  - intros j p Hj [[-> ->]|[Hne Hp]]%Hb; [by apply so_first0 | by eapply li_first0].
  - destruct li_init0 as (h & p & Hh & Hp & Ha). exists h.
    destruct (decide (h = i)) as [->|]; [| eauto]. exists q'. split_and!; [done | done |].
    destruct so_alive0 as [|[_ Hno]]; [done | congruence].
  - intros j p [[-> ->]|[Hne Hp]]%Hb Hps Hn; simpl; eauto.
  - intros j p [[-> ->]|[Hne Hp]]%Hb Hps; eauto.
  - simpl. lia.
Qed.

Lemma aon_alter a f c c' T n h : (c < length (on a))%nat ->
  aon (Abs T (alter f c (on a)) n h) c' = if decide (c = c') then f (aon a c) else aon a c'.
Proof.
  intros [x Hx]%lookup_lt_is_Some_2. unfold aon. simpl. rewrite list_lookup_alter.
  case_decide; [subst | done]. by rewrite Hx.
Qed.

Lemma aon_length a c i : aon a c = Some i -> (c < length (on a))%nat.
Proof.
  unfold aon. destruct (on a !! c) as [x|] eqn:E; simpl; [| done]. intros _. by eapply lookup_lt_Some.
Qed.

(** The running process gives up its hart with core [q']. *)
Lemma life_leave a c i q q' :
  life_inv a -> aon a c = Some i -> tab a !! i = Some q -> slot_ok a i q' (npid a) -> c_state q' <> RUNNING ->
  life_inv (Abs (<[i := q']> (tab a)) (alter (fun _ => None) c (on a)) (npid a) (ini a)).
Proof.
  intros H Hc Hq Hs Hnr. pose proof (aon_length _ _ _ Hc) as Hlt.
  apply life_update with q; try done.
  - rewrite length_alter. apply H.
  - intros c' j. rewrite aon_alter by done. case_decide; [done |]. intros Hc'. case_decide; [| done].
    subst. by pose proof (li_inj _ H _ _ _ Hc Hc').
  - intros c1 c2. rewrite !aon_alter by done. repeat case_decide; try done. by eapply (li_inj _ H).
  - intros c' j Hne Hc'. rewrite aon_alter by done. case_decide; [| done]. subst. congruence.
Qed.

(** A core that only changes state and channel is as good as before. *)
Lemma slot_ok_same a i q s ch :
  life_inv a -> tab a !! i = Some q -> alive q -> (s = SLEEPING -> ch <> NoChan) ->
  s = SLEEPING \/ s = RUNNABLE \/ s = RUNNING ->
  slot_ok a i (Core s ch (c_pid q) (c_parent q)) (npid a).
Proof.
  intros H Hq Ha Hch Hs. assert (c_state q <> UNUSED) as Hqu by (unfold alive in Ha; destruct Ha as [|[|]]; congruence).
  split; simpl; try done.
  - destruct Hs as [->|[->| ->]]; done.
  - destruct Hs as [->|[->| ->]]; done.
  - intros _. split; [by eapply (li_pid _ H) |]. intros j p Hne Hp Hps E. apply Hne. by eapply (li_pid_inj _ H).
  - intros j Hj. destruct (li_parent _ H i q j Hq Hj) as (r & Hr & Har). pose proof (li_older _ H i q j r Hq Hj Hr).
    split; [intros ->; rewrite Hq in Hr; injection Hr as <-; lia | eauto].
  - intros j p _ Hp Hj. by eapply (li_older _ H).
  - intros Hi. by eapply (li_first _ H).
  - left. unfold alive. simpl. tauto.
  - intros Hn _. by eapply (li_orphan _ H).
Qed.

Lemma life_enter a c i q :
  life_inv a -> (c < length (on a))%nat -> aon a c = None -> tab a !! i = Some q -> c_state q = RUNNABLE ->
  life_inv (Abs (<[i := with_state RUNNING q]> (tab a)) (alter (fun _ => Some i) c (on a)) (npid a) (ini a)).
Proof.
  intros H Hlt Hc Hq Hs. apply life_update with q; try done.
  - apply (slot_ok_same a i q RUNNING (c_chan q)); [done | done | unfold alive; auto | done | auto].
  - rewrite length_alter. apply H.
  - intros c' j. rewrite aon_alter by done. case_decide; [intros [= ->]; by rewrite decide_True |].
    intros Hc'. case_decide; [| done]. done.
  - assert (forall c', aon a c' <> Some i) as Hno.
    { intros c' Hc'. destruct (li_run _ H _ _ Hc') as (p & Hp & Hps). congruence. }
    intros c1 c2. rewrite !aon_alter by done. repeat case_decide; try congruence; intros ? ?; by destruct (Hno c1), (Hno c2).
  - intros _. exists c. rewrite aon_alter by done. by rewrite decide_True.
  - intros c' j Hne Hc'. rewrite aon_alter by done. case_decide; [congruence | done].
Qed.

(** The harts are untouched and the slot runs neither before nor after. *)
Lemma life_still a i q q' n' :
  life_inv a -> tab a !! i = Some q -> slot_ok a i q' n' -> c_state q <> RUNNING -> c_state q' <> RUNNING ->
  life_inv (Abs (<[i := q']> (tab a)) (on a) n' (ini a)).
Proof.
  intros H Hq Hs Hnr Hnr'.
  assert (forall c, aon a c <> Some i) as Hno.
  { intros c' Hc'. destruct (li_run _ H _ _ Hc') as (p & Hp & Hps). congruence. }
  apply life_update with q; try done.
  - apply H.
  - intros c j Hj. change (aon a c = Some j) in Hj. case_decide; [| done]. subst. by destruct (Hno c).
  - intros c1 c2 H1. by destruct (Hno c1).
Qed.

Lemma life_fork a c p i :
  life_inv a -> aon a c = Some p -> tab a !! i = Some free_core -> npid a < 2 ^ 31 - 1 ->
  life_inv (Abs (<[i := Core RUNNABLE NoChan (npid a) (Some p)]> (tab a)) (on a) (i32 (npid a + 1)) (ini a)).
Proof.
  intros H Hp Hi Hn. pose proof (li_npid _ H). rewrite i32_small by lia.
  apply life_still with free_core; try done. destruct (li_run _ H _ _ Hp) as (r & Hr & Hrs).
  split; simpl; try done; try lia.
  - intros _. split; [lia |]. intros j q Hne Hq Hqs. pose proof (li_pid _ H j q Hq Hqs). lia.
  - intros j [= <-]. split; [intros ->; rewrite Hi in Hr; injection Hr as <-; done |].
    exists r. split_and!; [done | unfold alive; auto |]. apply (li_pid _ H p r Hr). congruence.
  - intros j q _ Hq Hj. destruct (li_parent _ H j q i Hq Hj) as (r' & Hr' & Ha). rewrite Hi in Hr'. injection Hr' as <-.
    unfold alive in Ha. naive_solver.
  - intros Hini. destruct (li_init _ H) as (h & p' & Hh & Hp' & Ha). rewrite Hini in Hh. injection Hh as <-.
    rewrite Hi in Hp'. injection Hp' as <-. unfold alive in Ha. naive_solver.
  - left. unfold alive. auto.
Qed.

Lemma life_reap a i q :
  life_inv a -> tab a !! i = Some q -> c_state q = ZOMBIE ->
  life_inv (Abs (<[i := free_core]> (tab a)) (on a) (npid a) (ini a)).
Proof.
  intros H Hi Hz. apply life_still with q; try done; [| congruence].
  assert (forall j p, j <> i -> tab a !! j = Some p -> c_parent p <> Some i) as Hno.
  { intros j p Hne Hp Hj. destruct (li_parent _ H j p i Hp Hj) as (r & Hr & Ha).
    rewrite Hi in Hr. injection Hr as <-. unfold alive in Ha. rewrite Hz in Ha. naive_solver. }
  assert (ini a <> Some i) as Hni.
  { intros E. destruct (li_init _ H) as (h & p & Hh & Hp & Ha). rewrite E in Hh. injection Hh as <-.
    rewrite Hi in Hp. injection Hp as <-. unfold alive in Ha. rewrite Hz in Ha. naive_solver. }
  split; simpl; try done; try lia; [| by right]. intros j p Hne Hp Hj. by destruct (Hno j p Hne Hp).
Qed.

(** Children of [p] handed to init. *)
Definition adopt (p : nat) (init : option nat) (q : pcore) : pcore :=
  if bool_decide (c_parent q = Some p) then with_parent init q else q.

Lemma life_reparent a p :
  life_inv a -> life_inv (upd_tab (fmap (adopt p (ini a))) a).
Proof.
  intros H. destruct (li_init _ H) as (h & r & Hh & Hr & Har).
  assert (forall q, c_state (adopt p (ini a) q) = c_state q /\ c_chan (adopt p (ini a) q) = c_chan q /\
                    c_pid (adopt p (ini a) q) = c_pid q /\ (alive q -> alive (adopt p (ini a) q))) as Hadopt.
  { intros q. unfold adopt, alive. case_bool_decide; done. }
  assert (forall i q', (adopt p (ini a) <$> tab a) !! i = Some q' ->
            exists q, tab a !! i = Some q /\ q' = adopt p (ini a) q) as Hb.
  { intros i q'. rewrite list_lookup_fmap. destruct (tab a !! i); naive_solver. }
  assert (forall i q, tab a !! i = Some q -> (adopt p (ini a) <$> tab a) !! i = Some (adopt p (ini a) q)) as Hf.
  { intros i q Hq. by rewrite list_lookup_fmap, Hq. }
  split; simpl; try apply H.
  - by rewrite length_fmap; apply H.
  - intros c i Hc. destruct (li_run _ H c i Hc) as (q & Hq & Hqs). eexists. split; [by apply Hf |].
    by destruct (Hadopt q) as (-> & _).
  - intros i q' (q & Hq & ->)%Hb. destruct (Hadopt q) as (-> & _). by apply (li_on _ H).
  - intros i q' (q & Hq & ->)%Hb. destruct (Hadopt q) as (-> & _ & -> & _). by apply (li_pid _ H i).
  - intros i j q' r' (q & Hq & ->)%Hb (s & Hs & ->)%Hb.
    destruct (Hadopt q) as (-> & _ & -> & _), (Hadopt s) as (-> & _ & -> & _). by apply (li_pid_inj _ H).
  - intros i q' (q & Hq & ->)%Hb. destruct (Hadopt q) as (E & _). intros Hu. rewrite E in Hu.
    by rewrite (li_unused _ H i q Hq Hu).
  - intros i q' (q & Hq & ->)%Hb. destruct (Hadopt q) as (-> & _). by apply (li_used _ H i).
  - intros i q' j (q & Hq & ->)%Hb. unfold adopt at 1. case_bool_decide as E; simpl.
    + intros Hj. rewrite Hh in Hj. injection Hj as <-. eexists. split; [by apply Hf | by apply Hadopt].
    + intros Hj. destruct (li_parent _ H i q j Hq Hj) as (s & Hs & Ha). eexists. split; [by apply Hf | by apply Hadopt].
  - intros i q' j r' (q & Hq & ->)%Hb Hj (s & Hs & ->)%Hb.
    destruct (Hadopt q) as (_ & _ & -> & _), (Hadopt s) as (_ & _ & -> & _).
    revert Hj. unfold adopt. case_bool_decide as E; simpl; [| intros Hj; by eapply (li_older _ H)].
    intros Hj. rewrite Hh in Hj. injection Hj as <-. destruct (li_first _ H h s Hh Hs) as [-> Hn].
    assert (c_state q <> UNUSED) as Hu by (intros Hu; by rewrite (li_unused _ H i q Hq Hu) in E).
    pose proof (li_pid _ H i q Hq Hu).
    assert (c_pid q <> 1) as Hne1; [| lia]. intros E1. destruct (li_first _ H h r Hh Hr) as [Er Hnr].
    assert (i = h) as -> by (eapply (li_pid_inj _ H i h q r); [done | done | done | by apply alive_used | congruence]).
    congruence.
  - intros i q' Hi (q & Hq & ->)%Hb. destruct (li_first _ H i q Hi Hq) as [E1 E2].
    unfold adopt. rewrite E2. by rewrite bool_decide_eq_false_2.
  - exists h. eexists. split_and!; [done | by apply Hf | by apply Hadopt].
  - intros i q' (q & Hq & ->)%Hb. destruct (Hadopt q) as (-> & _). unfold adopt. case_bool_decide; simpl.
    + by rewrite Hh.
    + intros. by apply (li_orphan _ H i q).
  - intros i q' (q & Hq & ->)%Hb. destruct (Hadopt q) as (-> & -> & _). by apply (li_sleep _ H i).
Qed.

Lemma life_exit a c p q :
  life_inv a -> aon a c = Some p -> ini a <> Some p -> tab a !! p = Some q ->
  (forall j r, tab a !! j = Some r -> c_parent r <> Some p) ->
  life_inv (Abs (<[p := with_state ZOMBIE q]> (tab a)) (alter (fun _ => None) c (on a)) (npid a) (ini a)).
Proof.
  intros H Hc Hi Hq Hno. destruct (li_run _ H _ _ Hc) as (q' & Hq' & Hs). rewrite Hq in Hq'. injection Hq' as <-.
  apply life_leave with q; try done. split; simpl; try done.
  - intros _. split; [apply (li_pid _ H p q Hq); congruence |]. intros j r Hne Hr Hrs E. apply Hne.
    eapply (li_pid_inj _ H j p r q); done || congruence.
  - intros j Hj. destruct (li_parent _ H p q j Hq Hj) as (r & Hr & Ha). pose proof (li_older _ H p q j r Hq Hj Hr).
    split; [| eauto]. intros ->. by destruct (Hno p q Hq).
  - intros j r _ Hr Hj. by destruct (Hno j r Hr).
  - right. split; [| done]. intros j r _ Hr. by apply (Hno j).
  - intros Hn _. apply (li_orphan _ H p q); [done | congruence | done].
Qed.

(** ** Effects of the operations that leave the CPU or reap a child *)

Section Steps.
Context `{I : Image} {F : Type} `{FS : FileLayer F} {FO : FileLayerOk F} (fra : Z).

Lemma cur_Ok c (k : kernel F) i k' : cur c k = Ok (i, k') -> k' = k /\ aon (absk k) c = Some i.
Proof.
  unfold cur, myproc. rewrite bind_gets, <- cpu_of_abs. unfold cpu_of.
  destruct (cpu_proc _); [| done]. intros [= <- <-]. done.
Qed.

Lemma relaxed_adopt n i p init l l' :
  relaxed l l' -> relaxed (map_range n i (fun _ => adopt p init) l) (map_range n i (fun _ => adopt p init) l').
Proof.
  intros [Hlen Hl]%Forall2_same_length_lookup. apply Forall2_same_length_lookup_2; [by rewrite !map_range_length |].
  intros j x y. rewrite !map_range_lookup. case_decide; [| apply Hl].
  destruct (l !! j) as [x0|] eqn:E1, (l' !! j) as [y0|] eqn:E2; try done. intros [= <-] [= <-].
  destruct (Hl j x0 y0 E1 E2) as [->|[Hs ->]]; [by left | right].
  unfold adopt. simpl. case_bool_decide; done.
Qed.

Lemma reparent_loop_abs c p n i (k k' : kernel F) :
  for_procs n i (fun i =>
    let! pp := getp i parent in
    if bool_decide (pp = Some p) then
      let! init := gets initproc in
      do! modp i (set_parent init) in
      match init with Some j => wakeup c (ChProc j) | None => wakeup c NoChan end
    else ret tt) k = Ok (tt, k') ->
  exists l, relaxed (map_range n i (fun _ => adopt p (ini (absk k))) (tab (absk k))) l /\
    absk k' = upd_tab (fun _ => l) (absk k).
Proof.
  revert i k. induction n as [|n IH]; intros i k; simpl.
  { intros [= <-]. exists (tab (absk k)). split; [apply relaxed_refl |]. by destruct k. }
  intros ([] & k1 & H1 & H)%bind_Ok_inv.
  assert (exists l1, relaxed (alter (adopt p (ini (absk k))) i (tab (absk k))) l1 /\
            absk k1 = upd_tab (fun _ => l1) (absk k)) as (l1 & Hl1 & E1).
  { unfold getp in H1. rewrite bind_gets in H1. case_bool_decide as Hpar.
    - rewrite bind_gets in H1. apply bind_Ok_inv in H1 as ([] & k2 & [_ <-]%Ok_inv & H2).
      set (k2 := set_procs (alter (set_parent (initproc k)) i) k) in *.
      assert (absk k2 = upd_tab (alter (adopt p (ini (absk k))) i) (absk k)) as E2.
      { unfold absk, upd_tab. simpl. f_equal. apply list_eq. intros j.
        rewrite list_lookup_fmap, !list_lookup_alter, list_lookup_fmap. case_decide as Ej; [subst |].
        - rewrite nth_lookup in Hpar. destruct (procs k !! j) as [q|]; [| done]. simpl in *.
          unfold adopt. simpl. by rewrite Hpar, bool_decide_eq_true_2.
        - by rewrite list_lookup_fmap. }
      assert (exists l1, relaxed (tab (absk k2)) l1 /\ absk k1 = upd_tab (fun _ => l1) (absk k2)) as (l1 & Hl1 & E1)
        by (destruct (initproc k); by eapply wakeup_relaxed).
      exists l1. rewrite E2 in *. done.
    - injection H1 as <-. exists (tab (absk k)). split; [| by destruct k].
      assert (alter (adopt p (ini (absk k))) i (tab (absk k)) = tab (absk k)) as ->; [| apply relaxed_refl].
      unfold absk. simpl. apply list_eq. intros j. rewrite list_lookup_alter. case_decide; [subst | done].
      rewrite list_lookup_fmap. rewrite nth_lookup in Hpar. destruct (procs k !! j) as [q|]; [| done]. simpl in *.
      unfold adopt. simpl. by rewrite bool_decide_eq_false_2. }
  destruct (IH _ _ H) as (l & Hl & E). exists l. rewrite E1 in *. split; [| done].
  eapply relaxed_trans; [| exact Hl]. by apply relaxed_adopt.
Qed.

Lemma exit_abs c status (k k' : kernel F) :
  exit c status k = Ok (tt, k') ->
  exists p l, aon (absk k) c = Some p /\ ini (absk k) <> Some p /\
    relaxed (map_range NPROC 0 (fun _ => adopt p (ini (absk k))) (tab (absk k))) l /\
    absk k' = upd_tab (fun _ => alter (with_state ZOMBIE) p l) (absk k).
Proof.
  unfold exit. intros (p & k0 & [-> Hc]%cur_Ok & H)%bind_Ok_inv. rewrite bind_gets in H.
  case_bool_decide as Hi; [done |].
  apply bind_Ok_inv in H as ([] & k1 & H1 & H). apply bind_Ok_inv in H as ([] & k2 & H2 & H).
  unfold getp in H. rewrite bind_gets in H. apply bind_Ok_inv in H as ([] & k3 & H3 & H).
  apply bind_Ok_inv in H as ([] & k4 & H4 & H).
  apply bind_Ok_inv in H as ([] & k5 & H5%frames_modp & H); [| done].
  assert (exists l5, relaxed (tab (absk k)) l5 /\ absk k5 = upd_tab (fun _ => l5) (absk k)) as (l5 & Hl5 & E5).
  { rewrite H5. eapply (relaxes_bind (do! close_files NOFILE 0 c p in do! begin_op c in iput c _) (fun _ => end_op c));
      [| intros _; apply end_op_relaxes |].
    - apply relaxes_bind; [apply relaxes_close_files | intros _].
      apply relaxes_bind; [apply begin_op_relaxes | intros _; apply iput_relaxes].
    - rewrite bind_assoc. rewrite (bind_ok _ _ _ _ _ H1), bind_assoc, (bind_ok _ _ _ _ _ H2), (bind_ok _ _ _ _ _ H3).
      exact H4. }
  apply bind_Ok_inv in H as ([] & k6 & (l6 & Hl6 & E6)%reparent_loop_abs & H). rewrite bind_gets in H.
  apply bind_Ok_inv in H as ([] & k7 & (l7 & Hl7 & E7)%wakeup_relaxed & H).
  apply bind_Ok_inv in H as ([] & k8 & H8%frames_modp & H); [| done].
  apply bind_Ok_inv in H as ([] & k9 & H9%(effect_modp _ _ (with_state ZOMBIE)) & H); [| done].
  rewrite bind_gets in H. apply frames_modp in H; [| done].
  exists p, l7. rewrite E5 in E6, Hl6. rewrite E6 in E7, Hl7. cbn [tab ini upd_tab] in *.
  split_and!; [done | simpl; congruence | |].
  - eapply relaxed_trans; [by apply relaxed_adopt |]. by eapply relaxed_trans.
  - rewrite H, H9, H8, E7. done.
Qed.

Lemma sched_back_abs c (k k' : kernel F) :
  sched_back c k = Ok (tt, k') ->
  absk k' = Abs (tab (absk k)) (alter (fun _ => None) c (on (absk k))) (npid (absk k)) (ini (absk k)).
Proof.
  unfold sched_back. intros ([] & k1 & H1 & H)%bind_Ok_inv. assert (k1 = k) as ->.
  { apply bind_Ok_inv in H1 as (p & k2 & [-> _]%cur_Ok & H1). unfold getp in H1. rewrite bind_gets in H1.
    case_bool_decide; [done | by injection H1 as <-]. }
  injection H as <-. unfold absk. simpl. f_equal. by apply fmap_alter.
Qed.

Lemma set_cpu_abs c i (k : kernel F) :
  absk (set_cpus (alter (fun _ => mkcpu i) c) k) =
  Abs (tab (absk k)) (alter (fun _ => i) c (on (absk k))) (npid (absk k)) (ini (absk k)).
Proof. unfold absk. simpl. f_equal. by apply fmap_alter. Qed.

Lemma sleep_abs c ch (k k' : kernel F) :
  sleep c ch k = Ok (tt, k') ->
  exists i, aon (absk k) c = Some i /\
    absk k' = upd_tab (alter (fun q => Core SLEEPING ch (c_pid q) (c_parent q)) i) (absk k).
Proof.
  unfold sleep. intros (i & k0 & [-> Hc]%cur_Ok & H)%bind_Ok_inv. exists i. split; [done |].
  apply bind_Ok_inv in H as ([] & k1 & H1%(effect_modp _ _ (with_chan ch)) & H); [| done].
  apply (effect_modp _ _ (with_state SLEEPING)) in H; [| done]. rewrite H, H1. unfold upd_tab. simpl.
  by rewrite alter_twice.
Qed.

Lemma wait_reap_abs c p i addr (k k' : kernel F) r :
  wait_reap c p i addr k = Ok (r, k') ->
  (exists t, r = WaitReturn (-1) t /\ absk k' = absk k) \/
  (exists t, r = WaitReturn (pid (nth i (procs k) proc0)) t /\
     absk k' = upd_tab (alter (fun _ => free_core) i) (absk k)).
Proof.
  unfold wait_reap, getp. repeat rewrite bind_gets.
  intros (v & k1 & H1 & H)%bind_Ok_inv.
  assert (absk k1 = absk k) as E1.
  { destruct (negb _); [by apply frames_on_vm in H1 | by injection H1 as _ <-]. }
  destruct (v <? 0); [injection H as <- <-; left; eauto |].
  apply bind_Ok_inv in H as ([] & k2 & H2%freeproc_effect & [= <- <-]). right. eexists. split; [done | congruence].
Qed.

Lemma wait_scan_abs n i c p addr h (k k' : kernel F) r :
  wait_scan n i c p addr h k = Ok (r, k') ->
  (exists t, r = WaitReturn (-1) t /\ absk k' = absk k) \/
  (exists j q t, (i <= j < i + n)%nat /\ nth j (procs k) proc0 = q /\ state q = ZOMBIE /\ parent q = Some p /\
     r = WaitReturn (pid q) t /\ absk k' = upd_tab (alter (fun _ => free_core) j) (absk k)) \/
  (r = WaitSleep /\ exists k1, absk k1 = absk k /\ sleep c (ChProc p) k1 = Ok (tt, k')).
Proof.
  revert i h. induction n as [|n IH]; intros i h; simpl.
  - unfold is_killed, getp. rewrite bind_gets. destruct (negb h || _).
    + intros [= <- <-]. left. eauto.
    + intros ([] & k1 & H1 & [= <- <-])%bind_Ok_inv. right. right. eauto.
  - unfold getp. rewrite bind_gets. case_bool_decide as Hp.
    + rewrite bind_gets. case_bool_decide as Hz.
      * intros [(t & -> & E)|(t & -> & E)]%wait_reap_abs; [left; eauto |].
        right. left. eexists i, _, t. split_and!; [lia | lia | done..].
      * intros [H|[(j & q & t & Hj & H)|H]]%IH; [by left | | by right; right].
        right. left. exists j, q, t. split; [lia | done].
    + intros [H|[(j & q & t & Hj & H)|H]]%IH; [by left | | by right; right].
      right. left. exists j, q, t. split; [lia | done].
Qed.

(** ** The system *)

(** Leaving the CPU after [sleep] inside [wait]. *)
Definition wait_block (c : nat) (r : wait_result) : M (kernel F) unit :=
  match r with WaitSleep => sched_back c | WaitReturn _ _ => ret tt end.

Inductive kstep : kernel F -> kernel F -> Prop :=
  | StepFork c k r k' : nextpid k < 2 ^ 31 - 1 -> fork fra c k = Ok (r, k') -> kstep k k'
  | StepExit c st k k' : (do! exit c st in sched_back c) k = Ok (tt, k') -> kstep k k'
  | StepWait c addr k k' : (let! r := wait c addr in wait_block c r) k = Ok (tt, k') -> kstep k k'
  | StepWaitx c addr k k' : (let! r := waitx c addr in wait_block c r) k = Ok (tt, k') -> kstep k k'
  | StepYield c k k' : (do! yield c in sched_back c) k = Ok (tt, k') -> kstep k k'
  | StepSleep c ch k k' : ch <> NoChan -> (do! sleep c ch in sched_back c) k = Ok (tt, k') -> kstep k k'
  | StepResume c k k' : sleep_return c k = Ok (tt, k') -> kstep k k'
  | StepWakeup c ch k k' : wakeup c ch k = Ok (tt, k') -> kstep k k'
  | StepKill n k r k' : kill n k = Ok (r, k') -> kstep k k'
  | StepGrow c n k r k' : growproc c n k = Ok (r, k') -> kstep k k'
  | StepTick t k k' : (do! modify (set_ticks t) in update_time) k = Ok (tt, k') -> kstep k k'
  | StepRR c i k b k' : (c < NCPU)%nat -> cpu_of k c = None -> rr_try c i k = Ok (b, k') -> kstep k k'
  | StepPBS c k r k' : (c < NCPU)%nat -> cpu_of k c = None -> pbs_round c k = Ok (r, k') -> kstep k k'
  | StepAfterRun i t k k' :
      (let! now := gets ticks in modp i (after_run now t)) k = Ok (tt, k') -> kstep k k'.

Definition boot_kernel (s : vm) (f : F) : kernel F :=
  mkkernel s (replicate NPROC proc0) (replicate NCPU (mkcpu None)) 1 None 0 f.

Inductive reachable : kernel F -> Prop :=
  | ReachBoot s f k : (do! procinit in userinit fra) (boot_kernel s f) = Ok (tt, k) -> reachable k
  | ReachStep k k' : reachable k -> kstep k k' -> reachable k'.

(** ** Each step keeps the invariant *)

Definition good (k : kernel F) : Prop := life_inv (absk k) /\ length (cpus k) = NCPU.

Lemma tab_lookup (k : kernel F) i p : tab (absk k) !! i = Some p -> p = core (nth i (procs k) proc0).
Proof.
  unfold absk. simpl. rewrite list_lookup_fmap, nth_lookup. destruct (procs k !! i); naive_solver.
Qed.

Lemma tab_nth (k : kernel F) i : life_inv (absk k) -> (i < NPROC)%nat ->
  tab (absk k) !! i = Some (core (nth i (procs k) proc0)).
Proof.
  intros H Hi. pose proof (li_len _ H) as Hl. unfold absk in *. simpl in *. rewrite length_fmap in Hl.
  rewrite list_lookup_fmap, nth_lookup. destruct (lookup_lt_is_Some_2 (procs k) i) as [p ->]; [lia | done].
Qed.

Lemma abs_eta a : Abs (tab a) (on a) (npid a) (ini a) = a.
Proof. by destruct a. Qed.

Lemma fork_inv c k r k' :
  life_inv (absk k) -> nextpid k < 2 ^ 31 - 1 -> fork fra c k = Ok (r, k') -> life_inv (absk k').
Proof.
  intros H Hn (p & Hp & [[_ [->|(i & Hi & Hun & ->)]]|(i & Hi & Hun & ->)])%fork_abs; [done | |].
  - pose proof (tab_nth k i H Hi) as Hti. rewrite (alter_insert _ _ _ _ Hti).
    rewrite list_insert_id; [by apply life_npid |]. rewrite Hti. f_equal. by apply (li_unused _ H i).
  - pose proof (tab_nth k i H Hi) as Hti. rewrite (alter_insert _ _ _ _ Hti).
    pose proof (li_unused _ H i _ Hti Hun) as E. rewrite E in Hti |- *. by apply (life_fork _ c).
Qed.

Lemma leave_inv c (k k' : kernel F) i q' f :
  life_inv (absk k) -> aon (absk k) c = Some i -> c_state q' <> RUNNING ->
  (forall q, tab (absk k) !! i = Some q -> f q = q' /\ slot_ok (absk k) i q' (npid (absk k))) ->
  absk k' = Abs (alter f i (tab (absk k))) (alter (fun _ => None) c (on (absk k))) (npid (absk k)) (ini (absk k)) ->
  life_inv (absk k').
Proof.
  intros H Hc Hnr Hf ->. destruct (li_run _ H _ _ Hc) as (q & Hq & _). destruct (Hf q Hq) as [E Hs].
  rewrite (alter_insert _ _ _ _ Hq), E. by apply life_leave with q.
Qed.

Lemma alive_running q : c_state q = RUNNING -> alive q.
Proof. unfold alive. auto. Qed.

Lemma sleep_inv c ch (k k' : kernel F) :
  life_inv (absk k) -> ch <> NoChan -> (do! sleep c ch in sched_back c) k = Ok (tt, k') -> life_inv (absk k').
Proof.
  intros H Hch ([] & k1 & (i & Hi & E1)%sleep_abs & E%sched_back_abs)%bind_Ok_inv.
  rewrite E1 in E. unfold upd_tab in E. simpl in E. destruct (li_run _ H _ _ Hi) as (q & Hq & Hs).
  eapply (leave_inv c k k' i (Core SLEEPING ch (c_pid q) (c_parent q))); try done.
  intros q0 Hq0. rewrite Hq in Hq0. injection Hq0 as <-. split; [done |].
  apply slot_ok_same; auto using alive_running.
Qed.

Lemma yield_inv c (k k' : kernel F) :
  life_inv (absk k) -> (do! yield c in sched_back c) k = Ok (tt, k') -> life_inv (absk k').
Proof.
  intros H ([] & k1 & H1 & E%sched_back_abs)%bind_Ok_inv. unfold yield in H1.
  apply bind_Ok_inv in H1 as (i & k0 & [-> Hi]%cur_Ok & H1%(effect_modp _ _ (with_state RUNNABLE))); [| done].
  rewrite H1 in E. unfold upd_tab in E. simpl in E. destruct (li_run _ H _ _ Hi) as (q & Hq & Hs).
  eapply (leave_inv c k k' i (with_state RUNNABLE q)); try done.
  intros q0 Hq0. rewrite Hq in Hq0. injection Hq0 as <-. split; [done |].
  apply slot_ok_same; auto using alive_running.
Qed.

Lemma exit_inv c st (k k' : kernel F) :
  life_inv (absk k) -> (do! exit c st in sched_back c) k = Ok (tt, k') -> life_inv (absk k').
Proof.
  intros H ([] & k1 & (p & l & Hc & Hi & Hl & E1)%exit_abs & E%sched_back_abs)%bind_Ok_inv.
  rewrite E1 in E. unfold upd_tab in E. simpl in E. rewrite E.
  set (a1 := upd_tab (fmap (adopt p (ini (absk k)))) (absk k)).
  assert (map_range NPROC 0 (fun _ => adopt p (ini (absk k))) (tab (absk k)) = tab a1) as Et.
  { rewrite <- (li_len _ H), map_range_imap. apply list_eq. intros j.
    unfold a1. simpl. rewrite list_lookup_imap, !list_lookup_fmap. done. }
  rewrite Et in Hl. pose proof (life_reparent _ p H : life_inv a1) as Ha1.
  pose proof (life_relaxed _ _ Ha1 Hl) as Ha2. set (a2 := upd_tab (fun _ => l) a1) in *.
  destruct (li_run _ Ha2 c p Hc) as (q & Hq & Hs). change l with (tab a2).
  rewrite (alter_insert _ _ _ _ Hq). apply (life_exit a2 c p q Ha2 Hc Hi Hq).
  intros j r Hr Hpar. change (tab a2) with l in Hr.
  apply Forall2_same_length_lookup in Hl as [Hlen Hl].
  assert (is_Some (tab a1 !! j)) as [r1 Hr1]. { apply lookup_lt_is_Some_2. apply lookup_lt_Some in Hr. lia. }
  assert (c_parent r = c_parent r1) as Er by (destruct (Hl j r1 r Hr1 Hr) as [->|[_ ->]]; done).
  rewrite Er in Hpar. unfold a1 in Hr1. simpl in Hr1. rewrite !list_lookup_fmap in Hr1.
  destruct (procs k !! j) as [r0|]; [| done]. injection Hr1 as <-. unfold adopt in Hpar.
  case_bool_decide as Hb; cbn in Hpar; [by apply Hi | by apply Hb].
Qed.

Lemma scan_inv c p addr (k k' : kernel F) r :
  life_inv (absk k) -> aon (absk k) c = Some p -> wait_scan NPROC 0 c p addr false k = Ok (r, k') ->
  forall k'', wait_block c r k' = Ok (tt, k'') -> life_inv (absk k'').
Proof.
  intros H Hc [(t & -> & E)|[(j & q & t & Hj & Eq & Hz & Hpar & -> & E)|[-> (k1 & E1 & Hs)]]]%wait_scan_abs k'' Hb.
  - injection Hb as <-. by rewrite E.
  - injection Hb as <-. rewrite E. pose proof (tab_nth k j H ltac:(lia)) as Htj. rewrite Eq in Htj.
    unfold upd_tab. simpl. rewrite (alter_insert _ _ _ _ Htj). by apply (life_reap (absk k) j (core q)).
  - apply (sleep_inv c (ChProc p) k1 k''); [by rewrite E1 | done |]. by rewrite (bind_ok _ _ _ _ _ Hs).
Qed.

Lemma wait_inv c addr (k k' : kernel F) :
  life_inv (absk k) -> (let! r := wait c addr in wait_block c r) k = Ok (tt, k') -> life_inv (absk k').
Proof.
  intros H (r & k1 & H1 & H2)%bind_Ok_inv. unfold wait in H1.
  apply bind_Ok_inv in H1 as (p & k0 & [-> Hp]%cur_Ok & H1).
  apply bind_Ok_inv in H1 as (r0 & k2 & Hscan & [= <- <-]).
  apply (scan_inv c p addr k k2 r0 H Hp Hscan). by destruct r0.
Qed.

Lemma waitx_inv c addr (k k' : kernel F) :
  life_inv (absk k) -> (let! r := waitx c addr in wait_block c r) k = Ok (tt, k') -> life_inv (absk k').
Proof.
  intros H (r & k1 & H1 & H2)%bind_Ok_inv. unfold waitx in H1.
  apply bind_Ok_inv in H1 as (p & k0 & [-> Hp]%cur_Ok & H1). by apply (scan_inv c p addr k k1 r H Hp H1).
Qed.

Lemma resume_inv c (k k' : kernel F) : life_inv (absk k) -> sleep_return c k = Ok (tt, k') -> life_inv (absk k').
Proof.
  intros H (i & k0 & [-> Hi]%cur_Ok & ->%(effect_modp _ _ (with_chan NoChan)))%bind_Ok_inv; [| done].
  destruct (li_run _ H _ _ Hi) as (q & Hq & Hs). unfold upd_tab. rewrite (alter_insert _ _ _ _ Hq).
  apply (life_update (absk k) i q); try done.
  - unfold with_chan. apply slot_ok_same; auto using alive_running; rewrite Hs; auto.
  - apply H.
  - intros c' j Hj. change (aon (absk k) c' = Some j) in Hj. by case_decide.
  - intros c1 c2. apply (li_inj _ H).
  - intros _. by exists c.
Qed.

Lemma kill_inv n (k : kernel F) r k' : life_inv (absk k) -> kill n k = Ok (r, k') -> life_inv (absk k').
Proof.
  intros H. unfold kill. rewrite (bind_ok _ _ _ _ _ (find_proc_eq _ _ _ _)).
  destruct (find_from _ _ _ _) as [i|]; [| by intros [= <- <-]].
  intros ([] & k1 & E1%frames_modp & H1)%bind_Ok_inv; [| done].
  apply bind_Ok_inv in H1 as ([] & k2 & E2%(effect_modp _ _ (fun q =>
    if bool_decide (c_state q = SLEEPING) then with_state RUNNABLE q else q)) & [= <- <-]).
  2: { intros p. simpl. by case_bool_decide. }
  rewrite E1 in E2. rewrite E2.
  apply (life_relaxed (absk k) (alter (fun q => if bool_decide (c_state q = SLEEPING) then with_state RUNNABLE q else q)
    i (tab (absk k))) H).
  apply Forall2_same_length_lookup_2; [by rewrite length_alter |]. intros j x y Hx Hy.
  rewrite list_lookup_alter in Hy. case_decide; [subst | left; congruence]. rewrite Hx in Hy. injection Hy as <-.
  case_bool_decide; auto.
Qed.

Lemma growproc_frames c n : frames (F := F) (growproc c n).
Proof.
  unfold growproc. intros k r k' (i & k0 & [-> _]%cur_Ok & H)%bind_Ok_inv. revert k r k' H.
  change (frames (F := F) (let! size := getp i sz in let! pt := getp i pagetable in
    if 0 <? n then let! size' := on_vm (uvmalloc pt size (u64 (size + n)) PTE_W) in
      if size' =? 0 then ret (-1) else do! modp i (set_sz size') in ret 0
    else if n <? 0 then let! size' := on_vm (uvmdealloc pt size (u64 (size + n))) in
      do! modp i (set_sz size') in ret 0
    else do! modp i (set_sz size) in ret 0)). framed.
Qed.

Lemma update_time_frames : frames (F := F) update_time.
Proof.
  intros k [] k'. unfold update_time. rewrite for_modp. intros [_ <-]%Ok_inv. unfold absk.
  cbn [procs cpus nextpid initproc set_procs]. f_equal.
  rewrite (fmap_map_range core _ _ _ (fun _ c => c)).
  - apply list_eq. intros j. rewrite map_range_lookup. case_decide; [| done]. by destruct (_ !! j).
  - intros _ p. unfold update__proc_stats. repeat case_bool_decide; done.
Qed.

Lemma cpu_on_length (k : kernel F) : length (on (absk k)) = length (cpus k).
Proof. unfold absk. simpl. by rewrite length_fmap. Qed.

Lemma rr_try_inv c i (k : kernel F) b k' :
  good k -> (c < NCPU)%nat -> cpu_of k c = None -> rr_try c i k = Ok (b, k') -> life_inv (absk k').
Proof.
  intros [H Hl] Hc Hidle. unfold rr_try, getp. rewrite bind_gets. case_bool_decide as Hs; [| by intros [= <- <-]].
  intros ([] & k1 & E1%(effect_modp _ _ (with_state RUNNING)) & H1)%bind_Ok_inv; [| done].
  apply bind_Ok_inv in H1 as ([] & k2 & [_ <-]%Ok_inv & [= <- <-]). rewrite set_cpu_abs, E1.
  assert (i < NPROC)%nat as Hi.
  { destruct (decide (i < NPROC)%nat); [done |]. rewrite nth_overflow in Hs; [done |].
    pose proof (li_len _ H) as E. unfold absk in E. simpl in E. rewrite length_fmap in E. lia. }
  pose proof (tab_nth k i H Hi) as Hti. unfold upd_tab. cbn [tab on npid ini].
  rewrite (alter_insert _ _ _ _ Hti). apply life_enter; try done.
  - rewrite cpu_on_length, Hl. done.
  - by rewrite <- cpu_of_abs.
Qed.

Lemma schedule_begin_inv c i (k : kernel F) r k' :
  good k -> (c < NCPU)%nat -> cpu_of k c = None -> schedule_begin c i k = Ok (r, k') -> life_inv (absk k').
Proof.
  intros [H Hl] Hc Hidle. unfold schedule_begin, getp. rewrite bind_gets.
  case_bool_decide as Hs; [| by intros [= <- <-]]. rewrite bind_gets.
  intros ([] & k1 & [_ <-]%Ok_inv & H1)%bind_Ok_inv. set (k1 := set_cpus _ k) in *.
  pose proof (set_cpu_abs c (Some i) k) as E1. fold k1 in E1.
  apply bind_Ok_inv in H1 as ([] & k2 & E2%frames_modp & H1); [| done].
  apply bind_Ok_inv in H1 as ([] & k3 & E3%frames_modp & H1); [| done].
  apply bind_Ok_inv in H1 as ([] & k4 & E4%frames_modp & H1); [| done].
  apply bind_Ok_inv in H1 as ([] & k5 & E5%(effect_modp _ _ (with_state RUNNING)) & [= <- <-]); [| done].
  rewrite E5, E4, E3, E2, E1.
  assert (i < NPROC)%nat as Hi.
  { destruct (decide (i < NPROC)%nat); [done |]. rewrite nth_overflow in Hs; [done |].
    pose proof (li_len _ H) as E. unfold absk in E. simpl in E. rewrite length_fmap in E. lia. }
  pose proof (tab_nth k i H Hi) as Hti. unfold upd_tab. cbn [tab on npid ini].
  rewrite (alter_insert _ _ _ _ Hti). apply life_enter; try done.
  - rewrite cpu_on_length, Hl. done.
  - by rewrite <- cpu_of_abs.
Qed.

Lemma set_idle_good c (k : kernel F) :
  good k -> cpu_of k c = None -> good (set_cpus (alter (fun _ => mkcpu None) c) k) /\
  cpu_of (set_cpus (alter (fun _ => mkcpu None) c) k) c = None.
Proof.
  intros [H Hl] Hc. assert (alter (fun _ => mkcpu None) c (cpus k) = cpus k) as E.
  { apply list_eq. intros j. rewrite list_lookup_alter. case_decide; [subst | done].
    unfold cpu_of in Hc. rewrite nth_lookup in Hc. destruct (cpus k !! j) as [[x]|]; simpl in *; congruence. }
  unfold set_cpus. rewrite E. destruct k. done.
Qed.

Lemma pbs_round_inv c (k : kernel F) r k' :
  good k -> (c < NCPU)%nat -> cpu_of k c = None -> pbs_round c k = Ok (r, k') -> life_inv (absk k').
Proof.
  intros Hg Hc Hidle. destruct (set_idle_good c k Hg Hidle) as [Hg' Hidle']. unfold pbs_round, set_cpu_proc.
  rewrite bind_modify, bind_gets. destruct (pbs_select _) as [i|]; [| intros [_ <-]%Ok_inv; apply Hg'].
  intros (r1 & k1 & H1 & [_ <-]%Ok_inv)%bind_Ok_inv. by eapply schedule_begin_inv.
Qed.

Lemma kstep_inv k k' : life_inv (absk k) -> kstep k k' -> life_inv (absk k').
Proof.
  intros H Hs. assert (good k) as Hg by (split; [done | rewrite <- cpu_on_length; apply H]). inversion Hs; subst.
  - by eapply fork_inv.
  - by eapply exit_inv.
  - by eapply wait_inv.
  - by eapply waitx_inv.
  - by eapply yield_inv.
  - by eapply sleep_inv.
  - by eapply resume_inv.
  - destruct (wakeup_relaxed _ _ _ _ H0) as (l & Hrl & ->). by apply life_relaxed.
  - by eapply kill_inv.
  - by rewrite (growproc_frames _ _ _ _ _ H0).
  - rewrite bind_modify in H0. by rewrite (update_time_frames _ _ _ H0).
  - by eapply rr_try_inv.
  - by eapply pbs_round_inv.
  - rewrite bind_gets in H0. by rewrite (frames_modp i (after_run (ticks k) t) (fun p => eq_refl) _ _ _ H0).
Qed.

(** ** Boot *)

Lemma for_procs_pres (P : kernel F -> Prop) (body : nat -> M (kernel F) unit) n i k k' :
  (forall j k k', P k -> body j k = Ok (tt, k') -> P k') -> P k ->
  for_procs n i body k = Ok (tt, k') -> P k'.
Proof.
  intros Hb. revert i k. induction n as [|n IH]; intros i k Hk; simpl; [by intros [= <-] |].
  intros ([] & k1 & H1 & H)%bind_Ok_inv. eauto.
Qed.

Definition empty_abs : astate := Abs (replicate NPROC free_core) (replicate NCPU None) 1 None.

Lemma alter_replicate {A} (f : A -> A) i n x : f x = x -> alter f i (replicate n x) = replicate n x.
Proof.
  intros Hf. apply list_eq. intros j. rewrite list_lookup_alter. case_decide; [subst | done].
  destruct (replicate n x !! j) as [y|] eqn:E; [| done]. apply lookup_replicate in E as [-> _]. simpl. by rewrite Hf.
Qed.

Lemma boot_abs s f : absk (boot_kernel s f) = empty_abs.
Proof. unfold absk, boot_kernel, empty_abs. cbn [procs cpus nextpid initproc]. by rewrite !fmap_replicate. Qed.

Lemma procinit_abs s f k : procinit (boot_kernel s f) = Ok (tt, k) -> absk k = empty_abs.
Proof.
  apply (for_procs_pres (fun k => absk k = empty_abs)); [| apply boot_abs].
  intros j k1 k2 E1 ([] & k3 & E3%(effect_modp _ _ (with_state UNUSED)) & E2%frames_modp)%bind_Ok_inv; [| done..].
  rewrite E2, E3, E1. unfold upd_tab, empty_abs. cbn [tab on npid ini]. by rewrite alter_replicate.
Qed.

Lemma userinit_abs k0 k :
  absk k0 = empty_abs -> userinit fra k0 = Ok (tt, k) ->
  exists i, (i < NPROC)%nat /\
    absk k = Abs (<[i := Core RUNNABLE NoChan 1 None]> (replicate NPROC free_core)) (replicate NCPU None) 2 (Some i).
Proof.
  intros E0 (r & k1 & H1%allocproc_abs & H)%bind_Ok_inv. rewrite bind_modify in H.
  destruct r as [i|]; [| done]. destruct H1 as (Hi & _ & E1). rewrite E0 in E1. exists i. split; [done |].
  set (k2 := set_initproc (Some i) k1) in *.
  assert (absk k2 = Abs (<[i := Core USED NoChan 1 None]> (replicate NPROC free_core)) (replicate NCPU None) 2 (Some i)) as E2.
  { assert (absk k2 = Abs (tab (absk k1)) (on (absk k1)) (npid (absk k1)) (Some i)) as -> by done. rewrite E1.
    cbn [tab on npid ini empty_abs]. by rewrite (alter_insert _ i _ free_core) by (by apply lookup_replicate_2). }
  unfold getp in H. rewrite bind_gets in H. apply bind_Ok_inv in H as ([] & k3 & E3%frames_on_vm & H).
  apply bind_Ok_inv in H as ([] & k4 & E4%frames_modp & H); [| done]. rewrite bind_gets in H.
  apply bind_Ok_inv in H as ([] & k5 & E5%frames_on_vm & H). apply bind_Ok_inv in H as ([] & k6 & E6%frames_on_vm & H).
  apply bind_Ok_inv in H as ([] & k7 & E7%frames_modp & H); [| done].
  apply bind_Ok_inv in H as (d & k8 & E8%namei_root_frames & H). apply bind_Ok_inv in H as ([] & k9 & E9%frames_modp & H); [| done].
  apply (effect_modp _ _ (with_state RUNNABLE)) in H; [| done]. rewrite H.
  assert (absk k9 = absk k2) as -> by congruence. rewrite E2. unfold upd_tab. cbn [tab on npid ini].
  rewrite (alter_insert _ i _ (Core USED NoChan 1 None)), list_insert_insert_eq; [done |].
  apply list_lookup_insert_eq. by rewrite length_replicate.
Qed.

Lemma boot_life i :
  (i < NPROC)%nat ->
  life_inv (Abs (<[i := Core RUNNABLE NoChan 1 None]> (replicate NPROC free_core)) (replicate NCPU None) 2 (Some i)).
Proof.
  intros Hi. set (a := Abs _ _ _ _).
  assert (forall j p, tab a !! j = Some p -> (j = i /\ p = Core RUNNABLE NoChan 1 None) \/ p = free_core) as Hb.
  { intros j p [(-> & <- & _)|[_ [-> _]%lookup_replicate]]%list_lookup_insert_Some; auto. }
  assert (forall c, aon a c = None) as Hon.
  { intros c. unfold aon. cbn [on a]. destruct (replicate NCPU None !! c) eqn:E; [| done].
    apply lookup_replicate in E as [-> _]. done. }
  split.
  - cbn [tab a]. by rewrite length_insert, length_replicate.
  - cbn [on a]. by rewrite length_replicate.
  - intros c j. by rewrite Hon.
  - intros c c' j. by rewrite Hon.
  - intros j p [[-> ->]| ->]%Hb; done.
  - intros j p [[-> ->]| ->]%Hb Hs; [cbn; lia | done].
  - intros j1 j2 p q [[-> ->]| ->]%Hb [[-> ->]| ->]%Hb; done.
  - intros j p [[-> ->]| ->]%Hb; done.
  - intros j p [[-> ->]| ->]%Hb; done.
  - intros j p h [[-> ->]| ->]%Hb; done.
  - intros j p h q [[-> ->]| ->]%Hb; done.
  - intros j p [= <-]. cbn [tab a]. rewrite list_lookup_insert_eq by (by rewrite length_replicate). by intros [= <-].
  - exists i, (Core RUNNABLE NoChan 1 None). split_and!; [done | | unfold alive; auto].
    cbn [tab a]. apply list_lookup_insert_eq. by rewrite length_replicate.
  - intros j p [[-> ->]| ->]%Hb; done.
  - intros j p [[-> ->]| ->]%Hb; done.
  - done.
Qed.

(** ** Properties *)

(** The parent of a process, and what follows: from every process in use the parents lead to
    init, and every process on the way can still run. *)
Definition child_of (a : astate) (i j : nat) : Prop :=
  exists p q, tab a !! i = Some p /\ c_parent p = Some j /\ tab a !! j = Some q /\ alive q.

Lemma life_chain a : life_inv a -> forall i p, tab a !! i = Some p -> c_state p <> UNUSED ->
  exists h, ini a = Some h /\ rtc (child_of a) i h.
Proof.
  intros H i p Hp. remember (Z.to_nat (c_pid p)) as n eqn:En. revert i p Hp En.
  induction (lt_wf n) as [n _ IH]. intros i p Hp -> Hu. destruct (c_parent p) as [j|] eqn:Hj.
  - destruct (li_parent _ H i p j Hp Hj) as (q & Hq & Ha). pose proof (li_older _ H i p j q Hp Hj Hq).
    pose proof (li_pid _ H j q Hq (alive_used q Ha)).
    destruct (IH (Z.to_nat (c_pid q)) ltac:(lia) j q Hq eq_refl (alive_used q Ha)) as (h & Hh & Hr).
    exists h. split; [done |]. eapply rtc_l; [| exact Hr]. exists p, q. auto.
  - exists i. split; [by eapply (li_orphan _ H) | apply rtc_refl].
Qed.

Lemma reachable_life (k : kernel F) : reachable k -> life_inv (absk k).
Proof.
  induction 1 as [s f k Hb|k k' _ IH Hs].
  - apply bind_Ok_inv in Hb as ([] & k1 & E1%procinit_abs & H). apply userinit_abs in H as (i & Hi & ->); [| done].
    by apply boot_life.
  - by eapply kstep_inv.
Qed.

(** C2: in every state the kernel can reach from boot by any interleaving of whole operations
    on its harts (fork, exit, wait, yield, sleep, wakeup, kill, sbrk, clock ticks,
    round-robin and priority scheduling; [fork] while the pid counter has not reached its
    maximum): processes in use have distinct positive pids, a running process is on exactly one
    hart, every process but init has a parent that is older and can still run, so that a
    zombie can always be reaped, and from every process the parents lead to init; init never
    dies; an unused slot has no pid, parent or channel (its other fields may be stale: see
    [kill_zero_marks_next_child]). *)
Theorem reachable_inv (k : kernel F) (Hr : reachable k) :
  life_inv (absk k) /\
  forall i p, tab (absk k) !! i = Some p -> c_state p <> UNUSED ->
    exists h, ini (absk k) = Some h /\ rtc (child_of (absk k)) i h.
Proof. split; [by apply reachable_life | by apply life_chain, reachable_life]. Qed.

(** [wakeup] makes runnable exactly the processes that sleep on the given channel, other than
    the caller, and changes nothing else in the kernel. *)
Lemma wakeup_exact (c : nat) (ch : wchan) (k : kernel F) (Hl : length (procs k) = NPROC) :
  exists k', wakeup c ch k = Ok (tt, k') /\
    k' = set_procs (fun _ => procs k') k /\
    forall i p, procs k !! i = Some p ->
      procs k' !! i = Some (if bool_decide (Some i <> cpu_of k c /\ state p = SLEEPING /\ chan p = ch)
                            then set_state RUNNABLE p else p).
Proof.
  eexists. split; [apply wakeup_eq |]. split; [done |]. intros i p Hp. cbn [procs set_procs].
  rewrite map_range_lookup, decide_True by (apply lookup_lt_Some in Hp; lia). rewrite Hp. cbn. f_equal.
  unfold wake_one. repeat case_bool_decide; cbn; try done; naive_solver.
Qed.

(** A scan that meets no child of [p] in slots [i] to [i + n - 1]. *)
Lemma wait_scan_skip n i c p addr h (k : kernel F) :
  (forall j, (i <= j < i + n)%nat -> parent (nth j (procs k) proc0) = Some p ->
     state (nth j (procs k) proc0) <> ZOMBIE) ->
  wait_scan n i c p addr h k =
  wait_scan 0 (i + n) c p addr
    (h || existsb (fun j => bool_decide (parent (nth j (procs k) proc0) = Some p)) (seq i n)) k.
Proof.
  revert i h. induction n as [|n IH]; intros i h Hno.
  - rewrite Nat.add_0_r. cbn [seq existsb]. by rewrite orb_false_r.
  - cbn [wait_scan seq existsb]. unfold getp. rewrite bind_gets. case_bool_decide as Hp.
    + rewrite bind_gets, bool_decide_eq_false_2 by (apply Hno; [lia | done]).
      rewrite IH by (intros; apply Hno; [lia | done]). by rewrite orb_true_r.
    + by rewrite IH by (intros; apply Hno; [lia | done]).
Qed.

Lemma wait_scan_found n i c p addr h (k : kernel F) j :
  (i <= j < i + n)%nat -> parent (nth j (procs k) proc0) = Some p -> state (nth j (procs k) proc0) = ZOMBIE ->
  (forall j', (i <= j' < j)%nat -> parent (nth j' (procs k) proc0) = Some p ->
     state (nth j' (procs k) proc0) <> ZOMBIE) ->
  wait_scan n i c p addr h k = wait_reap c p j addr k.
Proof.
  revert i h. induction n as [|n IH]; intros i h Hj Hp Hz Hno; [lia |]. cbn [wait_scan]. unfold getp at 1 2.
  rewrite bind_gets. destruct (decide (j = i)) as [->|Hne].
  - by rewrite bool_decide_eq_true_2, bind_gets, bool_decide_eq_true_2.
  - case_bool_decide as Hpi.
    + rewrite bind_gets, bool_decide_eq_false_2 by (apply Hno; [lia | done]).
      apply IH; [lia | done | done |]. intros. apply Hno; [lia | done].
    + apply IH; [lia | done | done |]. intros. apply Hno; [lia | done].
Qed.

(** One pass of [waitx] (and [wait]) by process [p]: it reaps the first zombie child if
    there is one; without children, or when killed, it returns -1 and changes nothing; only
    with children and no zombie among them does it go to sleep, on its own slot. *)
Lemma waitx_decides (c p : nat) (addr : Z) (k : kernel F) (Hc : cpu_of k c = Some p) :
  let child j := bool_decide (parent (nth j (procs k) proc0) = Some p) in
  let zombie j := child j && bool_decide (state (nth j (procs k) proc0) = ZOMBIE) in
  match find_from NPROC 0 (fun j _ => zombie j) (procs k) with
  | Some j => waitx c addr k = wait_reap c p j addr k
  | None =>
      if existsb child (seq 0 NPROC) && (killed (nth p (procs k) proc0) =? 0)
      then waitx c addr k = (do! sleep c (ChProc p) in ret WaitSleep) k
      else waitx c addr k = Ok (WaitReturn (-1) None, k)
  end.
Proof.
  intros child zombie. unfold waitx, cur, myproc. rewrite bind_assoc, bind_gets.
  change (cpu_proc _) with (cpu_of k c). rewrite Hc, bind_ret.
  destruct (find_from _ _ _ _) as [j|] eqn:Hf.
  - apply find_from_Some in Hf as (Hj & [Hch%bool_decide_eq_true Hz%bool_decide_eq_true]%andb_true_iff & Hno).
    apply wait_scan_found; [lia | done | done |]. intros j' Hj' Hp' Hz'.
    specialize (Hno j' Hj'). unfold zombie, child in Hno. rewrite !bool_decide_eq_true_2 in Hno by done. done.
  - pose proof (find_from_None _ _ _ _ Hf) as Hno. rewrite wait_scan_skip.
    2: { intros j Hj Hp Hz. specialize (Hno j Hj). unfold zombie, child in Hno.
         rewrite !bool_decide_eq_true_2 in Hno by done. done. }
    rewrite orb_false_l. fold child. cbn [wait_scan]. unfold is_killed, getp. rewrite bind_gets.
    generalize (existsb child (seq 0 NPROC)) as b. intros [|]; cbn [negb orb andb]; [| done].
    by destruct (killed _ =? 0).
Qed.

End Steps.

(** ** Runs on a small machine *)

(** A file layer without files. *)
#[export] Instance no_files : FileLayer unit := {
  filedup := fun f => ret f;
  fileclose := fun _ _ => ret tt;
  idup := fun i => ret i;
  iput := fun _ _ => ret tt;
  begin_op := fun _ => ret tt;
  end_op := fun _ => ret tt;
  namei_root := ret 1;
}.

#[export] Instance no_files_ok : FileLayerOk unit.
Proof. split; intros; try apply relaxes_frames; apply frames_ret. Qed.

(** Run [boot] and [m] on the memory [o] the allocator has set up. *)
Definition run_from {A} (boot : M (kernel unit) unit) (o : outcome (unit * vm)) (m : M (kernel unit) A)
  : outcome (A * kernel unit) :=
  match o with
  | Ok (_, s) => (do! boot in m) (boot_kernel s tt)
  | Panic msg => Panic msg
  | Diverge => Diverge
  end.

Definition small_vm : outcome (unit * vm) := kinit (I := small_image) (boot_vm zero_mem).

Definition small_fork : M (kernel unit) Z :=
  do! rr_try 0 0 in fork (I := small_image) 4096 0.

(** A failing [uvmcowpy] goes unnoticed: its result is compared with 0 as an unsigned
    number.  On a machine where the parent has taken all but five pages, [fork] returns
    the pid of a runnable child of which no page was mapped. *)
Lemma fork_misses_failure :
  value (run_from (do! procinit in userinit (I := small_image) 4096) small_vm (
    do! rr_try 0 0 in
    do! growproc (I := small_image) 0 (12 * 4096) in
    let! r := fork (I := small_image) 4096 0 in
    let! st := getp 1 state in
    let! pt := getp 1 pagetable in
    let! pa := on_vm (walkaddr pt 0) in
    ret (r, st, pa))) = Some (2, RUNNABLE, 0).
Proof. vm_compute. reflexivity. Qed.

(** [kill(0)] succeeds: it marks the first unused slot as killed, and the next child is
    created in that slot with the mark still set, as if it had been killed. *)
Lemma kill_zero_marks_next_child :
  value (run_from (do! procinit in userinit (I := small_image) 4096) small_vm (
    do! rr_try 0 0 in
    let! r := kill 0 in
    let! pid := fork (I := small_image) 4096 0 in
    let! k := getp 1 killed in
    ret (r, pid, k))) = Some (0, 2, 1).
Proof. vm_compute. reflexivity. Qed.

(** ** Witnesses *)

Lemma small_fork_value : value (run_from (do! procinit in userinit (I := small_image) 4096) small_vm small_fork) = Some 2.
Proof. vm_compute. reflexivity. Qed.

Lemma run_from_inv {A} boot o (m : M (kernel unit) A) a :
  value (run_from boot o m) = Some a ->
  exists s k1 k, boot (boot_kernel s tt) = Ok (tt, k1) /\ m k1 = Ok (a, k).
Proof.
  destruct o as [[u s]| |]; [| done..]. intros (k & Hrun)%value_Some.
  apply bind_Ok_inv in Hrun as ([] & k1 & Hboot & Hrun). eauto.
Qed.

(** The system can reach a state in which init has forked a child. *)
Lemma small_reachable (c i : nat) (r : Z) (k1 k2 k : kernel unit) s b :
  (do! procinit in userinit (I := small_image) 4096) (boot_kernel s tt) = Ok (tt, k1) ->
  (c < NCPU)%nat -> rr_try c i k1 = Ok (b, k2) -> fork (I := small_image) 4096 c k2 = Ok (r, k) -> r <> -1 ->
  reachable (I := small_image) 4096 k /\ nextpid k = 3.
Proof.
  intros Hboot Hc Hrr Hfork Hr.
  assert (reachable (I := small_image) 4096 k1) as R1 by (eapply ReachBoot; exact Hboot).
  apply bind_Ok_inv in Hboot as ([] & k0 & E0%procinit_abs & Hb).
  apply userinit_abs in Hb as (i0 & Hi & E1); [| done].
  assert (aon (absk k1) c = None) as Hidle.
  { rewrite E1. unfold aon. cbn [on]. destruct (replicate NCPU None !! c) eqn:E; [| done].
    by apply lookup_replicate in E as [-> _]. }
  assert (nextpid k2 = 2) as E2.
  { assert (npid (absk k2) = npid (absk k1)) as E; [| by rewrite E1 in E].
    revert Hrr. unfold rr_try, getp. rewrite bind_gets. case_bool_decide; [| by intros [= _ <-]].
    intros ([] & k3 & H3%(effect_modp _ _ (with_state RUNNING)) & H4)%bind_Ok_inv; [| done].
    apply bind_Ok_inv in H4 as ([] & k4 & [_ <-]%Ok_inv & [= _ <-]). by rewrite set_cpu_abs, H3. }
  split.
  - eapply ReachStep; [eapply ReachStep; [exact R1 |] |].
    + eapply (StepRR _ c); [done | | exact Hrr]. by rewrite cpu_of_abs.
    + eapply (StepFork _ c); [rewrite E2; lia | exact Hfork].
  - apply fork_abs in Hfork as (p & _ & [[? _]|(j & _ & _ & E)]); [done |].
    apply (f_equal npid) in E. cbn in E. rewrite E2 in E. exact E.
Qed.

Lemma reachable_inv_witness :
  exists k : kernel unit, reachable (I := small_image) 4096 k /\ life_inv (absk k) /\ nextpid k = 3.
Proof.
  destruct (run_from_inv _ _ _ _ small_fork_value) as (s & k1 & k & Hboot & Hrun).
  apply bind_Ok_inv in Hrun as (b & k2 & Hrr & Hfork).
  destruct (small_reachable 0 0 2 k1 k2 k s b Hboot) as [R3 E3]; [unfold NCPU; lia | exact Hrr | exact Hfork | lia |].
  exists k. exact (conj R3 (conj (proj1 (reachable_inv _ k R3)) E3)).
Defined.

(** A table with a sleeping parent in slot 0, on hart 1, and its zombie child in slot 1. *)
Definition family : kernel unit :=
  mkkernel (boot_vm zero_mem)
    (set_state SLEEPING (set_chan (ChProc 0) proc0) :: set_state ZOMBIE (set_parent (Some 0%nat) (set_pid 7 proc0)) ::
     replicate 62 proc0)
    [mkcpu None; mkcpu (Some 0%nat)] 8 (Some 0%nat) 0 tt.

