(* ===== verification/Spinlock.v ===== *)
(** * Spinlock: [kernel/spinlock.c], the interrupt nesting counter and [kernel/sleeplock.c]

    Part one: harts and spin locks.  [acquire] and [release] are cut at their atomic
    instructions, so that [lstep] interleaves harts between them; [acquire] as a whole
    and the checks of [sched] are their sequential compositions.  The invariant of every
    reachable state gives mutual exclusion, that interrupts are off on a hart that holds a
    lock, and that [release] by the holder cannot panic.

    Part two: sleep locks, whose state is guarded by such a spin lock. *)

From stdpp Require Import base list gmap strings.
From Stdlib Require Import ZArith Lia.
From S2P Require Import Prelude.

(** ** State *)

(** Where a hart is inside [acquire] or [release]. *)
Inductive lpc : Type :=
  | Idle
  | Spin (l : nat)
  | Got (l : nat)
  | Rel (l : nat).

#[export] Instance lpc_eq_dec : EqDecision lpc.
Proof. solve_decision. Defined.

(** [noff], [intena] of [struct cpu], the interrupt-enable bit of [sstatus], and the program
    counter. *)
Record hart : Type := mkhart { noff : Z; intena : bool; sie : bool; pc : lpc }.

Record spinlock : Type := mklock { locked : bool; lcpu : option nat }.

Record lstate : Type := mklst { harts : nat -> hart; locks : nat -> spinlock }.

Definition fset {A} (f : nat -> A) (i : nat) (v : A) : nat -> A :=
  fun j => if (j =? i)%nat then v else f j.

Definition set_hart (c : nat) (f : hart -> hart) : M lstate unit :=
  modify (fun s => mklst (fset (harts s) c (f (harts s c))) (locks s)).
Definition set_lock (l : nat) (f : spinlock -> spinlock) : M lstate unit :=
  modify (fun s => mklst (harts s) (fset (locks s) l (f (locks s l)))).

(** ** Operations *)

Definition intr_get (c : nat) : M lstate bool := gets (fun s => sie (harts s c)).
Definition intr_off (c : nat) : M lstate unit :=
  set_hart c (fun h => mkhart (noff h) (intena h) false (pc h)).
Definition intr_on (c : nat) : M lstate unit :=
  set_hart c (fun h => mkhart (noff h) (intena h) true (pc h)).
Definition goto (c : nat) (p : lpc) : M lstate unit :=
  set_hart c (fun h => mkhart (noff h) (intena h) (sie h) p).

Definition initlock (l : nat) : M lstate unit := set_lock l (fun _ => mklock false None).

Definition push_off (c : nat) : M lstate unit :=
  let! old := intr_get c in
  do! intr_off c in
  let! n := gets (fun s => noff (harts s c)) in
  do! (if n =? 0 then set_hart c (fun h => mkhart (noff h) old (sie h) (pc h)) else ret tt) in
  set_hart c (fun h => mkhart (noff h + 1) (intena h) (sie h) (pc h)).

Definition pop_off (c : nat) : M lstate unit :=
  let! on := intr_get c in
  if (on : bool) then panic "pop_off - interruptible" else
  let! n := gets (fun s => noff (harts s c)) in
  if n <? 1 then panic "pop_off" else
  do! set_hart c (fun h => mkhart (noff h - 1) (intena h) (sie h) (pc h)) in
  let! h := gets (fun s => harts s c) in
  if (noff h =? 0) && intena h then intr_on c else ret tt.

Definition holding (c l : nat) : M lstate bool :=
  gets (fun s => locked (locks s l) && bool_decide (lcpu (locks s l) = Some c)).

(** [acquire] up to the loop. *)
Definition acquire_enter (c l : nat) : M lstate unit :=
  do! push_off c in
  let! h := holding c l in
  if (h : bool) then panic "acquire" else goto c (Spin l).

(** One atomic swap: the old value. *)
Definition test_and_set (l : nat) : M lstate bool :=
  let! old := gets (fun s => locked (locks s l)) in
  do! set_lock l (fun k => mklock true (lcpu k)) in
  ret old.

(** One iteration of the loop. *)
Definition acquire_try (c l : nat) : M lstate bool :=
  let! old := test_and_set l in
  if (old : bool) then ret false else do! goto c (Got l) in ret true.

(** The store [lk->cpu = mycpu()]. *)
Definition acquire_done (c l : nat) : M lstate unit :=
  do! set_lock l (fun k => mklock (locked k) (Some c)) in
  goto c Idle.

(** [release] up to the store [lk->cpu = 0]. *)
Definition release_enter (c l : nat) : M lstate unit :=
  let! h := holding c l in
  if negb h then panic "release" else
  do! set_lock l (fun k => mklock (locked k) None) in
  goto c (Rel l).

(** [__sync_lock_release] and [pop_off]. *)
Definition release_done (c l : nat) : M lstate unit :=
  do! set_lock l (fun k => mklock false (lcpu k)) in
  do! goto c Idle in
  pop_off c.

(** [acquire] and [release] as a whole, with at most [fuel] turns of the loop. *)
Fixpoint spin (fuel : nat) (c l : nat) : M lstate unit :=
  match fuel with
  | O => diverge
  | S f => let! ok := acquire_try c l in if (ok : bool) then ret tt else spin f c l
  end.

Definition acquire (fuel : nat) (c l : nat) : M lstate unit :=
  do! acquire_enter c l in do! spin fuel c l in acquire_done c l.

Definition release (c l : nat) : M lstate unit :=
  do! release_enter c l in release_done c l.

(** The checks of [sched] that concern locks, for a process lock [pl]. *)
Definition sched_checks (c pl : nat) : M lstate unit :=
  let! h := holding c pl in
  if negb h then panic "sched p->lock" else
  let! n := gets (fun s => noff (harts s c)) in
  if negb (n =? 1) then panic "sched locks" else
  let! on := intr_get c in
  if (on : bool) then panic "sched interruptible" else ret tt.

(** The lock operations of [sleep(chan, lk)] up to [sched]. *)
Definition sleep_locks (fuel : nat) (c lk pl : nat) : M lstate unit :=
  do! acquire fuel c pl in
  do! release c lk in
  sched_checks c pl.

(** ** The system of harts *)

Inductive lstep : lstate -> lstate -> Prop :=
  | LEnter c l s s' : pc (harts s c) = Idle -> acquire_enter c l s = Ok (tt, s') -> lstep s s'
  | LTry c l b s s' : pc (harts s c) = Spin l -> acquire_try c l s = Ok (b, s') -> lstep s s'
  | LGot c l s s' : pc (harts s c) = Got l -> acquire_done c l s = Ok (tt, s') -> lstep s s'
  | LRelease c l s s' : pc (harts s c) = Idle -> release_enter c l s = Ok (tt, s') -> lstep s s'
  | LDone c l s s' : pc (harts s c) = Rel l -> release_done c l s = Ok (tt, s') -> lstep s s'
  | LIntr c (b : bool) s s' : pc (harts s c) = Idle -> noff (harts s c) = 0 ->
      (if b then intr_on c else intr_off c) s = Ok (tt, s') -> lstep s s'.

Definition linit : lstate :=
  mklst (fun _ => mkhart 0 false false Idle) (fun _ => mklock false None).

Inductive lreach : lstate -> Prop :=
  | LInit : lreach linit
  | LStep s s' : lreach s -> lstep s s' -> lreach s'.

(** ** The invariant *)

(** The lock a program counter holds without [lk->cpu] saying so. *)
Definition pc_lock (p : lpc) : option nat :=
  match p with Got l | Rel l => Some l | _ => None end.

Definition spinning (p : lpc) : Z := match p with Spin _ => 1 | _ => 0 end.

(** [held c] is the set of locks hart [c] has taken. *)
Record lock_inv (s : lstate) (held : nat -> gset nat) : Prop := {
  k_noff : forall c, noff (harts s c) = Z.of_nat (size (held c)) + spinning (pc (harts s c));
  k_intr : forall c, 0 < noff (harts s c) -> sie (harts s c) = false;
  k_locked : forall l, locked (locks s l) = true <-> exists c, l ∈ held c;
  k_excl : forall c c' l, l ∈ held c -> l ∈ held c' -> c = c';
  k_held : forall c l, l ∈ held c -> lcpu (locks s l) = Some c \/ pc_lock (pc (harts s c)) = Some l;
  k_cpu : forall c l, lcpu (locks s l) = Some c -> l ∈ held c /\ pc_lock (pc (harts s c)) <> Some l;
  k_pc : forall c l, pc_lock (pc (harts s c)) = Some l -> l ∈ held c;
}.

Lemma fset_eq {A} (f : nat -> A) i v : fset f i v i = v.
Proof. unfold fset. by rewrite Nat.eqb_refl. Qed.

Lemma fset_ne {A} (f : nat -> A) i j v : j <> i -> fset f i v j = f j.
Proof. intros. unfold fset. by destruct (Nat.eqb_spec j i). Qed.

(** ** What each piece does *)

(** [s'] is [s] with hart [c] replaced by [h] and lock [l] by [k]. *)
Record changed (s s' : lstate) (c : nat) (h : hart) (l : nat) (k : spinlock) : Prop := {
  ch_hart : harts s' c = h;
  ch_harts : forall c', c' <> c -> harts s' c' = harts s c';
  ch_lock : locks s' l = k;
  ch_locks : forall l', l' <> l -> locks s' l' = locks s l';
}.

(** Show [changed] of an explicit result state. *)
Ltac changed :=
  split; cbn [harts locks]; intros; rewrite ?fset_eq, ?fset_ne by done; cbn; try done.

Lemma push_off_changed c l s s' :
  push_off c s = Ok (tt, s') ->
  let h := harts s c in
  changed s s' c (mkhart (noff h + 1) (if noff h =? 0 then sie h else intena h) false (pc h)) l (locks s l).
Proof.
  unfold push_off, intr_get, intr_off, set_hart. mrun. cbn [harts]. rewrite fset_eq. cbn.
  destruct (noff (harts s c) =? 0); mrun; intros [_ <-]%Ok_inv; cbn; changed.
Qed.

Lemma acquire_enter_changed c l s s' :
  acquire_enter c l s = Ok (tt, s') ->
  let h := harts s c in
  locked (locks s l) && bool_decide (lcpu (locks s l) = Some c) = false /\
  changed s s' c (mkhart (noff h + 1) (if noff h =? 0 then sie h else intena h) false (Spin l)) l (locks s l).
Proof.
  unfold acquire_enter. intros ([] & s1 & H1 & H2)%bind_Ok_inv. pose proof (push_off_changed c l s s1 H1) as [E1 E2 E3 E4].
  unfold holding, goto, set_hart in H2. rewrite bind_gets, E3 in H2. destruct (locked _ && _); [done |].
  apply Ok_inv in H2 as [_ <-]. split; [done |]. split; cbn [harts locks]; intros; rewrite ?fset_eq, ?fset_ne by done; cbn; auto.
  by rewrite E1.
Qed.

Lemma acquire_try_changed c l s b s' :
  acquire_try c l s = Ok (b, s') ->
  b = negb (locked (locks s l)) /\
  changed s s' c (if b then mkhart (noff (harts s c)) (intena (harts s c)) (sie (harts s c)) (Got l) else harts s c)
    l (mklock true (lcpu (locks s l))).
Proof.
  unfold acquire_try, test_and_set, set_lock. rewrite bind_assoc, bind_gets, bind_assoc, bind_modify, bind_ret.
  destruct (locked (locks s l)).
  - intros [<- <-]%Ok_inv. split; [done |]. changed.
  - unfold goto, set_hart. rewrite bind_modify. intros [<- <-]%Ok_inv. split; [done |]. changed.
Qed.

Lemma acquire_done_changed c l s s' :
  acquire_done c l s = Ok (tt, s') ->
  changed s s' c (mkhart (noff (harts s c)) (intena (harts s c)) (sie (harts s c)) Idle)
    l (mklock (locked (locks s l)) (Some c)).
Proof. unfold acquire_done, set_lock, goto, set_hart. mrun. intros [_ <-]%Ok_inv. changed. Qed.

Lemma release_enter_changed c l s s' :
  release_enter c l s = Ok (tt, s') ->
  lcpu (locks s l) = Some c /\
  changed s s' c (mkhart (noff (harts s c)) (intena (harts s c)) (sie (harts s c)) (Rel l))
    l (mklock (locked (locks s l)) None).
Proof.
  unfold release_enter, holding, set_lock, goto, set_hart. mrun.
  destruct (locked _ && bool_decide _) eqn:E; cbn [negb]; [mrun | done].
  apply andb_true_iff in E as [_ E%bool_decide_eq_true]. intros [_ <-]%Ok_inv. split; [done |]. changed.
Qed.

(** [release_done] never panics when interrupts are off and the counter is positive. *)
Lemma release_done_changed c l s :
  sie (harts s c) = false -> 0 < noff (harts s c) ->
  exists s', release_done c l s = Ok (tt, s') /\
    let h := harts s c in
    changed s s' c (mkhart (noff h - 1) (intena h) ((noff h - 1 =? 0) && intena h) Idle) l (mklock false (lcpu (locks s l))).
Proof.
  intros Hs Hn. unfold release_done, set_lock, goto, set_hart, pop_off, intr_get, intr_on, set_hart. mrun.
  cbn [harts]. rewrite !fset_eq. cbn. rewrite Hs. mrun. cbn [harts]. rewrite fset_eq. cbn [noff].
  destruct (Z.ltb_spec (noff (harts s c)) 1); [lia |]. mrun. cbn [harts]. rewrite !fset_eq. cbn [noff intena].
  destruct ((noff (harts s c) - 1 =? 0) && intena (harts s c)) eqn:E.
  - eexists. split; [reflexivity |]. changed.
  - eexists. split; [reflexivity |]. changed.
Qed.

(** ** Preservation *)

(** The invariant after a change of hart [c] and lock [l] that updates the locks [c] has taken
    to [X]. *)
Lemma inv_changed s s' held c h l k X :
  lock_inv s held -> changed s s' c h l k ->
  noff h = Z.of_nat (size X) + spinning (pc h) -> (0 < noff h -> sie h = false) ->
  (forall l', l' <> l -> l' ∈ X <-> l' ∈ held c) ->
  (locked k = true <-> l ∈ X \/ exists c', c' <> c /\ l ∈ held c') ->
  (l ∈ X -> (forall c', c' <> c -> l ∉ held c') /\ (lcpu k = Some c \/ pc_lock (pc h) = Some l)) ->
  (forall c', lcpu k = Some c' -> if decide (c' = c) then l ∈ X /\ pc_lock (pc h) <> Some l
                                   else lcpu (locks s l) = Some c') ->
  (forall c', c' <> c -> lcpu (locks s l) = Some c' -> lcpu k = Some c') ->
  (forall l', pc_lock (pc h) = Some l' -> l' = l /\ l ∈ X) ->
  (forall l', l' <> l -> pc_lock (pc (harts s c)) <> Some l') ->
  lock_inv s' (fset held c X).
Proof.
  intros H [E1 E2 E3 E4] Hn Hi HX Hlk Hex Hcpu Hcpu' Hpc Hpc'. destruct H. split.
  - intros c'. destruct (decide (c' = c)) as [->|]; [by rewrite fset_eq, E1 | rewrite fset_ne, E2 by done; auto].
  - intros c'. destruct (decide (c' = c)) as [->|]; [by rewrite E1 | rewrite E2 by done; auto].
  - intros l'. destruct (decide (l' = l)) as [->|Hl].
    + rewrite E3, Hlk. split.
      * intros [Hin|(c' & Hne & Hin)]; [exists c; by rewrite fset_eq | exists c'; by rewrite fset_ne].
      * intros [c' Hin]. destruct (decide (c' = c)) as [->|Hne]; [rewrite fset_eq in Hin; by left |].
        rewrite fset_ne in Hin by done. right. eauto.
    + rewrite E4, k_locked0 by done. split; intros [c' Hin]; exists c'.
      * destruct (decide (c' = c)) as [->|]; [rewrite fset_eq; by apply HX | by rewrite fset_ne].
      * destruct (decide (c' = c)) as [->|]; [rewrite fset_eq in Hin; by apply HX | by rewrite fset_ne in Hin].
  - assert (forall c' l', l' ∈ X -> c' <> c -> l' ∉ held c') as Hd.
    { intros c' l' Hin Hne Hin'. destruct (decide (l' = l)) as [->|Hl]; [by destruct (Hex Hin) as [Hf _]; apply (Hf c') |].
      apply Hne. apply HX in Hin; [| done]. eauto. }
    intros c1 c2 l'. destruct (decide (c1 = c)) as [->|N1], (decide (c2 = c)) as [->|N2];
      rewrite ?fset_eq, ?fset_ne by done; [done | | | eauto]; intros A1 A2; exfalso.
    + by apply (Hd c2 l').
    + by apply (Hd c1 l').
  - intros c' l'. destruct (decide (c' = c)) as [->|Hne].
    + rewrite fset_eq, E1. intros Hin. destruct (decide (l' = l)) as [->|Hl]; [rewrite E3; by apply Hex |].
      rewrite E4 by done. left. apply HX in Hin; [| done]. destruct (k_held0 c l' Hin) as [|Hp]; [done |].
      by destruct (Hpc' l' Hl).
    + rewrite fset_ne, E2 by done. intros Hin. destruct (k_held0 c' l' Hin) as [Hc|]; [left | by right].
      destruct (decide (l' = l)) as [->|]; [rewrite E3; auto | by rewrite E4].
  - intros c' l' Hc. destruct (decide (l' = l)) as [->|Hl].
    + rewrite E3 in Hc. specialize (Hcpu c' Hc). case_decide as D; [rewrite D in *; by rewrite fset_eq, E1 |].
      rewrite fset_ne, E2 by done. auto.
    + rewrite E4 in Hc by done. destruct (k_cpu0 c' l' Hc) as [Hin Hp]. destruct (decide (c' = c)) as [->|].
      * rewrite fset_eq, E1. split; [by apply HX |]. intros Hq. by destruct (Hpc l' Hq).
      * by rewrite fset_ne, E2.
  - intros c' l'. destruct (decide (c' = c)) as [->|]; [rewrite fset_eq, E1 | rewrite fset_ne, E2 by done; auto].
    intros Hp. by destruct (Hpc l' Hp) as [-> ?].
Qed.

Lemma lenter_inv c l s s' held :
  lock_inv s held -> pc (harts s c) = Idle -> acquire_enter c l s = Ok (tt, s') -> exists held', lock_inv s' held'.
Proof.
  intros H Hp Hr. pose proof H as [].
  apply acquire_enter_changed in Hr as [Hno Hc]. exists (fset held c (held c)).
  pose proof (k_noff0 c) as E. rewrite Hp in E. simpl in E.
  eapply (inv_changed s s' held c _ l _ (held c) H Hc); simpl; rewrite ?Hp; simpl; try done; try lia.
  - rewrite k_locked0. split; [intros [c' Hin]; destruct (decide (c' = c)) as [->|]; [by left | right; eauto] |].
    intros [|(c' & _ & ?)]; eauto.
  - intros Hin. split; [intros c' Hne Hin'; apply Hne; eauto |]. left.
    destruct (k_held0 c l Hin) as [|Hq]; [done | rewrite Hp in Hq; done].
  - intros c' Hc'. destruct (decide (c' = c)) as [->|]; [| done]. split; [by apply k_cpu0 | done].
Qed.

Lemma ltry_inv c l b s s' held :
  lock_inv s held -> pc (harts s c) = Spin l -> acquire_try c l s = Ok (b, s') -> exists held', lock_inv s' held'.
Proof.
  intros H Hp Hr. pose proof H as [].
  pose proof Hr as Hr'. apply acquire_try_changed in Hr as [Hb Hc]. pose proof (k_noff0 c) as E. rewrite Hp in E. simpl in E.
  destruct (locked (locks s l)) eqn:Hl; simpl in Hb; subst b.
  - exists (fset held c (held c)). eapply (inv_changed s s' held c _ l _ (held c) H Hc); simpl; rewrite ?Hp; simpl; try done; try lia.
    + apply k_intr0.
    + split; [intros _ | done]. destruct (proj1 (k_locked0 l) Hl) as [c' Hin].
      destruct (decide (c' = c)) as [->|]; [by left | right; eauto].
    + intros Hin. split; [intros c' Hne Hin'; apply Hne; eauto |].
      destruct (k_held0 c l Hin) as [|Hq]; [by left | rewrite Hp in Hq; done].
    + intros c' Hc'. destruct (decide (c' = c)) as [->|]; [| done]. split; [by apply k_cpu0 | done].
  - assert (forall c', l ∉ held c') as Hnone.
    { intros c' Hin. assert (locked (locks s l) = true) by (apply k_locked0; eauto). congruence. }
    exists (fset held c ({[l]} ∪ held c)).
    eapply (inv_changed s s' held c _ l _ ({[l]} ∪ held c) H Hc); simpl; rewrite ?Hp; simpl; try done; try lia.
    + rewrite size_union by set_solver. rewrite size_singleton. lia.
    + intros _. apply k_intr0. lia.
    + set_solver.
    + split; [intros _; left; set_solver | done].
    + intros _. split; [done | by right].
    + intros c' Hc'. by destruct (k_cpu0 c' l Hc') as [?%Hnone _].
    + intros l' [= <-]. split; [done | set_solver].
Qed.

Lemma lgot_inv c l s s' held :
  lock_inv s held -> pc (harts s c) = Got l -> acquire_done c l s = Ok (tt, s') -> exists held', lock_inv s' held'.
Proof.
  intros H Hp Hr. pose proof H as [].
  apply acquire_done_changed in Hr. pose proof (k_noff0 c) as E. rewrite Hp in E. simpl in E.
  assert (l ∈ held c) as Hin by (apply k_pc0; by rewrite Hp).
  exists (fset held c (held c)). eapply (inv_changed s s' held c _ l _ (held c) H Hr); simpl; rewrite ?Hp; simpl; try done; try lia.
  - apply k_intr0.
  - rewrite k_locked0. split; [by left | by eauto].
  - intros _. split; [| by left]. intros c' Hne Hin'. apply Hne. eauto.
  - intros c' [= <-]. by rewrite decide_True.
  - intros c' Hne Hc'. destruct (k_cpu0 c' l Hc') as [Hin' _]. by destruct Hne; eauto.
  - intros l' Hne [= ->]. done.
Qed.

Lemma lrelease_inv c l s s' held :
  lock_inv s held -> pc (harts s c) = Idle -> release_enter c l s = Ok (tt, s') -> exists held', lock_inv s' held'.
Proof.
  intros H Hp Hr. pose proof H as [].
  apply release_enter_changed in Hr as [Hcpu Hr]. pose proof (k_noff0 c) as E. rewrite Hp in E. simpl in E.
  destruct (k_cpu0 c l Hcpu) as [Hin _].
  exists (fset held c (held c)). eapply (inv_changed s s' held c _ l _ (held c) H Hr); simpl; rewrite ?Hp; simpl; try done; try lia.
  - apply k_intr0.
  - rewrite k_locked0. split; [by left | by eauto].
  - intros _. split; [| by right]. intros c' Hne Hin'. apply Hne. eauto.
  - intros c' Hne Hc'. congruence.
  - intros l' [= <-]. done.
Qed.

Lemma ldone_inv c l s s' held :
  lock_inv s held -> pc (harts s c) = Rel l -> release_done c l s = Ok (tt, s') -> exists held', lock_inv s' held'.
Proof.
  intros H Hp Hr. pose proof H as [].
  assert (l ∈ held c) as Hin by (apply k_pc0; by rewrite Hp). pose proof (k_noff0 c) as E. rewrite Hp in E. simpl in E.
  assert (0 < size (held c))%nat as Hsz by (assert (size (held c) <> 0%nat) by (apply size_non_empty_iff; set_solver); lia).
  destruct (release_done_changed c l s) as (s1 & Hr1 & Hc); [apply k_intr0; lia | lia |].
  rewrite Hr in Hr1. apply Ok_inv in Hr1 as [_ ->].
  exists (fset held c (held c ∖ {[l]})).
  eapply (inv_changed s s1 held c _ l _ (held c ∖ {[l]}) H Hc); simpl; rewrite ?Hp; simpl; try done; try lia.
  - rewrite size_difference by set_solver. rewrite size_singleton. lia.
  - set_solver.
  - split; [done |]. intros [?|(c' & Hne & Hin')]; [set_solver |]. destruct Hne. eauto.
  - set_solver.
  - intros c' Hc'. destruct (k_cpu0 c' l Hc') as [Hin' Hq]. assert (c' = c) as -> by eauto. by rewrite Hp in Hq.
  - intros l' Hne [= ->]. done.
Qed.

Lemma lintr_inv c (b : bool) s s' held :
  lock_inv s held -> pc (harts s c) = Idle -> noff (harts s c) = 0 ->
  (if b then intr_on c else intr_off c) s = Ok (tt, s') -> exists held', lock_inv s' held'.
Proof.
  intros H Hp Hn Hr. pose proof H as [].
  assert (sie (harts s' c) = b /\ noff (harts s' c) = 0 /\ pc (harts s' c) = Idle) as (E1 & E2 & E3).
  { destruct b; apply Ok_inv in Hr as [_ <-]; cbn; rewrite fset_eq; cbn; auto. }
  assert (forall c', c' <> c -> harts s' c' = harts s c') as E4.
  { intros c' Hne. destruct b; apply Ok_inv in Hr as [_ <-]; cbn; by rewrite fset_ne. }
  assert (locks s' = locks s) as E5 by (destruct b; apply Ok_inv in Hr as [_ <-]; done).
  exists held. split; rewrite ?E5; try done.
  - intros c'. destruct (decide (c' = c)) as [->|]; [rewrite E2, E3 | by rewrite E4].
    specialize (k_noff0 c). rewrite Hn, Hp in k_noff0. done.
  - intros c'. destruct (decide (c' = c)) as [->|]; [lia | rewrite E4 by done; auto].
  - intros c' l. destruct (decide (c' = c)) as [->|]; [rewrite E3 | rewrite E4 by done; auto].
    intros Hin. specialize (k_held0 c l Hin). by rewrite Hp in k_held0.
  - intros c' l. destruct (decide (c' = c)) as [->|]; [rewrite E3 | rewrite E4 by done; auto].
    intros Hc. specialize (k_cpu0 c l Hc). by rewrite Hp in k_cpu0.
  - intros c' l. destruct (decide (c' = c)) as [->|]; [by rewrite E3 | rewrite E4 by done; auto].
Qed.

Lemma lstep_inv s s' held : lock_inv s held -> lstep s s' -> exists held', lock_inv s' held'.
Proof.
  intros H Hs. revert H. destruct Hs; intros Hi;
    eauto using lenter_inv, ltry_inv, lgot_inv, lrelease_inv, ldone_inv, lintr_inv.
Qed.

Lemma lreach_inv s : lreach s -> exists held, lock_inv s held.
Proof.
  induction 1 as [|s s' _ [held IH] Hs]; [| by eapply lstep_inv].
  exists (fun _ => ∅). split; simpl; try done; set_solver.
Qed.

(** ** Sequential behaviour *)

(** Hart [c] owns lock [l]: from the successful swap until the lock is released. *)
Definition owns (s : lstate) (c l : nat) : Prop :=
  lcpu (locks s l) = Some c \/ pc_lock (pc (harts s c)) = Some l.

Lemma owns_held s held c l : lock_inv s held -> owns s c l <-> l ∈ held c.
Proof. intros []. split; [intros [?|?]; naive_solver | by apply k_held0]. Qed.

Lemma acquire_run fuel s c l :
  locked (locks s l) = false ->
  exists s', acquire (S fuel) c l s = Ok (tt, s') /\
    changed s s' c (mkhart (noff (harts s c) + 1)
      (if noff (harts s c) =? 0 then sie (harts s c) else intena (harts s c)) false Idle) l (mklock true (Some c)).
Proof.
  intros Hl. unfold acquire, acquire_enter.
  destruct (push_off c s) as [[[] s1]| |] eqn:E1.
  2,3: exfalso; revert E1; unfold push_off, intr_get, intr_off, set_hart; mrun; by destruct (_ =? 0).
  pose proof (push_off_changed c l s s1 E1) as [A1 A2 A3 A4].
  rewrite bind_assoc. mrun with E1. rewrite bind_assoc. unfold holding. mrun. rewrite A3, Hl. cbn [andb].
  unfold goto at 1, set_hart. mrun. cbn [spin]. unfold acquire_try, test_and_set, set_lock, goto, set_hart.
  rewrite !bind_assoc. mrun. rewrite !bind_assoc. mrun. cbn [locks]. rewrite A3, Hl. rewrite ?bind_assoc. mrun.
  unfold acquire_done, set_lock, goto, set_hart. mrun. eexists. split; [reflexivity |].
  split; cbn [harts locks]; intros; rewrite ?fset_eq, ?fset_ne by done; cbn [harts locks]; rewrite ?fset_eq, ?fset_ne by done; cbn; auto.
  rewrite A1. done.
Qed.

Lemma acquire_ok fuel s held c l :
  lock_inv s held -> pc (harts s c) = Idle -> (forall c', ~ owns s c' l) ->
  exists s', acquire (S fuel) c l s = Ok (tt, s') /\ lock_inv s' (fset held c ({[l]} ∪ held c)) /\
    changed s s' c (mkhart (noff (harts s c) + 1)
      (if noff (harts s c) =? 0 then sie (harts s c) else intena (harts s c)) false Idle) l (mklock true (Some c)).
Proof.
  intros H Hp Hfree. pose proof H as [].
  assert (forall c', l ∉ held c') as Hno by (intros c' Hin; by apply (Hfree c'), (owns_held s held)).
  assert (locked (locks s l) = false) as Hl.
  { destruct (locked (locks s l)) eqn:E; [| done]. apply k_locked0 in E as [c' Hin]. by destruct (Hno c'). }
  destruct (acquire_run fuel s c l Hl) as (s' & Hr & Hc). exists s'. split; [done |]. split; [| done].
  pose proof (k_noff0 c) as E. rewrite Hp in E. simpl in E.
  eapply (inv_changed s s' held c _ l _ ({[l]} ∪ held c) H Hc); simpl; rewrite ?Hp; simpl; try done.
  - rewrite size_union by set_solver. rewrite size_singleton. lia.
  - set_solver.
  - split; [intros _; left; set_solver | done].
  - intros _. split; [done | by left].
  - intros c' [= <-]. rewrite decide_True by done. set_solver.
  - intros c' Hne Hc'. by destruct (k_cpu0 c' l Hc') as [?%Hno _].
Qed.

Lemma release_ok s held c l :
  lock_inv s held -> pc (harts s c) = Idle -> lcpu (locks s l) = Some c ->
  exists s', release c l s = Ok (tt, s') /\
    let h := harts s c in
    changed s s' c (mkhart (noff h - 1) (intena h) ((noff h - 1 =? 0) && intena h) Idle) l (mklock false None).
Proof.
  intros H Hp Hc. pose proof H as []. destruct (k_cpu0 c l Hc) as [Hin _].
  assert (locked (locks s l) = true) as Hl by (apply k_locked0; eauto).
  pose proof (k_noff0 c) as E. rewrite Hp in E. simpl in E.
  assert (size (held c) <> 0%nat) as Hsz by (apply size_non_empty_iff; set_solver).
  unfold release, release_enter, holding. rewrite bind_assoc. mrun.
  rewrite Hl, Hc, bool_decide_eq_true_2 by done. cbn [andb negb]. rewrite bind_assoc.
  unfold set_lock at 1, goto, set_hart. mrun. set (s1 := mklst _ _).
  destruct (release_done_changed c l s1) as (s2 & Hr & [A1 A2 A3 A4]).
  { unfold s1. cbn. rewrite fset_eq. cbn. apply k_intr0. lia. }
  { unfold s1. cbn. rewrite fset_eq. cbn. lia. }
  exists s2. split; [done |]. unfold s1 in A1, A2, A3, A4. cbn [harts locks] in *. rewrite !fset_eq in *. cbn in *.
  split; [done | | done |]; intros; rewrite ?A2, ?A4, ?fset_ne by done; done.
Qed.

(** ** Properties *)

(** C5: mutual exclusion.  In every interleaving of harts acquiring and releasing spin
    locks, at most one hart owns a lock, an owned lock is marked locked, a hart that owns a
    lock has its interrupts off, and its nesting count is the number of locks it owns, plus
    one while it spins for another one. *)
Theorem spinlock_exclusive (s : lstate) (Hr : lreach s) :
  (forall c c' l, owns s c l -> owns s c' l -> c = c') /\
  (forall c l, owns s c l -> locked (locks s l) = true /\ sie (harts s c) = false) /\
  (forall c, exists X : gset nat, (forall l, l ∈ X <-> owns s c l) /\
     noff (harts s c) = Z.of_nat (size X) + spinning (pc (harts s c))).
Proof.
  destruct (lreach_inv s Hr) as [held H]. pose proof H as []. repeat split.
  - intros c c' l Ho Ho'. apply (owns_held s held) in Ho, Ho'; eauto.
  - apply k_locked0. apply (owns_held s held) in H0; eauto.
  - apply (owns_held s held) in H0; [| done].
    apply k_intr0. rewrite k_noff0. assert (size (held c) <> 0%nat) by (apply size_non_empty_iff; set_solver).
    unfold spinning. case_match; lia.
  - intros c. exists (held c). split; [| apply k_noff0]. intros l. symmetry. by apply owns_held.
Qed.

(** [release] by the hart that holds the lock never panics, also when it holds others: it
    frees the lock, and turns interrupts back on exactly when this was the outermost
    lock and they were on before. *)
Lemma release_safe (s : lstate) (c l : nat) (Hr : lreach s) (Hp : pc (harts s c) = Idle)
    (Hc : lcpu (locks s l) = Some c) :
  exists s', release c l s = Ok (tt, s') /\ locks s' l = mklock false None /\
    noff (harts s' c) = noff (harts s c) - 1 /\
    sie (harts s' c) = (noff (harts s c) =? 1) && intena (harts s c).
Proof.
  destruct (lreach_inv s Hr) as [held H]. destruct (release_ok s held c l H Hp Hc) as (s' & Hrun & [E1 _ E3 _]).
  exists s'. rewrite E1, E3. split_and!; try done. cbn. f_equal.
  destruct (Z.eqb_spec (noff (harts s c) - 1) 0), (Z.eqb_spec (noff (harts s c)) 1); lia.
Qed.

(** [sleep] called with exactly its condition lock held reaches the context switch: it
    takes the free process lock, releases the condition lock, and none of the checks of
    [sched] on locks and interrupts fails. *)
Lemma sleep_reaches_sched (fuel : nat) (s : lstate) (c lk pl : nat) (Hr : lreach s)
    (Hp : pc (harts s c) = Idle) (Hlk : lcpu (locks s lk) = Some c) (H1 : noff (harts s c) = 1)
    (Hfree : forall c', ~ owns s c' pl) :
  exists s', sleep_locks (S fuel) c lk pl s = Ok (tt, s') /\ locks s' lk = mklock false None /\
    lcpu (locks s' pl) = Some c.
Proof.
  destruct (lreach_inv s Hr) as [held H]. assert (lk <> pl) as Hne by (intros ->; apply (Hfree c); by left).
  destruct (acquire_ok fuel s held c pl H Hp Hfree) as (s1 & R1 & I1 & [A1 A2 A3 A4]).
  destruct (release_ok s1 _ c lk I1) as (s2 & R2 & [B1 B2 B3 B4]); [by rewrite A1 | by rewrite A4 |].
  exists s2. rewrite B3, B4, A3 by done. split_and!; try done. unfold sleep_locks. mrun with R1. mrun with R2.
  unfold sched_checks, holding, intr_get. mrun. rewrite B4, A3 by done. cbn.
  rewrite bool_decide_eq_true_2 by done. cbn. mrun. rewrite B1, A1, H1. cbn [noff].
  change (1 + 1 - 1 =? 1) with true. cbn [negb]. mrun. rewrite B1, A1, H1. done.
Qed.

(** ** Sleep locks *)

Module Sleeplock.

(** [struct sleeplock]; its spin lock makes each operation below atomic. *)
Record sleeplock : Type := mk { sl_locked : bool; sl_pid : Z }.

Definition initsleeplock : sleeplock := mk false 0.

(** One pass of [acquiresleep] by process [pid]: [None] when it has to sleep. *)
Definition acquiresleep (pid : Z) (lk : sleeplock) : option sleeplock :=
  if sl_locked lk then None else Some (mk true pid).

Definition releasesleep (lk : sleeplock) : sleeplock := mk false 0.

Definition holdingsleep (pid : Z) (lk : sleeplock) : bool := sl_locked lk && (sl_pid lk =? pid).

(** Processes that use the lock: [inside] are those between acquire and release. *)
Inductive sstep : sleeplock * list Z -> sleeplock * list Z -> Prop :=
  | SAcquire pid lk lk' inside :
      acquiresleep pid lk = Some lk' -> sstep (lk, inside) (lk', pid :: inside)
  | SRelease pid lk inside inside' :
      pid ∈ inside -> inside' = list_difference inside [pid] ->
      sstep (lk, inside) (releasesleep lk, inside').

Inductive sreach : sleeplock * list Z -> Prop :=
  | SInit : sreach (initsleeplock, [])
  | SNext x y : sreach x -> sstep x y -> sreach y.

Lemma sreach_inv lk inside :
  sreach (lk, inside) ->
  (sl_locked lk = false /\ inside = []) \/ (exists pid, lk = mk true pid /\ inside = [pid]).
Proof.
  intros H. remember (lk, inside) as x eqn:E. revert lk inside E. induction H as [|x y _ IH Hs]; intros lk inside E.
  - injection E as <- <-. by left.
  - destruct Hs as [pid lk0 lk1 ins Ha|pid lk0 ins ins' Hin ->]; injection E as <- <-.
    + unfold acquiresleep in Ha. destruct (sl_locked lk0) eqn:El; [done |]. injection Ha as <-.
      destruct (IH lk0 ins eq_refl) as [[_ ->]|(p & -> & _)]; [right; eauto | done].
    + destruct (IH lk0 ins eq_refl) as [[_ ->]|(p & -> & ->)]; [by apply not_elem_of_nil in Hin |].
      apply list_elem_of_singleton in Hin as ->. left. split; [done |]. cbn. destruct (decide_rel _ _ _); [done | set_solver].
Qed.

(** A sleep lock admits one process at a time, and [holdingsleep] is true exactly for the
    process inside. *)
Lemma sleeplock_exclusive (lk : sleeplock) (inside : list Z) (Hr : sreach (lk, inside)) (pid : Z) :
  (length inside <= 1)%nat /\ (holdingsleep pid lk = true <-> inside = [pid]).
Proof.
  destruct (sreach_inv lk inside Hr) as [[Hl ->]|(p & -> & ->)]; simpl; unfold holdingsleep.
  - rewrite Hl. simpl. split; [lia | done].
  - simpl. rewrite Z.eqb_eq. split; [lia |]. split; [by intros -> | by intros [= ->]].
Qed.

End Sleeplock.

(** ** Witnesses *)

(** Hart 0 holds lock 3. *)
Definition held_state : lstate :=
  match acquire 1 0 3 linit with Ok (_, s) => s | _ => linit end.

Lemma held_state_reach : lreach held_state.
Proof.
  eapply LStep; [eapply LStep; [eapply LStep; [apply LInit |] |] |].
  - apply (LEnter 0 3 linit); reflexivity.
  - eapply (LTry 0 3 true); reflexivity.
  - eapply (LGot 0 3); reflexivity.
Qed.

Lemma spinlock_exclusive_witness :
  (forall c c' l, owns held_state c l -> owns held_state c' l -> c = c') /\
  (forall c l, owns held_state c l -> locked (locks held_state l) = true /\ sie (harts held_state c) = false) /\
  (forall c, exists X : gset nat, (forall l, l ∈ X <-> owns held_state c l) /\
     noff (harts held_state c) = Z.of_nat (size X) + spinning (pc (harts held_state c))).
Proof. exact (spinlock_exclusive held_state held_state_reach). Defined.

