(* ===== verification/Pipe.v ===== *)
(** * Pipe: [kernel/pipe.c]

    The ring buffer with its two free-running [uint] counters.  [pipewrite] and [piperead] run
    under the pipe's lock until they return or have to sleep ([PSleep], with the index
    reached so far; the call continues from there); the channels they wake are
    collected in order.  Both are proved to be operations on a FIFO queue of at most
    [PIPESIZE] bytes, also when the counters wrap around. *)

From stdpp Require Import base list strings.
From Stdlib Require Import ZArith Lia.
From S2P Require Import Prelude Ring Riscv Mem Kalloc Vm PageTable.

Definition PIPESIZE : Z := 512.

(** ** Code *)

Record pipe : Type := mkpipe {
  data : list Z;
  nread : Z;
  nwrite : Z;
  readopen : bool;
  writeopen : bool;
}.

(** The two sleep channels, [&pi->nread] and [&pi->nwrite]. *)
Inductive pchan : Type := ChRead | ChWrite.

Inductive presult : Type :=
  | PReturn (v : Z) (p : pipe) (wakes : list pchan)
  | PSleep (ch : pchan) (i : Z) (p : pipe) (wakes : list pchan).

(** The fields [pipealloc] sets in a fresh page with contents [d]. *)
Definition pipe_init (d : list Z) : pipe := mkpipe d 0 0 true true.

(** [pi->data[pi->nwrite++ % PIPESIZE] = ch] *)
Definition push (ch : Z) (p : pipe) : pipe :=
  mkpipe (<[Z.to_nat (nwrite p mod PIPESIZE) := ch]> (data p)) (nread p) (u32 (nwrite p + 1))
    (readopen p) (writeopen p).

(** [ch = pi->data[pi->nread++ % PIPESIZE]] *)
Definition pop (p : pipe) : Z * pipe :=
  (nth (Z.to_nat (nread p mod PIPESIZE)) (data p) 0,
   mkpipe (data p) (u32 (nread p + 1)) (nwrite p) (readopen p) (writeopen p)).

(** [pipeclose]: the pipe, the channel woken, and whether its page is freed. *)
Definition pipeclose (writable : bool) (p : pipe) : pipe * pchan * bool :=
  let '(p', ch) := if writable then (mkpipe (data p) (nread p) (nwrite p) (readopen p) false, ChRead)
                   else (mkpipe (data p) (nread p) (nwrite p) false (writeopen p), ChWrite) in
  (p', ch, negb (readopen p') && negb (writeopen p')).

Section Code.
Context `{I : Image}.

(** The loop of [pipewrite] from index [i]; the killed flag of the process is [killed]. *)
Fixpoint pipewrite_loop (fuel : nat) (pt addr n i : Z) (killed : bool) (p : pipe) : M vm presult :=
  if negb (i <? n) then ret (PReturn i p [ChRead]) else
  match fuel with
  | O => diverge
  | S f =>
      if negb (readopen p) || killed then ret (PReturn (-1) p []) else
      if nwrite p =? u32 (nread p + PIPESIZE) then ret (PSleep ChWrite i p [ChRead]) else
      let! r := copyin pt (u64 (addr + i)) 1 in
      let '(st, bytes) := r in
      if st =? -1 then ret (PReturn i p [ChRead])
      else pipewrite_loop f pt addr n (i + 1) killed (push (hd 0 bytes) p)
  end.

Definition pipewrite (pt addr n i : Z) (killed : bool) (p : pipe) : M vm presult :=
  pipewrite_loop (Z.to_nat (n - i)) pt addr n i killed p.

(** The copying loop of [piperead]. *)
Fixpoint piperead_loop (fuel : nat) (pt addr n i : Z) (p : pipe) : M vm presult :=
  if negb (i <? n) then ret (PReturn i p [ChWrite]) else
  match fuel with
  | O => diverge
  | S f =>
      if nread p =? nwrite p then ret (PReturn i p [ChWrite]) else
      let '(ch, p') := pop p in
      let! r := copyout pt (u64 (addr + i)) [ch] in
      if r =? -1 then ret (PReturn i p' [ChWrite])
      else piperead_loop f pt addr n (i + 1) p'
  end.

Definition piperead (pt addr n : Z) (killed : bool) (p : pipe) : M vm presult :=
  if (nread p =? nwrite p) && writeopen p then
    if killed then ret (PReturn (-1) p []) else ret (PSleep ChRead 0 p [])
  else piperead_loop (Z.to_nat n) pt addr n 0 p.

End Code.

(** ** The queue a pipe stands for *)

Definition holds (p : pipe) (q : list Z) : Prop :=
  ringq PIPESIZE (2 ^ 32) (data p) (nread p) (nwrite p) q.

(** ** Lemmas *)

#[export] Instance pipe_ring : RingSize PIPESIZE (2 ^ 32).
Proof. split; [done | done |]. by exists (2 ^ 23). Qed.

Lemma empty_iff p q : holds p q -> (nread p =? nwrite p) = bool_decide (q = []).
Proof. intros H. rewrite Z.eqb_sym. by eapply rq_empty; first apply _. Qed.

Lemma full_iff p q : holds p q -> (nwrite p =? u32 (nread p + PIPESIZE)) = bool_decide (length q = 512%nat).
Proof.
  intros H. unfold u32. rewrite (rq_full PIPESIZE _ _ _ _ _ H).
  apply bool_decide_ext. unfold PIPESIZE. lia.
Qed.

Lemma push_holds ch p q :
  holds p q -> (length q < 512)%nat -> holds (push ch p) (q ++ [ch]).
Proof. intros H Hlt. apply rq_push; [apply _ | done | unfold PIPESIZE; lia]. Qed.

Lemma pop_holds p x q : holds p (x :: q) -> exists p', pop p = (x, p') /\ holds p' q.
Proof.
  intros H. eexists. split.
  - unfold pop. f_equal. apply nth_lookup_Some. exact (rq_head _ _ _ _ _ _ _ H).
  - eapply rq_pop; [apply _ | exact H].
Qed.

(** A read of one byte changes nothing and cannot panic. *)
Lemma copyin_1 pt va (s : vm) :
  exists st bytes, copyin pt va 1 s = Ok ((st, bytes), s) /\ (st = -1 \/ (st = 0 /\ exists b, bytes = [b])).
Proof.
  unfold copyin. change (Z.to_nat 1) with 1%nat. simpl copyin_loop.
  rewrite (bind_ok _ _ _ _ _ (walkaddr_eval pt (PGROUNDDOWN va) s)). destruct (_ =? 0); [eauto 6 |].
  mrun. pose proof (PGROUNDDOWN_bounds va) as Hb. unfold PGSIZE in *.
  set (d := 4096 - (va - PGROUNDDOWN va)) in *.
  assert ((if 1 <? d then 1 else d) = 1) as -> by (destruct (Z.ltb_spec 1 d); unfold d in *; lia).
  change (1 - 1) with 0. cbn. eexists 0, _. split; [reflexivity |]. right. eauto.
Qed.

Section Theory.
Context `{I : Image}.

(** How a turn of [pipewrite] from position [i] ends, the bytes [l] having been appended to the
    queue [q] of pipe [p]: at once with -1 when bytes are left but nobody reads or the writer is
    killed; asleep before position [v] on a full queue; or back with [v], because [n] is reached
    or the byte at [v] cannot be read.  The ends of the pipe stay as they are. *)
Definition write_ends (pt addr n i : Z) (killed : bool) (p : pipe) (q l : list Z) (s : vm) (r : presult) : Prop :=
  let v := i + Z.of_nat (length l) in
  let stops := negb (readopen p) || killed in
  (forall j x, l !! j = Some x -> copyin pt (u64 (addr + (i + Z.of_nat j))) 1 s = Ok ((0, [x]), s)) /\
  Z.of_nat (length l) <= Z.max 0 (n - i) /\
  exists p', holds p' (q ++ l) /\ readopen p' = readopen p /\ writeopen p' = writeopen p /\
    if (i <? n) && stops then r = PReturn (-1) p' [] /\ l = []
    else if v <? n then
      if bool_decide (length (q ++ l) = 512%nat) then r = PSleep ChWrite v p' [ChRead]
      else r = PReturn v p' [ChRead] /\ exists b, copyin pt (u64 (addr + v)) 1 s = Ok ((-1, b), s)
    else r = PReturn v p' [ChRead].

Lemma pipewrite_loop_holds fuel pt addr n i killed p q (s : vm) :
  holds p q -> 0 <= i -> (Z.to_nat (n - i) <= fuel)%nat ->
  exists r l, pipewrite_loop fuel pt addr n i killed p s = Ok (r, s) /\ write_ends pt addr n i killed p q l s r.
Proof.
  revert i p q. induction fuel as [|f IH]; intros i p q Hq Hi Hf; simpl; unfold write_ends; destruct (Z.ltb_spec i n); cbn [negb andb]; try lia;
    try (eexists _, []; split; [reflexivity |]; split_and!; [done | cbn; lia |]; exists p; rewrite app_nil_r; cbn [length Z.of_nat];
         rewrite Z.add_0_r; split_and!; try done; destruct (Z.ltb_spec i n); [lia | done]).
  destruct (negb (readopen p) || killed) eqn:Ek.
  { eexists _, []. split; [reflexivity |]. split_and!; [done | cbn; lia |]. exists p. by rewrite app_nil_r. }
  rewrite (full_iff p q Hq). case_bool_decide as Hfull.
  { eexists _, []. split; [reflexivity |]. split_and!; [done | cbn; lia |]. exists p. rewrite app_nil_r. cbn [length Z.of_nat].
    rewrite Z.add_0_r, bool_decide_eq_true_2 by done. destruct (Z.ltb_spec i n); [done | lia]. }
  destruct (copyin_1 pt (u64 (addr + i)) s) as (st & bytes & Hrun & [-> |(-> & b & ->)]); mrun with Hrun.
  { cbn. eexists _, []. split; [reflexivity |]. split_and!; [done | cbn; lia |]. exists p. rewrite app_nil_r. cbn [length Z.of_nat].
    rewrite Z.add_0_r, bool_decide_eq_false_2 by done. destruct (Z.ltb_spec i n); [by eauto 7 | lia]. }
  cbn [Z.eqb hd]. pose proof (rq_cap _ _ _ _ _ _ Hq). unfold PIPESIZE in *.
  destruct (IH (i + 1) (push b p) (q ++ [b])) as (r & l & Hr & Hl & Hn & p' & Hh & Hro & Hwo & Hres); [by apply push_holds; [| lia] | lia | lia |].
  exists r, (b :: l). split; [exact Hr |]. change (readopen (push b p)) with (readopen p) in *.
  change (writeopen (push b p)) with (writeopen p) in *. rewrite Ek, andb_false_r in Hres. rewrite <- app_assoc in *. cbn [app length] in *.
  replace (i + Z.of_nat (S (length l))) with (i + 1 + Z.of_nat (length l)) by lia. split_and!; [| lia | by eauto 6].
  intros [|j] x Hx; [injection Hx as <-; by rewrite Z.add_0_r |]. specialize (Hl j x Hx). rewrite <- Hl. do 2 f_equal. lia.
Qed.

(** The read loop takes bytes from the front of the queue; when a copy to the caller fails,
    the byte it was to deliver is gone. *)
Lemma piperead_loop_holds fuel pt addr n i p q (s : vm) r s' :
  holds p q -> 0 <= i -> (Z.to_nat (n - i) <= fuel)%nat ->
  piperead_loop fuel pt addr n i p s = Ok (r, s') ->
  exists v p' l rest, r = PReturn v p' [ChWrite] /\ q = l ++ rest /\ holds p' rest /\
    (v = i + Z.of_nat (length l) \/ v = i + Z.of_nat (length l) - 1) /\
    readopen p' = readopen p /\ writeopen p' = writeopen p.
Proof.
  revert i p q s. induction fuel as [|f IH]; intros i p q s Hq Hi Hf; cbn [piperead_loop]; destruct (Z.ltb_spec i n); cbn [negb]; try lia.
  1, 3: intros [= <- <-]; eexists _, _, [], q; split_and!; [done | done | done | left; simpl; lia | done..].
  rewrite (empty_iff p q Hq). case_bool_decide as He.
  { intros [= <- <-]. eexists _, _, [], q. split_and!; [done | done | done | left; simpl; lia | done..]. }
  destruct q as [|x q]; [done |]. destruct (pop_holds p x q Hq) as (p1 & Hpop & Hp1). rewrite Hpop.
  assert (readopen p1 = readopen p /\ writeopen p1 = writeopen p) as [E1 E2] by (injection Hpop as _ <-; done).
  intros (st & s1 & _ & H1)%bind_Ok_inv. destruct (st =? -1).
  { injection H1 as <- <-. eexists _, _, [x], q. split_and!; [done | done | done | right; simpl; lia | done..]. }
  destruct (IH (i + 1) p1 q s1 Hp1 ltac:(lia) ltac:(lia) H1) as (v & p' & l & rest & -> & -> & Hh & Hv & E3 & E4).
  eexists v, p', (x :: l), rest. split_and!; try done; [| congruence..]. cbn [length]. lia.
Qed.
(** ** Properties *)

(** C23: a turn of [pipewrite], from its start or from where it slept, always returns or sleeps
    and changes no user memory.  It appends to the pipe's queue the next bytes of the caller's
    memory, in order and no more than [n - i]; it goes on until all are written, the queue
    holds [PIPESIZE] bytes, or a byte cannot be read.  On a full queue it wakes the readers
    and sleeps; otherwise it wakes the readers and returns the number of bytes written so far.  When
    bytes are left and the read end is closed or the process is killed it returns -1
    and writes nothing.  The counters may wrap around at 32 bits. *)
Theorem pipewrite_appends (pt addr n i : Z) (killed : bool) (p : pipe) (q : list Z) (s : vm)
    (Hq : holds p q) (Hi : 0 <= i) :
  exists r l, pipewrite pt addr n i killed p s = Ok (r, s) /\
    let v := i + Z.of_nat (length l) in
    (forall j x, l !! j = Some x -> copyin pt (u64 (addr + (i + Z.of_nat j))) 1 s = Ok ((0, [x]), s)) /\
    Z.of_nat (length l) <= Z.max 0 (n - i) /\
    exists p', holds p' (q ++ l) /\ readopen p' = readopen p /\ writeopen p' = writeopen p /\
      if (i <? n) && (negb (readopen p) || killed) then r = PReturn (-1) p' [] /\ l = []
      else if v <? n then
        if bool_decide (length (q ++ l) = 512%nat) then r = PSleep ChWrite v p' [ChRead]
        else r = PReturn v p' [ChRead] /\ exists b, copyin pt (u64 (addr + v)) 1 s = Ok ((-1, b), s)
      else r = PReturn v p' [ChRead].
Proof. by apply pipewrite_loop_holds. Qed.

(** [piperead] sleeps exactly on an empty pipe whose write end is open (unless killed);
    otherwise it takes bytes from the front of the queue, in order, wakes the writers and
    returns how many it delivered; when a copy to user memory fails the byte at hand is
    lost. *)
Lemma piperead_takes (pt addr n : Z) (killed : bool) (p : pipe) (q : list Z) (s : vm) (r : presult) (s' : vm)
    (Hq : holds p q) (Hrun : piperead pt addr n killed p s = Ok (r, s')) :
  if bool_decide (q = []) && writeopen p
  then s' = s /\ r = (if killed then PReturn (-1) p [] else PSleep ChRead 0 p [])
  else exists v p' l rest, r = PReturn v p' [ChWrite] /\ q = l ++ rest /\ holds p' rest /\
         (v = Z.of_nat (length l) \/ v = Z.of_nat (length l) - 1) /\
         readopen p' = readopen p /\ writeopen p' = writeopen p.
Proof.
  unfold piperead in Hrun. rewrite (empty_iff p q Hq) in Hrun. destruct (bool_decide (q = []) && writeopen p).
  - destruct killed; by injection Hrun as <- <-.
  - destruct (piperead_loop_holds (Z.to_nat n) pt addr n 0 p q s r s' Hq ltac:(done) ltac:(lia) Hrun) as (v & p' & l & rest & H).
    exists v, p', l, rest. naive_solver lia.
Qed.

End Theory.

(** ** Witnesses *)

(** A pipe whose counters are about to wrap around, holding two bytes. *)
Definition wrap_pipe : pipe :=
  mkpipe (<[511%nat := 66]> (<[510%nat := 65]> (replicate 512 0))) (2 ^ 32 - 2) 0 true true.

Lemma wrap_pipe_holds : holds wrap_pipe [65; 66].
Proof.
  split; [reflexivity | done | done | reflexivity |].
  intros [|[|j]] Hj; [reflexivity | reflexivity | simpl in Hj; lia].
Qed.

(** Three bytes of user memory reach the pipe. *)
Lemma pipewrite_appends_witness :
  exists p' l, pipewrite user_pt 4096 3 0 false wrap_pipe user_vm = Ok (PReturn 3 p' [ChRead], user_vm) /\
    holds p' ([65; 66] ++ l) /\ length l = 3%nat /\ l !! 0%nat = Some 104.
Proof.
  destruct (pipewrite_appends user_pt 4096 3 0 false wrap_pipe [65; 66] user_vm wrap_pipe_holds ltac:(lia))
    as (r & l & Hrun & Hl & Hn & p' & Hh & _ & _ & Hr).
  assert (match value (pipewrite user_pt 4096 3 0 false wrap_pipe user_vm) with
          | Some (PReturn v _ w) => (v, w) = (3, [ChRead]) | _ => False end) as E by (vm_compute; reflexivity).
  rewrite Hrun in E. cbn [value] in E. destruct r as [v p'' w|]; [| destruct E]. injection E as -> ->.
  change ((0 <? 3) && (negb (readopen wrap_pipe) || false)) with false in Hr. cbv iota in Hr.
  assert (p'' = p' /\ length l = 3%nat) as [-> Hlen].
  { clear Hrun Hl Hh. destruct (Z.ltb_spec (0 + Z.of_nat (length l)) 3); [case_bool_decide; [done |]; destruct Hr as [[= E' _] _]; lia |].
    injection Hr as E' ->. split; [reflexivity | lia]. }
  exists p', l. split; [exact Hrun |]. split; [exact Hh |]. split; [exact Hlen |].
  destruct l as [|x l]; [discriminate Hlen |]. specialize (Hl 0%nat x eq_refl).
  assert (value (copyin user_pt (u64 (4096 + (0 + Z.of_nat 0))) 1 user_vm) = Some (0, [104])) as E1 by (vm_compute; reflexivity).
  rewrite Hl in E1. injection E1 as ->. reflexivity.
Defined.

