(* ===== verification/Bio.v ===== *)
(** * Bio: the buffer cache, [kernel/bio.c]

    [NBUF] buffers on a circular doubly linked list ordered by last use, above one disk.
    A [struct buf *] is an index; index [NBUF] is the list head [bcache.head].  The links
    are kept apart from the other fields of the buffers, as two maps.  A block's contents
    are the memory [data[0 .. BSIZE)].  The disk records the writes it has received, newest
    first, so that a crash between two writes can be described.

    The buffers' sleep locks are those of [Spinlock.Sleeplock]; the code runs for one process
    [me], and an [acquiresleep] that would have to wait does not return ([Diverge]).

    The second half is the interface the log and the file system use: the class [Cache] of
    operations, the abstract cache [acache] and the class [CacheOk] of their laws, and the
    proof that this code satisfies them. *)

From stdpp Require Import base list gmap sets strings.
From Stdlib Require Import ZArith Lia.
From S2P Require Import Prelude Riscv Mem Spinlock.

Definition BSIZE : Z := 1024.

Definition block : Type := mem.

(** ** Data *)

Record buf : Type := mkbuf {
  valid : bool;
  dev : Z;
  blockno : Z;
  lock : Sleeplock.sleeplock;
  refcnt : Z;
  bdata : block;
}.

Record bcache : Type := mkbcache {
  bufs : nat -> buf;
  next : nat -> nat;
  prev : nat -> nat;
  disk : Z -> block;
  writes : list (Z * block);
}.

Definition head : nat := NBUF.

Definition zset {A} (f : Z -> A) (b : Z) (v : A) : Z -> A := fun x => if x =? b then v else f x.

Definition set_buf (i : nat) (f : buf -> buf) (s : bcache) : bcache :=
  mkbcache (fset (bufs s) i (f (bufs s i))) (next s) (prev s) (disk s) (writes s).
Definition set_next (i v : nat) (s : bcache) : bcache :=
  mkbcache (bufs s) (fset (next s) i v) (prev s) (disk s) (writes s).
Definition set_prev (i v : nat) (s : bcache) : bcache :=
  mkbcache (bufs s) (next s) (fset (prev s) i v) (disk s) (writes s).

Definition set_blk (lk : Sleeplock.sleeplock) (b : buf) : buf :=
  mkbuf (valid b) (dev b) (blockno b) lk (refcnt b) (bdata b).
Definition set_refcnt (n : Z) (b : buf) : buf :=
  mkbuf (valid b) (dev b) (blockno b) (lock b) n (bdata b).
Definition set_bdata (d : block) (b : buf) : buf :=
  mkbuf (valid b) (dev b) (blockno b) (lock b) (refcnt b) d.
Definition set_valid (v : bool) (b : buf) : buf :=
  mkbuf v (dev b) (blockno b) (lock b) (refcnt b) (bdata b).

(** ** Code *)

(** The body of the loop of [binit]: insert [b] after the head. *)
Definition binit_one (b : nat) : M bcache unit :=
  let! hn := gets (fun s => next s head) in
  do! modify (set_next b hn) in
  do! modify (set_prev b head) in
  do! modify (set_buf b (set_blk Sleeplock.initsleeplock)) in
  do! modify (set_prev hn b) in
  modify (set_next head b).

Fixpoint binit_loop (n : nat) (b : nat) : M bcache unit :=
  match n with
  | O => ret tt
  | S n' => do! binit_one b in binit_loop n' (S b)
  end.

Definition binit : M bcache unit :=
  do! modify (set_prev head head) in
  do! modify (set_next head head) in
  binit_loop NBUF 0.

(** The first loop of [bget], from [b] on: the buffer that caches the block. *)
Fixpoint bget_find (fuel : nat) (b : nat) (d bn : Z) : M bcache (option nat) :=
  if (b =? head)%nat then ret None else
  match fuel with
  | O => diverge
  | S f =>
      let! x := gets (fun s => bufs s b) in
      if (dev x =? d) && (blockno x =? bn) then ret (Some b) else
      let! b' := gets (fun s => next s b) in
      bget_find f b' d bn
  end.

(** The second loop: an unused buffer, from the least recently used end. *)
Fixpoint bget_free (fuel : nat) (b : nat) : M bcache (option nat) :=
  if (b =? head)%nat then ret None else
  match fuel with
  | O => diverge
  | S f =>
      let! x := gets (fun s => bufs s b) in
      if refcnt x =? 0 then ret (Some b) else
      let! b' := gets (fun s => prev s b) in
      bget_free f b'
  end.

Section Code.

(** The process that runs the code. *)
Context (me : Z).

Definition lock_buf (b : nat) : M bcache unit :=
  let! lk := gets (fun s => lock (bufs s b)) in
  match Sleeplock.acquiresleep me lk with
  | Some lk' => modify (set_buf b (set_blk lk'))
  | None => diverge
  end.

Definition bget (d bn : Z) : M bcache nat :=
  let! first := gets (fun s => next s head) in
  let! found := bget_find NBUF first d bn in
  match found with
  | Some b =>
      do! modify (set_buf b (fun x => set_refcnt (u32 (refcnt x + 1)) x)) in
      do! lock_buf b in
      ret b
  | None =>
      let! last := gets (fun s => prev s head) in
      let! free := bget_free NBUF last in
      match free with
      | Some b =>
          do! modify (set_buf b (fun x => mkbuf false d bn (lock x) 1 (bdata x))) in
          do! lock_buf b in
          ret b
      | None => panic "bget: no buffers"
      end
  end.

(** [virtio_disk_rw], once the device has answered. *)
Definition virtio_disk_rw (b : nat) (write : bool) : M bcache unit :=
  if write then
    modify (fun s => let x := bufs s b in
      mkbcache (bufs s) (next s) (prev s) (zset (disk s) (blockno x) (bdata x))
        ((blockno x, bdata x) :: writes s))
  else modify (fun s => set_buf b (set_bdata (disk s (blockno (bufs s b)))) s).

Definition bread (d bn : Z) : M bcache nat :=
  let! b := bget d bn in
  let! v := gets (fun s => valid (bufs s b)) in
  if (v : bool) then ret b else
  do! virtio_disk_rw b false in
  do! modify (set_buf b (set_valid true)) in
  ret b.

Definition bwrite (b : nat) : M bcache unit :=
  let! lk := gets (fun s => lock (bufs s b)) in
  if negb (Sleeplock.holdingsleep me lk) then panic "bwrite" else virtio_disk_rw b true.

(** The list operations of [brelse]: unlink [b], then insert it after the head. *)
Definition move_front (b : nat) : M bcache unit :=
  let! bn := gets (fun s => next s b) in
  let! bp := gets (fun s => prev s b) in
  do! modify (set_prev bn bp) in
  do! modify (set_next bp bn) in
  let! hn := gets (fun s => next s head) in
  do! modify (set_next b hn) in
  do! modify (set_prev b head) in
  do! modify (set_prev hn b) in
  modify (set_next head b).

Definition brelse (b : nat) : M bcache unit :=
  let! lk := gets (fun s => lock (bufs s b)) in
  if negb (Sleeplock.holdingsleep me lk) then panic "brelse" else
  do! modify (set_buf b (set_blk (Sleeplock.releasesleep lk))) in
  do! modify (set_buf b (fun x => set_refcnt (u32 (refcnt x - 1)) x)) in
  let! r := gets (fun s => refcnt (bufs s b)) in
  if r =? 0 then move_front b else ret tt.

Definition bpin (b : nat) : M bcache unit :=
  modify (set_buf b (fun x => set_refcnt (u32 (refcnt x + 1)) x)).

Definition bunpin (b : nat) : M bcache unit :=
  modify (set_buf b (fun x => set_refcnt (u32 (refcnt x - 1)) x)).

End Code.

(** ** Circular lists *)

(** Following [f] from [a] passes through [l] and ends in [c]. *)
Fixpoint fwd (f : nat -> nat) (a : nat) (l : list nat) (c : nat) : Prop :=
  match l with
  | [] => f a = c
  | x :: l' => f a = x /\ fwd f x l' c
  end.

Lemma fset_apart {A} (f : nat -> A) i j v : i <> j -> fset f i v j = f j.
Proof. intros H. by apply fset_ne. Qed.

Lemma fwd_app f a l1 x l2 c : fwd f a (l1 ++ x :: l2) c <-> fwd f a l1 x /\ fwd f x l2 c.
Proof.
  revert a. induction l1 as [|y l1 IH]; intros a; simpl; [done |]. rewrite IH. tauto.
Qed.

Lemma fwd_frame f g a l c : (forall y, y ∈ a :: l -> g y = f y) -> fwd f a l c -> fwd g a l c.
Proof.
  revert a. induction l as [|x l IH]; intros a Hg; simpl; [by rewrite Hg by set_solver |].
  intros [H1 H2]. rewrite Hg by set_solver. split; [done |]. apply IH; [| done]. set_solver.
Qed.

(** A path that starts elsewhere with the same successor. *)
Lemma fwd_start f g a b l c :
  g b = f a -> (forall y, y ∈ l -> g y = f y) -> fwd f a l c -> fwd g b l c.
Proof.
  intros Hb Hl. destruct l as [|x l]; simpl; [by rewrite Hb |]. rewrite Hb.
  intros [H1 H2]. split; [done |]. by eapply fwd_frame.
Qed.

Lemma last_cons (l : list nat) x a : List.last (x :: l) a = List.last l x.
Proof.
  revert x a. induction l as [|y l IH]; intros x a; [done |].
  transitivity (List.last (y :: l) a); [done |]. by rewrite !IH.
Qed.

Lemma last_in (l : list nat) a : List.last l a ∈ a :: l.
Proof.
  revert a. induction l as [|x l IH]; intros a; [set_solver |]. rewrite last_cons. specialize (IH x). set_solver.
Qed.

(** Redirecting the last link. *)
Lemma fwd_retarget f a l c d : NoDup (a :: l) -> fwd f a l c -> fwd (fset f (List.last l a) d) a l d.
Proof.
  revert a. induction l as [|x l IH]; intros a Hnd; [simpl; by rewrite fset_eq |].
  rewrite last_cons. intros [H1 H2]. apply NoDup_cons in Hnd as [Hin Hnd].
  split; [| by apply IH]. rewrite fset_apart; [done |]. intros <-. apply Hin, last_in.
Qed.

Lemma fwd_first f a l c : fwd f a l c -> f a = List.hd c l.
Proof. destruct l; simpl; tauto. Qed.

Lemma last_rev (l : list nat) a : List.last (rev l) a = List.hd a l.
Proof. destruct l as [|x l]; simpl; [done |]. apply List.last_last. Qed.

Lemma hd_rev (l : list nat) a : List.hd a (rev l) = List.last l a.
Proof. rewrite <- (rev_involutive l) at 2. by rewrite last_rev. Qed.

(** Taking [b] out of a path, given its predecessor. *)
Lemma fwd_unlink f h l1 b l2 p :
  NoDup (h :: l1 ++ b :: l2) -> p = List.last l1 h ->
  fwd f h (l1 ++ b :: l2) h -> fwd (fset f p (f b)) h (l1 ++ l2) h.
Proof.
  intros Hnd -> [H1 H2]%fwd_app.
  assert (NoDup (h :: l1)) as Hn1 by (apply NoDup_cons; apply NoDup_cons in Hnd as [? [? _]%NoDup_app]; set_solver).
  pose proof (last_in l1 h) as Hl.
  destruct l2 as [|y l2]; simpl in H2.
  - rewrite app_nil_r, H2. by eapply fwd_retarget.
  - destruct H2 as [-> H2]. apply fwd_app. split; [by eapply fwd_retarget |].
    eapply fwd_frame; [| exact H2]. intros z Hz. apply fset_apart. intros <-.
    apply NoDup_cons in Hnd as [Hh [_ [Hd _]]%NoDup_app].
    apply elem_of_cons in Hl as [E|Hl]; [| set_solver]. rewrite E in Hz. set_solver.
Qed.

(** The ring through [h] and [l]: [nx] runs through it, [pv] through its reverse. *)
Definition ring (nx pv : nat -> nat) (h : nat) (l : list nat) : Prop :=
  NoDup (h :: l) /\ fwd nx h l h /\ fwd pv h (rev l) h.

Lemma rev_reverse (l : list nat) : rev l = reverse l.
Proof. apply rev_alt. Qed.

Lemma NoDup_ring_rev (h : nat) (l : list nat) : NoDup (h :: l) -> NoDup (h :: rev l).
Proof. rewrite !NoDup_cons, rev_reverse. by rewrite elem_of_reverse, reverse_Permutation. Qed.

Lemma ring_unlink nx pv h l1 b l2 :
  ring nx pv h (l1 ++ b :: l2) ->
  ring (fset nx (pv b) (nx b)) (fset pv (nx b) (pv b)) h (l1 ++ l2).
Proof.
  intros (Hnd & Hf & Hb).
  assert (rev (l1 ++ b :: l2) = rev l2 ++ b :: rev l1) as Er by (rewrite rev_app_distr; simpl; by rewrite <- app_assoc).
  pose proof (NoDup_ring_rev _ _ Hnd) as Hnr. rewrite Er in Hb, Hnr.
  pose proof (proj2 (proj1 (fwd_app _ _ _ _ _ _) Hf)) as H1. apply fwd_first in H1.
  pose proof (proj2 (proj1 (fwd_app _ _ _ _ _ _) Hb)) as H2. apply fwd_first in H2.
  rewrite hd_rev in H2. split_and!.
  - assert (h :: l1 ++ b :: l2 ≡ₚ b :: h :: l1 ++ l2) as E by (rewrite <- Permutation_middle; constructor).
    rewrite E in Hnd. by apply NoDup_cons in Hnd as [_ Hnd].
  - by apply fwd_unlink.
  - rewrite rev_app_distr. apply fwd_unlink; [done | by rewrite last_rev | done].
Qed.

Lemma ring_push nx pv h l b :
  ring nx pv h l -> b ∉ h :: l ->
  ring (fset (fset nx b (nx h)) h b) (fset (fset pv b h) (nx h) b) h (b :: l).
Proof.
  intros (Hnd & Hf & Hb) Hin. pose proof (fwd_first _ _ _ _ Hf) as Eh.
  assert (h <> b /\ b ∉ l) as [Hhb Hbl] by set_solver. apply NoDup_cons in Hnd as Hnd'. destruct Hnd' as [Hhl Hl].
  split_and!.
  - rewrite !NoDup_cons. set_solver.
  - simpl. rewrite fset_eq. split; [done |]. eapply fwd_start; [| | exact Hf].
    + by rewrite fset_apart, fset_eq by done.
    + intros y Hy. rewrite !fset_apart; set_solver.
  - simpl. apply fwd_app. split.
    + rewrite Eh, <- last_rev. apply fwd_retarget with h; [by apply NoDup_ring_rev |].
      eapply fwd_frame; [| exact Hb]. intros y Hy. apply fset_apart. intros <-.
      apply elem_of_cons in Hy as [->|Hy]; [done |]. rewrite rev_reverse, elem_of_reverse in Hy. done.
    + simpl. rewrite fset_apart, fset_eq; [done |]. rewrite Eh. destruct l; set_solver.
Qed.

(** ** The interface of the cache *)

(** The cache as its clients see it: every block has contents ([a_view]), which may be
    newer than the disk's; blocks are held by a client under a handle, and pinned. *)
Record acache : Type := mkacache {
  a_disk : Z -> block;
  a_view : Z -> block;
  a_pinned : gset Z;
  a_held : gmap Z nat;
  a_writes : list (Z * block);
}.

Definition a_boot (d : Z -> block) : acache := mkacache d d ∅ ∅ [].
Definition a_hold (b : Z) (h : nat) (a : acache) : acache :=
  mkacache (a_disk a) (a_view a) (a_pinned a) (<[b := h]> (a_held a)) (a_writes a).
Definition a_unhold (b : Z) (a : acache) : acache :=
  mkacache (a_disk a) (a_view a) (a_pinned a) (delete b (a_held a)) (a_writes a).
Definition a_set (b : Z) (v : block) (a : acache) : acache :=
  mkacache (a_disk a) (zset (a_view a) b v) (a_pinned a) (a_held a) (a_writes a).
Definition a_flush (b : Z) (a : acache) : acache :=
  mkacache (zset (a_disk a) b (a_view a b)) (a_view a) (a_pinned a) (a_held a)
    ((b, a_view a b) :: a_writes a).
Definition a_pin (b : Z) (a : acache) : acache :=
  mkacache (a_disk a) (a_view a) ({[b]} ∪ a_pinned a) (a_held a) (a_writes a).
Definition a_unpin (b : Z) (a : acache) : acache :=
  mkacache (a_disk a) (a_view a) (a_pinned a ∖ {[b]}) (a_held a) (a_writes a).

(** The blocks that keep a buffer busy. *)
Definition busy (a : acache) : gset Z := a_pinned a ∪ dom (a_held a).

(** The operations, on a state [S]; [c_get], [c_set] and [c_blockno] are the accesses
    [b->data] and [b->blockno] of a caller that holds the buffer. *)
Class Cache (S : Type) : Type := {
  c_boot : (Z -> block) -> S;
  c_bread : Z -> Z -> M S nat;
  c_bwrite : nat -> M S unit;
  c_brelse : nat -> M S unit;
  c_bpin : nat -> M S unit;
  c_bunpin : nat -> M S unit;
  c_get : nat -> M S block;
  c_set : nat -> block -> M S unit;
  c_blockno : nat -> M S Z;
}.

(** What the operations promise, relative to an abstract cache the state represents. *)
Class CacheOk (S : Type) `{Cache S} : Type := {
  rep : S -> acache -> Prop;
  boot_ok d : rep (c_boot d) (a_boot d);
  clean_ok s a b : rep s a -> b ∉ a_pinned a -> a_held a !! b = None -> a_view a b = a_disk a b;
  bread_ok s a b :
    rep s a -> a_held a !! b = None -> (size ({[b]} ∪ busy a) <= NBUF)%nat ->
    exists h s', c_bread ROOTDEV b s = Ok (h, s') /\ rep s' (a_hold b h a);
  get_ok s a b h : rep s a -> a_held a !! b = Some h -> c_get h s = Ok (a_view a b, s);
  blockno_ok s a b h : rep s a -> a_held a !! b = Some h -> c_blockno h s = Ok (b, s);
  set_ok s a b h v :
    rep s a -> a_held a !! b = Some h -> exists s', c_set h v s = Ok (tt, s') /\ rep s' (a_set b v a);
  bwrite_ok s a b h :
    rep s a -> a_held a !! b = Some h -> exists s', c_bwrite h s = Ok (tt, s') /\ rep s' (a_flush b a);
  bpin_ok s a b h :
    rep s a -> a_held a !! b = Some h -> b ∉ a_pinned a ->
    exists s', c_bpin h s = Ok (tt, s') /\ rep s' (a_pin b a);
  bunpin_ok s a b h :
    rep s a -> a_held a !! b = Some h -> b ∈ a_pinned a ->
    exists s', c_bunpin h s = Ok (tt, s') /\ rep s' (a_unpin b a);
  brelse_ok s a b h :
    rep s a -> a_held a !! b = Some h -> b ∈ a_pinned a \/ a_view a b = a_disk a b ->
    exists s', c_brelse h s = Ok (tt, s') /\ rep s' (a_unhold b a);
}.

(** ** The code satisfies the interface *)

Definition buf0 : buf := mkbuf false 0 0 Sleeplock.initsleeplock 0 (fun _ => 0).

(** The cache as the loader leaves it, above a disk. *)
Definition bcache0 (d : Z -> block) : bcache :=
  mkbcache (fun _ => buf0) (fun _ => 0%nat) (fun _ => 0%nat) d [].

#[export] Instance bio_cache (me : Z) : Cache bcache := {
  c_boot d := match binit (bcache0 d) with Ok (_, s) => s | _ => bcache0 d end;
  c_bread := bread me;
  c_bwrite := bwrite me;
  c_brelse := brelse me;
  c_bpin := bpin;
  c_bunpin := bunpin;
  c_get b := gets (fun s => bdata (bufs s b));
  c_set b v := modify (set_buf b (set_bdata v));
  c_blockno b := gets (fun s => blockno (bufs s b));
}.

(** Buffer [i] is the one for block [b]. *)
Definition cached (s : bcache) (i : nat) (b : Z) : Prop :=
  (i < NBUF)%nat /\ dev (bufs s i) = ROOTDEV /\ blockno (bufs s i) = b.

Definition b2z (P : Prop) `{Decision P} : Z := if bool_decide P then 1 else 0.

(** What the cache keeps about a buffer in use. *)
Definition buf_ok (me : Z) (a : acache) (i : nat) (x : buf) : Prop :=
  valid x = true /\ bdata x = a_view a (blockno x) /\
  refcnt x = b2z (a_held a !! blockno x = Some i) + b2z (blockno x ∈ a_pinned a) /\
  lock x = Sleeplock.mk (bool_decide (a_held a !! blockno x = Some i))
             (if bool_decide (a_held a !! blockno x = Some i) then me else 0).

Record cache_rep (me : Z) (s : bcache) (a : acache) : Prop := {
  cr_ring : exists l, (l ≡ₚ seq 0 NBUF) /\ ring (next s) (prev s) head l;
  cr_uniq : forall i j b, cached s i b -> cached s j b -> i = j;
  cr_free : forall i, (i < NBUF)%nat -> dev (bufs s i) <> ROOTDEV ->
    refcnt (bufs s i) = 0 /\ lock (bufs s i) = Sleeplock.initsleeplock;
  cr_buf : forall i b, cached s i b -> buf_ok me a i (bufs s i);
  cr_held : forall b i, a_held a !! b = Some i -> cached s i b;
  cr_pin : forall b, b ∈ a_pinned a -> exists i, cached s i b;
  cr_clean : forall b, b ∉ a_pinned a -> a_held a !! b = None -> a_view a b = a_disk a b;
  cr_disk : forall b, disk s b = a_disk a b;
  cr_writes : writes s = a_writes a;
}.

(** *** Searching the list *)

Lemma bget_find_spec s d bn fuel a l :
  fwd (next s) a l head -> head ∉ l -> (length l <= fuel)%nat ->
  exists r, bget_find fuel (next s a) d bn s = Ok (r, s) /\
    match r with
    | Some i => i ∈ l /\ dev (bufs s i) = d /\ blockno (bufs s i) = bn
    | None => forall i, i ∈ l -> dev (bufs s i) = d -> blockno (bufs s i) <> bn
    end.
Proof.
  revert a fuel. induction l as [|x l IH]; intros a fuel Hf Hh Hlen.
  - simpl in Hf. rewrite Hf. exists None. split; [by destruct fuel | set_solver].
  - destruct Hf as [-> Hf]. destruct fuel as [|f]; simpl in Hlen; [lia |]. simpl.
    destruct (Nat.eqb_spec x head) as [->|_]; [set_solver |]. rewrite bind_gets.
    destruct (Z.eqb_spec (dev (bufs s x)) d), (Z.eqb_spec (blockno (bufs s x)) bn); simpl;
      [exists (Some x); split; [done | set_solver] |..]; rewrite bind_gets;
      (destruct (IH x f Hf ltac:(set_solver) ltac:(lia)) as (r & -> & Hr); exists r; split; [done |];
       destruct r; [set_solver |]; intros i [->|Hi]%elem_of_cons; [done || (by intros) | by apply Hr]).
Qed.

Lemma bget_free_spec s fuel a l :
  fwd (prev s) a l head -> head ∉ l -> (length l <= fuel)%nat ->
  exists r, bget_free fuel (prev s a) s = Ok (r, s) /\
    match r with
    | Some i => exists l1 l2, l = l1 ++ i :: l2 /\ refcnt (bufs s i) = 0 /\
                  forall j, j ∈ l1 -> refcnt (bufs s j) <> 0
    | None => forall i, i ∈ l -> refcnt (bufs s i) <> 0
    end.
Proof.
  revert a fuel. induction l as [|x l IH]; intros a fuel Hf Hh Hlen.
  - simpl in Hf. rewrite Hf. exists None. split; [by destruct fuel | set_solver].
  - destruct Hf as [-> Hf]. destruct fuel as [|f]; simpl in Hlen; [lia |]. simpl.
    destruct (Nat.eqb_spec x head) as [->|_]; [set_solver |]. rewrite bind_gets.
    destruct (Z.eqb_spec (refcnt (bufs s x)) 0); simpl.
    + exists (Some x). split; [done |]. exists [], l. set_solver.
    + rewrite bind_gets. destruct (IH x f Hf ltac:(set_solver) ltac:(lia)) as (r & -> & Hr).
      exists r. split; [done |]. destruct r as [i|].
      * destruct Hr as (l1 & l2 & -> & H0 & H1). exists (x :: l1), l2. set_solver.
      * set_solver.
Qed.

(** *** One buffer changes *)

Section Rep.
Context (me : Z).

Lemma rep_change s a s' a' i b :
  cache_rep me s a -> (i < NBUF)%nat ->
  (forall j, j <> i -> cached s j b -> False) ->
  (forall b', b' <> b -> cached s i b' -> (b' ∉ a_pinned a) /\ a_held a !! b' = None) ->
  (forall j, j <> i -> bufs s' j = bufs s j) ->
  dev (bufs s' i) = ROOTDEV -> blockno (bufs s' i) = b -> buf_ok me a' i (bufs s' i) ->
  (exists l, (l ≡ₚ seq 0 NBUF) /\ ring (next s') (prev s') head l) ->
  (forall b', b' <> b -> a_view a' b' = a_view a b' /\ a_held a' !! b' = a_held a !! b' /\
     (b' ∈ a_pinned a' <-> b' ∈ a_pinned a) /\ a_disk a' b' = a_disk a b') ->
  (forall j, a_held a' !! b = Some j -> j = i) ->
  (b ∉ a_pinned a' -> a_held a' !! b = None -> a_view a' b = a_disk a' b) ->
  (forall b', disk s' b' = a_disk a' b') -> writes s' = a_writes a' ->
  cache_rep me s' a'.
Proof.
  intros R Hi Hother Hevict Hbufs Hdev Hbn Hok Hring Hsame Hheld Hclean Hdisk Hwr.
  assert (forall j c, cached s' j c -> (j = i /\ c = b) \/ (j <> i /\ c <> b /\ cached s j c)) as Hc.
  { intros j c (Hj & Hd & Hb). destruct (decide (j = i)) as [->|Hne]; [left; split; congruence |].
    rewrite Hbufs in Hd, Hb by done. assert (cached s j c) by (unfold cached; done).
    right. split_and!; [done | | done]. intros ->. by eapply Hother. }
  assert (cached s' i b) as Hci by done.
  assert (forall j c, j <> i -> cached s j c -> cached s' j c) as Hkeep.
  { intros j c Hne (Hj & Hd & Hb). unfold cached. by rewrite Hbufs by done. }
  split; try done.
  - intros j k c [[-> ->]|(? & ? & H1)]%Hc [[-> Hc2]|(? & ? & H2)]%Hc; try done. by eapply (cr_uniq _ _ _ R).
  - intros j Hj Hd. destruct (decide (j = i)) as [->|Hne]; [done |]. rewrite Hbufs in * by done. by apply R.
  - intros j c [[-> ->]|(Hne & Hcb & Hcj)]%Hc; [done |]. rewrite Hbufs by done.
    pose proof (cr_buf _ _ _ R j c Hcj) as Hb. destruct Hcj as (_ & _ & Ec). unfold buf_ok, b2z in *. rewrite Ec in *.
    destruct (Hsame c Hcb) as (-> & -> & Hp & _). destruct Hb as (? & ? & Hr & ?). split_and!; try done.
    rewrite Hr. f_equal. by rewrite (bool_decide_ext _ _ Hp).
  - intros c j Hh. destruct (decide (c = b)) as [->|Hne]; [by rewrite (Hheld j Hh) |].
    destruct (Hsame c Hne) as (_ & E & _ & _). rewrite E in Hh. pose proof (cr_held _ _ _ R c j Hh) as Hcj.
    destruct (decide (j = i)) as [->|]; [| by apply Hkeep]. destruct (Hevict c Hne Hcj). congruence.
  - intros c Hp. destruct (decide (c = b)) as [->|Hne]; [by exists i |].
    destruct (Hsame c Hne) as (_ & _ & E & _). apply E in Hp. destruct (cr_pin _ _ _ R c Hp) as [j Hcj].
    destruct (decide (j = i)) as [->|]; [by destruct (Hevict c Hne Hcj) | exists j; by apply Hkeep].
  - intros c Hp Hh. destruct (decide (c = b)) as [->|Hne]; [by apply Hclean |].
    destruct (Hsame c Hne) as (-> & E & Hpc & ->). rewrite E in Hh. rewrite Hpc in Hp. by apply R.
Qed.

(** The same, for a buffer that stays the buffer of its block. *)
Lemma rep_touch s a s' a' i b x :
  cache_rep me s a -> cached s i b ->
  (forall j, j <> i -> bufs s' j = bufs s j) -> bufs s' i = x -> dev x = ROOTDEV -> blockno x = b -> buf_ok me a' i x ->
  (exists l, (l ≡ₚ seq 0 NBUF) /\ ring (next s') (prev s') head l) ->
  (forall b', b' <> b -> a_view a' b' = a_view a b' /\ a_held a' !! b' = a_held a !! b' /\
     (b' ∈ a_pinned a' <-> b' ∈ a_pinned a) /\ a_disk a' b' = a_disk a b') ->
  (forall j, a_held a' !! b = Some j -> j = i) ->
  (b ∉ a_pinned a' -> a_held a' !! b = None -> a_view a' b = a_disk a' b) ->
  (forall b', disk s' b' = a_disk a' b') -> writes s' = a_writes a' ->
  cache_rep me s' a'.
Proof.
  intros R Hc Hb Ei Hd Hbn Hok. intros. subst x.
  eapply rep_change; try done.
  - apply Hc.
  - intros j Hne Hcj. apply Hne. by eapply (cr_uniq _ _ _ R).
  - intros b' Hne (_ & _ & E). destruct Hc as (_ & _ & E'). congruence.
Qed.

Lemma fset_other {A} (f : nat -> A) i v : forall j, j <> i -> fset f i v j = f j.
Proof. intros j Hj. apply fset_apart. congruence. Qed.

(** The facts a held buffer comes with. *)
Lemma held_buf s a b i :
  cache_rep me s a -> a_held a !! b = Some i ->
  cached s i b /\ bufs s i = mkbuf true ROOTDEV b (Sleeplock.mk true me) (1 + b2z (b ∈ a_pinned a)) (a_view a b).
Proof.
  intros R Hh. pose proof (cr_held _ _ _ R b i Hh) as Hc. pose proof (cr_buf _ _ _ R i b Hc) as Hb.
  split; [done |]. destruct Hc as (_ & Hd & E). destruct Hb as (Hv & Hdat & Hr & Hl).
  rewrite E in *. assert (bool_decide (a_held a !! b = Some i) = true) as Et by (by apply bool_decide_eq_true).
  unfold b2z in *. rewrite Et in *. destruct (bufs s i). simpl in *. congruence.
Qed.

Lemma b2z_range (P : Prop) `{Decision P} : 0 <= b2z P <= 1.
Proof. unfold b2z. case_bool_decide; lia. Qed.

Lemma b2z_true (P : Prop) `{Decision P} : P -> b2z P = 1.
Proof. intros HP. unfold b2z. by rewrite bool_decide_eq_true_2. Qed.

Lemma b2z_false (P : Prop) `{Decision P} : ~ P -> b2z P = 0.
Proof. intros HP. unfold b2z. by rewrite bool_decide_eq_false_2. Qed.

Lemma zset_eq {A} (f : Z -> A) b v : zset f b v b = v.
Proof. unfold zset. by rewrite Z.eqb_refl. Qed.

Lemma zset_ne {A} (f : Z -> A) b v c : c <> b -> zset f b v c = f c.
Proof. intros H. unfold zset. destruct (Z.eqb_spec c b); congruence. Qed.

(** A held buffer is well formed when its count is the pins plus one. *)
Lemma held_ok a i b :
  a_held a !! b = Some i ->
  buf_ok me a i (mkbuf true ROOTDEV b (Sleeplock.mk true me) (1 + b2z (b ∈ a_pinned a)) (a_view a b)).
Proof.
  intros Hh. unfold buf_ok. simpl. rewrite (b2z_true (_ = Some i)) by done.
  by rewrite bool_decide_eq_true_2 by done.
Qed.

(** A step on a held buffer that keeps it held. *)
Lemma rep_held s s' a a' b h :
  cache_rep me s a -> a_held a !! b = Some h -> a_held a' = a_held a ->
  (forall j, j <> h -> bufs s' j = bufs s j) ->
  bufs s' h = mkbuf true ROOTDEV b (Sleeplock.mk true me) (1 + b2z (b ∈ a_pinned a')) (a_view a' b) ->
  next s' = next s -> prev s' = prev s ->
  (forall b', b' <> b -> a_view a' b' = a_view a b' /\ (b' ∈ a_pinned a' <-> b' ∈ a_pinned a) /\
     a_disk a' b' = a_disk a b') ->
  (forall b', disk s' b' = a_disk a' b') -> writes s' = a_writes a' ->
  cache_rep me s' a'.
Proof.
  intros R Hh Eh Hb Hx Hn Hp Hs Hd Hw. destruct (held_buf s a b h R Hh) as [Hc _].
  eapply (rep_touch s a s' a' h b); try done.
  - apply held_ok. congruence.
  - rewrite Hn, Hp. apply R.
  - intros b' Hne. rewrite Eh. destruct (Hs b' Hne) as (? & ? & ?). done.
  - rewrite Eh. congruence.
  - rewrite Eh. congruence.
Qed.

Ltac held_step := eapply rep_held; [eassumption | eassumption | reflexivity | apply fset_other || done | ..];
  try reflexivity; simpl; rewrite ?fset_eq.

Lemma set_rep s a b h v :
  cache_rep me s a -> a_held a !! b = Some h ->
  cache_rep me (set_buf h (set_bdata v) s) (a_set b v a).
Proof.
  intros R Hh. destruct (held_buf s a b h R Hh) as [Hc Hb]. held_step.
  - by rewrite Hb, zset_eq.
  - intros b' Hne. by rewrite zset_ne.
  - apply R.
  - apply R.
Qed.

Lemma bwrite_rep s a b h :
  cache_rep me s a -> a_held a !! b = Some h ->
  exists s', bwrite me h s = Ok (tt, s') /\ cache_rep me s' (a_flush b a).
Proof.
  intros R Hh. destruct (held_buf s a b h R Hh) as [Hc Hb]. unfold bwrite. rewrite bind_gets, Hb. simpl.
  unfold Sleeplock.holdingsleep. simpl. rewrite Z.eqb_refl. simpl. eexists. split; [reflexivity |].
  held_step; rewrite ?Hb; simpl; try done.
  - intros b' Hne. by rewrite zset_ne.
  - intros b'. unfold zset. destruct (b' =? b); [done |]. apply R.
  - f_equal. apply R.
Qed.

Lemma bpin_rep s a b h :
  cache_rep me s a -> a_held a !! b = Some h -> b ∉ a_pinned a ->
  exists s', bpin h s = Ok (tt, s') /\ cache_rep me s' (a_pin b a).
Proof.
  intros R Hh Hp. destruct (held_buf s a b h R Hh) as [Hc Hb]. eexists. split; [reflexivity |].
  held_step; rewrite ?Hb; simpl.
  - rewrite b2z_false, b2z_true by set_solver. reflexivity.
  - set_solver.
  - apply R.
  - apply R.
Qed.

Lemma bunpin_rep s a b h :
  cache_rep me s a -> a_held a !! b = Some h -> b ∈ a_pinned a ->
  exists s', bunpin h s = Ok (tt, s') /\ cache_rep me s' (a_unpin b a).
Proof.
  intros R Hh Hp. destruct (held_buf s a b h R Hh) as [Hc Hb]. eexists. split; [reflexivity |].
  held_step; rewrite ?Hb; simpl.
  - rewrite b2z_true, b2z_false by set_solver. reflexivity.
  - set_solver.
  - apply R.
  - apply R.
Qed.

(** *** Releasing *)

Lemma move_front_ok s h :
  (exists l, (l ≡ₚ seq 0 NBUF) /\ ring (next s) (prev s) head l) -> (h < NBUF)%nat ->
  exists s', move_front h s = Ok (tt, s') /\ bufs s' = bufs s /\ disk s' = disk s /\ writes s' = writes s /\
    (exists l, (l ≡ₚ seq 0 NBUF) /\ ring (next s') (prev s') head l).
Proof.
  intros (l & Hl & Hr) Hh. eexists. split; [reflexivity |]. split_and!; try reflexivity.
  assert (h ∈ l) as Hin by (rewrite Hl; apply elem_of_seq; lia).
  apply list_elem_of_split in Hin as (l1 & l2 & ->).
  pose proof (ring_unlink _ _ _ _ _ _ Hr) as Hu. exists (h :: l1 ++ l2). split.
  - by rewrite Permutation_middle.
  - apply (ring_push _ _ _ _ h) in Hu; [exact Hu |].
    destruct Hr as ([Hnh [_ [Hd [Hnl _]%NoDup_cons]]%NoDup_app]%NoDup_cons & _ & _).
    rewrite elem_of_cons, elem_of_app. set_solver.
Qed.

Lemma brelse_rep s a b h :
  cache_rep me s a -> a_held a !! b = Some h -> b ∈ a_pinned a \/ a_view a b = a_disk a b ->
  exists s', brelse me h s = Ok (tt, s') /\ cache_rep me s' (a_unhold b a).
Proof.
  intros R Hh Hcl. destruct (held_buf s a b h R Hh) as [Hc Hb]. unfold brelse. rewrite bind_gets, Hb. simpl.
  unfold Sleeplock.holdingsleep. simpl. rewrite Z.eqb_refl. simpl. rewrite !bind_modify, bind_gets.
  set (s1 := set_buf h _ _).
  assert (bufs s1 h = mkbuf true ROOTDEV b (Sleeplock.mk false 0) (b2z (b ∈ a_pinned a)) (a_view a b)) as Hb1.
  { unfold s1, set_buf. cbn [bufs]. rewrite !fset_eq, Hb. unfold set_refcnt. simpl. f_equal.
    pose proof (b2z_range (b ∈ a_pinned a)). rewrite u32_small by lia. lia. }
  assert (forall j, j <> h -> bufs s1 j = bufs s j) as Ho by (intros j Hj; unfold s1; simpl; by rewrite !fset_other).
  rewrite Hb1. simpl.
  assert (exists s', (if b2z (b ∈ a_pinned a) =? 0 then move_front h else ret tt) s1 = Ok (tt, s') /\
    bufs s' = bufs s1 /\ disk s' = disk s /\ writes s' = writes s /\
    (exists l, (l ≡ₚ seq 0 NBUF) /\ ring (next s') (prev s') head l)) as (s' & -> & Eb & Ed & Ew & Hr).
  { destruct (_ =? 0); [| exists s1; split_and!; try done; apply R].
    destruct (move_front_ok s1 h (cr_ring _ _ _ R) (proj1 Hc)) as (s' & H1 & H2 & H3 & H4 & H5). eauto 10. }
  exists s'. split; [done |]. rewrite <- Eb in Ho, Hb1.
  eapply (rep_touch s a s' _ h b); try done; rewrite ?Ed, ?Ew; try apply R; simpl.
  - unfold buf_ok. cbn -[a_unhold]. cbn [a_held a_unhold a_view a_pinned].
    rewrite lookup_delete_eq, (b2z_false (None = Some h)), bool_decide_eq_false_2 by done. done.
  - intros b' Hne. by rewrite lookup_delete_ne by congruence.
  - by rewrite lookup_delete_eq.
  - tauto.
Qed.

(** *** Reading *)

(** A list of buffers that does not contain the head. *)
Lemma ring_bufs (l : list nat) :
  (l ≡ₚ seq 0 NBUF) -> (head ∉ l) /\ (head ∉ rev l) /\ length l = NBUF /\ length (rev l) = NBUF /\
  (forall i, i ∈ l <-> (i < NBUF)%nat) /\ (forall i, i ∈ rev l <-> (i < NBUF)%nat).
Proof.
  intros Hl. assert (forall i, i ∈ l <-> (i < NBUF)%nat) as H1.
  { intros i. rewrite Hl, elem_of_seq. lia. }
  assert (forall i, i ∈ rev l <-> (i < NBUF)%nat) as H2 by (intros i; by rewrite rev_reverse, elem_of_reverse).
  rewrite length_rev, (Permutation_length Hl), length_seq, H1, H2. unfold head. split_and!; done || lia.
Qed.

Lemma not_busy s a b :
  cache_rep me s a -> (forall i, cached s i b -> False) -> b ∉ busy a.
Proof.
  intros R H Hb. unfold busy in Hb. apply elem_of_union in Hb as [Hp|Hh].
  - destruct (cr_pin _ _ _ R b Hp) as [i Hi]. by eapply H.
  - apply elem_of_dom in Hh as [i Hi]. eapply H. by eapply (cr_held _ _ _ R).
Qed.

(** A buffer in use keeps its block busy. *)
Lemma in_use_busy s a i :
  cache_rep me s a -> (i < NBUF)%nat -> refcnt (bufs s i) <> 0 ->
  cached s i (blockno (bufs s i)) /\ blockno (bufs s i) ∈ busy a.
Proof.
  intros R Hi Hr. destruct (decide (dev (bufs s i) = ROOTDEV)) as [Hd|Hd];
    [| by destruct (cr_free _ _ _ R i Hi Hd)].
  assert (cached s i (blockno (bufs s i))) as Hc by done. split; [done |].
  destruct (cr_buf _ _ _ R i _ Hc) as (_ & _ & Er & _). unfold busy. rewrite elem_of_union, elem_of_dom.
  unfold b2z in Er. do 2 case_bool_decide; [eauto..|]. lia.
Qed.

(** There is an unused buffer as long as not every buffer is busy with another block. *)
Lemma some_free s a b :
  cache_rep me s a -> (size ({[b]} ∪ busy a) <= NBUF)%nat -> b ∉ busy a ->
  (forall i, (i < NBUF)%nat -> refcnt (bufs s i) <> 0) -> False.
Proof.
  intros R Hsz Hb Hall.
  set (l := (fun i => blockno (bufs s i)) <$> seq 0 NBUF).
  assert (NoDup l) as Hnd.
  { apply NoDup_fmap_2_strong; [| apply NoDup_seq]. intros i j Hi%elem_of_seq Hj%elem_of_seq E.
    destruct (in_use_busy s a i R ltac:(lia) (Hall i ltac:(lia))) as [Hci _].
    destruct (in_use_busy s a j R ltac:(lia) (Hall j ltac:(lia))) as [Hcj _].
    rewrite E in Hci. by eapply (cr_uniq _ _ _ R). }
  assert (list_to_set (C := gset Z) l ⊆ busy a) as Hsub.
  { intros c Hc%elem_of_list_to_set. apply list_elem_of_fmap in Hc as (i & -> & Hi%elem_of_seq).
    by apply (in_use_busy s a i R ltac:(lia) (Hall i ltac:(lia))). }
  apply subseteq_size in Hsub. rewrite size_list_to_set in Hsub by done.
  unfold l in Hsub. rewrite length_fmap, length_seq in Hsub.
  rewrite size_union, size_singleton in Hsz by set_solver. lia.
Qed.

Lemma bread_hit s a b i :
  cache_rep me s a -> a_held a !! b = None -> cached s i b ->
  exists s', (do! modify (set_buf i (fun x => set_refcnt (u32 (refcnt x + 1)) x)) in
              do! lock_buf me i in ret i) s = Ok (i, s') /\
    valid (bufs s' i) = true /\ cache_rep me s' (a_hold b i a).
Proof.
  intros R Hh Hc. destruct (cr_buf _ _ _ R i b Hc) as (Hv & Hd & Hr & Hl). pose proof Hc as (Hi & Hdev & Eb).
  rewrite Eb, Hh in *. rewrite (b2z_false (None = Some i)) in Hr by done.
  rewrite bool_decide_eq_false_2 in Hl by done.
  rewrite bind_modify. unfold lock_buf. rewrite bind_assoc, bind_gets. unfold set_buf at 1. cbn [bufs].
  rewrite fset_eq. cbn [lock set_refcnt]. rewrite Hl. cbn. eexists. split; [reflexivity |].
  unfold set_buf. cbn [bufs]. rewrite !fset_eq. cbn [valid set_blk set_refcnt]. split; [done |].
  eapply (rep_touch s a _ _ i b (mkbuf true ROOTDEV b (Sleeplock.mk true me) (1 + b2z (b ∈ a_pinned a)) (a_view a b)));
    try done; try apply R; cbn [bufs a_hold a_held a_pinned a_view a_disk].
  - intros j Hj. by rewrite !fset_other.
  - rewrite fset_eq. unfold set_blk, set_refcnt. simpl. rewrite Hv, Hdev, Eb, Hr, Hd.
    pose proof (b2z_range (b ∈ a_pinned a)). rewrite u32_small by lia. f_equal. lia.
  - apply (held_ok (a_hold b i a) i b). apply lookup_insert_eq.
  - intros b' Hne. by rewrite lookup_insert_ne by congruence.
  - rewrite lookup_insert_eq. congruence.
  - by rewrite lookup_insert_eq.
Qed.

(** The state after a miss that recycles buffer [i]. *)
Definition loaded (s : bcache) (i : nat) (b : Z) : bcache :=
  set_buf i (fun _ => mkbuf true ROOTDEV b (Sleeplock.mk true me) 1 (disk s b)) s.

Lemma loaded_rep s s' a i b :
  cache_rep me s a -> a_held a !! b = None -> (forall j, cached s j b -> False) ->
  (i < NBUF)%nat -> refcnt (bufs s i) = 0 ->
  (forall j, bufs s' j = bufs (loaded s i b) j) -> next s' = next s -> prev s' = prev s ->
  disk s' = disk s -> writes s' = writes s ->
  cache_rep me s' (a_hold b i a).
Proof.
  intros R Hh Hnc Hi Hr Hb Hn Hp Hd Hw. pose proof (not_busy s a b R Hnc) as Hnb. unfold busy in Hnb.
  assert (b ∉ a_pinned a) as Hnp by set_solver.
  assert (bufs s' i = mkbuf true ROOTDEV b (Sleeplock.mk true me) 1 (disk s b)) as Ei
    by (rewrite Hb; unfold loaded; simpl; by rewrite fset_eq).
  eapply (rep_change s a _ _ i b); try done; rewrite ?Ei, ?Hn, ?Hp, ?Hd, ?Hw; try apply R;
    cbn [a_hold a_held a_pinned a_view a_disk]; try done.
  - intros j _ Hj. by eapply Hnc.
  - intros b' Hne Hc. destruct (cr_buf _ _ _ R i b' Hc) as (_ & _ & Er & _). pose proof Hc as (_ & _ & E).
    rewrite E in Er. unfold b2z in Er. do 2 case_bool_decide; try lia.
    split; [done |]. destruct (a_held a !! b') as [j|] eqn:Ej; [| done].
    pose proof (cr_held _ _ _ R b' j Ej) as Hcj. exfalso. apply H. f_equal.
    by eapply (cr_uniq _ _ _ R).
  - intros j Hj. rewrite Hb. unfold loaded. simpl. by rewrite fset_other.
  - pose proof (held_ok (a_hold b i a) i b (lookup_insert_eq _ _ _)) as Ho.
    cbn [a_hold a_pinned a_view] in Ho. rewrite b2z_false in Ho by done.
    by rewrite (cr_disk _ _ _ R), <- (cr_clean _ _ _ R).
  - intros b' Hne. by rewrite lookup_insert_ne by congruence.
  - rewrite lookup_insert_eq. congruence.
  - by rewrite lookup_insert_eq.
Qed.

(** The buffer [bget] returns, and the state after [bread] in either case. *)
Lemma bread_rep s a b :
  cache_rep me s a -> a_held a !! b = None -> (size ({[b]} ∪ busy a) <= NBUF)%nat ->
  exists h s', bread me ROOTDEV b s = Ok (h, s') /\ cache_rep me s' (a_hold b h a).
Proof.
  intros R Hh Hsz. destruct (cr_ring _ _ _ R) as (l & Hl & Hnd & Hf & Hb).
  destruct (ring_bufs l Hl) as (Hh1 & Hh2 & Hn1 & Hn2 & Hin1 & Hin2).
  destruct (bget_find_spec s ROOTDEV b NBUF head l Hf Hh1 ltac:(lia)) as (r & Er & Hr).
  unfold bread, bget. rewrite bind_assoc, bind_gets, bind_assoc, (bind_ok _ _ _ _ _ Er).
  destruct r as [i|].
  - destruct Hr as (Hi%Hin1 & Hd & Hbn). assert (cached s i b) as Hc by done.
    destruct (bread_hit s a b i R Hh Hc) as (s' & Es & Hv & R').
    rewrite (bind_ok _ _ _ _ _ Es), bind_gets, Hv. eauto.
  - assert (forall j, cached s j b -> False) as Hnc.
    { intros j (Hj & Hd & Hbn). by apply (Hr j); [apply Hin1 | |]. }
    destruct (bget_free_spec s NBUF head (rev l) Hb Hh2 ltac:(lia)) as (r & Ef & Hfree).
    rewrite bind_assoc, bind_gets, bind_assoc, (bind_ok _ _ _ _ _ Ef). destruct r as [i|].
    + destruct Hfree as (l1 & l2 & E & Hr0 & _).
      assert (i < NBUF)%nat as Hi by (apply Hin2; rewrite E; set_solver).
      assert (lock (bufs s i) = Sleeplock.initsleeplock) as Hlk.
      { destruct (decide (dev (bufs s i) = ROOTDEV)) as [Hd|Hd]; [| by apply (cr_free _ _ _ R)].
        assert (cached s i (blockno (bufs s i))) as Hc by done.
        destruct (cr_buf _ _ _ R i _ Hc) as (_ & _ & E1 & E2). unfold b2z in E1.
        rewrite E2. case_bool_decide; [| done]. case_bool_decide; lia. }
      rewrite bind_assoc, bind_modify, bind_assoc. unfold lock_buf. rewrite bind_assoc, bind_gets.
      unfold set_buf at 1. cbn [bufs]. rewrite fset_eq. cbn [lock]. rewrite Hlk. cbn.
      unfold bind, gets. cbn [bufs]. rewrite !fset_eq. cbn [valid set_blk].
      unfold modify, ret. cbn. eexists _, _. split; [reflexivity |].
      eapply (loaded_rep s); try done. intros j. unfold loaded, set_buf. cbn [bufs].
      destruct (decide (j = i)) as [->|Hj]; [by rewrite !fset_eq | by rewrite !fset_other].
    + exfalso. eapply some_free; [done | done | by eapply not_busy |]. intros i Hi. by apply Hfree, Hin2.
Qed.

(** *** Booting *)

Lemma binit_loop_ok n b s l :
  (b + n = NBUF)%nat -> (l ≡ₚ seq 0 b) -> ring (next s) (prev s) head l -> (forall i, bufs s i = buf0) ->
  exists s', binit_loop n b s = Ok (tt, s') /\ disk s' = disk s /\ writes s' = writes s /\
    (forall i, bufs s' i = buf0) /\ exists l', (l' ≡ₚ seq 0 NBUF) /\ ring (next s') (prev s') head l'.
Proof.
  revert b s l. induction n as [|n IH]; intros b s l Hn Hl Hr Hb; cbn [binit_loop].
  - exists s. split_and!; try done. exists l. replace NBUF with b by lia. done.
  - eapply (ring_push _ _ _ _ b) in Hr.
    2:{ rewrite elem_of_cons, Hl, elem_of_seq. unfold head. lia. }
    rewrite (bind_ok _ _ _ tt (set_next head b (set_prev (next s head) b (set_buf b (set_blk Sleeplock.initsleeplock)
      (set_prev b head (set_next b (next s head) s)))))) by reflexivity.
    set (s1 := set_next _ _ _).
    apply (IH (S b) s1 (b :: l)); [lia | | exact Hr |].
    + rewrite Hl, seq_S. apply Permutation_cons_append.
    + intros i. unfold s1. cbn [set_next set_prev set_buf bufs]. destruct (decide (i = b)) as [->|Hi].
      * by rewrite fset_eq, Hb.
      * by rewrite fset_other, Hb.
Qed.

Lemma boot_rep d :
  exists s, binit (bcache0 d) = Ok (tt, s) /\ cache_rep me s (a_boot d).
Proof.
  unfold binit. rewrite !bind_modify.
  destruct (binit_loop_ok NBUF 0 (set_next head head (set_prev head head (bcache0 d))) []) as (s & E & Hd & Hw & Hb & Hr);
    [done | done | | done |].
  - split; [apply NoDup_singleton |]. cbn [rev fwd next prev set_next set_prev]. by rewrite !fset_eq.
  - exists s. split; [exact E |]. clear E. split; cbn [a_boot a_held a_pinned a_view a_disk a_writes]; try done.
    + intros i j b (_ & Hi & _). by rewrite Hb in Hi.
    + intros i _ _. by rewrite Hb.
    + intros i b (_ & Hi & _). by rewrite Hb in Hi.
    + intros b. by rewrite Hd.
Qed.

End Rep.

#[export] Instance bio_ok (me : Z) : @CacheOk bcache (bio_cache me).
Proof.
  refine {| rep := cache_rep me |}.
  - intros d. unfold c_boot, bio_cache. destruct (boot_rep me d) as (s & E & R). rewrite E. exact R.
  - intros s a b R. apply (cr_clean _ _ _ R).
  - apply bread_rep.
  - intros s a b h R Hh. destruct (held_buf me s a b h R Hh) as [_ E]. cbn [c_get c_blockno bio_cache]. unfold gets. by rewrite E.
  - intros s a b h R Hh. destruct (held_buf me s a b h R Hh) as [_ E]. cbn [c_get c_blockno bio_cache]. unfold gets. by rewrite E.
  - intros s a b h v R Hh. eexists. split; [reflexivity |]. by apply set_rep.
  - apply bwrite_rep.
  - apply bpin_rep.
  - apply bunpin_rep.
  - apply brelse_rep.
Defined.

(** ** Clients *)

(** What a client does with blocks: take and release the buffer of a block, read and
    overwrite its contents, write it to disk, pin and unpin it. *)
Inductive cop : Type :=
  | CRead (b : Z)
  | CGet (b : Z)
  | CSet (b : Z) (v : block)
  | CWrite (b : Z)
  | CPin (b : Z)
  | CUnpin (b : Z)
  | CRelse (b : Z).

(** The client keeps the handles of the buffers it holds; the contents it read are
    collected. *)
Fixpoint crun {S} `{Cache S} (ops : list cop) (hs : gmap Z nat) : M S (list block) :=
  match ops with
  | [] => ret []
  | CRead b :: ops => let! h := c_bread ROOTDEV b in crun ops (<[b := h]> hs)
  | CGet b :: ops => let! v := c_get (default 0%nat (hs !! b)) in
                     let! vs := crun ops hs in ret (v :: vs)
  | CSet b v :: ops => do! c_set (default 0%nat (hs !! b)) v in crun ops hs
  | CWrite b :: ops => do! c_bwrite (default 0%nat (hs !! b)) in crun ops hs
  | CPin b :: ops => do! c_bpin (default 0%nat (hs !! b)) in crun ops hs
  | CUnpin b :: ops => do! c_bunpin (default 0%nat (hs !! b)) in crun ops hs
  | CRelse b :: ops => do! c_brelse (default 0%nat (hs !! b)) in crun ops (delete b hs)
  end.

(** The reference: contents and disk as two maps, no buffers.  [None] when the client breaks
    its part of the contract. *)
Record cspec : Type := mkcspec {
  sp_disk : Z -> block;
  sp_view : Z -> block;
  sp_dirty : gset Z;
  sp_pinned : gset Z;
  sp_held : gset Z;
}.

Fixpoint spec_run (ops : list cop) (c : cspec) : option (list block * cspec) :=
  match ops with
  | [] => Some ([], c)
  | CRead b :: ops =>
      if bool_decide (b ∈ sp_held c) ||
         bool_decide (NBUF < size ({[b]} ∪ (sp_pinned c ∪ sp_held c)))%nat then None
      else spec_run ops (mkcspec (sp_disk c) (sp_view c) (sp_dirty c) (sp_pinned c) ({[b]} ∪ sp_held c))
  | CGet b :: ops =>
      if bool_decide (b ∈ sp_held c)
      then '(vs, c') ← spec_run ops c; Some (sp_view c b :: vs, c') else None
  | CSet b v :: ops =>
      if bool_decide (b ∈ sp_held c)
      then spec_run ops (mkcspec (sp_disk c) (zset (sp_view c) b v) ({[b]} ∪ sp_dirty c) (sp_pinned c) (sp_held c))
      else None
  | CWrite b :: ops =>
      if bool_decide (b ∈ sp_held c)
      then spec_run ops (mkcspec (zset (sp_disk c) b (sp_view c b)) (sp_view c) (sp_dirty c ∖ {[b]})
                           (sp_pinned c) (sp_held c))
      else None
  | CPin b :: ops =>
      if bool_decide (b ∈ sp_held c) && bool_decide (b ∉ sp_pinned c)
      then spec_run ops (mkcspec (sp_disk c) (sp_view c) (sp_dirty c) ({[b]} ∪ sp_pinned c) (sp_held c))
      else None
  | CUnpin b :: ops =>
      if bool_decide (b ∈ sp_held c) && bool_decide (b ∈ sp_pinned c)
      then spec_run ops (mkcspec (sp_disk c) (sp_view c) (sp_dirty c) (sp_pinned c ∖ {[b]}) (sp_held c))
      else None
  | CRelse b :: ops =>
      if bool_decide (b ∈ sp_held c) && (bool_decide (b ∈ sp_pinned c) || bool_decide (b ∉ sp_dirty c))
      then spec_run ops (mkcspec (sp_disk c) (sp_view c) (sp_dirty c) (sp_pinned c) (sp_held c ∖ {[b]}))
      else None
  end.

Definition spec_boot (d : Z -> block) : cspec := mkcspec d d ∅ ∅ ∅.

(** An abstract cache and the reference agree. *)
Record agree (a : acache) (c : cspec) : Prop := {
  ag_disk : forall b, a_disk a b = sp_disk c b;
  ag_view : forall b, a_view a b = sp_view c b;
  ag_pin : a_pinned a = sp_pinned c;
  ag_held : dom (a_held a) = sp_held c;
  ag_dirty : forall b, b ∉ sp_dirty c -> a_view a b = a_disk a b;
}.

Lemma agree_held a c b : agree a c -> b ∈ sp_held c -> exists h, a_held a !! b = Some h.
Proof. intros A Hb. rewrite <- (ag_held _ _ A) in Hb. by apply elem_of_dom. Qed.

Lemma agree_zset {A} (f g : Z -> A) b v w : (forall x, f x = g x) -> v = w -> forall x, zset f b v x = zset g b w x.
Proof. intros H -> x. unfold zset. by destruct (x =? b). Qed.

Lemma zset_same_out {A} (f g : Z -> A) (D : gset Z) b v w :
  (forall x, x ∉ D -> f x = g x) -> v = w -> forall x, x ∉ D ∖ {[b]} -> zset f b v x = zset g b w x.
Proof.
  intros H -> x Hx. unfold zset. destruct (Z.eqb_spec x b); [done |]. apply H. set_solver.
Qed.

Lemma crun_ok {S} `{CacheOk S} ops s a c vs c' :
  rep s a -> agree a c -> spec_run ops c = Some (vs, c') ->
  exists s' a', crun ops (a_held a) s = Ok (vs, s') /\ rep s' a' /\ agree a' c'.
Proof.
  revert s a c vs c'. induction ops as [|o ops IH]; intros s a c vs c' R A E.
  { simpl in E. injection E as <- <-. by exists s, a. }
  assert (forall b, bool_decide (b ∈ sp_held c) = true -> exists h, a_held a !! b = Some h) as Hheld
    by (intros b Hb%bool_decide_eq_true; by eapply agree_held).
  destruct o as [b|b|b v|b|b|b|b]; cbn [spec_run crun] in *.
  - destruct (bool_decide_reflect (b ∈ sp_held c)) as [|Hnh]; [done |]. cbn [orb] in E.
    destruct (bool_decide_reflect (NBUF < size ({[b]} ∪ (sp_pinned c ∪ sp_held c)))%nat) as [|Hsz]; [done |].
    destruct (bread_ok s a b R) as (h & s1 & E1 & R1).
    { apply not_elem_of_dom. by rewrite (ag_held _ _ A). }
    { unfold busy. rewrite (ag_held _ _ A), (ag_pin _ _ A). lia. }
    rewrite (bind_ok _ _ _ _ _ E1).
    change (<[b := h]> (a_held a)) with (a_held (a_hold b h a)). eapply IH; [done | | exact E].
    split; simpl; try apply A. by rewrite dom_insert_L, (ag_held _ _ A).
  - destruct (bool_decide _) eqn:Hb; [| done]. destruct (Hheld b Hb) as [h Hh]. rewrite Hh. simpl.
    destruct (spec_run ops c) as [[vs1 c1]|] eqn:E1; [| done]. simpl in E. injection E as <- <-.
    rewrite (bind_ok _ _ _ _ _ (get_ok s a b h R Hh)). destruct (IH s a c vs1 c1 R A E1) as (s' & a' & E2 & ?).
    exists s', a'. rewrite (bind_ok _ _ _ _ _ E2), (ag_view _ _ A). done.
  - destruct (bool_decide _) eqn:Hb; [| done]. destruct (Hheld b Hb) as [h Hh]. rewrite Hh. simpl.
    destruct (set_ok s a b h v R Hh) as (s1 & E1 & R1). rewrite (bind_ok _ _ _ _ _ E1).
    change (a_held a) with (a_held (a_set b v a)). eapply IH; [done | | exact E].
    split; simpl; try apply A; [by apply agree_zset; [apply A |] |].
    intros x Hx. rewrite zset_ne by set_solver. apply A. set_solver.
  - destruct (bool_decide _) eqn:Hb; [| done]. destruct (Hheld b Hb) as [h Hh]. rewrite Hh. simpl.
    destruct (bwrite_ok s a b h R Hh) as (s1 & E1 & R1). rewrite (bind_ok _ _ _ _ _ E1).
    change (a_held a) with (a_held (a_flush b a)). eapply IH; [done | | exact E].
    split; simpl; try apply A; [apply agree_zset; apply A |].
    intros x Hx. unfold zset. destruct (Z.eqb_spec x b) as [->|]; [done |]. apply A. set_solver.
  - destruct (bool_decide (b ∈ sp_held c)) eqn:Hb; [| done]. destruct (Hheld b Hb) as [h Hh]. rewrite Hh. simpl in *.
    destruct (bool_decide_reflect (b ∉ sp_pinned c)) as [Hp|]; [| done].
    destruct (bpin_ok s a b h R Hh) as (s1 & E1 & R1); [by rewrite (ag_pin _ _ A) |]. rewrite (bind_ok _ _ _ _ _ E1).
    change (a_held a) with (a_held (a_pin b a)). eapply IH; [done | | exact E].
    split; simpl; try apply A. by rewrite (ag_pin _ _ A).
  - destruct (bool_decide (b ∈ sp_held c)) eqn:Hb; [| done]. destruct (Hheld b Hb) as [h Hh]. rewrite Hh. simpl in *.
    destruct (bool_decide_reflect (b ∈ sp_pinned c)) as [Hp|]; [| done].
    destruct (bunpin_ok s a b h R Hh) as (s1 & E1 & R1); [by rewrite (ag_pin _ _ A) |]. rewrite (bind_ok _ _ _ _ _ E1).
    change (a_held a) with (a_held (a_unpin b a)). eapply IH; [done | | exact E].
    split; simpl; try apply A. by rewrite (ag_pin _ _ A).
  - destruct (bool_decide (b ∈ sp_held c)) eqn:Hb; [| done]. destruct (Hheld b Hb) as [h Hh]. rewrite Hh. simpl in *.
    destruct (brelse_ok s a b h R Hh) as (s1 & E1 & R1).
    { rewrite (ag_pin _ _ A). destruct (bool_decide_reflect (b ∈ sp_pinned c)); [by left |].
      destruct (bool_decide_reflect (b ∉ sp_dirty c)); [right; by apply A | done]. }
    rewrite (bind_ok _ _ _ _ _ E1). destruct (_ || _); [| done].
    change (delete b (a_held a)) with (a_held (a_unhold b a)). eapply IH; [done | | exact E].
    split; simpl; try apply A. by rewrite dom_delete_L, (ag_held _ _ A).
Qed.

(** ** Properties *)

(** C4: the buffer cache is transparent.  Any client that reads, modifies, writes, pins and
    releases blocks of the disk within its contract (it releases what it takes, does not take a
    block twice, keeps at most [NBUF] blocks busy, and does not release a modified block it
    neither wrote nor pinned) sees every block as a plain array of contents: each read returns
    the last contents stored, whatever buffers were recycled in between, no call panics or
    blocks, and the disk receives exactly the blocks written. *)
Theorem cache_transparent (me : Z) (d : Z -> block) (ops : list cop) (vs : list block) (c : cspec)
    (Hspec : spec_run ops (spec_boot d) = Some (vs, c)) :
  exists s0 s', binit (bcache0 d) = Ok (tt, s0) /\
    @crun bcache (bio_cache me) ops ∅ s0 = Ok (vs, s') /\ forall b, disk s' b = sp_disk c b.
Proof.
  destruct (boot_rep me d) as (s0 & E0 & R0). exists s0.
  destruct (@crun_ok _ _ (bio_ok me) ops s0 (a_boot d) (spec_boot d) vs c R0) as (s' & a' & E & R' & A'); [by split | done |].
  exists s'. split_and!; [done | done |]. intros b. by rewrite (cr_disk _ _ _ R'), (ag_disk _ _ A').
Qed.

(** Forty blocks are read in turn through the thirty buffers, one of them modified. *)
Definition client : list cop :=
  [CRead 7; CSet 7 (fun _ => 1); CWrite 7; CRelse 7] ++
  concat ((fun b => [CRead (Z.of_nat b); CRelse (Z.of_nat b)]) <$> seq 10 40) ++
  [CRead 7; CGet 7; CRelse 7].

Lemma cache_transparent_witness :
  exists vs c, vs = [fun _ => 1] /\ spec_run client (spec_boot (fun _ _ => 0)) = Some (vs, c) /\
  exists s0 s', binit (bcache0 (fun _ _ => 0)) = Ok (tt, s0) /\
    @crun bcache (bio_cache 1) client ∅ s0 = Ok (vs, s') /\ forall b, disk s' b = sp_disk c b.
Proof.
  destruct (spec_run client (spec_boot (fun _ _ => 0))) as [[vs c]|] eqn:E; [| vm_compute in E; discriminate E].
  exists vs, c. split; [| split; [reflexivity | exact (cache_transparent 1 _ client vs c E)]].
  vm_compute in E. injection E as E _. symmetry. exact E.
Defined.
