(* ===== verification/Virtio.v ===== *)
(** * Virtio: the disk driver, [kernel/virtio_disk.c]

    The driver's [struct disk] (descriptors, rings, book-keeping) and its functions.  A pointer
    handed to the device is symbolic ([vptr]: a command header, the data of a buffer, a status
    byte).  [virtio_disk_rw] is cut where it sleeps: it ends in [RSleep] with what it has on
    its stack, and [rw_resume] continues it.  [wakeup] calls are collected in [wakes], writes to
    the device's registers in [mmio].

    The device is outside the source: what it does with a command is the operation [serve] of the class
    [BlockDevice]; how it uses the queues (take a chain off the available ring, later perform
    it and put it on the used ring, in any order) is the virtio protocol, a rule of the
    step relation below.  The steps of calls, interrupts and device interleave freely. *)

From stdpp Require Import base list gmap strings relations.
From Stdlib Require Import ZArith Lia.
From S2P Require Import Prelude Ring Riscv Mem Kalloc Spinlock Bio.

(** ** Constants of [virtio.h] *)

Definition NUM : nat := 8.
Definition VRING_DESC_F_NEXT : Z := 1.
Definition VRING_DESC_F_WRITE : Z := 2.
Definition VIRTIO_BLK_T_IN : Z := 0.
Definition VIRTIO_BLK_T_OUT : Z := 1.

Definition VIRTIO_MMIO_MAGIC_VALUE : Z := 0x000.
Definition VIRTIO_MMIO_VERSION : Z := 0x004.
Definition VIRTIO_MMIO_DEVICE_ID : Z := 0x008.
Definition VIRTIO_MMIO_VENDOR_ID : Z := 0x00c.
Definition VIRTIO_MMIO_DEVICE_FEATURES : Z := 0x010.
Definition VIRTIO_MMIO_DRIVER_FEATURES : Z := 0x020.
Definition VIRTIO_MMIO_QUEUE_SEL : Z := 0x030.
Definition VIRTIO_MMIO_QUEUE_NUM_MAX : Z := 0x034.
Definition VIRTIO_MMIO_QUEUE_NUM : Z := 0x038.
Definition VIRTIO_MMIO_QUEUE_READY : Z := 0x044.
Definition VIRTIO_MMIO_QUEUE_NOTIFY : Z := 0x050.
Definition VIRTIO_MMIO_INTERRUPT_STATUS : Z := 0x060.
Definition VIRTIO_MMIO_INTERRUPT_ACK : Z := 0x064.
Definition VIRTIO_MMIO_STATUS : Z := 0x070.
Definition VIRTIO_MMIO_QUEUE_DESC_LOW : Z := 0x080.
Definition VIRTIO_MMIO_QUEUE_DESC_HIGH : Z := 0x084.
Definition VIRTIO_MMIO_DRIVER_DESC_LOW : Z := 0x090.
Definition VIRTIO_MMIO_DRIVER_DESC_HIGH : Z := 0x094.
Definition VIRTIO_MMIO_DEVICE_DESC_LOW : Z := 0x0a0.
Definition VIRTIO_MMIO_DEVICE_DESC_HIGH : Z := 0x0a4.

Definition VIRTIO_CONFIG_S_ACKNOWLEDGE : Z := 1.
Definition VIRTIO_CONFIG_S_DRIVER : Z := 2.
Definition VIRTIO_CONFIG_S_DRIVER_OK : Z := 4.
Definition VIRTIO_CONFIG_S_FEATURES_OK : Z := 8.

(** The feature bits the driver declines: RO, SCSI, CONFIG_WCE, MQ, ANY_LAYOUT, EVENT_IDX and
    INDIRECT_DESC, in the order of the code. *)
Definition declined : list Z := [5; 7; 11; 12; 27; 29; 28].

(** ** Data *)

(** What an address in a descriptor points to: [&disk.ops[i]], [b->data],
    [&disk.info[i].status]. *)
Inductive vptr : Type :=
  | PNull
  | POps (i : nat)
  | PData (b : nat)
  | PStatus (i : nat).

Record virtq_desc : Type := mkdesc { addr : vptr; len : Z; flags : Z; dnext : nat }.

Record virtio_blk_req : Type := mkreq { type : Z; reserved : Z; sector : Z }.

Record info : Type := mkinfo { ibuf : option nat; istatus : Z }.

(** The channels [&disk.free[0]] and [b]. *)
Inductive vchan : Type := ChFree | ChBuf (b : nat).

#[export] Instance vchan_eq_dec : EqDecision vchan.
Proof. solve_decision. Defined.

(** [struct disk] with the memory it points to, and the field [disk] of the buffers. *)
Record vdisk : Type := mkvdisk {
  desc : list virtq_desc;
  avail_idx : Z;
  avail_ring : list nat;
  dev_used_idx : Z;
  used_ring : list nat;
  free : list bool;
  used_idx : Z;
  infos : list info;
  ops : list virtio_blk_req;
  busy : nat -> bool;
  wakes : list vchan;
  mmio : list (Z * Z);
}.

Definition set_desc (i : nat) (d : virtq_desc) (s : vdisk) : vdisk :=
  mkvdisk (<[i := d]> (desc s)) (avail_idx s) (avail_ring s) (dev_used_idx s) (used_ring s) (free s) (used_idx s)
    (infos s) (ops s) (busy s) (wakes s) (mmio s).
Definition set_avail_idx (v : Z) (s : vdisk) : vdisk :=
  mkvdisk (desc s) v (avail_ring s) (dev_used_idx s) (used_ring s) (free s) (used_idx s)
    (infos s) (ops s) (busy s) (wakes s) (mmio s).
Definition set_avail_ring (i v : nat) (s : vdisk) : vdisk :=
  mkvdisk (desc s) (avail_idx s) (<[i := v]> (avail_ring s)) (dev_used_idx s) (used_ring s) (free s) (used_idx s)
    (infos s) (ops s) (busy s) (wakes s) (mmio s).
Definition set_free (i : nat) (v : bool) (s : vdisk) : vdisk :=
  mkvdisk (desc s) (avail_idx s) (avail_ring s) (dev_used_idx s) (used_ring s) (<[i := v]> (free s)) (used_idx s)
    (infos s) (ops s) (busy s) (wakes s) (mmio s).
Definition set_used_idx (v : Z) (s : vdisk) : vdisk :=
  mkvdisk (desc s) (avail_idx s) (avail_ring s) (dev_used_idx s) (used_ring s) (free s) v
    (infos s) (ops s) (busy s) (wakes s) (mmio s).
Definition set_info (i : nat) (f : info -> info) (s : vdisk) : vdisk :=
  mkvdisk (desc s) (avail_idx s) (avail_ring s) (dev_used_idx s) (used_ring s) (free s) (used_idx s)
    (alter f i (infos s)) (ops s) (busy s) (wakes s) (mmio s).
Definition set_ops (i : nat) (r : virtio_blk_req) (s : vdisk) : vdisk :=
  mkvdisk (desc s) (avail_idx s) (avail_ring s) (dev_used_idx s) (used_ring s) (free s) (used_idx s)
    (infos s) (<[i := r]> (ops s)) (busy s) (wakes s) (mmio s).
Definition set_busy (b : nat) (v : bool) (s : vdisk) : vdisk :=
  mkvdisk (desc s) (avail_idx s) (avail_ring s) (dev_used_idx s) (used_ring s) (free s) (used_idx s)
    (infos s) (ops s) (fset (busy s) b v) (wakes s) (mmio s).
Definition vwakeup (c : vchan) (s : vdisk) : vdisk :=
  mkvdisk (desc s) (avail_idx s) (avail_ring s) (dev_used_idx s) (used_ring s) (free s) (used_idx s)
    (infos s) (ops s) (busy s) (wakes s ++ [c]) (mmio s).
Definition clear_wakes (s : vdisk) : vdisk :=
  mkvdisk (desc s) (avail_idx s) (avail_ring s) (dev_used_idx s) (used_ring s) (free s) (used_idx s)
    (infos s) (ops s) (busy s) [] (mmio s).
Definition write_reg (r v : Z) (s : vdisk) : vdisk :=
  mkvdisk (desc s) (avail_idx s) (avail_ring s) (dev_used_idx s) (used_ring s) (free s) (used_idx s)
    (infos s) (ops s) (busy s) (wakes s) ((r, u32 v) :: mmio s).

Definition null_desc : virtq_desc := mkdesc PNull 0 0 0.
Definition null_info : info := mkinfo None 0.

(** ** Code *)

(** The state after [virtio_disk_init]: zeroed queue pages and statics, all descriptors free. *)
Definition init_disk (io : list (Z * Z)) : vdisk :=
  mkvdisk (replicate NUM null_desc) 0 (replicate NUM 0%nat) 0 (replicate NUM 0%nat) (replicate NUM true) 0
    (replicate NUM null_info) (replicate NUM (mkreq 0 0 0)) (fun _ => false) [] io.

Section Init.
Context `{I : Image}.

(** What a read of a device register returns, after the writes so far. *)
Context (reg : list (Z * Z) -> Z -> Z).

Definition virtio_disk_init : M vm vdisk :=
  if negb (reg [] VIRTIO_MMIO_MAGIC_VALUE =? 0x74726976) ||
     negb (reg [] VIRTIO_MMIO_VERSION =? 2) ||
     negb (reg [] VIRTIO_MMIO_DEVICE_ID =? 2) ||
     negb (reg [] VIRTIO_MMIO_VENDOR_ID =? 0x554d4551)
  then panic "could not find virtio disk" else
  let status := 0 in
  let io := [(VIRTIO_MMIO_STATUS, status)] in
  let status := Z.lor status VIRTIO_CONFIG_S_ACKNOWLEDGE in
  let io := (VIRTIO_MMIO_STATUS, status) :: io in
  let status := Z.lor status VIRTIO_CONFIG_S_DRIVER in
  let io := (VIRTIO_MMIO_STATUS, status) :: io in
  let features := reg io VIRTIO_MMIO_DEVICE_FEATURES in
  let features := foldl (fun f bit => Z.land f (Z.lnot (Z.shiftl 1 bit))) features declined in
  let io := (VIRTIO_MMIO_DRIVER_FEATURES, u32 features) :: io in
  let status := Z.lor status VIRTIO_CONFIG_S_FEATURES_OK in
  let io := (VIRTIO_MMIO_STATUS, status) :: io in
  let status := reg io VIRTIO_MMIO_STATUS in
  if negb (has status VIRTIO_CONFIG_S_FEATURES_OK) then panic "virtio disk FEATURES_OK unset" else
  let io := (VIRTIO_MMIO_QUEUE_SEL, 0) :: io in
  if negb (reg io VIRTIO_MMIO_QUEUE_READY =? 0) then panic "virtio disk should not be ready" else
  let max := reg io VIRTIO_MMIO_QUEUE_NUM_MAX in
  if max =? 0 then panic "virtio disk has no queue 0" else
  if max <? Z.of_nat NUM then panic "virtio disk max queue too short" else
  let! d := kalloc in
  let! a := kalloc in
  let! u := kalloc in
  if (d =? 0) || (a =? 0) || (u =? 0) then panic "virtio disk kalloc" else
  do! do_memset d 0 PGSIZE in
  do! do_memset a 0 PGSIZE in
  do! do_memset u 0 PGSIZE in
  let io := (VIRTIO_MMIO_QUEUE_NUM, Z.of_nat NUM) :: io in
  let io := (VIRTIO_MMIO_QUEUE_DESC_LOW, u32 d) :: io in
  let io := (VIRTIO_MMIO_QUEUE_DESC_HIGH, u32 (Z.shiftr d 32)) :: io in
  let io := (VIRTIO_MMIO_DRIVER_DESC_LOW, u32 a) :: io in
  let io := (VIRTIO_MMIO_DRIVER_DESC_HIGH, u32 (Z.shiftr a 32)) :: io in
  let io := (VIRTIO_MMIO_DEVICE_DESC_LOW, u32 u) :: io in
  let io := (VIRTIO_MMIO_DEVICE_DESC_HIGH, u32 (Z.shiftr u 32)) :: io in
  let io := (VIRTIO_MMIO_QUEUE_READY, 1) :: io in
  let status := Z.lor status VIRTIO_CONFIG_S_DRIVER_OK in
  let io := (VIRTIO_MMIO_STATUS, status) :: io in
  ret (init_disk io).

End Init.

Fixpoint alloc_desc_loop (n i : nat) : M vdisk Z :=
  match n with
  | O => ret (-1)
  | S n' =>
      let! f := gets (fun s => nth i (free s) false) in
      if (f : bool) then do! modify (set_free i false) in ret (Z.of_nat i)
      else alloc_desc_loop n' (S i)
  end.

Definition alloc_desc : M vdisk Z := alloc_desc_loop NUM 0.

Definition free_desc (i : nat) : M vdisk unit :=
  if (NUM <=? i)%nat then panic "free_desc 1" else
  let! f := gets (fun s => nth i (free s) false) in
  if (f : bool) then panic "free_desc 2" else
  do! modify (set_desc i null_desc) in
  do! modify (set_free i true) in
  modify (vwakeup ChFree).

(** The loop of [free_chain]; a chain without a cycle has at most [NUM] descriptors. *)
Fixpoint free_chain_loop (fuel : nat) (i : nat) : M vdisk unit :=
  match fuel with
  | O => diverge
  | S f =>
      let! d := gets (fun s => nth i (desc s) null_desc) in
      do! free_desc i in
      if has (flags d) VRING_DESC_F_NEXT then free_chain_loop f (dnext d) else ret tt
  end.

Definition free_chain (i : nat) : M vdisk unit := free_chain_loop NUM i.

Fixpoint free_descs (idx : list nat) : M vdisk unit :=
  match idx with
  | [] => ret tt
  | i :: rest => do! free_desc i in free_descs rest
  end.

(** [alloc3_desc] with the descriptors found so far; [None] is its result -1. *)
Fixpoint alloc3_loop (n : nat) (idx : list nat) : M vdisk (option (list nat)) :=
  match n with
  | O => ret (Some idx)
  | S n' =>
      let! d := alloc_desc in
      if d <? 0 then do! free_descs idx in ret None
      else alloc3_loop n' (idx ++ [Z.to_nat d])
  end.

Definition alloc3_desc : M vdisk (option (list nat)) := alloc3_loop 3 [].

(** What [virtio_disk_rw] has on its stack while it sleeps on [&disk.free[0]], and while it
    sleeps on [b] with [idx[0]]. *)
Inductive rwait : Type :=
  | WaitFree
  | WaitBuf (i0 : nat).

Inductive rwout : Type :=
  | RReturn
  | RSleep (w : rwait).

(** From the format of the three descriptors to the notification of the device. *)
Definition rw_submit (b : nat) (write : bool) (sec : Z) (i0 i1 i2 : nat) : M vdisk unit :=
  do! modify (set_ops i0 (mkreq (if write then VIRTIO_BLK_T_OUT else VIRTIO_BLK_T_IN) 0 sec)) in
  do! modify (set_desc i0 (mkdesc (POps i0) 16 VRING_DESC_F_NEXT i1)) in
  do! modify (set_desc i1 (mkdesc (PData b) BSIZE
        (Z.lor (if write then 0 else VRING_DESC_F_WRITE) VRING_DESC_F_NEXT) i2)) in
  do! modify (set_info i0 (fun x => mkinfo (ibuf x) 0xff)) in
  do! modify (set_desc i2 (mkdesc (PStatus i0) 1 VRING_DESC_F_WRITE 0)) in
  do! modify (set_busy b true) in
  do! modify (set_info i0 (fun x => mkinfo (Some b) (istatus x))) in
  let! ai := gets avail_idx in
  do! modify (set_avail_ring (Z.to_nat (ai mod Z.of_nat NUM)) i0) in
  do! modify (set_avail_idx (u16 (ai + 1))) in
  modify (write_reg VIRTIO_MMIO_QUEUE_NOTIFY 0).

(** [while(b->disk == 1) sleep(...)], then the end of the function. *)
Definition rw_wait (b i0 : nat) : M vdisk rwout :=
  let! d := gets (fun s => busy s b) in
  if (d : bool) then ret (RSleep (WaitBuf i0)) else
  do! modify (set_info i0 (fun x => mkinfo None (istatus x))) in
  do! free_chain i0 in
  ret RReturn.

(** [virtio_disk_rw] from the loop around [alloc3_desc] on. *)
Definition rw_alloc (b : nat) (write : bool) (sec : Z) : M vdisk rwout :=
  let! r := alloc3_desc in
  match r with
  | Some [i0; i1; i2] => do! rw_submit b write sec i0 i1 i2 in rw_wait b i0
  | _ => ret (RSleep WaitFree)
  end.

Definition virtio_disk_rw (b : nat) (write : bool) (blockno : Z) : M vdisk rwout :=
  let sec := u32 (blockno * (BSIZE / 512)) in
  rw_alloc b write sec.

(** The call continues after [sleep]. *)
Definition rw_resume (b : nat) (write : bool) (sec : Z) (w : rwait) : M vdisk rwout :=
  match w with
  | WaitFree => rw_alloc b write sec
  | WaitBuf i0 => rw_wait b i0
  end.

(** The body of the loop of [virtio_disk_intr]; a null [info[id].b] is a fault in the kernel. *)
Definition intr_one : M vdisk unit :=
  let! id := gets (fun s => nth (Z.to_nat (used_idx s mod Z.of_nat NUM)) (used_ring s) 0%nat) in
  let! x := gets (fun s => nth id (infos s) null_info) in
  if negb (istatus x =? 0) then panic "virtio_disk_intr status" else
  match ibuf x with
  | None => panic "kerneltrap"
  | Some b =>
      do! modify (set_busy b false) in
      do! modify (vwakeup (ChBuf b)) in
      modify (fun s => set_used_idx (u16 (used_idx s + 1)) s)
  end.

Fixpoint intr_loop (fuel : nat) : M vdisk unit :=
  let! ui := gets used_idx in
  let! di := gets dev_used_idx in
  if ui =? di then ret tt else
  match fuel with
  | O => diverge
  | S f => do! intr_one in intr_loop f
  end.

(** [status] is the content of the register [VIRTIO_MMIO_INTERRUPT_STATUS]. *)
Definition virtio_disk_intr (status : Z) : M vdisk unit :=
  do! modify (write_reg VIRTIO_MMIO_INTERRUPT_ACK (Z.land status 0x3)) in
  let! ui := gets used_idx in
  let! di := gets dev_used_idx in
  intr_loop (Z.to_nat (u16 (di - ui))).

(** ** The driver, the device and the calls in progress *)

(** A command as the device reads it from a chain: type, sector, the buffer, and whether the data
    descriptor lets the device write the buffer. *)
Record vcmd : Type := mkcmd { ctype : Z; csector : Z; cbuf : nat; cwritable : bool }.

Class BlockDevice (D : Type) : Type := {
  serve : vcmd -> D -> D * Z;
}.

(** The command of a chain and the index of its status byte. *)
Definition decode (s : vdisk) (i : nat) : option (vcmd * nat) :=
  d0 ← desc s !! i;
  d1 ← desc s !! dnext d0;
  d2 ← desc s !! dnext d1;
  match addr d0, addr d1, addr d2 with
  | POps k, PData b, PStatus j =>
      r ← ops s !! k;
      if has (flags d0) VRING_DESC_F_NEXT && has (flags d1) VRING_DESC_F_NEXT
         && negb (has (flags d2) VRING_DESC_F_NEXT) && has (flags d2) VRING_DESC_F_WRITE
      then Some (mkcmd (type r) (sector r) b (has (flags d1) VRING_DESC_F_WRITE), j) else None
  | _, _, _ => None
  end.

(** The device writes the status byte and the next entry of the used ring. *)
Definition device_writes (i j : nat) (st : Z) (s : vdisk) : vdisk :=
  mkvdisk (desc s) (avail_idx s) (avail_ring s) (u16 (dev_used_idx s + 1))
    (<[Z.to_nat (dev_used_idx s mod Z.of_nat NUM) := i]> (used_ring s)) (free s) (used_idx s)
    (alter (fun x => mkinfo (ibuf x) st) j (infos s)) (ops s) (busy s) (wakes s) (mmio s).

(** A call of [virtio_disk_rw] in progress, by its buffer; the caller has the buffer's sleep
    lock, so there is one at most. *)
Record thread : Type := mkthread { twrite : bool; tsec : Z; twait : rwait; asleep : bool }.

Definition tchan (b : nat) (t : thread) : vchan :=
  match twait t with WaitFree => ChFree | WaitBuf _ => ChBuf b end.

Definition wake (ws : list vchan) (b : nat) (t : thread) : thread :=
  if bool_decide (tchan b t ∈ ws) then mkthread (twrite t) (tsec t) (twait t) false else t.

Definition wake_all (ws : list vchan) (m : gmap nat thread) : gmap nat thread :=
  map_imap (fun b t => Some (wake ws b t)) m.

Record sys (D : Type) : Type := mksys {
  drv : vdisk;
  seen : Z;
  taken : list nat;
  media : D;
  thr : gmap nat thread;
  served : list (vcmd * Z);
  returned : list vcmd;
}.
Arguments mksys {D}. Arguments drv {D}. Arguments seen {D}. Arguments taken {D}. Arguments media {D}.
Arguments thr {D}. Arguments served {D}. Arguments returned {D}.

Definition rw_cmd (b : nat) (write : bool) (sec : Z) : vcmd :=
  mkcmd (if write then VIRTIO_BLK_T_OUT else VIRTIO_BLK_T_IN) sec b (negb write).

(** The system after a stretch of [virtio_disk_rw] for [b] that ended in [r]. *)
Definition after_rw {D} (c : sys D) (b : nat) (write : bool) (sec : Z) (r : rwout) (s : vdisk) : sys D :=
  let m := wake_all (wakes s) (thr c) in
  mksys (clear_wakes s) (seen c) (taken c) (media c)
    (match r with
     | RReturn => delete b m
     | RSleep w => <[b := mkthread write sec w true]> m
     end)
    (served c)
    (match r with RReturn => returned c ++ [rw_cmd b write sec] | RSleep _ => returned c end).

Section System.
Context {D : Type} `{BD : BlockDevice D}.

Inductive step (c : sys D) : sys D -> Prop :=
  | step_call b write blockno r s :
      thr c !! b = None ->
      virtio_disk_rw b write blockno (drv c) = Ok (r, s) ->
      step c (after_rw c b write (u32 (blockno * (BSIZE / 512))) r s)
  | step_resume b t r s :
      thr c !! b = Some t -> asleep t = false ->
      rw_resume b (twrite t) (tsec t) (twait t) (drv c) = Ok (r, s) ->
      step c (after_rw c b (twrite t) (tsec t) r s)
  | step_intr status s :
      virtio_disk_intr status (drv c) = Ok (tt, s) ->
      step c (mksys (clear_wakes s) (seen c) (taken c) (media c) (wake_all (wakes s) (thr c)) (served c) (returned c))
  | step_take i :
      seen c <> avail_idx (drv c) ->
      avail_ring (drv c) !! Z.to_nat (seen c mod Z.of_nat NUM) = Some i ->
      step c (mksys (drv c) (u16 (seen c + 1)) (taken c ++ [i]) (media c) (thr c) (served c) (returned c))
  | step_serve i l1 l2 x j d st :
      taken c = l1 ++ i :: l2 -> decode (drv c) i = Some (x, j) -> serve x (media c) = (d, st) ->
      step c (mksys (device_writes i j st (drv c)) (seen c) (l1 ++ l2) d (thr c) (served c ++ [(x, st)]) (returned c)).

(** The system after [virtio_disk_init], with the device's state [d]. *)
Definition init_sys (io : list (Z * Z)) (d : D) : sys D := mksys (init_disk io) 0 [] d ∅ [] [].

End System.

(** ** The invariant *)

#[export] Instance virtq_ring : RingSize (Z.of_nat NUM) (2 ^ 16).
Proof. split; [done | done |]. by exists (2 ^ 13). Qed.

(** A request that owns three descriptors. *)
Record areq : Type := mkareq { rb : nat; rwr : bool; rsec : Z; r0 : nat; r1 : nat; r2 : nat }.

Definition idxs (r : areq) : list nat := [r0 r; r1 r; r2 r].
Definition owned (R : list areq) : list nat := mjoin (idxs <$> R).
Definition req_cmd (r : areq) : vcmd := rw_cmd (rb r) (rwr r) (rsec r).

Definition formatted (s : vdisk) (r : areq) : Prop :=
  desc s !! r0 r = Some (mkdesc (POps (r0 r)) 16 VRING_DESC_F_NEXT (r1 r)) /\
  desc s !! r1 r = Some (mkdesc (PData (rb r)) BSIZE
                           (Z.lor (if rwr r then 0 else VRING_DESC_F_WRITE) VRING_DESC_F_NEXT) (r2 r)) /\
  desc s !! r2 r = Some (mkdesc (PStatus (r0 r)) 1 VRING_DESC_F_WRITE 0) /\
  ops s !! r0 r = Some (mkreq (if rwr r then VIRTIO_BLK_T_OUT else VIRTIO_BLK_T_IN) 0 (rsec r)).

(** The descriptors in [L], and only these, are in use. *)
Definition in_use (s : vdisk) (L : list nat) : Prop :=
  length (free s) = NUM /\ forall i, (i < NUM)%nat -> free s !! i = Some (bool_decide (i ∉ L)).

Record core (s : vdisk) (R : list areq) : Prop := {
  co_desc : length (desc s) = NUM;
  co_infos : length (infos s) = NUM;
  co_ops : length (ops s) = NUM;
  co_use : in_use s (owned R);
  co_nodup : NoDup (owned R);
  co_lt : Forall (fun i => i < NUM)%nat (owned R);
  co_fmt : Forall (formatted s) R;
}.

(** The calls in progress: a request in [R] has its thread, one that is reported ([E]) is awake,
    and a thread sleeps for want of descriptors only while two requests have theirs. *)
Record threads_ok (m : gmap nat thread) (R E : list areq) : Prop := {
  t_req : forall r, r ∈ R -> exists a, m !! rb r = Some (mkthread (rwr r) (rsec r) (WaitBuf (r0 r)) a);
  t_awake : forall r, r ∈ E -> asleep <$> m !! rb r = Some false;
  t_thr : forall b t i, m !! b = Some t -> twait t = WaitBuf i -> exists r, r ∈ R /\ rb r = b;
  t_starved : forall b t, m !! b = Some t -> twait t = WaitFree -> asleep t = true -> (2 <= length R)%nat;
}.

(** The requests by stage: on the available ring, in the device, on the used ring, and
    reported by the interrupt handler. *)
Record inv {D} (c : sys D) (Q T U E : list areq) : Prop := {
  i_core : core (drv c) (Q ++ T ++ U ++ E);
  i_avail : ringq (Z.of_nat NUM) (2 ^ 16) (avail_ring (drv c)) (seen c) (avail_idx (drv c)) (r0 <$> Q);
  i_taken : taken c = r0 <$> T;
  i_used : ringq (Z.of_nat NUM) (2 ^ 16) (used_ring (drv c)) (used_idx (drv c)) (dev_used_idx (drv c)) (r0 <$> U);
  i_bufs : NoDup (rb <$> Q ++ T ++ U ++ E);
  i_busy : forall b, busy (drv c) b = bool_decide (b ∈ rb <$> Q ++ T ++ U);
  i_info : forall r, r ∈ Q ++ T ++ U ++ E -> ibuf <$> infos (drv c) !! r0 r = Some (Some (rb r));
  i_thr : threads_ok (thr c) (Q ++ T ++ U ++ E) E;
  i_served : (served c).*1 ≡ₚ returned c ++ (req_cmd <$> U ++ E);
  i_status : forall r, r ∈ U -> exists x, infos (drv c) !! r0 r = Some x /\ istatus x ∈ (served c).*2;
  i_wakes : wakes (drv c) = [];
}.

(** Membership in appended lists. *)
Ltac mem :=
  repeat match goal with H : _ ∈ _ |- _ => progress rewrite ?fmap_app, ?fmap_cons, ?elem_of_app, ?elem_of_cons, ?elem_of_nil in H end;
  repeat progress rewrite ?fmap_app, ?fmap_cons, ?elem_of_app, ?elem_of_cons, ?elem_of_nil; tauto.

(** ** Lemmas: descriptors *)

Lemma owned_app R1 R2 : owned (R1 ++ R2) = owned R1 ++ owned R2.
Proof. unfold owned. by rewrite fmap_app, join_app. Qed.

#[export] Instance owned_perm : Proper ((≡ₚ) ==> (≡ₚ)) owned.
Proof.
  intros R1 R2 H. induction H as [|r R1 R2 _ IH|r1 r2 R|R1 R2 R3 _ IH1 _ IH2]; unfold owned in *; cbn [fmap list_fmap mjoin list_join].
  - done.
  - by rewrite IH.
  - rewrite !(assoc_L (++)). by rewrite (comm (++) (idxs r1) (idxs r2)).
  - by etrans.
Qed.

Lemma owned_length R : length (owned R) = (3 * length R)%nat.
Proof. induction R as [|r R IH]; [done |]. change (owned (r :: R)) with (idxs r ++ owned R). rewrite length_app, IH. cbn. lia. Qed.

Lemma elem_of_owned i R : i ∈ owned R <-> exists r, r ∈ R /\ i ∈ idxs r.
Proof. unfold owned. rewrite list_elem_of_join. setoid_rewrite list_elem_of_fmap. naive_solver. Qed.

Lemma in_use_ext s L L' : (forall i, i ∈ L <-> i ∈ L') -> in_use s L -> in_use s L'.
Proof.
  intros H [Hl HL]. split; [done |]. intros i Hi. rewrite HL by done. f_equal. apply bool_decide_ext. by rewrite H.
Qed.

#[export] Instance core_perm s : Proper ((≡ₚ) ==> impl) (core s).
Proof.
  intros R1 R2 H []. split; try done.
  - eapply in_use_ext; [| done]. intros i. by rewrite H.
  - by rewrite <- H.
  - by rewrite <- H.
  - by rewrite <- H.
Qed.

(** There is room for two requests only. *)
Lemma core_length s R : core s R -> (length R <= 2)%nat.
Proof.
  intros []. cut (length (owned R) <= length (seq 0 NUM))%nat.
  { rewrite owned_length, length_seq. unfold NUM. lia. }
  apply submseteq_length, NoDup_submseteq; [done |]. intros i Hi. rewrite Forall_forall in co_lt0.
  apply elem_of_seq. split; [lia | by apply co_lt0].
Qed.

(** Everything the descriptor routines leave alone. *)
Definition rest (s : vdisk) :=
  (avail_idx s, avail_ring s, dev_used_idx s, used_ring s, used_idx s, infos s, ops s, busy s).

Lemma in_use_alloc s L i : in_use s L -> (i < NUM)%nat -> i ∉ L -> in_use (set_free i false s) (i :: L).
Proof.
  intros [Hl HL] Hi Hni. split; cbn [free set_free]; [by rewrite length_insert |]. intros j Hj.
  destruct (decide (i = j)) as [->|Hne].
  - rewrite list_lookup_insert_eq by lia. by rewrite bool_decide_eq_false_2 by set_solver.
  - rewrite list_lookup_insert_ne, HL by done. f_equal. apply bool_decide_ext. set_solver.
Qed.

Lemma alloc_desc_loop_spec n i s L :
  in_use s L -> (n + i = NUM)%nat -> (forall j, (j < i)%nat -> j ∈ L) ->
  (exists k, (k < NUM)%nat /\ (k ∉ L) /\ alloc_desc_loop n i s = Ok (Z.of_nat k, set_free k false s)) \/
  ((forall k, (k < NUM)%nat -> k ∈ L) /\ alloc_desc_loop n i s = Ok (-1, s)).
Proof.
  intros Hu. revert i. induction n as [|n IH]; intros i Hn Hbelow; cbn [alloc_desc_loop].
  { right. split; [| done]. intros k Hk. apply Hbelow. lia. }
  rewrite bind_gets. destruct Hu as [Hl HL]. specialize (HL i ltac:(lia)) as Hi.
  apply (nth_lookup_Some _ _ false) in Hi. rewrite Hi. case_bool_decide as Hin.
  - left. exists i. split_and!; [lia | done | reflexivity].
  - apply IH; [lia |]. intros j Hj. destruct (decide (j = i)) as [->|]; [done |]. apply Hbelow. lia.
Qed.

Lemma alloc_desc_spec s L :
  in_use s L ->
  (exists k, (k < NUM)%nat /\ (k ∉ L) /\ alloc_desc s = Ok (Z.of_nat k, set_free k false s)) \/
  ((forall k, (k < NUM)%nat -> k ∈ L) /\ alloc_desc s = Ok (-1, s)).
Proof. intros. apply alloc_desc_loop_spec; [done | done | lia]. Qed.

(** A descriptor in use is freed without a panic, and everyone waiting for one is woken. *)
Lemma free_desc_spec s L i :
  in_use s (i :: L) -> i ∉ L -> (i < NUM)%nat ->
  exists s', free_desc i s = Ok (tt, s') /\ in_use s' L /\ rest s' = rest s /\
    desc s' = <[i := null_desc]> (desc s) /\ wakes s' = wakes s ++ [ChFree].
Proof.
  intros [Hl HL] Hni Hi. unfold free_desc. destruct (Nat.leb_spec NUM i); [lia |]. rewrite bind_gets.
  specialize (HL i Hi) as Hf. apply (nth_lookup_Some _ _ false) in Hf. rewrite Hf.
  rewrite bool_decide_eq_false_2 by set_solver. mrun. eexists. split; [reflexivity |].
  split; [| done]. split; cbn; [by rewrite length_insert |]. intros j Hj. destruct (decide (i = j)) as [->|Hne].
  - rewrite list_lookup_insert_eq by lia. by rewrite bool_decide_eq_true_2.
  - rewrite list_lookup_insert_ne, HL by done. f_equal. apply bool_decide_ext. set_solver.
Qed.

Lemma free_descs_spec s L idx :
  in_use s (idx ++ L) -> NoDup (idx ++ L) -> Forall (fun i => i < NUM)%nat idx ->
  exists s', free_descs idx s = Ok (tt, s') /\ in_use s' L /\ rest s' = rest s /\
    length (desc s') = length (desc s) /\
    (forall j, j ∉ idx -> desc s' !! j = desc s !! j) /\ wakes s' = wakes s ++ replicate (length idx) ChFree.
Proof.
  revert s. induction idx as [|i idx IH]; intros s Hu Hnd Hlt; cbn [free_descs app] in *.
  { exists s. by rewrite app_nil_r. }
  inversion Hnd as [|?? Hni Hnd']; subst. inversion Hlt as [|?? Hi Hlt']; subst.
  destruct (free_desc_spec s (idx ++ L) i Hu Hni Hi) as (s1 & Hr & Hu1 & Hrest & Hd & Hw).
  mrun with Hr. destruct (IH s1 Hu1 Hnd' Hlt') as (s2 & Hr2 & Hu2 & Hrest2 & Hl2 & Hd2 & Hw2).
  exists s2. split_and!; try done.
  - by rewrite Hrest2.
  - by rewrite Hl2, Hd, length_insert.
  - intros j Hj. rewrite Hd2 by set_solver. rewrite Hd, list_lookup_insert_ne by set_solver. done.
  - rewrite Hw2, Hw, <- app_assoc. done.
Qed.

(** [alloc3_desc] on both branches: three fresh descriptors, or fewer than three are free and
    nothing is kept. *)
Lemma alloc3_loop_spec n idx s L :
  in_use s (idx ++ L) -> NoDup (idx ++ L) -> Forall (fun i => i < NUM)%nat idx ->
  exists r s', alloc3_loop n idx s = Ok (r, s') /\ rest s' = rest s /\ length (desc s') = length (desc s) /\
    (forall j, j ∈ L -> desc s' !! j = desc s !! j) /\
    match r with
    | Some idx' => exists more, idx' = idx ++ more /\ length more = n /\ in_use s' (idx' ++ L) /\
                   NoDup (idx' ++ L) /\ Forall (fun i => i < NUM)%nat idx' /\ wakes s' = wakes s
    | None => in_use s' L /\ (NUM < length (idx ++ L) + n)%nat /\ exists m, wakes s' = wakes s ++ replicate m ChFree
    end.
Proof.
  revert idx s. induction n as [|n IH]; intros idx s Hu Hnd Hlt; cbn [alloc3_loop].
  { eexists _, s. split; [reflexivity |]. split_and!; try done. exists []. by rewrite app_nil_r. }
  destruct (alloc_desc_spec s _ Hu) as [(k & Hk & Hnk & Hr)|[Hall Hr]]; mrun with Hr.
  - destruct (Z.ltb_spec (Z.of_nat k) 0); [lia |]. rewrite Nat2Z.id.
    assert (forall i, i ∈ k :: idx ++ L <-> i ∈ (idx ++ [k]) ++ L) as Hset by set_solver.
    destruct (IH (idx ++ [k]) (set_free k false s)) as (r & s' & Hr' & Hrest & Hl & Hd & Hres).
    + eapply in_use_ext; [exact Hset | by apply in_use_alloc].
    + rewrite <- (assoc_L (++)). cbn [app]. rewrite <- Permutation_middle. by constructor.
    + apply Forall_app. split; [done | by constructor].
    + exists r, s'. split_and!; try done. destruct r as [idx'|].
      * destruct Hres as (more & -> & Hm & Hres). exists (k :: more). rewrite <- (assoc_L (++) idx [k] more) in *.
        split; [done |]. split; [cbn; by rewrite Hm | exact Hres].
      * destruct Hres as (Hu' & Hn & m & Hw). split; [done |]. split; [| by exists m].
        rewrite !length_app in *. cbn [length] in Hn. lia.
  - cbn [Z.ltb Z.compare]. destruct (free_descs_spec s L idx Hu Hnd Hlt) as (s' & Hr' & Hu' & Hrest & Hl & Hd & Hw).
    mrun with Hr'. eexists _, s'. split; [reflexivity |]. split_and!; try done.
    + intros j Hj. apply Hd. apply NoDup_app in Hnd. set_solver.
    + cut (length (seq 0 NUM) <= length (idx ++ L))%nat; [rewrite length_seq; lia |].
      apply submseteq_length, NoDup_submseteq; [apply NoDup_seq |]. intros i Hi%elem_of_seq. apply Hall. lia.
    + by exists (length idx).
Qed.

Lemma formatted_frame s s' r :
  (forall i, i ∈ idxs r -> desc s' !! i = desc s !! i) -> ops s' !! r0 r = ops s !! r0 r ->
  formatted s r -> formatted s' r.
Proof.
  intros Hd Ho (H0 & H1 & H2 & H3). unfold formatted.
  rewrite Ho, !Hd by (unfold idxs; set_solver). done.
Qed.

(** The requests keep their format when only other descriptors change. *)
Lemma all_formatted_frame s s' R :
  (forall i, i ∈ owned R -> desc s' !! i = desc s !! i) ->
  (forall i, i ∈ owned R -> ops s' !! i = ops s !! i) ->
  Forall (formatted s) R -> Forall (formatted s') R.
Proof.
  intros Hd Ho H. apply Forall_forall. intros r Hr. rewrite Forall_forall in H.
  assert (forall i, i ∈ idxs r -> i ∈ owned R) as Hin by (intros i Hx; apply elem_of_owned; eauto).
  apply (formatted_frame s); [| apply Ho, Hin; unfold idxs; set_solver | by apply H].
  intros i Hx. apply Hd, Hin, Hx.
Qed.

(** What a chain in place lets the rest of the state be. *)
Lemma rw_submit_spec s R b write sec i0 i1 i2 :
  length (desc s) = NUM -> length (infos s) = NUM -> length (ops s) = NUM ->
  in_use s ([i0; i1; i2] ++ owned R) -> NoDup ([i0; i1; i2] ++ owned R) ->
  Forall (fun i => i < NUM)%nat ([i0; i1; i2] ++ owned R) -> Forall (formatted s) R ->
  exists s', rw_submit b write sec i0 i1 i2 s = Ok (tt, s') /\ core s' (mkareq b write sec i0 i1 i2 :: R) /\
    avail_idx s' = u16 (avail_idx s + 1) /\
    avail_ring s' = <[Z.to_nat (avail_idx s mod Z.of_nat NUM) := i0]> (avail_ring s) /\
    dev_used_idx s' = dev_used_idx s /\ used_ring s' = used_ring s /\ used_idx s' = used_idx s /\
    busy s' = fset (busy s) b true /\ infos s' !! i0 = Some (mkinfo (Some b) 0xff) /\
    (forall j, j <> i0 -> infos s' !! j = infos s !! j) /\ wakes s' = wakes s.
Proof.
  intros Hld Hli Hlo Hu Hnd Hlt Hf. unfold rw_submit. mrun. eexists. split; [reflexivity |].
  cbn [app] in Hnd. apply NoDup_cons in Hnd as Hnd0. destruct Hnd0 as [Hn0 Hnd1].
  apply NoDup_cons in Hnd1 as [Hn1 Hnd2]. apply NoDup_cons in Hnd2 as [Hn2 Hnd3].
  rewrite not_elem_of_cons in Hn0, Hn1. rewrite not_elem_of_cons in Hn0.
  destruct Hn0 as (Hn01 & Hn02 & Hn0), Hn1 as (Hn12 & Hn1).
  pose proof (Forall_inv Hlt). pose proof (Forall_inv (Forall_inv_tail Hlt)).
  pose proof (Forall_inv (Forall_inv_tail (Forall_inv_tail Hlt))). cbn beta in *.
  assert (alter (fun x => mkinfo (Some b) (istatus x)) i0 (alter (fun x => mkinfo (ibuf x) 0xff) i0 (infos s)) !! i0 =
          Some (mkinfo (Some b) 0xff)) as Hinfo.
  { rewrite alter_twice, list_lookup_alter, decide_True by done.
    destruct (lookup_lt_is_Some_2 (infos s) i0 ltac:(lia)) as [x Hx]. by rewrite Hx. }
  split; [| split_and!; try done; intros j Hj; cbn; by rewrite !list_lookup_alter_ne by done].
  split; cbn [desc infos ops set_desc set_avail_idx set_avail_ring set_info set_ops set_busy write_reg];
    rewrite ?length_insert, ?length_alter; try done.
  constructor.
  - unfold formatted. cbn [rb rwr rsec r0 r1 r2 desc infos ops set_desc set_avail_idx set_avail_ring set_info set_ops set_busy write_reg].
    split_and!.
    + rewrite !list_lookup_insert_ne, list_lookup_insert_eq by (congruence || lia). done.
    + rewrite list_lookup_insert_ne, list_lookup_insert_eq by (rewrite ?length_insert; congruence || lia). done.
    + rewrite list_lookup_insert_eq by (rewrite ?length_insert; lia). done.
    + rewrite list_lookup_insert_eq by lia. done.
  - apply (all_formatted_frame s); [..| done]; intros i Hi; cbn.
    + by rewrite !list_lookup_insert_ne by congruence.
    + by rewrite !list_lookup_insert_ne by congruence.
Qed.

(** Freeing the chain of a request. *)
Lemma free_chain_spec s r R :
  core s (r :: R) ->
  exists s', free_chain (r0 r) s = Ok (tt, s') /\ core s' R /\ rest s' = rest s /\
    wakes s' = wakes s ++ [ChFree; ChFree; ChFree].
Proof.
  intros []. change (owned (r :: R)) with (r0 r :: r1 r :: r2 r :: owned R) in *.
  apply NoDup_cons in co_nodup0 as [Hn0 Hnd1]. apply NoDup_cons in Hnd1 as [Hn1 Hnd2]. apply NoDup_cons in Hnd2 as [Hn2 Hnd3].
  inversion co_lt0 as [|?? Hl0 Hlt1]; subst. inversion Hlt1 as [|?? Hl1 Hlt2]; subst. inversion Hlt2 as [|?? Hl2 Hlt3]; subst.
  inversion co_fmt0 as [|?? (D0 & D1 & D2 & _) Hf]; subst.
  unfold free_chain. change NUM with 8%nat. cbn [free_chain_loop].
  rewrite bind_gets. apply (nth_lookup_Some _ _ null_desc) in D0. rewrite D0.
  destruct (free_desc_spec s _ _ co_use0 Hn0 Hl0) as (s1 & Hr1 & Hu1 & Hrest1 & Hd1 & Hw1). mrun with Hr1.
  cbn [dnext flags]. change (has VRING_DESC_F_NEXT VRING_DESC_F_NEXT) with true. cbv iota.
  rewrite bind_gets. rewrite Hd1. rewrite not_elem_of_cons in Hn0. destruct Hn0 as [Hn01 Hn0].
  rewrite <- (list_lookup_insert_ne _ (r0 r) (r1 r) null_desc) in D1 by done.
  apply (nth_lookup_Some _ _ null_desc) in D1. rewrite D1.
  destruct (free_desc_spec s1 _ _ Hu1 Hn1 Hl1) as (s2 & Hr2 & Hu2 & Hrest2 & Hd2 & Hw2). mrun with Hr2.
  cbn [dnext flags]. replace (has _ _) with true by (by destruct (rwr r)). cbv iota.
  rewrite bind_gets. rewrite Hd2, Hd1. rewrite not_elem_of_cons in Hn0, Hn1. destruct Hn0 as [Hn02 Hn0], Hn1 as [Hn12 Hn1].
  rewrite <- (list_lookup_insert_ne _ (r0 r) (r2 r) null_desc), <- (list_lookup_insert_ne _ (r1 r) (r2 r) null_desc) in D2 by done.
  apply (nth_lookup_Some _ _ null_desc) in D2. rewrite D2.
  destruct (free_desc_spec s2 _ _ Hu2 Hn2 Hl2) as (s3 & Hr3 & Hu3 & Hrest3 & Hd3 & Hw3). mrun with Hr3.
  cbn [flags]. change (has VRING_DESC_F_WRITE VRING_DESC_F_NEXT) with false. cbv iota. exists s3. split; [reflexivity |].
  assert (rest s3 = rest s) as Hrest by congruence.
  split; [| split; [done | rewrite Hw3, Hw2, Hw1, <- !app_assoc; done]].
  unfold rest in Hrest. injection Hrest as _ _ _ _ _ Hinf Hops _.
  split; try done.
  - by rewrite Hd3, Hd2, Hd1, !length_insert.
  - by rewrite Hinf.
  - by rewrite Hops.
  - apply (all_formatted_frame s); [..| done]; intros i Hi; rewrite ?Hops; [| done].
    rewrite Hd3, Hd2, Hd1, !list_lookup_insert_ne by congruence. done.
Qed.

(** ** Lemmas: calls in progress *)

Lemma lookup_wake_all ws m b : wake_all ws m !! b = wake ws b <$> m !! b.
Proof. unfold wake_all. rewrite map_lookup_imap. by destruct (m !! b). Qed.

Lemma wake_twait ws b t : twait (wake ws b t) = twait t.
Proof. unfold wake. by case_bool_decide. Qed.

Lemma wake_asleep ws b t : asleep (wake ws b t) = asleep t && bool_decide (tchan b t ∉ ws).
Proof. unfold wake. case_bool_decide as H; cbn [asleep]; [rewrite bool_decide_eq_false_2, andb_false_r by auto | rewrite bool_decide_eq_true_2, andb_true_r by auto]; done. Qed.

Lemma wake_mk ws b w sec x a : exists a', wake ws b (mkthread w sec x a) = mkthread w sec x a'.
Proof. unfold wake. case_bool_decide; eauto. Qed.

#[export] Instance threads_ok_perm m : Proper ((≡ₚ) ==> (≡ₚ) ==> impl) (threads_ok m).
Proof.
  intros R R' HR E E' HE []. split.
  - intros r Hr. apply t_req0. by rewrite HR.
  - intros r Hr. apply t_awake0. by rewrite HE.
  - intros b t i Ht Hw. destruct (t_thr0 b t i Ht Hw) as (r & Hr & Hb). exists r. by rewrite <- HR.
  - intros b t Ht Hw Ha. rewrite <- (Permutation_length HR). by eapply t_starved0.
Qed.

Lemma threads_wake ws m R E : threads_ok m R E -> threads_ok (wake_all ws m) R E.
Proof.
  intros []. split.
  - intros r Hr. destruct (t_req0 r Hr) as [a Ha]. rewrite lookup_wake_all, Ha. cbn [fmap option_fmap option_map].
    destruct (wake_mk ws (rb r) (rwr r) (rsec r) (WaitBuf (r0 r)) a) as [a' ->]. by exists a'.
  - intros r Hr. specialize (t_awake0 r Hr). rewrite lookup_wake_all. destruct (m !! rb r) as [t|]; [| done].
    injection t_awake0 as Ht. cbn. by rewrite wake_asleep, Ht.
  - intros b t i. rewrite lookup_wake_all. destruct (m !! b) as [t'|] eqn:Hb; [| done]. intros [= <-].
    rewrite wake_twait. by apply t_thr0.
  - intros b t. rewrite lookup_wake_all. destruct (m !! b) as [t'|] eqn:Hb; [| done]. intros [= <-].
    rewrite wake_twait, wake_asleep. intros Hw [Ha _]%andb_true_iff. by eapply t_starved0.
Qed.

(** Requests whose buffers are woken join the reported ones. *)
Lemma threads_report ws m R E U :
  threads_ok m R E -> (forall r, r ∈ U -> r ∈ R /\ ChBuf (rb r) ∈ ws) -> threads_ok (wake_all ws m) R (E ++ U).
Proof.
  intros H HU. pose proof (threads_wake ws m R E H) as []. split; try done.
  intros r [Hr|Hr]%elem_of_app; [by apply t_awake0 |].
  destruct (HU r Hr) as [HrR Hws]. destruct H as [Hreq _ _ _]. destruct (Hreq r HrR) as [a Ha].
  rewrite lookup_wake_all, Ha. cbn. rewrite wake_asleep. cbn [tchan twait].
  by rewrite bool_decide_eq_false_2, andb_false_r by auto.
Qed.

Lemma threads_starve m R E b w sec :
  threads_ok m R E -> b ∉ rb <$> R -> E ⊆ R -> (2 <= length R)%nat ->
  threads_ok (<[b := mkthread w sec WaitFree true]> m) R E.
Proof.
  intros [] Hb HE HR. assert (forall r, r ∈ R -> b <> rb r) as Hne by (intros r Hr ->; apply Hb, list_elem_of_fmap; eauto).
  split.
  - intros r Hr. rewrite lookup_insert_ne by auto. auto.
  - intros r Hr. rewrite lookup_insert_ne by auto. auto.
  - intros b' t i [[<- <-]|[Hn Ht]]%lookup_insert_Some; [done |]. by apply t_thr0.
  - done.
Qed.

Lemma threads_submit m R E r :
  threads_ok m R E -> rb r ∉ rb <$> R -> E ⊆ R ->
  threads_ok (<[rb r := mkthread (rwr r) (rsec r) (WaitBuf (r0 r)) true]> m) (r :: R) E.
Proof.
  intros [] Hb HE. assert (forall r', r' ∈ R -> rb r <> rb r') as Hne
    by (intros r' Hr E'; apply Hb; rewrite E'; apply list_elem_of_fmap; eauto).
  split.
  - intros r' [->|Hr]%elem_of_cons; [rewrite lookup_insert_eq; eauto |]. rewrite lookup_insert_ne by auto. auto.
  - intros r' Hr. rewrite lookup_insert_ne by auto. auto.
  - intros b' t i [[<- <-]|[Hn Ht]]%lookup_insert_Some Hw; [exists r; set_solver |].
    destruct (t_thr0 b' t i Ht Hw) as (r' & Hr & <-). exists r'. set_solver.
  - intros b' t [[<- <-]|[Hn Ht]]%lookup_insert_Some Hw Ha; [done |]. cbn [length].
    pose proof (t_starved0 b' t Ht Hw Ha). lia.
Qed.

(** A thread that was woken before its request is reported sleeps again. *)
Lemma threads_again m R E r :
  threads_ok m R E -> NoDup (rb <$> R) -> r ∈ R -> r ∉ E -> E ⊆ R ->
  threads_ok (<[rb r := mkthread (rwr r) (rsec r) (WaitBuf (r0 r)) true]> m) R E.
Proof.
  intros [] Hnd Hr HrE HE.
  assert (forall r', r' ∈ R -> rb r = rb r' -> r' = r) as Hinj.
  { intros r' Hr' E'. apply list_elem_of_lookup in Hr as [i Hi], Hr' as [j Hj].
    enough (i = j) by congruence. eapply (NoDup_lookup (rb <$> R)); [done | by rewrite list_lookup_fmap, Hi |].
    by rewrite list_lookup_fmap, Hj, E'. }
  split.
  - intros r' Hr'. destruct (decide (rb r = rb r')) as [E'|Hne].
    + rewrite (Hinj r' Hr' E'). rewrite lookup_insert_eq. eauto.
    + rewrite lookup_insert_ne by done. auto.
  - intros r' Hr'. rewrite lookup_insert_ne; [auto |]. intros E'. apply HrE.
    by rewrite <- (Hinj r' (HE _ Hr') E').
  - intros b' t i [[<- <-]|[Hn Ht]]%lookup_insert_Some Hw; [exists r; set_solver |]. by eapply t_thr0.
  - intros b' t [[<- <-]|[Hn Ht]]%lookup_insert_Some Hw Ha; [done |]. by eapply t_starved0.
Qed.

(** A call returns: its thread is gone, and those who wait for descriptors are awake. *)
Lemma threads_return m R E r ws :
  threads_ok m (r :: R) (r :: E) -> rb r ∉ rb <$> R -> E ⊆ R -> ChFree ∈ ws ->
  threads_ok (delete (rb r) (wake_all ws m)) R E.
Proof.
  intros H Hb HE Hws. pose proof (threads_wake ws m _ _ H) as [].
  assert (forall r', r' ∈ R -> rb r <> rb r') as Hne
    by (intros r' Hr E'; apply Hb; rewrite E'; apply list_elem_of_fmap; eauto).
  split.
  - intros r' Hr. rewrite lookup_delete_ne by auto. apply t_req0. set_solver.
  - intros r' Hr. rewrite lookup_delete_ne by auto. apply t_awake0. set_solver.
  - intros b' t i [Hn Ht]%lookup_delete_Some Hw. destruct (t_thr0 b' t i Ht Hw) as (r' & [->|Hr]%elem_of_cons & <-); [done | eauto].
  - intros b' t [Hn Ht]%lookup_delete_Some Hw Ha. exfalso. rewrite lookup_wake_all in Ht.
    destruct (m !! b') as [t'|]; [| done]. injection Ht as <-. rewrite wake_twait in Hw. rewrite wake_asleep in Ha.
    apply andb_true_iff in Ha as [_ Ha%bool_decide_eq_true]. apply Ha. unfold tchan. by rewrite Hw.
Qed.

(** ** Lemmas: the routines on the invariant *)

Lemma core_frame s s' R :
  core s R -> length (desc s') = length (desc s) -> in_use s' (owned R) ->
  (forall i, i ∈ owned R -> desc s' !! i = desc s !! i) -> rest s' = rest s -> core s' R.
Proof.
  intros [] Hl Hu Hd Hrest. unfold rest in Hrest. injection Hrest as _ _ _ _ _ Hinf Hops _.
  split; rewrite ?Hl, ?Hinf, ?Hops; try done.
  apply (all_formatted_frame s); [done | by rewrite Hops | done].
Qed.

(** [virtio_disk_rw] up to its first or second sleep. *)
Lemma rw_alloc_spec s R b write sec :
  core s R ->
  exists r s', rw_alloc b write sec s = Ok (r, s') /\
    ((r = RSleep WaitFree /\ core s' R /\ rest s' = rest s /\ (2 <= length R)%nat /\
      exists m, wakes s' = wakes s ++ replicate m ChFree) \/
     (exists i0 i1 i2, r = RSleep (WaitBuf i0) /\ core s' (mkareq b write sec i0 i1 i2 :: R) /\
      avail_idx s' = u16 (avail_idx s + 1) /\
      avail_ring s' = <[Z.to_nat (avail_idx s mod Z.of_nat NUM) := i0]> (avail_ring s) /\
      dev_used_idx s' = dev_used_idx s /\ used_ring s' = used_ring s /\ used_idx s' = used_idx s /\
      busy s' = fset (busy s) b true /\ infos s' !! i0 = Some (mkinfo (Some b) 0xff) /\
    (forall j, j <> i0 -> infos s' !! j = infos s !! j) /\ wakes s' = wakes s)).
Proof.
  intros Hc. pose proof Hc as []. unfold rw_alloc, alloc3_desc.
  destruct (alloc3_loop_spec 3 [] s (owned R)) as (r & s1 & Hr & Hrest & Hl & Hd & Hres); [done | done | done |].
  mrun with Hr. destruct r as [idx|].
  - destruct Hres as (more & -> & Hm & Hu & Hnd & Hlt & Hw). cbn [app] in *.
    destruct more as [|i0 [|i1 [|i2 [|]]]]; [done.. | | done].
    pose proof Hrest as Hrest'. unfold rest in Hrest. injection Hrest as Hai Har Hdu Hur Hui Hinf Hops Hbu.
    destruct (rw_submit_spec s1 R b write sec i0 i1 i2) as (s2 & Hr2 & Hc2 & Hai2 & Har2 & Hdu2 & Hur2 & Hui2 & Hbu2 & Hi0 & Hinf2 & Hw2).
    all: rewrite ?Hl, ?Hinf, ?Hops; try done.
    { apply Forall_app. done. }
    { apply (all_formatted_frame s); [done | by rewrite Hops | done]. }
    mrun with Hr2. unfold rw_wait. rewrite bind_gets, Hbu2. unfold fset. rewrite Nat.eqb_refl. cbv iota.
    eexists _, s2. split; [reflexivity |]. right. exists i0, i1, i2.
    rewrite Hai2, Har2, Hdu2, Hur2, Hui2, Hbu2, Hw2, Hai, Har, Hdu, Hur, Hui, Hbu, Hw. split_and!; try done.
    intros j Hj. rewrite Hinf2, Hinf by done. done.
  - destruct Hres as (Hu & Hn & m & Hw). eexists _, s1. split; [reflexivity |]. left.
    split; [done |]. split; [by eapply core_frame |]. split; [done |]. split; [| by exists m].
    cbn [app] in Hn. rewrite owned_length in Hn. unfold NUM in Hn. lia.
Qed.

(** A device can read every request back from its chain. *)
Lemma decode_formatted s r : formatted s r -> decode s (r0 r) = Some (req_cmd r, r0 r).
Proof.
  intros (D0 & D1 & D2 & O). unfold decode. rewrite D0. cbn [mbind option_bind dnext]. rewrite D1. cbn [mbind option_bind dnext].
  rewrite D2. cbn [mbind option_bind addr]. rewrite O. cbn [mbind option_bind flags type sector].
  unfold req_cmd, rw_cmd. by destruct (rwr r).
Qed.

(** What the interrupt handler needs of the used ring. *)
Definition reportable (s : vdisk) (r : areq) : Prop := infos s !! r0 r = Some (mkinfo (Some (rb r)) 0).

Lemma intr_loop_spec U s :
  ringq (Z.of_nat NUM) (2 ^ 16) (used_ring s) (used_idx s) (dev_used_idx s) (r0 <$> U) ->
  Forall (reportable s) U ->
  exists s', intr_loop (length U) s = Ok (tt, s') /\ used_idx s' = dev_used_idx s /\
    desc s' = desc s /\ free s' = free s /\ infos s' = infos s /\ ops s' = ops s /\ avail_idx s' = avail_idx s /\
    avail_ring s' = avail_ring s /\ dev_used_idx s' = dev_used_idx s /\ used_ring s' = used_ring s /\
    (forall b, busy s' b = busy s b && bool_decide (b ∉ rb <$> U)) /\
    wakes s' = wakes s ++ (ChBuf ∘ rb <$> U).
Proof.
  revert s. induction U as [|r U IH]; intros s Hring Hok; cbn [intr_loop length fmap list_fmap] in *; rewrite !bind_gets.
  - pose proof (rq_empty _ _ _ _ _ _ Hring) as E. rewrite Z.eqb_sym, E. cbn. exists s. split; [reflexivity |].
    rewrite app_nil_r. apply Z.eqb_eq in E. split_and!; try done. intros b. by rewrite andb_true_r.
  - pose proof (rq_empty _ _ _ _ _ _ Hring) as E. rewrite Z.eqb_sym, E. cbn [bool_decide].
    rewrite bool_decide_eq_false_2 by done. unfold intr_one.
    pose proof (rq_head _ _ _ _ _ _ _ Hring) as Hh. apply (nth_lookup_Some _ _ 0%nat) in Hh.
    inversion Hok as [|?? Hr HU]; subst. unfold reportable in Hr. apply (nth_lookup_Some _ _ null_info) in Hr.
    rewrite !bind_assoc, bind_gets, Hh, !bind_assoc, bind_gets, Hr. cbn [istatus ibuf Z.eqb negb]. cbv iota.
    rewrite !bind_assoc, bind_modify, !bind_assoc, bind_modify, bind_modify.
    destruct (IH (set_used_idx (u16 (used_idx s + 1)) (vwakeup (ChBuf (rb r)) (set_busy (rb r) false s)))) as
      (s' & Hs' & H1 & H2 & H3 & H4 & H5 & H6 & H7 & H8 & H9 & H10 & H11).
    + by eapply rq_pop; [apply _ | exact Hring].
    + done.
    + exists s'. split; [exact Hs' |]. split_and!; try done.
      * intros b. rewrite H10. cbn [busy set_used_idx vwakeup set_busy]. unfold fset.
        destruct (Nat.eqb_spec b (rb r)) as [->|Hne].
        -- rewrite (bool_decide_eq_false_2 (_ ∉ rb r :: _)) by set_solver. by rewrite andb_false_r.
        -- f_equal. apply bool_decide_ext. set_solver.
      * rewrite H11. cbn [wakes set_used_idx vwakeup set_busy]. by rewrite <- app_assoc.
Qed.

Lemma core_clear s R : core s R -> core (clear_wakes s) R.
Proof. intros []. by split. Qed.

(** The requests of the system in one order; the stages are sublists. *)
Lemma stages_E_subset (Q T U E : list areq) : E ⊆ Q ++ T ++ U ++ E.
Proof. set_solver. Qed.

Section Preserve.
Context {D : Type} `{BD : BlockDevice D}.

Lemma inv_alloc (c : sys D) Q T U E b write sec r s :
  inv c Q T U E -> b ∉ rb <$> Q ++ T ++ U ++ E -> rw_alloc b write sec (drv c) = Ok (r, s) ->
  exists Q', inv (after_rw c b write sec r s) Q' T U E.
Proof.
  intros [] Hb Hrun. destruct (rw_alloc_spec (drv c) _ b write sec i_core0) as (r' & s' & Hrun' & H).
  rewrite Hrun in Hrun'. apply Ok_inv in Hrun' as [<- <-].
  destruct H as [(-> & Hc & Hrest & Hlen & m & Hw)|(x0 & x1 & x2 & -> & Hc & Hai & Har & Hdu & Hur & Hui & Hbu & Hi0 & Hinf & Hw)].
  - exists Q. unfold rest in Hrest. injection Hrest as Hai Har Hdu Hur Hui Hinf Hops Hbu.
    split; cbn [drv seen taken thr served returned after_rw]; try done.
    + by apply core_clear.
    + cbn. by rewrite Hai, Har.
    + cbn. by rewrite Hur, Hui, Hdu.
    + cbn. by rewrite Hbu.
    + cbn. by rewrite Hinf.
    + apply threads_starve; [by apply threads_wake | done | apply stages_E_subset | done].
    + cbn. by rewrite Hinf.
  - set (q := mkareq b write sec x0 x1 x2) in *. exists (Q ++ [q]).
    assert (q :: Q ++ T ++ U ++ E ≡ₚ (Q ++ [q]) ++ T ++ U ++ E) as Hp
      by (rewrite <- (assoc_L (++)); cbn [app]; by rewrite <- Permutation_middle).
    pose proof (core_length _ _ Hc) as Hlen. cbn [length] in Hlen. rewrite length_app in Hlen.
    assert (x0 ∉ owned (Q ++ T ++ U ++ E)) as Hfresh.
    { destruct Hc as [_ _ _ _ Hnd _ _]. change (owned (q :: ?l)) with (x0 :: x1 :: x2 :: owned l) in Hnd.
      apply NoDup_cons in Hnd as [Hnd _]. set_solver. }
    assert (forall r, r ∈ Q ++ T ++ U ++ E -> r0 r <> x0) as Hne.
    { intros r Hr <-. apply Hfresh, elem_of_owned. exists r. split; [done |]. unfold idxs. set_solver. }
    split; cbn [drv seen taken thr served returned after_rw]; try done.
    + apply core_clear. by rewrite <- Hp.
    + cbn. rewrite Hai, Har, fmap_app. apply rq_push; [apply _ | done |]. rewrite length_fmap. unfold NUM. lia.
    + cbn. by rewrite Hur, Hui, Hdu.
    + rewrite <- Hp. cbn. by constructor.
    + intros b'. cbn. rewrite Hbu. unfold fset. destruct (Nat.eqb_spec b' b) as [->|Hb'].
      * rewrite bool_decide_eq_true_2; [done |]. apply list_elem_of_fmap. exists q. set_solver.
      * rewrite i_busy0. apply bool_decide_ext. rewrite !fmap_app. set_solver.
    + intros r. rewrite <- Hp. intros [->|Hr]%elem_of_cons; cbn; [by rewrite Hi0 |]. rewrite Hinf by auto. auto.
    + rewrite Hw, i_wakes0. rewrite <- Hp. apply (threads_submit _ _ _ q); [by apply threads_wake | done | apply stages_E_subset].
    + intros r Hr. cbn. rewrite Hinf; [auto |]. apply Hne. set_solver.
Qed.

(** The call resumes after [sleep(b)]. *)
Lemma inv_wait (c : sys D) Q T U E r a res s :
  inv c Q T U E -> r ∈ Q ++ T ++ U ++ E -> thr c !! rb r = Some (mkthread (rwr r) (rsec r) (WaitBuf (r0 r)) a) ->
  rw_wait (rb r) (r0 r) (drv c) = Ok (res, s) ->
  exists E', inv (after_rw c (rb r) (rwr r) (rsec r) res s) Q T U E'.
Proof.
  intros [] Hr Hthr Hrun. unfold rw_wait in Hrun. rewrite bind_gets, i_busy0 in Hrun. case_bool_decide as Hb.
  - apply Ok_inv in Hrun as [<- <-]. exists E. split; cbn [drv seen taken thr served returned after_rw]; try done.
    + by apply core_clear.
    + apply threads_again; [by apply threads_wake | done | done | | apply stages_E_subset].
      intros HrE. rewrite !(assoc_L (++)), fmap_app in i_bufs0. apply NoDup_app in i_bufs0 as (_ & Hdis & _).
      apply (Hdis (rb r)); [by rewrite <- (assoc_L (++)) | apply list_elem_of_fmap; eauto].
  - assert (r ∈ E) as HrE.
    { rewrite !elem_of_app in Hr. destruct Hr as [?|[?|[?|?]]]; [exfalso; apply Hb, list_elem_of_fmap; exists r; set_solver.. | done]. }
    apply list_elem_of_split in HrE as (E1 & E2 & ->). exists (E1 ++ E2).
    assert (Q ++ T ++ U ++ E1 ++ r :: E2 ≡ₚ r :: Q ++ T ++ U ++ E1 ++ E2) as Hp
      by (rewrite <- Permutation_middle, !Permutation_middle; done).
    rewrite bind_modify in Hrun. apply bind_Ok_inv in Hrun as ([] & s1 & Hchain & Hret). apply Ok_inv in Hret as [<- <-].
    destruct (free_chain_spec (set_info (r0 r) (fun x => mkinfo None (istatus x)) (drv c)) r (Q ++ T ++ U ++ E1 ++ E2))
      as (s' & Hchain' & Hc & Hrest & Hw).
    { rewrite Hp in i_core0. destruct i_core0. split; cbn; rewrite ?length_alter; try done. }
    rewrite Hchain in Hchain'. apply Ok_inv in Hchain' as [_ <-].
    unfold rest in Hrest. cbn in Hrest. injection Hrest as Hai Har Hdu Hur Hui Hinf Hops Hbu.
    rewrite Hp in i_bufs0. apply NoDup_cons in i_bufs0 as [Hnb Hbufs]. fold (fmap (M := list) rb) in *.
    assert (forall r', r' ∈ Q ++ T ++ U ++ E1 ++ E2 -> r0 r' <> r0 r) as Hne.
    { intros r' Hr' Eq. rewrite Hp in i_core0. destruct i_core0 as [_ _ _ _ Hnd _ _].
      apply NoDup_cons in Hnd as [Hnd _]. apply Hnd. do 2 apply elem_of_cons; right. right.
      rewrite <- Eq. apply elem_of_owned. exists r'. split; [done |]. unfold idxs. mem. }
    split; cbn [drv seen taken thr served returned after_rw]; try done.
    + by apply core_clear.
    + cbn. by rewrite Hai, Har.
    + cbn. by rewrite Hur, Hui, Hdu.
    + cbn. by rewrite Hbu.
    + intros r' Hr'. cbn. rewrite Hinf, list_lookup_alter_ne by (intros Eq; by apply (Hne r')). apply i_info0. rewrite Hp. mem.
    + apply threads_return; [by rewrite <- Hp, (Permutation_middle E1) | done | set_solver |]. rewrite Hw. set_solver.
    + rewrite i_served0, <- (assoc_L (++)). f_equiv. rewrite !fmap_app. cbn. by rewrite <- !Permutation_middle.
    + intros r' Hr'. cbn. rewrite Hinf, list_lookup_alter_ne by (intros Eq; apply (Hne r'); [set_solver | done]). auto.
Qed.

Lemma ring_fuel s (U : list areq) :
  ringq (Z.of_nat NUM) (2 ^ 16) (used_ring s) (used_idx s) (dev_used_idx s) (r0 <$> U) ->
  Z.to_nat (u16 (dev_used_idx s - used_idx s)) = length U.
Proof. intros H. unfold u16. rewrite (rq_count _ _ _ _ _ _ H), length_fmap, Nat2Z.id. done. Qed.

(** The handler either meets a failed command or reports all of the used ring. *)
Lemma intr_reports (c : sys D) Q T U E status :
  inv c Q T U E -> Forall (reportable (drv c)) U ->
  exists s, virtio_disk_intr status (drv c) = Ok (tt, s) /\
    inv (mksys (clear_wakes s) (seen c) (taken c) (media c) (wake_all (wakes s) (thr c)) (served c) (returned c))
      Q T [] (E ++ U).
Proof.
  intros [] Hok. unfold virtio_disk_intr. rewrite bind_modify, !bind_gets.
  destruct (intr_loop_spec U (write_reg VIRTIO_MMIO_INTERRUPT_ACK (Z.land status 0x3) (drv c))) as
    (s & Hrun & Hui & Hd & Hf & Hinf & Hops & Hai & Har & Hdu & Hur & Hbu & Hw); [exact i_used0 | exact Hok |].
  exists s. cbn in Hui, Hd, Hf, Hinf, Hops, Hai, Har, Hdu, Hur, Hw.
  rewrite <- (ring_fuel (drv c) U i_used0) in Hrun. split; [exact Hrun |].
  assert (Q ++ T ++ U ++ E ≡ₚ Q ++ T ++ [] ++ E ++ U) as Hp by (cbn; by rewrite (Permutation_app_comm U E)).
  split; cbn [drv seen taken thr served returned]; try done.
  - apply core_clear. rewrite <- Hp. destruct i_core0. split; rewrite ?Hd, ?Hinf, ?Hops; try done.
    + destruct co_use0. split; by rewrite Hf.
    + apply (all_formatted_frame (drv c)); [by rewrite Hd | by rewrite Hops | done].
  - cbn. by rewrite Hai, Har.
  - cbn. rewrite Hui, Hdu, Hur. apply rq_nil; [apply _ | apply i_used0 |].
    by eapply rq_w_range; [apply _ | exact i_used0].
  - by rewrite <- Hp.
  - intros b. cbn [clear_wakes busy]. rewrite Hbu. cbn [write_reg busy]. rewrite i_busy0, app_nil_r.
    rewrite fmap_app, fmap_app. rewrite !fmap_app in i_bufs0. apply NoDup_app in i_bufs0 as (_ & D1 & N2).
    apply NoDup_app in N2 as (_ & D2 & _). setoid_rewrite elem_of_app in D1. setoid_rewrite elem_of_app in D2.
    setoid_rewrite elem_of_app in D1. destruct (bool_decide (b ∈ _ ++ _)) eqn:Hb at 1.
    + apply bool_decide_eq_true in Hb. cbn [andb]. apply bool_decide_ext. set_solver.
    + apply bool_decide_eq_false in Hb. symmetry. apply bool_decide_eq_false. set_solver.
  - intros r Hr. cbn. rewrite Hinf. apply i_info0. by rewrite Hp.
  - rewrite <- Hp. apply threads_report; [done |]. intros r Hr. split; [set_solver |].
    rewrite Hw, i_wakes0. cbn [app]. apply list_elem_of_fmap. by exists r.
  - rewrite i_served0. cbn [app]. by rewrite (Permutation_app_comm U E).
  - intros r Hr. by apply not_elem_of_nil in Hr.
Qed.

Lemma inv_take (c : sys D) Q T U E i :
  inv c Q T U E -> seen c <> avail_idx (drv c) ->
  avail_ring (drv c) !! Z.to_nat (seen c mod Z.of_nat NUM) = Some i ->
  exists Q' T', inv (mksys (drv c) (u16 (seen c + 1)) (taken c ++ [i]) (media c) (thr c) (served c) (returned c)) Q' T' U E.
Proof.
  intros [] Hne Hi. destruct Q as [|r Q].
  { pose proof (rq_empty _ _ _ _ _ _ i_avail0) as H. apply Z.eqb_eq in H. congruence. }
  rewrite (rq_head _ _ _ _ _ _ _ i_avail0) in Hi. injection Hi as <-.
  assert ((r :: Q) ++ T ++ U ++ E ≡ₚ Q ++ (T ++ [r]) ++ U ++ E) as Hp
    by (rewrite <- (assoc_L (++) T); cbn [app]; by rewrite <- !Permutation_middle).
  exists Q, (T ++ [r]). split; cbn [drv seen taken thr served returned]; try done.
  - by rewrite <- Hp.
  - by eapply rq_pop; [apply _ | exact i_avail0].
  - by rewrite i_taken0, fmap_app.
  - by rewrite <- Hp.
  - intros b. rewrite i_busy0. apply bool_decide_ext. mem.
  - intros r' Hr'. apply i_info0. by rewrite Hp.
  - by rewrite <- Hp.
Qed.

Lemma inv_serve (c : sys D) Q T U E i l1 l2 x j d st :
  inv c Q T U E -> taken c = l1 ++ i :: l2 -> decode (drv c) i = Some (x, j) -> serve x (media c) = (d, st) ->
  exists T' U', inv (mksys (device_writes i j st (drv c)) (seen c) (l1 ++ l2) d (thr c) (served c ++ [(x, st)]) (returned c)) Q T' U' E.
Proof.
  intros [] Htk Hdec Hs. rewrite Htk in i_taken0. symmetry in i_taken0.
  apply fmap_app_inv in i_taken0 as (T1 & T2' & -> & H2 & ->). symmetry in H2.
  apply fmap_cons_inv in H2 as (r & T2 & -> & -> & ->).
  assert (r ∈ Q ++ (T1 ++ r :: T2) ++ U ++ E) as HrR by set_solver.
  assert (formatted (drv c) r) as Hfmt by (destruct i_core0 as [_ _ _ _ _ _ Hf]; by rewrite Forall_forall in Hf; apply Hf).
  rewrite (decode_formatted _ _ Hfmt) in Hdec. injection Hdec as <- <-.
  assert (Q ++ (T1 ++ r :: T2) ++ U ++ E ≡ₚ Q ++ (T1 ++ T2) ++ (U ++ [r]) ++ E) as Hp.
  { rewrite <- (assoc_L (++) U). cbn [app]. rewrite <- !(assoc_L (++) T1). cbn [app]. by rewrite <- !Permutation_middle. }
  pose proof (core_length _ _ i_core0) as Hlen. rewrite !length_app in Hlen.
  destruct (lookup_lt_is_Some_2 (infos (drv c)) (r0 r)) as [y Hy].
  { destruct i_core0 as [_ Hli _ _ _ Hlt _]. rewrite Forall_forall in Hlt. rewrite Hli. apply Hlt, elem_of_owned. exists r. split; [done |]. unfold idxs. set_solver. }
  exists (T1 ++ T2), (U ++ [r]). split; cbn [drv seen taken thr served returned device_writes avail_ring avail_idx used_ring used_idx dev_used_idx busy infos wakes]; try done.
  - rewrite <- Hp. destruct i_core0. split; cbn [desc infos ops device_writes]; rewrite ?length_alter; try done.
  - by rewrite fmap_app.
  - rewrite fmap_app. apply rq_push; [apply _ | done |]. rewrite length_fmap. unfold NUM. cbn [length] in Hlen. lia.
  - by rewrite <- Hp.
  - intros b. rewrite i_busy0. apply bool_decide_ext. mem.
  - intros r' Hr'. rewrite <- Hp in Hr'. rewrite list_lookup_alter. case_decide as Eq; [| by apply i_info0].
    specialize (i_info0 r' Hr'). rewrite <- Eq in *. by destruct (infos (drv c) !! r0 r).
  - by rewrite <- Hp.
  - rewrite fmap_app, i_served0. cbn [fmap list_fmap fst]. rewrite <- (assoc_L (++)). f_equiv.
    rewrite !fmap_app. cbn. rewrite <- !(assoc_L (++)). f_equiv. by rewrite (Permutation_app_comm _ (req_cmd <$> E)).
  - intros r' Hr'. rewrite fmap_app. rewrite list_lookup_alter. case_decide as Eq.
    + rewrite Hy. eexists. split; [done |]. cbn. set_solver.
    + apply elem_of_app in Hr' as [Hr'|Hr']; [| set_solver]. destruct (i_status0 r' Hr') as (z & Hz & Hin).
      exists z. split; [done |]. set_solver.
Qed.

Lemma reportable_or_failed (c : sys D) Q T U E :
  inv c Q T U E -> Forall (fun x => x.2 = 0) (served c) -> Forall (reportable (drv c)) U.
Proof.
  intros [] Hz. apply Forall_forall. intros r Hr. destruct (i_status0 r Hr) as (x & Hx & Hin).
  apply list_elem_of_fmap in Hin as ([y st] & Hst & Hin). rewrite Forall_forall in Hz. specialize (Hz _ Hin). cbn in Hz.
  assert (r ∈ Q ++ T ++ U ++ E) as HrR by set_solver. specialize (i_info0 r HrR). rewrite Hx in i_info0. injection i_info0 as Hb.
  unfold reportable. rewrite Hx. destruct x as [b' st']. cbn in *. congruence.
Qed.

(** A run of the handler that does not panic met successful commands only. *)
Lemma intr_loop_ok (U : list areq) s s' :
  ringq (Z.of_nat NUM) (2 ^ 16) (used_ring s) (used_idx s) (dev_used_idx s) (r0 <$> U) ->
  (forall r, r ∈ U -> ibuf <$> infos s !! r0 r = Some (Some (rb r))) ->
  intr_loop (length U) s = Ok (tt, s') -> Forall (reportable s) U.
Proof.
  revert s. induction U as [|r U IH]; intros s Hring Hinf Hrun; [done |].
  cbn [intr_loop length fmap list_fmap] in *. rewrite !bind_gets in Hrun.
  pose proof (rq_empty _ _ _ _ _ _ Hring) as E. rewrite Z.eqb_sym, E, bool_decide_eq_false_2 in Hrun by done.
  unfold intr_one in Hrun. pose proof (rq_head _ _ _ _ _ _ _ Hring) as Hh. apply (nth_lookup_Some _ _ 0%nat) in Hh.
  rewrite !bind_assoc, bind_gets, Hh, !bind_assoc, bind_gets in Hrun.
  destruct (infos s !! r0 r) as [x|] eqn:Hx; [| specialize (Hinf r ltac:(set_solver)); by rewrite Hx in Hinf].
  pose proof Hx as Hx'. apply (nth_lookup_Some _ _ null_info) in Hx'. rewrite Hx' in Hrun.
  pose proof (Hinf r ltac:(set_solver)) as Hb. rewrite Hx in Hb. injection Hb as Hb. rewrite Hb in Hrun.
  destruct (Z.eqb_spec (istatus x) 0) as [Hz|]; [| discriminate Hrun]. cbn [negb] in Hrun. cbv iota in Hrun.
  rewrite !bind_assoc, bind_modify, !bind_assoc, bind_modify, bind_modify in Hrun. constructor.
  - unfold reportable. rewrite Hx, <- Hb, <- Hz. by destruct x.
  - refine (IH _ _ _ Hrun); [by eapply rq_pop; [apply _ | exact Hring] |].
    intros r' Hr'. apply Hinf. set_solver.
Qed.

Lemma inv_step (c c' : sys D) Q T U E : inv c Q T U E -> step c c' -> exists Q' T' U' E', inv c' Q' T' U' E'.
Proof.
  intros Hinv Hstep. pose proof Hinv as []. destruct Hstep as [b write bn r s Hb Hrun|b t r s Hb Ha Hrun|status s Hrun|i Hne Hi|i l1 l2 x j d st Htk Hdec Hs].
  - destruct (inv_alloc c Q T U E b write (u32 (bn * (BSIZE / 512))) r s Hinv) as [Q' H]; [| exact Hrun | by exists Q', T, U, E].
    intros (r' & -> & Hr')%list_elem_of_fmap. destruct (t_req _ _ _ i_thr0 r' Hr') as [a Ha]. congruence.
  - destruct t as [w sec [|i] a]; cbn [twait twrite tsec asleep rw_resume] in *.
    + destruct (inv_alloc c Q T U E b w sec r s Hinv) as [Q' H]; [| exact Hrun | by exists Q', T, U, E].
      intros (r' & -> & Hr')%list_elem_of_fmap. destruct (t_req _ _ _ i_thr0 r' Hr') as [a' Ha']. congruence.
    + destruct (t_thr _ _ _ i_thr0 b _ i Hb eq_refl) as (q & Hq & <-).
      destruct (t_req _ _ _ i_thr0 q Hq) as [a' Ha']. rewrite Hb in Ha'. injection Ha' as -> -> -> ->.
      destruct (inv_wait c Q T U E q a' r s Hinv Hq Hb Hrun) as [E' H]. by exists Q, T, U, E'.
  - assert (Forall (reportable (drv c)) U) as Hrep.
    { unfold virtio_disk_intr in Hrun. rewrite bind_modify, !bind_gets in Hrun.
      change (Z.to_nat _) with (Z.to_nat (u16 (dev_used_idx (drv c) - used_idx (drv c)))) in Hrun.
      rewrite (ring_fuel (drv c) U i_used0) in Hrun.
      apply intr_loop_ok in Hrun; [exact Hrun | exact i_used0 |]. intros r Hr. apply i_info0. set_solver. }
    destruct (intr_reports c Q T U E status Hinv Hrep) as (s' & Hrun' & H). rewrite Hrun in Hrun'.
    apply Ok_inv in Hrun' as [_ <-]. by exists Q, T, [], (E ++ U).
  - destruct (inv_take c Q T U E i Hinv Hne Hi) as (Q' & T' & H). by exists Q', T', U, E.
  - destruct (inv_serve c Q T U E i l1 l2 x j d st Hinv Htk Hdec Hs) as (T' & U' & H). by exists Q, T', U', E.
Qed.

Lemma inv_init io (d : D) : inv (init_sys io d) [] [] [] [].
Proof.
  split; try done.
  - split; try done; [| constructor]. split; [done |]. intros i Hi. cbn [init_sys drv init_disk free]. rewrite lookup_replicate_2 by done. done.
  - by apply rq_nil; [apply _ | |].
  - by apply rq_nil; [apply _ | |].
  - constructor.
  - intros r Hr. by apply not_elem_of_nil in Hr.
  - split; try done; intros r Hr; by apply not_elem_of_nil in Hr.
  - intros r Hr. by apply not_elem_of_nil in Hr.
Qed.

Lemma reachable_inv_virtio io d (c : sys D) : rtc step (init_sys io d) c -> exists Q T U E, inv c Q T U E.
Proof.
  revert c. apply (rtc_ind_r (R := step) (fun c => exists Q T U E, inv c Q T U E) (init_sys io d)).
  - exists [], [], [], []. apply inv_init.
  - intros c1 c2 _ Hstep (Q & T & U & E & Hinv). by eapply inv_step.
Qed.

(** The device's state is the result of the commands it served, one after the other. *)
Definition replay (d : D) (l : list vcmd) : D := foldl (fun d x => (serve x d).1) d l.

Lemma reachable_media io d (c : sys D) : rtc step (init_sys io d) c -> media c = replay d (served c).*1.
Proof.
  revert c. apply (rtc_ind_r (R := step) (fun c => media c = replay d (served c).*1) (init_sys io d)); [done |].
  intros c1 c2 _ Hstep IH. destruct Hstep as [| | | |i l1 l2 x j d' st _ _ Hs]; cbn [media served after_rw]; try done.
  unfold replay in *. rewrite fmap_app, foldl_app, <- IH. cbn. by rewrite Hs.
Qed.

Lemma rw_wait_runs (c : sys D) Q T U E b t i :
  inv c Q T U E -> thr c !! b = Some t -> twait t = WaitBuf i -> exists r s, rw_wait b i (drv c) = Ok (r, s).
Proof.
  intros [] Hb Hw. destruct (t_thr _ _ _ i_thr0 b t i Hb Hw) as (q & Hq & <-).
  destruct (t_req _ _ _ i_thr0 q Hq) as [a Ha]. rewrite Hb in Ha. injection Ha as ->. injection Hw as <-.
  unfold rw_wait. rewrite bind_gets, i_busy0. case_bool_decide; [by eexists _, _ |]. rewrite bind_modify.
  apply list_elem_of_split in Hq as (R1 & R2 & HR). rewrite HR, <- Permutation_middle in i_core0.
  destruct (free_chain_spec (set_info (r0 q) (fun x => mkinfo None (istatus x)) (drv c)) q (R1 ++ R2)) as (s & Hrun & _).
  { destruct i_core0. split; cbn; rewrite ?length_alter; try done. }
  mrun with Hrun. by eexists _, _.
Qed.

(** ** Properties *)

(** C7: the driver cannot stop the machine by its own fault: in every reachable state of the
    driver, the device and the calls in progress, a new call of [virtio_disk_rw] and the continuation
    of any sleeping one run to their next sleep or return ([free_desc] never panics and
    [free_chain] ends), and the interrupt handler completes when the device has reported no
    failed command. *)
Theorem virtio_driver_safe (io : list (Z * Z)) (d : D) (c : sys D) (Hc : rtc step (init_sys io d) c) :
  (forall b write blockno, exists r s, virtio_disk_rw b write blockno (drv c) = Ok (r, s)) /\
  (forall b t, thr c !! b = Some t -> exists r s, rw_resume b (twrite t) (tsec t) (twait t) (drv c) = Ok (r, s)) /\
  (Forall (fun x => x.2 = 0) (served c) -> forall status, exists s, virtio_disk_intr status (drv c) = Ok (tt, s)).
Proof.
  destruct (reachable_inv_virtio io d c Hc) as (Q & T & U & E & Hinv). split_and!.
  - intros b write bn. destruct (rw_alloc_spec (drv c) _ b write (u32 (bn * (BSIZE / 512))) (i_core _ _ _ _ _ Hinv)) as (r & s & Hrun & _). eauto.
  - intros b [w sec [|i] a] Hb; cbn [rw_resume twait twrite tsec].
    + destruct (rw_alloc_spec (drv c) _ b w sec (i_core _ _ _ _ _ Hinv)) as (r & s & Hrun & _). eauto.
    + exact (rw_wait_runs c Q T U E b _ i Hinv Hb eq_refl).
  - intros Hz status. destruct (intr_reports c Q T U E status Hinv) as (s & Hrun & _); [by eapply reportable_or_failed | eauto].
Qed.

(** C6: every request is carried out exactly once and as asked: the commands the device has served
    are, up to order, those of the calls that have returned and those of some calls in
    progress, each with the direction, sector and buffer of its call; the state of the
    medium is the result of the served commands in the order of service. *)
Theorem commands_served_once (io : list (Z * Z)) (d : D) (c : sys D) (Hc : rtc step (init_sys io d) c) :
  media c = replay d (served c).*1 /\
  exists pend, (served c).*1 ≡ₚ returned c ++ pend /\ NoDup (cbuf <$> pend) /\
    forall x, x ∈ pend -> exists t i, thr c !! cbuf x = Some t /\ twait t = WaitBuf i /\
                          x = rw_cmd (cbuf x) (twrite t) (tsec t).
Proof.
  split; [by apply reachable_media with io |].
  destruct (reachable_inv_virtio io d c Hc) as (Q & T & U & E & []). exists (req_cmd <$> U ++ E). split; [done |]. split.
  - rewrite <- list_fmap_compose. change (cbuf ∘ req_cmd) with rb. rewrite !fmap_app in i_bufs0.
    apply NoDup_app in i_bufs0 as (_ & _ & H). apply NoDup_app in H as (_ & _ & H). by rewrite fmap_app.
  - intros x (r & -> & Hr)%list_elem_of_fmap. destruct (t_req _ _ _ i_thr0 r) as [a Ha]; [mem |].
    by exists (mkthread (rwr r) (rsec r) (WaitBuf (r0 r)) a), (r0 r).
Qed.

(** C8: no wakeup is lost: while a call of [virtio_disk_rw] is in progress, either some call is
    awake, or the device has a request to take, a command to serve, or a completion
    the interrupt handler has not seen. *)
Theorem disk_never_stuck (io : list (Z * Z)) (d : D) (c : sys D) (Hc : rtc step (init_sys io d) c) (Ht : thr c <> ∅) :
  (exists b t, thr c !! b = Some t /\ asleep t = false) \/
  seen c <> avail_idx (drv c) \/ taken c <> [] \/ used_idx (drv c) <> dev_used_idx (drv c).
Proof.
  destruct (reachable_inv_virtio io d c Hc) as (Q & T & U & E & []).
  apply map_choose in Ht as (b & t & Hb). destruct (asleep t) eqn:Ha; [| eauto].
  assert (exists r, r ∈ Q ++ T ++ U ++ E) as [r Hr].
  { destruct (twait t) as [|i] eqn:Hw.
    - pose proof (t_starved _ _ _ i_thr0 b t Hb Hw Ha). destruct (Q ++ T ++ U ++ E) as [|r l]; [cbn in *; lia | exists r; by left].
    - destruct (t_thr _ _ _ i_thr0 b t i Hb Hw) as (r & Hr & _). eauto. }
  rewrite !elem_of_app in Hr. destruct Hr as [Hr|[Hr|[Hr|Hr]]].
  - right. left. intros Hs. pose proof (rq_empty _ _ _ _ _ _ i_avail0) as H. rewrite Hs, Z.eqb_refl in H.
    symmetry in H. apply bool_decide_eq_true in H. destruct Q; [by apply not_elem_of_nil in Hr | done].
  - right. right. left. rewrite i_taken0. destruct T; [by apply not_elem_of_nil in Hr | done].
  - do 3 right. intros Hs. pose proof (rq_empty _ _ _ _ _ _ i_used0) as H. rewrite Hs, Z.eqb_refl in H.
    symmetry in H. apply bool_decide_eq_true in H. destruct U; [by apply not_elem_of_nil in Hr | done].
  - left. pose proof (t_awake _ _ _ i_thr0 r Hr) as H. destruct (thr c !! rb r) as [t'|] eqn:Hr'; [| done].
    injection H as H. eauto.
Qed.

End Preserve.

(** ** The device of [Bio.v] *)

(** A disk of blocks as in [Bio.v]: two sectors make a block; all commands succeed. *)
#[export] Instance bio_device : BlockDevice bcache := {|
  serve x d :=
    (if ctype x =? VIRTIO_BLK_T_OUT then
       mkbcache (bufs d) (next d) (prev d) (zset (disk d) (csector x / 2) (bdata (bufs d (cbuf x))))
         ((csector x / 2, bdata (bufs d (cbuf x))) :: writes d)
     else set_buf (cbuf x) (set_bdata (disk d (csector x / 2))) d, 0)
|}.

(** One transfer of [Bio.v] is what this device does with the driver's command. *)
Lemma bio_transfer b write (d : bcache) :
  0 <= blockno (bufs d b) < 2 ^ 31 ->
  Bio.virtio_disk_rw b write d = Ok (tt, (serve (rw_cmd b write (u32 (blockno (bufs d b) * (BSIZE / 512)))) d).1).
Proof.
  intros H. change (BSIZE / 512) with 2. rewrite u32_small by lia.
  assert (blockno (bufs d b) * 2 / 2 = blockno (bufs d b)) as Hdiv by (apply Z.div_mul; lia).
  destruct write; cbn [rw_cmd serve bio_device ctype csector cbuf fst]; rewrite Hdiv; reflexivity.
Qed.

(** ** Witnesses: a write of block 5 from buffer 3 *)

Definition no_buf : buf := mkbuf true 1 5 Sleeplock.initsleeplock 1 (fun _ => 7).
Definition demo_cache : bcache := mkbcache (fun _ => no_buf) (fun i => i) (fun i => i) (fun _ _ => 0) [].

(** The system after the call, after the device has taken the chain, and after it served it. *)
Definition run_of {A} (o : outcome (A * vdisk)) : vdisk := match o with Ok (_, s) => s | _ => init_disk [] end.
Definition demo_called : sys bcache :=
  after_rw (init_sys [] demo_cache) 3 true 10 (RSleep (WaitBuf 0)) (run_of (virtio_disk_rw 3 true 5 (init_disk []))).
Definition demo_taken : sys bcache :=
  mksys (drv demo_called) 1 [0%nat] demo_cache (thr demo_called) [] [].
Definition demo_served : sys bcache :=
  mksys (device_writes 0 0 0 (drv demo_called)) 1 [] (serve (rw_cmd 3 true 10) demo_cache).1 (thr demo_called) [(rw_cmd 3 true 10, 0)] [].

Lemma demo_called_reachable : rtc step (init_sys [] demo_cache) demo_called.
Proof. apply rtc_once. apply (step_call _ 3%nat true 5 (RSleep (WaitBuf 0))); [done |]. cbv. reflexivity. Qed.

Lemma demo_served_reachable : rtc step (init_sys [] demo_cache) demo_served.
Proof.
  assert (step demo_called demo_taken) as H1
    by (apply (step_take demo_called 0%nat); by vm_compute).
  assert (step demo_taken demo_served) as H2
    by (exact (step_serve demo_taken 0%nat [] [] (rw_cmd 3 true 10) 0%nat _ 0 eq_refl eq_refl eq_refl)).
  eapply rtc_r; [eapply rtc_r; [exact demo_called_reachable | exact H1] | exact H2].
Qed.

Lemma virtio_driver_safe_witness : exists s, virtio_disk_intr 1 (drv demo_served) = Ok (tt, s).
Proof.
  destruct (virtio_driver_safe [] demo_cache demo_served demo_served_reachable) as (_ & _ & H).
  apply H. by repeat constructor.
Defined.

Lemma commands_served_once_witness :
  exists pend, [rw_cmd 3 true 10] ≡ₚ [] ++ pend /\ NoDup (cbuf <$> pend).
Proof.
  destruct (commands_served_once [] demo_cache demo_served demo_served_reachable) as (_ & pend & H1 & H2 & _).
  by exists pend.
Defined.

Lemma disk_never_stuck_witness :
  (exists b t, thr demo_called !! b = Some t /\ asleep t = false) \/
  seen demo_called <> avail_idx (drv demo_called) \/ taken demo_called <> [] \/
  used_idx (drv demo_called) <> dev_used_idx (drv demo_called).
Proof. apply (disk_never_stuck [] demo_cache demo_called demo_called_reachable). by vm_compute. Defined.
