(* ===== verification/Log.v ===== *)
(** * Log: the write-ahead log, [kernel/log.c]

    The code of the log over any buffer cache that satisfies [Bio.CacheOk].  Blocks written
    by a transaction stay pinned in the cache; [commit] copies them to the log area, writes the
    header (the commit point), copies them to their home locations and erases the header.
    [end_op] runs the commit with [committing] set, which keeps all other transactions out, so
    it is one sequence of steps here; [begin_op] is one pass of its loop, [false] when the
    caller goes to sleep.

    The main theorem is about crashes: the disk after any prefix of the writes of a commit,
    or of a recovery, still represents the old contents or the new contents of all blocks,
    and recovery puts these contents in place. *)

From stdpp Require Import base list gmap sets strings.
From Stdlib Require Import ZArith Lia.
From S2P Require Import Prelude Riscv Mem Bio.

(** ** Data *)

Record log (S : Type) : Type := mklog {
  lcache : S;
  lstart : Z;
  lsize : Z;
  outstanding : Z;
  committing : bool;
  ldev : Z;
  lh_n : Z;
  lh_block : list Z;
  wakes : nat;  (* calls of [wakeup(&log)] *)
}.
Arguments mklog {S}.
Arguments lcache {S}.
Arguments lstart {S}.
Arguments lsize {S}.
Arguments outstanding {S}.
Arguments committing {S}.
Arguments ldev {S}.
Arguments lh_n {S}.
Arguments lh_block {S}.
Arguments wakes {S}.

(** The part of [struct superblock] the log reads. *)
Definition log0 {S} (c : S) (d sb_logstart sb_nlog : Z) : log S :=
  mklog c sb_logstart sb_nlog 0 false d 0 (replicate (Z.to_nat LOGSIZE) 0) 0.

Section Code.
Context {S : Type} `{Cache S}.

Definition on_cache {A} (m : M S A) : M (log S) A := fun s =>
  match m (lcache s) with
  | Ok (a, c) => Ok (a, mklog c (lstart s) (lsize s) (outstanding s) (committing s) (ldev s) (lh_n s) (lh_block s) (wakes s))
  | Panic msg => Panic msg
  | Diverge => Diverge
  end.

Definition set_n (n : Z) (s : log S) : log S :=
  mklog (lcache s) (lstart s) (lsize s) (outstanding s) (committing s) (ldev s) n (lh_block s) (wakes s).
Definition set_blocks (l : list Z) (s : log S) : log S :=
  mklog (lcache s) (lstart s) (lsize s) (outstanding s) (committing s) (ldev s) (lh_n s) l (wakes s).
Definition set_outstanding (n : Z) (s : log S) : log S :=
  mklog (lcache s) (lstart s) (lsize s) n (committing s) (ldev s) (lh_n s) (lh_block s) (wakes s).
Definition set_committing (b : bool) (s : log S) : log S :=
  mklog (lcache s) (lstart s) (lsize s) (outstanding s) b (ldev s) (lh_n s) (lh_block s) (wakes s).
Definition wakeup_log (s : log S) : log S :=
  mklog (lcache s) (lstart s) (lsize s) (outstanding s) (committing s) (ldev s) (lh_n s) (lh_block s) (Datatypes.S (wakes s)).

(** [log.lh.block[i] = v]; a store outside the array is reported. *)
Definition set_lh_block (i : nat) (v : Z) : M (log S) unit :=
  if Z.of_nat i <? LOGSIZE then modify (fun s => set_blocks (<[i := v]> (lh_block s)) s)
  else panic "log.lh.block out of bounds".

Definition lbread (bn : Z) : M (log S) nat :=
  let! d := gets ldev in on_cache (c_bread d (u32 bn)).

(** One round of the loop of [install_trans]. *)
Definition install_one (tail : nat) (recovering : bool) : M (log S) unit :=
  let! st := gets lstart in
  let! lbuf := lbread (st + Z.of_nat tail + 1) in
  let! bn := gets (fun s => nth tail (lh_block s) 0) in
  let! dbuf := lbread bn in
  let! v := on_cache (c_get lbuf) in
  do! on_cache (c_set dbuf v) in
  do! on_cache (c_bwrite dbuf) in
  do! (if recovering then ret tt else on_cache (c_bunpin dbuf)) in
  do! on_cache (c_brelse lbuf) in
  on_cache (c_brelse dbuf).

(** [n] more rounds from [tail]. *)
Fixpoint install_loop (n tail : nat) (recovering : bool) : M (log S) unit :=
  match n with
  | O => ret tt
  | Datatypes.S n' => do! install_one tail recovering in install_loop n' (Datatypes.S tail) recovering
  end.

Definition install_trans (recovering : bool) : M (log S) unit :=
  let! n := gets lh_n in install_loop (Z.to_nat n) 0 recovering.

(** [struct logheader] in a block. *)
Definition hdr_n (b : block) : Z := i32 (load32 b 0).
Definition hdr_block (b : block) (i : nat) : Z := i32 (load32 b (4 + 4 * Z.of_nat i)).

Fixpoint read_head_loop (n i : nat) (b : block) : M (log S) unit :=
  match n with
  | O => ret tt
  | Datatypes.S n' => do! set_lh_block i (hdr_block b i) in read_head_loop n' (Datatypes.S i) b
  end.

Definition read_head : M (log S) unit :=
  let! st := gets lstart in
  let! buf := lbread st in
  let! b := on_cache (c_get buf) in
  do! modify (set_n (hdr_n b)) in
  do! read_head_loop (Z.to_nat (hdr_n b)) 0 b in
  on_cache (c_brelse buf).

(** The header block [write_head] makes out of the old one. *)
Fixpoint put_blocks (n i : nat) (bs : list Z) (b : block) : block :=
  match n with
  | O => b
  | Datatypes.S n' => put_blocks n' (Datatypes.S i) bs (store32 b (4 + 4 * Z.of_nat i) (nth i bs 0))
  end.

Definition put_head (n : Z) (bs : list Z) (b : block) : block :=
  put_blocks (Z.to_nat n) 0 bs (store32 b 0 n).

Definition write_head : M (log S) unit :=
  let! st := gets lstart in
  let! buf := lbread st in
  let! b := on_cache (c_get buf) in
  let! n := gets lh_n in
  let! bs := gets lh_block in
  do! on_cache (c_set buf (put_head n bs b)) in
  do! on_cache (c_bwrite buf) in
  on_cache (c_brelse buf).

Definition recover_from_log : M (log S) unit :=
  do! read_head in
  do! install_trans true in
  do! modify (set_n 0) in
  write_head.

(** [initlog], with the fields of the super block it uses. *)
Definition initlog (d sb_logstart sb_nlog : Z) : M (log S) unit :=
  if BSIZE <=? 4 + 4 * LOGSIZE then panic "initlog: too big logheader" else
  do! modify (fun s => mklog (lcache s) (i32 sb_logstart) (i32 sb_nlog) (outstanding s) (committing s) d
                         (lh_n s) (lh_block s) (wakes s)) in
  recover_from_log.

Definition begin_op : M (log S) bool :=
  let! c := gets committing in
  if (c : bool) then ret false else
  let! n := gets lh_n in
  let! o := gets outstanding in
  if LOGSIZE <? n + (o + 1) * MAXOPBLOCKS then ret false else
  do! modify (set_outstanding (o + 1)) in
  ret true.

(** One round of the loop of [write_log]. *)
Definition write_log_one (tail : nat) : M (log S) unit :=
  let! st := gets lstart in
  let! to := lbread (st + Z.of_nat tail + 1) in
  let! bn := gets (fun s => nth tail (lh_block s) 0) in
  let! from := lbread bn in
  let! v := on_cache (c_get from) in
  do! on_cache (c_set to v) in
  do! on_cache (c_bwrite to) in
  do! on_cache (c_brelse from) in
  on_cache (c_brelse to).

Fixpoint write_log_loop (n tail : nat) : M (log S) unit :=
  match n with
  | O => ret tt
  | Datatypes.S n' => do! write_log_one tail in write_log_loop n' (Datatypes.S tail)
  end.

Definition write_log : M (log S) unit :=
  let! n := gets lh_n in write_log_loop (Z.to_nat n) 0.

Definition commit : M (log S) unit :=
  let! n := gets lh_n in
  if 0 <? n then
    do! write_log in
    do! write_head in
    do! install_trans false in
    do! modify (set_n 0) in
    write_head
  else ret tt.

Definition end_op : M (log S) unit :=
  let! o := gets outstanding in
  do! modify (set_outstanding (o - 1)) in
  let! c := gets committing in
  if (c : bool) then panic "log.committing" else
  if o - 1 =? 0 then
    do! modify (set_committing true) in
    do! commit in
    do! modify (set_committing false) in
    modify wakeup_log
  else modify wakeup_log.

(** The search loop of [log_write]: the index of the block, or [n]. *)
Fixpoint absorb (bn : Z) (bs : list Z) (i : nat) : nat :=
  match bs with
  | [] => i
  | b :: bs' => if u32 b =? bn then i else absorb bn bs' (Datatypes.S i)
  end.

Definition log_write (b : nat) : M (log S) unit :=
  let! n := gets lh_n in
  let! sz := gets lsize in
  if (LOGSIZE <=? n) || (sz - 1 <=? n) then panic "too big a transaction" else
  let! o := gets outstanding in
  if o <? 1 then panic "log_write outside of trans" else
  let! bn := on_cache (c_blockno b) in
  let! i := gets (fun s => absorb bn (take (Z.to_nat n) (lh_block s)) 0) in
  do! set_lh_block i (i32 bn) in
  if Z.of_nat i =? n then
    do! on_cache (c_bpin b) in
    modify (set_n (n + 1))
  else ret tt.

End Code.

(** ** Block copies *)

(** The effect of a write of [v] to block [y] that leaves the pins [p]. *)
Record after_write (a : acache) (y : Z) (v : block) (p : gset Z) (a' : acache) : Prop := {
  aw_held : a_held a' = ∅;
  aw_pin : a_pinned a' = p;
  aw_view : forall b, a_view a' b = zset (a_view a) y v b;
  aw_disk : forall b, a_disk a' b = zset (a_disk a) y v b;
  aw_writes : a_writes a' = (y, v) :: a_writes a;
}.

(** Many writes, newest first. *)
Definition replay (d : Z -> block) (ws : list (Z * block)) : Z -> block :=
  foldr (fun w d => zset d w.1 w.2) d ws.

Record after_writes (a : acache) (ws : list (Z * block)) (p : gset Z) (a' : acache) : Prop := {
  aws_held : a_held a' = ∅;
  aws_pin : a_pinned a' = p;
  aws_view : forall b, a_view a' b = replay (a_view a) ws b;
  aws_disk : forall b, a_disk a' b = replay (a_disk a) ws b;
  aws_writes : a_writes a' = ws ++ a_writes a;
}.

(** The writes of [write_log] from log block [y] on, and those of [install_trans]. *)
Fixpoint log_ws (y : Z) (vs : list block) : list (Z * block) :=
  match vs with
  | [] => []
  | v :: vs => log_ws (y + 1) vs ++ [(y, v)]
  end.

Definition home_ws (bs : list Z) (vs : list block) : list (Z * block) := reverse (zip bs vs).

(** ** The header block *)

Lemma put_blocks_low n i bs b off : off + 4 <= 4 + 4 * Z.of_nat i -> load32 (put_blocks n i bs b) off = load32 b off.
Proof.
  revert i b. induction n as [|n IH]; intros i b Hoff; simpl; [done |]. rewrite IH by lia.
  apply load_store_ne. simpl. lia.
Qed.

Lemma put_blocks_at n i bs b j :
  (i <= j < i + n)%nat -> load32 (put_blocks n i bs b) (4 + 4 * Z.of_nat j) = u32 (nth j bs 0).
Proof.
  revert i b. induction n as [|n IH]; intros i b Hj; [lia |]. simpl.
  destruct (decide (i = j)) as [->|]; [| apply IH; lia].
  rewrite put_blocks_low by lia. exact (load_store_eq 4 b _ _).
Qed.

Lemma i32_u32 x : 0 <= x < 2 ^ 31 -> i32 (u32 x) = x.
Proof. intros Hx. rewrite u32_small, i32_small; lia. Qed.

Lemma hdr_n_put n bs b : 0 <= n < 2 ^ 31 -> hdr_n (put_head n bs b) = n.
Proof.
  intros Hn. unfold hdr_n, put_head. rewrite put_blocks_low by lia.
  change (load32 (store32 b 0 n) 0) with (load 4 (store 4 b 0 n) 0). rewrite load_store_eq. by apply i32_u32.
Qed.

Lemma hdr_block_put n bs b i :
  (i < Z.to_nat n)%nat -> 0 <= nth i bs 0 < 2 ^ 31 -> hdr_block (put_head n bs b) i = nth i bs 0.
Proof.
  intros Hi Hb. unfold hdr_block, put_head. rewrite put_blocks_at by lia. by apply i32_u32.
Qed.

Lemma replay_ext d e ws : (forall b, d b = e b) -> forall b, replay d ws b = replay e ws b.
Proof.
  intros H b. induction ws as [|[y v] ws IH]; simpl; [done |]. unfold zset. by destruct (b =? y).
Qed.

Lemma replay_app d ws1 ws2 b : replay d (ws1 ++ ws2) b = replay (replay d ws2) ws1 b.
Proof. unfold replay. by rewrite foldr_app. Qed.

Lemma replay_other d ws b : b ∉ ws.*1 -> replay d ws b = d b.
Proof.
  induction ws as [|[y v] ws IH]; simpl; [done |]. intros Hb. rewrite zset_ne by set_solver. apply IH. set_solver.
Qed.

Lemma log_ws_fst y vs b : b ∈ (log_ws y vs).*1 -> y <= b < y + Z.of_nat (length vs).
Proof.
  revert y. induction vs as [|v vs IH]; intros y; cbn [log_ws length]; [by intros ?%elem_of_nil |].
  rewrite fmap_app, elem_of_app. intros [Hb%IH | Hb]; [lia |]. apply list_elem_of_singleton in Hb as ->. simpl. lia.
Qed.

Lemma replay_log_ws d y vs i v : vs !! i = Some v -> replay d (log_ws y vs) (y + Z.of_nat i) = v.
Proof.
  revert d y i. induction vs as [|w vs IH]; intros d y i Hi; [done |]. simpl. rewrite replay_app.
  destruct i as [|i]; simpl in Hi.
  - injection Hi as ->. rewrite replay_other; [simpl; by rewrite Z.add_0_r, zset_eq |].
    intros Hb%log_ws_fst. lia.
  - replace (y + Z.of_nat (Datatypes.S i)) with (y + 1 + Z.of_nat i) by lia.
    by apply IH.
Qed.

Lemma after_write_cons a y v p a1 ws p' a2 :
  after_write a y v p a1 -> after_writes a1 ws p' a2 -> after_writes a (ws ++ [(y, v)]) p' a2.
Proof.
  intros [H1 H2 H3 H4 H5] [K1 K2 K3 K4 K5]. split; try done.
  - intros b. rewrite K3, replay_app. by apply replay_ext.
  - intros b. rewrite K4, replay_app. by apply replay_ext.
  - by rewrite K5, H5, <- app_assoc.
Qed.

(** ** What a disk means *)

(** The log entries of a disk: home block and contents. *)
Definition entries (st : Z) (d : Z -> block) : list (Z * block) :=
  (fun i => (hdr_block (d st) i, d (st + Z.of_nat i + 1))) <$> seq 0 (Z.to_nat (hdr_n (d st))).

(** The contents a disk stands for: its home blocks with the log entries installed. *)
Definition logical (st : Z) (d : Z -> block) : Z -> block := replay d (reverse (entries st d)).

(** Blocks of the log area: header and log blocks. *)
Definition in_log (st b : Z) : Prop := st <= b < st + LOGSIZE.

(** A header that names at most [LOGSIZE - 1] blocks, all outside the log. *)
Definition hdr_valid (st : Z) (d : Z -> block) : Prop :=
  0 <= hdr_n (d st) < LOGSIZE /\
  forall i, (i < Z.to_nat (hdr_n (d st)))%nat -> 0 <= hdr_block (d st) i /\ ~ in_log st (hdr_block (d st) i).

Lemma replay_base d e ws b : b ∈ ws.*1 -> replay d ws b = replay e ws b.
Proof.
  induction ws as [|[y v] ws IH]; simpl; [by intros ?%elem_of_nil |]. intros Hb. unfold zset.
  destruct (Z.eqb_spec b y); [done |]. apply IH. set_solver.
Qed.

Lemma replay_fun (V : Z -> block) d ws b :
  (forall k v, (k, v) ∈ ws -> v = V k) -> b ∈ ws.*1 -> replay d ws b = V b.
Proof.
  induction ws as [|[y v] ws IH]; simpl; [by intros _ ?%elem_of_nil |]. intros Hv Hb. unfold zset.
  destruct (Z.eqb_spec b y) as [->|]; [apply Hv; set_solver |]. apply IH; set_solver.
Qed.

(** Writes outside the log leave the entries alone. *)
Lemma entries_ext st d e :
  (forall b, in_log st b -> d b = e b) -> 0 <= hdr_n (d st) < LOGSIZE -> entries st d = entries st e.
Proof.
  intros Hb Hn. unfold entries. rewrite <- (Hb st) by (unfold in_log; lia). apply list_fmap_ext.
  intros i x Hx. apply lookup_seq in Hx as [-> Hx]. f_equal. apply Hb. unfold in_log. lia.
Qed.

Lemma entries_home st d k : hdr_valid st d -> k ∈ (entries st d).*1 -> 0 <= k /\ ~ in_log st k.
Proof.
  intros [Hn Hv] Hk. unfold entries in Hk. rewrite <- list_fmap_compose in Hk.
  apply list_elem_of_fmap in Hk as (i & -> & Hi%elem_of_seq). simpl. apply Hv. lia.
Qed.

Lemma logical_empty st d b : hdr_n (d st) = 0 -> logical st d b = d b.
Proof. intros Hn. unfold logical, entries. by rewrite Hn. Qed.

(** A crash in the middle of the installation changes nothing of what the disk means. *)
Lemma logical_partial st d later done :
  hdr_valid st d -> reverse (entries st d) = later ++ done ->
  hdr_valid st (replay d done) /\ forall b, ~ in_log st b -> logical st (replay d done) b = logical st d b.
Proof.
  intros Hv Hw.
  assert (forall k, k ∈ done.*1 -> ~ in_log st k) as Hk.
  { intros k Hk. apply (entries_home st d k Hv). rewrite <- (reverse_involutive (entries st d)), Hw.
    rewrite fmap_reverse, elem_of_reverse, fmap_app. set_solver. }
  assert (forall b, in_log st b -> replay d done b = d b) as Hsame.
  { intros b Hb. apply replay_other. intros Hin. by apply (Hk b). }
  assert (in_log st st) as Hst by (unfold in_log, LOGSIZE, MAXOPBLOCKS; lia).
  assert (entries st (replay d done) = entries st d) as He.
  { apply entries_ext; [done |]. rewrite Hsame by done. apply Hv. }
  split; [unfold hdr_valid; rewrite Hsame by done; apply Hv |].
  intros b Hb. unfold logical. rewrite He.
  destruct (decide (b ∈ (reverse (entries st d)).*1)) as [Hin|Hin]; [by apply replay_base |].
  rewrite !(replay_other _ (reverse _)) by done. apply replay_other. rewrite Hw, fmap_app in Hin. set_solver.
Qed.

(** *** The writes of a commit *)

(** In order: the log blocks, the header, the home blocks, the cleared header (newest
    first). *)
Definition commit_ws (st : Z) (bs : list Z) (V : Z -> block) (h1 h2 : block) : list (Z * block) :=
  (st, h2) :: home_ws bs (V <$> bs) ++ (st, h1) :: log_ws (st + 1) (V <$> bs).

(** The contents with the transaction applied. *)
Definition updated (bs : list Z) (V d : Z -> block) (b : Z) : block := if bool_decide (b ∈ bs) then V b else d b.

Lemma home_ws_fst bs (V : Z -> block) : (home_ws bs (V <$> bs)).*1 = reverse bs.
Proof. unfold home_ws. rewrite fmap_reverse, fst_zip; [done |]. by rewrite length_fmap. Qed.

Lemma home_ws_val bs (V : Z -> block) k v : (k, v) ∈ home_ws bs (V <$> bs) -> v = V k.
Proof.
  unfold home_ws. rewrite elem_of_reverse, zip_with_fmap_r. intros Hin.
  induction bs as [|b bs IH]; simpl in Hin; [by apply elem_of_nil in Hin |].
  apply elem_of_cons in Hin as [[= -> ->]|Hin]; [done | by apply IH].
Qed.

Lemma replay_home d bs V b : replay d (home_ws bs (V <$> bs)) b = updated bs V d b.
Proof.
  unfold updated. case_bool_decide as Hb.
  - apply replay_fun; [intros ? ?; apply home_ws_val |]. by rewrite home_ws_fst, elem_of_reverse.
  - apply replay_other. by rewrite home_ws_fst, elem_of_reverse.
Qed.

Lemma home_ws_suffix d bs (V : Z -> block) l k b :
  home_ws bs (V <$> bs) = l ++ k ->
  (b ∈ bs -> replay d k b = V b \/ replay d k b = d b) /\ (b ∉ bs -> replay d k b = d b).
Proof.
  intros E. assert (k.*1 ⊆ bs) as Hk.
  { intros x Hx. rewrite <- elem_of_reverse, <- (home_ws_fst bs V), E, fmap_app. set_solver. }
  split.
  - intros _. destruct (decide (b ∈ k.*1)); [left | right; by apply replay_other].
    apply replay_fun; [| done]. intros x v Hx. apply (home_ws_val bs V). rewrite E. set_solver.
  - intros Hb. apply replay_other. set_solver.
Qed.

Lemma empty_valid st d : hdr_n (d st) = 0 -> hdr_valid st d.
Proof. intros Hz. unfold hdr_valid. rewrite Hz. unfold LOGSIZE, MAXOPBLOCKS. split; [lia | simpl; lia]. Qed.

Lemma in_log_start st : in_log st st.
Proof. unfold in_log, LOGSIZE, MAXOPBLOCKS. lia. Qed.

Section Crash.
Context (st : Z) (d V : Z -> block) (bs : list Z) (h1 h2 : block).
Context (Hd : hdr_n (d st) = 0) (Hlen : Z.of_nat (length bs) < LOGSIZE)
  (Hhome : forall b, b ∈ bs -> 0 <= b < 2 ^ 31 /\ ~ in_log st b)
  (Hn1 : hdr_n h1 = Z.of_nat (length bs)) (Hb1 : forall i b, bs !! i = Some b -> hdr_block h1 i = b)
  (Hn2 : hdr_n h2 = 0).

Lemma log_ws_out vs b : Z.of_nat (length vs) < LOGSIZE -> b ∈ (log_ws (st + 1) vs).*1 -> in_log st b /\ b <> st.
Proof. intros Hl Hb%log_ws_fst. unfold in_log. lia. Qed.

Lemma length_V : Z.of_nat (length (V <$> bs)) < LOGSIZE.
Proof. by rewrite length_fmap. Qed.

(** Before the header is written the old contents stand. *)
Lemma crash_before l k : log_ws (st + 1) (V <$> bs) = l ++ k ->
  hdr_n (replay d k st) = 0 /\ forall b, ~ in_log st b -> logical st (replay d k) b = d b.
Proof.
  intros E. assert (forall b, ~ in_log st b \/ b = st -> replay d k b = d b) as Hk.
  { intros b Hb. apply replay_other. intros Hin.
    destruct (log_ws_out (V <$> bs) b length_V); [rewrite E, fmap_app; set_solver | tauto]. }
  rewrite Hk by tauto. split; [done |]. intros b Hb. rewrite logical_empty by (rewrite Hk; tauto). apply Hk. tauto.
Qed.

(** With the header on disk, the new contents stand however many home blocks are installed. *)
Lemma crash_after l k : home_ws bs (V <$> bs) = l ++ k ->
  let d' := replay d (k ++ (st, h1) :: log_ws (st + 1) (V <$> bs)) in
  hdr_valid st d' /\ forall b, ~ in_log st b -> logical st d' b = updated bs V d b.
Proof.
  intros E d'.
  assert (forall x, x ∈ k.*1 -> x ∈ bs) as Hk.
  { intros x Hx. rewrite <- elem_of_reverse, <- (home_ws_fst bs V), E, fmap_app. set_solver. }
  assert (forall b, b ∉ bs -> d' b = if b =? st then h1 else replay d (log_ws (st + 1) (V <$> bs)) b) as Hd'.
  { intros b Hb. unfold d'. rewrite replay_app, replay_other by (intros Hx; by apply Hb, Hk). reflexivity. }
  assert (st ∉ bs) as Hst by (intros Hs; apply (Hhome st Hs), in_log_start).
  assert (d' st = h1) as Eh by (rewrite Hd', Z.eqb_refl by done; done).
  assert (entries st d' = zip bs (V <$> bs)) as He.
  { unfold entries. rewrite Eh, Hn1, Nat2Z.id. apply list_eq_same_length with (length bs);
      [by rewrite length_zip_with, length_fmap, Nat.min_id | by rewrite length_fmap, length_seq |].
    intros i x y Hi Hx Hy. apply list_lookup_fmap_Some in Hx as (j & -> & Hj). apply lookup_seq in Hj as [-> Hj].
    destruct (lookup_lt_is_Some_2 bs i Hi) as [b Hb].
    apply lookup_zip_with_Some in Hy as (b' & v & -> & Hb' & Hv). assert (b' = b) as -> by congruence.
    rewrite list_lookup_fmap, Hb in Hv. injection Hv as <-. simpl. f_equal; [by apply Hb1 |].
    assert (in_log st (st + Z.of_nat i + 1)) as Hil by (unfold in_log; lia).
    rewrite Hd' by (intros Hin; by apply (Hhome _ Hin)). destruct (Z.eqb_spec (st + Z.of_nat i + 1) st); [lia |].
    replace (st + Z.of_nat i + 1) with (st + 1 + Z.of_nat i) by lia. apply replay_log_ws.
    by rewrite list_lookup_fmap, Hb. }
  split.
  - unfold hdr_valid. rewrite Eh, Hn1. split; [lia |]. intros i Hi.
    destruct (lookup_lt_is_Some_2 bs i ltac:(lia)) as [b Hb]. rewrite (Hb1 i b Hb).
    destruct (Hhome b); [by eapply list_elem_of_lookup_2 |]. split; [lia | done].
  - intros b Hb. unfold logical. rewrite He. change (reverse (zip bs (V <$> bs))) with (home_ws bs (V <$> bs)).
    rewrite replay_home. unfold updated. case_bool_decide as Hin; [done |]. rewrite Hd' by done.
    destruct (Z.eqb_spec b st) as [->|]; [by destruct (Hb (in_log_start st)) |].
    apply replay_other. intros Hl. by apply (log_ws_out _ _ length_V) in Hl as [? _].
Qed.

(** After the last write the header is clear and the new contents are at home. *)
Lemma crash_end : let d' := replay d (commit_ws st bs V h1 h2) in
  hdr_n (d' st) = 0 /\ forall b, ~ in_log st b -> d' b = updated bs V d b.
Proof.
  intros d'. unfold d', commit_ws. simpl. rewrite zset_eq. split; [done |]. intros b Hb.
  assert (b <> st) by (intros ->; by apply Hb, in_log_start).
  rewrite zset_ne, replay_app, replay_home by done. unfold updated. case_bool_decide; [done |]. simpl.
  rewrite zset_ne by done. apply replay_other. intros Hl. by apply (log_ws_out _ _ length_V) in Hl as [? _].
Qed.

Lemma crash_any later done : commit_ws st bs V h1 h2 = later ++ done ->
  hdr_valid st (replay d done) /\
  ((forall b, ~ in_log st b -> logical st (replay d done) b = d b) \/
   (forall b, ~ in_log st b -> logical st (replay d done) b = updated bs V d b)).
Proof.
  pose proof (empty_valid st) as Hv0.
  destruct later as [|w later]; intros E.
  { simpl in E. subst done. destruct crash_end as [Hz Hb]. split; [by apply Hv0 |]. right. intros b Hn.
    by rewrite logical_empty, Hb. }
  injection E as _ E. apply app_eq_inv in E as [(k & E1 & ->)|(k & -> & E2)].
  - destruct (crash_after later k E1) as [? ?]. split; [done | by right].
  - destruct k as [|w' k]; simpl in E2.
    + subst done. destruct (crash_after (home_ws bs (V <$> bs)) []) as [? ?]; [by rewrite app_nil_r |]. split; [done | by right].
    + injection E2 as _ E2. destruct (crash_before k done E2) as [? ?]. split; [by apply Hv0 | by left].
Qed.
End Crash.

Section Theory.
Context {S : Type} `{CacheOk S}.

Definition with_cache (c : S) (s : log S) : log S :=
  mklog c (lstart s) (lsize s) (outstanding s) (committing s) (ldev s) (lh_n s) (lh_block s) (wakes s).

Lemma on_cache_ok {A} (m : M S A) s x c0 c :
  m c0 = Ok (x, c) -> lcache s = c0 -> on_cache m s = Ok (x, with_cache c s).
Proof. intros E <-. unfold on_cache. by rewrite E. Qed.

Lemma bind_cache {A B} (m : M S A) (k : A -> M (log S) B) s x c0 c :
  m c0 = Ok (x, c) -> lcache s = c0 -> bind (on_cache m) k s = k x (with_cache c s).
Proof. intros E <-. apply bind_ok. by eapply on_cache_ok. Qed.

Lemma cache_done {A} (m : M S A) s x c0 c :
  m c0 = Ok (x, c) -> on_cache m (with_cache c0 s) = Ok (x, with_cache c s).
Proof. intros E. exact (on_cache_ok m (with_cache c0 s) x c0 c E eq_refl). Qed.

Lemma lbread_ok s a b :
  rep (lcache s) a -> ldev s = ROOTDEV -> 0 <= b < 2 ^ 32 -> a_held a !! b = None ->
  (base.size ({[b]} ∪ busy a) <= NBUF)%nat ->
  exists h c, lbread b s = Ok (h, with_cache c s) /\ rep c (a_hold b h a).
Proof.
  intros R Hd Hb Hh Hsz. destruct (bread_ok _ a b R Hh Hsz) as (h & c & E & R').
  exists h, c. split; [| done]. unfold lbread. rewrite bind_gets, Hd, u32_small by done. by eapply on_cache_ok.
Qed.

(** Two blocks of an idle cache, the first to be read and the second to be read. *)
Lemma read_two s a x y :
  rep (lcache s) a -> ldev s = ROOTDEV -> 0 <= x < 2 ^ 32 -> 0 <= y < 2 ^ 32 -> x <> y -> a_held a = ∅ ->
  (base.size ({[x; y]} ∪ a_pinned a) <= NBUF)%nat ->
  exists hx c, lbread x s = Ok (hx, with_cache c s) /\ rep c (a_hold x hx a) /\
  exists hy c', lbread y (with_cache c s) = Ok (hy, with_cache c' s) /\ rep c' (a_hold y hy (a_hold x hx a)).
Proof.
  intros R Hd Hx Hy Hne Hh Hsz.
  destruct (lbread_ok s a x R Hd Hx) as (hx & c & E1 & R1).
  { by rewrite Hh. }
  { etransitivity; [| exact Hsz]. apply subseteq_size. unfold busy. rewrite Hh. set_solver. }
  exists hx, c. split_and!; [done | done |].
  destruct (lbread_ok (with_cache c s) (a_hold x hx a) y R1 Hd Hy) as (hy & c' & E2 & R2).
  { simpl. by rewrite lookup_insert_ne, Hh by done. }
  { etransitivity; [| exact Hsz]. apply subseteq_size. unfold busy. simpl. rewrite Hh, dom_insert. set_solver. }
  by exists hy, c'.
Qed.

Lemma held_two (x y : Z) (hx hy : nat) (m : gmap Z nat) : x <> y -> m = ∅ ->
  (<[y := hy]> (<[x := hx]> m)) !! x = Some hx /\ (<[y := hy]> (<[x := hx]> m)) !! y = Some hy /\
  delete y (delete x (<[y := hy]> (<[x := hx]> m))) = ∅ /\ delete x (delete y (<[y := hy]> (<[x := hx]> m))) = ∅ /\
  (delete y (<[y := hy]> (<[x := hx]> m)) !! x = Some hx) /\ (delete x (<[y := hy]> (<[x := hx]> m)) !! y = Some hy).
Proof.
  intros Hne ->.
  assert (delete y (delete x (<[y := hy]> (<[x := hx]> (∅ : gmap Z nat)))) = ∅) as Hd.
  { apply map_eq. intros i. rewrite lookup_empty, !lookup_delete. repeat case_decide; try done.
    by rewrite !lookup_insert_ne, lookup_empty by done. }
  split_and!; try done; rewrite ?(delete_delete _ x y); try done; simplify_map_eq; done.
Qed.

Lemma write_log_one_ok s a tail bn :
  rep (lcache s) a -> ldev s = ROOTDEV -> a_held a = ∅ ->
  nth tail (lh_block s) 0 = bn -> 0 <= bn < 2 ^ 32 ->
  let y := lstart s + Z.of_nat tail + 1 in
  0 <= y < 2 ^ 32 -> y <> bn -> bn ∈ a_pinned a -> (base.size ({[y]} ∪ a_pinned a) <= NBUF)%nat ->
  exists c a', write_log_one tail s = Ok (tt, with_cache c s) /\ rep c a' /\
    after_write a y (a_view a bn) (a_pinned a) a'.
Proof.
  intros R Hd Hh Hbn Hr y Hy Hne Hp Hsz. unfold write_log_one. rewrite bind_gets. fold y.
  destruct (read_two s a y bn R Hd Hy Hr Hne Hh) as (hy & c1 & E1 & R1 & hx & c2 & E2 & R2).
  { by replace ({[y; bn]} ∪ a_pinned a) with ({[y]} ∪ a_pinned a) by set_solver. }
  destruct (held_two y bn hy hx (a_held a) Hne Hh) as (Hhy & Hhx & _ & Hd2 & Hdy & _).
  rewrite (bind_ok _ _ _ _ _ E1), bind_gets. change (lh_block (with_cache c1 s)) with (lh_block s). rewrite Hbn.
  rewrite (bind_ok _ _ _ _ _ E2). set (a2 := a_hold bn hx (a_hold y hy a)) in *.
  rewrite (bind_cache _ _ _ _ _ _ (get_ok c2 a2 bn hx R2 Hhx)) by reflexivity.
  destruct (set_ok c2 a2 y hy (a_view a2 bn) R2 Hhy) as (c3 & E3 & R3). rewrite (bind_cache _ _ _ _ _ _ E3) by reflexivity.
  destruct (bwrite_ok c3 _ y hy R3 Hhy) as (c4 & E4 & R4). rewrite (bind_cache _ _ _ _ _ _ E4) by reflexivity.
  destruct (brelse_ok c4 _ bn hx R4 Hhx (or_introl Hp)) as (c5 & E5 & R5). rewrite (bind_cache _ _ _ _ _ _ E5) by reflexivity.
  destruct (brelse_ok c5 _ y hy R5 Hdy) as (c6 & E6 & R6).
  { right. simpl. by rewrite !zset_eq. }
  exists c6. eexists. split; [exact (cache_done _ _ _ _ _ E6) |]. split; [exact R6 |].
  split; cbn; rewrite ?zset_eq; try done.
Qed.

Lemma install_one_ok s a tail y recovering :
  rep (lcache s) a -> ldev s = ROOTDEV -> a_held a = ∅ ->
  nth tail (lh_block s) 0 = y -> 0 <= y < 2 ^ 32 ->
  let x := lstart s + Z.of_nat tail + 1 in
  0 <= x < 2 ^ 32 -> x <> y -> x ∉ a_pinned a -> (recovering = false -> y ∈ a_pinned a) ->
  (base.size ({[x; y]} ∪ a_pinned a) <= NBUF)%nat ->
  exists c a', install_one tail recovering s = Ok (tt, with_cache c s) /\ rep c a' /\
    after_write a y (a_view a x) (if recovering then a_pinned a else a_pinned a ∖ {[y]}) a'.
Proof.
  intros R Hd Hh Hbn Hr x Hx Hne Hp Hpy Hsz. unfold install_one. rewrite bind_gets. fold x.
  assert (a_view a x = a_disk a x) as Hclean by (apply (clean_ok (lcache s) a); [done | done | by rewrite Hh]).
  destruct (read_two s a x y R Hd Hx Hr Hne Hh Hsz) as (hx & c1 & E1 & R1 & hy & c2 & E2 & R2).
  destruct (held_two x y hx hy (a_held a) Hne Hh) as (Hhx & Hhy & Hd2 & _ & _ & Hdx).
  rewrite (bind_ok _ _ _ _ _ E1), bind_gets. change (lh_block (with_cache c1 s)) with (lh_block s). rewrite Hbn.
  rewrite (bind_ok _ _ _ _ _ E2). set (a2 := a_hold y hy (a_hold x hx a)) in *.
  rewrite (bind_cache _ _ _ _ _ _ (get_ok c2 a2 x hx R2 Hhx)) by reflexivity.
  destruct (set_ok c2 a2 y hy (a_view a2 x) R2 Hhy) as (c3 & E3 & R3). rewrite (bind_cache _ _ _ _ _ _ E3) by reflexivity.
  destruct (bwrite_ok c3 _ y hy R3 Hhy) as (c4 & E4 & R4). rewrite (bind_cache _ _ _ _ _ _ E4) by reflexivity.
  set (a4 := a_flush _ _) in *.
  assert (exists c5 a5, (if recovering then ret tt else on_cache (c_bunpin hy)) (with_cache c4 s) = Ok (tt, with_cache c5 s) /\
    rep c5 a5 /\ a5 = mkacache (a_disk a4) (a_view a4) (if recovering then a_pinned a else a_pinned a ∖ {[y]}) (a_held a4) (a_writes a4))
    as (c5 & a5 & E5 & R5 & Ea5).
  { destruct recovering; [exists c4, a4; done |].
    destruct (bunpin_ok c4 a4 y hy R4 Hhy (Hpy eq_refl)) as (c5 & E5 & R5).
    exists c5, (a_unpin y a4). split; [exact (cache_done _ _ _ _ _ E5) | done]. }
  change (with_cache c4 (with_cache c3 (with_cache c2 s))) with (with_cache c4 s).
  rewrite (bind_ok _ _ _ _ _ E5).
  destruct (brelse_ok c5 a5 x hx R5) as (c6 & E6 & R6); [by rewrite Ea5 | |].
  { right. rewrite Ea5. cbn. by rewrite !zset_ne. }
  rewrite (bind_cache _ _ _ _ _ _ E6) by reflexivity.
  destruct (brelse_ok c6 _ y hy R6) as (c7 & E7 & R7); [by rewrite Ea5 | |].
  { right. rewrite Ea5. cbn. by rewrite !zset_eq. }
  exists c7. eexists. split; [exact (cache_done _ _ _ _ _ E7) |]. split; [exact R7 |].
  split; rewrite Ea5; cbn; rewrite ?zset_eq; try done.
Qed.

(** ** The loops *)

Lemma size_add (X : gset Z) b n : (base.size X < n)%nat -> (base.size ({[b]} ∪ X) <= n)%nat.
Proof. intros Hn. pose proof (size_union_alt {[b]} X). rewrite size_singleton in *.
  assert (base.size (X ∖ {[b]}) <= base.size X)%nat by (apply subseteq_size; set_solver). lia. Qed.

Lemma write_log_loop_ok s a tail bs :
  rep (lcache s) a -> ldev s = ROOTDEV -> a_held a = ∅ ->
  0 <= lstart s -> lstart s + LOGSIZE < 2 ^ 31 -> Z.of_nat (tail + length bs) < LOGSIZE ->
  (forall i b, bs !! i = Some b -> nth (tail + i) (lh_block s) 0 = b) ->
  (forall b, b ∈ bs -> 0 <= b < 2 ^ 32 /\ ~ in_log (lstart s) b /\ b ∈ a_pinned a) ->
  (base.size (a_pinned a) < NBUF)%nat ->
  exists c a', write_log_loop (length bs) tail s = Ok (tt, with_cache c s) /\ rep c a' /\
    after_writes a (log_ws (lstart s + Z.of_nat tail + 1) (a_view a <$> bs)) (a_pinned a) a'.
Proof.
  intros R Hd Hh Hs0 Hs1 Hlen Hbs Hin Hsz. revert s a tail R Hd Hh Hs0 Hs1 Hlen Hbs Hin Hsz.
  induction bs as [|b bs IH]; intros s a tail R Hd Hh Hs0 Hs1 Hlen Hbs Hin Hsz; cbn [length write_log_loop].
  - exists (lcache s), a. split; [destruct s; reflexivity |]. done.
  - simpl in Hlen. destruct (Hin b ltac:(set_solver)) as (Hb & Hnl & Hp).
    unfold in_log in Hnl. pose proof (Hbs 0%nat b eq_refl) as Hb0. rewrite Nat.add_0_r in Hb0.
    destruct (write_log_one_ok s a tail b R Hd Hh Hb0 Hb ltac:(lia) ltac:(lia) Hp (size_add _ _ _ Hsz))
      as (c & a1 & E1 & R1 & A1).
    rewrite (bind_ok _ _ _ _ _ E1).
    destruct (IH (with_cache c s) a1 (Datatypes.S tail)) as (c2 & a2 & E2 & R2 & A2); try done.
    + apply A1.
    + cbn [with_cache lstart]. lia.
    + intros i b' Hi. replace (Datatypes.S tail + i)%nat with (tail + Datatypes.S i)%nat by lia. by apply Hbs.
    + intros b' Hb'. rewrite (aw_pin _ _ _ _ _ A1). apply Hin. set_solver.
    + by rewrite (aw_pin _ _ _ _ _ A1).
    + exists c2, a2. split; [done |]. split; [done |]. rewrite (aw_pin _ _ _ _ _ A1) in A2.
      cbn [with_cache lstart] in A2. cbn [fmap list_fmap log_ws].
      replace (lstart s + Z.of_nat (Datatypes.S tail) + 1) with (lstart s + Z.of_nat tail + 1 + 1) in A2 by lia.
      assert (a_view a1 <$> bs = a_view a <$> bs) as E3.
      { apply list_fmap_ext. intros i b' Hi. rewrite (aw_view _ _ _ _ _ A1). apply zset_ne.
        destruct (Hin b') as (_ & Hnl' & _); [apply list_elem_of_lookup; exists (Datatypes.S i); done |].
        unfold in_log in Hnl'. lia. }
      rewrite E3 in A2. by eapply after_write_cons.
Qed.

Lemma install_loop_ok s a tail bs recovering :
  rep (lcache s) a -> ldev s = ROOTDEV -> a_held a = ∅ ->
  0 <= lstart s -> lstart s + LOGSIZE < 2 ^ 31 -> Z.of_nat (tail + length bs) < LOGSIZE ->
  (forall i b, bs !! i = Some b -> nth (tail + i) (lh_block s) 0 = b) ->
  (forall b, b ∈ bs -> 0 <= b < 2 ^ 32 /\ ~ in_log (lstart s) b) ->
  (forall b, b ∈ a_pinned a -> ~ in_log (lstart s) b) ->
  (recovering = false -> NoDup bs /\ (forall b, b ∈ bs -> b ∈ a_pinned a) /\ (base.size (a_pinned a) < NBUF)%nat) ->
  (recovering = true -> a_pinned a = ∅) ->
  exists c a', install_loop (length bs) tail recovering s = Ok (tt, with_cache c s) /\ rep c a' /\
    after_writes a (home_ws bs ((fun i => a_view a (lstart s + Z.of_nat i + 1)) <$> seq tail (length bs)))
      (if recovering then a_pinned a else a_pinned a ∖ list_to_set bs) a'.
Proof.
  intros R Hd Hh Hs0 Hs1 Hlen Hbs Hin Hpl Hf Hr. revert s a tail R Hd Hh Hs0 Hs1 Hlen Hbs Hin Hpl Hf Hr.
  induction bs as [|b bs IH]; intros s a tail R Hd Hh Hs0 Hs1 Hlen Hbs Hin Hpl Hf Hr; cbn [length install_loop].
  - exists (lcache s), a. split; [destruct s; reflexivity |]. split; [done |]. split; try done.
    destruct recovering; [done |]. set_solver.
  - simpl in Hlen. destruct (Hin b ltac:(set_solver)) as (Hb & Hnl).
    unfold in_log in Hnl. pose proof (Hbs 0%nat b eq_refl) as Hb0. rewrite Nat.add_0_r in Hb0.
    set (x := lstart s + Z.of_nat tail + 1).
    assert (in_log (lstart s) x) as Hx by (unfold in_log, x; lia).
    destruct (install_one_ok s a tail b recovering R Hd Hh Hb0 Hb) as (c & a1 & E1 & R1 & A1); fold x.
    { unfold in_log in Hx. lia. }
    { unfold in_log in Hx. lia. }
    { intros Hp. by apply (Hpl x). }
    { intros Er. destruct (Hf Er) as (_ & Hp & _). apply Hp. set_solver. }
    { destruct recovering.
      - rewrite Hr by done. replace ({[x; b]} ∪ ∅) with ({[x]} ∪ {[b]} : gset Z) by set_solver.
        apply size_add. rewrite size_singleton. unfold NBUF. lia.
      - destruct (Hf eq_refl) as (_ & Hp & Hsz).
        replace ({[x; b]} ∪ a_pinned a) with ({[x]} ∪ a_pinned a) by (specialize (Hp b); set_solver). by apply size_add. }
    rewrite (bind_ok _ _ _ _ _ E1).
    set (p1 := if recovering then a_pinned a else a_pinned a ∖ {[b]}) in *.
    assert (p1 ⊆ a_pinned a) as Hsub by (unfold p1; destruct recovering; set_solver).
    pose proof (aw_pin _ _ _ _ _ A1) as Ep.
    destruct (IH (with_cache c s) a1 (Datatypes.S tail)) as (c2 & a2 & E2 & R2 & A2); try done.
    + apply A1.
    + cbn [with_cache lstart]. lia.
    + intros i b' Hi. replace (Datatypes.S tail + i)%nat with (tail + Datatypes.S i)%nat by lia. by apply Hbs.
    + intros b' Hb'. apply Hin. set_solver.
    + intros b' Hb'. rewrite Ep in Hb'. apply Hpl. set_solver.
    + intros Er. rewrite Ep. destruct (Hf Er) as ([Hnb Hnd]%NoDup_cons & Hp & Hsz). split_and!; [done | |].
      * intros b' Hb'. unfold p1. rewrite Er. specialize (Hp b'). set_solver.
      * apply subseteq_size in Hsub. lia.
    + intros Er. rewrite Ep. unfold p1. rewrite Er. by apply Hr.
    + exists c2, a2. split; [done |]. split; [done |].
      cbn [with_cache lstart] in A2. cbn [seq fmap list_fmap]. unfold home_ws in *. cbn [zip zip_with]. rewrite reverse_cons.
      replace (if recovering then a_pinned a else a_pinned a ∖ list_to_set (b :: bs)) with
        (if recovering then a_pinned a1 else a_pinned a1 ∖ list_to_set bs)
        by (rewrite Ep; unfold p1; destruct recovering; set_solver).
      eapply after_write_cons; [exact A1 |].
      rewrite (list_fmap_ext _ (fun i => a_view a1 (lstart s + Z.of_nat i + 1))); [exact A2 |].
      intros i j Hj. apply lookup_seq in Hj as [-> Hj]. rewrite (aw_view _ _ _ _ _ A1). symmetry. apply zset_ne. lia.
Qed.

(** ** Reading and writing the header *)

Lemma write_head_ok (s : log S) a :
  rep (lcache s) a -> ldev s = ROOTDEV -> a_held a = ∅ -> 0 <= lstart s < 2 ^ 31 ->
  (base.size (a_pinned a) < NBUF)%nat ->
  exists c a', write_head s = Ok (tt, with_cache c s) /\ rep c a' /\
    after_write a (lstart s) (put_head (lh_n s) (lh_block s) (a_view a (lstart s))) (a_pinned a) a'.
Proof.
  intros R Hd Hh Hs Hsz. unfold write_head. rewrite bind_gets.
  destruct (lbread_ok s a (lstart s) R Hd ltac:(lia)) as (h & c1 & E1 & R1).
  { by rewrite Hh. }
  { unfold busy. rewrite Hh. replace (a_pinned a ∪ dom ∅) with (a_pinned a) by set_solver. by apply size_add. }
  rewrite (bind_ok _ _ _ _ _ E1). set (a1 := a_hold _ _ _) in *.
  assert (a_held a1 !! lstart s = Some h) as Hh1 by apply lookup_insert_eq.
  rewrite (bind_cache _ _ _ _ _ _ (get_ok c1 a1 (lstart s) h R1 Hh1)) by reflexivity. rewrite !bind_gets.
  cbn [with_cache lh_n lh_block].
  destruct (set_ok c1 a1 (lstart s) h (put_head (lh_n s) (lh_block s) (a_view a1 (lstart s))) R1 Hh1) as (c2 & E2 & R2).
  rewrite (bind_cache _ _ _ _ _ _ E2) by reflexivity.
  destruct (bwrite_ok c2 _ (lstart s) h R2 Hh1) as (c3 & E3 & R3). rewrite (bind_cache _ _ _ _ _ _ E3) by reflexivity.
  destruct (brelse_ok c3 _ (lstart s) h R3 Hh1) as (c4 & E4 & R4).
  { right. cbn. by rewrite !zset_eq. }
  exists c4. eexists. split; [exact (cache_done _ _ _ _ _ E4) |]. split; [exact R4 |].
  split; cbn; rewrite ?zset_eq; try done. rewrite Hh. by rewrite delete_insert_id.
Qed.

Lemma read_head_loop_ok (s : log S) n i b :
  Z.of_nat (i + n) <= LOGSIZE ->
  exists l, read_head_loop n i b s = Ok (tt, set_blocks l s) /\ length l = length (lh_block s) /\
    (length (lh_block s) = Z.to_nat LOGSIZE -> forall j, (i <= j < i + n)%nat -> l !! j = Some (hdr_block b j)) /\
    (forall j, (j < i)%nat -> l !! j = lh_block s !! j).
Proof.
  revert s i. induction n as [|n IH]; intros s i Hn; cbn [read_head_loop].
  - exists (lh_block s). split_and!; try done; [by destruct s | lia].
  - unfold set_lh_block. destruct (Z.ltb_spec (Z.of_nat i) LOGSIZE); [| lia]. rewrite bind_modify.
    destruct (IH (set_blocks (<[i := hdr_block b i]> (lh_block s)) s) (Datatypes.S i) ltac:(lia))
      as (l & E & Hl & Hj & Hlow).
    exists l. cbn [set_blocks lh_block] in *. rewrite length_insert in Hl, Hj. split_and!; [by rewrite E | done | |].
    + intros Hlen j Hij. destruct (decide (j = i)) as [->|]; [| apply Hj; [done | lia]].
      rewrite Hlow by lia. apply list_lookup_insert_eq. lia.
    + intros j Hji. rewrite Hlow by lia. apply list_lookup_insert_ne. lia.
Qed.

(** [read_head] leaves the cache as it was, and the header of the disk in memory. *)
Lemma read_head_ok (s : log S) a :
  rep (lcache s) a -> ldev s = ROOTDEV -> a_held a = ∅ -> a_pinned a = ∅ -> 0 <= lstart s < 2 ^ 31 ->
  length (lh_block s) = Z.to_nat LOGSIZE ->
  let n := hdr_n (a_disk a (lstart s)) in 0 <= n <= LOGSIZE ->
  exists c a' l, read_head s = Ok (tt, set_blocks l (set_n n (with_cache c s))) /\ rep c a' /\
    a_held a' = ∅ /\ a_pinned a' = ∅ /\ a_view a' = a_view a /\ a_disk a' = a_disk a /\ a_writes a' = a_writes a /\
    length l = Z.to_nat LOGSIZE /\
    forall j, (j < Z.to_nat n)%nat -> l !! j = Some (hdr_block (a_disk a (lstart s)) j).
Proof.
  intros R Hd Hh Hp Hs Hlen n Hn. unfold read_head. rewrite bind_gets.
  assert (a_view a (lstart s) = a_disk a (lstart s)) as Hcl
    by (apply (clean_ok (lcache s)); [done | by rewrite Hp; set_solver | by rewrite Hh]).
  destruct (lbread_ok s a (lstart s) R Hd ltac:(lia)) as (h & c1 & E1 & R1).
  { by rewrite Hh. }
  { unfold busy. rewrite Hh, Hp. replace (∅ ∪ dom ∅) with (∅ : gset Z) by set_solver. apply size_add.
    rewrite size_empty. unfold NBUF. lia. }
  rewrite (bind_ok _ _ _ _ _ E1). set (a1 := a_hold _ _ _) in *.
  assert (a_held a1 !! lstart s = Some h) as Hh1 by apply lookup_insert_eq.
  rewrite (bind_cache _ _ _ _ _ _ (get_ok c1 a1 (lstart s) h R1 Hh1)) by reflexivity. rewrite bind_modify.
  change (a_view a1 (lstart s)) with (a_view a (lstart s)). rewrite Hcl. fold n.
  destruct (read_head_loop_ok (set_n n (with_cache c1 s)) (Z.to_nat n) 0 (a_disk a (lstart s)) ltac:(lia))
    as (l & E2 & Hl & Hj & _).
  change (with_cache c1 (with_cache c1 s)) with (with_cache c1 s). rewrite (bind_ok _ _ _ _ _ E2).
  destruct (brelse_ok c1 a1 (lstart s) h R1 Hh1 (or_intror Hcl)) as (c2 & E3 & R3).
  exists c2, (a_unhold (lstart s) a1), l. split; [by erewrite on_cache_ok by done |].
  split; [done |]. cbn. cbn in Hl, Hj. split_and!; try done.
  - rewrite Hh. by rewrite delete_insert_id.
  - by rewrite Hl.
  - intros j Hjn. apply Hj; [done | lia].
Qed.

(** ** Commit and recovery *)

Lemma after_writes_app a ws1 p1 a1 ws2 p2 a2 :
  after_writes a ws1 p1 a1 -> after_writes a1 ws2 p2 a2 -> after_writes a (ws2 ++ ws1) p2 a2.
Proof.
  intros [H1 H2 H3 H4 H5] [K1 K2 K3 K4 K5]. split; try done.
  - intros b. rewrite K3, replay_app. by apply replay_ext.
  - intros b. rewrite K4, replay_app. by apply replay_ext.
  - by rewrite K5, H5, <- app_assoc.
Qed.

Lemma after_write_one a y v p a' : after_write a y v p a' -> after_writes a [(y, v)] p a'.
Proof. intros [? ? ? ? ?]. by split. Qed.

(** A transaction with the blocks [bs]: their new contents are in the cache, pinned; the log
    on disk is empty. *)
Record txn (s : log S) (a : acache) (bs : list Z) : Prop := {
  tx_rep : rep (lcache s) a;
  tx_dev : ldev s = ROOTDEV;
  tx_start : 0 <= lstart s /\ lstart s + LOGSIZE < 2 ^ 31;
  tx_n : lh_n s = Z.of_nat (length bs);
  tx_len : length (lh_block s) = Z.to_nat LOGSIZE;
  tx_bs : forall i b, bs !! i = Some b -> nth i (lh_block s) 0 = b;
  tx_nodup : NoDup bs;
  tx_small : Z.of_nat (length bs) < LOGSIZE;
  tx_home : forall b, b ∈ bs -> 0 <= b < 2 ^ 31 /\ ~ in_log (lstart s) b;
  tx_pin : a_pinned a = list_to_set bs;
  tx_disk : hdr_n (a_disk a (lstart s)) = 0;
}.

Definition head1 (s : log S) (a : acache) : block := put_head (lh_n s) (lh_block s) (a_view a (lstart s)).
Definition head2 (s : log S) (a : acache) : block := put_head 0 (lh_block s) (head1 s a).
Definition txn_ws (s : log S) (a : acache) (bs : list Z) : list (Z * block) :=
  commit_ws (lstart s) bs (a_view a) (head1 s a) (head2 s a).

Lemma txn_size s a bs : txn s a bs -> (base.size (a_pinned a) < NBUF)%nat.
Proof.
  intros T. rewrite (tx_pin _ _ _ T), size_list_to_set by apply T.
  pose proof (tx_small _ _ _ T). unfold LOGSIZE, MAXOPBLOCKS, NBUF in *. lia.
Qed.

Lemma commit_ok s a bs :
  txn s a bs -> a_held a = ∅ -> bs <> [] ->
  exists c a', commit s = Ok (tt, set_n 0 (with_cache c s)) /\ rep c a' /\ after_writes a (txn_ws s a bs) ∅ a'.
Proof.
  intros T Hheld Hne. pose proof (txn_size s a bs T) as Hsz. destruct (tx_start _ _ _ T) as [Hs0 Hs1].
  pose proof (tx_small _ _ _ T) as Hsm. assert (0 < length bs)%nat as Hpos by (destruct bs; simpl; [done | lia]).
  assert (forall b, b ∈ bs -> 0 <= b < 2 ^ 32 /\ ~ in_log (lstart s) b) as Hh32
    by (intros b Hb; destruct (tx_home _ _ _ T b Hb); split; [lia | done]).
  unfold commit. rewrite bind_gets, (tx_n _ _ _ T). destruct (Z.ltb_spec 0 (Z.of_nat (length bs))); [| lia].
  (* write_log *)
  destruct (write_log_loop_ok s a 0 bs) as (c1 & a1 & E1 & R1 & A1); try apply T; try done.
  { intros b Hb. destruct (Hh32 b Hb). split_and!; try done || lia. rewrite (tx_pin _ _ _ T). by apply elem_of_list_to_set. }
  rewrite (bind_ok _ _ _ tt (with_cache c1 s)).
  2:{ unfold write_log. rewrite bind_gets, (tx_n _ _ _ T), Nat2Z.id. exact E1. }
  replace (lstart s + Z.of_nat 0 + 1) with (lstart s + 1) in A1 by lia.
  pose proof (aws_pin _ _ _ _ A1) as Ep1.
  assert (a_view a1 (lstart s) = a_view a (lstart s)) as Ev1.
  { rewrite (aws_view _ _ _ _ A1). apply replay_other. intros Hl%log_ws_fst. lia. }
  (* write_head *)
  destruct (write_head_ok (with_cache c1 s) a1 R1) as (c2 & a2 & E2 & R2 & A2); cbn [with_cache lstart ldev];
    [apply T | apply A1 | lia | by rewrite Ep1 |].
  cbn [with_cache lstart lh_n lh_block] in A2. rewrite Ev1 in A2. change (put_head _ _ _) with (head1 s a) in A2.
  rewrite (bind_ok _ _ _ _ _ E2). pose proof (aw_pin _ _ _ _ _ A2) as Ep2.
  (* install_trans *)
  destruct (install_loop_ok (with_cache c2 s) a2 0 bs false R2) as (c3 & a3 & E3 & R3 & A3); cbn [with_cache lstart ldev]; try done.
  { apply T. }
  { apply A2. }
  { apply T. }
  { intros b. rewrite Ep2, Ep1, (tx_pin _ _ _ T), elem_of_list_to_set. apply Hh32. }
  { intros _. rewrite Ep2, Ep1. split_and!; [apply T | | done]. intros b Hb. rewrite (tx_pin _ _ _ T). by apply elem_of_list_to_set. }
  rewrite (bind_ok _ _ _ tt (with_cache c3 s)).
  2:{ unfold install_trans. rewrite bind_gets. cbn [with_cache lh_n]. rewrite (tx_n _ _ _ T), Nat2Z.id. exact E3. }
  cbn [with_cache lstart] in A3. rewrite bind_modify.
  assert ((fun i => a_view a2 (lstart s + Z.of_nat i + 1)) <$> seq 0 (length bs) = a_view a <$> bs) as Ev.
  { apply list_eq_same_length with (length bs); [by rewrite length_fmap | by rewrite length_fmap, length_seq |].
    intros i x y Hi Hx Hy. apply list_lookup_fmap_Some in Hx as (j & -> & Hj). apply lookup_seq in Hj as [-> Hj].
    rewrite (aw_view _ _ _ _ _ A2), zset_ne by lia. rewrite (aws_view _ _ _ _ A1).
    replace (lstart s + Z.of_nat (0 + i) + 1) with (lstart s + 1 + Z.of_nat i) by lia. by apply replay_log_ws. }
  rewrite Ev in A3. pose proof (aws_pin _ _ _ _ A3) as Ep3. rewrite Ep2, Ep1, (tx_pin _ _ _ T), difference_diag_L in Ep3.
  (* clear the header *)
  destruct (write_head_ok (set_n 0 (with_cache c3 s)) a3 R3) as (c4 & a4 & E4 & R4 & A4); cbn [set_n with_cache lstart ldev];
    [apply T | apply A3 | lia | rewrite Ep3, size_empty; unfold NBUF; lia |].
  exists c4, a4. split; [exact E4 |]. split; [done |]. unfold txn_ws, commit_ws.
  assert (a_view a3 (lstart s) = head1 s a) as Eh.
  { rewrite (aws_view _ _ _ _ A3), replay_other.
    - by rewrite (aw_view _ _ _ _ _ A2), zset_eq.
    - rewrite home_ws_fst, elem_of_reverse. intros Hin. by apply (tx_home _ _ _ T _ Hin), in_log_start. }
  cbn [set_n with_cache lstart lh_n lh_block] in A4. rewrite Eh, Ep3 in A4.
  pose proof (after_writes_app _ _ _ _ _ _ _ (after_writes_app _ _ _ _ _ _ _ (after_writes_app _ _ _ _ _ _ _ A1 (after_write_one _ _ _ _ _ A2)) A3)
    (after_write_one _ _ _ _ _ A4)) as A. simpl in A. exact A.
Qed.

Lemma zip_fmap_same {A B C} (f : A -> B) (g : A -> C) l : zip (f <$> l) (g <$> l) = (fun i => (f i, g i)) <$> l.
Proof. induction l as [|x l IH]; [done |]. rewrite !fmap_cons. cbn [zip zip_with]. by f_equal. Qed.

(** Recovery after a restart with disk [d]: the entries are installed, then the header is
    cleared. *)
Lemma recover_ok s d :
  rep (lcache s) (a_boot d) -> ldev s = ROOTDEV -> 0 <= lstart s -> lstart s + LOGSIZE < 2 ^ 31 ->
  length (lh_block s) = Z.to_nat LOGSIZE -> hdr_valid (lstart s) d ->
  exists s' a' h, recover_from_log s = Ok (tt, s') /\ rep (lcache s') a' /\ hdr_n h = 0 /\
    after_writes (a_boot d) ((lstart s, h) :: reverse (entries (lstart s) d)) ∅ a' /\
    length (lh_block s') = Z.to_nat LOGSIZE /\
    lh_n s' = 0 /\ lstart s' = lstart s /\ lsize s' = lsize s /\ ldev s' = ldev s /\
    outstanding s' = outstanding s /\ committing s' = committing s.
Proof.
  intros R Hd Hs0 Hs1 Hlen [Hn Hv]. unfold recover_from_log. set (n := hdr_n (d (lstart s))) in *.
  destruct (read_head_ok s (a_boot d) R Hd) as (c1 & a1 & l & E1 & R1 & Hh1 & Hp1 & Hv1 & Hd1 & Hw1 & Hl & Hj);
    [done | done | lia | done | cbn [a_boot a_disk]; fold n; lia |].
  cbn [a_boot a_disk] in E1, Hj. fold n in E1, Hj. rewrite (bind_ok _ _ _ _ _ E1).
  set (s1 := set_blocks l (set_n n (with_cache c1 s))) in *.
  set (bs := hdr_block (d (lstart s)) <$> seq 0 (Z.to_nat n)).
  assert (length bs = Z.to_nat n) as Hlb by (unfold bs; by rewrite length_fmap, length_seq).
  destruct (install_loop_ok s1 a1 0 bs true R1) as (c2 & a2 & E2 & R2 & A2); try done; try (unfold s1; cbn; lia).
  { intros i b Hi. unfold bs in Hi. apply list_lookup_fmap_Some in Hi as (j & -> & Hij). apply lookup_seq in Hij as [-> Hij].
    unfold s1. cbn [set_blocks lh_block]. rewrite nth_lookup, Hj by lia. done. }
  { intros b Hb. unfold bs in Hb. apply list_elem_of_fmap in Hb as (i & -> & Hi%elem_of_seq).
    destruct (Hv i ltac:(lia)). split; [| done]. unfold hdr_block in *.
    pose proof (i32_range (load32 (d (lstart s)) (4 + 4 * Z.of_nat i))). lia. }
  { rewrite Hp1. intros b ?%elem_of_empty. done. }
  rewrite (bind_ok _ _ _ tt (with_cache c2 s1)).
  2:{ unfold install_trans. rewrite bind_gets. change (lh_n s1) with n. rewrite <- Hlb. exact E2. }
  rewrite bind_modify.
  destruct (write_head_ok (set_n 0 (with_cache c2 s1)) a2 R2) as (c3 & a3 & E3 & R3 & A3); cbn;
    [done | apply A2 | lia | rewrite (aws_pin _ _ _ _ A2), Hp1, size_empty; unfold NBUF; lia |].
  exists (with_cache c3 (set_n 0 (with_cache c2 s1))), a3. eexists. split; [exact E3 |]. split; [exact R3 |].
  rewrite (aws_pin _ _ _ _ A2), Hp1 in A3.
  split; [| split; [| split_and!; try reflexivity; exact Hl]].
  2:{ pose proof (after_writes_app _ _ _ _ _ _ _ A2 (after_write_one _ _ _ _ _ A3)) as A.
      assert (home_ws bs ((fun i => a_view a1 (lstart s1 + Z.of_nat i + 1)) <$> seq 0 (length bs)) =
              reverse (entries (lstart s) d)) as Ee.
      { unfold home_ws, entries. f_equal. rewrite Hlb, Hv1. change (lstart s1) with (lstart s). unfold bs.
        apply zip_fmap_same. }
      rewrite Ee in A. cbn [app] in A. destruct A as [B1 B2 B3 B4 B5]. split; try done.
      - intros b. rewrite B3. apply (replay_ext _ _ (_ :: _)). intros. by rewrite Hv1.
      - intros b. rewrite B4. apply (replay_ext _ _ (_ :: _)). intros. by rewrite Hd1.
      - rewrite B5, Hw1. done. }
  apply hdr_n_put. lia.
Qed.

(** ** Recording a block *)

Lemma absorb_spec bn bs i :
  (forall b, b ∈ bs -> 0 <= b < 2 ^ 32) ->
  absorb bn bs i = (i + length bs)%nat /\ bn ∉ bs \/
  exists j, absorb bn bs i = (i + j)%nat /\ bs !! j = Some bn /\ bn ∈ bs.
Proof.
  revert i. induction bs as [|b bs IH]; intros i Hr; simpl.
  - left. split; [lia | apply not_elem_of_nil].
  - rewrite u32_small by (apply Hr; set_solver). destruct (Z.eqb_spec b bn) as [->|].
    + right. exists 0%nat. split_and!; [lia | done | set_solver].
    + destruct (IH (Datatypes.S i)) as [[E Hn]|(j & E & Hj & Hin)]; [set_solver | left | right].
      * rewrite E. split; [lia | set_solver].
      * exists (Datatypes.S j). rewrite E. split_and!; [lia | done | set_solver].
Qed.

Lemma txn_take s a bs : txn s a bs -> take (length bs) (lh_block s) = bs.
Proof.
  intros T. apply list_eq_same_length with (length bs); [done | |].
  - rewrite length_take, (tx_len _ _ _ T). pose proof (tx_small _ _ _ T). lia.
  - intros i x y Hi Hx Hy. rewrite lookup_take_lt in Hx by done. pose proof (tx_bs _ _ _ T i y Hy) as Hn.
    by rewrite nth_lookup, Hx in Hn.
Qed.

(** The blocks of the transaction after [log_write] of [b]. *)
Definition logged (b : Z) (bs : list Z) : list Z := if bool_decide (b ∈ bs) then bs else bs ++ [b].

Lemma log_write_ok s a bs b h :
  txn s a bs -> a_held a !! b = Some h -> 0 <= b < 2 ^ 31 -> ~ in_log (lstart s) b ->
  1 <= outstanding s -> lsize s <= LOGSIZE -> Z.of_nat (length bs) < lsize s - 1 ->
  exists s' a', log_write h s = Ok (tt, s') /\ txn s' a' (logged b bs) /\
    a_held a' = a_held a /\ a_view a' = a_view a /\ a_disk a' = a_disk a /\ a_writes a' = a_writes a /\
    lstart s' = lstart s /\ lsize s' = lsize s /\ outstanding s' = outstanding s /\ committing s' = committing s.
Proof.
  intros T Hh Hb Hnl Ho Hls Hn. pose proof (tx_rep _ _ _ T) as R. pose proof (tx_len _ _ _ T) as Hlen.
  unfold log_write. rewrite !bind_gets, (tx_n _ _ _ T).
  destruct (Z.leb_spec LOGSIZE (Z.of_nat (length bs))); [lia |].
  destruct (Z.leb_spec (lsize s - 1) (Z.of_nat (length bs))); [lia |]. cbn [orb].
  rewrite bind_gets. destruct (Z.ltb_spec (outstanding s) 1); [lia |].
  rewrite (bind_cache _ _ _ _ _ _ (blockno_ok (lcache s) a b h R Hh)) by reflexivity. rewrite bind_gets.
  change (lh_block (with_cache (lcache s) s)) with (lh_block s). rewrite Nat2Z.id, (txn_take s a bs T).
  assert (with_cache (lcache s) s = s) as -> by (by destruct s). rewrite i32_small by lia.
  destruct (absorb_spec b bs 0) as [[E Hnin]|(j & E & Hj & Hin)];
    [intros x Hx; destruct (tx_home _ _ _ T x Hx); lia |..]; rewrite E; unfold set_lh_block; simpl.
  - destruct (Z.ltb_spec (Z.of_nat (length bs)) LOGSIZE); [| lia]. rewrite bind_modify, Z.eqb_refl.
    destruct (bpin_ok (lcache s) a b h R Hh) as (c & Ec & Rc).
    { rewrite (tx_pin _ _ _ T), elem_of_list_to_set. done. }
    rewrite (bind_cache _ _ _ _ _ _ Ec) by reflexivity.
    eexists _, (a_pin b a). split; [reflexivity |]. split; [| done].
    unfold logged. rewrite bool_decide_eq_false_2 by done.
    split; try apply T; cbn [lcache set_n with_cache set_blocks lh_n lh_block lstart a_pin a_disk a_pinned].
    + done.
    + rewrite length_app. simpl. lia.
    + by rewrite length_insert.
    + intros i x Hi. rewrite nth_lookup. apply lookup_app_Some in Hi as [Hi|[Hge Hi]].
      * rewrite list_lookup_insert_ne by (apply lookup_lt_Some in Hi; lia).
        pose proof (tx_bs _ _ _ T i x Hi) as Hx. by rewrite nth_lookup in Hx.
      * apply list_lookup_singleton_Some in Hi as [Hi ->]. assert (i = length bs) as -> by lia.
        rewrite list_lookup_insert_eq; [done | lia].
    + apply NoDup_app. split; [apply T |]. split; [| apply NoDup_singleton]. set_solver.
    + rewrite length_app. simpl. lia.
    + intros x [Hx|Hx]%elem_of_app; [by apply (tx_home _ _ _ T) |]. apply list_elem_of_singleton in Hx as ->. done.
    + rewrite (tx_pin _ _ _ T), list_to_set_app_L. set_solver.
  - apply lookup_lt_Some in Hj as Hjl. destruct (Z.ltb_spec (Z.of_nat j) LOGSIZE); [| lia]. rewrite bind_modify.
    destruct (Z.eqb_spec (Z.of_nat j) (Z.of_nat (length bs))); [lia |].
    eexists _, a. split; [reflexivity |]. split; [| done].
    unfold logged. rewrite bool_decide_eq_true_2 by done.
    assert (<[j := b]> (lh_block s) = lh_block s) as El.
    { apply list_insert_id. pose proof (tx_bs _ _ _ T j b Hj) as Hx. rewrite nth_lookup in Hx.
      destruct (lookup_lt_is_Some_2 (lh_block s) j ltac:(lia)) as [y Hy]. rewrite Hy in *. simpl in Hx. congruence. }
    rewrite El. destruct s. exact T.
Qed.

(** ** Transactions *)

(** The typical use in the comment of [log_write]: read a block, modify it, log it,
    release it. *)
Definition update (b : Z) (v : block) : M (log S) unit :=
  let! h := lbread b in
  do! on_cache (c_set h v) in
  do! log_write h in
  on_cache (c_brelse h).

Fixpoint updates (ups : list (Z * block)) : M (log S) unit :=
  match ups with
  | [] => ret tt
  | (b, v) :: ups => do! update b v in updates ups
  end.

(** One file system operation: [begin_op], updates, [end_op]. *)
Definition operation (ups : list (Z * block)) : M (log S) bool :=
  let! ok := begin_op in
  if (ok : bool) then do! updates ups in do! end_op in ret true else ret false.

(** The state of an open transaction without held buffers. *)
Record open_txn (s : log S) (a : acache) (bs : list Z) : Prop := {
  ot_txn : txn s a bs;
  ot_held : a_held a = ∅;
  ot_out : 1 <= outstanding s;
  ot_size : lsize s <= LOGSIZE;
}.

Lemma update_ok s a bs b v :
  open_txn s a bs -> 0 <= b < 2 ^ 31 -> ~ in_log (lstart s) b -> Z.of_nat (length bs) < lsize s - 1 ->
  exists s' a', update b v s = Ok (tt, s') /\ open_txn s' a' (logged b bs) /\
    (forall x, a_view a' x = zset (a_view a) b v x) /\ a_disk a' = a_disk a /\ a_writes a' = a_writes a /\
    lstart s' = lstart s /\ lsize s' = lsize s /\ outstanding s' = outstanding s /\ committing s' = committing s.
Proof.
  intros [T Hh Ho Hs] Hb Hnl Hn. pose proof (txn_size s a bs T) as Hsz. unfold update.
  destruct (lbread_ok s a b (tx_rep _ _ _ T) (tx_dev _ _ _ T) ltac:(lia)) as (h & c1 & E1 & R1).
  { by rewrite Hh. }
  { unfold busy. rewrite Hh. replace (a_pinned a ∪ dom ∅) with (a_pinned a) by set_solver. by apply size_add. }
  rewrite (bind_ok _ _ _ _ _ E1).
  assert (a_held (a_hold b h a) !! b = Some h) as Hh1 by apply lookup_insert_eq.
  destruct (set_ok c1 _ b h v R1 Hh1) as (c2 & E2 & R2). rewrite (bind_cache _ _ _ _ _ _ E2) by reflexivity.
  assert (txn (with_cache c2 s) (a_set b v (a_hold b h a)) bs) as T2 by (destruct s, T; by split).
  destruct (log_write_ok (with_cache c2 s) _ bs b h T2 Hh1 Hb Hnl Ho Hs Hn)
    as (s3 & a3 & E3 & T3 & Hh3 & Hv3 & Hd3 & Hw3 & Hst & Hsi & Hou & Hco).
  change (with_cache c2 (with_cache c1 s)) with (with_cache c2 s). rewrite (bind_ok _ _ _ _ _ E3).
  assert (a_held a3 !! b = Some h) as Hh4 by (by rewrite Hh3).
  destruct (brelse_ok (lcache s3) a3 b h (tx_rep _ _ _ T3) Hh4) as (c4 & E4 & R4).
  { left. rewrite (tx_pin _ _ _ T3), elem_of_list_to_set. unfold logged. case_bool_decide; set_solver. }
  exists (with_cache c4 s3), (a_unhold b a3).
  split; [by eapply on_cache_ok |]. split.
  - split; [| | by cbn; rewrite Hou | by cbn; rewrite Hsi].
    + destruct s3, T3. by split.
    + cbn. rewrite Hh3. cbn. rewrite Hh. by rewrite delete_insert_id.
  - cbn. rewrite Hv3, Hd3, Hw3. split_and!; try done.
Qed.

(** The contents after updates. *)
Definition apply_ups (ups : list (Z * block)) (d : Z -> block) : Z -> block :=
  foldl (fun d w => zset d w.1 w.2) d ups.

Lemma apply_ups_ext ups d e : (forall x, d x = e x) -> forall x, apply_ups ups d x = apply_ups ups e x.
Proof.
  revert d e. induction ups as [|[b v] ups IH]; intros d e Hx; simpl; [done |]. apply IH.
  intros x. unfold zset. by destruct (x =? b).
Qed.

Lemma updates_ok ups s a bs :
  open_txn s a bs -> (forall b, b ∈ ups.*1 -> 0 <= b < 2 ^ 31 /\ ~ in_log (lstart s) b) ->
  Z.of_nat (length bs + length ups) <= lsize s - 1 ->
  exists s' a' bs', updates ups s = Ok (tt, s') /\ open_txn s' a' bs' /\
    (forall x, a_view a' x = apply_ups ups (a_view a) x) /\ a_disk a' = a_disk a /\ a_writes a' = a_writes a /\
    lstart s' = lstart s /\ outstanding s' = outstanding s /\ committing s' = committing s.
Proof.
  revert s a bs. induction ups as [|[b v] ups IH]; intros s a bs O Hb Hn; cbn [updates].
  - exists s, a, bs. done.
  - simpl in Hn. destruct (update_ok s a bs b v O) as (s1 & a1 & E1 & O1 & Hv1 & Hd1 & Hw1 & Hs1 & Hl1 & Ho1 & Hc1);
      [apply Hb; set_solver.. | lia |].
    rewrite (bind_ok _ _ _ _ _ E1).
    destruct (IH s1 a1 (logged b bs) O1) as (s2 & a2 & bs2 & E2 & O2 & Hv2 & Hd2 & Hw2 & Hs2 & Ho2 & Hc2).
    + intros x Hx. rewrite Hs1. apply Hb. set_solver.
    + unfold logged. case_bool_decide; [lia |]. rewrite length_app. simpl. lia.
    + exists s2, a2, bs2. split; [done |]. split; [done |]. split_and!; try congruence.
      intros x. rewrite Hv2. simpl. by apply apply_ups_ext.
Qed.
End Theory.

(** ** Properties, for the buffer cache of [bio.c] *)

Section Bio.
Context (me : Z).
#[local] Existing Instance bio_cache.
#[local] Existing Instance bio_ok.
#[local] Instance this_cache : Cache bcache := bio_cache me.
#[local] Instance this_ok : CacheOk bcache := bio_ok me.

(** The machine restarts with disk [d]: an empty cache, and the log recovers. *)
Definition restart (d : Z -> block) (st nlog : Z) : outcome (unit * log bcache) :=
  initlog ROOTDEV st nlog (log0 (c_boot d) 0 0 0).

(** A state right after a restart: an empty transaction. *)
Record fresh (r : log bcache) (a : acache) (st nlog : Z) : Prop := {
  fr_txn : txn r a [];
  fr_held : a_held a = ∅;
  fr_view : forall b, a_view a b = disk (lcache r) b;
  fr_start : lstart r = st;
  fr_size : lsize r = i32 nlog;
  fr_out : outstanding r = 0;
  fr_comm : committing r = false;
}.

Lemma restart_ok d st nlog :
  0 <= st -> st + LOGSIZE < 2 ^ 31 -> hdr_valid st d ->
  exists r a ws, restart d st nlog = Ok (tt, r) /\ fresh r a st nlog /\ writes (lcache r) = ws /\
    (forall b, ~ in_log st b -> disk (lcache r) b = logical st d b) /\
    (forall later done, ws = later ++ done ->
       hdr_valid st (replay d done) /\ forall b, ~ in_log st b -> logical st (replay d done) b = logical st d b).
Proof.
  intros H0 H1 Hv. assert (0 < LOGSIZE) as Hpos by done. unfold restart, initlog.
  destruct (Z.leb_spec BSIZE (4 + 4 * LOGSIZE)); [done |].
  rewrite bind_modify. rewrite (i32_small st) by lia. cbn [lcache outstanding committing lh_n lh_block wakes log0].
  pose proof (boot_ok d) as Rb. revert Rb. generalize (c_boot d). intros c0 Rb.
  destruct (recover_ok (mklog c0 st (i32 nlog) 0 false ROOTDEV 0 (replicate (Z.to_nat LOGSIZE) 0) 0) d Rb eq_refl H0 H1
    (length_replicate _ _) Hv) as (r & a' & h & E & R & Hh & A & Hl & Hn & Hs & Hsz & Hdv & Ho & Hc).
  pose proof (cr_disk _ _ _ R) as Hd. pose proof (cr_writes _ _ _ R) as Hw. cbn [lstart lsize ldev outstanding committing] in *.
  assert (forall b, disk (lcache r) b = replay d ((st, h) :: reverse (entries st d)) b) as Hdisk.
  { intros b. rewrite Hd. apply A. }
  assert (forall b, ~ in_log st b -> disk (lcache r) b = logical st d b) as Hhome.
  { intros b Hb. rewrite Hdisk. simpl. rewrite zset_ne; [done |]. intros ->. by apply Hb, in_log_start. }
  assert (hdr_n (disk (lcache r) st) = 0) as Hz by (rewrite Hdisk; simpl; by rewrite zset_eq).
  exists r, a', ((st, h) :: reverse (entries st d)). split; [exact E |]. split_and!; [| | done |].
  - split; try done; try apply A.
    + split; try done; try (by rewrite Hs); try (intros; set_solver); [apply NoDup_nil_2 | |].
      * rewrite (aws_pin _ _ _ _ A). done.
      * by rewrite <- Hd, Hs.
    + intros b. rewrite Hd. apply (cr_clean _ _ _ R); [rewrite (aws_pin _ _ _ _ A); set_solver |].
      by rewrite (aws_held _ _ _ _ A).
  - rewrite Hw, (aws_writes _ _ _ _ A). apply app_nil_r.
  - intros later done Hspl. destruct later as [|w later].
    + simpl in Hspl. subst done.
      split; [apply empty_valid; by rewrite <- Hdisk |].
      intros b Hb. rewrite logical_empty by (by rewrite <- Hdisk). by rewrite <- Hdisk, Hhome.
    + injection Hspl as _ Hspl. by eapply logical_partial.
Qed.

(** The crash states of the commit inside [end_op], and what a restart makes of them. *)
Lemma end_op_commits s a bs :
  txn s a bs -> a_held a = ∅ -> outstanding s = 1 -> committing s = false ->
  exists s' ws, end_op s = Ok (tt, s') /\ writes (lcache s') = ws ++ writes (lcache s) /\
    (forall b, ~ in_log (lstart s) b -> disk (lcache s') b = a_view a b) /\
    outstanding s' = 0 /\ committing s' = false /\ lh_n s' = 0 /\
    (forall later done, ws = later ++ done ->
       hdr_valid (lstart s) (replay (disk (lcache s)) done) /\
       ((forall b, ~ in_log (lstart s) b -> logical (lstart s) (replay (disk (lcache s)) done) b = disk (lcache s) b) \/
        (forall b, ~ in_log (lstart s) b -> logical (lstart s) (replay (disk (lcache s)) done) b = a_view a b))).
Proof.
  intros T Hh Ho Hc. pose proof (tx_rep _ _ _ T) as R. unfold end_op. rewrite bind_gets, Ho, bind_modify, bind_gets.
  cbn [set_outstanding committing]. rewrite Hc. change (1 - 1 =? 0) with true. cbv iota.
  rewrite bind_modify.
  set (s1 := set_committing true (set_outstanding 0 s)).
  change (set_committing true (set_outstanding (1 - 1) s)) with s1.
  assert (txn s1 a bs) as T1 by (destruct s; destruct T; by split).
  assert (forall b, a_view a b = updated bs (a_view a) (disk (lcache s)) b) as Hup.
  { intros b. unfold updated. case_bool_decide as Hb; [done |]. rewrite (cr_disk _ _ _ R).
    apply (cr_clean _ _ _ R); [rewrite (tx_pin _ _ _ T), elem_of_list_to_set; done | by rewrite Hh]. }
  assert (0 <= lh_n s < 2 ^ 31) as Hnr.
  { rewrite (tx_n _ _ _ T). pose proof (tx_small _ _ _ T). unfold LOGSIZE, MAXOPBLOCKS in *. lia. }
  destruct (decide (bs = [])) as [->|Hne].
  - rewrite (bind_ok _ _ _ tt s1).
    2:{ unfold commit. rewrite bind_gets, (tx_n _ _ _ T1). reflexivity. }
    eexists _, []. split; [reflexivity |]. cbn. split_and!; try done.
    + apply T.
    + intros later done E. symmetry in E. apply app_nil in E as [-> ->]. simpl.
      assert (hdr_n (disk (lcache s) (lstart s)) = 0) as Hz by (rewrite (cr_disk _ _ _ R); apply T).
      split; [by apply empty_valid |]. left. intros b _. by apply logical_empty.
  - destruct (commit_ok s1 a bs T1 Hh Hne) as (c & a' & E & R' & A).
    rewrite (bind_ok _ _ _ _ _ E), bind_modify. eexists _, (txn_ws s1 a bs). split; [reflexivity |].
    cbn [wakeup_log set_committing set_n with_cache lcache outstanding committing lh_n s1 set_outstanding].
    assert (forall P : Prop, (hdr_n (disk (lcache s) (lstart s)) = 0 -> Z.of_nat (length bs) < LOGSIZE ->
      (forall b, b ∈ bs -> 0 <= b < 2 ^ 31 /\ ~ in_log (lstart s) b) ->
      hdr_n (head1 s1 a) = Z.of_nat (length bs) ->
      (forall i b, bs !! i = Some b -> hdr_block (head1 s1 a) i = b) -> hdr_n (head2 s1 a) = 0 -> P) -> P) as Hfacts.
    { intros P HP. apply HP; try apply T.
      - rewrite (cr_disk _ _ _ R). apply T.
      - unfold head1. rewrite hdr_n_put by done. apply T.
      - intros i b Hi. unfold head1. change (lh_n s1) with (lh_n s). change (lh_block s1) with (lh_block s).
        assert (nth i (lh_block s) 0 = b) as Eb by (by apply (tx_bs _ _ _ T)).
        rewrite hdr_block_put; [done | |].
        + rewrite (tx_n _ _ _ T). apply lookup_lt_Some in Hi. lia.
        + rewrite Eb. apply (tx_home _ _ _ T). by eapply list_elem_of_lookup_2.
      - unfold head2. apply hdr_n_put. lia. }
    assert (forall b, disk c b = replay (disk (lcache s)) (txn_ws s1 a bs) b) as Hdisk.
    { intros b. rewrite (cr_disk _ _ _ R'), (aws_disk _ _ _ _ A). apply replay_ext. intros x. by rewrite (cr_disk _ _ _ R). }
    split_and!; try done.
    + rewrite (cr_writes _ _ _ R'), (aws_writes _ _ _ _ A), (cr_writes _ _ _ R). done.
    + intros b Hb. rewrite Hdisk, Hup. apply Hfacts. intros. unfold txn_ws. by apply crash_end.
    + intros later done Hspl. apply Hfacts. intros. unfold txn_ws in Hspl.
      destruct (crash_any (lstart s) (disk (lcache s)) (a_view a) bs _ _ H H0 H1 H2 H3 H4 later done Hspl) as [Hv Hor].
      split; [exact Hv |]. destruct Hor as [Hor|Hor]; [by left | right]. intros b Hb. rewrite Hor, <- Hup; done.
Qed.

Lemma begin_op_ok (s : log bcache) : committing s = false -> lh_n s = 0 -> outstanding s = 0 ->
  begin_op s = Ok (true, set_outstanding 1 s).
Proof. intros Hc Hn Ho. unfold begin_op. by rewrite bind_gets, Hc, !bind_gets, Hn, Ho. Qed.

Lemma operation_ok r a st nlog ups :
  fresh r a st nlog -> i32 nlog = LOGSIZE -> (forall b, b ∈ ups.*1 -> 0 <= b < 2 ^ 31 /\ ~ in_log st b) ->
  Z.of_nat (length ups) <= MAXOPBLOCKS ->
  exists s a' bs, begin_op r = Ok (true, set_outstanding 1 r) /\ updates ups (set_outstanding 1 r) = Ok (tt, s) /\
    open_txn s a' bs /\
    (forall b, a_view a' b = apply_ups ups (disk (lcache r)) b) /\ (forall b, disk (lcache s) b = disk (lcache r) b) /\
    writes (lcache s) = writes (lcache r) /\ lstart s = st /\ outstanding s = 1 /\ committing s = false.
Proof.
  intros F Hnl Hb Hlen. pose proof (fr_txn _ _ _ _ F) as T.
  assert (open_txn (set_outstanding 1 r) a []) as O.
  { split; [destruct r, T; by split | apply F | done |]. cbn. rewrite (fr_size _ _ _ _ F), Hnl. done. }
  destruct (updates_ok ups (set_outstanding 1 r) a [] O) as (s & a' & bs & E & O' & Hv & Hd & Hw & Hs & Ho & Hc).
  { cbn. by rewrite (fr_start _ _ _ _ F). }
  { cbn [length set_outstanding lsize Nat.add]. rewrite (fr_size _ _ _ _ F), Hnl. unfold MAXOPBLOCKS, LOGSIZE in *. unfold MAXOPBLOCKS. lia. }
  pose proof (tx_rep _ _ _ (ot_txn _ _ _ O')) as R'. pose proof (tx_rep _ _ _ T) as R.
  exists s, a', bs. split_and!; try done.
  - apply begin_op_ok; [apply F | apply T | apply F].
  - intros b. rewrite Hv. apply apply_ups_ext. apply F.
  - intros b. by rewrite (cr_disk _ _ _ R'), Hd, (cr_disk _ _ _ R).
  - by rewrite (cr_writes _ _ _ R'), Hw, (cr_writes _ _ _ R).
  - rewrite Hs. apply F.
  - rewrite Hc. apply F.
Qed.

(** C1: a file system operation is atomic and durable.  On a machine that restarts with disk
    [d] (whatever the log of [d] holds), an operation that updates up to [MAXOPBLOCKS] blocks
    outside the log through [log_write] returns with all of them on disk; and if the machine
    stops after any prefix of the disk writes of the operation, the next restart finds either
    none of the updates or all of them. *)
Theorem operation_atomic (d : Z -> block) (st nlog : Z) (ups : list (Z * block))
    (Hst : 0 <= st /\ st + LOGSIZE < 2 ^ 31) (Hnl : i32 nlog = LOGSIZE) (Hd : hdr_valid st d)
    (Hb : forall b, b ∈ ups.*1 -> 0 <= b < 2 ^ 31 /\ ~ in_log st b)
    (Hlen : Z.of_nat (length ups) <= MAXOPBLOCKS) :
  exists r s ws, restart d st nlog = Ok (tt, r) /\ operation ups r = Ok (true, s) /\
    writes (lcache s) = ws ++ writes (lcache r) /\
    (forall b, ~ in_log st b -> disk (lcache s) b = apply_ups ups (logical st d) b) /\
    forall later done, ws = later ++ done ->
      exists r', restart (replay (disk (lcache r)) done) st nlog = Ok (tt, r') /\
        ((forall b, ~ in_log st b -> disk (lcache r') b = logical st d b) \/
         (forall b, ~ in_log st b -> disk (lcache r') b = apply_ups ups (logical st d) b)).
Proof.
  destruct Hst as [Hs0 Hs1]. destruct (restart_ok d st nlog Hs0 Hs1 Hd) as (r & a & _ & Er & F & _ & Hr & _).
  destruct (operation_ok r a st nlog ups F Hnl Hb Hlen) as
    (s1 & a1 & bs & Eb & Eu & O & Hv & Hdk & Hwr & Hls & Ho & Hc).
  destruct (end_op_commits s1 a1 bs (ot_txn _ _ _ O) (ot_held _ _ _ O) Ho Hc) as (s & ws & Ee & Hw & Hfin & _ & _ & _ & Hcrash).
  rewrite Hls in Hfin, Hcrash.
  assert (forall b, ~ in_log st b -> apply_ups ups (disk (lcache r)) b = apply_ups ups (logical st d) b) as Hap.
  { intros b Hnb. clear -Hr Hnb. revert Hr. generalize (disk (lcache r)), (logical st d).
    induction ups as [|[x v] ups IH]; intros f g Hfg; simpl; [by apply Hfg |]. apply IH.
    intros y Hy. unfold zset. destruct (y =? x); [done | by apply Hfg]. }
  exists r, s, ws. split; [exact Er |]. split_and!.
  - unfold operation. rewrite (bind_ok _ _ _ _ _ Eb), (bind_ok _ _ _ _ _ Eu), (bind_ok _ _ _ _ _ Ee). reflexivity.
  - by rewrite Hw, Hwr.
  - intros b Hnb. rewrite Hfin, Hv by done. by apply Hap.
  - intros later done Hspl. destruct (Hcrash later done Hspl) as [Hval Hor].
    assert (forall x, replay (disk (lcache s1)) done x = replay (disk (lcache r)) done x) as Hrep by (by apply replay_ext).
    assert (hdr_valid st (replay (disk (lcache r)) done)) as Hval' by (unfold hdr_valid in *; by rewrite <- Hrep).
    destruct (restart_ok (replay (disk (lcache r)) done) st nlog Hs0 Hs1 Hval') as (r' & _ & _ & Er' & _ & _ & Hr' & _).
    exists r'. split; [exact Er' |].
    assert (forall b, logical st (replay (disk (lcache s1)) done) b = logical st (replay (disk (lcache r)) done) b) as Hlog.
    { intros b. unfold logical. rewrite <- (entries_ext st (replay (disk (lcache s1)) done) (replay (disk (lcache r)) done));
        [by apply replay_ext | intros; apply Hrep | apply Hval]. }
    destruct Hor as [Hor|Hor]; [left | right]; intros b Hnb; rewrite Hr', <- Hlog, Hor by done.
    + by rewrite Hdk, Hr.
    + rewrite Hv. by apply Hap.
Qed.

(** C24: recovery can be interrupted.  A restart installs exactly the entries of the log; if
    the machine stops after any prefix of the writes of the recovery and restarts, the home
    blocks end up the same. *)
Theorem recovery_restartable (d : Z -> block) (st nlog : Z)
    (Hst : 0 <= st /\ st + LOGSIZE < 2 ^ 31) (Hd : hdr_valid st d) :
  exists r, restart d st nlog = Ok (tt, r) /\ (forall b, ~ in_log st b -> disk (lcache r) b = logical st d b) /\
    forall later done, writes (lcache r) = later ++ done ->
      exists r', restart (replay d done) st nlog = Ok (tt, r') /\
        forall b, ~ in_log st b -> disk (lcache r') b = disk (lcache r) b.
Proof.
  destruct Hst as [Hs0 Hs1]. destruct (restart_ok d st nlog Hs0 Hs1 Hd) as (r & a & ws & Er & F & Hw & Hr & Hcrash).
  exists r. split_and!; [exact Er | exact Hr |]. intros later done Hspl. rewrite Hw in Hspl.
  destruct (Hcrash later done Hspl) as [Hval Hlog].
  destruct (restart_ok (replay d done) st nlog Hs0 Hs1 Hval) as (r' & _ & _ & Er' & _ & _ & Hr' & _).
  exists r'. split; [exact Er' |]. intros b Hb. by rewrite Hr', Hlog, Hr.
Qed.

(** [log_write] on every branch.  It stops the machine when the log holds [size - 1]
    blocks or no operation is open, also for a block that is already logged; otherwise the
    block is in the transaction once, pinned once, in the order of first writes, and no
    contents change. *)
Lemma log_write_spec (s : log bcache) (a : acache) (bs : list Z) (b : Z) (h : nat)
    (T : txn s a bs) (Hh : a_held a !! b = Some h) (Hb : 0 <= b < 2 ^ 31 /\ ~ in_log (lstart s) b)
    (Hsz : lsize s <= LOGSIZE) :
  if lsize s - 1 <=? Z.of_nat (length bs) then log_write h s = Panic "too big a transaction"
  else if outstanding s <? 1 then log_write h s = Panic "log_write outside of trans"
  else exists s' a', log_write h s = Ok (tt, s') /\ txn s' a' (logged b bs) /\
         a_held a' = a_held a /\ a_view a' = a_view a /\ a_disk a' = a_disk a /\ a_writes a' = a_writes a.
Proof.
  destruct (Z.leb_spec (lsize s - 1) (Z.of_nat (length bs))) as [Hn|Hn]; [| destruct (Z.ltb_spec (outstanding s) 1) as [Ho|Ho]].
  - unfold log_write. rewrite !bind_gets, (tx_n _ _ _ T), (proj2 (Z.leb_le (lsize s - 1) _) Hn), orb_true_r. done.
  - unfold log_write. rewrite !bind_gets, (tx_n _ _ _ T).
    destruct (Z.leb_spec LOGSIZE (Z.of_nat (length bs))); [lia |].
    destruct (Z.leb_spec (lsize s - 1) (Z.of_nat (length bs))); [lia |]. simpl. rewrite bind_gets.
    by rewrite (proj2 (Z.ltb_lt _ _) Ho).
  - destruct Hb as [Hb Hnl]. destruct (log_write_ok s a bs b h T Hh Hb Hnl ltac:(lia) Hsz Hn)
      as (s' & a' & E & T' & H1 & H2 & H3 & H4 & _). eauto 10.
Qed.

End Bio.

(** Three operations are admitted at once, and each logs [MAXOPBLOCKS] blocks. *)
Definition three_ops : M (log bcache) unit :=
  let _ := bio_cache 1 in
  let! _ := begin_op in let! _ := begin_op in let! b3 := begin_op in
  if (b3 : bool) then updates ((fun i => (Z.of_nat i, fun _ => 7)) <$> seq 100 (Z.to_nat (3 * MAXOPBLOCKS)))
  else ret tt.

(** The reservation of [begin_op] is one block too generous.  On a log of [LOGSIZE] blocks,
    the size the file system is built with, [begin_op] admits three operations of [MAXOPBLOCKS]
    blocks, but the header takes one block of the log, and the last [log_write] stops the
    machine. *)
Lemma begin_op_overbooks :
  match restart 1 (fun _ _ => 0) 2 LOGSIZE with
  | Ok (_, r) => three_ops r = Panic "too big a transaction"
  | _ => False
  end.
Proof. vm_compute. reflexivity. Qed.

(** ** Witnesses *)

Lemma zero_valid : hdr_valid 2 (fun _ _ => 0).
Proof. apply empty_valid. reflexivity. Qed.

Lemma operation_atomic_witness :
  exists r s ws, restart 1 (fun _ _ => 0) 2 LOGSIZE = Ok (tt, r) /\
    @operation bcache (bio_cache 1) [(40, fun _ => 1); (41, fun _ => 2); (40, fun _ => 3)] r = Ok (true, s) /\
    writes (lcache s) = ws ++ writes (lcache r) /\
    (forall b, ~ in_log 2 b ->
       disk (lcache s) b = apply_ups [(40, fun _ => 1); (41, fun _ => 2); (40, fun _ => 3)] (logical 2 (fun _ _ => 0)) b) /\
    forall later done, ws = later ++ done ->
      exists r', restart 1 (replay (disk (lcache r)) done) 2 LOGSIZE = Ok (tt, r') /\
        ((forall b, ~ in_log 2 b -> disk (lcache r') b = logical 2 (fun _ _ => 0) b) \/
         (forall b, ~ in_log 2 b ->
            disk (lcache r') b = apply_ups [(40, fun _ => 1); (41, fun _ => 2); (40, fun _ => 3)] (logical 2 (fun _ _ => 0)) b)).
Proof.
  refine (operation_atomic 1 (fun _ _ => 0) 2 LOGSIZE [(40, fun _ => 1); (41, fun _ => 2); (40, fun _ => 3)] _ eq_refl zero_valid _ _).
  - unfold LOGSIZE, MAXOPBLOCKS. lia.
  - intros b Hb. unfold in_log, LOGSIZE, MAXOPBLOCKS. simpl in Hb.
    assert (b = 40 \/ b = 41) as [-> | ->] by set_solver; lia.
  - unfold MAXOPBLOCKS. simpl. lia.
Defined.

(** A log with one committed entry, for block 40. *)
Definition committed_disk : Z -> block :=
  fun b => if b =? 2 then put_head 1 [40] (fun _ => 0) else if b =? 3 then (fun _ => 9) else (fun _ => 0).

Lemma recovery_restartable_witness :
  logical 2 committed_disk 40 0 = 9 /\
  exists r, restart 1 committed_disk 2 LOGSIZE = Ok (tt, r) /\
    (forall b, ~ in_log 2 b -> disk (lcache r) b = logical 2 committed_disk b) /\
    forall later done, writes (lcache r) = later ++ done ->
      exists r', restart 1 (replay committed_disk done) 2 LOGSIZE = Ok (tt, r') /\
        forall b, ~ in_log 2 b -> disk (lcache r') b = disk (lcache r) b.
Proof.
  split; [vm_compute; reflexivity |].
  refine (recovery_restartable 1 committed_disk 2 LOGSIZE _ _).
  - unfold LOGSIZE, MAXOPBLOCKS. lia.
  - assert (hdr_n (committed_disk 2) = 1) as En by (vm_compute; reflexivity).
    assert (hdr_block (committed_disk 2) 0 = 40) as Eb by (vm_compute; reflexivity).
    unfold hdr_valid. rewrite En. unfold LOGSIZE, MAXOPBLOCKS. split; [lia |].
    intros i Hi. assert (i = 0%nat) as -> by (simpl in Hi; lia). rewrite Eb. unfold in_log, LOGSIZE, MAXOPBLOCKS. lia.
Defined.

