(* ===== verification/Fs.v ===== *)
(** * Fs: the file system, [kernel/fs.c]

    The block allocator, inodes, their contents, directories and path names, above the log.
    The state is the log with its cache, the super block and the table of in-memory inodes.
    A [struct inode *] is an index of the table, the null pointer is [None].  On-disk
    structures are read and written at their byte offsets in a block.

    [readi] and [writei] copy through [either_copyout] and [either_copyin]; their argument here
    is the copy itself, per piece of the transfer, so that user and kernel destinations are
    two instances of one definition. *)

From stdpp Require Import base list gmap sets strings.
From Stdlib Require Import ZArith Lia.
From S2P Require Import Prelude Riscv Mem Spinlock Bio Log.

(** ** On-disk format, [fs.h] *)

Definition ROOTINO : Z := 1.
Definition FSMAGIC : Z := 0x10203040.
Definition NDIRECT : Z := 12.
Definition NINDIRECT : Z := BSIZE / 4.
Definition MAXFILE : Z := NDIRECT + NINDIRECT.
Definition DIRSIZ : Z := 14.
Definition dinode_size : Z := 64.
Definition IPB : Z := BSIZE / dinode_size.
Definition BPB : Z := BSIZE * 8.
Definition dirent_size : Z := 16.

Definition T_DIR : Z := 1.
Definition T_FILE : Z := 2.
Definition T_DEVICE : Z := 3.

Record superblock : Type := mksb {
  magic : Z;
  sb_size : Z;
  nblocks : Z;
  ninodes : Z;
  nlog : Z;
  logstart : Z;
  inodestart : Z;
  bmapstart : Z;
}.

Definition IBLOCK (i : Z) (sb : superblock) : Z := u32 (i / IPB + inodestart sb).
Definition BBLOCK (b : Z) (sb : superblock) : Z := u32 (b / BPB + bmapstart sb).

(** ** In-memory inodes, [file.h] *)

Record inode : Type := mkinode {
  i_dev : Z;
  inum : Z;
  ref : Z;
  ilk : Sleeplock.sleeplock;
  i_valid : bool;
  i_type : Z;
  major : Z;
  minor : Z;
  nlink : Z;
  isize : Z;
  addrs : list Z;
}.

Definition inode0 : inode :=
  mkinode 0 0 0 Sleeplock.initsleeplock false 0 0 0 0 0 (replicate (Z.to_nat (NDIRECT + 1)) 0).

(** Conversion to [short]. *)
Definition i16 (x : Z) : Z := (x + 2 ^ 15) mod 2 ^ 16 - 2 ^ 15.

Definition set_ref (v : Z) (i : inode) : inode :=
  mkinode (i_dev i) (inum i) v (ilk i) (i_valid i) (i_type i) (major i) (minor i) (nlink i) (isize i) (addrs i).
Definition set_ilk (v : Sleeplock.sleeplock) (i : inode) : inode :=
  mkinode (i_dev i) (inum i) (ref i) v (i_valid i) (i_type i) (major i) (minor i) (nlink i) (isize i) (addrs i).
Definition set_ivalid (v : bool) (i : inode) : inode :=
  mkinode (i_dev i) (inum i) (ref i) (ilk i) v (i_type i) (major i) (minor i) (nlink i) (isize i) (addrs i).
Definition set_type (v : Z) (i : inode) : inode :=
  mkinode (i_dev i) (inum i) (ref i) (ilk i) (i_valid i) v (major i) (minor i) (nlink i) (isize i) (addrs i).
Definition set_major (v : Z) (i : inode) : inode :=
  mkinode (i_dev i) (inum i) (ref i) (ilk i) (i_valid i) (i_type i) v (minor i) (nlink i) (isize i) (addrs i).
Definition set_minor (v : Z) (i : inode) : inode :=
  mkinode (i_dev i) (inum i) (ref i) (ilk i) (i_valid i) (i_type i) (major i) v (nlink i) (isize i) (addrs i).
Definition set_nlink (v : Z) (i : inode) : inode :=
  mkinode (i_dev i) (inum i) (ref i) (ilk i) (i_valid i) (i_type i) (major i) (minor i) v (isize i) (addrs i).
Definition set_size (v : Z) (i : inode) : inode :=
  mkinode (i_dev i) (inum i) (ref i) (ilk i) (i_valid i) (i_type i) (major i) (minor i) (nlink i) v (addrs i).
Definition set_addr (n : nat) (v : Z) (i : inode) : inode :=
  mkinode (i_dev i) (inum i) (ref i) (ilk i) (i_valid i) (i_type i) (major i) (minor i) (nlink i) (isize i)
    (<[n := v]> (addrs i)).

(** *** Inodes in a block *)

(** Byte offset of inode [i] in its block. *)
Definition dip (i : Z) : Z := (i mod IPB) * dinode_size.

(** The address array of the inode at [o]. *)
Definition load_addrs (b : block) (o : Z) : list Z :=
  (fun j => load32 b (o + 12 + 4 * Z.of_nat j)) <$> seq 0 (Z.to_nat (NDIRECT + 1)).

Fixpoint store_addrs (b : block) (o : Z) (l : list Z) : block :=
  match l with
  | [] => b
  | v :: l' => store_addrs (store32 b o v) (o + 4) l'
  end.

(** The fields of the disk inode at [o], in the in-memory copy [ip]. *)
Definition get_dinode (b : block) (o : Z) (ip : inode) : inode :=
  mkinode (i_dev ip) (inum ip) (ref ip) (ilk ip) (i_valid ip)
    (i16 (load 2 b o)) (i16 (load 2 b (o + 2))) (i16 (load 2 b (o + 4))) (i16 (load 2 b (o + 6)))
    (load32 b (o + 8)) (load_addrs b o).

(** The stores of [iupdate]. *)
Definition put_dinode (b : block) (o : Z) (ip : inode) : block :=
  let b := store 2 b o (i_type ip) in
  let b := store 2 b (o + 2) (major ip) in
  let b := store 2 b (o + 4) (minor ip) in
  let b := store 2 b (o + 6) (nlink ip) in
  let b := store32 b (o + 8) (isize ip) in
  store_addrs b (o + 12) (addrs ip).

(** Bytes [o, o + n) of a block, and a block with bytes replaced. *)
Definition bytes_of (b : block) (o : Z) (n : nat) : list Z := (fun j => b (o + Z.of_nat j)) <$> seq 0 n.

Definition put_bytes (b : block) (o : Z) (l : list Z) : block :=
  fun x => if in_range o (Z.of_nat (length l)) x then nth (Z.to_nat (x - o)) l 0 else b x.

(** ** State *)

Record fs (S : Type) : Type := mkfs { flog : log S; sb : superblock; itable : list inode }.
Arguments mkfs {S}.
Arguments flog {S}.
Arguments sb {S}.
Arguments itable {S}.

Section Code.
Context {S : Type} `{Cache S}.

(** The process that runs the code: its pid, for the inode locks. *)
Context (me : Z).

Definition on_log {A} (m : M (log S) A) : M (fs S) A := fun s =>
  match m (flog s) with
  | Ok (a, l) => Ok (a, mkfs l (sb s) (itable s))
  | Panic msg => Panic msg
  | Diverge => Diverge
  end.

Definition fbread (d bn : Z) : M (fs S) nat := on_log (on_cache (c_bread (u32 d) (u32 bn))).
Definition fget (b : nat) : M (fs S) block := on_log (on_cache (c_get b)).
Definition fset_data (b : nat) (v : block) : M (fs S) unit := on_log (on_cache (c_set b v)).
Definition fbrelse (b : nat) : M (fs S) unit := on_log (on_cache (c_brelse b)).
Definition flog_write (b : nat) : M (fs S) unit := on_log (log_write b).

Definition geti {A} (i : nat) (f : inode -> A) : M (fs S) A := gets (fun s => f (nth i (itable s) inode0)).
Definition modi (i : nat) (f : inode -> inode) : M (fs S) unit :=
  modify (fun s => mkfs (flog s) (sb s) (alter f i (itable s))).

(** *** Blocks *)

Definition get_sb (b : block) : superblock :=
  mksb (load32 b 0) (load32 b 4) (load32 b 8) (load32 b 12) (load32 b 16) (load32 b 20) (load32 b 24) (load32 b 28).

Definition readsb (d : Z) : M (fs S) unit :=
  let! bp := fbread d 1 in
  let! b := fget bp in
  do! modify (fun s => mkfs (flog s) (get_sb b) (itable s)) in
  fbrelse bp.

Definition fsinit (d : Z) : M (fs S) unit :=
  do! readsb d in
  let! b := gets sb in
  if negb (magic b =? FSMAGIC) then panic "invalid file system" else
  on_log (initlog d (logstart b) (nlog b)).

Definition bzero (d bno : Z) : M (fs S) unit :=
  let! bp := fbread d bno in
  let! b := fget bp in
  do! fset_data bp (memset b 0 0 BSIZE) in
  do! flog_write bp in
  fbrelse bp.

(** Bit [bi] of a bitmap block. *)
Definition bit_set (b : block) (bi : Z) : bool := has (b (bi / 8)) (Z.shiftl 1 (bi mod 8)).
Definition mark_bit (b : block) (bi : Z) : block := upd b (bi / 8) (Z.lor (b (bi / 8)) (Z.shiftl 1 (bi mod 8))).
Definition clear_bit (b : block) (bi : Z) : block :=
  upd b (bi / 8) (Z.land (b (bi / 8)) (u8 (Z.lnot (Z.shiftl 1 (bi mod 8))))).

(** The inner loop of [balloc]: the first free bit from [bi] on, at most [n] of them. *)
Fixpoint find_bit (n : nat) (bi lim : Z) (b : block) : option Z :=
  match n with
  | O => None
  | Datatypes.S n' =>
      if negb (bi <? lim) then None
      else if negb (bit_set b bi) then Some bi else find_bit n' (bi + 1) lim b
  end.

(** The outer loop from block number [b], [n] bitmap blocks at most. *)
Fixpoint balloc_loop (n : nat) (d b : Z) : M (fs S) Z :=
  let! sbl := gets sb in
  if negb (b <? sb_size sbl) then ret 0 else
  match n with
  | O => diverge
  | Datatypes.S n' =>
      let! bp := fbread d (BBLOCK b sbl) in
      let! m := fget bp in
      match find_bit (Z.to_nat BPB) 0 (sb_size sbl - b) m with
      | Some bi =>
          do! fset_data bp (mark_bit m bi) in
          do! flog_write bp in
          do! fbrelse bp in
          do! bzero d (b + bi) in
          ret (b + bi)
      | None => do! fbrelse bp in balloc_loop n' d (b + BPB)
      end
  end.

Definition balloc (d : Z) : M (fs S) Z :=
  let! sbl := gets sb in balloc_loop (Z.to_nat (sb_size sbl / BPB + 1)) d 0.

Definition bfree (d b : Z) : M (fs S) unit :=
  let! sbl := gets sb in
  let! bp := fbread d (BBLOCK b sbl) in
  let bi := b mod BPB in
  let! m := fget bp in
  if negb (bit_set m bi) then panic "freeing free block" else
  do! fset_data bp (clear_bit m bi) in
  do! flog_write bp in
  fbrelse bp.

(** *** Inodes *)

Fixpoint iinit_loop (n i : nat) : M (fs S) unit :=
  match n with
  | O => ret tt
  | Datatypes.S n' => do! modi i (set_ilk Sleeplock.initsleeplock) in iinit_loop n' (Datatypes.S i)
  end.
Definition iinit : M (fs S) unit := iinit_loop NINODE 0.

(** The loop of [iget]: a matching entry ([inl]), or the first empty slot seen. *)
Fixpoint iget_scan (l : list inode) (i : nat) (d n : Z) (empty : option nat) : nat + option nat :=
  match l with
  | [] => inr empty
  | ip :: l' =>
      if (0 <? ref ip) && (i_dev ip =? d) && (inum ip =? n) then inl i
      else iget_scan l' (Datatypes.S i) d n
             (match empty with None => if ref ip =? 0 then Some i else None | Some _ => empty end)
  end.

Definition iget (d n : Z) : M (fs S) nat :=
  let! r := gets (fun s => iget_scan (itable s) 0 d n None) in
  match r with
  | inl i => do! modi i (fun ip => set_ref (ref ip + 1) ip) in ret i
  | inr None => panic "iget: no inodes"
  | inr (Some i) =>
      do! modi i (fun ip => mkinode d n 1 (ilk ip) false (i_type ip) (major ip) (minor ip) (nlink ip) (isize ip) (addrs ip)) in
      ret i
  end.

(** The loop of [ialloc] from inode number [i], [n] of them. *)
Fixpoint ialloc_loop (n : nat) (d ty i : Z) : M (fs S) (option nat) :=
  match n with
  | O => ret None
  | Datatypes.S n' =>
      let! sbl := gets sb in
      let! bp := fbread d (IBLOCK i sbl) in
      let! b := fget bp in
      if i16 (load 2 b (dip i)) =? 0 then
        do! fset_data bp (store 2 (memset b (dip i) 0 dinode_size) (dip i) ty) in
        do! flog_write bp in
        do! fbrelse bp in
        let! ip := iget d i in
        ret (Some ip)
      else
        do! fbrelse bp in
        ialloc_loop n' d ty (i + 1)
  end.

Definition ialloc (d ty : Z) : M (fs S) (option nat) :=
  let! sbl := gets sb in ialloc_loop (Z.to_nat (ninodes sbl - 1)) d ty 1.

Definition iupdate (ip : nat) : M (fs S) unit :=
  let! sbl := gets sb in
  let! x := geti ip id in
  let! bp := fbread (i_dev x) (IBLOCK (inum x) sbl) in
  let! b := fget bp in
  do! fset_data bp (put_dinode b (dip (inum x)) x) in
  do! flog_write bp in
  fbrelse bp.

Definition idup (ip : nat) : M (fs S) nat :=
  do! modi ip (fun x => set_ref (ref x + 1) x) in ret ip.

(** [acquiresleep(&ip->lock)]; a lock that is taken blocks the caller. *)
Definition lock_inode (ip : nat) : M (fs S) unit :=
  let! lk := geti ip ilk in
  match Sleeplock.acquiresleep me lk with
  | Some lk' => modi ip (set_ilk lk')
  | None => diverge
  end.

Definition ilock (ipp : option nat) : M (fs S) unit :=
  match ipp with
  | None => panic "ilock"
  | Some ip =>
      let! r := geti ip ref in
      if r <? 1 then panic "ilock" else
      do! lock_inode ip in
      let! v := geti ip i_valid in
      if (v : bool) then ret tt else
      let! sbl := gets sb in
      let! x := geti ip id in
      let! bp := fbread (i_dev x) (IBLOCK (inum x) sbl) in
      let! b := fget bp in
      do! modi ip (get_dinode b (dip (inum x))) in
      do! fbrelse bp in
      do! modi ip (set_ivalid true) in
      let! ty := geti ip i_type in
      if ty =? 0 then panic "ilock: no type" else ret tt
  end.

Definition iunlock (ipp : option nat) : M (fs S) unit :=
  match ipp with
  | None => panic "iunlock"
  | Some ip =>
      let! x := geti ip id in
      if negb (Sleeplock.holdingsleep me (ilk x)) || (ref x <? 1) then panic "iunlock"
      else modi ip (set_ilk (Sleeplock.releasesleep (ilk x)))
  end.

(** The two loops of [itrunc]. *)
Fixpoint trunc_direct (n i : nat) (ip : nat) : M (fs S) unit :=
  match n with
  | O => ret tt
  | Datatypes.S n' =>
      let! x := geti ip id in
      let a := nth i (addrs x) 0 in
      do! (if negb (a =? 0) then do! bfree (i_dev x) a in modi ip (set_addr i 0) else ret tt) in
      trunc_direct n' (Datatypes.S i) ip
  end.

Fixpoint trunc_indirect (n j : nat) (d : Z) (b : block) : M (fs S) unit :=
  match n with
  | O => ret tt
  | Datatypes.S n' =>
      let a := load32 b (4 * Z.of_nat j) in
      do! (if negb (a =? 0) then bfree d a else ret tt) in
      trunc_indirect n' (Datatypes.S j) d b
  end.

Definition itrunc (ip : nat) : M (fs S) unit :=
  do! trunc_direct (Z.to_nat NDIRECT) 0 ip in
  let! x := geti ip id in
  let a := nth (Z.to_nat NDIRECT) (addrs x) 0 in
  do! (if negb (a =? 0) then
         let! bp := fbread (i_dev x) a in
         let! b := fget bp in
         do! trunc_indirect (Z.to_nat NINDIRECT) 0 (i_dev x) b in
         do! fbrelse bp in
         do! bfree (i_dev x) a in
         modi ip (set_addr (Z.to_nat NDIRECT) 0)
       else ret tt) in
  do! modi ip (set_size 0) in
  iupdate ip.

Definition iput (ip : nat) : M (fs S) unit :=
  let! x := geti ip id in
  do! (if (ref x =? 1) && i_valid x && (nlink x =? 0) then
         do! lock_inode ip in
         do! itrunc ip in
         do! modi ip (set_type 0) in
         do! iupdate ip in
         do! modi ip (set_ivalid false) in
         modi ip (fun x => set_ilk (Sleeplock.releasesleep (ilk x)) x)
       else ret tt) in
  modi ip (fun x => set_ref (ref x - 1) x).

Definition iunlockput (ip : nat) : M (fs S) unit :=
  do! iunlock (Some ip) in iput ip.

(** *** Contents *)

(** The indirect block, allocated if necessary. *)
Definition bmap_ind (ip : nat) : M (fs S) Z :=
  let! x := geti ip id in
  let addr := nth (Z.to_nat NDIRECT) (addrs x) 0 in
  if addr =? 0 then
    let! addr := balloc (i_dev x) in
    if addr =? 0 then ret 0 else
    do! modi ip (set_addr (Z.to_nat NDIRECT) addr) in
    ret addr
  else ret addr.

(** Entry [bn] of the indirect block [addr], allocated if necessary. *)
Definition bmap_entry (d addr bn : Z) : M (fs S) Z :=
  let! bp := fbread d addr in
  let! a := fget bp in
  let addr := load32 a (4 * bn) in
  let! addr :=
    (if addr =? 0 then
       let! addr := balloc d in
       do! (if negb (addr =? 0) then
              let! a := fget bp in
              do! fset_data bp (store32 a (4 * bn) addr) in
              flog_write bp
            else ret tt) in
       ret addr
     else ret addr) in
  do! fbrelse bp in
  ret addr.

Definition bmap (ip : nat) (bn : Z) : M (fs S) Z :=
  let! x := geti ip id in
  if bn <? NDIRECT then
    let addr := nth (Z.to_nat bn) (addrs x) 0 in
    if addr =? 0 then
      let! addr := balloc (i_dev x) in
      if addr =? 0 then ret 0 else
      do! modi ip (set_addr (Z.to_nat bn) addr) in
      ret addr
    else ret addr
  else
  let bn := bn - NDIRECT in
  if bn <? NINDIRECT then
    let! addr := bmap_ind ip in
    if addr =? 0 then ret 0 else bmap_entry (i_dev x) addr bn
  else panic "bmap: out of range".

(** The fields of [struct stat]: dev, ino, type, nlink, size. *)
Definition stati (ip : nat) : M (fs S) (Z * Z * Z * Z * Z) :=
  geti ip (fun x => (i_dev x, inum x, i_type x, nlink x, isize x)).

(** The loop of [readi].  [put tot l] is the [either_copyout] of the piece [l] that goes to
    [dst + tot]; the pieces delivered are returned too. *)
Fixpoint readi_loop (fuel : nat) (put : Z -> list Z -> M (fs S) Z) (ip : nat) (off n tot : Z) (acc : list Z) :
    M (fs S) (Z * list Z) :=
  if negb (tot <? n) then ret (tot, acc) else
  match fuel with
  | O => diverge
  | Datatypes.S f =>
      let! addr := bmap ip (off / BSIZE) in
      if addr =? 0 then ret (tot, acc) else
      let! d := geti ip i_dev in
      let! bp := fbread d addr in
      let m := Z.min (n - tot) (BSIZE - off mod BSIZE) in
      let! b := fget bp in
      let l := bytes_of b (off mod BSIZE) (Z.to_nat m) in
      let! r := put tot l in
      if r =? -1 then do! fbrelse bp in ret (-1, acc) else
      do! fbrelse bp in
      readi_loop f put ip (u32 (off + m)) n (tot + m) (acc ++ l)
  end.

Definition readi (put : Z -> list Z -> M (fs S) Z) (ip : nat) (off n : Z) : M (fs S) (Z * list Z) :=
  let! size := geti ip isize in
  if (size <? off) || (u32 (off + n) <? off) then ret (0, []) else
  let n := if size <? u32 (off + n) then size - off else n in
  readi_loop (Z.to_nat (n + 1)) put ip off n 0 [].

(** The loop of [writei].  [fetch tot m] is the [either_copyin] of [m] bytes from
    [src + tot], with the bytes that reached the buffer; a failed copy may have stored some. *)
Fixpoint writei_loop (fuel : nat) (fetch : Z -> Z -> M (fs S) (Z * list Z)) (ip : nat) (off n tot : Z) :
    M (fs S) (Z * Z) :=
  if negb (tot <? n) then ret (tot, off) else
  match fuel with
  | O => diverge
  | Datatypes.S f =>
      let! addr := bmap ip (off / BSIZE) in
      if addr =? 0 then ret (tot, off) else
      let! d := geti ip i_dev in
      let! bp := fbread d addr in
      let m := Z.min (n - tot) (BSIZE - off mod BSIZE) in
      let! r := fetch tot m in
      let! b := fget bp in
      do! fset_data bp (put_bytes b (off mod BSIZE) r.2) in
      if r.1 =? -1 then do! fbrelse bp in ret (tot, off) else
      do! flog_write bp in
      do! fbrelse bp in
      writei_loop f fetch ip (u32 (off + m)) n (tot + m)
  end.

Definition writei (fetch : Z -> Z -> M (fs S) (Z * list Z)) (ip : nat) (off n : Z) : M (fs S) Z :=
  let! size := geti ip isize in
  if (size <? off) || (u32 (off + n) <? off) then ret (-1) else
  if MAXFILE * BSIZE <? u32 (off + n) then ret (-1) else
  let! r := writei_loop (Z.to_nat (n + 1)) fetch ip off n 0 in
  do! (if size <? r.2 then modi ip (set_size r.2) else ret tt) in
  do! iupdate ip in
  ret r.1.

(** *** Directories *)

(** [readi] into and [writei] from a kernel buffer. *)
Definition readi_kernel (ip : nat) (off n : Z) : M (fs S) (Z * list Z) := readi (fun _ _ => ret 0) ip off n.
Definition writei_kernel (ip : nat) (src : list Z) (off n : Z) : M (fs S) Z :=
  writei (fun tot m => ret (0, take (Z.to_nat m) (drop (Z.to_nat tot) src))) ip off n.

(** [namecmp]: [strncmp] of two names on at most [DIRSIZ] characters. *)
Fixpoint strncmp_list (n : nat) (p q : list Z) : Z :=
  match n with
  | O => 0
  | Datatypes.S n' =>
      let a := List.hd 0 p in let b := List.hd 0 q in
      if negb (a =? 0) && (a =? b) then strncmp_list n' (List.tl p) (List.tl q) else u8 a - u8 b
  end.
Definition namecmp (s t : list Z) : Z := strncmp_list (Z.to_nat DIRSIZ) s t.

(** [struct dirent] as bytes. *)
Definition de_inum (de : list Z) : Z := u8 (nth 0 de 0) + 256 * u8 (nth 1 de 0).
Definition de_name (de : list Z) : list Z := drop 2 de.

(** The loop of [dirlookup] from offset [off]: the entry found, and its offset. *)
Fixpoint dirlookup_loop (fuel : nat) (dp : nat) (name : list Z) (off : Z) : M (fs S) (option (nat * Z)) :=
  let! size := geti dp isize in
  if negb (off <? size) then ret None else
  match fuel with
  | O => diverge
  | Datatypes.S f =>
      let! r := readi_kernel dp off dirent_size in
      if negb (r.1 =? dirent_size) then panic "dirlookup read" else
      let de := r.2 in
      if de_inum de =? 0 then dirlookup_loop f dp name (u32 (off + dirent_size)) else
      if namecmp name (de_name de) =? 0 then
        let! d := geti dp i_dev in
        let! ip := iget d (de_inum de) in
        ret (Some (ip, off))
      else dirlookup_loop f dp name (u32 (off + dirent_size))
  end.

Definition dirlookup (dp : nat) (name : list Z) : M (fs S) (option (nat * Z)) :=
  let! ty := geti dp i_type in
  if negb (ty =? T_DIR) then panic "dirlookup not DIR" else
  let! size := geti dp isize in
  dirlookup_loop (Z.to_nat (size / dirent_size + 1)) dp name 0.

(** The search of [dirlink] for an empty entry. *)
Fixpoint dirlink_loop (fuel : nat) (dp : nat) (off : Z) : M (fs S) Z :=
  let! size := geti dp isize in
  if negb (off <? size) then ret off else
  match fuel with
  | O => diverge
  | Datatypes.S f =>
      let! r := readi_kernel dp off dirent_size in
      if negb (r.1 =? dirent_size) then panic "dirlink read" else
      if de_inum r.2 =? 0 then ret off else dirlink_loop f dp (off + dirent_size)
  end.

(** [strncpy(de.name, name, DIRSIZ)]: the characters up to the NUL, then NULs. *)
Fixpoint strncpy_list (n : nat) (src : list Z) : list Z :=
  match n with
  | O => []
  | Datatypes.S n' =>
      let c := List.hd 0 src in
      if c =? 0 then replicate n 0 else c :: strncpy_list n' (List.tl src)
  end.

Definition mk_dirent (inum : Z) (name : list Z) : list Z :=
  u8 inum :: u8 (inum / 256) :: strncpy_list (Z.to_nat DIRSIZ) name.

Definition dirlink (dp : nat) (name : list Z) (inum : Z) : M (fs S) Z :=
  let! r := dirlookup dp name in
  match r with
  | Some (ip, _) => do! iput ip in ret (-1)
  | None =>
      let! size := geti dp isize in
      let! off := dirlink_loop (Z.to_nat (size / dirent_size + 1)) dp 0 in
      let! w := writei_kernel dp (mk_dirent inum name) off dirent_size in
      if negb (w =? dirent_size) then ret (-1) else ret 0
  end.

End Code.

(** *** Path names *)

(** Paths and names are NUL-terminated; a list holds the characters before the NUL. *)
Fixpoint skip_slashes (path : list Z) : list Z :=
  match path with
  | c :: path' => if c =? 47 then skip_slashes path' else path
  | [] => []
  end.

(** The characters up to the next slash, and the rest. *)
Fixpoint take_elem (path : list Z) : list Z * list Z :=
  match path with
  | c :: path' => if c =? 47 then ([], path) else let '(e, r) := take_elem path' in (c :: e, r)
  | [] => ([], [])
  end.

(** [skipelem]: the rest of the path and the name, cut at [DIRSIZ] characters. *)
Definition skipelem (path : list Z) : option (list Z * list Z) :=
  match skip_slashes path with
  | [] => None
  | p => let '(e, r) := take_elem p in Some (skip_slashes r, take (Z.to_nat DIRSIZ) e)
  end.

Section Names.
Context {S : Type} `{Cache S} (me : Z).

(** The loop of [namex]: at most [fuel] path elements. *)
Fixpoint namex_loop (fuel : nat) (ip : nat) (path : list Z) (nameiparent : bool) (name : list Z) :
    M (fs S) (option nat * list Z) :=
  match skipelem path with
  | None =>
      if nameiparent then do! iput me ip in ret (None, name) else ret (Some ip, name)
  | Some (path', name') =>
      match fuel with
      | O => diverge
      | Datatypes.S f =>
          do! ilock me (Some ip) in
          let! ty := geti ip i_type in
          if negb (ty =? T_DIR) then do! iunlockput me ip in ret (None, name') else
          if nameiparent && bool_decide (path' = []) then
            do! iunlock me (Some ip) in ret (Some ip, name')
          else
          let! next := dirlookup ip name' in
          match next with
          | None => do! iunlockput me ip in ret (None, name')
          | Some (n, _) => do! iunlockput me ip in namex_loop f n path' nameiparent name'
          end
      end
  end.

(** [namex], for a process whose current directory is [cwd]. *)
Definition namex (cwd : nat) (path : list Z) (nameiparent : bool) : M (fs S) (option nat * list Z) :=
  let! ip := (if bool_decide (List.hd 0 path = 47) then iget ROOTDEV ROOTINO else idup cwd) in
  namex_loop (length path) ip path nameiparent [].

Definition namei (cwd : nat) (path : list Z) : M (fs S) (option nat) :=
  let! r := namex cwd path false in ret r.1.

Definition nameiparent (cwd : nat) (path : list Z) : M (fs S) (option nat * list Z) :=
  namex cwd path true.

End Names.
