(* ===== verification/FsBlock.v ===== *)
(** * FsBlock: what the file system code does to blocks

    The lemmas behind the theorems on [fs.c]: bits of the bitmap, running code inside an open
    operation ([fview]: the contents of all blocks, the buffers held, the blocks logged so
    far), the block allocator, the block map of a file, reading its contents, and searching a
    directory. *)

From stdpp Require Import base list gmap sets strings.
From Stdlib Require Import ZArith Lia.
From S2P Require Import Prelude Riscv Mem Spinlock Bio Log Fs.

(** ** Bits *)

Lemma bit_set_testbit b bi : 0 <= bi -> bit_set b bi = Z.testbit (b (bi / 8)) (bi mod 8).
Proof.
  intros Hb. unfold bit_set. rewrite Z.shiftl_1_l. apply has_pow2. apply Z.mod_pos_bound. lia.
Qed.

Lemma same_bit i j : i / 8 = j / 8 -> i mod 8 = j mod 8 -> i = j.
Proof. intros H1 H2. rewrite (Z.div_mod i 8), (Z.div_mod j 8), H1, H2 by lia. done. Qed.

Lemma mark_bit_spec b i j : 0 <= i -> 0 <= j -> bit_set (mark_bit b i) j = (i =? j) || bit_set b j.
Proof.
  intros Hi Hj. rewrite !bit_set_testbit by done. unfold mark_bit, upd.
  pose proof (Z.mod_pos_bound i 8 ltac:(lia)). pose proof (Z.mod_pos_bound j 8 ltac:(lia)).
  destruct (Z.eqb_spec (j / 8) (i / 8)) as [E|E].
  - rewrite Z.lor_spec, Z.shiftl_1_l, Z.pow2_bits_eqb, E by lia.
    destruct (Z.eqb_spec (i mod 8) (j mod 8)) as [E'|E']; destruct (Z.eqb_spec i j) as [->|Hij]; simpl; try done.
    + by rewrite orb_true_r.
    + exfalso. by apply Hij, same_bit.
    + by rewrite orb_false_r.
  - destruct (Z.eqb_spec i j) as [->|]; done.
Qed.

Lemma clear_bit_spec b i j : 0 <= i -> 0 <= j -> bit_set (clear_bit b i) j = negb (i =? j) && bit_set b j.
Proof.
  intros Hi Hj. rewrite !bit_set_testbit by done. unfold clear_bit, upd.
  pose proof (Z.mod_pos_bound i 8 ltac:(lia)). pose proof (Z.mod_pos_bound j 8 ltac:(lia)).
  destruct (Z.eqb_spec (j / 8) (i / 8)) as [E|E].
  - unfold u8. rewrite Z.land_spec, Z.mod_pow2_bits_low, Z.lnot_spec, Z.shiftl_1_l, Z.pow2_bits_eqb, E by lia.
    destruct (Z.eqb_spec (i mod 8) (j mod 8)) as [E'|E']; destruct (Z.eqb_spec i j) as [->|Hij]; simpl; try done.
    + by rewrite andb_false_r.
    + exfalso. by apply Hij, same_bit.
    + by rewrite andb_true_r.
  - destruct (Z.eqb_spec i j) as [->|]; done.
Qed.

Lemma find_bit_spec n bi lim b :
  match find_bit n bi lim b with
  | Some r => bi <= r < bi + Z.of_nat n /\ r < lim /\ bit_set b r = false /\ forall j, bi <= j < r -> bit_set b j = true
  | None => forall j, bi <= j < bi + Z.of_nat n -> j < lim -> bit_set b j = true
  end.
Proof.
  revert bi. induction n as [|n IH]; intros bi; cbn [find_bit]; [lia |].
  destruct (Z.ltb_spec bi lim) as [Hl|Hl]; cbn [negb]; [| lia].
  destruct (bit_set b bi) eqn:Eb; cbn [negb].
  - specialize (IH (bi + 1)). destruct (find_bit n (bi + 1) lim b) as [r|].
    + destruct IH as (H1 & H2 & H3 & H4). split_and!; [lia | lia | done | done |].
      intros j Hj. destruct (decide (j = bi)) as [->|]; [done | apply H4; lia].
    + intros j Hj Hjl. destruct (decide (j = bi)) as [->|]; [done | apply IH; lia].
  - split_and!; [lia | lia | done | done | lia].
Qed.

(** ** Reasoning about blocks inside an operation *)

Section Theory.
Context {S : Type} {CS : Cache S} {CO : CacheOk S}.

Definition with_log (l : log S) (s : fs S) : fs S := mkfs l (sb s) (itable s).

(** At least [o] operations are open, the block contents are [V], the caller holds the buffers
    [H], the transaction so far consists of [bs].  The log lies where the super block says. *)
Record fsv (o : Z) (s : fs S) (V : Z -> block) (H : gmap Z nat) (bs : list Z) (a : acache) : Prop := {
  v_txn : txn (flog s) a bs;
  v_view : forall x, a_view a x = V x;
  v_held : a_held a = H;
  v_clean : forall x, x ∉ bs -> a_view a x = a_disk a x;
  v_out : o <= outstanding (flog s);
  v_size : lsize (flog s) = LOGSIZE;
  v_start : lstart (flog s) = logstart (sb s);
}.

Definition fviewo (o : Z) (s : fs S) (V : Z -> block) (H : gmap Z nat) (bs : list Z) : Prop := exists a, fsv o s V H bs a.

(** Inside an open operation. *)
Definition fview : fs S -> (Z -> block) -> gmap Z nat -> list Z -> Prop := fviewo 1.

(** A block outside the log. *)
Definition home (sbl : superblock) (b : Z) : Prop := 0 <= b < 2 ^ 31 /\ ~ in_log (logstart sbl) b.

Lemma fview_ext s V W H bs : (forall x, V x = W x) -> fview s V H bs -> fview s W H bs.
Proof. intros E (a & [? Hv ? ? ? ? ?]). exists a. split; try done. intros x. by rewrite Hv. Qed.

Lemma on_log_ok {A} (m : M (log S) A) s x l : m (flog s) = Ok (x, l) -> on_log m s = Ok (x, with_log l s).
Proof. intros E. unfold on_log. by rewrite E. Qed.

Lemma fsv_cache o s V H bs a c H' a' :
  fsv o s V H bs a -> rep c a' -> a_pinned a' = a_pinned a -> a_disk a' = a_disk a -> a_view a' = a_view a ->
  a_held a' = H' -> fsv o (with_log (with_cache c (flog s)) s) V H' bs a'.
Proof.
  intros [T Hv Hh Hc Ho Hs Hst] R Hp Hd Hv' Hh'. split; try done.
  - destruct T. split; try done; cbn [with_log flog with_cache lcache lstart] in *; congruence.
  - intros x. by rewrite Hv'.
  - intros x Hx. rewrite Hv', Hd. by apply Hc.
Qed.

Lemma fbread_any o s V H bs b :
  fviewo o s V H bs -> 0 <= b < 2 ^ 32 -> H !! b = None -> (length bs + base.size H < NBUF)%nat ->
  exists h l, fbread ROOTDEV b s = Ok (h, with_log l s) /\ fviewo o (with_log l s) V (<[b := h]> H) bs.
Proof.
  intros (a & F) Hb Hn Hsz. pose proof (v_txn _ _ _ _ _ _ F) as T.
  destruct (bread_ok (lcache (flog s)) a b (tx_rep _ _ _ T)) as (h & c & E & R).
  { by rewrite (v_held _ _ _ _ _ _ F). }
  { apply size_add. unfold busy. rewrite (v_held _ _ _ _ _ _ F), (tx_pin _ _ _ T).
    pose proof (size_union_alt (list_to_set bs : gset Z) (dom H)) as Hu.
    assert (base.size (dom H ∖ list_to_set bs) <= base.size (dom H))%nat by (apply subseteq_size; set_solver).
    rewrite size_list_to_set in Hu by apply T. rewrite size_dom in *. lia. }
  exists h, (with_cache c (flog s)). split.
  - unfold fbread. apply on_log_ok. rewrite !u32_small by (done || lia). by eapply on_cache_ok.
  - exists (a_hold b h a). eapply fsv_cache; try done. cbn. by rewrite (v_held _ _ _ _ _ _ F).
Qed.

Lemma fbread_ok s V H bs b :
  fview s V H bs -> 0 <= b < 2 ^ 32 -> H !! b = None -> (length bs + base.size H < NBUF)%nat ->
  exists h l, fbread ROOTDEV b s = Ok (h, with_log l s) /\ fview (with_log l s) V (<[b := h]> H) bs.
Proof. apply fbread_any. Qed.

Lemma fget_any o s V H bs b h : fviewo o s V H bs -> H !! b = Some h ->
  exists v, fget h s = Ok (v, s) /\ v = V b.
Proof.
  intros (a & F) Hh. rewrite <- (v_held _ _ _ _ _ _ F) in Hh.
  pose proof (get_ok _ a b h (tx_rep _ _ _ (v_txn _ _ _ _ _ _ F)) Hh) as E.
  exists (a_view a b). split; [| apply F]. unfold fget. erewrite on_log_ok by (by eapply on_cache_ok).
  destruct s as [[] ? ?]. reflexivity.
Qed.

Lemma fget_ok s V H bs b h : fview s V H bs -> H !! b = Some h ->
  exists v, fget h s = Ok (v, s) /\ v = V b.
Proof. apply fget_any. Qed.

(** [b->data] changed and logged. *)
Lemma fmod_ok {B} s V H bs b h v (k : M (fs S) B) : fview s V H bs -> H !! b = Some h -> home (sb s) b ->
  (length bs < Z.to_nat LOGSIZE - 1)%nat ->
  exists l, (do! fset_data h v in do! flog_write h in k) s = k (with_log l s) /\
    fview (with_log l s) (zset V b v) H (logged b bs).
Proof.
  intros (a & F) Hh [Hb Hnl] Hlen. pose proof (v_held _ _ _ _ _ _ F) as Eh. rewrite <- Eh in Hh.
  pose proof (v_txn _ _ _ _ _ _ F) as T. pose proof (v_size _ _ _ _ _ _ F) as Hs.
  destruct (set_ok _ a b h v (tx_rep _ _ _ T) Hh) as (c & E & R).
  set (l1 := with_cache c (flog s)).
  assert (txn l1 (a_set b v a) bs) as T1 by (unfold l1; destruct (flog s), T; by split).
  destruct (log_write_ok l1 (a_set b v a) bs b h T1 Hh Hb) as (l & a' & E' & T' & H1 & H2 & H3 & H4 & H5 & H6 & H7 & H8).
  { unfold l1. cbn. by rewrite (v_start _ _ _ _ _ _ F). }
  { apply (v_out _ _ _ _ _ _ F). }
  { cbn. lia. }
  { cbn. rewrite Hs. unfold LOGSIZE, MAXOPBLOCKS in *. lia. }
  exists l. split.
  - erewrite bind_ok by (unfold fset_data; apply on_log_ok; by eapply on_cache_ok).
    erewrite bind_ok by (unfold flog_write; apply on_log_ok; exact E'). done.
  - exists a'. split; try done; cbn [with_log flog sb].
    + intros x. rewrite H2. cbn. unfold zset. destruct (x =? b); [done | apply F].
    + by rewrite H1.
    + intros x Hx. assert (x <> b /\ x ∉ bs) as [Hxb Hxs] by (unfold logged in Hx; case_bool_decide; set_solver).
      rewrite H2, H3. cbn. rewrite zset_ne by done. by apply F.
    + rewrite H7. apply F.
    + by rewrite H6.
    + rewrite H5. apply F.
Qed.

Lemma fmod_run s V H bs b h v : fview s V H bs -> H !! b = Some h -> home (sb s) b ->
  (length bs < Z.to_nat LOGSIZE - 1)%nat ->
  exists l, bind (fset_data h v) (fun _ => flog_write h) s = Ok (tt, with_log l s) /\
    fview (with_log l s) (zset V b v) H (logged b bs).
Proof.
  intros F Hh Hb Hl. destruct (fmod_ok s V H bs b h v (ret tt) F Hh Hb Hl) as (l & E & F'). exists l. split; [| done].
  change (ret tt (with_log l s)) with (Ok (tt, with_log l s)) in E. rewrite <- E. unfold bind.
  destruct (fset_data h v s) as [[? s1]| |]; try done. by destruct (flog_write h s1) as [[[] ?]| |].
Qed.

Lemma fbrelse_any o s V H bs b h : fviewo o s V H bs -> H !! b = Some h ->
  exists l, fbrelse h s = Ok (tt, with_log l s) /\ fviewo o (with_log l s) V (delete b H) bs.
Proof.
  intros (a & F) Hh. pose proof (v_held _ _ _ _ _ _ F) as Eh. rewrite <- Eh in Hh. pose proof (v_txn _ _ _ _ _ _ F) as T.
  destruct (brelse_ok _ a b h (tx_rep _ _ _ T) Hh) as (c & E & R).
  { destruct (decide (b ∈ bs)) as [Hb|Hb]; [left | right; by apply F].
    rewrite (tx_pin _ _ _ T). by apply elem_of_list_to_set. }
  eexists. split; [unfold fbrelse; apply on_log_ok; by eapply on_cache_ok |].
  exists (a_unhold b a). eapply fsv_cache; try done. cbn. by rewrite Eh.
Qed.

Lemma fbrelse_ok s V H bs b h : fview s V H bs -> H !! b = Some h ->
  exists l, fbrelse h s = Ok (tt, with_log l s) /\ fview (with_log l s) V (delete b H) bs.
Proof. apply fbrelse_any. Qed.

(** ** The block allocator *)

(** The bitmap's idea of block [b]. *)
Definition used (sbl : superblock) (V : Z -> block) (b : Z) : bool := bit_set (V (BBLOCK b sbl)) (b mod BPB).

(** Where the super block puts the bitmap: outside the log, in distinct blocks; a block that
    the bitmap calls free is neither part of the log nor of the bitmap; the boot block is
    not free. *)
Record geom (sbl : superblock) (V : Z -> block) : Prop := {
  g_size : 0 <= sb_size sbl < 2 ^ 31;
  g_bmap : 0 <= bmapstart sbl /\ bmapstart sbl + sb_size sbl / BPB < 2 ^ 31;
  g_map : forall b, 0 <= b < sb_size sbl -> home sbl (BBLOCK b sbl);
  g_free : forall b, 0 <= b < sb_size sbl -> used sbl V b = false ->
    home sbl b /\ forall c, 0 <= c < sb_size sbl -> b <> BBLOCK c sbl;
  g_boot : used sbl V 0 = true;
}.

Lemma BBLOCK_group (s : fs S) V b : geom (sb s) V -> 0 <= b < sb_size (sb s) -> BBLOCK b (sb s) = b / BPB + bmapstart (sb s).
Proof.
  intros G Hb. unfold BBLOCK. apply u32_small. pose proof (g_bmap _ _ G).
  assert (b / BPB <= sb_size (sb s) / BPB) by (apply Z.div_le_mono; unfold BPB, BSIZE; lia).
  pose proof (Z.div_pos b BPB). unfold BPB, BSIZE in *. lia.
Qed.

Lemma block_split b : b = BPB * (b / BPB) + b mod BPB /\ 0 <= b mod BPB < BPB.
Proof. split; [apply Z.div_mod; done | apply Z.mod_pos_bound; done]. Qed.

(** Marking block [b] changes the state of [b] only. *)
Lemma used_mark (s : fs S) V b c (set : bool) : geom (sb s) V -> 0 <= b < sb_size (sb s) -> 0 <= c < sb_size (sb s) ->
  let m := V (BBLOCK b (sb s)) in
  used (sb s) (zset V (BBLOCK b (sb s)) (if set then mark_bit m (b mod BPB) else clear_bit m (b mod BPB))) c =
  if b =? c then set else used (sb s) V c.
Proof.
  intros G Hb Hc m. unfold used. destruct (block_split b) as [Eb Hbm]. destruct (block_split c) as [Ec Hcm].
  unfold zset. destruct (Z.eqb_spec (BBLOCK c (sb s)) (BBLOCK b (sb s))) as [E|E].
  - rewrite (BBLOCK_group s V b), (BBLOCK_group s V c) in E by done.
    destruct set; [rewrite mark_bit_spec by lia | rewrite clear_bit_spec by lia];
      destruct (Z.eqb_spec (b mod BPB) (c mod BPB)) as [E'|E']; destruct (Z.eqb_spec b c) as [->|Hbc]; simpl; try done;
      try (exfalso; apply Hbc; rewrite Eb, Ec; f_equal; [f_equal; lia | done]);
      by (unfold m; rewrite (BBLOCK_group s V b), (BBLOCK_group s V c), E by done).
  - destruct (Z.eqb_spec b c) as [->|]; done.
Qed.

(** Held buffers that [balloc] does not touch. *)
Definition apart_from_map (sbl : superblock) (V : Z -> block) (H : gmap Z nat) : Prop :=
  forall c, 0 <= c < sb_size sbl -> H !! BBLOCK c sbl = None /\ (used sbl V c = false -> H !! c = None).

Lemma logged_length b bs : (length (logged b bs) <= Datatypes.S (length bs))%nat.
Proof. unfold logged. case_bool_decide; [lia |]. rewrite length_app. simpl. lia. Qed.

Lemma bzero_ok s V H bs b :
  fview s V H bs -> home (sb s) b -> H !! b = None -> (length bs < Z.to_nat LOGSIZE - 1)%nat ->
  (length bs + base.size H < NBUF)%nat ->
  exists l, bzero ROOTDEV b s = Ok (tt, with_log l s) /\
    fview (with_log l s) (zset V b (memset (V b) 0 0 BSIZE)) H (logged b bs).
Proof.
  intros F Hb Hn Hl Hsz. pose proof Hb as [Hr _]. unfold bzero.
  destruct (fbread_ok s V H bs b F ltac:(lia) Hn Hsz) as (h & l1 & E1 & F1). rewrite (bind_ok _ _ _ _ _ E1).
  assert (<[b := h]> H !! b = Some h) as Hh by apply lookup_insert_eq.
  destruct (fget_ok _ _ _ _ b h F1 Hh) as (v & E2 & ->). rewrite (bind_ok _ _ _ _ _ E2).
  destruct (fmod_ok (with_log l1 s) V _ bs b h (memset (V b) 0 0 BSIZE) (fbrelse h) F1 Hh Hb Hl) as (l2 & -> & F2).
  destruct (fbrelse_ok _ _ _ _ b h F2 Hh) as (l3 & E3 & F3). exists l3. split; [exact E3 |].
  rewrite delete_insert_id in F3 by done. exact F3.
Qed.

(** The contents after [balloc] has returned [b]. *)
Definition allocated (sbl : superblock) (V : Z -> block) (b : Z) : Z -> block :=
  zset (zset V (BBLOCK b sbl) (mark_bit (V (BBLOCK b sbl)) (b mod BPB))) b (memset (V b) 0 0 BSIZE).

(** No block is free. *)
Definition full (sbl : superblock) (V : Z -> block) : Prop := forall c, 0 <= c < sb_size sbl -> used sbl V c = true.

Lemma allocated_zero sbl V b x : 0 <= x < BSIZE -> allocated sbl V b b x = 0.
Proof. intros Hx. unfold allocated. rewrite zset_eq. unfold memset. by rewrite (proj2 (in_range_spec 0 BSIZE x)) by lia. Qed.

Definition balloc_post (s : fs S) (V : Z -> block) (H : gmap Z nat) (bs : list Z) (r : Z) (l : log S) : Prop :=
  (r = 0 /\ fview (with_log l s) V H bs /\ full (sb s) V) \/
  (0 <= r < sb_size (sb s) /\ used (sb s) V r = false /\ (forall c, 0 <= c < r -> used (sb s) V c = true) /\
   fview (with_log l s) (allocated (sb s) V r) H (logged r (logged (BBLOCK r (sb s)) bs))).

Lemma balloc_loop_ok n s V H bs k :
  fview s V H bs -> geom (sb s) V -> apart_from_map (sb s) V H ->
  (length bs + 2 < Z.to_nat LOGSIZE)%nat -> (length bs + 1 + base.size H < NBUF)%nat ->
  0 <= k -> sb_size (sb s) / BPB < k + Z.of_nat n ->
  (forall c, 0 <= c < BPB * k -> c < sb_size (sb s) -> used (sb s) V c = true) ->
  exists r l, balloc_loop n ROOTDEV (BPB * k) s = Ok (r, with_log l s) /\ balloc_post s V H bs r l.
Proof.
  revert s k. induction n as [|n IH]; intros s k F G A Hl Hsz Hk Hn Hused; cbn [balloc_loop]; rewrite bind_gets.
  - destruct (Z.ltb_spec (BPB * k) (sb_size (sb s))) as [Hlt|Hge]; cbn [negb].
    + exfalso. assert (k <= sb_size (sb s) / BPB) by (apply Z.div_le_lower_bound; [done | lia]). lia.
    + exists 0, (flog s). split; [by destruct s |]. left. split_and!; [done | by destruct s |]. intros c Hc. apply Hused; lia.
  - destruct (Z.ltb_spec (BPB * k) (sb_size (sb s))) as [Hlt|Hge]; cbn [negb].
    2:{ exists 0, (flog s). split; [by destruct s |]. left. split_and!; [done | by destruct s |]. intros c Hc. apply Hused; lia. }
    assert (0 <= BPB * k) as Hk0 by (unfold BPB, BSIZE; lia).
    assert (forall bi, 0 <= bi < BPB -> BPB * k + bi < sb_size (sb s) ->
      BBLOCK (BPB * k + bi) (sb s) = BBLOCK (BPB * k) (sb s) /\ (BPB * k + bi) mod BPB = bi) as Hgrp.
    { intros bi Hbi Hs. rewrite (BBLOCK_group s V), (BBLOCK_group s V) by (done || lia).
      rewrite (Z.add_comm (BPB * k)), (Z.mul_comm BPB k), Z.div_add, Z.mod_add, Z.div_small, Z.mod_small, Z.div_mul by done. done. }
    set (mb := BBLOCK (BPB * k) (sb s)). destruct (g_map _ _ G (BPB * k) ltac:(lia)) as [Hmb Hmbl]. fold mb in Hmb, Hmbl.
    destruct (A (BPB * k) ltac:(lia)) as [Hmh _]. fold mb in Hmh.
    destruct (fbread_ok s V H bs mb F ltac:(lia) Hmh ltac:(lia)) as (h & l1 & E1 & F1). rewrite (bind_ok _ _ _ _ _ E1).
    assert (<[mb := h]> H !! mb = Some h) as Hh by apply lookup_insert_eq.
    destruct (fget_ok _ _ _ _ mb h F1 Hh) as (v & E2 & ->). rewrite (bind_ok _ _ _ _ _ E2).
    pose proof (find_bit_spec (Z.to_nat BPB) 0 (sb_size (sb s) - BPB * k) (V mb)) as Hf.
    rewrite Z.add_0_l, Z2Nat.id in Hf by done.
    destruct (find_bit (Z.to_nat BPB) 0 (sb_size (sb s) - BPB * k) (V mb)) as [bi|].
    + destruct Hf as (Hbi & Hbs & Hfree & Hbelow). set (b := BPB * k + bi).
      destruct (Hgrp bi Hbi ltac:(lia)) as [Eg Em]. fold b in Eg, Em.
      assert (used (sb s) V b = false) as Hub by (unfold used; rewrite Eg, Em; exact Hfree).
      destruct (g_free _ _ G b ltac:(lia) Hub) as [Hhome Hnm].
      destruct (fmod_ok (with_log l1 s) V _ bs mb h (mark_bit (V mb) bi)
        (do! fbrelse h in do! bzero ROOTDEV b in ret b) F1 Hh (conj Hmb Hmbl) ltac:(lia)) as (l2 & E3 & F2).
      rewrite E3. clear E3.
      destruct (fbrelse_ok _ _ _ _ mb h F2 Hh) as (l3 & E3 & F3). rewrite delete_insert_id in F3 by done.
      rewrite (bind_ok _ _ _ _ _ E3). pose proof (logged_length mb bs) as Hll.
      destruct (bzero_ok _ _ _ _ b F3 Hhome) as (l4 & E4 & F4); [apply A; [lia | done] | lia | lia |].
      rewrite (bind_ok _ _ _ _ _ E4). exists b, l4. split; [done |]. right.
      split_and!; [lia | lia | done | |].
      * intros c Hc. destruct (decide (c < BPB * k)); [apply Hused; lia |].
        destruct (Hgrp (c - BPB * k) ltac:(lia) ltac:(lia)) as [Egc Emc].
        replace (BPB * k + (c - BPB * k)) with c in Egc, Emc by lia.
        unfold used. rewrite Egc, Emc. apply Hbelow. lia.
      * assert (b <> mb) as Hbm by (unfold mb; rewrite <- Eg; apply Hnm; lia).
        unfold allocated. rewrite Eg, Em. fold mb. rewrite (zset_ne V mb _ b Hbm) in F4. exact F4.
    + destruct (fbrelse_ok _ _ _ _ mb h F1 Hh) as (l3 & E3 & F3). rewrite delete_insert_id in F3 by done.
      rewrite (bind_ok _ _ _ _ _ E3). replace (BPB * k + BPB) with (BPB * (k + 1)) by lia.
      destruct (IH (with_log l3 s) (k + 1)) as (r & l & E & P); try done.
      * lia.
      * change (sb (with_log l3 s)) with (sb s). lia.
      * change (sb (with_log l3 s)) with (sb s). intros c Hc Hcs. destruct (decide (c < BPB * k)); [apply Hused; lia |].
        destruct (Hgrp (c - BPB * k) ltac:(lia) ltac:(lia)) as [Egc Emc].
        replace (BPB * k + (c - BPB * k)) with c in Egc, Emc by lia.
        unfold used. rewrite Egc, Emc. apply Hf; lia.
      * exists r, l. split; [exact E | exact P].
Qed.

Lemma balloc_ok s V H bs :
  fview s V H bs -> geom (sb s) V -> apart_from_map (sb s) V H ->
  (length bs + 2 < Z.to_nat LOGSIZE)%nat -> (length bs + 1 + base.size H < NBUF)%nat ->
  exists r l, balloc ROOTDEV s = Ok (r, with_log l s) /\ balloc_post s V H bs r l.
Proof.
  intros F G A Hl Hsz. unfold balloc. rewrite bind_gets. change 0 with (BPB * 0).
  pose proof (g_size _ _ G). pose proof (Z.div_pos (sb_size (sb s)) BPB ltac:(lia) ltac:(done)).
  apply balloc_loop_ok; try done; lia.
Qed.

Lemma bfree_ok s V H bs b :
  fview s V H bs -> geom (sb s) V -> 0 <= b < sb_size (sb s) -> H !! BBLOCK b (sb s) = None ->
  (length bs + 1 < Z.to_nat LOGSIZE)%nat -> (length bs + base.size H < NBUF)%nat ->
  if used (sb s) V b then
    exists l, bfree ROOTDEV b s = Ok (tt, with_log l s) /\
      fview (with_log l s) (zset V (BBLOCK b (sb s)) (clear_bit (V (BBLOCK b (sb s))) (b mod BPB))) H
        (logged (BBLOCK b (sb s)) bs)
  else bfree ROOTDEV b s = Panic "freeing free block".
Proof.
  intros F G Hb Hn Hl Hsz. unfold bfree. rewrite bind_gets. set (mb := BBLOCK b (sb s)) in *.
  destruct (g_map _ _ G b Hb) as [Hmb Hmbl]. fold mb in Hmb, Hmbl.
  destruct (fbread_ok s V H bs mb F ltac:(lia) Hn ltac:(lia)) as (h & l1 & E1 & F1). rewrite (bind_ok _ _ _ _ _ E1).
  assert (<[mb := h]> H !! mb = Some h) as Hh by apply lookup_insert_eq.
  destruct (fget_ok _ _ _ _ mb h F1 Hh) as (v & E2 & ->). rewrite (bind_ok _ _ _ _ _ E2).
  unfold used. fold mb. destruct (bit_set (V mb) (b mod BPB)); cbn [negb]; [| done].
  destruct (fmod_ok (with_log l1 s) V _ bs mb h (clear_bit (V mb) (b mod BPB)) (fbrelse h) F1 Hh (conj Hmb Hmbl) ltac:(lia))
    as (l2 & -> & F2).
  destruct (fbrelse_ok _ _ _ _ mb h F2 Hh) as (l3 & E3 & F3). exists l3. split; [exact E3 |].
  by rewrite delete_insert_id in F3.
Qed.

(** Marking keeps the geometry, for any block of the file system. *)
Lemma geom_allocated (s : fs S) V b :
  geom (sb s) V -> 0 <= b < sb_size (sb s) -> used (sb s) V b = false ->
  geom (sb s) (allocated (sb s) V b) /\
  forall c, 0 <= c < sb_size (sb s) -> used (sb s) (allocated (sb s) V b) c = (b =? c) || used (sb s) V c.
Proof.
  intros G Hb Hu. destruct (g_free _ _ G b Hb Hu) as [_ Hnm].
  assert (forall c, 0 <= c < sb_size (sb s) -> used (sb s) (allocated (sb s) V b) c = (b =? c) || used (sb s) V c) as Hall.
  { intros c Hc. unfold allocated. unfold used at 1. rewrite zset_ne by (intros E; by apply (Hnm c Hc)).
    change (bit_set (zset V (BBLOCK b (sb s)) (mark_bit (V (BBLOCK b (sb s))) (b mod BPB)) (BBLOCK c (sb s))) (c mod BPB))
      with (used (sb s) (zset V (BBLOCK b (sb s)) (mark_bit (V (BBLOCK b (sb s))) (b mod BPB))) c).
    rewrite (used_mark s V b c true) by done. by destruct (b =? c). }
  split; [| done]. split; try apply G.
  - intros c Hc Hcu. rewrite Hall in Hcu by done. apply orb_false_iff in Hcu as [_ Hcu]. by apply (g_free _ _ G).
  - rewrite Hall, (g_boot _ _ G) by lia. apply orb_true_r.
Qed.

(** [balloc] as its callers use it: 0 and nothing changed, or a fresh block. *)
Lemma balloc_fresh s V H bs :
  fview s V H bs -> geom (sb s) V -> apart_from_map (sb s) V H ->
  (length bs + 2 < Z.to_nat LOGSIZE)%nat -> (length bs + 1 + base.size H < NBUF)%nat ->
  exists r l, balloc ROOTDEV s = Ok (r, with_log l s) /\
    ((r = 0 /\ fview (with_log l s) V H bs /\ full (sb s) V) \/
     (0 < r < sb_size (sb s) /\ used (sb s) V r = false /\ geom (sb s) (allocated (sb s) V r) /\
      exists bs', (length bs' <= length bs + 2)%nat /\ fview (with_log l s) (allocated (sb s) V r) H bs')).
Proof.
  intros F G A Hl Hsz. destruct (balloc_ok s V H bs F G A Hl Hsz) as (r & l & E & [(-> & F' & Hfull)|(Hr & Hu & _ & F')]).
  - exists 0, l. split; [done |]. by left.
  - exists r, l. split; [done |]. right. assert (r <> 0) by (intros ->; by rewrite (g_boot _ _ G) in Hu).
    split_and!; [lia | lia | done | by apply (geom_allocated s) |]. eexists. split; [| exact F'].
    pose proof (logged_length r (logged (BBLOCK r (sb s)) bs)). pose proof (logged_length (BBLOCK r (sb s)) bs). lia.
Qed.

(** What [allocated] keeps: every used block outside the bitmap. *)
Lemma allocated_keeps (s : fs S) V r c :
  c <> r -> c <> BBLOCK r (sb s) -> allocated (sb s) V r c = V c.
Proof. intros H1 H2. unfold allocated. by rewrite !zset_ne. Qed.

(** ** The block map of a file *)

(** The address of block [bn] of inode [x], 0 when there is none. *)
Definition faddr (V : Z -> block) (x : inode) (bn : Z) : Z :=
  if bn <? NDIRECT then nth (Z.to_nat bn) (addrs x) 0
  else let ind := nth (Z.to_nat NDIRECT) (addrs x) 0 in
       if ind =? 0 then 0 else load32 (V ind) (4 * (bn - NDIRECT)).

(** A block in use for data: marked, and no part of the log or the bitmap. *)
Definition data_block (sbl : superblock) (V : Z -> block) (b : Z) : Prop :=
  0 < b < sb_size sbl /\ used sbl V b = true /\ home sbl b /\ forall c, 0 <= c < sb_size sbl -> b <> BBLOCK c sbl.

(** An inode of the file system's device, whose indirect block is a data block. *)
Record inode_ok (sbl : superblock) (V : Z -> block) (x : inode) : Prop := {
  io_dev : i_dev x = ROOTDEV;
  io_len : length (addrs x) = Z.to_nat (NDIRECT + 1);
  io_ind : nth (Z.to_nat NDIRECT) (addrs x) 0 <> 0 -> data_block sbl V (nth (Z.to_nat NDIRECT) (addrs x) 0);
}.

Definition with_inode (l : log S) (ip : nat) (x : inode) (s : fs S) : fs S := mkfs l (sb s) (<[ip := x]> (itable s)).

Lemma with_inode_id l ip x (s : fs S) : itable s !! ip = Some x -> with_inode l ip x s = with_log l s.
Proof. intros Hx. unfold with_inode, with_log. by rewrite list_insert_id. Qed.

Lemma geti_ok {A} ip x (f : inode -> A) (s : fs S) : itable s !! ip = Some x -> geti ip f s = Ok (f x, s).
Proof. intros Hx. unfold geti, gets. by rewrite nth_lookup, Hx. Qed.

Lemma modi_ok ip x f (s : fs S) : itable s !! ip = Some x -> modi ip f s = Ok (tt, with_inode (flog s) ip (f x) s).
Proof.
  intros Hx. unfold modi, modify, with_inode. do 3 f_equal. apply list_eq. intros j.
  rewrite list_lookup_alter. case_decide as E; subst.
  - rewrite list_lookup_insert_eq by (by eapply lookup_lt_Some). by rewrite Hx.
  - by rewrite list_lookup_insert_ne.
Qed.

Lemma fview_itable l it it' sbl V H bs : fview (mkfs l sbl it) V H bs -> fview (mkfs l sbl it') V H bs.
Proof. intros (a & F). exists a. destruct F. by split. Qed.

Lemma nth_set_addr n v x i : (n < length (addrs x))%nat ->
  nth i (addrs (set_addr n v x)) 0 = if (i =? n)%nat then v else nth i (addrs x) 0.
Proof.
  intros Hn. cbn. rewrite !nth_lookup. destruct (Nat.eqb_spec i n) as [->|].
  - by rewrite list_lookup_insert_eq.
  - by rewrite list_lookup_insert_ne.
Qed.

Lemma data_allocated (s : fs S) V r c :
  geom (sb s) V -> 0 < r < sb_size (sb s) -> used (sb s) V r = false ->
  (data_block (sb s) V c -> data_block (sb s) (allocated (sb s) V r) c /\ allocated (sb s) V r c = V c /\ c <> r) /\
  data_block (sb s) (allocated (sb s) V r) r.
Proof.
  intros G Hr Hu. destruct (geom_allocated s V r G ltac:(lia) Hu) as [_ Hall].
  destruct (g_free _ _ G r ltac:(lia) Hu) as [Hh Hnm]. split.
  - intros (Hc & Hcu & Hch & Hcm). assert (c <> r) by congruence.
    split_and!; [| apply (allocated_keeps s); [done | apply Hcm; lia] | done].
    split_and!; try done; try lia. rewrite Hall, Hcu by lia. apply orb_true_r.
  - split_and!; try done; try lia. rewrite Hall, Z.eqb_refl by lia. done.
Qed.

(** The result of [bmap] and what it leaves. *)
Record bmap_post (s : fs S) (V : Z -> block) (H : gmap Z nat) (bs : list Z) (ip : nat) (x : inode) (bn : Z)
    (r : Z) (l : log S) (x' : inode) (V' : Z -> block) (bs' : list Z) : Prop := {
  bp_view : fview (with_inode l ip x' s) V' H bs';
  bp_room : (length bs' <= length bs + 5)%nat;
  bp_geom : geom (sb s) V';
  bp_inode : inode_ok (sb s) V' x';
  bp_same : isize x' = isize x /\ inum x' = inum x /\ i_type x' = i_type x /\ ref x' = ref x /\ ilk x' = ilk x /\
    i_valid x' = i_valid x /\ nlink x' = nlink x;
  bp_map : forall n, 0 <= n < MAXFILE -> faddr V' x' n = if n =? bn then r else faddr V x n;
  bp_keep : forall c, data_block (sb s) V c ->
    data_block (sb s) V' c /\ (c <> nth (Z.to_nat NDIRECT) (addrs x) 0 -> V' c = V c);
  bp_old : faddr V x bn <> 0 -> r = faddr V x bn /\ x' = x /\ bs' = bs /\ V' = V;
  bp_new : faddr V x bn = 0 -> r <> 0 -> data_block (sb s) V' r /\ used (sb s) V r = false /\
    forall i, 0 <= i < BSIZE -> V' r i = 0;
  bp_full : faddr V x bn = 0 -> r = 0 -> full (sb s) V';
  bp_taken : forall c, 0 <= c < sb_size (sb s) -> used (sb s) V' c = true ->
    used (sb s) V c = true \/ c = r \/ c = nth (Z.to_nat NDIRECT) (addrs x') 0;
}.

(** The hypotheses on the state: room for five more blocks, held buffers apart. *)
Record bmap_pre (s : fs S) (V : Z -> block) (H : gmap Z nat) (bs : list Z) (ip : nat) (x : inode) : Prop := {
  br_view : fview s V H bs;
  br_geom : geom (sb s) V;
  br_apart : apart_from_map (sb s) V H;
  br_log : (length bs + 5 < Z.to_nat LOGSIZE)%nat;
  br_room : (length bs + 4 + base.size H < NBUF)%nat;
  br_ip : itable s !! ip = Some x;
  br_ok : inode_ok (sb s) V x;
  br_ind : H !! nth (Z.to_nat NDIRECT) (addrs x) 0 = None;
}.

Lemma bmap_direct s V H bs ip x bn :
  bmap_pre s V H bs ip x -> 0 <= bn < NDIRECT ->
  exists r l x' V' bs', bmap ip bn s = Ok (r, with_inode l ip x' s) /\ bmap_post s V H bs ip x bn r l x' V' bs'.
Proof.
  intros [F G A Hl Hsz Hx Hok Hni] Hbn. unfold bmap. rewrite (bind_ok _ _ _ _ _ (geti_ok ip x id s Hx)). unfold id.
  destruct (Z.ltb_spec bn NDIRECT); [| lia].
  assert (faddr V x bn = nth (Z.to_nat bn) (addrs x) 0) as Ef by (unfold faddr; destruct (Z.ltb_spec bn NDIRECT); [done | lia]).
  assert (Z.to_nat bn < length (addrs x))%nat as Hlen by (rewrite (io_len _ _ _ Hok); unfold NDIRECT in *; lia).
  rewrite <- Ef. destruct (Z.eqb_spec (faddr V x bn) 0) as [E0|E0].
  - rewrite (io_dev _ _ _ Hok). destruct (balloc_fresh s V H bs F G A ltac:(lia) ltac:(lia))
      as (r & l & E & [(-> & F' & Hfull)|(Hr & Hu & G' & bs' & Hb' & F')]); rewrite (bind_ok _ _ _ _ _ E).
    + exists 0, l, x, V, bs. rewrite (with_inode_id l ip x s Hx). split; [done |].
      split; try done; try lia; try (by rewrite (with_inode_id l ip x s Hx)).
      { intros n Hn. destruct (Z.eqb_spec n bn) as [->|]; done. }
      by left.
    + destruct (Z.eqb_spec r 0) as [|Hr0]; [lia |].
      rewrite (bind_ok _ _ _ _ _ (modi_ok ip x (set_addr (Z.to_nat bn) r) (with_log l s) Hx)).
      destruct (data_allocated s V r r G Hr Hu) as [_ Hrd].
      assert (forall c, data_block (sb s) V c -> data_block (sb s) (allocated (sb s) V r) c /\ allocated (sb s) V r c = V c) as Hkeep.
      { intros c Hc. by destruct (data_allocated s V r c G Hr Hu) as [[? [? ?]] _]. }
      assert (nth (Z.to_nat NDIRECT) (addrs (set_addr (Z.to_nat bn) r x)) 0 = nth (Z.to_nat NDIRECT) (addrs x) 0) as Eind.
      { rewrite nth_set_addr by done. destruct (Nat.eqb_spec (Z.to_nat NDIRECT) (Z.to_nat bn)); [lia | done]. }
      exists r, l, (set_addr (Z.to_nat bn) r x), (allocated (sb s) V r), bs'. split; [done |].
      split; try done; try lia.
      * by eapply fview_itable.
      * split; [apply Hok | cbn; rewrite length_insert; apply Hok |]. rewrite Eind. intros Hi. by apply Hkeep, Hok.
      * intros n Hn. unfold faddr. rewrite Eind. destruct (Z.ltb_spec n NDIRECT) as [Hnd|Hnd].
        -- rewrite nth_set_addr by done. destruct (Z.eqb_spec n bn) as [->|Hne]; [by rewrite Nat.eqb_refl |].
           destruct (Nat.eqb_spec (Z.to_nat n) (Z.to_nat bn)); [lia | done].
        -- destruct (Z.eqb_spec n bn); [lia |]. destruct (Z.eqb_spec (nth (Z.to_nat NDIRECT) (addrs x) 0) 0) as [|Hi]; [done |].
           by rewrite (proj2 (Hkeep _ (io_ind _ _ _ Hok Hi))).
      * intros c Hc. destruct (Hkeep c Hc). done.
      * intros _ _. split_and!; [done | done |]. apply allocated_zero.
      * intros c Hc. rewrite (proj2 (geom_allocated s V r G ltac:(lia) Hu) c Hc).
        intros [->%Z.eqb_eq|?]%orb_true_iff; auto.
  - exists (faddr V x bn), (flog s), x, V, bs. rewrite (with_inode_id _ ip x s Hx).
    split; [by destruct s |]. split; try done; try lia; rewrite ?(with_inode_id _ ip x s Hx); try (by destruct s); [| by left].
    intros n Hn. destruct (Z.eqb_spec n bn) as [->|]; done.
Qed.

Lemma faddr_indirect V x n : NDIRECT <= n -> nth (Z.to_nat NDIRECT) (addrs x) 0 <> 0 ->
  faddr V x n = load32 (V (nth (Z.to_nat NDIRECT) (addrs x) 0)) (4 * (n - NDIRECT)).
Proof.
  intros Hn Hi. unfold faddr. destruct (Z.ltb_spec n NDIRECT); [lia |].
  by destruct (Z.eqb_spec (nth (Z.to_nat NDIRECT) (addrs x) 0) 0).
Qed.

(** Stage one: the map is unchanged, the indirect block exists unless the disk is full. *)
Lemma bmap_ind_ok s V H bs ip x :
  bmap_pre s V H bs ip x ->
  exists r l x' V' bs', bmap_ind ip s = Ok (r, with_inode l ip x' s) /\
    fview (with_inode l ip x' s) V' H bs' /\ (length bs' <= length bs + 2)%nat /\ geom (sb s) V' /\
    inode_ok (sb s) V' x' /\ (isize x' = isize x /\ inum x' = inum x /\ i_type x' = i_type x /\ ref x' = ref x /\
      ilk x' = ilk x /\ i_valid x' = i_valid x /\ nlink x' = nlink x) /\
    r = nth (Z.to_nat NDIRECT) (addrs x') 0 /\
    (forall n, 0 <= n < MAXFILE -> faddr V' x' n = faddr V x n) /\
    (forall c, data_block (sb s) V c -> data_block (sb s) V' c /\ V' c = V c) /\
    (forall c, 0 <= c < sb_size (sb s) -> used (sb s) V' c = false -> used (sb s) V c = false) /\
    (r <> 0 -> H !! r = None) /\
    (nth (Z.to_nat NDIRECT) (addrs x) 0 = 0 -> r <> 0 -> used (sb s) V r = false) /\
    (nth (Z.to_nat NDIRECT) (addrs x) 0 <> 0 -> x' = x /\ V' = V /\ bs' = bs) /\
    (r = 0 -> full (sb s) V') /\
    (forall c, 0 <= c < sb_size (sb s) -> used (sb s) V' c = true -> used (sb s) V c = true \/ c = r).
Proof.
  intros [F G A Hl Hsz Hx Hok Hni]. unfold bmap_ind. rewrite (bind_ok _ _ _ _ _ (geti_ok ip x id s Hx)). unfold id.
  set (ind := nth (Z.to_nat NDIRECT) (addrs x) 0) in *.
  assert (Z.to_nat NDIRECT < length (addrs x))%nat as Hlen by (rewrite (io_len _ _ _ Hok); unfold NDIRECT; lia).
  destruct (Z.eqb_spec ind 0) as [E0|E0].
  2:{ exists ind, (flog s), x, V, bs. rewrite (with_inode_id _ ip x s Hx). split; [by destruct s |].
      split_and!; try done; try lia; [by destruct s.. | by left]. }
  rewrite (io_dev _ _ _ Hok). destruct (balloc_fresh s V H bs F G A ltac:(lia) ltac:(lia))
    as (r & l & E & [(-> & F' & Hfull)|(Hr & Hu & G' & bs' & Hb' & F')]); rewrite (bind_ok _ _ _ _ _ E).
  { exists 0, l, x, V, bs. rewrite (with_inode_id l ip x s Hx). split; [done |]. split_and!; try done; [lia | by left]. }
  destruct (Z.eqb_spec r 0) as [|Hr0]; [lia |].
  rewrite (bind_ok _ _ _ _ _ (modi_ok ip x (set_addr (Z.to_nat NDIRECT) r) (with_log l s) Hx)).
  destruct (data_allocated s V r r G Hr Hu) as [_ Hrd].
  assert (nth (Z.to_nat NDIRECT) (addrs (set_addr (Z.to_nat NDIRECT) r x)) 0 = r) as Eind
    by (rewrite nth_set_addr by done; by rewrite Nat.eqb_refl).
  exists r, l, (set_addr (Z.to_nat NDIRECT) r x), (allocated (sb s) V r), bs'. split; [done |].
  split_and!; try done.
  - by eapply fview_itable.
  - split; [apply Hok | cbn; rewrite length_insert; apply Hok |]. by rewrite Eind.
  - intros n Hn. unfold faddr. rewrite Eind. fold ind. rewrite E0. destruct (Z.ltb_spec n NDIRECT) as [Hnd|Hnd].
    + rewrite nth_set_addr by done. destruct (Nat.eqb_spec (Z.to_nat n) (Z.to_nat NDIRECT)); [lia | done].
    + destruct (Z.eqb_spec r 0); [done |]. unfold allocated. rewrite zset_eq. apply (load_memset_zero 4).
      * lia.
      * unfold MAXFILE, NINDIRECT, BSIZE in *. change (1024 / 4) with 256 in Hn. lia.
  - intros c Hc. by destruct (data_allocated s V r c G Hr Hu) as [[? [? ?]] _].
  - intros c Hc. destruct (geom_allocated s V r G ltac:(lia) Hu) as [_ Hall]. rewrite Hall by done.
    intros Ho. by apply orb_false_iff in Ho as [_ ?].
  - intros _. apply A; [lia | done].
  - intros c Hc. rewrite (proj2 (geom_allocated s V r G ltac:(lia) Hu) c Hc). intros [->%Z.eqb_eq|?]%orb_true_iff; auto.
Qed.

(** Stage two: entry [k] of the indirect block [ind]. *)
Lemma bmap_entry_ok s V H bs ind k :
  fview s V H bs -> geom (sb s) V -> apart_from_map (sb s) V H -> data_block (sb s) V ind -> H !! ind = None ->
  0 <= k < NINDIRECT -> (length bs + 3 < Z.to_nat LOGSIZE)%nat -> (length bs + 2 + base.size H < NBUF)%nat ->
  exists r l V' bs', bmap_entry ROOTDEV ind k s = Ok (r, with_log l s) /\ fview (with_log l s) V' H bs' /\
    (length bs' <= length bs + 3)%nat /\ geom (sb s) V' /\
    (forall j, 0 <= j < NINDIRECT -> load32 (V' ind) (4 * j) = if j =? k then r else load32 (V ind) (4 * j)) /\
    (forall c, data_block (sb s) V c -> data_block (sb s) V' c /\ (c <> ind -> V' c = V c)) /\
    (load32 (V ind) (4 * k) <> 0 -> r = load32 (V ind) (4 * k) /\ V' = V /\ bs' = bs) /\
    (load32 (V ind) (4 * k) = 0 -> r <> 0 -> data_block (sb s) V' r /\ used (sb s) V r = false /\
      forall i, 0 <= i < BSIZE -> V' r i = 0) /\
    (load32 (V ind) (4 * k) = 0 -> r = 0 -> full (sb s) V') /\
    (forall c, 0 <= c < sb_size (sb s) -> used (sb s) V' c = true -> used (sb s) V c = true \/ c = r).
Proof.
  intros F G A Hd Hn Hk Hl Hsz. pose proof Hd as (Hi & Hiu & Hih & Him). pose proof Hih as [Hir _].
  unfold bmap_entry. destruct (fbread_ok s V H bs ind F ltac:(lia) Hn ltac:(lia)) as (h & l1 & E1 & F1).
  rewrite (bind_ok _ _ _ _ _ E1). set (H1 := <[ind := h]> H) in *.
  assert (H1 !! ind = Some h) as Hh by apply lookup_insert_eq.
  assert (delete ind H1 = H) as Hdel by (by apply delete_insert_id).
  destruct (fget_ok _ _ _ _ ind h F1 Hh) as (v & E2 & ->). rewrite (bind_ok _ _ _ _ _ E2).
  destruct (Z.eqb_spec (load32 (V ind) (4 * k)) 0) as [E0|E0].
  - assert (apart_from_map (sb s) V H1) as A1.
    { intros c Hc. destruct (A c Hc) as [Ha1 Ha2]. unfold H1. rewrite lookup_insert_ne by (by apply Him).
      split; [done |]. intros Hcu. rewrite lookup_insert_ne; [by apply Ha2 |]. congruence. }
    assert (base.size H1 = Datatypes.S (base.size H)) as Hs1 by (unfold H1; by apply map_size_insert_None).
    destruct (balloc_fresh (with_log l1 s) V H1 bs F1 G A1 ltac:(lia) ltac:(lia))
      as (r & l & E & [(-> & F' & Hfull)|(Hr & Hu & G' & bs' & Hb' & F')]); rewrite bind_assoc, (bind_ok _ _ _ _ _ E).
    + change (negb (0 =? 0)) with false. cbv iota.
      rewrite bind_assoc, bind_ret, bind_ret. destruct (fbrelse_ok _ _ _ _ ind h F' Hh) as (l3 & E3 & F3).
      rewrite (bind_ok _ _ _ _ _ E3). exists 0, l3, V, bs. split; [done |]. rewrite Hdel in F3.
      split_and!; try done; try lia; [| by left]. intros j Hj. destruct (Z.eqb_spec j k) as [->|]; done.
    + cbn [with_log sb] in Hr, Hu, G', F'. destruct (Z.eqb_spec r 0) as [|Hr0]; [lia |]. cbn [negb].
      destruct (data_allocated s V r ind G Hr Hu) as [[Hid [Hiv Hine]] Hrd]; [done |].
      destruct (fget_ok _ _ _ _ ind h F' Hh) as (v & E4 & ->).
      destruct (fmod_run (with_log l (with_log l1 s)) _ _ bs' ind h (store32 (V ind) (4 * k) r) F' Hh Hih ltac:(lia))
        as (l3 & E5 & F5).
      rewrite bind_assoc. erewrite bind_ok by (rewrite (bind_ok _ _ _ _ _ E4), Hiv; exact E5). rewrite bind_ret.
      destruct (fbrelse_ok _ _ _ _ ind h F5 Hh) as (l6 & E6 & F6). rewrite (bind_ok _ _ _ _ _ E6), Hdel in *.
      pose proof (logged_length ind bs') as Hll.
      assert (forall c, 0 <= c < sb_size (sb s) ->
        used (sb s) (zset (allocated (sb s) V r) ind (store32 (V ind) (4 * k) r)) c = used (sb s) (allocated (sb s) V r) c) as Hus.
      { intros c Hc. unfold used. rewrite zset_ne; [done |]. intros Ec. by apply (Him c Hc). }
      assert (forall c, data_block (sb s) (allocated (sb s) V r) c ->
        data_block (sb s) (zset (allocated (sb s) V r) ind (store32 (V ind) (4 * k) r)) c) as Hdb.
      { intros c (Hc1 & Hc2 & Hc3). split_and!; try done; try lia; [| apply Hc3..]. rewrite Hus by lia. done. }
      exists r, l6, (zset (allocated (sb s) V r) ind (store32 (V ind) (4 * k) r)), (logged ind bs').
      split; [done |]. split_and!; try done; try lia.
      * split; try apply G'; [| rewrite Hus by lia; apply G']. intros c Hc. rewrite Hus by done. by apply G'.
      * intros j Hj. rewrite zset_eq. destruct (Z.eqb_spec j k) as [->|Hjk].
        -- change (load32 (store32 (V ind) (4 * k) r) (4 * k)) with (load 4 (store 4 (V ind) (4 * k) r) (4 * k)).
           rewrite load_store_eq. pose proof (g_size _ _ G). apply Z.mod_small. simpl. lia.
        -- apply load_store_ne. simpl. lia.
      * intros c Hc. destruct (data_allocated s V r c G Hr Hu) as [[Hcd [Hcv _]] _]; [done |].
        split; [by apply Hdb |]. intros Hne. by rewrite zset_ne.
      * intros _ _. split_and!; [by apply Hdb | done |]. intros i Hi'. rewrite zset_ne by done. by apply allocated_zero.
      * intros c Hc. rewrite Hus by done. rewrite (proj2 (geom_allocated s V r G ltac:(lia) Hu) c Hc).
        intros [->%Z.eqb_eq|?]%orb_true_iff; auto.
  - rewrite bind_ret. destruct (fbrelse_ok _ _ _ _ ind h F1 Hh) as (l3 & E3 & F3). rewrite (bind_ok _ _ _ _ _ E3).
    exists (load32 (V ind) (4 * k)), l3, V, bs. split; [done |]. rewrite Hdel in F3. split_and!; try done; try lia; [| by left].
    intros j Hj. destruct (Z.eqb_spec j k) as [->|]; done.
Qed.

Lemma with_inode_log l l' ip x s : with_log l' (with_inode l ip x s) = with_inode l' ip x s.
Proof. done. Qed.

Lemma bmap_indirect s V H bs ip x bn :
  bmap_pre s V H bs ip x -> NDIRECT <= bn < MAXFILE ->
  exists r l x' V' bs', bmap ip bn s = Ok (r, with_inode l ip x' s) /\ bmap_post s V H bs ip x bn r l x' V' bs'.
Proof.
  intros P Hbn. pose proof P as [F G A Hl Hsz Hx Hok Hni]. unfold bmap.
  rewrite (bind_ok _ _ _ _ _ (geti_ok ip x id s Hx)). unfold id.
  destruct (Z.ltb_spec bn NDIRECT); [lia |].
  destruct (Z.ltb_spec (bn - NDIRECT) NINDIRECT); [| unfold MAXFILE in Hbn; lia].
  destruct (bmap_ind_ok s V H bs ip x P)
    as (ind & l1 & x1 & V1 & bs1 & E1 & F1 & Hb1 & G1 & Hok1 & Hsame & Hind & Hmap & Hkeep & Hus & Hh1 & Hfr & Hold & Hfull & Htk).
  rewrite (bind_ok _ _ _ _ _ E1), (io_dev _ _ _ Hok).
  destruct (Z.eqb_spec ind 0) as [E0|E0].
  - exists 0, l1, x1, V1, bs1. split; [done |].
    assert (faddr V x bn = 0) as Hf0.
    { rewrite <- Hmap by (unfold NDIRECT in *; lia). unfold faddr. rewrite <- Hind, E0.
      destruct (Z.ltb_spec bn NDIRECT); [lia | done]. }
    split; try done; try lia.
    + intros n Hn. rewrite Hmap by done. destruct (Z.eqb_spec n bn) as [->|]; done.
    + intros c Hc. destruct (Hkeep c Hc). done.
    + intros _ _. by apply Hfull.
    + intros c Hc Hcu. destruct (Htk c Hc Hcu) as [?| ->]; [by left | right; right; congruence].
  - assert (apart_from_map (sb s) V1 H) as A1.
    { intros c Hc. destruct (A c Hc) as [Ha1 Ha2]. split; [done |]. intros Hcu. by apply Ha2, Hus. }
    assert (data_block (sb s) V1 ind) as Hdi by (rewrite Hind; apply Hok1; by rewrite <- Hind).
    destruct (bmap_entry_ok (with_inode l1 ip x1 s) V1 H bs1 ind (bn - NDIRECT) F1 G1 A1 Hdi (Hh1 E0) ltac:(lia) ltac:(lia) ltac:(lia))
      as (r & l2 & V2 & bs2 & E2 & F2 & Hb2 & G2 & Hmap2 & Hkeep2 & Hold2 & Hnew2 & Hfull2 & Htk2).
    rewrite with_inode_log in E2, F2. cbn [with_inode sb] in G2, Hkeep2, Hnew2, Hfull2, Htk2.
    exists r, l2, x1, V2, bs2. split; [done |].
    assert (faddr V x bn = load32 (V1 ind) (4 * (bn - NDIRECT))) as Ef.
    { rewrite <- Hmap by (unfold NDIRECT in *; lia). rewrite faddr_indirect by (rewrite <- ?Hind; lia || done). by rewrite <- Hind. }
    split; try done; try lia.
    + split; [apply Hok1 | apply Hok1 |]. rewrite <- Hind. intros _. by apply Hkeep2.
    + intros n Hn. destruct (Z.ltb_spec n NDIRECT) as [Hnd|Hnd].
      * destruct (Z.eqb_spec n bn); [lia |]. rewrite <- Hmap by done. unfold faddr.
        destruct (Z.ltb_spec n NDIRECT); [done | lia].
      * rewrite faddr_indirect by (rewrite <- ?Hind; done). rewrite <- Hind, Hmap2 by (unfold MAXFILE in Hn; lia).
        destruct (Z.eqb_spec n bn) as [->|Hne]; [by rewrite Z.eqb_refl |].
        destruct (Z.eqb_spec (n - NDIRECT) (bn - NDIRECT)); [lia |]. rewrite <- Hmap by done.
        rewrite faddr_indirect by (rewrite <- ?Hind; done). by rewrite <- Hind.
    + intros c Hc. destruct (Hkeep c Hc) as [Hc1 Hv1]. destruct (Hkeep2 c Hc1) as [Hc2 Hv2]. split; [done |].
      intros Hne. rewrite Hv2, Hv1; [done |]. intros ->. 
      destruct (decide (nth (Z.to_nat NDIRECT) (addrs x) 0 = 0)) as [Ez|Ez].
      * destruct Hc as (_ & Hcu & _). by rewrite (Hfr Ez E0) in Hcu.
      * destruct (Hold Ez) as (-> & _ & _). by apply Hne.
    + intros Hf. rewrite Ef in Hf |- *. destruct (Hold2 Hf) as (-> & -> & ->).
      assert (nth (Z.to_nat NDIRECT) (addrs x) 0 <> 0) as Hi.
      { intros Ez. rewrite <- Ef in Hf. apply Hf. unfold faddr. rewrite Ez. by destruct (Z.ltb_spec bn NDIRECT); [lia |]. }
      destruct (Hold Hi) as (-> & -> & ->). done.
    + intros Hf Hr. rewrite Ef in Hf. destruct (Hnew2 Hf Hr) as (Hd2 & Hu2 & Hz2).
      split_and!; [done | | done]. apply Hus; [| done]. destruct Hd2 as (? & _). cbn. lia.
    + intros Hf. rewrite Ef in Hf. by apply Hfull2.
    + intros c Hc Hcu. destruct (Htk2 c Hc Hcu) as [Hc1| ->]; [| auto].
      destruct (Htk c Hc Hc1) as [?| ->]; [by left | right; right; congruence].
Qed.

Lemma bmap_ok s V H bs ip x bn :
  bmap_pre s V H bs ip x -> 0 <= bn < MAXFILE ->
  exists r l x' V' bs', bmap ip bn s = Ok (r, with_inode l ip x' s) /\ bmap_post s V H bs ip x bn r l x' V' bs'.
Proof.
  intros P Hbn. destruct (decide (bn < NDIRECT)); [apply bmap_direct | apply bmap_indirect]; done || lia.
Qed.

(** ** File contents *)

(** Byte [off] of the file. *)
Definition fbyte (V : Z -> block) (x : inode) (off : Z) : Z := V (faddr V x (off / BSIZE)) (off mod BSIZE).

(** Bytes [off, off + n). *)
Definition fbytes (V : Z -> block) (x : inode) (off : Z) (n : nat) : list Z :=
  (fun j => fbyte V x (off + Z.of_nat j)) <$> seq 0 n.

(** Every block below the size exists, is a data block, and nobody holds it. *)
Record file_ok (sbl : superblock) (V : Z -> block) (H : gmap Z nat) (x : inode) : Prop := {
  fo_size : 0 <= isize x <= MAXFILE * BSIZE;
  fo_blocks : forall bn, 0 <= bn -> bn * BSIZE < isize x ->
    data_block sbl V (faddr V x bn) /\ H !! faddr V x bn = None;
}.

Lemma fbytes_app V x off a b : fbytes V x off (a + b) = fbytes V x off a ++ fbytes V x (off + Z.of_nat a) b.
Proof.
  unfold fbytes. rewrite seq_app, fmap_app. f_equal. rewrite Nat.add_0_l.
  rewrite <- (Nat.add_0_r a) at 1. rewrite <- fmap_add_seq, <- list_fmap_compose. apply list_fmap_ext. intros i y _. simpl. f_equal. lia.
Qed.

Lemma length_fbytes V x off n : length (fbytes V x off n) = n.
Proof. unfold fbytes. by rewrite length_fmap, length_seq. Qed.

(** One piece: bytes of one block. *)
Lemma fbytes_piece V x off m :
  0 <= off -> Z.of_nat m <= BSIZE - off mod BSIZE ->
  bytes_of (V (faddr V x (off / BSIZE))) (off mod BSIZE) m = fbytes V x off m.
Proof.
  intros Ho Hm. unfold bytes_of, fbytes. apply list_fmap_ext. intros i j Hj. apply lookup_seq in Hj as [-> Hj]. cbn.
  pose proof (Z.mod_pos_bound off BSIZE ltac:(done)). pose proof (Z.div_mod off BSIZE ltac:(done)) as Hd.
  unfold fbyte. assert ((off + Z.of_nat i) / BSIZE = off / BSIZE /\ (off + Z.of_nat i) mod BSIZE = off mod BSIZE + Z.of_nat i) as [-> ->]; [| done].
  rewrite Hd at 1 3. replace (BSIZE * (off / BSIZE) + off mod BSIZE + Z.of_nat i) with ((off mod BSIZE + Z.of_nat i) + off / BSIZE * BSIZE) by lia.
  rewrite Z.div_add, Z.mod_add, Z.div_small, Z.mod_small by (done || lia). lia.
Qed.

(** *** Reading *)

(** What reading needs: one more buffer, no transaction. *)
Record read_pre (o : Z) (s : fs S) (V : Z -> block) (H : gmap Z nat) (bs : list Z) (ip : nat) (x : inode) : Prop := {
  rp_view : fviewo o s V H bs;
  rp_room : (length bs + base.size H < NBUF)%nat;
  rp_ip : itable s !! ip = Some x;
  rp_ok : inode_ok (sb s) V x;
  rp_ind : H !! nth (Z.to_nat NDIRECT) (addrs x) 0 = None;
}.

Lemma bmap_pre_read s V H bs ip x : bmap_pre s V H bs ip x -> read_pre 1 s V H bs ip x.
Proof. intros []. split; try done. lia. Qed.

(** The bytes [l] at offset [off] of a file, cut at the ends of its blocks; each piece comes
    with its distance from the start.  Fuel: no piece is empty. *)
Fixpoint cut_loop (fuel : nat) (off tot : Z) (l : list Z) : list (Z * list Z) :=
  match fuel, l with
  | Datatypes.S f, _ :: _ =>
      let m := BSIZE - off mod BSIZE in
      (tot, take (Z.to_nat m) l) :: cut_loop f (off + m) (tot + m) (drop (Z.to_nat m) l)
  | _, _ => []
  end.

Definition pieces (off : Z) (l : list Z) : list (Z * list Z) := cut_loop (length l) off 0 l.

Lemma cut_first g off tot p l m :
  length p = Z.to_nat m -> 0 < m <= BSIZE - off mod BSIZE -> m = BSIZE - off mod BSIZE \/ l = [] ->
  cut_loop (Datatypes.S g) off tot (p ++ l) = (tot, p) :: cut_loop g (off + m) (tot + m) l.
Proof.
  intros Lp Hm Hl. destruct p as [|b p]; [cbn in Lp; lia |]. cbn [app cut_loop]. change (b :: p ++ l) with ((b :: p) ++ l).
  destruct Hl as [<-| ->].
  - by rewrite take_app_length', drop_app_length' by done.
  - rewrite app_nil_r, take_ge, drop_ge by lia. by destruct g.
Qed.

(** Nothing is lost, and the distances add up. *)
Lemma cut_loop_spec fuel off tot l : (length l <= fuel)%nat ->
  concat (cut_loop fuel off tot l).*2 = l /\
  forall i t p, cut_loop fuel off tot l !! i = Some (t, p) ->
    t = tot + Z.of_nat (length (concat (take i (cut_loop fuel off tot l)).*2)).
Proof.
  revert off tot l. induction fuel as [|f IH]; intros off tot [|b l] Hl; try done; [simpl in Hl; lia |].
  cbn [cut_loop]. set (m := BSIZE - off mod BSIZE).
  assert (0 < m) as Hm by (pose proof (Z.mod_pos_bound off BSIZE ltac:(done)); unfold m; lia).
  destruct (IH (off + m) (tot + m) (drop (Z.to_nat m) (b :: l))) as [Hc Ht]; [rewrite length_drop; simpl in *; lia |].
  rewrite fmap_cons. cbn [concat snd]. split; [by rewrite Hc, take_drop |].
  intros [|i] t p Hi; [injection Hi as <- <-; cbn; lia |]. change (cut_loop f (off + m) (tot + m) (drop (Z.to_nat m) (b :: l)) !! i = Some (t, p)) in Hi.
  rewrite (Ht i t p Hi). cbn [take]. rewrite fmap_cons. cbn [concat snd]. rewrite length_app, length_take.
  assert (Z.to_nat m < length (b :: l))%nat; [| lia]. destruct (drop (Z.to_nat m) (b :: l)) eqn:Ed; [by destruct f |].
  apply (f_equal length) in Ed. rewrite length_drop in Ed. simpl in *. lia.
Qed.

(** The copies of the pieces in turn, up to the first that fails. *)
Fixpoint deliver {W} (cp : Z -> list Z -> M W Z) (ps : list (Z * list Z)) : M W bool :=
  match ps with
  | [] => ret true
  | (t, p) :: ps' => let! r := cp t p in if r =? -1 then ret false else deliver cp ps'
  end.

(** A destination [w] beside the cache, which the cache does not touch: [put] is [cp] on it. *)
Record beside {W} (w : S -> W) (put : Z -> list Z -> M (fs S) Z) (cp : Z -> list Z -> M W Z) : Prop := {
  bs_read : forall d b c h c', c_bread d b c = Ok (h, c') -> w c' = w c;
  bs_relse : forall h c u c', c_brelse h c = Ok (u, c') -> w c' = w c;
  bs_put : forall o s V H bs t p, fviewo o s V H bs ->
    match cp t p (w (lcache (flog s))) with
    | Ok (r, v) => exists l, put t p s = Ok (r, with_log l s) /\ w (lcache l) = v /\ fviewo o (with_log l s) V H bs
    | Panic msg => put t p s = Panic msg
    | Diverge => put t p s = Diverge
    end;
}.

Section Reading.
Context {W : Type} (w : S -> W) (put : Z -> list Z -> M (fs S) Z) (cp : Z -> list Z -> M W Z) (Bs : beside w put cp).

Lemma fbread_beside d b s h l : fbread d b s = Ok (h, with_log l s) -> w (lcache l) = w (lcache (flog s)).
Proof.
  unfold fbread, on_log, on_cache. destruct (c_bread _ _ _) as [[? ?]| |] eqn:E; [| done..].
  intros [= _ <-]. by apply (bs_read _ _ _ Bs) in E.
Qed.

Lemma fbrelse_beside h s u l : fbrelse h s = Ok (u, with_log l s) -> w (lcache l) = w (lcache (flog s)).
Proof.
  unfold fbrelse, on_log, on_cache. destruct (c_brelse _ _) as [[? ?]| |] eqn:E; [| done..].
  intros [= _ <-]. by apply (bs_relse _ _ _ Bs) in E.
Qed.

(** [bmap] of a block that exists. *)
Lemma bmap_found o s V H bs ip x bn :
  read_pre o s V H bs ip x -> 0 <= bn < MAXFILE -> faddr V x bn <> 0 ->
  exists l, bmap ip bn s = Ok (faddr V x bn, with_log l s) /\ w (lcache l) = w (lcache (flog s)) /\
    fviewo o (with_log l s) V H bs.
Proof.
  intros [F Hr Hx Hok Hni] Hbn. unfold bmap, faddr. rewrite (bind_ok _ _ _ _ _ (geti_ok ip x id s Hx)). unfold id.
  destruct (Z.ltb_spec bn NDIRECT) as [Hd|Hd]; intros H0.
  { rewrite (proj2 (Z.eqb_neq _ _) H0). exists (flog s). by destruct s. }
  destruct (Z.ltb_spec (bn - NDIRECT) NINDIRECT); [| unfold MAXFILE in Hbn; lia].
  unfold bmap_ind. rewrite bind_assoc, (bind_ok _ _ _ _ _ (geti_ok ip x id s Hx)). unfold id.
  set (ind := nth (Z.to_nat NDIRECT) (addrs x) 0) in *. destruct (Z.eqb_spec ind 0) as [|Hi]; [done |].
  rewrite bind_ret. destruct (Z.eqb_spec ind 0) as [|_]; [done |]. rewrite (io_dev _ _ _ Hok).
  pose proof (io_ind _ _ _ Hok Hi) as (_ & _ & [Hir _] & _). fold ind in Hir. unfold bmap_entry.
  destruct (fbread_any o s V H bs ind F ltac:(lia) Hni Hr) as (h & l1 & E1 & F1). rewrite (bind_ok _ _ _ _ _ E1).
  assert (<[ind := h]> H !! ind = Some h) as Hh by apply lookup_insert_eq.
  destruct (fget_any _ _ _ _ _ ind h F1 Hh) as (v & E2 & ->). rewrite (bind_ok _ _ _ _ _ E2).
  rewrite (proj2 (Z.eqb_neq _ _) H0), bind_ret.
  destruct (fbrelse_any _ _ _ _ _ ind h F1 Hh) as (l3 & E3 & F3). rewrite delete_insert_id in F3 by done.
  rewrite (bind_ok _ _ _ _ _ E3). exists l3. split; [done |]. split; [| done].
  rewrite (fbrelse_beside h (with_log l1 s) tt l3 E3). by apply fbread_beside in E1.
Qed.

(** What the loop of [readi] does, for any answers of the copies. *)
Definition read_result (m : outcome (Z * list Z * fs S)) o s V H bs (n : Z) (acc l : list Z) (ps : list (Z * list Z)) : Prop :=
  match deliver cp ps (w (lcache (flog s))) with
  | Ok (ok, v) => exists l' got, m = Ok ((if (ok : bool) then n else -1, acc ++ got), with_log l' s) /\
      (ok = true -> got = l) /\ w (lcache l') = v /\ fviewo o (with_log l' s) V H bs
  | Panic msg => m = Panic msg
  | Diverge => m = Diverge
  end.

Lemma readi_loop_any fuel o s V H bs ip x off n tot acc :
  read_pre o s V H bs ip x -> file_ok (sb s) V H x ->
  0 <= off -> 0 <= tot <= n -> off + (n - tot) <= isize x -> n - tot < Z.of_nat fuel ->
  forall g, (Z.to_nat (n - tot) <= g)%nat ->
    read_result (readi_loop fuel put ip off n tot acc s) o s V H bs n acc (fbytes V x off (Z.to_nat (n - tot)))
      (cut_loop g off tot (fbytes V x off (Z.to_nat (n - tot)))).
Proof.
  revert s off tot acc. induction fuel as [|f IH]; intros s off tot acc P FO Ho Ht Hsz Hf g Hg; [lia |]. cbn [readi_loop].
  pose proof P as [F Hr Hx Hok Hni].
  destruct (Z.ltb_spec tot n) as [Hlt|Hge]; cbn [negb].
  2:{ assert (tot = n) as -> by lia. rewrite Z.sub_diag. assert (cut_loop g off n [] = []) as E0 by (by destruct g).
      change (fbytes V x off (Z.to_nat 0)) with (@nil Z). rewrite E0.
      exists (flog s), []. rewrite app_nil_r. by destruct s. }
  pose proof (fo_size _ _ _ _ FO) as Hfs. pose proof (Z.div_mod off BSIZE ltac:(done)) as Hd.
  pose proof (Z.mod_pos_bound off BSIZE ltac:(done)) as Hm. set (bn := off / BSIZE) in *.
  assert (0 <= bn) as Hbn0 by (apply Z.div_pos; [lia | done]).
  assert (bn * BSIZE < isize x) as Hbs by lia.
  assert (bn < MAXFILE) as Hbn1 by (assert (BSIZE * bn < BSIZE * MAXFILE) by lia; unfold BSIZE in *; lia).
  destruct (fo_blocks _ _ _ _ FO bn Hbn0 Hbs) as [Hdb Hnh]. pose proof Hdb as ([Hda _] & _ & [Hdr _] & _).
  destruct (bmap_found o s V H bs ip x bn P ltac:(lia) ltac:(lia)) as (l1 & E1 & W1 & F1).
  rewrite (bind_ok _ _ _ _ _ E1). destruct (Z.eqb_spec (faddr V x bn) 0); [lia |].
  rewrite (bind_ok _ _ _ _ _ (geti_ok ip x i_dev (with_log l1 s) Hx)), (io_dev _ _ _ Hok).
  destruct (fbread_any o (with_log l1 s) V H bs (faddr V x bn) F1 ltac:(lia) Hnh ltac:(lia)) as (h & l2 & E2 & F2).
  rewrite (bind_ok _ _ _ _ _ E2). assert (<[faddr V x bn := h]> H !! faddr V x bn = Some h) as Hh by apply lookup_insert_eq.
  destruct (fget_any _ _ _ _ _ _ h F2 Hh) as (v & E3 & ->). rewrite (bind_ok _ _ _ _ _ E3).
  apply fbread_beside in E2 as W2. cbn [with_log flog] in W2.
  set (m := Z.min (n - tot) (BSIZE - off mod BSIZE)).
  assert (0 < m <= n - tot /\ m <= BSIZE - off mod BSIZE) as [Hm1 Hm2] by (unfold m; lia).
  set (p := bytes_of (V (faddr V x bn)) (off mod BSIZE) (Z.to_nat m)).
  assert (p = fbytes V x off (Z.to_nat m)) as Ep by (unfold p, bn; apply fbytes_piece; lia).
  assert (length p = Z.to_nat m) as Lp by (rewrite Ep; apply length_fbytes).
  assert (fbytes V x off (Z.to_nat (n - tot)) = p ++ fbytes V x (off + m) (Z.to_nat (n - (tot + m)))) as Esplit.
  { rewrite Ep. replace (Z.to_nat (n - tot)) with (Z.to_nat m + Z.to_nat (n - (tot + m)))%nat by lia.
    rewrite fbytes_app. do 2 f_equal. lia. }
  assert (u32 (off + m) = off + m) as Eu by (apply u32_small; unfold MAXFILE, NDIRECT, NINDIRECT, BSIZE in *; change (1024 / 4) with 256 in *; lia).
  destruct g as [|g]; [lia |].
  assert (cut_loop (Datatypes.S g) off tot (fbytes V x off (Z.to_nat (n - tot))) =
    (tot, p) :: cut_loop g (off + m) (tot + m) (fbytes V x (off + m) (Z.to_nat (n - (tot + m))))) as ->.
  { rewrite Esplit at 1. destruct p as [|b p'] eqn:Epb; [cbn in Lp; lia |]. rewrite <- Epb in *. clear Epb.
    apply (cut_first g off tot p (fbytes V x (off + m) (Z.to_nat (n - (tot + m)))) m); try lia.
    destruct (decide (m = BSIZE - off mod BSIZE)); [by left | right]. replace (n - (tot + m)) with 0 by lia. done. }
  assert (forall l5, fviewo o (with_log l5 s) V H bs ->
    read_result (readi_loop f put ip (off + m) n (tot + m) (acc ++ p) (with_log l5 s)) o (with_log l5 s) V H bs n (acc ++ p)
      (fbytes V x (off + m) (Z.to_nat (n - (tot + m)))) (cut_loop g (off + m) (tot + m) (fbytes V x (off + m) (Z.to_nat (n - (tot + m)))))) as Hrest.
  { intros l5 F5. apply IH; try lia; [| exact FO]. by split. }
  pose proof (bs_put _ _ _ Bs o (with_log l2 (with_log l1 s)) V _ bs tot p F2) as Hput.
  cbn [with_log flog] in Hput. rewrite W2, W1 in Hput.
  unfold read_result. cbn [deliver]. destruct (cp tot p (w (lcache (flog s)))) as [[r v]|msg|] eqn:Ecp.
  2,3: unfold bind; by rewrite Ecp, Hput.
  destruct Hput as (l3 & E4 & Wv & F4). rewrite (bind_ok _ _ _ _ _ E4), (bind_ok _ _ _ _ _ Ecp).
  destruct (fbrelse_any _ _ _ _ _ _ h F4 Hh) as (l4 & E5 & F5). rewrite delete_insert_id in F5 by done.
  apply fbrelse_beside in E5 as W5. cbn [with_log flog] in W5. rewrite Wv in W5.
  pose proof (Hrest l4 F5) as R. destruct (Z.eqb_spec r (-1)); rewrite (bind_ok _ _ _ _ _ E5).
  - exists l4, []. by rewrite app_nil_r.
  - rewrite Eu. unfold read_result in R. cbn [with_log flog] in R. rewrite W5 in R.
    destruct (deliver cp _ v) as [[ok v']| |]; [| exact R..].
    destruct R as (l' & got & R & Hgot & Wv' & F'). exists l', (p ++ got).
    split_and!; [by rewrite app_assoc | | done | done]. intros Hok'. by rewrite Esplit, Hgot.
Qed.

(** The number of bytes [readi] is to deliver. *)
Definition read_count (x : inode) (off n : Z) : Z :=
  if (isize x <? off) || (2 ^ 32 <=? off + n) then 0 else Z.min n (isize x - off).

Lemma readi_any o s V H bs ip x off n :
  read_pre o s V H bs ip x -> file_ok (sb s) V H x -> 0 <= off < 2 ^ 32 -> 0 <= n < 2 ^ 32 ->
  let k := read_count x off n in
  read_result (readi put ip off n s) o s V H bs k [] (fbytes V x off (Z.to_nat k))
    (pieces off (fbytes V x off (Z.to_nat k))).
Proof.
  intros P FO Ho Hn. pose proof P as [F Hr Hx Hok Hni]. unfold readi, read_count.
  rewrite (bind_ok _ _ _ _ _ (geti_ok ip x isize s Hx)). pose proof (fo_size _ _ _ _ FO) as Hs.
  assert ((u32 (off + n) <? off) = (2 ^ 32 <=? off + n)) as ->.
  { unfold u32. destruct (Z.leb_spec (2 ^ 32) (off + n)).
    - rewrite <- (Z_mod_plus_full _ (-1)), Z.mod_small by lia. apply Z.ltb_lt. lia.
    - rewrite Z.mod_small by lia. apply Z.ltb_ge. lia. }
  destruct ((isize x <? off) || (2 ^ 32 <=? off + n)) eqn:Eb.
  { exists (flog s), []. by destruct s. }
  apply orb_false_iff in Eb as [Eb1%Z.ltb_ge Eb2%Z.leb_gt].
  rewrite u32_small by lia. set (k := Z.min n (isize x - off)).
  assert ((if isize x <? off + n then isize x - off else n) = k) as -> by (unfold k; destruct (Z.ltb_spec (isize x) (off + n)); lia).
  pose proof (readi_loop_any (Z.to_nat (k + 1)) o s V H bs ip x off k 0 [] P FO) as R. rewrite Z.sub_0_r in R.
  unfold pieces. rewrite length_fbytes. apply R; unfold k; lia.
Qed.
End Reading.

(** A kernel buffer: the copies do not fail. *)
Lemma kernel_beside : beside (fun _ => tt) (fun _ _ => ret 0) (fun _ _ => ret 0).
Proof. split; try done. intros o s V H bs t p F. cbn. exists (flog s). by destruct s. Qed.

Lemma deliver_kernel ps : deliver (W := unit) (fun _ _ => ret 0) ps tt = Ok (true, tt).
Proof. induction ps as [|[t p] ps IH]; [done |]. cbn [deliver]. by rewrite bind_ret. Qed.

(** [readi] into a kernel buffer, on every branch. *)
Lemma readi_kernel_ok s V H bs ip x off n :
  bmap_pre s V H bs ip x -> file_ok (sb s) V H x -> 0 <= off < 2 ^ 32 -> 0 <= n < 2 ^ 32 ->
  exists l, readi_kernel ip off n s =
      Ok ((let k := if (isize x <? off) || (2 ^ 32 <=? off + n) then 0 else Z.min n (isize x - off) in
           (k, fbytes V x off (Z.to_nat k))), with_log l s) /\ fview (with_log l s) V H bs.
Proof.
  intros P FO Ho Hn.
  pose proof (readi_any _ _ _ kernel_beside 1 s V H bs ip x off n (bmap_pre_read _ _ _ _ _ _ P) FO Ho Hn) as R.
  unfold read_result in R. rewrite deliver_kernel in R. destruct R as (l & got & E & Hgot & _ & F). rewrite (Hgot eq_refl) in E.
  exists l. by split.
Qed.

(** ** Directories *)

(** A name as the directory code compares it: up to the NUL, at most [n] characters. *)
Fixpoint cut (n : nat) (l : list Z) : list Z :=
  match n, l with
  | O, _ | _, [] => []
  | Datatypes.S n', c :: l' => if c =? 0 then [] else c :: cut n' l'
  end.

Lemma strncmp_list_zero n p q :
  Forall (fun c => 0 <= c < 256) p -> Forall (fun c => 0 <= c < 256) q ->
  strncmp_list n p q = 0 <-> cut n p = cut n q.
Proof.
  assert (forall l, Forall (fun c => 0 <= c < 256) l -> 0 <= List.hd 0 l < 256 /\ Forall (fun c => 0 <= c < 256) (List.tl l)) as Hhd.
  { intros [|c l] Hl; simpl; [split; [lia | done] |]. by apply Forall_cons in Hl. }
  assert (forall m l, cut (Datatypes.S m) l = if List.hd 0 l =? 0 then [] else List.hd 0 l :: cut m (List.tl l)) as Hcut.
  { intros m [|c l]; [done | reflexivity]. }
  revert p q. induction n as [|n IH]; intros p q Hp Hq; [by destruct p, q |].
  destruct (Hhd p Hp) as [Hp1 Hp2]. destruct (Hhd q Hq) as [Hq1 Hq2]. rewrite !Hcut. cbn [strncmp_list].
  unfold u8. rewrite !Z.mod_small by lia.
  destruct (Z.eqb_spec (List.hd 0 p) 0) as [E0|E0]; cbn [negb andb].
  - rewrite E0. destruct (Z.eqb_spec (List.hd 0 q) 0); split; try done; lia.
  - destruct (Z.eqb_spec (List.hd 0 p) (List.hd 0 q)) as [E|E].
    + destruct (Z.eqb_spec (List.hd 0 q) 0); [lia |]. rewrite (IH _ _ Hp2 Hq2), E. split; [by intros -> | by intros [= ->]].
    + destruct (Z.eqb_spec (List.hd 0 q) 0); split; try lia; try done. by intros [= ? ?].
Qed.

(** Entry [i] of directory [x]. *)
Definition entry (V : Z -> block) (x : inode) (i : nat) : list Z :=
  fbytes V x (Z.of_nat i * dirent_size) (Z.to_nat dirent_size).

(** Entry [i] is in use and has the name. *)
Definition matches (V : Z -> block) (x : inode) (name : list Z) (i : nat) : bool :=
  negb (de_inum (entry V x i) =? 0) && bool_decide (cut (Z.to_nat DIRSIZ) name = cut (Z.to_nat DIRSIZ) (de_name (entry V x i))).

(** The first entry from [i] on, among [n], that matches. *)
Fixpoint first_match (n i : nat) (f : nat -> bool) : option nat :=
  match n with
  | O => None
  | Datatypes.S n' => if f i then Some i else first_match n' (Datatypes.S i) f
  end.

Definition byte_list (l : list Z) : Prop := Forall (fun c => 0 <= c < 256) l.

Lemma dirlookup_loop_ok n fuel s V H bs dp x name i :
  bmap_pre s V H bs dp x -> file_ok (sb s) V H x -> byte_list name ->
  (forall j, (j < i + n)%nat -> byte_list (entry V x j)) ->
  isize x = Z.of_nat (i + n) * dirent_size -> (n < fuel)%nat ->
  exists l, fview (with_log l s) V H bs /\
    dirlookup_loop fuel dp name (Z.of_nat i * dirent_size) s =
    match first_match n i (matches V x name) with
    | None => Ok (None, with_log l s)
    | Some j => (let! ip := iget ROOTDEV (de_inum (entry V x j)) in ret (Some (ip, Z.of_nat j * dirent_size))) (with_log l s)
    end.
Proof.
  revert fuel s i. induction n as [|n IH]; intros fuel s i P FO Hname Hent Hsz Hf; pose proof P as [F G A Hl Hr Hx Hok Hni];
    destruct fuel as [|f]; try lia; cbn [dirlookup_loop first_match]; rewrite (bind_ok _ _ _ _ _ (geti_ok dp x isize s Hx)).
  - exists (flog s). split; [by destruct s |]. rewrite Hsz, Nat.add_0_r, Z.ltb_irrefl. by destruct s.
  - pose proof (fo_size _ _ _ _ FO) as Hfs.
    assert (isize x < 2 ^ 31) as Hs31 by (unfold MAXFILE, NDIRECT, NINDIRECT, BSIZE in *; change (1024 / 4) with 256 in *; lia).
    unfold dirent_size in *. destruct (Z.ltb_spec (Z.of_nat i * 16) (isize x)); [| lia]. cbn [negb].
    destruct (readi_kernel_ok s V H bs dp x (Z.of_nat i * 16) 16 P FO ltac:(lia) ltac:(lia)) as (l1 & E1 & F1).
    rewrite (proj2 (Z.ltb_ge (isize x) (Z.of_nat i * 16))), (proj2 (Z.leb_gt (2 ^ 32) (Z.of_nat i * 16 + 16))) in E1 by lia.
    cbn [orb] in E1. rewrite Z.min_l in E1 by lia. rewrite (bind_ok _ _ _ _ _ E1). cbn [fst snd].
    change (negb (16 =? 16)) with false. cbv iota. change (fbytes V x (Z.of_nat i * 16) (Z.to_nat 16)) with (entry V x i).
    assert (bmap_pre (with_log l1 s) V H bs dp x) as P1 by (by split).
    assert (u32 (Z.of_nat i * 16 + 16) = Z.of_nat (Datatypes.S i) * 16) as Eu by (rewrite u32_small; lia).
    assert (exists l, fview (with_log l s) V H bs /\
      dirlookup_loop f dp name (u32 (Z.of_nat i * 16 + 16)) (with_log l1 s) =
      match first_match n (Datatypes.S i) (matches V x name) with
      | None => Ok (None, with_log l s)
      | Some j => (let! ip := iget ROOTDEV (de_inum (entry V x j)) in ret (Some (ip, Z.of_nat j * 16))) (with_log l s)
      end) as Hrest.
    { rewrite Eu. apply (IH f (with_log l1 s) (Datatypes.S i) P1 FO Hname); try lia.
      intros j Hj. apply Hent. lia. }
    unfold matches at 1. destruct (Z.eqb_spec (de_inum (entry V x i)) 0) as [E0|E0]; cbn [negb andb]; [exact Hrest |].
    assert (Forall (fun c => 0 <= c < 256) (de_name (entry V x i))) as Hdn by (apply Forall_drop, Hent; lia).
    pose proof (strncmp_list_zero (Z.to_nat DIRSIZ) name (de_name (entry V x i)) Hname Hdn) as Hcmp. unfold namecmp.
    destruct (Z.eqb_spec (strncmp_list (Z.to_nat DIRSIZ) name (de_name (entry V x i))) 0) as [Ec|Ec].
    + rewrite bool_decide_eq_true_2 by (by apply Hcmp). exists l1. split; [done |].
      rewrite (bind_ok _ _ _ _ _ (geti_ok dp x i_dev (with_log l1 s) Hx)), (io_dev _ _ _ Hok). done.
    + rewrite bool_decide_eq_false_2 by (by intros Hc; apply Ec, Hcmp). exact Hrest.
Qed.
End Theory.
