(* ===== verification/FsProps.v ===== *)
(** * FsProps: theorems on [fs.c]

    Inodes on disk and in the table, the block allocator, the block map, reading, directory
    search and path names. *)

From stdpp Require Import base list gmap sets strings.
From Stdlib Require Import ZArith Lia.
From S2P Require Import Prelude Riscv Mem Spinlock Bio Log Fs FsBlock.

#[local] Arguments load : simpl never.
#[local] Arguments store : simpl never.

(** ** Inodes on disk *)

Lemma store_addrs_low b o l n off :
  off + Z.of_nat n <= o -> load n (store_addrs b o l) off = load n b off.
Proof.
  revert b o. induction l as [|v l IH]; intros b o Ho; cbn [store_addrs]; [done |].
  rewrite IH by lia. apply load_store_ne. lia.
Qed.

Lemma store_addrs_high b o l n off :
  o + 4 * Z.of_nat (length l) <= off -> load n (store_addrs b o l) off = load n b off.
Proof.
  revert b o. induction l as [|v l IH]; intros b o Ho; cbn [store_addrs length] in *; [done |].
  rewrite IH by lia. apply load_store_ne. simpl. lia.
Qed.

Lemma store_addrs_at b o l i v :
  l !! i = Some v -> load 4 (store_addrs b o l) (o + 4 * Z.of_nat i) = u32 v.
Proof.
  revert b o i. induction l as [|w l IH]; intros b o i Hi; [done |]. cbn [store_addrs]. destruct i as [|i]; simpl in Hi.
  - injection Hi as ->. rewrite store_addrs_low by lia. rewrite Z.mul_0_r, Z.add_0_r. exact (load_store_eq 4 b o v).
  - replace (o + 4 * Z.of_nat (S i)) with (o + 4 + 4 * Z.of_nat i) by lia. by apply IH.
Qed.

Lemma i16_mod v : - 2 ^ 15 <= v < 2 ^ 15 -> i16 (v mod 2 ^ 16) = v.
Proof. intros Hv. unfold i16. rewrite Zplus_mod_idemp_l, Z.mod_small; lia. Qed.

(** The fields that fit their width on disk. *)
Record disk_fields (x : inode) : Prop := {
  df_type : - 2 ^ 15 <= i_type x < 2 ^ 15;
  df_major : - 2 ^ 15 <= major x < 2 ^ 15;
  df_minor : - 2 ^ 15 <= minor x < 2 ^ 15;
  df_nlink : - 2 ^ 15 <= nlink x < 2 ^ 15;
  df_size : 0 <= isize x < 2 ^ 32;
  df_addrs : length (addrs x) = Z.to_nat (NDIRECT + 1) /\ Forall (fun v => 0 <= v < 2 ^ 32) (addrs x);
}.

Lemma load_short b o v : load 2 (store 2 b o v) o = v mod 2 ^ 16.
Proof. exact (load_store_eq 2 b o v). Qed.

Ltac disk_load :=
  unfold put_dinode, load32, store32; rewrite ?store_addrs_low by lia;
  repeat (rewrite load_store_eq || rewrite load_store_ne by lia).

Lemma dinode_roundtrip b o x :
  disk_fields x -> get_dinode (put_dinode b o x) o x = x.
Proof.
  intros [Ht Hma Hmi Hnl Hs [Hlen Ha]]. unfold get_dinode. destruct x as [d i r lk v ty ma mi nl sz ad]. cbn in *. f_equal.
  - disk_load. change (256 ^ Z.of_nat 2) with (2 ^ 16). by apply i16_mod.
  - disk_load. change (256 ^ Z.of_nat 2) with (2 ^ 16). by apply i16_mod.
  - disk_load. change (256 ^ Z.of_nat 2) with (2 ^ 16). by apply i16_mod.
  - disk_load. change (256 ^ Z.of_nat 2) with (2 ^ 16). by apply i16_mod.
  - disk_load. apply Z.mod_small. simpl in *. lia.
  - unfold load_addrs. apply list_eq_same_length with (length ad); [done | by rewrite length_fmap, length_seq |].
    intros j u w Hj Hu Hw. apply list_lookup_fmap_Some in Hu as (k & -> & Hk). apply lookup_seq in Hk as [-> Hk].
    unfold put_dinode, load32. cbn [addrs]. rewrite (store_addrs_at _ _ _ _ w Hw).
    apply u32_small. by apply (proj1 (Forall_lookup _ _) Ha j).
Qed.

(** Storing one inode leaves the others of the block alone. *)
Lemma dinode_others b i j x y :
  0 <= i -> 0 <= j -> i mod IPB <> j mod IPB -> length (addrs x) = Z.to_nat (NDIRECT + 1) ->
  get_dinode (put_dinode b (dip i) x) (dip j) y = get_dinode b (dip j) y.
Proof.
  intros Hi Hj Hne Hlen. unfold dip, dinode_size.
  assert ((j mod IPB) * 64 + 64 <= (i mod IPB) * 64 \/ (i mod IPB) * 64 + 64 <= (j mod IPB) * 64) as Hap by lia.
  assert (forall n off, 0 <= off -> off + Z.of_nat n <= 64 ->
    load n (put_dinode b (i mod IPB * 64) x) (j mod IPB * 64 + off) = load n b (j mod IPB * 64 + off)) as Hl.
  { intros n off H0 H1. unfold put_dinode, store32. destruct Hap.
    - rewrite store_addrs_low by lia. by rewrite !load_store_ne by lia.
    - rewrite store_addrs_high by (rewrite Hlen; unfold NDIRECT; simpl; lia). by rewrite !load_store_ne by (simpl; lia). }
  pose proof (Hl 2%nat 0 ltac:(lia) ltac:(lia)) as Hl0. rewrite Z.add_0_r in Hl0.
  unfold get_dinode, load32. rewrite Hl0, !Hl by (simpl; lia). f_equal.
  unfold load_addrs, load32. apply list_fmap_ext. intros k z Hk. apply lookup_seq in Hk as [-> Hk]. unfold NDIRECT in Hk.
  rewrite <- !Z.add_assoc. apply Hl; simpl; lia.
Qed.

(** ** The inode table *)

(** References to inode [n] of device [d], over all entries of the table. *)
Definition weight (d n : Z) (x : inode) : Z := if (i_dev x =? d) && (inum x =? n) then ref x else 0.
Definition refcount (it : list inode) (d n : Z) : Z := foldr (fun x acc => weight d n x + acc) 0 it.

(** No inode has two entries in use, and no count is negative. *)
Record itab_ok (it : list inode) : Prop := {
  it_uniq : forall i j x y, it !! i = Some x -> it !! j = Some y -> 0 < ref x -> 0 < ref y ->
    i_dev x = i_dev y -> inum x = inum y -> i = j;
  it_ref : forall i x, it !! i = Some x -> 0 <= ref x;
}.

Lemma refcount_insert it i x y d n :
  it !! i = Some x -> refcount (<[i := y]> it) d n = refcount it d n - weight d n x + weight d n y.
Proof.
  unfold refcount. revert i. induction it as [|z it IH]; intros i Hi; [done |]. destruct i as [|i]; simpl in *.
  - injection Hi as ->. lia.
  - rewrite (IH i Hi). lia.
Qed.

(** What the loop of [iget] finds. *)
Lemma iget_scan_spec d n l i0 e :
  match iget_scan l i0 d n e with
  | inl i => exists k x, i = (i0 + k)%nat /\ l !! k = Some x /\ 0 < ref x /\ i_dev x = d /\ inum x = n
  | inr r => (forall k x, l !! k = Some x -> 0 < ref x -> ~ (i_dev x = d /\ inum x = n)) /\
      match e with
      | Some _ => r = e
      | None => match r with
                | Some i => exists k x, i = (i0 + k)%nat /\ l !! k = Some x /\ ref x = 0
                | None => forall k x, l !! k = Some x -> ref x <> 0
                end
      end
  end.
Proof.
  revert i0 e. induction l as [|z l IH]; intros i0 e; cbn [iget_scan].
  { split; [done |]. by destruct e. }
  destruct ((0 <? ref z) && (i_dev z =? d) && (inum z =? n)) eqn:E.
  - exists 0%nat, z. apply andb_prop in E as [[E1%Z.ltb_lt E2%Z.eqb_eq]%andb_prop E3%Z.eqb_eq].
    split_and!; done || lia.
  - specialize (IH (S i0) (match e with None => if ref z =? 0 then Some i0 else None | Some _ => e end)).
    destruct (iget_scan l (S i0) d n _) as [i|r].
    + destruct IH as (k & x & -> & Hk & ?). exists (S k), x. split_and!; done || lia || tauto.
    + destruct IH as [Hno IH]. split.
      * intros k x Hk Hr [Hd Hn]. destruct k as [|k]; simpl in Hk; [| by eapply Hno].
        injection Hk as ->. rewrite Hd, Hn, !Z.eqb_refl, !andb_true_r in E. apply Z.ltb_ge in E. lia.
      * destruct e; [done |]. destruct (Z.eqb_spec (ref z) 0) as [E0|E0].
        -- subst r. exists 0%nat, z. split_and!; done || lia.
        -- destruct r as [i|].
           ++ destruct IH as (k & x & -> & Hk & Hx). exists (S k), x. split_and!; done || lia.
           ++ intros [|k] x Hk; simpl in Hk; [by injection Hk as -> | by apply (IH k)].
Qed.

Section Table.
Context {S : Type} {CS : Cache S} {CO : CacheOk S}.

(** Entry [i] is replaced by one in use for inode [n] of [d] while no other entry is. *)
Lemma itab_insert it i x y :
  itab_ok it -> it !! i = Some x -> 0 <= ref y ->
  (forall j z, j <> i -> it !! j = Some z -> 0 < ref z -> ~ (i_dev z = i_dev y /\ inum z = inum y)) ->
  itab_ok (<[i := y]> it).
Proof.
  intros [Hu Hr] Hi Hy Hother. assert (i < length it)%nat as Hlen by (by eapply lookup_lt_Some). split.
  - intros j k a b Hj Hk Ha Hb Hd Hn.
    destruct (decide (j = i)) as [->|Hji]; destruct (decide (k = i)) as [->|Hki]; try done.
    + rewrite list_lookup_insert_eq in Hj by done. injection Hj as <-. rewrite list_lookup_insert_ne in Hk by done.
      exfalso. by apply (Hother k b Hki Hk Hb).
    + rewrite list_lookup_insert_eq in Hk by done. injection Hk as <-. rewrite list_lookup_insert_ne in Hj by done.
      exfalso. by apply (Hother j a Hji Hj Ha).
    + rewrite list_lookup_insert_ne in Hj, Hk by done. by eapply Hu.
  - intros j z Hj. destruct (decide (j = i)) as [->|Hji].
    + rewrite list_lookup_insert_eq in Hj by done. by injection Hj as <-.
    + rewrite list_lookup_insert_ne in Hj by done. by eapply Hr.
Qed.

Lemma iget_ok (s : fs S) d n :
  itab_ok (itable s) ->
  match iget d n s with
  | Ok (i, s') => flog s' = flog s /\ sb s' = sb s /\ itab_ok (itable s') /\
      (exists x, itable s' !! i = Some x /\ i_dev x = d /\ inum x = n /\ 0 < ref x) /\
      refcount (itable s') d n = refcount (itable s) d n + 1 /\
      (forall d' n', (d', n') <> (d, n) -> refcount (itable s') d' n' = refcount (itable s) d' n')
  | Panic _ => forall i x, itable s !! i = Some x -> 0 < ref x /\ ~ (i_dev x = d /\ inum x = n)
  | Diverge => False
  end.
Proof.
  intros It. unfold iget. rewrite bind_gets. pose proof (iget_scan_spec d n (itable s) 0 None) as Hs.
  assert (forall d' n' x, (d', n') <> (d, n) -> i_dev x = d -> inum x = n -> weight d' n' x = 0) as Hw0.
  { intros d' n' x Hne <- <-. unfold weight. destruct (Z.eqb_spec (i_dev x) d'), (Z.eqb_spec (inum x) n'); simpl; congruence. }
  assert (forall x, i_dev x = d -> inum x = n -> weight d n x = ref x) as Hw1.
  { intros x <- <-. unfold weight. by rewrite !Z.eqb_refl. }
  destruct (iget_scan (itable s) 0 d n None) as [i|[i|]].
  - destruct Hs as (k & x & -> & Hk & Hr & Hd & Hn). cbn [Nat.add].
    rewrite (bind_ok _ _ _ _ _ (modi_ok k x _ s Hk)). cbn [ret with_inode flog sb itable]. split_and!; try done.
    + eapply itab_insert; [done | done | simpl; lia |]. intros j z Hj Hz Hrz [Hdz Hnz]. apply Hj.
      by eapply (it_uniq _ It j k z x).
    + exists (set_ref (ref x + 1) x). split_and!; try done; [| simpl; lia].
      apply list_lookup_insert_eq. by eapply lookup_lt_Some.
    + rewrite (refcount_insert _ _ _ _ _ _ Hk), !Hw1 by done. simpl. lia.
    + intros d' n' Hne. rewrite (refcount_insert _ _ _ _ _ _ Hk), !Hw0 by done. lia.
  - destruct Hs as [Hno (k & x & -> & Hk & Hr)]. cbn [Nat.add].
    rewrite (bind_ok _ _ _ _ _ (modi_ok k x _ s Hk)). cbn [ret with_inode flog sb itable].
    set (y := mkinode d n 1 _ _ _ _ _ _ _ _). split_and!; try done.
    + eapply itab_insert; [done | done | simpl; lia |]. intros j z Hj Hz Hrz. by apply (Hno j z).
    + exists y. split_and!; try done. apply list_lookup_insert_eq. by eapply lookup_lt_Some.
    + rewrite (refcount_insert _ _ _ _ _ _ Hk), (Hw1 y) by done.
      assert (weight d n x = 0) as -> by (unfold weight; rewrite Hr; by destruct (_ && _)). simpl. lia.
    + intros d' n' Hne. rewrite (refcount_insert _ _ _ _ _ _ Hk), (Hw0 _ _ y) by done.
      assert (weight d' n' x = 0) as -> by (unfold weight; rewrite Hr; by destruct (_ && _)). lia.
  - destruct Hs as [Hno Hbusy]. cbn. intros i x Hi. pose proof (it_ref _ It i x Hi). pose proof (Hbusy i x Hi).
    split; [lia |]. apply (Hno i x Hi). lia.
Qed.
End Table.

(** ** Path names *)

(** The elements of a path: its maximal runs of characters other than the slash. *)
Fixpoint elems (path cur : list Z) : list (list Z) :=
  match path with
  | [] => match cur with [] => [] | _ => [cur] end
  | c :: path' => if c =? 47 then match cur with [] => elems path' [] | _ => cur :: elems path' [] end
                  else elems path' (cur ++ [c])
  end.

Lemma skip_slashes_elems p : elems (skip_slashes p) [] = elems p [] /\ (length (skip_slashes p) <= length p)%nat /\
  (forall c q, skip_slashes p = c :: q -> c <> 47).
Proof.
  induction p as [|c p IH]; simpl; [done |]. destruct (Z.eqb_spec c 47) as [->|Hc].
  - simpl. destruct IH as (? & ? & ?). split_and!; try done. lia.
  - simpl. destruct (Z.eqb_spec c 47); [done |]. split_and!; try done. intros c' q [= <- _]. done.
Qed.

Lemma take_elem_spec p e r : take_elem p = (e, r) ->
  p = e ++ r /\ (r = [] \/ exists r', r = 47 :: r') /\ forall cur, elems p cur = elems r (cur ++ e).
Proof.
  revert e r. induction p as [|c p IH]; intros e r; simpl.
  - intros [= <- <-]. split_and!; [done | by left |]. intros cur. by rewrite app_nil_r.
  - destruct (Z.eqb_spec c 47) as [->|Hc].
    + intros [= <- <-]. split_and!; [done | right; eauto |]. intros cur. by rewrite app_nil_r.
    + destruct (take_elem p) as [e' r'] eqn:E. intros [= <- <-]. destruct (IH e' r' eq_refl) as (-> & Hr & He).
      split_and!; [done | done |]. intros cur. rewrite He. by rewrite <- app_assoc.
Qed.

Lemma elems_nonempty q cur : cur <> [] -> elems q cur <> [].
Proof.
  revert cur. induction q as [|a q IH]; intros cur Hcur; simpl; [by destruct cur |].
  destruct (a =? 47); [by destruct cur |]. apply IH. by destruct cur.
Qed.

Lemma elems_nil_iff p : (forall c q, p = c :: q -> c <> 47) -> elems p [] = [] <-> p = [].
Proof.
  intros Hp. split; [| by intros ->]. destruct p as [|c p]; [done |]. simpl.
  destruct (Z.eqb_spec c 47) as [->|Hc]; [by destruct (Hp 47 p eq_refl) |]. intros He. by apply elems_nonempty in He.
Qed.

Lemma skipelem_elems path :
  match elems path [] with
  | [] => skipelem path = None
  | e :: es => exists rest, skipelem path = Some (rest, take (Z.to_nat DIRSIZ) e) /\ elems rest [] = es /\
                 (rest = [] <-> es = []) /\ (length rest < length path)%nat
  end.
Proof.
  destruct (skip_slashes_elems path) as (He & Hl & Hns). unfold skipelem.
  destruct (skip_slashes path) as [|c p] eqn:Ep; [by rewrite <- He |]. rewrite <- He. clear He.
  pose proof (Hns c p eq_refl) as Hc. destruct (take_elem (c :: p)) as [e r] eqn:Et.
  destruct (take_elem_spec _ _ _ Et) as (Hsplit & Hr & Hel). rewrite Hel. cbn [app].
  assert (e <> []) as Hne by (intros ->; cbn in Et; destruct (Z.eqb_spec c 47); [done |]; by destruct (take_elem p)).
  destruct (skip_slashes_elems r) as (Hre & Hrl & Hrns).
  assert (elems r e = e :: elems (skip_slashes r) []) as ->.
  { rewrite Hre. destruct Hr as [->|[r' ->]]; simpl; by destruct e. }
  exists (skip_slashes r). split_and!; try done; [split; intros Hx; by apply (elems_nil_iff _ Hrns) in Hx || by apply (elems_nil_iff _ Hrns) |].
  assert (length r < length (c :: p))%nat by (rewrite Hsplit, length_app; destruct e; [done | simpl; lia]). lia.
Qed.

(** ** Properties *)

Section Props.
Context {S : Type} {CS : Cache S} {CO : CacheOk S}.

(** [balloc] returns the lowest block the bitmap calls free, marks it and no other block,
    zeroes it, and logs both blocks; it returns 0 and changes nothing exactly when the bitmap
    is full. *)
Lemma balloc_spec (s : fs S) (V : Z -> block) (H : gmap Z nat) (bs : list Z)
    (F : fview s V H bs) (G : geom (sb s) V) (A : apart_from_map (sb s) V H)
    (Hl : (length bs + 2 < Z.to_nat LOGSIZE)%nat) (Hr : (length bs + 1 + base.size H < NBUF)%nat) :
  exists r l, balloc ROOTDEV s = Ok (r, with_log l s) /\
    ((r = 0 /\ fview (with_log l s) V H bs /\ forall c, 0 <= c < sb_size (sb s) -> used (sb s) V c = true) \/
     exists V' bs', 0 < r < sb_size (sb s) /\ used (sb s) V r = false /\
       (forall c, 0 <= c < r -> used (sb s) V c = true) /\
       fview (with_log l s) V' H bs' /\ r ∈ bs' /\ BBLOCK r (sb s) ∈ bs' /\
       (forall c, 0 <= c < sb_size (sb s) -> used (sb s) V' c = (r =? c) || used (sb s) V c) /\
       (forall x, 0 <= x < BSIZE -> V' r x = 0) /\
       (forall c, c <> r -> c <> BBLOCK r (sb s) -> V' c = V c)).
Proof.
  destruct (balloc_ok s V H bs F G A Hl Hr) as (r & l & E & [(-> & F' & Hall)|(Hrr & Hu & Hlow & F')]);
    exists r || exists 0; exists l; (split; [exact E |]); [by left | right].
  exists (allocated (sb s) V r). eexists. assert (r <> 0) by (intros ->; by rewrite (g_boot _ _ G) in Hu).
  split_and!; try done; try lia.
  - unfold logged. repeat case_bool_decide; set_solver.
  - unfold logged. repeat case_bool_decide; set_solver.
  - by apply (geom_allocated s V r G Hrr).
  - intros x Hx. unfold allocated. rewrite zset_eq. unfold memset. by rewrite (proj2 (in_range_spec 0 BSIZE x)) by lia.
  - intros c H1 H2. by apply (allocated_keeps s).
Qed.

(** C16: [bmap] implements the map from file blocks to disk blocks.  A block that exists is found
    through the direct addresses or the indirect block and nothing changes; for a missing block a
    free block is taken, zeroed and entered in the map, and the answer is 0 only when no free
    block is left; at most that block and the file's indirect block are taken; every other entry of
    the map and the contents of every data block outside the file's indirect block stay the same. *)
Theorem bmap_spec (s : fs S) (V : Z -> block) (H : gmap Z nat) (bs : list Z) (ip : nat) (x : inode) (bn : Z)
    (P : bmap_pre s V H bs ip x) (Hbn : 0 <= bn < MAXFILE) :
  exists r l x' V' bs', bmap ip bn s = Ok (r, with_inode l ip x' s) /\ fview (with_inode l ip x' s) V' H bs' /\
    (forall n, 0 <= n < MAXFILE -> faddr V' x' n = if n =? bn then r else faddr V x n) /\
    (faddr V x bn <> 0 -> r = faddr V x bn /\ x' = x /\ V' = V) /\
    (faddr V x bn = 0 ->
       if r =? 0 then full (sb s) V'
       else data_block (sb s) V' r /\ used (sb s) V r = false /\ forall i, 0 <= i < BSIZE -> V' r i = 0) /\
    (forall c, 0 <= c < sb_size (sb s) -> used (sb s) V' c = true ->
       used (sb s) V c = true \/ c = r \/ c = nth (Z.to_nat NDIRECT) (addrs x') 0) /\
    (forall c, data_block (sb s) V c ->
       data_block (sb s) V' c /\ (c <> nth (Z.to_nat NDIRECT) (addrs x) 0 -> V' c = V c)) /\
    geom (sb s) V' /\ inode_ok (sb s) V' x' /\ isize x' = isize x.
Proof.
  destruct (bmap_ok s V H bs ip x bn P Hbn) as (r & l & x' & V' & bs' & E & B). exists r, l, x', V', bs'.
  split; [exact E |]. destruct B as [? ? ? ? [? _] ? ? Hold Hnew Hfull ?]. split_and!; try done.
  - intros Hf. by destruct (Hold Hf) as (? & ? & _ & ?).
  - intros Hf. destruct (Z.eqb_spec r 0); auto.
Qed.

(** C36: [dirlookup] finds the first entry in use whose name agrees with the name looked for up
    to the NUL or [DIRSIZ] characters, and continues with [iget] of its inode number; when no
    entry matches it returns the null pointer; on an inode that is not a directory it panics. *)
Theorem dirlookup_spec (s : fs S) (V : Z -> block) (H : gmap Z nat) (bs : list Z) (dp : nat) (x : inode)
    (name : list Z) (n : nat) (P : bmap_pre s V H bs dp x) (FO : file_ok (sb s) V H x) (Hname : byte_list name)
    (Hent : forall j, (j < n)%nat -> byte_list (entry V x j)) (Hsz : isize x = Z.of_nat n * dirent_size) :
  if i_type x =? T_DIR then
    exists l, fview (with_log l s) V H bs /\
      dirlookup dp name s =
      match first_match n 0 (matches V x name) with
      | None => Ok (None, with_log l s)
      | Some j => (let! ip := iget ROOTDEV (de_inum (entry V x j)) in
                   ret (Some (ip, Z.of_nat j * dirent_size))) (with_log l s)
      end
  else dirlookup dp name s = Panic "dirlookup not DIR".
Proof.
  pose proof (br_ip _ _ _ _ _ _ P) as Hx. unfold dirlookup.
  rewrite (bind_ok _ _ _ _ _ (geti_ok dp x i_type s Hx)). destruct (i_type x =? T_DIR); cbn [negb]; [| done].
  rewrite (bind_ok _ _ _ _ _ (geti_ok dp x isize s Hx)). change 0 with (Z.of_nat 0 * dirent_size).
  apply dirlookup_loop_ok; try done. rewrite Hsz, Z.div_mul by done. lia.
Qed.

(** [iget] keeps the inode table well formed (no inode has two entries in use) and counts
    references exactly: the entry it returns is in use for the inode asked for, whose count
    grew by one while all other counts are unchanged; it panics only when all entries are in use for
    other inodes. *)
Lemma iget_spec (s : fs S) (d n : Z) (It : itab_ok (itable s)) :
  match iget d n s with
  | Ok (i, s') => flog s' = flog s /\ sb s' = sb s /\ itab_ok (itable s') /\
      (exists x, itable s' !! i = Some x /\ i_dev x = d /\ inum x = n /\ 0 < ref x) /\
      refcount (itable s') d n = refcount (itable s) d n + 1 /\
      (forall d' n', (d', n') <> (d, n) -> refcount (itable s') d' n' = refcount (itable s) d' n')
  | Panic _ => forall i x, itable s !! i = Some x -> 0 < ref x /\ ~ (i_dev x = d /\ inum x = n)
  | Diverge => False
  end.
Proof. by apply iget_ok. Qed.
End Props.

(** An inode survives the way to disk and back: what [iupdate] stores for inode [i],
    [ilock] reads again unchanged, and the other inodes of the block are not affected. *)
Lemma inode_disk_roundtrip (b : block) (i : Z) (x : inode) (Hi : 0 <= i) (Hx : disk_fields x) :
  get_dinode (put_dinode b (dip i) x) (dip i) x = x /\
  forall j y, 0 <= j -> j mod IPB <> i mod IPB -> get_dinode (put_dinode b (dip i) x) (dip j) y = get_dinode b (dip j) y.
Proof.
  split; [by apply dinode_roundtrip |]. intros j y Hj Hne. apply dinode_others; try done. apply Hx.
Qed.

(** [skipelem] takes a path apart into its elements: it returns the null pointer exactly when
    the path has no element, otherwise the first element cut at [DIRSIZ] characters and a strictly
    shorter rest with the remaining elements, which is empty exactly when the element was the last
    one. *)
Lemma skipelem_spec (path : list Z) :
  match elems path [] with
  | [] => skipelem path = None
  | e :: es => exists rest, skipelem path = Some (rest, take (Z.to_nat DIRSIZ) e) /\ elems rest [] = es /\
                 (rest = [] <-> es = []) /\ (length rest < length path)%nat
  end.
Proof. apply skipelem_elems. Qed.

(** ** Witnesses *)

(** A file system of 100 blocks: log at 2, inodes at 32, bitmap in block 45; the blocks up
    to 47 are in use, 46 and 47 by a directory with two entries. *)
Definition tiny_sb : superblock := mksb FSMAGIC 100 54 200 30 2 32 45.

(** The directory's entry [i] is named by the letter [97 + i]. *)
Definition tiny_disk (b : Z) : block :=
  if b =? 45 then (fun x => if x <? 6 then 255 else 0)
  else if b =? 46 then put_bytes (put_bytes (fun _ => 0) 0 (mk_dirent 1 [97])) 16 (mk_dirent 7 [98])
  else fun _ => 0.

Definition tiny_dir : inode :=
  mkinode ROOTDEV 1 1 Sleeplock.initsleeplock true T_DIR 0 0 1 32 (46 :: replicate 12 0).

Definition tiny_table : list inode := tiny_dir :: replicate 3 inode0.

(** The file system just started, with one operation open. *)
Lemma tiny_view :
  exists (l : log bcache) (V : Z -> block), @fview _ _ (bio_ok 1) (mkfs l tiny_sb tiny_table) V ∅ [] /\
    forall b, ~ in_log 2 b -> V b = tiny_disk b.
Proof.
  destruct (restart_ok 1 tiny_disk 2 LOGSIZE) as (r & a & ws & _ & F & _ & Hr & _);
    [lia | unfold LOGSIZE, MAXOPBLOCKS; lia | by apply empty_valid |].
  exists (set_outstanding 1 r), (disk (lcache r)). split.
  - exists a. destruct F as [T Hh Hv Hs Hsz Ho Hc]. split; try done; cbn.
    + destruct r, T. by split.
    + intros x _. pose proof (tx_rep _ _ _ T) as R. apply (cr_clean _ _ _ R); [rewrite (tx_pin _ _ _ T); set_solver | by rewrite Hh].
  - intros b Hb. rewrite Hr by done. by apply logical_empty.
Qed.

Lemma tiny_block b : 0 <= b < 100 -> BBLOCK b tiny_sb = 45 /\ b mod BPB = b.
Proof.
  intros Hb. unfold BBLOCK, BPB, BSIZE. rewrite Z.div_small, Z.mod_small by lia. done.
Qed.

Lemma not_in_log b : 32 <= b \/ b < 2 -> ~ in_log 2 b.
Proof. unfold in_log, LOGSIZE, MAXOPBLOCKS. lia. Qed.

Lemma tiny_used V b : (forall b, ~ in_log 2 b -> V b = tiny_disk b) -> 0 <= b < 100 -> used tiny_sb V b = (b <? 48).
Proof.
  intros HV Hb. unfold used. destruct (tiny_block b Hb) as [-> ->]. rewrite HV by (apply not_in_log; lia).
  assert (forallb (fun i => Bool.eqb (bit_set (tiny_disk 45) (Z.of_nat i)) (Z.of_nat i <? 48)) (seq 0 100) = true) as Hall
    by (vm_compute; reflexivity).
  rewrite forallb_forall in Hall. specialize (Hall (Z.to_nat b)). rewrite Z2Nat.id in Hall by lia.
  apply eqb_prop, Hall, in_seq. lia.
Qed.

Lemma tiny_home b : 32 <= b < 100 -> home tiny_sb b.
Proof. intros Hb. split; [lia | apply not_in_log; lia]. Qed.

Lemma tiny_geom V : (forall b, ~ in_log 2 b -> V b = tiny_disk b) -> geom tiny_sb V.
Proof.
  intros HV. split; cbn [tiny_sb sb_size bmapstart].
  - lia.
  - by vm_compute.
  - intros b Hb. destruct (tiny_block b Hb) as [-> _]. by apply tiny_home.
  - intros b Hb Hu. rewrite tiny_used in Hu by done. apply Z.ltb_ge in Hu. split; [apply tiny_home; lia |].
    intros c Hc. destruct (tiny_block c Hc) as [-> _]. lia.
  - by rewrite tiny_used by done.
Qed.

Lemma tiny_data V b : (forall b, ~ in_log 2 b -> V b = tiny_disk b) -> 46 <= b < 48 -> data_block tiny_sb V b.
Proof.
  intros HV Hb. split_and!; cbn; try lia.
  - rewrite tiny_used by (done || lia). apply Z.ltb_lt. lia.
  - apply tiny_home. lia.
  - intros c Hc. destruct (tiny_block c Hc) as [-> _]. lia.
Qed.

Lemma tiny_pre l V :
  @fview _ _ (bio_ok 1) (mkfs l tiny_sb tiny_table) V ∅ [] -> (forall b, ~ in_log 2 b -> V b = tiny_disk b) ->
  @bmap_pre _ _ (bio_ok 1) (mkfs l tiny_sb tiny_table) V ∅ [] 0 tiny_dir.
Proof.
  intros F HV. split; try done.
  - by apply tiny_geom.
  - vm_compute. lia.
  - vm_compute. lia.
Qed.

Lemma bmap_spec_witness :
  exists (s : fs bcache) V, @fview _ _ (bio_ok 1) s V ∅ [] /\
  exists r l x' V' bs', @bmap _ (bio_cache 1) 0 20 s = Ok (r, with_inode l 0 x' s) /\
    @fview _ _ (bio_ok 1) (with_inode l 0 x' s) V' ∅ bs' /\
    (forall n, 0 <= n < MAXFILE -> faddr V' x' n = if n =? 20 then r else faddr V tiny_dir n) /\
    (faddr V tiny_dir 20 <> 0 -> r = faddr V tiny_dir 20 /\ x' = tiny_dir /\ V' = V) /\
    (faddr V tiny_dir 20 = 0 ->
       if r =? 0 then full (sb s) V'
       else data_block (sb s) V' r /\ used (sb s) V r = false /\ forall i, 0 <= i < BSIZE -> V' r i = 0) /\
    (forall c, 0 <= c < sb_size (sb s) -> used (sb s) V' c = true ->
       used (sb s) V c = true \/ c = r \/ c = nth (Z.to_nat NDIRECT) (addrs x') 0) /\
    (forall c, data_block (sb s) V c ->
       data_block (sb s) V' c /\ (c <> nth (Z.to_nat NDIRECT) (addrs tiny_dir) 0 -> V' c = V c)) /\
    geom (sb s) V' /\ inode_ok (sb s) V' x' /\ isize x' = isize tiny_dir.
Proof.
  destruct tiny_view as (l & V & F & HV). exists (mkfs l tiny_sb tiny_table), V. split; [exact F |].
  refine (@bmap_spec _ _ (bio_ok 1) (mkfs l tiny_sb tiny_table) V ∅ [] 0 tiny_dir 20 (tiny_pre l V F HV) _).
  unfold MAXFILE, NDIRECT, NINDIRECT, BSIZE. change (1024 / 4) with 256. lia.
Defined.

Lemma tiny_file V : (forall b, ~ in_log 2 b -> V b = tiny_disk b) -> file_ok tiny_sb V ∅ tiny_dir.
Proof.
  intros HV. split; [change (isize tiny_dir) with 32; unfold MAXFILE, NDIRECT, NINDIRECT, BSIZE; change (1024 / 4) with 256; lia |].
  intros bn H0 H1. change (isize tiny_dir) with 32 in H1. unfold BSIZE in H1. assert (bn = 0) as -> by lia. split; [| apply lookup_empty].
  change (faddr V tiny_dir 0) with 46. apply tiny_data; [done | lia].
Qed.

Lemma tiny_entry V j : (forall b, ~ in_log 2 b -> V b = tiny_disk b) -> (j < 2)%nat ->
  entry V tiny_dir j = nth j [mk_dirent 1 [97]; mk_dirent 7 [98]] [].
Proof.
  intros HV Hj. unfold entry, fbytes.
  assert (forall k, (k < 16)%nat -> fbyte V tiny_dir (Z.of_nat j * dirent_size + Z.of_nat k) =
    tiny_disk 46 (Z.of_nat j * dirent_size + Z.of_nat k)) as Hb.
  { intros k Hk. unfold fbyte, dirent_size, BSIZE. rewrite Z.div_small, Z.mod_small by lia.
    change (faddr V tiny_dir 0) with 46. rewrite HV by (apply not_in_log; lia). done. }
  rewrite (list_fmap_ext _ (fun k => tiny_disk 46 (Z.of_nat j * dirent_size + Z.of_nat k))).
  - destruct j as [|[|j]]; [vm_compute; reflexivity.. | lia].
  - intros i k Hk. apply lookup_seq in Hk as [-> Hk]. apply Hb. exact Hk.
Qed.

Lemma dirlookup_spec_witness :
  exists (s : fs bcache) V, @fview _ _ (bio_ok 1) s V ∅ [] /\
  exists l, @fview _ _ (bio_ok 1) (with_log l s) V ∅ [] /\
    @dirlookup _ (bio_cache 1) 0 [98] s =
    (let! ip := iget ROOTDEV 7 in ret (Some (ip, 1 * dirent_size))) (with_log l s).
Proof.
  destruct tiny_view as (l & V & F & HV). exists (mkfs l tiny_sb tiny_table), V. split; [exact F |].
  pose proof (@dirlookup_spec _ _ (bio_ok 1) (mkfs l tiny_sb tiny_table) V ∅ [] 0 tiny_dir [98] 2 (tiny_pre l V F HV) (tiny_file V HV)) as Hs.
  destruct Hs as (l' & F' & E).
  - repeat constructor; lia.
  - intros j Hj. rewrite (tiny_entry V j HV) by done. destruct j as [|[|j]]; [..| lia]; repeat constructor; vm_compute; congruence.
  - done.
  - exists l'. split; [exact F' |]. rewrite E.
    assert (first_match 2 0 (matches V tiny_dir [98]) = Some 1%nat) as Em.
    { cbn [first_match]. unfold matches. rewrite !(tiny_entry V) by (done || lia). vm_compute. reflexivity. }
    rewrite Em, (tiny_entry V 1 HV) by lia. reflexivity.
Defined.

