(* ===== verification/Syscall.v ===== *)
(** * Syscall: system calls, [kernel/syscall.c] and [kernel/sysproc.c]

    The fetching of arguments from the trapframe and from user memory, the dispatch table,
    and the handlers of [sysproc.c].  The handlers of [sysfile.c] are an interface
    ([FileCalls]).  A handler that gives up the CPU is cut at [swtch]: it ends in [Blocked]
    with what it has on its kernel stack ([susp]), and [resume] is the rest of it, run when
    the process is scheduled again.

    The theorems: [sys_sleep] returns 0 after the number of clock ticks it was asked for, or
    -1 when the process is killed before; [sys_setpriority] on bad priorities and known pids,
    with what it does instead of the documented reset of the index and for unknown pids. *)

From stdpp Require Import base list strings.
From Stdlib Require Import ZArith Lia.
From S2P Require Import Prelude Riscv Mem Kalloc Vm Proc Sched ProcLife ProcInv.

(** ** Data *)

(** The handlers of [sysfile.c]. *)
Inductive filecall : Type :=
  | CallPipe | CallRead | CallExec | CallFstat | CallChdir | CallDup | CallOpen | CallWrite
  | CallMknod | CallUnlink | CallLink | CallMkdir | CallClose | CallGetreadcount.

#[export] Instance filecall_eq_dec : EqDecision filecall.
Proof. solve_decision. Defined.

(** The function pointers in the table [syscalls]. *)
Inductive handler : Type :=
  | sys_fork | sys_exit | sys_wait | sys_kill | sys_getpid | sys_sbrk | sys_sleep | sys_uptime
  | sys_waitx | sys_setpriority
  | sys_file (f : filecall).

(** What a handler of [sysproc.c] has on its stack while its process does not run; [X] is the
    same for the handlers of [sysfile.c]. *)
Inductive susp (X : Type) : Type :=
  | InSleep (n ticks0 : Z)
  | InWait (addr : Z)
  | InWaitx (addr addr1 addr2 : Z)
  | InYield (result : Z)
  | InFile (x : X).
Arguments InSleep {X}.
Arguments InWait {X}.
Arguments InWaitx {X}.
Arguments InYield {X}.
Arguments InFile {X}.

(** A handler returns a [uint64], waits, or never returns because the process exits. *)
Inductive sysout (X : Type) : Type :=
  | Done (v : Z)
  | Blocked (s : susp X)
  | Exited.
Arguments Done {X}.
Arguments Blocked {X}.
Arguments Exited {X}.

(** The system calls of [sysfile.c] on hart [c], and their continuation after a wait. *)
Class FileCalls (F : Type) : Type := {
  fsusp : Type;
  file_call : filecall -> nat -> M (kernel F) (sysout fsusp);
  file_resume : nat -> fsusp -> M (kernel F) (sysout fsusp);
}.

(** The table [syscalls]: the entry at index [num], [None] for the null pointer. *)
Definition syscalls (num : Z) : option handler :=
  match num with
  | 1 => Some sys_fork
  | 2 => Some sys_exit
  | 3 => Some sys_wait
  | 4 => Some (sys_file CallPipe)
  | 5 => Some (sys_file CallRead)
  | 6 => Some sys_kill
  | 7 => Some (sys_file CallExec)
  | 8 => Some (sys_file CallFstat)
  | 9 => Some (sys_file CallChdir)
  | 10 => Some (sys_file CallDup)
  | 11 => Some sys_getpid
  | 12 => Some sys_sbrk
  | 13 => Some sys_sleep
  | 14 => Some sys_uptime
  | 15 => Some (sys_file CallOpen)
  | 16 => Some (sys_file CallWrite)
  | 17 => Some (sys_file CallMknod)
  | 18 => Some (sys_file CallUnlink)
  | 19 => Some (sys_file CallLink)
  | 20 => Some (sys_file CallMkdir)
  | 21 => Some (sys_file CallClose)
  | 22 => Some sys_waitx
  | 23 => Some (sys_file CallGetreadcount)
  | 24 => Some sys_setpriority
  | _ => None
  end.

(** [NELEM(syscalls)] *)
Definition nsyscalls : Z := 25.

(** [strlen] of a string in a kernel buffer. *)
Fixpoint buf_strlen (l : list Z) : Z :=
  match l with
  | [] => 0
  | c :: l' => if c =? 0 then 0 else 1 + buf_strlen l'
  end.

(** The [uint64] whose bytes are [l], the first byte the least significant. *)
Fixpoint le_value (l : list Z) : Z :=
  match l with
  | [] => 0
  | b :: l' => b + 256 * le_value l'
  end.

(** ** Code *)

Section Code.
Context `{I : Image} {F : Type} `{FS : FileLayer F} `{FC : FileCalls F}.
Context (forkret_addr : Z).

(** What the stack slots of [sys_waitx]'s locals [wtime] and [rtime] hold before they are
    stored to. *)
Context (stack_wtime stack_rtime : Z).

(** *** Arguments *)

(** Status and the word fetched. *)
Definition fetchaddr (c : nat) (addr : Z) : M (kernel F) (Z * Z) :=
  let! p := cur c in
  let! size := getp p sz in
  if (size <=? addr) || (size <? u64 (addr + 8)) then ret (-1, 0) else
  let! pt := getp p pagetable in
  let! r := on_vm (copyin pt addr 8) in
  let '(st, bytes) := r in
  if negb (st =? 0) then ret (-1, 0) else
  ret (0, le_value bytes).

(** Status and the buffer filled. *)
Definition fetchstr (c : nat) (addr max : Z) : M (kernel F) (Z * list Z) :=
  let! p := cur c in
  let! pt := getp p pagetable in
  let! r := on_vm (copyinstr pt addr max) in
  let '(st, buf) := r in
  if st <? 0 then ret (-1, buf) else ret (buf_strlen buf, buf).

Definition argraw (c : nat) (n : Z) : M (kernel F) Z :=
  let! p := cur c in
  let! tf := getp p trapframe in
  if (0 <=? n) && (n <=? 5) then on_vm (ld64 (tf + tf_a0 + 8 * n)) else panic "argraw".

Definition argint (c : nat) (n : Z) : M (kernel F) Z :=
  let! v := argraw c n in ret (i32 v).

Definition argaddr (c : nat) (n : Z) : M (kernel F) Z := argraw c n.

Definition argstr (c : nat) (n max : Z) : M (kernel F) (Z * list Z) :=
  let! addr := argaddr c n in
  fetchstr c addr max.

(** *** The handlers of [sysproc.c] *)

Definition do_exit (c : nat) : M (kernel F) (sysout fsusp) :=
  let! n := argint c 0 in
  do! exit c n in
  ret Exited.

Definition do_getpid (c : nat) : M (kernel F) (sysout fsusp) :=
  let! p := cur c in
  let! v := getp p pid in
  ret (Done (u64 v)).

Definition do_fork (c : nat) : M (kernel F) (sysout fsusp) :=
  let! v := fork forkret_addr c in
  ret (Done (u64 v)).

(** [wait(p)] from the top of its loop. *)
Definition wait_out (c : nat) (addr : Z) : M (kernel F) (sysout fsusp) :=
  let! r := wait c addr in
  ret (match r with WaitReturn v _ => Done (u64 v) | WaitSleep => Blocked (InWait addr) end).

Definition do_wait (c : nat) : M (kernel F) (sysout fsusp) :=
  let! addr := argaddr c 0 in
  wait_out c addr.

Definition do_sbrk (c : nat) : M (kernel F) (sysout fsusp) :=
  let! n := argint c 0 in
  let! p := cur c in
  let! addr := getp p sz in
  let! r := growproc c n in
  if r <? 0 then ret (Done (u64 (-1))) else ret (Done addr).

(** The loop of [sys_sleep], from its condition: [ticks - ticks0] and [n] are compared as
    unsigned 32-bit numbers. *)
Definition sleep_loop (c : nat) (n ticks0 : Z) : M (kernel F) (sysout fsusp) :=
  let! now := gets ticks in
  if u32 (now - ticks0) <? u32 n then
    let! p := cur c in
    let! kl := is_killed p in
    if negb (kl =? 0) then ret (Done (u64 (-1))) else
    do! sleep c ChTicks in
    ret (Blocked (InSleep n ticks0))
  else ret (Done 0).

Definition do_sleep (c : nat) : M (kernel F) (sysout fsusp) :=
  let! n := argint c 0 in
  let! ticks0 := gets ticks in
  sleep_loop c n ticks0.

Definition do_kill (c : nat) : M (kernel F) (sysout fsusp) :=
  let! pid := argint c 0 in
  let! v := kill pid in
  ret (Done (u64 v)).

Definition do_uptime : M (kernel F) (sysout fsusp) :=
  let! xticks := gets ticks in
  ret (Done xticks).

(** [waitx] from the top of its loop, and the copies of the two times. *)
Definition waitx_out (c : nat) (addr addr1 addr2 : Z) : M (kernel F) (sysout fsusp) :=
  let! r := waitx c addr in
  match r with
  | WaitSleep => ret (Blocked (InWaitx addr addr1 addr2))
  | WaitReturn v times =>
      let '(rtime, wtime) := default (stack_rtime, stack_wtime) times in
      let! p := cur c in
      let! pt := getp p pagetable in
      let! r1 := on_vm (copyout pt addr1 (int_bytes wtime)) in
      if r1 <? 0 then ret (Done (u64 (-1))) else
      let! r2 := on_vm (copyout pt addr2 (int_bytes rtime)) in
      if r2 <? 0 then ret (Done (u64 (-1))) else
      ret (Done (u64 v))
  end.

Definition do_waitx (c : nat) : M (kernel F) (sysout fsusp) :=
  let! addr := argaddr c 0 in
  let! addr1 := argaddr c 1 in
  let! addr2 := argaddr c 2 in
  waitx_out c addr addr1 addr2.

(** The stores to the process found: [RBI] is set and then recomputed by [update_dp]. *)
Definition reprioritise (new_priority : Z) (p : proc) : proc :=
  let p := set_SP (u32 new_priority) p in
  let p := set_RBI 25 p in
  update_dp p.

Definition do_setpriority (c : nat) : M (kernel F) (sysout fsusp) :=
  let! pid_arg := argint c 0 in
  let! new_priority := argint c 1 in
  if (new_priority <? 0) || (100 <? new_priority) then ret (Done (u64 (-1))) else
  let! found := find_proc NPROC 0 (fun _ p => pid p =? pid_arg) in
  let! old_priority :=
    (match found with
     | Some i =>
         let! old := getp i (fun p => i32 (SP p)) in
         do! modp i (reprioritise new_priority) in
         ret old
     | None => ret 999999999
     end) in
  if negb (old_priority =? -1) && (new_priority <? old_priority) then
    do! yield c in
    ret (Blocked (InYield (u64 old_priority)))
  else ret (Done (u64 old_priority)).

(** *** Dispatch *)

Definition call (h : handler) (c : nat) : M (kernel F) (sysout fsusp) :=
  match h with
  | sys_fork => do_fork c
  | sys_exit => do_exit c
  | sys_wait => do_wait c
  | sys_kill => do_kill c
  | sys_getpid => do_getpid c
  | sys_sbrk => do_sbrk c
  | sys_sleep => do_sleep c
  | sys_uptime => do_uptime
  | sys_waitx => do_waitx c
  | sys_setpriority => do_setpriority c
  | sys_file f => file_call f c
  end.

(** The rest of a handler whose process runs again, on hart [c]. *)
Definition resume (c : nat) (s : susp fsusp) : M (kernel F) (sysout fsusp) :=
  match s with
  | InSleep n ticks0 => do! sleep_return c in sleep_loop c n ticks0
  | InWait addr => do! sleep_return c in wait_out c addr
  | InWaitx addr addr1 addr2 => do! sleep_return c in waitx_out c addr addr1 addr2
  | InYield v => ret (Done v)
  | InFile x => file_resume c x
  end.

(** [p->trapframe->a0 = ...], once the handler has returned. *)
Definition store_result (c : nat) (o : sysout fsusp) : M (kernel F) (sysout fsusp) :=
  match o with
  | Done v =>
      let! p := cur c in
      let! tf := getp p trapframe in
      do! on_vm (st64 (tf + tf_a0) v) in
      ret (Done v)
  | _ => ret o
  end.

Definition syscall (c : nat) : M (kernel F) (sysout fsusp) :=
  let! p := cur c in
  let! tf := getp p trapframe in
  let! a7 := on_vm (ld64 (tf + tf_a7)) in
  let num := i32 a7 in
  match (if (0 <? num) && (num <? nsyscalls) then syscalls num else None) with
  | Some h => let! o := call h c in store_result c o
  | None => store_result c (Done (u64 (-1)))
  end.

Definition syscall_resume (c : nat) (s : susp fsusp) : M (kernel F) (sysout fsusp) :=
  let! o := resume c s in
  store_result c o.

(** *** The clock, [clockintr] of [kernel/trap.c] *)

Definition clockintr (c : nat) : M (kernel F) unit :=
  do! modify (fun k => set_ticks (u32 (ticks k + 1)) k) in
  do! update_time in
  wakeup c ChTicks.

End Code.

(** ** Sleeping for a number of ticks *)

Section Sleep.
Context `{I : Image} {F : Type} `{FS : FileLayer F} `{FC : FileCalls F}.
Context (swt srt : Z).

(** Slot [i] of the table. *)
Definition slot (k : kernel F) (i : nat) : proc := nth i (procs k) proc0.

(** What can happen between the first [sleep] of [sys_sleep(n)] of the process in slot [i] and
    a later moment, with the number of clock interrupts so far: a clock interrupt on any hart,
    except on the one where the process is just going to sleep, whose interrupts are off; a
    pass of the loop of the process itself that sleeps again; a [kill] of any process; and
    anything else that neither touches [ticks] nor marks the process nor puts it to sleep. *)
Inductive tick_run (i : nat) (n t0 : Z) (k0 : kernel F) : nat -> kernel F -> Prop :=
  | tick_start : tick_run i n t0 k0 0 k0
  | tick_clock m k c k' :
      tick_run i n t0 k0 m k -> (cpu_of k c = Some i -> state (slot k i) <> SLEEPING) ->
      clockintr c k = Ok (tt, k') ->
      tick_run i n t0 k0 (S m) k'
  | tick_pass m k c k' :
      tick_run i n t0 k0 m k -> cpu_of k c = Some i ->
      resume swt srt c (InSleep n t0) k = Ok (Blocked (InSleep n t0), k') ->
      tick_run i n t0 k0 m k'
  | tick_kill m k v r k' :
      tick_run i n t0 k0 m k -> kill v k = Ok (r, k') -> tick_run i n t0 k0 m k'
  | tick_other m k k' :
      tick_run i n t0 k0 m k -> ticks k' = ticks k -> length (procs k') = length (procs k) ->
      killed (slot k' i) = killed (slot k i) ->
      (state (slot k' i) = SLEEPING ->
       state (slot k i) = SLEEPING /\ chan (slot k' i) = chan (slot k i)) ->
      tick_run i n t0 k0 m k'.

(** Between the passes: asleep only while ticks are missing and nobody has killed it. *)
Definition dozing (i : nat) (n t0 : Z) (m : nat) (k : kernel F) : Prop :=
  ticks k = u32 (t0 + Z.of_nat m) /\ (i < length (procs k))%nat /\
  (state (slot k i) = SLEEPING -> chan (slot k i) = ChTicks /\ Z.of_nat m < u32 n /\ killed (slot k i) = 0).

Lemma cur_eq c i (k : kernel F) : cpu_of k c = Some i -> cur c k = Ok (i, k).
Proof. intros H. unfold cur, myproc. rewrite bind_gets. fold (cpu_of k c). by rewrite H. Qed.

Lemma slot_alter (k : kernel F) f i : (i < length (procs k))%nat ->
  slot (set_procs (alter f i) k) i = f (slot k i).
Proof.
  intros [p Hp]%lookup_lt_is_Some_2. unfold slot. cbn [procs set_procs].
  rewrite !nth_lookup, list_lookup_alter, Hp, decide_True by done. done.
Qed.

Lemma slot_map_range (k : kernel F) n f i : (i < length (procs k))%nat -> (i < n)%nat ->
  slot (set_procs (map_range n 0 f) k) i = f i (slot k i).
Proof.
  intros [p Hp]%lookup_lt_is_Some_2 Hn. unfold slot. cbn [procs set_procs].
  rewrite !nth_lookup, map_range_lookup, Hp, decide_True by lia. done.
Qed.

Lemma slot_map_beyond (k : kernel F) n f i : (n <= i)%nat ->
  slot (set_procs (map_range n 0 f) k) i = slot k i.
Proof.
  intros Hn. unfold slot. cbn [procs set_procs].
  rewrite !nth_lookup, map_range_lookup, decide_False by lia. done.
Qed.

(** [sleep] and the end of it. *)
Lemma sleep_eq c ch i (k : kernel F) : cpu_of k c = Some i ->
  sleep c ch k = Ok (tt, set_procs (alter (fun p => set_state SLEEPING (set_chan ch p)) i) k).
Proof.
  intros H. unfold sleep. rewrite (bind_ok _ _ _ _ _ (cur_eq _ _ _ H)). unfold modp.
  rewrite bind_modify. unfold modify, set_procs. cbn [procs kvm cpus nextpid initproc ticks kfs].
  by rewrite alter_twice.
Qed.

Lemma sleep_return_eq c i (k : kernel F) : cpu_of k c = Some i ->
  sleep_return c k = Ok (tt, set_procs (alter (set_chan NoChan) i) k).
Proof. intros H. unfold sleep_return. by rewrite (bind_ok _ _ _ _ _ (cur_eq _ _ _ H)). Qed.

Lemma sleep_loop_eq c i n t0 (k : kernel F) : cpu_of k c = Some i ->
  sleep_loop c n t0 k =
  if u32 (ticks k - t0) <? u32 n then
    if killed (slot k i) =? 0
    then Ok (Blocked (InSleep n t0), set_procs (alter (fun p => set_state SLEEPING (set_chan ChTicks p)) i) k)
    else Ok (Done (u64 (-1)), k)
  else Ok (Done 0, k).
Proof.
  intros Hc. unfold sleep_loop. rewrite bind_gets. destruct (_ <? _); [| done].
  rewrite (bind_ok _ _ _ _ _ (cur_eq _ _ _ Hc)). unfold is_killed, getp. rewrite bind_gets.
  fold (slot k i). destruct (killed (slot k i) =? 0); cbn [negb]; [| done].
  by rewrite (bind_ok _ _ _ _ _ (sleep_eq _ _ _ _ Hc)).
Qed.

Lemma clockintr_eq c (k : kernel F) :
  clockintr c k =
  Ok (tt, set_procs (map_range NPROC 0 (wake_one (cpu_of k c) ChTicks))
            (set_procs (map_range NPROC 0 (fun _ => update__proc_stats)) (set_ticks (u32 (ticks k + 1)) k))).
Proof.
  unfold clockintr. rewrite bind_modify. unfold update_time.
  rewrite (bind_ok _ _ _ _ _ (for_modp NPROC 0 (fun _ => update__proc_stats) _)).
  rewrite wakeup_eq. done.
Qed.

Lemma tick_same p : state (update__proc_stats p) = state p /\ chan (update__proc_stats p) = chan p /\
  killed (update__proc_stats p) = killed p.
Proof. unfold update__proc_stats. repeat (case_bool_decide; cbn -[u32]); done. Qed.

Lemma wake_one_same me ch i p : killed (wake_one me ch i p) = killed p /\
  (state (wake_one me ch i p) = SLEEPING -> state p = SLEEPING /\ chan (wake_one me ch i p) = chan p) /\
  (Some i <> me -> chan p = ch -> state (wake_one me ch i p) <> SLEEPING).
Proof. unfold wake_one. repeat (case_bool_decide; cbn); naive_solver. Qed.

Lemma u32_elapsed t m : u32 (u32 (t + Z.of_nat m) - t) = u32 (Z.of_nat m).
Proof. unfold u32. rewrite Zminus_mod_idemp_l. f_equal. lia. Qed.

Lemma u32_succ t m : u32 (u32 (t + Z.of_nat m) + 1) = u32 (t + Z.of_nat (S m)).
Proof. unfold u32. rewrite Zplus_mod_idemp_l. f_equal. lia. Qed.

(** What a pass of the loop answers, with [m] ticks gone by. *)
Definition sleep_answer (n t0 kl : Z) (m : nat) : sysout fsusp :=
  if u32 n <=? Z.of_nat m then Done 0 else if kl =? 0 then Blocked (InSleep n t0) else Done (u64 (-1)).

Lemma resume_sleep_eq c i n t0 m (k : kernel F) :
  dozing i n t0 m k -> cpu_of k c = Some i -> Z.of_nat m < 2 ^ 32 ->
  exists k', resume swt srt c (InSleep n t0) k = Ok (sleep_answer n t0 (killed (slot k i)) m, k') /\
    (Z.of_nat m < u32 n -> killed (slot k i) = 0 -> dozing i n t0 m k').
Proof.
  intros (Ht & Hi & _) Hc Hm. unfold resume, sleep_answer.
  rewrite (bind_ok _ _ _ _ _ (sleep_return_eq _ _ _ Hc)). set (k1 := set_procs _ k).
  assert (slot k1 i = set_chan NoChan (slot k i)) as Hs1 by (by apply slot_alter).
  rewrite (sleep_loop_eq c i), Hs1 by done. cbn [killed set_chan].
  change (ticks k1) with (ticks k). rewrite Ht, u32_elapsed, (u32_small (Z.of_nat m)), Z.ltb_antisym by lia.
  destruct (Z.leb_spec (u32 n) (Z.of_nat m)); cbn [negb]; [eexists; split; [done | lia] |].
  destruct (Z.eqb_spec (killed (slot k i)) 0) as [Hk|]; [| eexists; split; [done | done]].
  eexists. split; [done |]. intros _ _. assert (i < length (procs k1))%nat as Hi1 by (subst k1; cbn; by rewrite length_alter).
  split_and!; [done | cbn; by rewrite !length_alter |]; rewrite slot_alter, Hs1 by done. done.
Qed.

Lemma clock_dozing i n t0 m c (k k' : kernel F) :
  (i < NPROC)%nat -> dozing i n t0 m k -> (cpu_of k c = Some i -> state (slot k i) <> SLEEPING) ->
  clockintr c k = Ok (tt, k') -> dozing i n t0 (S m) k'.
Proof.
  intros HN (Ht & Hi & Hs) Hc. rewrite clockintr_eq. intros [_ <-]%Ok_inv.
  set (k1 := set_ticks _ k). set (k2 := set_procs _ k1).
  assert (slot k2 i = update__proc_stats (slot k i)) as E2 by (apply (slot_map_range k1); done).
  assert (i < length (procs k2))%nat as Hi2 by (unfold k2; cbn [procs set_procs]; by rewrite map_range_length).
  destruct (tick_same (slot k i)) as (S1 & S2 & S3).
  destruct (wake_one_same (cpu_of k c) ChTicks i (slot k2 i)) as (W1 & W2 & W3). rewrite E2 in *.
  split_and!; [| cbn [procs set_procs]; by rewrite map_range_length |].
  - change (u32 (ticks k + 1) = u32 (t0 + Z.of_nat (S m))). by rewrite Ht, u32_succ.
  - rewrite slot_map_range, E2 by done. intros Hw. destruct (W2 Hw) as [Hsl _]. rewrite S1 in Hsl.
    exfalso. apply W3; [intros Hme; by apply Hc | | done]. rewrite S2. by apply Hs.
Qed.

(** [kill] marks the process and wakes it, or leaves it alone. *)
Lemma kill_slot v i (k : kernel F) r k' : (i < length (procs k))%nat -> kill v k = Ok (r, k') ->
  ticks k' = ticks k /\ length (procs k') = length (procs k) /\
  (slot k' i = slot k i \/ killed (slot k' i) = 1 /\ state (slot k' i) <> SLEEPING).
Proof.
  intros Hi. unfold kill. rewrite (bind_ok _ _ _ _ _ (find_proc_eq _ _ _ _)).
  destruct (find_from _ _ _ _) as [j|]; [| intros [_ <-]%Ok_inv; auto].
  unfold modp. rewrite !bind_modify. intros [_ <-]%Ok_inv. split; [done |].
  split; [cbn [procs set_procs]; by rewrite !length_alter |].
  destruct (decide (i = j)) as [->|Hne].
  - right. rewrite !slot_alter by (cbn [procs set_procs]; rewrite ?length_alter; done).
    case_bool_decide as Hs; cbn; [done |]. done.
  - left. unfold slot. cbn [procs set_procs]. rewrite !nth_lookup, !list_lookup_alter_ne by done. done.
Qed.

Lemma tick_run_dozing i n t0 k0 m k : (i < NPROC)%nat ->
  dozing i n t0 0 k0 -> tick_run i n t0 k0 m k -> Z.of_nat m < 2 ^ 32 -> dozing i n t0 m k.
Proof.
  intros HN H0 Hrun. induction Hrun as [| m k c k' Hr IH Hc Hk | m k c k' Hr IH Hc Hk | m k v r k' Hr IH Hk
    | m k k' Hr IH Et El Ek Es]; intros Hm; [done | | | |].
  - eapply clock_dozing; eauto. apply IH. lia.
  - destruct (resume_sleep_eq c i n t0 m k (IH Hm) Hc Hm) as (k2 & E & Hd). rewrite Hk in E.
    apply Ok_inv in E as [E ->]. unfold sleep_answer in E.
    destruct (Z.leb_spec (u32 n) (Z.of_nat m)); [done |]. destruct (Z.eqb_spec (killed (slot k i)) 0); [by apply Hd | done].
  - destruct (IH Hm) as (D1 & D2 & D3). destruct (kill_slot v i k r k' D2 Hk) as (Et & El & [Es|[Ek Es]]);
      (split_and!; [congruence | lia |]); [by rewrite Es | done].
  - destruct (IH Hm) as (D1 & D2 & D3). split_and!; [congruence | lia |].
    intros [Hs Hch]%Es. rewrite Hch, Ek. by apply D3.
Qed.

(** Ticks on a hart that does not run the process. *)
Lemma tick_clocks i n t0 k0 c m : cpu_of k0 c <> Some i ->
  exists k, tick_run i n t0 k0 m k /\ forall c', cpu_of k c' = cpu_of k0 c'.
Proof.
  intros Hc. induction m as [|m (k & Hr & Hk)]; [exists k0; split; [constructor | done] |].
  eexists. split; [eapply (tick_clock _ _ _ _ m k c); [done | by rewrite Hk | apply clockintr_eq] |]. done.
Qed.

End Sleep.

(** ** Properties *)

Section Properties.
Context `{I : Image} {F : Type} `{FS : FileLayer F} `{FC : FileCalls F}.
Context (swt srt : Z).

Lemma argint_eq c p n v (k : kernel F) : cpu_of k c = Some p -> 0 <= n <= 5 ->
  i32 (load64 (mem_of (kvm k)) (trapframe (slot k p) + tf_a0 + 8 * n)) = v -> argint c n k = Ok (v, k).
Proof.
  intros Hc Hn <-. unfold argint, argraw. rewrite bind_assoc, (bind_ok _ _ _ _ _ (cur_eq _ _ _ Hc)), bind_assoc.
  unfold getp. rewrite bind_gets. fold (slot k p). destruct (Z.leb_spec 0 n), (Z.leb_spec n 5); try lia. ifs.
  by destruct k.
Qed.

(** The new priorities; everything else stays. *)
Lemma reprioritise_is np p : 0 <= np <= 100 -> counters_ok p ->
  reprioritise np p = set_DP (Z.min 100 (np + calculate_rbi p)) (set_RBI (calculate_rbi p) (set_SP np p)).
Proof.
  intros Hn Hc. unfold reprioritise, update_dp. pose proof (rbi_range p Hc) as Hr.
  assert (forall v w, calculate_rbi (set_RBI v (set_SP w p)) = calculate_rbi p) as E by (intros; by unfold calculate_rbi).
  rewrite (u32_small np), E by lia. clear E.
  set (rbi := calculate_rbi p) in *. clearbody rbi. rewrite (u32_small rbi) by lia.
  change (SP (set_RBI rbi (set_RBI 25 (set_SP np p)))) with np. change (RBI (set_RBI rbi (set_RBI 25 (set_SP np p)))) with rbi.
  rewrite (u32_small (np + rbi)), i32_small by lia.
  change (set_RBI rbi (set_RBI 25 (set_SP np p))) with (set_RBI rbi (set_SP np p)). f_equal.
  destruct (Z.ltb_spec (np + rbi) 100); rewrite ?u32_small by lia; lia.
Qed.

(** C17: [sys_sleep(n)] on every branch, with [n] taken as an unsigned number as the code does
    and the 32-bit tick counter wrapping around.  It returns 0 at once for 0, -1 when the
    caller is killed already, and blocks otherwise.  From then on, whatever clock interrupts,
    kills and other activity follow, the process is not asleep once [n] clock interrupts have
    been taken or it has been killed; when it runs next, the call returns 0 if the interrupts
    have been taken, -1 if it has been killed before that, and sleeps again otherwise. *)
Theorem sys_sleep_returns (c i : nat) (n : Z) (k : kernel F)
    (Hc : cpu_of k c = Some i) (Hi : (i < NPROC)%nat) (Hl : length (procs k) = NPROC)
    (Ht : 0 <= ticks k < 2 ^ 32) (Harg : argint c 0 k = Ok (n, k)) :
  if u32 n =? 0 then do_sleep c k = Ok (Done 0, k)
  else if negb (killed (slot k i) =? 0) then do_sleep c k = Ok (Done (u64 (-1)), k)
  else exists k0, do_sleep c k = Ok (Blocked (InSleep n (ticks k)), k0) /\
    forall m k1, tick_run swt srt i n (ticks k) k0 m k1 -> Z.of_nat m < 2 ^ 32 ->
      (u32 n <= Z.of_nat m \/ killed (slot k1 i) <> 0 -> state (slot k1 i) <> SLEEPING) /\
      (forall c', cpu_of k1 c' = Some i ->
         exists k2, resume swt srt c' (InSleep n (ticks k)) k1 =
           Ok (if u32 n <=? Z.of_nat m then Done 0
               else if killed (slot k1 i) =? 0 then Blocked (InSleep n (ticks k)) else Done (u64 (-1)), k2)).
Proof.
  unfold do_sleep. rewrite (bind_ok _ _ _ _ _ Harg), bind_gets, (sleep_loop_eq c i), Z.sub_diag by done.
  change (u32 0) with 0. assert (0 <= u32 n) by (unfold u32; apply Z.mod_pos_bound; lia).
  destruct (Z.eqb_spec (u32 n) 0) as [->|Hn]; [done |]. destruct (Z.ltb_spec 0 (u32 n)); [| lia].
  destruct (Z.eqb_spec (killed (slot k i)) 0) as [Hk|]; cbn [negb]; [| done]. eexists. split; [done |].
  intros m k1 Hrun Hm. assert (dozing i n (ticks k) m k1) as Hd.
  { eapply tick_run_dozing; [| | exact Hrun |]; try done. assert (i < length (procs k))%nat by lia.
    split_and!; [by rewrite Z.add_0_r, u32_small | cbn; by rewrite length_alter |]. by rewrite slot_alter. }
  split.
  - destruct Hd as (_ & _ & Hs). intros Hor (_ & ? & ?)%Hs. destruct Hor; [lia | done].
  - intros c' Hc'. by destruct (resume_sleep_eq swt srt c' i n _ m k1 Hd Hc' Hm) as (k2 & E & _); eauto.
Qed.

Lemma yield_eq c me (k : kernel F) : cpu_of k c = Some me ->
  yield c k = Ok (tt, set_procs (alter (set_state RUNNABLE) me) k).
Proof. intros E. unfold yield. by rewrite (bind_ok _ _ _ _ _ (cur_eq _ _ _ E)). Qed.

(** The first slot with a pid. *)
Definition first_pid (k : kernel F) (n : Z) (i : nat) : Prop :=
  (i < NPROC)%nat /\ pid (slot k i) = n /\ forall j, (j < i)%nat -> pid (slot k j) <> n.

Lemma first_pid_found (k : kernel F) n i : first_pid k n i ->
  find_from NPROC 0 (fun _ p => pid p =? n) (procs k) = Some i.
Proof.
  intros (Hi & Hp & Hfirst). destruct (find_from _ _ _ _) as [j|] eqn:Ef.
  - apply find_from_Some in Ef as (Hj & Hpj%Z.eqb_eq & Hno). f_equal.
    destruct (lt_eq_lt_dec i j) as [[|]|]; [| done | by destruct (Hfirst j)].
    specialize (Hno i ltac:(lia)). by apply Z.eqb_neq in Hno.
  - pose proof (find_from_None _ _ _ _ Ef i ltac:(lia)) as Hno. by apply Z.eqb_neq in Hno.
Qed.

(** [sys_setpriority] once its arguments are read and in range. *)
Lemma setpriority_found c me n np i (k : kernel F) :
  cpu_of k c = Some me -> argint c 0 k = Ok (n, k) -> argint c 1 k = Ok (np, k) -> 0 <= np <= 100 ->
  sched_ok (slot k i) -> first_pid k n i ->
  let k1 := set_procs (alter (reprioritise np) i) k in
  do_setpriority c k =
    if np <? SP (slot k i)
    then Ok (Blocked (InYield (SP (slot k i))), set_procs (alter (set_state RUNNABLE) me) k1)
    else Ok (Done (SP (slot k i)), k1).
Proof.
  intros Hme H0 H1 Hn [Hs1 Hs2] Hf. unfold do_setpriority. rewrite (bind_ok _ _ _ _ _ H0), (bind_ok _ _ _ _ _ H1).
  destruct (Z.ltb_spec np 0), (Z.ltb_spec 100 np); try lia. ifs.
  rewrite (bind_ok _ _ _ _ _ (find_proc_eq _ _ _ _)), (first_pid_found k n i Hf).
  rewrite bind_assoc. unfold getp at 1. rewrite bind_gets, bind_assoc. unfold modp. rewrite bind_modify, bind_ret.
  fold (slot k i). rewrite i32_small by lia. destruct (Z.eqb_spec (SP (slot k i)) (-1)); [lia |]. ifs.
  rewrite u64_small by lia. destruct (np <? SP (slot k i)); [| done].
  by rewrite (bind_ok _ _ _ _ _ (yield_eq c me (set_procs (alter (reprioritise np) i) k) Hme)).
Qed.

(** The reset of the behaviour index to 25 is lost: [update_dp] recomputes it. *)
Lemma setpriority_recomputes_rbi np p : 0 <= np <= 100 -> counters_ok p ->
  RBI (reprioritise np p) = calculate_rbi p.
Proof. intros Hn Hc. by rewrite reprioritise_is. Qed.

(** When no slot has the pid the table stays as it is, but the caller still yields and gets
    999999999. *)
Lemma setpriority_unknown_pid c me n np (k : kernel F) :
  cpu_of k c = Some me -> argint c 0 k = Ok (n, k) -> argint c 1 k = Ok (np, k) -> 0 <= np <= 100 ->
  (forall i, (i < NPROC)%nat -> pid (slot k i) <> n) ->
  do_setpriority c k = Ok (Blocked (InYield 999999999), set_procs (alter (set_state RUNNABLE) me) k).
Proof.
  intros Hme H0 H1 Hn Hno. unfold do_setpriority. rewrite (bind_ok _ _ _ _ _ H0), (bind_ok _ _ _ _ _ H1).
  destruct (Z.ltb_spec np 0), (Z.ltb_spec 100 np); try lia. ifs. rewrite (bind_ok _ _ _ _ _ (find_proc_eq _ _ _ _)).
  destruct (find_from _ _ _ _) as [j|] eqn:Ef.
  { apply find_from_Some in Ef as (Hj & Hpj%Z.eqb_eq & _). by destruct (Hno j); [lia |]. }
  rewrite bind_ret. change (999999999 =? -1) with false. destruct (Z.ltb_spec np 999999999); [| lia]. ifs.
  by rewrite (bind_ok _ _ _ _ _ (yield_eq _ _ _ Hme)).
Qed.

(** C37: [sys_setpriority(pid, new)] for a priority outside [0, 100] gives -1 and changes
    nothing.  Otherwise, when a process has the pid, its static priority becomes the new one,
    its dynamic priority follows from it, nothing else of it but the behaviour index changes
    and no other process does; the old static priority is returned, after a yield exactly when
    the new one is better.  (The value of the index and unknown pids:
    [setpriority_recomputes_rbi] and [setpriority_unknown_pid].) *)
Theorem setpriority_spec (c me : nat) (pid_arg np : Z) (k : kernel F)
    (Hme : cpu_of k c = Some me) (Hl : length (procs k) = NPROC)
    (H0 : argint c 0 k = Ok (pid_arg, k)) (H1 : argint c 1 k = Ok (np, k))
    (Hok : forall i, sched_ok (slot k i) /\ counters_ok (slot k i)) :
  (~ (0 <= np <= 100) -> do_setpriority c k = Ok (Done (u64 (-1)), k)) /\
  (0 <= np <= 100 -> forall i, first_pid k pid_arg i ->
     let p := slot k i in
     exists rbi, 0 <= rbi <= 100 /\
       let q := set_DP (Z.min 100 (np + rbi)) (set_RBI rbi (set_SP np p)) in
       let k1 := set_procs (alter (fun _ => q) i) k in
       do_setpriority c k =
         if np <? SP p
         then Ok (Blocked (InYield (SP p)), set_procs (alter (set_state RUNNABLE) me) k1)
         else Ok (Done (SP p), k1)).
Proof.
  split.
  - intros Hn. unfold do_setpriority. rewrite (bind_ok _ _ _ _ _ H0), (bind_ok _ _ _ _ _ H1).
    destruct (Z.ltb_spec np 0), (Z.ltb_spec 100 np); try lia; done.
  - intros Hn i Hf p. exists (calculate_rbi p). destruct (Hok i) as [Hs Hc]. pose proof (rbi_range p Hc).
    split; [lia |]. cbv zeta.
    rewrite (setpriority_found c me pid_arg np i k) by done. fold p.
    assert (alter (reprioritise np) i (procs k) =
      alter (fun _ => set_DP (Z.min 100 (np + calculate_rbi p)) (set_RBI (calculate_rbi p) (set_SP np p))) i (procs k)) as E.
    { rewrite <- (reprioritise_is np p) by done. apply list_eq. intros j. rewrite !list_lookup_alter.
      destruct (decide (i = j)) as [<-|]; [| done]. unfold p, slot. rewrite nth_lookup. by destruct (procs k !! i). }
    assert (forall f, f (procs k) = alter (reprioritise np) i (procs k) ->
      set_procs (alter (reprioritise np) i) k = set_procs f k) as E' by (intros f Hf'; unfold set_procs; by rewrite Hf').
    rewrite (E' _ (eq_sym E)). reflexivity.
Qed.

End Properties.

(** ** Witnesses *)

(** No system calls on files. *)
Definition no_calls : FileCalls unit := {|
  fsusp := unit;
  file_call := fun _ _ => ret (Done 0);
  file_resume := fun _ _ => ret (Done 0);
|}.

(** Hart 0 runs the process in slot 1, with pid 7 and its trapframe at address 4096, which
    holds the arguments 7 and 3; the tick counter is about to wrap around. *)
Definition caller : kernel unit :=
  mkkernel (mkvm (store64 (store64 zero_mem (4096 + tf_a0) 7) (4096 + tf_a1) 3) 0 (fun _ => 0))
    (set_SP 50 proc0 :: set_state RUNNING (set_SP 50 (set_trapframe 4096 (set_pid 7 proc0))) ::
     replicate 62 (set_SP 50 proc0))
    [mkcpu (Some 1%nat)] 8 (Some 1%nat) (2 ^ 32 - 1) tt.

Lemma caller_slots i : sched_ok (slot caller i) /\ counters_ok (slot caller i).
Proof.
  unfold slot. cbn [procs caller]. destruct i as [|[|i]]; [by vm_compute | by vm_compute |]. cbn [nth].
  destruct (nth_in_or_default i (replicate 62 (set_SP 50 proc0)) proc0) as [H| ->]; [| by vm_compute].
  apply list_elem_of_In, elem_of_replicate in H as [H _]. rewrite H. by vm_compute.
Qed.

(** The state after the call has gone to sleep. *)
Definition asleep : kernel unit :=
  set_procs (alter (fun p => set_state SLEEPING (set_chan ChTicks p)) 1%nat) caller.

(** After seven ticks on another hart the call returns 0; after a [kill] it returns -1. *)
Lemma sys_sleep_returns_witness :
  do_sleep (FC := no_calls) 0 caller = Ok (Blocked (InSleep 7 (2 ^ 32 - 1)), asleep) /\
  (exists k1 k2, tick_run (FC := no_calls) (I := small_image) 0 0 1 7 (2 ^ 32 - 1) asleep 7 k1 /\
     state (slot k1 1) <> SLEEPING /\
     resume (FC := no_calls) (I := small_image) 0 0 0 (InSleep 7 (2 ^ 32 - 1)) k1 = Ok (Done 0, k2)) /\
  (exists k1 k2, kill 7 asleep = Ok (0, k1) /\ state (slot k1 1) <> SLEEPING /\
     resume (FC := no_calls) (I := small_image) 0 0 0 (InSleep 7 (2 ^ 32 - 1)) k1 = Ok (Done (u64 (-1)), k2)).
Proof.
  pose proof (sys_sleep_returns (FC := no_calls) (I := small_image) 0 0 0 1 7 caller) as H.
  cbn [u32] in H. change (u32 7 =? 0) with false in H. change (killed (slot caller 1) =? 0) with true in H. cbn [negb] in H.
  destruct H as (k0 & H & Hrun);
    [reflexivity | unfold NPROC; lia | reflexivity | cbn; lia | by apply (argint_eq 0 1); [| lia | vm_compute] |].
  assert (do_sleep (FC := no_calls) 0 caller = Ok (Blocked (InSleep 7 (2 ^ 32 - 1)), asleep)) as E by reflexivity.
  rewrite E in H. apply Ok_inv in H as [_ <-]. split; [exact E |]. split.
  - destruct (tick_clocks (FC := no_calls) (I := small_image) 0 0 1 7 (2 ^ 32 - 1) asleep 1 7) as (k1 & R & Hk1); [done |].
    destruct (Hrun 7%nat k1 R ltac:(lia)) as [Hs Hres]. destruct (Hres 0%nat) as (k2 & E2); [by rewrite Hk1 |].
    exists k1, k2. split; [exact R |]. split; [apply Hs; left; by vm_compute | exact E2].
  - set (k1 := match kill 7 asleep with Ok (_, k) => k | _ => asleep end).
    assert (kill 7 asleep = Ok (0, k1)) as Ek by reflexivity.
    destruct (Hrun 0%nat k1) as [Hs Hres]; [eapply tick_kill; [apply tick_start | exact Ek] | lia |].
    destruct (Hres 0%nat) as (k2 & E2); [reflexivity |].
    exists k1, k2. split; [exact Ek |]. split; [apply Hs; right; by vm_compute | exact E2].
Defined.

Lemma setpriority_spec_witness :
  exists k', do_setpriority (FC := no_calls) 0 caller = Ok (Blocked (InYield 50), k') /\ SP (slot k' 1) = 3.
Proof.
  destruct (setpriority_spec (FC := no_calls) 0 1 7 3 caller) as [_ H];
    [reflexivity | reflexivity | by apply (argint_eq 0 1); [| lia | vm_compute] |
     by apply (argint_eq 0 1); [| lia | vm_compute] | exact caller_slots |].
  destruct (H ltac:(lia) 1%nat) as (rbi & _ & E).
  - split_and!; [unfold NPROC; lia | reflexivity |]. intros j Hj. assert (j = 0%nat) as -> by lia. by vm_compute.
  - eexists. split; [exact E | reflexivity].
Defined.
