(* ===== verification/Trap.v ===== *)
(** * Trap: interrupts, exceptions and system calls, [kernel/trap.c]

    Code that runs on hart [c] with the hart's supervisor registers ([csr]) next to the kernel
    state.  The interrupt handlers of the UART and the disk and the registers of the
    interrupt controller are an interface ([Devices]).  [usertrap] and [kerneltrap] are cut
    where the process gives up the CPU, like the system calls of [Syscall.v].

    The theorems: a killed process never gets back to user mode; a store fault is
    answered by returning to the faulting instruction whenever [dup_pg] does not return -1,
    also when it has changed nothing; a timer interrupt in user mode. *)

From stdpp Require Import base list strings.
From Stdlib Require Import ZArith Lia.
From S2P Require Import Prelude Riscv Mem Kalloc Vm Proc Sched ProcLife ProcInv Syscall.

(** ** Data *)

(** The supervisor registers of a hart the code reads and writes. *)
Record csr : Type := mkcsr {
  sstatus : Z;
  sepc : Z;
  scause : Z;
  stval : Z;
  stvec : Z;
  satp : Z;
  sip : Z;
}.

Definition SSTATUS_SPP : Z := Z.shiftl 1 8.
Definition SSTATUS_SPIE : Z := Z.shiftl 1 5.
Definition SSTATUS_SIE : Z := Z.shiftl 1 1.
Definition SATP_SV39 : Z := Z.shiftl 8 60.
Definition MAKE_SATP (pagetable : Z) : Z := Z.lor SATP_SV39 (Z.shiftr pagetable 12).

Definition tf_kernel_satp : Z := 0.
Definition tf_kernel_sp : Z := 8.
Definition tf_kernel_trap : Z := 16.
Definition tf_kernel_hartid : Z := 32.

(** The devices as the interrupt code uses them. *)
Class Devices (F : Type) : Type := {
  plic_claim : M (kernel F) Z;
  plic_complete : Z -> M (kernel F) unit;
  uartintr : M (kernel F) unit;
  virtio_disk_intr : M (kernel F) unit;
}.

(** Where the trap code lives. *)
Class TrapAddrs : Type := {
  kernelvec : Z;
  uservec : Z;
  userret : Z;
  usertrap_addr : Z;
}.

(** Where a process is in the kernel when it gives up the CPU during a trap from user mode. *)
Inductive tsusp (X : Type) : Type :=
  | InSyscall (s : susp X)
  | InTimer.
Arguments InSyscall {X}.
Arguments InTimer {X}.

(** The end of a trap from user mode: a jump to [userret] with a page table, the process
    off the CPU for a while, or the process gone. *)
Inductive trapout (X : Type) : Type :=
  | ToUser (target table : Z)
  | TBlocked (s : tsusp X)
  | TExited.
Arguments ToUser {X}.
Arguments TBlocked {X}.
Arguments TExited {X}.

(** The end of a trap from the kernel: a return, or the process off the CPU with the two
    registers to be restored on its stack. *)
Inductive ktrapout : Type :=
  | KReturn
  | KBlocked (saved_sepc saved_sstatus : Z).

Definition set_sstatus (v : Z) (r : csr) : csr :=
  mkcsr v (sepc r) (scause r) (stval r) (stvec r) (satp r) (sip r).
Definition set_sepc (v : Z) (r : csr) : csr :=
  mkcsr (sstatus r) v (scause r) (stval r) (stvec r) (satp r) (sip r).
Definition set_stvec (v : Z) (r : csr) : csr :=
  mkcsr (sstatus r) (sepc r) (scause r) (stval r) v (satp r) (sip r).
Definition set_sip (v : Z) (r : csr) : csr :=
  mkcsr (sstatus r) (sepc r) (scause r) (stval r) (stvec r) (satp r) v.

(** ** Code *)

Section Code.
Context `{I : Image} {F : Type} `{FS : FileLayer F} `{FC : FileCalls F} `{DV : Devices F} `{TA : TrapAddrs}.
Context (forkret_addr stack_wtime stack_rtime : Z).

Definition machine : Type := kernel F * csr.

(** Kernel code next to the registers. *)
Definition on_k {A} (m : M (kernel F) A) : M machine A := fun s =>
  match m (fst s) with
  | Ok (a, k) => Ok (a, (k, snd s))
  | Panic msg => Panic msg
  | Diverge => Diverge
  end.

Definition rd (f : csr -> Z) : M machine Z := gets (fun s => f (snd s)).
Definition wr (f : csr -> csr) : M machine unit := modify (fun s => (fst s, f (snd s))).

Definition trapinithart : M machine unit := wr (set_stvec kernelvec).

(** 2 for a timer interrupt, 1 for another device, 0 when not recognised. *)
Definition devintr (c : nat) : M machine Z :=
  let! cause := rd scause in
  if has cause (Z.shiftl 1 63) && (Z.land cause 255 =? 9) then
    let! irq := on_k plic_claim in
    do! (if irq =? UART0_IRQ then on_k uartintr
         else if irq =? VIRTIO0_IRQ then on_k virtio_disk_intr
         else ret tt) in
    do! (if negb (irq =? 0) then on_k (plic_complete irq) else ret tt) in
    ret 1
  else if cause =? Z.shiftl 1 63 + 1 then
    do! (if (c =? 0)%nat then on_k (clockintr c) else ret tt) in
    do! wr (fun r => set_sip (Z.land (sip r) (Z.lnot 2)) r) in
    ret 2
  else ret 0.

(** [p->trapframe->f = v] *)
Definition tf_store (p : nat) (offset v : Z) : M machine unit :=
  let! tf := on_k (getp p trapframe) in
  on_k (on_vm (st64 (tf + offset) v)).

Definition tf_load (p : nat) (offset : Z) : M machine Z :=
  let! tf := on_k (getp p trapframe) in
  on_k (on_vm (ld64 (tf + offset))).

Definition usertrapret (c : nat) : M machine (trapout fsusp) :=
  let! p := on_k (cur c) in
  do! wr (fun r => set_sstatus (Z.land (sstatus r) (Z.lnot SSTATUS_SIE)) r) in
  do! wr (set_stvec (u64 (TRAMPOLINE + (uservec - trampoline)))) in
  let! s := rd satp in
  do! tf_store p tf_kernel_satp s in
  let! ks := on_k (getp p kstack) in
  do! tf_store p tf_kernel_sp (u64 (ks + PGSIZE)) in
  do! tf_store p tf_kernel_trap usertrap_addr in
  do! tf_store p tf_kernel_hartid (Z.of_nat c) in
  do! wr (fun r => set_sstatus (Z.lor (Z.land (sstatus r) (Z.lnot SSTATUS_SPP)) SSTATUS_SPIE) r) in
  let! epc := tf_load p tf_epc in
  do! wr (set_sepc epc) in
  let! pt := on_k (getp p pagetable) in
  ret (ToUser (u64 (TRAMPOLINE + (userret - trampoline))) (MAKE_SATP pt)).

(** [usertrap] after the cause has been dealt with. *)
Definition usertrap_end (c p : nat) (which_dev : Z) : M machine (trapout fsusp) :=
  let! kl := on_k (is_killed p) in
  if negb (kl =? 0) then do! on_k (exit c (-1)) in ret TExited else
  if which_dev =? 2 then do! on_k (yield c) in ret (TBlocked InTimer) else
  usertrapret c.

(** ... after [syscall()] has returned, blocked or exited. *)
Definition after_syscall (c : nat) (o : sysout fsusp) : M machine (trapout fsusp) :=
  match o with
  | Done _ => let! p := on_k (cur c) in usertrap_end c p 0
  | Blocked s => ret (TBlocked (InSyscall s))
  | Exited => ret TExited
  end.

(** The conditions of the chain after the system call case, in their order: the values of
    [dup_pg] and [devintr] are computed only when they are reached. *)
Definition handle_fault (c p : nat) : M machine Z :=
  let! cause := rd scause in
  let! cow :=
    (if cause =? 15 then
       let! va := rd stval in
       let! pt := on_k (getp p pagetable) in
       let! r := on_k (on_vm (dup_pg pt va)) in
       ret (negb (r =? -1))
     else ret false) in
  if (cow : bool) then ret 0 else
  let! which_dev := devintr c in
  do! (if which_dev =? 0 then on_k (setkilled p) else ret tt) in
  ret which_dev.

Definition usertrap (c : nat) : M machine (trapout fsusp) :=
  let! status := rd sstatus in
  if has status SSTATUS_SPP then panic "usertrap: not from user mode" else
  do! wr (set_stvec kernelvec) in
  let! p := on_k (cur c) in
  let! pc := rd sepc in
  do! tf_store p tf_epc pc in
  let! cause := rd scause in
  if cause =? 8 then
    let! kl := on_k (is_killed p) in
    if negb (kl =? 0) then do! on_k (exit c (-1)) in ret TExited else
    let! epc := tf_load p tf_epc in
    do! tf_store p tf_epc (u64 (epc + 4)) in
    do! wr (fun r => set_sstatus (Z.lor (sstatus r) SSTATUS_SIE) r) in
    let! o := on_k (syscall forkret_addr stack_wtime stack_rtime c) in
    after_syscall c o
  else
    let! which_dev := handle_fault c p in
    usertrap_end c p which_dev.

(** The rest of [usertrap] when the process runs again, on hart [c]. *)
Definition usertrap_resume (c : nat) (s : tsusp fsusp) : M machine (trapout fsusp) :=
  match s with
  | InSyscall s =>
      let! o := on_k (syscall_resume stack_wtime stack_rtime c s) in
      after_syscall c o
  | InTimer => usertrapret c
  end.

Definition kerneltrap (c : nat) : M machine ktrapout :=
  let! pc := rd sepc in
  let! status := rd sstatus in
  if negb (has status SSTATUS_SPP) then panic "kerneltrap: not from supervisor mode" else
  if has status SSTATUS_SIE then panic "kerneltrap: interrupts enabled" else
  let! which_dev := devintr c in
  if which_dev =? 0 then panic "kerneltrap" else
  let! me := on_k (myproc c) in
  let! running :=
    (match me with
     | Some i => on_k (getp i (fun p => bool_decide (state p = RUNNING)))
     | None => ret false
     end) in
  if (which_dev =? 2) && running then
    do! on_k (yield c) in ret (KBlocked pc status)
  else
    do! wr (set_sepc pc) in
    do! wr (set_sstatus status) in
    ret KReturn.

(** The rest of [kerneltrap] after its [yield]. *)
Definition kerneltrap_resume (saved_sepc saved_sstatus : Z) : M machine unit :=
  do! wr (set_sepc saved_sepc) in
  wr (set_sstatus saved_sstatus).

End Code.

(** ** Facts about runs next to the registers *)

Section Facts.
Context `{I : Image} {F : Type} `{FS : FileLayer F} {FO : FileLayerOk F} `{FC : FileCalls F} `{DV : Devices F} `{TA : TrapAddrs}.
Context (fra swt srt : Z).

Lemma on_k_ok {A} (m : M (kernel F) A) k r a k' : m k = Ok (a, k') -> on_k m (k, r) = Ok (a, (k', r)).
Proof. intros H. unfold on_k. cbn [fst snd]. by rewrite H. Qed.

Lemma on_k_inv {A} (m : M (kernel F) A) k r a s : on_k m (k, r) = Ok (a, s) ->
  exists k', m k = Ok (a, k') /\ s = (k', r).
Proof. unfold on_k. cbn [fst snd]. destruct (m k) as [[b k']| |]; [| done..]. intros [-> <-]%Ok_inv. eauto. Qed.

Lemma bind_rd {B} f (n : Z -> M (machine (F := F)) B) k r : bind (rd f) n (k, r) = n (f r) (k, r).
Proof. reflexivity. Qed.

Lemma bind_wr {B} f (n : unit -> M (machine (F := F)) B) k r : bind (wr f) n (k, r) = n tt (k, f r).
Proof. reflexivity. Qed.

(** [m] keeps the property [P] of the kernel state. *)
Definition stays {A} (P : kernel F -> Prop) (m : M (kernel F) A) : Prop :=
  forall k a k', P k -> m k = Ok (a, k') -> P k'.

Definition mstays {A} (P : kernel F -> Prop) (m : M (machine (F := F)) A) : Prop :=
  forall s a s', P (fst s) -> m s = Ok (a, s') -> P (fst s').

Lemma mstays_bind {A B} P (m : M machine A) (n : A -> M machine B) :
  mstays P m -> (forall a, mstays P (n a)) -> mstays P (bind m n).
Proof. intros Hm Hn s b s' Hs (a & s1 & H1 & H2)%bind_Ok_inv. eapply Hn; [eapply Hm |]; eauto. Qed.

Lemma mstays_if {A} P (b : bool) (m n : M machine A) : mstays P m -> mstays P n -> mstays P (if b then m else n).
Proof. by destruct b. Qed.

Lemma mstays_ret {A} P (a : A) : mstays P (ret a).
Proof. intros s b s' Hs [_ <-]%Ok_inv. done. Qed.

Lemma mstays_rd P f : mstays P (rd f).
Proof. intros s b s' Hs [_ <-]%Ok_inv. done. Qed.

Lemma mstays_wr P f : mstays P (wr f).
Proof. intros s b s' Hs [_ <-]%Ok_inv. done. Qed.

Lemma mstays_on_k {A} P (m : M (kernel F) A) : stays P m -> mstays P (on_k m).
Proof. intros H [k r] a s' Hs (k' & Hm & ->)%on_k_inv. by eapply H. Qed.

(** Slot [p] is the process of hart [c] and has been killed. *)
Definition marked (c p : nat) (k : kernel F) : Prop :=
  cpu_of k c = Some p /\ (p < length (procs k))%nat /\ killed (slot k p) <> 0.

(** The devices neither clear that mark nor switch processes. *)
Definition devices_keep (P : kernel F -> Prop) : Prop :=
  stays P plic_claim /\ (forall irq, stays P (plic_complete irq)) /\ stays P uartintr /\ stays P virtio_disk_intr.

Lemma marked_on_vm {A} c p (m : M vm A) : stays (marked c p) (on_vm m).
Proof.
  intros k a k' Hk. unfold on_vm. destruct (m (kvm k)) as [[b s]| |]; [| done..].
  intros [_ <-]%Ok_inv. exact Hk.
Qed.

Lemma marked_gets {A} c p (f : kernel F -> A) : stays (marked c p) (gets f).
Proof. intros k a k' Hk [_ <-]%Ok_inv. done. Qed.

Lemma marked_setkilled c p : stays (marked c p) (setkilled p).
Proof.
  intros k a k' (H1 & H2 & H3) [_ <-]%Ok_inv.
  split_and!; [done | cbn [procs set_procs]; by rewrite length_alter | by rewrite slot_alter].
Qed.

Lemma marked_clockintr c c' p : stays (marked c p) (clockintr c').
Proof.
  intros k [] k' (H1 & H2 & H3). rewrite clockintr_eq. intros [_ <-]%Ok_inv. split_and!; [done | |].
  - cbn [procs set_procs set_ticks]. by rewrite !map_range_length.
  - destruct (le_lt_dec NPROC p); [by rewrite !slot_map_beyond |].
    rewrite !slot_map_range by (done || (cbn [procs set_procs set_ticks]; by rewrite ?map_range_length)).
    rewrite (proj1 (wake_one_same _ _ _ _)). by rewrite (proj2 (proj2 (tick_same _))).
Qed.

Lemma marked_devintr c c' p : devices_keep (marked c p) -> mstays (marked c p) (devintr c').
Proof.
  intros (D1 & D2 & D3 & D4). unfold devintr. apply mstays_bind; [apply mstays_rd | intros cause].
  apply mstays_if; [| apply mstays_if]; [| | apply mstays_ret].
  - apply mstays_bind; [by apply mstays_on_k | intros irq].
    apply mstays_bind; [repeat apply mstays_if; try (apply mstays_ret); by apply mstays_on_k | intros _].
    apply mstays_bind; [| intros _; apply mstays_ret]. apply mstays_if; [apply mstays_on_k, D2 | apply mstays_ret].
  - apply mstays_bind; [apply mstays_if; [apply mstays_on_k, marked_clockintr | apply mstays_ret] | intros _].
    apply mstays_bind; [apply mstays_wr | intros _; apply mstays_ret].
Qed.

Lemma marked_handle_fault c p : devices_keep (marked c p) -> mstays (marked c p) (handle_fault c p).
Proof.
  intros HD. unfold handle_fault. apply mstays_bind; [apply mstays_rd | intros cause]. apply mstays_bind.
  - apply mstays_if; [| apply mstays_ret]. apply mstays_bind; [apply mstays_rd | intros va].
    apply mstays_bind; [apply mstays_on_k, marked_gets | intros pt].
    apply mstays_bind; [apply mstays_on_k, marked_on_vm | intros r; apply mstays_ret].
  - intros cow. apply mstays_if; [apply mstays_ret |].
    apply mstays_bind; [by apply marked_devintr | intros w].
    apply mstays_bind; [apply mstays_if; [apply mstays_on_k, marked_setkilled | apply mstays_ret] | intros _; apply mstays_ret].
Qed.

(** [exit] of a process in the table leaves a zombie. *)
Lemma exit_zombie c p st (k k' : kernel F) :
  marked c p k -> exit c st k = Ok (tt, k') -> state (slot k' p) = ZOMBIE.
Proof.
  intros (Hc & Hp & _) (p' & l & Hon & _ & Hl & E)%exit_abs. rewrite <- cpu_of_abs, Hc in Hon.
  injection Hon as <-. apply Forall2_length in Hl. rewrite map_range_length in Hl.
  apply (f_equal tab) in E. cbn [tab absk upd_tab] in E, Hl. rewrite length_fmap in Hl.
  destruct (lookup_lt_is_Some_2 l p) as [q Hq]; [lia |].
  assert ((core <$> procs k') !! p = Some (with_state ZOMBIE q)) as E'.
  { rewrite E, list_lookup_alter, decide_True by done. by rewrite Hq. }
  rewrite list_lookup_fmap in E'. unfold slot. rewrite nth_lookup.
  destruct (procs k' !! p) as [q'|]; [| done]. cbn in *. injection E' as E' _. done.
Qed.

Lemma marked_end c p w k r out s : marked c p k -> usertrap_end c p w (k, r) = Ok (out, s) ->
  out = TExited /\ state (slot (fst s) p) = ZOMBIE.
Proof.
  intros Hm. unfold usertrap_end, is_killed, getp.
  rewrite (bind_ok _ _ _ _ _ (on_k_ok (gets _) k r _ _ eq_refl)).
  fold (slot k p). pose proof Hm as (_ & _ & Hk%Z.eqb_neq). rewrite Hk. ifs.
  intros ([] & s1 & (k1 & H1 & ->)%on_k_inv & [<- <-]%Ok_inv)%bind_Ok_inv. split; [done | by eapply exit_zombie].
Qed.

End Facts.

Section Stores.
Context `{I : Image} {F : Type} `{FS : FileLayer F} `{FC : FileCalls F} `{DV : Devices F} `{TA : TrapAddrs}.

Definition with_kvm (s : vm) (k : kernel F) : kernel F :=
  mkkernel s (procs k) (cpus k) (nextpid k) (initproc k) (ticks k) (kfs k).

Lemma tf_store_eq p off v (k : kernel F) r :
  tf_store p off v (k, r) =
  Ok (tt, (with_kvm (set_mem (fun m => store64 m (trapframe (slot k p) + off) v) (kvm k)) k, r)).
Proof. reflexivity. Qed.

Lemma tf_load_eq p off (k : kernel F) r :
  tf_load p off (k, r) = Ok (load64 (mem_of (kvm k)) (trapframe (slot k p) + off), (k, r)).
Proof. by destruct k. Qed.

(** The memory after the four stores of [usertrapret]. *)
Definition ret_mem (tf st ks c : Z) (m : mem) : mem :=
  store64 (store64 (store64 (store64 m (tf + tf_kernel_satp) st) (tf + tf_kernel_sp) ks)
    (tf + tf_kernel_trap) usertrap_addr) (tf + tf_kernel_hartid) c.

Lemma ret_mem_epc tf st ks c m : load64 (ret_mem tf st ks c m) (tf + tf_epc) = load64 m (tf + tf_epc).
Proof.
  unfold ret_mem, tf_kernel_satp, tf_kernel_sp, tf_kernel_trap, tf_kernel_hartid, tf_epc.
  by rewrite !load64_store64_ne by lia.
Qed.

Lemma ret_mem_outside tf st ks c m a : ~ (tf <= a < tf + 40) -> ret_mem tf st ks c m a = m a.
Proof.
  intros Ha. unfold ret_mem, tf_kernel_satp, tf_kernel_sp, tf_kernel_trap, tf_kernel_hartid, store64.
  by rewrite !store_other by lia.
Qed.

(** The registers after [usertrapret]. *)
Definition user_status (v : Z) : Z :=
  Z.lor (Z.land (Z.land v (Z.lnot SSTATUS_SIE)) (Z.lnot SSTATUS_SPP)) SSTATUS_SPIE.

Definition user_csr (pc : Z) (r : csr) : csr :=
  mkcsr (user_status (sstatus r)) pc (scause r) (stval r)
    (u64 (TRAMPOLINE + (uservec - trampoline))) (satp r) (sip r).

Lemma user_status_spp v : has (user_status v) SSTATUS_SPP = false.
Proof.
  unfold SSTATUS_SPP. change (Z.shiftl 1 8) with (2 ^ 8). rewrite has_pow2 by lia. unfold user_status.
  rewrite Z.lor_spec, !Z.land_spec. change (Z.testbit (Z.lnot SSTATUS_SPP) 8) with false.
  change (Z.testbit SSTATUS_SPIE 8) with false. by rewrite andb_false_r.
Qed.

Lemma usertrapret_eq c p (k : kernel F) r : cpu_of k c = Some p ->
  let q := slot k p in
  usertrapret c (k, r) =
  Ok (ToUser (u64 (TRAMPOLINE + (userret - trampoline))) (MAKE_SATP (pagetable q)),
      (with_kvm (set_mem (ret_mem (trapframe q) (satp r) (u64 (kstack q + PGSIZE)) (Z.of_nat c)) (kvm k)) k,
       user_csr (load64 (mem_of (kvm k)) (trapframe q + tf_epc)) r)).
Proof.
  intros Hc q. unfold usertrapret. rewrite (bind_ok _ _ _ _ _ (on_k_ok _ k r _ _ (cur_eq _ _ _ Hc))).
  rewrite !bind_wr, bind_rd. rewrite (bind_ok _ _ _ _ _ (tf_store_eq p _ _ _ _)).
  unfold getp at 1. rewrite (bind_ok _ _ _ _ _ (on_k_ok (gets _) _ _ _ _ eq_refl)).
  do 3 rewrite (bind_ok _ _ _ _ _ (tf_store_eq p _ _ _ _)). rewrite bind_wr.
  rewrite (bind_ok _ _ _ _ _ (tf_load_eq p _ _ _)), bind_wr.
  unfold getp. rewrite (bind_ok _ _ _ _ _ (on_k_ok (gets _) _ _ _ _ eq_refl)).
  by rewrite <- (ret_mem_epc (trapframe q) (satp r) (u64 (kstack q + PGSIZE)) (Z.of_nat c) (mem_of (kvm k))).
Qed.

End Stores.

(** ** Properties *)

Section Properties.
Context `{I : Image} {F : Type} `{FS : FileLayer F} {FO : FileLayerOk F} `{FC : FileCalls F} `{DV : Devices F} `{TA : TrapAddrs}.
Context (fra swt srt : Z).

(** C18: a process that has been killed when it traps does not get back to user mode: on
    every path through [usertrap] (system call, page fault, device or timer interrupt,
    unexpected cause) it exits and is a zombie. *)
Theorem killed_never_returns (c p : nat) (k : kernel F) (r : csr) out s
    (Hm : marked c p k) (Hdev : devices_keep (marked c p))
    (Hrun : usertrap fra swt srt c (k, r) = Ok (out, s)) :
  out = TExited /\ state (slot (fst s) p) = ZOMBIE.
Proof.
  revert Hrun. unfold usertrap. rewrite bind_rd. destruct (has _ _); [done |]. rewrite bind_wr.
  rewrite (bind_ok _ _ _ _ _ (on_k_ok _ k _ _ _ (cur_eq _ _ _ (proj1 Hm)))), bind_rd.
  rewrite (bind_ok _ _ _ _ _ (tf_store_eq _ _ _ _ _)), bind_rd. set (k1 := with_kvm _ k).
  assert (marked c p k1) as Hm1 by exact Hm. clearbody k1. destruct (_ =? 8).
  - unfold is_killed, getp. rewrite (bind_ok _ _ _ _ _ (on_k_ok (gets _) k1 _ _ _ eq_refl)). fold (slot k1 p).
    pose proof Hm1 as (_ & _ & Hk%Z.eqb_neq). rewrite Hk. ifs.
    intros ([] & s1 & (k2 & H2 & ->)%on_k_inv & [<- <-]%Ok_inv)%bind_Ok_inv. split; [done | by eapply exit_zombie].
  - intros (w & [k2 r2] & H2 & H3)%bind_Ok_inv. eapply marked_end; [| exact H3].
    by eapply (marked_handle_fault c p Hdev (k1, _)) in H2.
Qed.

(** A store fault on a mapped page that is not marked copy-on-write (a read-only page) is
    treated as resolved: [dup_pg] returns 0 without a change, and [usertrap] returns to
    the same instruction, with the process table as it was and memory unchanged outside
    the words of the trapframe that belong to the kernel, so the store faults again.  The
    process is not killed. *)
Lemma readonly_store_repeats (c p : nat) (k : kernel F) (r : csr) (pte v : Z)
    (Hc : cpu_of k c = Some p) (Hkl : killed (slot k p) = 0) (Hu : has (sstatus r) SSTATUS_SPP = false)
    (Hcause : scause r = 15) (Hva : 0 < stval r < MAXVA) (Hpc : 0 <= sepc r < 2 ^ 64)
    (s : vm) (Hs : s = set_mem (fun m => store64 m (trapframe (slot k p) + tf_epc) (sepc r)) (kvm k))
    (Hwalk : walk (pagetable (slot k p)) (stval r) false s = Ok (pte, s)) (Hpte : pte <> 0)
    (Hv : load64 (mem_of s) pte = v) (Hcow : has v PTE_COW = false) :
  exists k' r',
    usertrap fra swt srt c (k, r) =
      Ok (ToUser (u64 (TRAMPOLINE + (userret - trampoline))) (MAKE_SATP (pagetable (slot k p))), (k', r')) /\
    sepc r' = sepc r /\ has (sstatus r') SSTATUS_SPP = false /\ procs k' = procs k /\
    forall a, ~ (trapframe (slot k p) <= a < trapframe (slot k p) + 40) -> mem_of (kvm k') a = mem_of (kvm k) a.
Proof.
  assert (dup_pg (pagetable (slot k p)) (stval r) s = Ok (0, s)) as Hdup.
  { unfold dup_pg. destruct (Z.leb_spec MAXVA (stval r)), (Z.eqb_spec (stval r) 0); try lia. ifs.
    rewrite (bind_ok _ _ _ _ _ Hwalk). destruct (Z.eqb_spec pte 0); [done |]. unfold ld64. rewrite bind_gets.
    rewrite Hv, Hcow. done. }
  assert (exists k1, tf_store p tf_epc (sepc r) (k, set_stvec kernelvec r) = Ok (tt, (k1, set_stvec kernelvec r)) /\
            kvm k1 = s /\ procs k1 = procs k /\ cpu_of k1 c = Some p) as (k1 & H1 & Hkvm & Hprocs & Hc1).
  { eexists. split; [apply tf_store_eq |]. by rewrite Hs. }
  assert (slot k1 p = slot k p) as Hslot by (unfold slot; by rewrite Hprocs).
  assert (handle_fault c p (k1, set_stvec kernelvec r) = Ok (0, (with_kvm s k1, set_stvec kernelvec r))) as Hh.
  { unfold handle_fault. rewrite bind_rd. cbn [scause set_stvec]. rewrite Hcause. change (15 =? 15) with true. cbv iota.
    rewrite bind_assoc, bind_rd, bind_assoc. unfold getp. rewrite (bind_ok _ _ _ _ _ (on_k_ok (gets _) k1 _ _ _ eq_refl)).
    fold (slot k1 p). rewrite Hslot. cbn [stval set_stvec]. rewrite bind_assoc.
    rewrite (bind_ok _ _ _ _ _ (on_k_ok (on_vm _) k1 _ 0 (with_kvm s k1) ltac:(unfold on_vm; by rewrite Hkvm, Hdup))).
    done. }
  assert (load64 (mem_of s) (trapframe (slot k p) + tf_epc) = sepc r) as Hepc.
  { rewrite Hs. cbn [mem_of set_mem]. rewrite load64_store64. by apply u64_small. }
  eexists _, _. split.
  - unfold usertrap. rewrite bind_rd, Hu. cbv iota. rewrite bind_wr.
    rewrite (bind_ok _ _ _ _ _ (on_k_ok _ k _ _ _ (cur_eq _ _ _ Hc))), bind_rd.
    cbn [sepc set_stvec]. rewrite (bind_ok _ _ _ _ _ H1), bind_rd. cbn [scause set_stvec]. rewrite Hcause.
    change (15 =? 8) with false. cbv iota. rewrite (bind_ok _ _ _ _ _ Hh).
    unfold usertrap_end, is_killed, getp. rewrite (bind_ok _ _ _ _ _ (on_k_ok (gets _) _ _ _ _ eq_refl)).
    change (procs (with_kvm s k1)) with (procs k1). fold (slot k1 p). rewrite Hslot, Hkl.
    change (0 =? 0) with true. change (0 =? 2) with false. ifs.
    rewrite (usertrapret_eq c p) by exact Hc1. change (slot (with_kvm s k1) p) with (slot k1 p).
    rewrite Hslot. reflexivity.
  - cbn [sepc user_csr sstatus kvm with_kvm]. rewrite Hepc.
    split_and!; [done | apply user_status_spp | done |]. intros a Ha.
    cbn [mem_of set_mem]. rewrite ret_mem_outside by done. rewrite Hs. unfold store64, set_mem. cbn [mem_of]. apply store_other. unfold tf_epc. lia.
Qed.

End Properties.

(** ** Witnesses *)

Definition no_devices : Devices unit := {|
  plic_claim := ret 0;
  plic_complete := fun _ => ret tt;
  uartintr := ret tt;
  virtio_disk_intr := ret tt;
|}.

Definition some_addrs : TrapAddrs := {| kernelvec := 8192; uservec := 0; userret := 144; usertrap_addr := 12288 |}.

(** Hart 0 runs the process in slot 1, killed, child of slot 0. *)
Definition victim : kernel unit :=
  mkkernel (boot_vm zero_mem)
    (proc0 :: set_state RUNNING (set_killed 1 (set_trapframe 4096 (set_pid 7 (set_parent (Some 0%nat) proc0)))) ::
     replicate 62 proc0)
    [mkcpu (Some 1%nat)] 8 (Some 0%nat) 0 tt.

(** A timer interrupt in user mode. *)
Definition timer_csr : csr := mkcsr 32 64 (Z.shiftl 1 63 + 1) 0 0 0 2.

Lemma victim_traps :
  value (usertrap (I := small_image) (FC := no_calls) (DV := no_devices) (TA := some_addrs) 0 0 0 0
           (victim, timer_csr)) = Some TExited.
Proof. vm_compute. reflexivity. Qed.

Lemma no_devices_keep P : devices_keep (DV := no_devices) P.
Proof. repeat split; [| intros ? | |]; intros k a k' Hk [_ <-]%Ok_inv; done. Qed.

Lemma killed_never_returns_witness :
  exists s, usertrap (I := small_image) (FC := no_calls) (DV := no_devices) (TA := some_addrs) 0 0 0 0
              (victim, timer_csr) = Ok (TExited, s) /\ state (slot (fst s) 1) = ZOMBIE.
Proof.
  destruct (value_Some _ _ victim_traps) as [s Hs]. exists s. split; [exact Hs |].
  apply (killed_never_returns (I := small_image) (FC := no_calls) (DV := no_devices) (TA := some_addrs)
           0 0 0 0 1 victim timer_csr TExited s); [| apply no_devices_keep | exact Hs].
  split_and!; [reflexivity | cbn; lia | cbn; lia].
Defined.

(** A process whose page at 4096 is mapped readable and not writable, with no copy-on-write
    mark: the three levels of its page table are the pages from [KERNBASE] on. *)
Definition ro_mem : mem :=
  store64 (store64 (store64 zero_mem KERNBASE (Z.lor (PA2PTE (KERNBASE + PGSIZE)) PTE_V))
    (KERNBASE + PGSIZE) (Z.lor (PA2PTE (KERNBASE + 2 * PGSIZE)) PTE_V))
    (KERNBASE + 2 * PGSIZE + 8) (Z.lor (PA2PTE (KERNBASE + 3 * PGSIZE)) (Z.lor PTE_V (Z.lor PTE_R PTE_U))).

Definition reader : kernel unit :=
  mkkernel (boot_vm ro_mem)
    [set_state RUNNING (set_trapframe (KERNBASE + 4 * PGSIZE) (set_pagetable KERNBASE (set_pid 7 proc0)))]
    [mkcpu (Some 0%nat)] 8 (Some 0%nat) 0 tt.

(** A store to address 4100 from the instruction at 64. *)
Definition store_csr : csr := mkcsr 32 64 15 4100 0 0 0.

Lemma walk_down l pt va v s :
  load64 (mem_of s) (pt + 8 * PX (Z.of_nat (S l)) va) = v -> has v PTE_V = true ->
  walk_loop (S l) pt va false s = walk_loop l (PTE2PA v) va false s.
Proof. intros Hv Hh. cbn [walk_loop]. unfold ld64. rewrite bind_gets, Hv, Hh. done. Qed.

Lemma walk_reader tf : tf = KERNBASE + 4 * PGSIZE ->
  let s := set_mem (fun m => store64 m (tf + tf_epc) 64) (boot_vm ro_mem) in
  walk KERNBASE 4100 false s = Ok (KERNBASE + 2 * PGSIZE + 8, s) /\
  has (load64 (mem_of s) (KERNBASE + 2 * PGSIZE + 8)) PTE_COW = false.
Proof.
  intros -> s. split; [| by vm_compute]. unfold walk. change (MAXVA <=? 4100) with false. cbv iota.
  rewrite (walk_down 1 _ _ (Z.lor (PA2PTE (KERNBASE + PGSIZE)) PTE_V)) by (by vm_compute).
  rewrite (walk_down 0 _ _ (Z.lor (PA2PTE (KERNBASE + 2 * PGSIZE)) PTE_V)) by (by vm_compute).
  reflexivity.
Qed.

