(* ===== verification/File.v ===== *)
(** * File: open files, [kernel/file.c], and the allocation and closing of pipes

    The table of open files above the file system of [Fs.v] and the pipes of [Pipe.v], inside
    the kernel state of [Proc.v].  A [struct file *] or [struct inode *] is the index of its
    table entry plus one, so that 0 is the null pointer.  The fields of a pipe are kept
    apart from the page that [kalloc] gave for them, by the address of the page.

    File system code runs to its end here (a lock or a transaction it has to wait for blocks
    it for ever); reads and writes of pipes and devices can wait ([FWait]).

    [File.v] is the implementation of the interface [FileLayer] of the process layer and
    proves its laws.  The main theorem is in [Sysfile.v]: the reference count of every
    open file is the number of descriptors that refer to it. *)

From stdpp Require Import base list strings.
From Stdlib Require Import ZArith Lia.
From S2P Require Import Prelude Riscv Mem Kalloc Vm Proc Sched ProcLife Spinlock Pipe Bio Log Fs.

(** ** Data *)

Inductive fdtype : Type := FD_NONE | FD_PIPE | FD_INODE | FD_DEVICE.

#[export] Instance fdtype_eq_dec : EqDecision fdtype.
Proof. solve_decision. Defined.

Record file : Type := mkfile {
  ftype : fdtype;
  fref : Z;
  readable : bool;
  writable : bool;
  fpipe : Z;
  fip : Z;
  off : Z;
  fmajor : Z;
}.

Definition file0 : file := mkfile FD_NONE 0 false false 0 0 0 0.

Definition set_fref (v : Z) (f : file) : file :=
  mkfile (ftype f) v (readable f) (writable f) (fpipe f) (fip f) (off f) (fmajor f).
Definition set_ftype (v : fdtype) (f : file) : file :=
  mkfile v (fref f) (readable f) (writable f) (fpipe f) (fip f) (off f) (fmajor f).
Definition set_off (v : Z) (f : file) : file :=
  mkfile (ftype f) (fref f) (readable f) (writable f) (fpipe f) (fip f) v (fmajor f).

Record files (S : Type) : Type := mkfiles {
  ffs : fs S;
  ftab : list file;
  pipes : Z -> pipe;
  readCount : Z;
}.
Arguments mkfiles {S}.
Arguments ffs {S}.
Arguments ftab {S}.
Arguments pipes {S}.
Arguments readCount {S}.

(** The pointer to table entry [i], and the entry a pointer refers to. *)
Definition ptr (i : nat) : Z := Z.of_nat i + 1.
Definition idx (p : Z) : nat := Z.to_nat (p - 1).

(** The sleep channels of the pipe at [pi] and of the log: addresses of kernel objects. *)
Definition pipe_chan (pi : Z) (ch : pchan) : wchan :=
  match ch with ChRead => ChAddr (pi + 536) | ChWrite => ChAddr (pi + 540) end.

(** The buffer cache with the user memory a copy refers to next to it. *)
#[export] Instance with_vm_cache (S : Type) `{Cache S} : Cache (S * vm) := {
  c_boot d := (c_boot d, boot_vm (fun _ => 0));
  c_bread d b := fun s => match c_bread d b s.1 with Ok (h, c) => Ok (h, (c, s.2)) | Panic m => Panic m | Diverge => Diverge end;
  c_bwrite h := fun s => match c_bwrite h s.1 with Ok (u, c) => Ok (u, (c, s.2)) | Panic m => Panic m | Diverge => Diverge end;
  c_brelse h := fun s => match c_brelse h s.1 with Ok (u, c) => Ok (u, (c, s.2)) | Panic m => Panic m | Diverge => Diverge end;
  c_bpin h := fun s => match c_bpin h s.1 with Ok (u, c) => Ok (u, (c, s.2)) | Panic m => Panic m | Diverge => Diverge end;
  c_bunpin h := fun s => match c_bunpin h s.1 with Ok (u, c) => Ok (u, (c, s.2)) | Panic m => Panic m | Diverge => Diverge end;
  c_get h := fun s => match c_get h s.1 with Ok (v, c) => Ok (v, (c, s.2)) | Panic m => Panic m | Diverge => Diverge end;
  c_set h v := fun s => match c_set h v s.1 with Ok (u, c) => Ok (u, (c, s.2)) | Panic m => Panic m | Diverge => Diverge end;
  c_blockno h := fun s => match c_blockno h s.1 with Ok (v, c) => Ok (v, (c, s.2)) | Panic m => Panic m | Diverge => Diverge end;
}.

(** What a device driver's [read] or [write] leads to, and the table [devsw]; [X] is what a
    waiting driver has on its stack. *)
Inductive devout (X : Type) : Type :=
  | DReturn (v : Z)
  | DWait (x : X).
Arguments DReturn {X}.
Arguments DWait {X}.

Class DevSw (F : Type) : Type := {
  dsusp : Type;
  dev_read : Z -> option (nat -> Z -> Z -> M (kernel F) (devout dsusp));
  dev_write : Z -> option (nat -> Z -> Z -> M (kernel F) (devout dsusp));
  dev_resume : nat -> dsusp -> M (kernel F) (devout dsusp);
}.

(** What [fileread] or [filewrite] has on its stack while it waits. *)
Inductive fwait (X : Type) : Type :=
  | InPipeRead (pi addr n : Z)
  | InPipeWrite (pi addr n i : Z)
  | InDevice (x : X).
Arguments InPipeRead {X}.
Arguments InPipeWrite {X}.
Arguments InDevice {X}.

Inductive fileout (X : Type) : Type :=
  | FReturn (v : Z)
  | FWait (w : fwait X).
Arguments FReturn {X}.
Arguments FWait {X}.

(** ** Code *)

Section Code.
Context `{I : Image} {S : Type} `{CS : Cache S}.

(** The address of [log], the channel its waiters sleep on, and the bytes of padding in the
    [struct stat] of [filestat], which nothing stores to. *)
Context (log_addr : Z) (stat_pad : list Z).

Definition onf {A} (m : M (fs S) A) : M (kernel (files S)) A :=
  on_fs (fun s => match m (ffs s) with
                  | Ok (a, f) => Ok (a, mkfiles f (ftab s) (pipes s) (readCount s))
                  | Panic msg => Panic msg
                  | Diverge => Diverge
                  end).

Definition set_cache {T} (c : T) (f : fs S) : fs T :=
  mkfs (mklog c (lstart (flog f)) (lsize (flog f)) (outstanding (flog f)) (committing (flog f)) (ldev (flog f))
          (lh_n (flog f)) (lh_block (flog f)) (wakes (flog f))) (sb f) (itable f).

Definition get_cache {T} (c : S) (f : fs T) : fs S :=
  mkfs (mklog c (lstart (flog f)) (lsize (flog f)) (outstanding (flog f)) (committing (flog f)) (ldev (flog f))
          (lh_n (flog f)) (lh_block (flog f)) (wakes (flog f))) (sb f) (itable f).

(** File system code that copies to or from user memory. *)
Definition onfu {A} (m : M (fs (S * vm)) A) : M (kernel (files S)) A := fun k =>
  match m (set_cache (lcache (flog (ffs (kfs k))), kvm k) (ffs (kfs k))) with
  | Ok (a, f) =>
      let '(c, s) := lcache (flog f) in
      Ok (a, mkkernel s (procs k) (cpus k) (nextpid k) (initproc k) (ticks k)
               (mkfiles (get_cache c f) (ftab (kfs k)) (pipes (kfs k)) (readCount (kfs k))))
  | Panic msg => Panic msg
  | Diverge => Diverge
  end.

Definition getf {A} (f : nat) (g : file -> A) : M (kernel (files S)) A :=
  gets (fun k => g (nth f (ftab (kfs k)) file0)).
Definition on_files (g : files S -> files S) : M (kernel (files S)) unit :=
  on_fs (modify g).
Definition modf (f : nat) (g : file -> file) : M (kernel (files S)) unit :=
  on_files (fun s => mkfiles (ffs s) (alter g f (ftab s)) (pipes s) (readCount s)).
Definition set_pipe (pi : Z) (p : pipe) : M (kernel (files S)) unit :=
  on_files (fun s => mkfiles (ffs s) (ftab s) (fun a => if a =? pi then p else pipes s a) (readCount s)).

(** The pid of the running process, which file system locks record. *)
Definition mypid (c : nat) : M (kernel (files S)) Z :=
  let! p := cur c in getp p pid.

(** *** Transactions and inodes, from the kernel *)

Definition do_begin_op (c : nat) : M (kernel (files S)) unit :=
  let! ok := onf (on_log Log.begin_op) in
  if (ok : bool) then ret tt else diverge.

Definition do_end_op (c : nat) : M (kernel (files S)) unit :=
  do! onf (on_log Log.end_op) in
  wakeup c (ChAddr log_addr).

Definition do_idup (ip : Z) : M (kernel (files S)) Z :=
  do! onf (Fs.idup (idx ip)) in ret ip.

Definition do_iput (c : nat) (ip : Z) : M (kernel (files S)) unit :=
  let! me := mypid c in onf (Fs.iput me (idx ip)).

(** [namei] of "/", from [userinit]: an absolute path needs no current directory. *)
Definition root_dir : M (kernel (files S)) Z :=
  let! r := onf (namei 0 0 [47]) in
  ret (match r with Some ip => ptr ip | None => 0 end).

(** *** The file table *)

Fixpoint find_file (l : list file) (i : nat) : option nat :=
  match l with
  | [] => None
  | f :: l' => if fref f =? 0 then Some i else find_file l' (Datatypes.S i)
  end.

Definition filealloc : M (kernel (files S)) Z :=
  let! r := gets (fun k => find_file (ftab (kfs k)) 0) in
  match r with
  | Some i => do! modf i (set_fref 1) in ret (ptr i)
  | None => ret 0
  end.

Definition do_filedup (f : Z) : M (kernel (files S)) Z :=
  let! r := getf (idx f) fref in
  if r <? 1 then panic "filedup" else
  do! modf (idx f) (set_fref (r + 1)) in
  ret f.

Definition do_pipeclose (c : nat) (pi : Z) (writable : bool) : M (kernel (files S)) unit :=
  let! p := gets (fun k => pipes (kfs k) pi) in
  let '(p', ch, free) := pipeclose writable p in
  do! set_pipe pi p' in
  do! wakeup c (pipe_chan pi ch) in
  if (free : bool) then on_vm (kfree pi) else ret tt.

Definition do_fileclose (c : nat) (f : Z) : M (kernel (files S)) unit :=
  let! r := getf (idx f) fref in
  if r <? 1 then panic "fileclose" else
  do! modf (idx f) (set_fref (r - 1)) in
  if 0 <? r - 1 then ret tt else
  let! ff := getf (idx f) id in
  do! modf (idx f) (set_fref 0) in
  do! modf (idx f) (set_ftype FD_NONE) in
  match ftype ff with
  | FD_PIPE => do_pipeclose c (fpipe ff) (writable ff)
  | FD_INODE | FD_DEVICE =>
      do! do_begin_op c in
      do! do_iput c (fip ff) in
      do_end_op c
  | FD_NONE => ret tt
  end.

(** [struct stat] in memory: dev, ino, type, nlink, padding, size. *)
Definition stat_bytes (st : Z * Z * Z * Z * Z) : list Z :=
  let '(d, ino, ty, nl, size) := st in
  let le n v := (fun i => (v / 256 ^ Z.of_nat i) mod 256) <$> seq 0 n in
  le 4%nat d ++ le 4%nat ino ++ le 2%nat ty ++ le 2%nat nl ++ take 4 (stat_pad ++ replicate 4 0) ++ le 8%nat size.

Definition filestat (c : nat) (f addr : Z) : M (kernel (files S)) Z :=
  let! ff := getf (idx f) id in
  match ftype ff with
  | FD_INODE | FD_DEVICE =>
      let! me := mypid c in
      do! onf (ilock me (Some (idx (fip ff)))) in
      let! st := onf (stati (idx (fip ff))) in
      do! onf (iunlock me (Some (idx (fip ff)))) in
      let! p := cur c in
      let! pt := getp p pagetable in
      let! r := on_vm (copyout pt addr (stat_bytes st)) in
      if r <? 0 then ret (-1) else ret 0
  | _ => ret (-1)
  end.

(** *** Reading and writing *)

Context `{DV : DevSw (files S)}.

(** The channels a pipe operation woke, in order. *)
Fixpoint wake_all (c : nat) (pi : Z) (l : list pchan) : M (kernel (files S)) unit :=
  match l with
  | [] => ret tt
  | ch :: l' => do! wakeup c (pipe_chan pi ch) in wake_all c pi l'
  end.

(** The end of a call of [piperead] or [pipewrite]; [w i] is the call to continue with. *)
Definition pipe_done (c : nat) (pi : Z) (w : Z -> fwait dsusp) (r : presult) : M (kernel (files S)) (fileout dsusp) :=
  match r with
  | PReturn v p wk => do! set_pipe pi p in do! wake_all c pi wk in ret (FReturn v)
  | PSleep ch i p wk =>
      do! set_pipe pi p in
      do! wake_all c pi wk in
      do! sleep c (pipe_chan pi ch) in
      ret (FWait (w i))
  end.

Definition do_piperead (c : nat) (pi addr n : Z) : M (kernel (files S)) (fileout dsusp) :=
  let! p := cur c in
  let! kl := is_killed p in
  let! pt := getp p pagetable in
  let! q := gets (fun k => pipes (kfs k) pi) in
  let! r := on_vm (piperead pt addr n (negb (kl =? 0)) q) in
  pipe_done c pi (fun _ => InPipeRead pi addr n) r.

Definition do_pipewrite (c : nat) (pi addr n i : Z) : M (kernel (files S)) (fileout dsusp) :=
  let! p := cur c in
  let! kl := is_killed p in
  let! pt := getp p pagetable in
  let! q := gets (fun k => pipes (kfs k) pi) in
  let! r := on_vm (pipewrite pt addr n i (negb (kl =? 0)) q) in
  pipe_done c pi (fun i' => InPipeWrite pi addr n i') r.

Definition dev_done (r : devout dsusp) : fileout dsusp :=
  match r with DReturn v => FReturn v | DWait x => FWait (InDevice x) end.

(** A call through [devsw]. *)
Definition dev_call (tab : Z -> option (nat -> Z -> Z -> M (kernel (files S)) (devout dsusp)))
    (c : nat) (major addr n : Z) : M (kernel (files S)) (fileout dsusp) :=
  if (major <? 0) || (NDEV <=? major) then ret (FReturn (-1)) else
  match tab major with
  | None => ret (FReturn (-1))
  | Some op => let! r := op c addr n in ret (dev_done r)
  end.

(** [either_copyout(1, dst + tot, ...)] and [either_copyin(..., 1, src + tot, m)] inside the
    file system code. *)
Definition user_put (pt addr : Z) (tot : Z) (l : list Z) : M (fs (S * vm)) Z := fun s =>
  match copyout pt (u64 (addr + tot)) l (lcache (flog s)).2 with
  | Ok (r, v) => Ok (r, mkfs (mklog ((lcache (flog s)).1, v) (lstart (flog s)) (lsize (flog s)) (outstanding (flog s))
                        (committing (flog s)) (ldev (flog s)) (lh_n (flog s)) (lh_block (flog s)) (wakes (flog s)))
                        (sb s) (itable s))
  | Panic msg => Panic msg
  | Diverge => Diverge
  end.

Definition user_fetch (pt addr : Z) (tot m : Z) : M (fs (S * vm)) (Z * list Z) := fun s =>
  match copyin pt (u64 (addr + tot)) m (lcache (flog s)).2 with
  | Ok (r, v) => Ok (r, mkfs (mklog ((lcache (flog s)).1, v) (lstart (flog s)) (lsize (flog s)) (outstanding (flog s))
                        (committing (flog s)) (ldev (flog s)) (lh_n (flog s)) (lh_block (flog s)) (wakes (flog s)))
                        (sb s) (itable s))
  | Panic msg => Panic msg
  | Diverge => Diverge
  end.

Definition fileread (c : nat) (f addr n : Z) : M (kernel (files S)) (fileout dsusp) :=
  let! ff := getf (idx f) id in
  if negb (readable ff) then ret (FReturn (-1)) else
  match ftype ff with
  | FD_PIPE => do_piperead c (fpipe ff) addr n
  | FD_DEVICE => dev_call dev_read c (fmajor ff) addr n
  | FD_INODE =>
      let! me := mypid c in
      let! p := cur c in
      let! pt := getp p pagetable in
      do! onf (ilock me (Some (idx (fip ff)))) in
      let! r := onfu (readi (user_put pt addr) (idx (fip ff)) (off ff) (u32 n)) in
      do! (if 0 <? r.1 then modf (idx f) (fun g => set_off (u32 (off g + r.1)) g) else ret tt) in
      do! onf (iunlock me (Some (idx (fip ff)))) in
      ret (FReturn r.1)
  | FD_NONE => panic "fileread"
  end.

(** [((MAXOPBLOCKS-1-1-2) / 2) * BSIZE] *)
Definition max_write : Z := (MAXOPBLOCKS - 1 - 1 - 2) / 2 * BSIZE.

(** The loop of [filewrite] on an inode: the number of bytes written when it stops. *)
Fixpoint filewrite_loop (fuel : nat) (c : nat) (f addr n i : Z) : M (kernel (files S)) Z :=
  if negb (i <? n) then ret i else
  match fuel with
  | O => diverge
  | Datatypes.S fu =>
      let n1 := Z.min (n - i) max_write in
      let! ff := getf (idx f) id in
      let! me := mypid c in
      let! p := cur c in
      let! pt := getp p pagetable in
      do! do_begin_op c in
      do! onf (ilock me (Some (idx (fip ff)))) in
      let! r := onfu (writei (user_fetch pt (u64 (addr + i))) (idx (fip ff)) (off ff) n1) in
      do! (if 0 <? r then modf (idx f) (fun g => set_off (u32 (off g + r)) g) else ret tt) in
      do! onf (iunlock me (Some (idx (fip ff)))) in
      do! do_end_op c in
      if negb (r =? n1) then ret i else filewrite_loop fu c f addr n (i + r)
  end.

Definition filewrite (c : nat) (f addr n : Z) : M (kernel (files S)) (fileout dsusp) :=
  let! ff := getf (idx f) id in
  if negb (writable ff) then ret (FReturn (-1)) else
  match ftype ff with
  | FD_PIPE => do_pipewrite c (fpipe ff) addr n 0
  | FD_DEVICE => dev_call dev_write c (fmajor ff) addr n
  | FD_INODE =>
      let! i := filewrite_loop (Z.to_nat n) c f addr n 0 in
      ret (FReturn (if i =? n then n else -1))
  | FD_NONE => panic "filewrite"
  end.

(** The rest of a read or write whose process runs again. *)
Definition file_continue (c : nat) (w : fwait dsusp) : M (kernel (files S)) (fileout dsusp) :=
  match w with
  | InPipeRead pi addr n => do! sleep_return c in do_piperead c pi addr n
  | InPipeWrite pi addr n i => do! sleep_return c in do_pipewrite c pi addr n i
  | InDevice x => let! r := dev_resume c x in ret (dev_done r)
  end.

(** *** Pipes *)

(** Bytes of [struct pipe] before [data]: the spin lock. *)
Definition pipe_data_off : Z := 24.

(** [pipealloc]: the two file pointers, or [None] for -1. *)
Definition pipealloc (c : nat) : M (kernel (files S)) (option (Z * Z)) :=
  let! f0 := filealloc in
  if f0 =? 0 then ret None else
  let! f1 := filealloc in
  if f1 =? 0 then do! do_fileclose c f0 in ret None else
  let! pi := on_vm kalloc in
  if pi =? 0 then do! do_fileclose c f0 in do! do_fileclose c f1 in ret None else
  let! d := on_vm (gets (fun s => bytes_at (mem_of s) (pi + pipe_data_off) 512)) in
  do! set_pipe pi (pipe_init d) in
  do! modf (idx f0) (fun f => mkfile FD_PIPE (fref f) true false pi (fip f) (off f) (fmajor f)) in
  do! modf (idx f1) (fun f => mkfile FD_PIPE (fref f) false true pi (fip f) (off f) (fmajor f)) in
  ret (Some (f0, f1)).

End Code.

(** The file layer of the kernel. *)
Definition kernel_files `{I : Image} {S : Type} `{CS : Cache S} (log_addr : Z) : Proc.FileLayer (files S) := {|
  Proc.filedup := do_filedup;
  Proc.fileclose := do_fileclose log_addr;
  Proc.idup := do_idup;
  Proc.iput := do_iput;
  Proc.begin_op := do_begin_op;
  Proc.end_op := do_end_op log_addr;
  Proc.namei_root := root_dir;
|}.

(** ** The laws of the process layer's interface *)

Section Laws.
Context `{I : Image} {S : Type} `{CS : Cache S} (log_addr : Z).

Lemma frames_getf {A} f (g : file -> A) : frames (getf (S := S) f g).
Proof. apply frames_gets. Qed.

Lemma frames_modf f g : frames (modf (S := S) f g).
Proof. apply frames_on_fs. Qed.

Lemma frames_set_pipe pi p : frames (set_pipe (S := S) pi p).
Proof. apply frames_on_fs. Qed.

Lemma frames_onf {A} (m : M (fs S) A) : frames (onf m).
Proof. apply frames_on_fs. Qed.

Lemma frames_onfu {A} (m : M (fs (S * vm)) A) : frames (onfu m).
Proof.
  intros k a k'. unfold onfu. destruct (m _) as [[b f]| |]; [| done..].
  destruct (lcache (flog f)) as [c s]. intros [_ <-]%Ok_inv. done.
Qed.

Lemma frames_mypid c : frames (mypid (S := S) c).
Proof.
  unfold mypid, cur, myproc. intros k a k'. rewrite bind_assoc, bind_gets.
  destruct (cpu_proc _); [| done]. rewrite bind_ret. by intros [_ <-]%Ok_inv.
Qed.

Lemma frames_diverge {A} : frames (F := files S) (A := A) diverge.
Proof. done. Qed.

Lemma relaxes_wakeup {F} c ch : relaxes (F := F) (wakeup c ch).
Proof. intros k [] k' H. by apply wakeup_relaxed in H. Qed.

#[local] Hint Resolve frames_getf frames_modf frames_set_pipe frames_onf frames_onfu frames_mypid frames_diverge
  relaxes_wakeup : frames.

(** Straight-line code that at most wakes processes. *)
Ltac relaxed_step :=
  repeat match goal with
  | |- forall _, _ => intros ?
  | |- relaxes (bind _ _) => apply relaxes_bind
  | |- relaxes (if ?b then _ else _) => destruct b
  | |- relaxes (match ?x with _ => _ end) => destruct x
  | |- relaxes _ => first [solve [auto with frames] | apply relaxes_frames; solve [auto with frames]]
  end.

Lemma relaxes_begin_op c : relaxes (do_begin_op (S := S) c).
Proof. unfold do_begin_op. relaxed_step. Qed.

Lemma relaxes_end_op c : relaxes (do_end_op (S := S) log_addr c).
Proof. unfold do_end_op. relaxed_step. Qed.

Lemma relaxes_iput c ip : relaxes (do_iput (S := S) c ip).
Proof. unfold do_iput. relaxed_step. Qed.

#[local] Hint Resolve relaxes_begin_op relaxes_end_op relaxes_iput : frames.

Lemma relaxes_pipeclose c pi w : relaxes (do_pipeclose (S := S) c pi w).
Proof. unfold do_pipeclose. relaxed_step. Qed.

#[local] Hint Resolve relaxes_pipeclose : frames.

Lemma relaxes_fileclose c f : relaxes (do_fileclose (S := S) log_addr c f).
Proof. unfold do_fileclose. relaxed_step. Qed.

(** The file table, pipes and file system implement what the process layer relies on. *)
Lemma kernel_files_ok : FileLayerOk (files S) (FS := kernel_files log_addr).
Proof.
  split.
  - intros f. change (frames (do_filedup (S := S) f)). unfold do_filedup.
    apply frames_bind; [apply frames_getf | intros r]. apply frames_if; [apply frames_panic |].
    apply frames_bind; [apply frames_modf | intros _; apply frames_ret].
  - intros i. change (frames (do_idup (S := S) i)). apply frames_bind; [apply frames_onf | intros _; apply frames_ret].
  - change (frames (root_dir (S := S))). apply frames_bind; [apply frames_onf | intros r; apply frames_ret].
  - intros c f. apply relaxes_fileclose.
  - intros c i. apply relaxes_iput.
  - intros c. apply relaxes_begin_op.
  - intros c. apply relaxes_end_op.
Qed.

End Laws.
