(* ===== verification/Exec.v ===== *)
(** * Exec: [kernel/exec.c]

    Loading a program: the ELF headers, the segments, the stack with the argument strings,
    and the commit to the new image.  The arguments are C strings in kernel memory, at
    the addresses of a list; the null pointer that ends [argv] is the end of the
    list.  The error path [bad:] is a value of the phases ([None]) with the size reached so
    far, so that the caller frees what has been built.

    The theorem: [exec] either returns -1 and leaves the slot of the calling process as it was,
    or replaces page table, size, name, and the registers the new program starts with, with the
    stack pointer aligned and inside the stack page. *)

From stdpp Require Import base list strings.
From Stdlib Require Import ZArith Lia.
From S2P Require Import Prelude Riscv Mem Kalloc Vm Proc Sched ProcLife ProcInv Spinlock Pipe Bio Log Fs File Syscall.

(** ** The headers, [elf.h] *)

Definition ELF_MAGIC : Z := 0x464C457F.
Definition ELF_PROG_LOAD : Z := 1.
Definition elfhdr_size : Z := 64.
Definition proghdr_size : Z := 56.

(** The little-endian number in bytes [o, o + n) of [l]. *)
Definition field (l : list Z) (o n : nat) : Z := le_value (take n (drop o l)).

Record elfhdr : Type := mkelf { e_magic : Z; e_entry : Z; e_phoff : Z; e_phnum : Z }.

Definition get_elfhdr (l : list Z) : elfhdr :=
  mkelf (field l 0 4) (field l 24 8) (field l 32 8) (field l 56 2).

Record proghdr : Type := mkph { p_type : Z; p_flags : Z; p_off : Z; p_vaddr : Z; p_filesz : Z; p_memsz : Z }.

Definition get_proghdr (l : list Z) : proghdr :=
  mkph (field l 0 4) (field l 4 4) (field l 8 8) (field l 16 8) (field l 32 8) (field l 40 8).

Definition flags2perm (flags : Z) : Z :=
  let perm := if has flags 1 then PTE_X else 0 in
  if has flags 2 then Z.lor perm PTE_W else perm.

(** The part of a path after its last slash. *)
Fixpoint last_elem (s last : list Z) : list Z :=
  match s with
  | [] => last
  | ch :: s' => last_elem s' (if ch =? 47 then s' else last)
  end.

(** ** Code *)

Section Code.
Context `{I : Image} {S : Type} `{CS : Cache S}.
Context (log_addr : Z).

#[local] Abbreviation KM := (M (kernel (files S))).

(** [readi] to the physical address [pa]. *)
Definition kernel_put (pa : Z) (tot : Z) (l : list Z) : M (fs (S * vm)) Z := fun s =>
  match write_bytes (pa + tot) l (lcache (flog s)).2 with
  | Ok (_, v) => Ok (0, mkfs (mklog ((lcache (flog s)).1, v) (lstart (flog s)) (lsize (flog s)) (outstanding (flog s))
                        (committing (flog s)) (ldev (flog s)) (lh_n (flog s)) (lh_block (flog s)) (wakes (flog s)))
                        (sb s) (itable s))
  | Panic msg => Panic msg
  | Diverge => Diverge
  end.

(** The loop of [loadseg] from byte [i] on. *)
Fixpoint loadseg_loop (fuel : nat) (pagetable va : Z) (ip : nat) (offset sz i : Z) : KM Z :=
  if negb (i <? sz) then ret 0 else
  match fuel with
  | O => diverge
  | Datatypes.S f =>
      let! pa := on_vm (walkaddr pagetable (u64 (va + i))) in
      if pa =? 0 then panic "loadseg: address should exist" else
      let n := if u32 (sz - i) <? PGSIZE then u32 (sz - i) else PGSIZE in
      let! r := onfu (readi (kernel_put pa) ip (u32 (offset + i)) n) in
      if negb (u32 r.1 =? n) then ret (-1) else
      loadseg_loop f pagetable va ip offset sz (u32 (i + PGSIZE))
  end.

(** Fuel: one round per page.  The index only wraps around for a segment of nearly 4 GB,
    for which the source's loop does not end either. *)
Definition loadseg (pagetable va : Z) (ip : nat) (offset sz : Z) : KM Z :=
  loadseg_loop (Datatypes.S (Z.to_nat (sz / PGSIZE))) pagetable va ip offset sz 0.

(** The loop over the program headers, [n] of them: whether all were loaded, and [sz]. *)
Fixpoint load_loop (n : nat) (pagetable : Z) (ip : nat) (off sz : Z) : KM (bool * Z) :=
  match n with
  | O => ret (true, sz)
  | Datatypes.S n' =>
      let! r := onf (readi_kernel ip (u32 off) proghdr_size) in
      if negb (r.1 =? proghdr_size) then ret (false, sz) else
      let ph := get_proghdr r.2 in
      if negb (p_type ph =? ELF_PROG_LOAD) then load_loop n' pagetable ip (i32 (off + proghdr_size)) sz else
      if p_memsz ph <? p_filesz ph then ret (false, sz) else
      if u64 (p_vaddr ph + p_memsz ph) <? p_vaddr ph then ret (false, sz) else
      if negb (p_vaddr ph mod PGSIZE =? 0) then ret (false, sz) else
      let! sz1 := on_vm (uvmalloc pagetable sz (u64 (p_vaddr ph + p_memsz ph)) (flags2perm (p_flags ph))) in
      if sz1 =? 0 then ret (false, sz) else
      let! r := loadseg pagetable (p_vaddr ph) ip (u32 (p_off ph)) (u32 (p_filesz ph)) in
      if r <? 0 then ret (false, sz1) else
      load_loop n' pagetable ip (i32 (off + proghdr_size)) sz1
  end.

(** [strlen] of a string in kernel memory; the strings of [argv] fill at most a page. *)
Definition kstrlen (a : Z) : KM Z :=
  let! r := on_vm (gets (fun s => strlen (Z.to_nat PGSIZE) (mem_of s) a 0)) in
  match r with Some n => ret n | None => diverge end.

(** Pushing the argument strings: the stack pointer and the addresses pushed so far. *)
Fixpoint push_args (argv : list Z) (argc : nat) (pagetable stackbase sp : Z) (ustack : list Z) :
    KM (option (Z * list Z)) :=
  match argv with
  | [] => ret (Some (sp, ustack))
  | a :: argv' =>
      if (MAXARG <=? argc)%nat then ret None else
      let! n := kstrlen a in
      let sp := u64 (sp - (n + 1)) in
      let sp := sp - sp mod 16 in
      if sp <? stackbase then ret None else
      let! bytes := on_vm (gets (fun s => bytes_at (mem_of s) a (Z.to_nat (n + 1)))) in
      let! r := on_vm (copyout pagetable sp bytes) in
      if r <? 0 then ret None else
      push_args argv' (Datatypes.S argc) pagetable stackbase sp (ustack ++ [sp])
  end.

(** The bytes of an array of [uint64]. *)
Definition words_bytes (l : list Z) : list Z :=
  mjoin ((fun v => (fun i => (v / 256 ^ Z.of_nat i) mod 256) <$> seq 0 8) <$> l).

(** The stack: two pages, the lower one without user access; then the arguments and the array
    of pointers to them.  The new size, and the final stack pointer with [argc]. *)
Definition make_stack (pagetable sz : Z) (argv : list Z) : KM (Z * option (Z * Z)) :=
  let sz := PGROUNDUP sz in
  let! sz1 := on_vm (uvmalloc pagetable sz (u64 (sz + 2 * PGSIZE)) PTE_W) in
  if sz1 =? 0 then ret (sz, None) else
  do! on_vm (uvmclear pagetable (u64 (sz1 - 2 * PGSIZE))) in
  let stackbase := u64 (sz1 - PGSIZE) in
  let! r := push_args argv 0 pagetable stackbase sz1 [] in
  match r with
  | None => ret (sz1, None)
  | Some (sp, ustack) =>
      let argc := Z.of_nat (length ustack) in
      let sp := u64 (sp - (argc + 1) * 8) in
      let sp := sp - sp mod 16 in
      if sp <? stackbase then ret (sz1, None) else
      let! r := on_vm (copyout pagetable sp (words_bytes (ustack ++ [0]))) in
      if r <? 0 then ret (sz1, None) else
      ret (sz1, Some (sp, argc))
  end.

(** The commit to the new image. *)
Definition exec_commit (p : nat) (path : list Z) (pagetable sz sp entry oldsz : Z) : KM unit :=
  let! tf := getp p trapframe in
  do! on_vm (st64 (tf + tf_a1) sp) in
  do! modp p (fun q => set_name (safestr 16 (name q) (last_elem path path)) q) in
  let! oldpagetable := getp p Proc.pagetable in
  do! modp p (set_pagetable pagetable) in
  do! modp p (set_sz sz) in
  do! on_vm (st64 (tf + tf_epc) entry) in
  do! on_vm (st64 (tf + tf_sp) sp) in
  proc_freepagetable oldpagetable oldsz.

(** [iunlockput(ip); end_op();] *)
Definition exec_putback (c : nat) (ip : nat) : KM unit :=
  let! me := mypid c in
  do! onf (iunlockput me ip) in
  do_end_op log_addr c.

(** The program in the inode, as far as it can be loaded: its entry point, the new page
    table and its size; a table that was made is given back with [false]. *)
Definition load_image (p ip : nat) : KM (bool * Z * Z * Z) :=
  let! r := onf (readi_kernel ip 0 elfhdr_size) in
  if negb (r.1 =? elfhdr_size) then ret (false, 0, 0, 0) else
  let elf := get_elfhdr r.2 in
  if negb (e_magic elf =? ELF_MAGIC) then ret (false, 0, 0, 0) else
  let! pt := proc_pagetable p in
  if pt =? 0 then ret (false, 0, 0, 0) else
  let! l := load_loop (Z.to_nat (e_phnum elf)) pt ip (i32 (e_phoff elf)) 0 in
  ret (l.1, e_entry elf, pt, l.2).

(** [if(pagetable) proc_freepagetable(pagetable, sz)] *)
Definition exec_free (pagetable sz : Z) : KM unit :=
  if negb (pagetable =? 0) then proc_freepagetable pagetable sz else ret tt.

Definition exec (c : nat) (path : list Z) (argv : list Z) : KM Z :=
  let! p := cur c in
  let! me := mypid c in
  do! do_begin_op c in
  let! dir := getp p cwd in
  let! ipp := onf (namei me (idx dir) path) in
  match ipp with
  | None => do! do_end_op log_addr c in ret (-1)
  | Some ip =>
      do! onf (ilock me (Some ip)) in
      let! l := load_image p ip in
      let '(ok, entry, pt, sz) := l in
      if negb ok then do! exec_free pt sz in do! exec_putback c ip in ret (-1) else
      do! exec_putback c ip in
      let! oldsz := getp p Proc.sz in
      let! st := make_stack pt sz argv in
      match st.2 with
      | None => do! exec_free pt st.1 in ret (-1)
      | Some (sp, argc) => do! exec_commit p path pt st.1 sp entry oldsz in ret argc
      end
  end.

End Code.

(** ** The calling process during system calls *)

Section Own.
Context `{I : Image} {S : Type} `{CS : Cache S} (log_addr : Z).

#[local] Abbreviation KM := (M (kernel (files S))).

(** [m], run by the process in slot [p] on hart [c], does not change its slot. *)
Definition own {A} (c p : nat) (m : KM A) : Prop :=
  forall k a k', cpu_of k c = Some p -> m k = Ok (a, k') ->
    cpu_of k' c = Some p /\ length (procs k') = length (procs k) /\ slot k' p = slot k p.

Lemma own_bind {A B} c p (m : KM A) (n : A -> KM B) :
  own c p m -> (forall a, own c p (n a)) -> own c p (bind m n).
Proof.
  intros Hm Hn k b k' Hc (a & k1 & H1 & H2)%bind_Ok_inv.
  destruct (Hm _ _ _ Hc H1) as (C1 & L1 & E1). destruct (Hn _ _ _ _ C1 H2) as (C2 & L2 & E2). split_and!; congruence.
Qed.

Lemma own_ret {A} c p (a : A) : own c p (ret a).
Proof. intros k b k' Hc [_ <-]%Ok_inv. done. Qed.

Lemma own_gets {A} c p (f : kernel (files S) -> A) : own c p (gets f).
Proof. intros k b k' Hc [_ <-]%Ok_inv. done. Qed.

Lemma own_getp {A} c p i (f : proc -> A) : own c p (getp i f).
Proof. apply own_gets. Qed.

Lemma own_getf {A} c p i (f : file -> A) : own c p (getf i f).
Proof. apply own_gets. Qed.

Lemma own_panic {A} c p msg : own (A := A) c p (panic msg).
Proof. done. Qed.

Lemma own_diverge {A} c p : own (A := A) c p diverge.
Proof. done. Qed.

Lemma own_cur c p c' : own c p (cur c').
Proof.
  intros k a k' Hc. unfold cur, myproc. rewrite bind_gets. destruct (cpu_proc _); [| done]. by intros [_ <-]%Ok_inv.
Qed.

Lemma own_on_vm {A} c p (m : M vm A) : own c p (on_vm m).
Proof.
  intros k a k' Hc. unfold on_vm. destruct (m (kvm k)) as [[b s]| |]; [| done..]. by intros [_ <-]%Ok_inv.
Qed.

Lemma own_on_fs {A} c p (m : M (files S) A) : own c p (on_fs m).
Proof.
  intros k a k' Hc. unfold on_fs. destruct (m (kfs k)) as [[b s]| |]; [| done..]. by intros [_ <-]%Ok_inv.
Qed.

Lemma own_onf {A} c p (m : M (fs S) A) : own c p (onf m).
Proof. apply own_on_fs. Qed.

Lemma own_modf c p i g : own c p (modf (S := S) i g).
Proof. apply own_on_fs. Qed.

Lemma own_set_pipe c p pi q : own c p (set_pipe (S := S) pi q).
Proof. apply own_on_fs. Qed.

Lemma own_onfu {A} c p (m : M (fs (S * vm)) A) : own c p (onfu m).
Proof.
  intros k a k' Hc. unfold onfu. destruct (m _) as [[b f]| |]; [| done..].
  destruct (lcache (flog f)) as [c0 s]. by intros [_ <-]%Ok_inv.
Qed.

Lemma own_wakeup c p ch : own c p (wakeup c ch).
Proof.
  intros k [] k' Hc. rewrite wakeup_eq. intros [_ <-]%Ok_inv.
  split_and!; [done | apply map_range_length |]. unfold slot. cbn [procs set_procs]. rewrite !nth_lookup, map_range_lookup. case_decide; [| done].
  destruct (procs k !! p); [| done]. cbn. unfold wake_one. by rewrite Hc, bool_decide_eq_true_2.
Qed.

End Own.

Create HintDb own.
#[export] Hint Resolve own_ret own_gets own_getp own_getf own_panic own_diverge own_cur own_on_vm own_onf own_modf
  own_set_pipe own_onfu own_wakeup : own.

(** Straight-line code that does not store to the caller's slot. *)
Ltac owned :=
  repeat match goal with
  | |- forall _, _ => intros ?
  | |- own _ _ (bind _ _) => apply own_bind
  | |- own _ _ (if ?b then _ else _) => destruct b
  | |- own _ _ (let '(_, _) := ?x in _) => destruct x
  | |- own _ _ (match ?x with _ => _ end) => destruct x
  | |- own _ _ _ => solve [auto with own]
  end.

(** One step of a run of such code: what it keeps of the caller. *)
Ltac own_step H :=
  lazymatch type of H with
  | bind ?m _ ?k = Ok _ =>
      let x := fresh "x" in let k1 := fresh "k" in let H1 := fresh "H" in
      apply bind_Ok_inv in H as (x & k1 & H1 & H);
      lazymatch goal with
      | Hc : cpu_of k ?c = Some ?p |- _ =>
          let Ho := fresh in
          assert (own c p m) as Ho by owned;
          let C := fresh "C" in let L := fresh "L" in let E := fresh "E" in
          destruct (Ho _ _ _ Hc H1) as (C & L & E); clear Ho Hc;
          repeat match goal with
          | Hs : slot k p = _ |- _ => rewrite Hs in E
          | Hs : length (procs k) = _ |- _ => rewrite Hs in L
          end
      end
  end.

Section ExecFacts.
Context `{I : Image} {S : Type} `{CS : Cache S} (log_addr : Z).

Lemma own_mypid c p : own c p (mypid (S := S) c).
Proof. unfold mypid. owned. Qed.

Lemma own_begin_op c p : own c p (do_begin_op (S := S) c).
Proof. unfold do_begin_op. owned. Qed.

Lemma own_end_op c p : own c p (do_end_op (S := S) log_addr c).
Proof. unfold do_end_op. owned. Qed.

Lemma own_proc_pagetable c p q : own (S := S) c p (proc_pagetable q).
Proof. unfold proc_pagetable. owned. Qed.

Lemma own_proc_freepagetable c p pt sz : own (S := S) c p (proc_freepagetable pt sz).
Proof. unfold proc_freepagetable. owned. Qed.

#[local] Hint Resolve own_mypid own_begin_op own_end_op own_proc_pagetable own_proc_freepagetable : own.

Lemma own_loadseg c p pt va ip offset sz : own c p (loadseg (S := S) pt va ip offset sz).
Proof.
  unfold loadseg. generalize 0 as i. induction (Datatypes.S _) as [|n IH]; intros i; cbn [loadseg_loop]; owned.
Qed.

#[local] Hint Resolve own_loadseg : own.

Lemma own_load_loop c p n pt ip off sz : own c p (load_loop (S := S) n pt ip off sz).
Proof. revert off sz. induction n as [|n IH]; intros off sz; cbn [load_loop]; owned. Qed.

Lemma own_push_args c p argv argc pt sb sp us : own c p (push_args (S := S) argv argc pt sb sp us).
Proof. revert argc sp us. induction argv as [|a argv IH]; intros argc sp us; cbn [push_args]; unfold kstrlen; owned. Qed.

#[local] Hint Resolve own_load_loop own_push_args : own.

Lemma own_load_image c p q ip : own c p (load_image (S := S) q ip).
Proof. unfold load_image. owned. Qed.

Lemma own_make_stack c p pt sz argv : own c p (make_stack (S := S) pt sz argv).
Proof. unfold make_stack. owned. Qed.

Lemma own_putback c p ip : own c p (exec_putback (S := S) log_addr c ip).
Proof. unfold exec_putback. owned. Qed.

Lemma own_exec_free c p pt sz : own c p (exec_free (S := S) pt sz).
Proof. unfold exec_free. owned. Qed.

#[local] Hint Resolve own_load_image own_make_stack own_putback own_exec_free : own.

(** The results of [uvmalloc], and the addresses [uvmclear] accepts. *)
Lemma uvmalloc_loop_result n pt o d b x (s s' : vm) r : uvmalloc_loop n pt o d b x s = Ok (r, s') -> r = 0 \/ r = b.
Proof.
  revert d s. induction n as [|n IH]; intros d s; cbn [uvmalloc_loop]; (destruct (negb _); [intros [<- _]%Ok_inv; auto |]); [done |].
  intros (m & s1 & _ & H)%bind_Ok_inv. destruct (m =? 0).
  { apply bind_Ok_inv in H as (? & ? & _ & [<- _]%Ok_inv). auto. }
  apply bind_Ok_inv in H as ([] & s2 & _ & H). apply bind_Ok_inv in H as (q & s3 & _ & H). destruct (negb _).
  { apply bind_Ok_inv in H as (? & ? & _ & H). apply bind_Ok_inv in H as (? & ? & _ & [<- _]%Ok_inv). auto. }
  by eapply IH.
Qed.

Lemma uvmalloc_result pt a b x (s s' : vm) r : uvmalloc pt a b x s = Ok (r, s') -> r = 0 \/ r = b \/ r = a.
Proof.
  unfold uvmalloc. destruct (b <? a); [intros [<- _]%Ok_inv; auto |]. intros H%uvmalloc_loop_result. tauto.
Qed.

Lemma uvmclear_range pt va (s s' : vm) : uvmclear pt va s = Ok (tt, s') -> va < MAXVA.
Proof.
  unfold uvmclear, walk. destruct (Z.leb_spec MAXVA va); [done | lia].
Qed.

Lemma strlen_range fuel m a n r : 0 <= n -> strlen fuel m a n = Some r -> n <= r < n + Z.of_nat fuel.
Proof.
  revert n. induction fuel as [|f IH]; intros n Hn; cbn [strlen]; [done |].
  destruct (m (a + n) =? 0); [intros [= <-]; lia |]. intros H%IH; lia.
Qed.

Lemma kstrlen_range a (k k' : kernel (files S)) n : kstrlen a k = Ok (n, k') -> 0 <= n < PGSIZE.
Proof.
  unfold kstrlen. intros (r & k1 & H1 & H)%bind_Ok_inv. unfold on_vm, gets in H1. cbn in H1. apply Ok_inv in H1 as [<- _].
  destruct (strlen _ _ a 0) as [m|] eqn:E; [| done]. apply Ok_inv in H as [<- _]. apply strlen_range in E; [| lia].
  rewrite Z2Nat.id in E by done. lia.
Qed.

Lemma align16 v : 0 <= v -> 0 <= v - v mod 16 <= v /\ (v - v mod 16) mod 16 = 0.
Proof.
  intros Hv. pose proof (Z.mod_pos_bound v 16 ltac:(lia)). pose proof (Z.mod_le v 16 Hv ltac:(lia)).
  split; [lia |]. by rewrite Zminus_mod_idemp_r, Z.sub_diag.
Qed.

(** The strings pushed: their number, and where the stack pointer ends up. *)
Lemma push_args_result argv pt sb sp us (k k' : kernel (files S)) sp' us' :
  push_args argv (length us) pt sb sp us k = Ok (Some (sp', us'), k') ->
  PGSIZE <= sb <= sp -> sp < 2 ^ 63 -> (length us <= MAXARG)%nat ->
  length us' = (length us + length argv)%nat /\ (length us' <= MAXARG)%nat /\ sb <= sp' <= sp.
Proof.
  revert sp us k. induction argv as [|a argv IH]; intros sp us k H Hsb Hsp Hus; cbn [push_args] in H.
  - apply Ok_inv in H as [[= <- <-] _]. cbn. lia.
  - destruct (Nat.leb_spec MAXARG (length us)); [done |]. apply bind_Ok_inv in H as (n & k1 & Hn & H). cbv zeta in H.
    apply kstrlen_range in Hn. rewrite u64_small in H by (unfold PGSIZE in *; lia).
    destruct (align16 (sp - (n + 1)) ltac:(unfold PGSIZE in *; lia)) as [Hal _].
    destruct (Z.ltb_spec (sp - (n + 1) - (sp - (n + 1)) mod 16) sb); [done |]. apply bind_Ok_inv in H as (l & k2 & _ & H).
    apply bind_Ok_inv in H as (r & k3 & _ & H). destruct (r <? 0); [done |].
    replace (Datatypes.S (length us)) with (length (us ++ [sp - (n + 1) - (sp - (n + 1)) mod 16])) in H by (rewrite length_app; cbn; lia).
    apply IH in H as (E1 & E2 & E3); [| lia | lia | rewrite length_app; cbn; lia].
    rewrite length_app in E1. cbn in E1 |- *. lia.
Qed.

(** The stack pointer is aligned, and the array of pointers fits between it and the end of
    the stack page. *)
Lemma make_stack_result pt sz argv (k k' : kernel (files S)) sz' sp argc :
  make_stack pt sz argv k = Ok ((sz', Some (sp, argc)), k') ->
  argc = Z.of_nat (length argv) /\ sp mod 16 = 0 /\ sz' - PGSIZE <= sp /\ sp + 8 * (argc + 1) <= sz' /\
  2 * PGSIZE <= sz' < MAXVA + 2 * PGSIZE.
Proof.
  unfold make_stack. intros (sz1 & k1 & H1 & H)%bind_Ok_inv. destruct (Z.eqb_spec sz1 0) as [|Hz]; [done |].
  apply bind_Ok_inv in H as ([] & k2 & H2 & H).
  assert (0 <= sz1 < 2 ^ 64) as Hr.
  { unfold on_vm in H1. destruct (uvmalloc _ _ _ _ (kvm k)) as [[r v]| |] eqn:E; [| done..].
    apply Ok_inv in H1 as [-> _]. apply uvmalloc_result in E as [->|[->| ->]]; [lia | unfold u64; apply Z.mod_pos_bound; lia |].
    unfold PGROUNDUP. apply land_range; [lia |]. apply Z.mod_pos_bound. lia. }
  assert (u64 (sz1 - 2 * PGSIZE) < MAXVA) as Hc.
  { unfold on_vm in H2. destruct (uvmclear _ _ (kvm k1)) as [[[] v]| |] eqn:E; [| done..]. by apply uvmclear_range in E. }
  assert (2 * PGSIZE <= sz1 < MAXVA + 2 * PGSIZE) as Hsz.
  { change MAXVA with (2 ^ 38) in *. unfold PGSIZE in *. destruct (Z.ltb_spec sz1 (2 * 4096)).
    - unfold u64 in Hc. rewrite <- (Z_mod_plus_full _ 1), Z.mod_small in Hc by lia. lia.
    - rewrite u64_small in Hc by lia. lia. }
  assert (u64 (sz1 - PGSIZE) = sz1 - PGSIZE) as Eb by (apply u64_small; unfold PGSIZE in *; lia). rewrite Eb in H.
  apply bind_Ok_inv in H as ([[sp0 us]|] & k3 & H3 & H); [| done].
  apply (push_args_result _ _ _ _ []) in H3 as (E1 & E2 & E3);
    [| unfold PGSIZE in *; lia | change MAXVA with (2 ^ 38) in *; unfold PGSIZE in *; lia | cbn; lia].
  cbn in E1. cbv zeta in H. unfold MAXARG in E2. rewrite u64_small in H by (change MAXVA with (2 ^ 38) in *; unfold PGSIZE in *; lia).
  set (sp1 := sp0 - (Z.of_nat (length us) + 1) * 8) in H.
  destruct (align16 sp1 ltac:(unfold sp1, PGSIZE in *; lia)) as [Hal Hm].
  destruct (Z.ltb_spec (sp1 - sp1 mod 16) (sz1 - PGSIZE)); [done |].
  apply bind_Ok_inv in H as (r & k4 & _ & H). destruct (r <? 0); [done |].
  apply Ok_inv in H as [[= <- <- <-] _]. rewrite E1 in *. split_and!; [done | done | lia | unfold sp1 in *; lia | lia | lia].
Qed.

(** The registers the new program starts with. *)
Definition starts_at (k : kernel (files S)) (p : nat) (entry sp : Z) : Prop :=
  let reg o := load64 (mem_of (kvm k)) (trapframe (slot k p) + o) in
  reg tf_epc = u64 entry /\ reg tf_sp = sp /\ reg tf_a1 = sp.

Lemma load64_st64_eq m a v : 0 <= v < 2 ^ 64 -> load64 (store64 m a v) a = v.
Proof.
  intros Hv. change (load64 (store64 m a v) a) with (load 8 (store 8 m a v) a). rewrite load_store_eq.
  apply Z.mod_small. exact Hv.
Qed.

Lemma load64_st64_ne m a b v : b + 8 <= a \/ a + 8 <= b -> load64 (store64 m a v) b = load64 m b.
Proof. intros H. apply load_store_ne. simpl. lia. Qed.

Lemma exec_commit_slot c p path pt sz sp entry oldsz (k k' : kernel (files S)) :
  (p < length (procs k))%nat -> cpu_of k c = Some p -> 0 <= sp < 2 ^ 64 ->
  exec_commit p path pt sz sp entry oldsz k = Ok (tt, k') ->
  slot k' p = set_sz sz (set_pagetable pt
                (set_name (safestr 16 (name (slot k p)) (last_elem path path)) (slot k p))) /\
  exists k1, starts_at k1 p entry sp /\ slot k1 p = slot k' p /\
    proc_freepagetable (pagetable (slot k p)) oldsz k1 = Ok (tt, k').
Proof.
  intros Hp Hc Hsp. unfold exec_commit, getp. rewrite bind_gets. intros ([] & k1 & H1 & H)%bind_Ok_inv.
  destruct (own_on_vm c p _ k _ _ Hc H1) as (C1 & L1 & E1). apply Ok_inv in H1 as [_ Ek1].
  apply bind_Ok_inv in H as ([] & k2 & [_ <-]%Ok_inv & H). rewrite bind_gets in H.
  apply bind_Ok_inv in H as ([] & k3 & [_ <-]%Ok_inv & H). apply bind_Ok_inv in H as ([] & k4 & [_ <-]%Ok_inv & H).
  set (k2 := set_procs _ k1) in *. set (k3 := set_procs _ k2) in *. set (k4 := set_procs _ k3) in *.
  assert (slot k4 p = set_sz sz (set_pagetable pt
            (set_name (safestr 16 (name (slot k1 p)) (last_elem path path)) (slot k1 p)))) as E4.
  { unfold k4, k3, k2. rewrite !slot_alter by (cbn [procs set_procs]; rewrite ?length_alter; lia). done. }
  rewrite E1 in E4. assert (cpu_of k4 c = Some p) as C4 by exact C1.
  assert (pagetable (nth p (procs k2) proc0) = pagetable (slot k p)) as Eold.
  { fold (slot k2 p). unfold k2. rewrite slot_alter by lia. cbn. by rewrite E1. }
  assert (kvm k4 = set_mem (fun m => store64 m (trapframe (slot k p) + tf_a1) sp) (kvm k)) as Ev4 by (change (kvm k4) with (kvm k1); by rewrite <- Ek1).
  rewrite Eold in H. clear Eold. clearbody k4. clear Ek1 E1 L1 C1 k3 k2 k1.
  apply bind_Ok_inv in H as ([] & k5 & H5 & H). apply bind_Ok_inv in H as ([] & k6 & H6 & H).
  destruct (own_on_vm c p _ _ _ _ C4 H5) as (C5 & _ & E5). apply Ok_inv in H5 as [_ Ek5].
  destruct (own_on_vm c p _ _ _ _ C5 H6) as (C6 & _ & E6). apply Ok_inv in H6 as [_ Ek6].
  destruct (own_proc_freepagetable c p _ _ _ _ _ C6 H) as (_ & _ & E7).
  split; [congruence |]. exists k6. split_and!; [| congruence | exact H].
  assert (trapframe (slot k6 p) = trapframe (slot k p)) as Et by (rewrite E6, E5, E4; done).
  assert (mem_of (kvm k6) = store64 (store64 (store64 (mem_of (kvm k)) (trapframe (slot k p) + tf_a1) sp)
    (trapframe (slot k p) + tf_epc) entry) (trapframe (slot k p) + tf_sp) sp) as Em.
  { rewrite <- Ek6. cbn. rewrite <- Ek5. cbn. by rewrite Ev4. }
  unfold starts_at. cbv zeta. rewrite Et, Em. unfold tf_epc, tf_sp, tf_a1. split_and!.
  - rewrite load64_st64_ne by lia. apply (load_store_eq 8).
  - by rewrite load64_st64_eq.
  - rewrite !load64_st64_ne by lia. by rewrite load64_st64_eq.
Qed.

(** C19: [exec] is all or nothing for the calling process.  It returns -1 with the process's
    slot (page table, size, name, files and everything else in it) as it was; or it returns the
    number of arguments, and the page table, the size and the entry point are those of an image
    that was loaded completely, the name is the last element of the path and everything else
    of the slot is unchanged.  The new stack pointer, which the trapframe holds in [sp] and [a1]
    next to the entry point when the old page table is given back as the last step, is aligned to
    16 bytes, and the pointers to all arguments and the null pointer lie between it and the
    end of the stack page. *)
Theorem exec_all_or_nothing (c p : nat) (path argv : list Z) (k k' : kernel (files S)) (r : Z)
    (Hc : cpu_of k c = Some p) (Hp : (p < length (procs k))%nat)
    (Hrun : exec log_addr c path argv k = Ok (r, k')) :
  (r = -1 /\ slot k' p = slot k p) \/
  (r = Z.of_nat (length argv) /\
   exists pt sz sp entry k1,
     (exists ip ki kj sz0, load_image p ip ki = Ok ((true, entry, pt, sz0), kj)) /\
     slot k' p = set_sz sz (set_pagetable pt
                   (set_name (safestr 16 (name (slot k p)) (last_elem path path)) (slot k p))) /\
     sp mod 16 = 0 /\ sz - PGSIZE <= sp /\ sp + 8 * (r + 1) <= sz /\
     starts_at k1 p entry sp /\ slot k1 p = slot k' p /\
     proc_freepagetable (pagetable (slot k p)) (Proc.sz (slot k p)) k1 = Ok (tt, k')).
Proof.
  unfold exec in Hrun. rewrite (bind_ok _ _ _ _ _ (cur_eq _ _ _ Hc)) in Hrun.
  own_step Hrun. own_step Hrun. own_step Hrun. own_step Hrun. rename x2 into ipp.
  destruct ipp as [ip|]; [| own_step Hrun; apply Ok_inv in Hrun as [<- <-]; by left].
  own_step Hrun. own_step Hrun. destruct x3 as [[[ok entry] pt] sz]. destruct ok; cbn [negb] in Hrun.
  2: { own_step Hrun. own_step Hrun. apply Ok_inv in Hrun as [<- <-]. by left. }
  rename H4 into Hload. own_step Hrun. apply bind_Ok_inv in Hrun as (oldsz & k8 & [<- <-]%Ok_inv & Hrun).
  own_step Hrun. destruct x4 as [sz' [[sp argc]|]]; cbn [fst snd] in Hrun.
  - apply make_stack_result in H5 as (-> & Hal & Hsp & Htop & Hsz).
    apply bind_Ok_inv in Hrun as ([] & k9 & H9 & [<- <-]%Ok_inv).
    right. split; [done |].
    apply (exec_commit_slot c) in H9 as (Hs & kc & Hst & Hs1 & Hfree);
      [| lia | eassumption | change MAXVA with (2 ^ 38) in *; unfold PGSIZE in *; lia].
    exists pt, sz', sp, entry, kc. split_and!; try done; [by eauto | congruence |].
    fold (slot k6 p) in Hfree. by rewrite E6, E5 in Hfree.
  - own_step Hrun. apply Ok_inv in Hrun as [<- <-]. left. by split.
Qed.

End ExecFacts.

(** ** Witness *)

(** The file system of a machine whose only inode in memory is an empty directory, the current
    directory of the process in slot 0. *)
Definition dir_fs : fs bcache :=
  mkfs (log0 (bcache0 (fun _ _ => 0)) ROOTDEV 2 30) (mksb FSMAGIC 1000 900 200 30 2 32 45)
    [mkinode ROOTDEV ROOTINO 1 Sleeplock.initsleeplock true T_DIR 0 0 1 0 (replicate 13 0)].

Definition dir_kernel : kernel (files bcache) :=
  mkkernel (boot_vm zero_mem) [set_state RUNNING (set_cwd 1 (set_pid 3 proc0))] [mkcpu (Some 0%nat)] 4 None 0
    (mkfiles dir_fs [] (fun _ => pipe_init []) 0).

(** [exec("")] finds the directory itself, which is no program. *)
Lemma exec_dir_value :
  value (exec (I := small_image) (CS := bio_cache 0) 4096 0 [] [] dir_kernel) = Some (-1).
Proof. vm_compute. reflexivity. Qed.

(** A machine with a program: the directory lists the file [a], an ELF file of 130 bytes with one
    segment of code.  The process in slot 0 has a trapframe and an empty page table; its argument
    is the string at the start of the last page. *)
Definition le (n : nat) (v : Z) : list Z := (fun i => v / 256 ^ Z.of_nat i mod 256) <$> seq 0 n.

Definition prog_file : list Z :=
  le 4 ELF_MAGIC ++ replicate 20 0 ++ le 8 16 ++ le 8 64 ++ replicate 16 0 ++ le 2 1 ++ replicate 6 0 ++
  le 4 ELF_PROG_LOAD ++ le 4 5 ++ le 8 120 ++ le 8 0 ++ le 8 0 ++ le 8 10 ++ le 8 100 ++ le 8 4096 ++ replicate 10 7.

Definition prog_disk (b : Z) : block :=
  if b =? 46 then put_bytes (fun _ => 0) 0 (mk_dirent 2 [97])
  else if b =? 47 then put_bytes (fun _ => 0) 0 prog_file
  else fun _ => 0.

Definition prog_fs : fs bcache :=
  mkfs (log0 (match binit (bcache0 prog_disk) with Ok (_, s) => s | _ => bcache0 prog_disk end) ROOTDEV 2 30)
    (mksb FSMAGIC 1000 900 200 30 2 32 45)
    [mkinode ROOTDEV ROOTINO 1 Sleeplock.initsleeplock true T_DIR 0 0 1 16 (46 :: replicate 12 0);
     mkinode ROOTDEV 2 1 Sleeplock.initsleeplock true T_FILE 0 0 1 130 (47 :: replicate 12 0)].

Definition arg_page : Z := PHYSTOP - PGSIZE.

Definition prog_kernel : kernel (files bcache) :=
  let k := mkkernel (boot_vm zero_mem) [set_state RUNNING (set_cwd 1 (set_pid 3 proc0))] [mkcpu (Some 0%nat)] 4 None 0
             (mkfiles prog_fs [] (fun _ => pipe_init []) 0) in
  let m : M (kernel (files bcache)) unit :=
    do! on_vm (kinit (I := small_image)) in
    let! a := on_vm kalloc in
    do! on_vm (write_bytes a [104; 105; 0]) in
    let! tf := on_vm kalloc in
    do! modp 0 (set_trapframe tf) in
    let! pt := proc_pagetable (I := small_image) 0 in
    modp 0 (set_pagetable pt) in
  match m k with Ok (_, k) => k | _ => k end.

Lemma exec_prog_value :
  value (exec (I := small_image) (CS := bio_cache 0) 4096 0 [97] [arg_page] prog_kernel) = Some 1.
Proof. vm_compute. reflexivity. Qed.

(** [exec("a", {"hi"})] runs the program; [exec("")] fails. *)
Lemma exec_all_or_nothing_witness :
  (exists k' pt sz sp entry (k1 : kernel (files bcache)),
     exec (I := small_image) (CS := bio_cache 0) 4096 0 [97] [arg_page] prog_kernel = Ok (1, k') /\
     slot k' 0 = set_sz sz (set_pagetable pt (set_name (97 :: replicate 15 0) (slot prog_kernel 0))) /\
     sp mod 16 = 0 /\ sz - PGSIZE <= sp /\ sp + 8 * (1 + 1) <= sz /\ starts_at k1 0 entry sp) /\
  (exists k', exec (I := small_image) (CS := bio_cache 0) 4096 0 [] [] dir_kernel = Ok (-1, k') /\
     slot k' 0 = slot dir_kernel 0).
Proof.
  split.
  - destruct (value_Some _ _ exec_prog_value) as [k' Hk'].
    destruct (exec_all_or_nothing (I := small_image) (CS := bio_cache 0) 4096 0 0 [97] [arg_page] prog_kernel k' 1)
      as [[H _]|(_ & pt & sz & sp & entry & k1 & _ & H1 & H2 & H3 & H4 & H5 & _)];
      [by vm_compute | by vm_compute; lia | exact Hk' | lia |].
    exists k', pt, sz, sp, entry, k1. split; [exact Hk' |]. split; [| by split_and!]. rewrite H1. do 3 f_equal; by vm_compute.
  - destruct (value_Some _ _ exec_dir_value) as [k' Hk']. exists k'. split; [exact Hk' |].
    destruct (exec_all_or_nothing (I := small_image) (CS := bio_cache 0) 4096 0 0 [] [] dir_kernel k' (-1))
      as [[_ H]|[H _]]; [reflexivity | cbn; lia | exact Hk' | exact H |]. cbn in H. lia.
Defined.
