(* ===== verification/FsUser.v ===== *)
(** Reading files into memory: [readi] of kernel/fs.c with the destination it has in
    [fileread], a user address, where [either_copyout] is [copyout] through the caller's page
    table, and in [loadseg], a physical page.  The memory lies beside the buffer cache; the
    copies may fail, and no operation of the log need be open. *)

From stdpp Require Import base list gmap sets strings.
From Stdlib Require Import ZArith Lia.
From S2P Require Import Prelude Riscv Mem Kalloc Vm Spinlock Bio Log Fs FsBlock FsProps File Exec.
Open Scope Z_scope.

(** ** The cache with memory beside it keeps the cache's promises *)

Section Vm.
Context `{I : Image} {S : Type} {CS : Cache S} {CO : CacheOk S}.

#[export] Instance with_vm_ok : CacheOk (S * vm).
Proof.
  refine {| rep := fun (s : S * vm) a => rep s.1 a |}.
  - intros d. apply boot_ok.
  - intros s a b. apply clean_ok.
  - intros [s v] a b R Hb Hs. destruct (bread_ok s a b R Hb Hs) as (h & s' & E & R'). exists h, (s', v). cbn in *. by rewrite E.
  - intros [s v] a b h R Hb. cbn in *. by rewrite (get_ok s a b h R Hb).
  - intros [s v] a b h R Hb. cbn in *. by rewrite (blockno_ok s a b h R Hb).
  - intros [s v] a b h u R Hb. destruct (set_ok s a b h u R Hb) as (s' & E & R'). exists (s', v). cbn in *. by rewrite E.
  - intros [s v] a b h R Hb. destruct (bwrite_ok s a b h R Hb) as (s' & E & R'). exists (s', v). cbn in *. by rewrite E.
  - intros [s v] a b h R Hb Hp. destruct (bpin_ok s a b h R Hb Hp) as (s' & E & R'). exists (s', v). cbn in *. by rewrite E.
  - intros [s v] a b h R Hb Hp. destruct (bunpin_ok s a b h R Hb Hp) as (s' & E & R'). exists (s', v). cbn in *. by rewrite E.
  - intros [s v] a b h R Hb Hp. destruct (brelse_ok s a b h R Hb Hp) as (s' & E & R'). exists (s', v). cbn in *. by rewrite E.
Defined.

(** A copy that works on the memory only. *)
Lemma vm_beside (put : Z -> list Z -> M (fs (S * vm)) Z) (cp : Z -> list Z -> M vm Z) :
  (forall t p s, put t p s = match cp t p (lcache (flog s)).2 with
     | Ok (r, v) => Ok (r, with_log (with_cache ((lcache (flog s)).1, v) (flog s)) s)
     | Panic msg => Panic msg
     | Diverge => Diverge
     end) -> beside snd put cp.
Proof.
  intros Hput. split.
  - intros d b [c v] h [c' v']. cbn. destruct (c_bread d b c) as [[? ?]| |]; [| done..]. by intros [= _ _ <-].
  - intros h [c v] u [c' v']. cbn. destruct (c_brelse h c) as [[? ?]| |]; [| done..]. by intros [= _ _ <-].
  - intros o s V H bs t p (a & F). rewrite Hput. destruct (cp t p _) as [[r v]| |]; [| done..].
    eexists. split; [done |]. split; [done |]. exists a. destruct F as [T ? ? ? ? ? ?]. split; try done.
    destruct T. by split.
Qed.

Lemma user_beside pt addr : beside snd (user_put pt addr) (fun t => copyout pt (u64 (addr + t))).
Proof. by apply vm_beside. Qed.

Lemma kernel_put_beside pa : beside snd (kernel_put pa) (fun t p => do! write_bytes (pa + t) p in ret 0).
Proof. apply vm_beside. intros t p s. unfold kernel_put, bind. by destruct (write_bytes _ _ _) as [[[] v]| |]. Qed.

(** ** Properties *)

(** C22: [readi] with a user destination, inside or outside an operation of the log.  The
    bytes to deliver are those of the file in the range asked for, cut at the end of the file,
    and none when the range starts beyond the end or wraps around.  They are copied out block
    by block, each piece at its distance from [addr]; when every [copyout] succeeds the
    answer is their number, and when one fails it is -1 and nothing more is copied.  The
    user memory is what those copies make of it; no block and no inode changes and every buffer
    is released. *)
Theorem readi_spec (pt addr o : Z) (s : fs (S * vm)) (V : Z -> block) (H : gmap Z nat) (bs : list Z) (ip : nat)
    (x : inode) (off n : Z) (P : read_pre o s V H bs ip x) (FO : file_ok (sb s) V H x)
    (Ho : 0 <= off < 2 ^ 32) (Hn : 0 <= n < 2 ^ 32) :
  let k := if (isize x <? off) || (2 ^ 32 <=? off + n) then 0 else Z.min n (isize x - off) in
  match deliver (fun t => copyout pt (u64 (addr + t))) (pieces off (fbytes V x off (Z.to_nat k))) (lcache (flog s)).2 with
  | Ok (ok, v) => exists l got, readi (user_put pt addr) ip off n s = Ok ((if (ok : bool) then k else -1, got), with_log l s) /\
      (lcache l).2 = v /\ fviewo o (with_log l s) V H bs
  | Panic msg => readi (user_put pt addr) ip off n s = Panic msg
  | Diverge => readi (user_put pt addr) ip off n s = Diverge
  end.
Proof.
  pose proof (readi_any _ _ _ (user_beside pt addr) o s V H bs ip x off n P FO Ho Hn) as R.
  unfold read_result in R. cbv zeta. fold (read_count x off n). destruct (deliver _ _ _) as [[ok v]| |]; [| exact R..].
  destruct R as (l & got & E & _ & Hv & F). exists l, got. split; [exact E | by split].
Qed.

(** [loadseg]'s [readi] into the page at [pa]. *)
Lemma readi_page (pa o : Z) (s : fs (S * vm)) (V : Z -> block) (H : gmap Z nat) (bs : list Z) (ip : nat)
    (x : inode) (off n : Z) :
  read_pre o s V H bs ip x -> file_ok (sb s) V H x -> 0 <= off < 2 ^ 32 -> 0 <= n < 2 ^ 32 ->
  let k := read_count x off n in
  read_result snd (fun t p => do! write_bytes (pa + t) p in ret 0) (readi (kernel_put pa) ip off n s) o s V H bs k []
    (fbytes V x off (Z.to_nat k)) (pieces off (fbytes V x off (Z.to_nat k))).
Proof. apply readi_any, kernel_put_beside. Qed.
End Vm.

(** ** Witness *)

#[local] Existing Instance small_image.

(** The small file system outside any operation, with one user page. *)
Lemma tiny_user_view :
  exists (l : log (bcache * vm)) (V : Z -> block), outstanding l = 0 /\ (lcache l).2 = user_vm /\
    @fviewo _ _ (@with_vm_ok _ _ (bio_ok 1)) 0 (mkfs l tiny_sb tiny_table) V ∅ [] /\
    forall b, ~ in_log 2 b -> V b = tiny_disk b.
Proof.
  destruct tiny_view as (l & V & (a & F) & HV).
  exists (flog (set_cache (lcache l, user_vm) (mkfs (set_outstanding 0 l) tiny_sb tiny_table))), V. split_and!; try done.
  exists a. destruct F as [T ? ? ? ? ? ?]. split; try done. destruct T. by split.
Qed.

Lemma tiny_piece V : (forall b, ~ in_log 2 b -> V b = tiny_disk b) ->
  pieces 16 (fbytes V tiny_dir 16 (Z.to_nat 16)) = [(0, mk_dirent 7 [98])].
Proof.
  intros HV. change (fbytes V tiny_dir 16 (Z.to_nat 16)) with (entry V tiny_dir 1).
  rewrite (tiny_entry V 1 HV) by lia. reflexivity.
Qed.

Lemma tiny_count :
  (if (isize tiny_dir <? 16) || (2 ^ 32 <=? 16 + 40) then 0 else Z.min 40 (isize tiny_dir - 16)) = 16.
Proof. reflexivity. Qed.

Lemma user_copy :
  match deliver (fun t => copyout user_pt (u64 (4096 + t))) [(0, mk_dirent 7 [98])] user_vm with
  | Ok (true, v) => bytes_at (mem_of v) user_page 16 = mk_dirent 7 [98]
  | _ => False
  end.
Proof. vm_compute. reflexivity. Qed.

Lemma readi_spec_witness :
  exists (s : fs (bcache * vm)) V, outstanding (flog s) = 0 /\ (lcache (flog s)).2 = user_vm /\
    @fviewo _ _ (@with_vm_ok _ _ (bio_ok 1)) 0 s V ∅ [] /\
    (exists l got, @readi _ (@with_vm_cache _ (bio_cache 1)) (user_put user_pt 4096) 0 16 40 s = Ok ((16, got), with_log l s) /\
       bytes_at (mem_of (lcache l).2) user_page 16 = mk_dirent 7 [98]) /\
    (exists l got, @readi _ (@with_vm_cache _ (bio_cache 1)) (user_put user_pt 8192) 0 16 40 s = Ok ((-1, got), with_log l s) /\
       (lcache l).2 = user_vm).
Proof.
  destruct tiny_user_view as (l & V & Ho & Hm & F & HV). set (s := mkfs l tiny_sb tiny_table).
  assert (@read_pre _ _ (@with_vm_ok _ _ (bio_ok 1)) 0 s V ∅ [] 0 tiny_dir) as P.
  { split; try done. vm_compute. lia. }
  exists s, V. split; [exact Ho |]. split; [exact Hm |]. split; [exact F |]. split.
  - pose proof (@readi_spec _ _ _ (bio_ok 1) user_pt 4096 0 s V ∅ [] 0 tiny_dir 16 40 P (tiny_file V HV) ltac:(lia) ltac:(lia)) as H.
    cbv zeta in H. rewrite tiny_count, (tiny_piece V HV) in H. change (flog s) with l in H. rewrite Hm in H.
    pose proof user_copy as E. destruct (deliver _ _ user_vm) as [[[] v]| |]; try done.
    destruct H as (l' & got & H & Hv & _). exists l', got. split; [exact H |]. rewrite Hv. exact E.
  - pose proof (@readi_spec _ _ _ (bio_ok 1) user_pt 8192 0 s V ∅ [] 0 tiny_dir 16 40 P (tiny_file V HV) ltac:(lia) ltac:(lia)) as H.
    cbv zeta in H. rewrite tiny_count, (tiny_piece V HV) in H. change (flog s) with l in H. rewrite Hm in H.
    assert (deliver (fun t => copyout user_pt (u64 (8192 + t))) [(0, mk_dirent 7 [98])] user_vm = Ok (false, user_vm)) as E
      by reflexivity.
    rewrite E in H. destruct H as (l' & got & H & Hv & _). exists l', got. split; [exact H | exact Hv].
Defined.
