(* ===== verification/Sysfile.v ===== *)
(** * Sysfile: the system calls on files, [kernel/sysfile.c]

    Argument checking, file descriptors, and the calls into [File.v], [Fs.v], [Pipe.v] and
    [Exec.v].  [kernel_calls] is the implementation of the interface [FileCalls] of the
    dispatcher.  The parts of the calls between [begin_op] and [end_op] that only concern
    inodes are definitions over the file system state alone.

    [FdInv.v] proves the invariant of descriptors and reference counts. *)

From stdpp Require Import base list strings.
From Stdlib Require Import ZArith Lia.
From S2P Require Import Prelude Fcntl Riscv Mem Kalloc Vm Proc Spinlock Pipe Bio Log Fs File Syscall Exec.

(** The names "." and "..". *)
Definition dot : list Z := [46].
Definition dotdot : list Z := [46; 46].

(** ** Inodes and directories *)

Section Inodes.
Context {S : Type} `{CS : Cache S} (me : Z).

(** The loop of [isdirempty] from offset [off]. *)
Fixpoint isdirempty_loop (fuel : nat) (dp : nat) (off : Z) : M (fs S) bool :=
  let! size := geti dp isize in
  if negb (off <? size) then ret true else
  match fuel with
  | O => diverge
  | Datatypes.S f =>
      let! r := readi_kernel dp off dirent_size in
      if negb (r.1 =? dirent_size) then panic "isdirempty: readi" else
      if negb (de_inum r.2 =? 0) then ret false else
      isdirempty_loop f dp (off + dirent_size)
  end.

Definition isdirempty (dp : nat) : M (fs S) bool :=
  let! size := geti dp isize in
  isdirempty_loop (Z.to_nat (size / dirent_size + 1)) dp (2 * dirent_size).

(** [ip->nlink += d; iupdate(ip);] *)
Definition add_nlink (ip : nat) (d : Z) : M (fs S) unit :=
  do! modi ip (fun x => set_nlink (i16 (nlink x + d)) x) in
  iupdate ip.

(** [sys_link] after [begin_op]. *)
Definition link_inode (cwd : nat) (old new : list Z) : M (fs S) Z :=
  let! ipp := namei me cwd old in
  match ipp with
  | None => ret (-1)
  | Some ip =>
      do! ilock me (Some ip) in
      let! ty := geti ip i_type in
      if ty =? T_DIR then do! iunlockput me ip in ret (-1) else
      do! add_nlink ip 1 in
      do! iunlock me (Some ip) in
      let bad :=
        do! ilock me (Some ip) in
        do! add_nlink ip (-1) in
        do! iunlockput me ip in
        ret (-1) in
      let! r := nameiparent me cwd new in
      match r.1 with
      | None => bad
      | Some dp =>
          do! ilock me (Some dp) in
          let! dd := geti dp i_dev in
          let! x := geti ip id in
          let! l := (if negb (dd =? i_dev x) then ret (-1) else dirlink me dp r.2 (inum x)) in
          if l <? 0 then do! iunlockput me dp in bad else
          do! iunlockput me dp in
          do! iput me ip in
          ret 0
      end
  end.

(** [sys_unlink] after [begin_op]. *)
Definition unlink_inode (cwd : nat) (path : list Z) : M (fs S) Z :=
  let! r := nameiparent me cwd path in
  match r.1 with
  | None => ret (-1)
  | Some dp =>
      let name := r.2 in
      do! ilock me (Some dp) in
      let bad := do! iunlockput me dp in ret (-1) in
      if (namecmp name dot =? 0) || (namecmp name dotdot =? 0) then bad else
      let! e := dirlookup dp name in
      match e with
      | None => bad
      | Some (ip, off) =>
          do! ilock me (Some ip) in
          let! nl := geti ip nlink in
          if nl <? 1 then panic "unlink: nlink < 1" else
          let! ty := geti ip i_type in
          let! busy := (if ty =? T_DIR then let! e := isdirempty ip in ret (negb e) else ret false) in
          if (busy : bool) then do! iunlockput me ip in bad else
          let! w := writei_kernel dp (replicate 16 0) off dirent_size in
          if negb (w =? dirent_size) then panic "unlink: writei" else
          do! (if ty =? T_DIR then add_nlink dp (-1) else ret tt) in
          do! iunlockput me dp in
          do! add_nlink ip (-1) in
          do! iunlockput me ip in
          ret 0
      end
  end.

(** The label [fail:] of [create]. *)
Definition create_fail (dp ip : nat) : M (fs S) (option nat) :=
  do! modi ip (set_nlink 0) in
  do! iupdate ip in
  do! iunlockput me ip in
  do! iunlockput me dp in
  ret None.

(** The entries "." and ".." of a new directory. *)
Definition link_dots (dp ip : nat) : M (fs S) bool :=
  let! i := geti ip inum in
  let! r1 := dirlink me ip dot i in
  if r1 <? 0 then ret false else
  let! d := geti dp inum in
  let! r2 := dirlink me ip dotdot d in
  ret (negb (r2 <? 0)).

(** The inode is returned locked. *)
Definition create (cwd : nat) (path : list Z) (ty maj min : Z) : M (fs S) (option nat) :=
  let! r := nameiparent me cwd path in
  match r.1 with
  | None => ret None
  | Some dp =>
      let name := r.2 in
      do! ilock me (Some dp) in
      let! e := dirlookup dp name in
      match e with
      | Some (ip, _) =>
          do! iunlockput me dp in
          do! ilock me (Some ip) in
          let! t := geti ip i_type in
          if (ty =? T_FILE) && ((t =? T_FILE) || (t =? T_DEVICE)) then ret (Some ip) else
          do! iunlockput me ip in ret None
      | None =>
          let! d := geti dp i_dev in
          let! ipp := ialloc d ty in
          match ipp with
          | None => do! iunlockput me dp in ret None
          | Some ip =>
              do! ilock me (Some ip) in
              do! modi ip (set_major maj) in
              do! modi ip (set_minor min) in
              do! modi ip (set_nlink 1) in
              do! iupdate ip in
              let! dots := (if ty =? T_DIR then link_dots dp ip else ret true) in
              if negb dots then create_fail dp ip else
              let! i := geti ip inum in
              let! l := dirlink me dp name i in
              if l <? 0 then create_fail dp ip else
              do! (if ty =? T_DIR then add_nlink dp 1 else ret tt) in
              do! iunlockput me dp in
              ret (Some ip)
          end
      end
  end.

(** The inode [sys_open] opens, locked: created, or found and fit for the mode. *)
Definition open_inode (cwd : nat) (path : list Z) (omode : Z) : M (fs S) (option nat) :=
  let! ipp :=
    (if has omode O_CREATE then create cwd path T_FILE 0 0
     else
       let! ipp := namei me cwd path in
       match ipp with
       | None => ret None
       | Some ip =>
           do! ilock me (Some ip) in
           let! ty := geti ip i_type in
           if (ty =? T_DIR) && negb (omode =? O_RDONLY) then do! iunlockput me ip in ret None
           else ret (Some ip)
       end) in
  match ipp with
  | None => ret None
  | Some ip =>
      let! x := geti ip id in
      if (i_type x =? T_DEVICE) && ((major x <? 0) || (NDEV <=? major x)) then do! iunlockput me ip in ret None
      else ret (Some ip)
  end.

(** [sys_chdir] up to the end of [ilock] and the check of the type. *)
Definition chdir_inode (cwd : nat) (path : list Z) : M (fs S) (option nat) :=
  let! ipp := namei me cwd path in
  match ipp with
  | None => ret None
  | Some ip =>
      do! ilock me (Some ip) in
      let! ty := geti ip i_type in
      if negb (ty =? T_DIR) then do! iunlockput me ip in ret None else
      do! iunlock me (Some ip) in
      ret (Some ip)
  end.

End Inodes.

(** ** System calls *)

Section Calls.
Context `{I : Image} {S : Type} `{CS : Cache S} `{DV : DevSw (files S)}.
Context (log_addr : Z) (stat_pad : list Z).

#[local] Abbreviation KM := (M (kernel (files S))).

(** [argfd]: the descriptor and the file pointer, or [None] for -1. *)
Definition argfd (c : nat) (n : Z) : KM (option (Z * Z)) :=
  let! fd := argint c n in
  let! p := cur c in
  if (fd <? 0) || (Z.of_nat NOFILE <=? fd) then ret None else
  let! f := getp p (fun q => nth (Z.to_nat fd) (ofile q) 0) in
  if f =? 0 then ret None else ret (Some (fd, f)).

(** The first free descriptor from [fd] on. *)
Fixpoint free_fd (l : list Z) (fd : nat) : option nat :=
  match l with
  | [] => None
  | f :: l' => if f =? 0 then Some fd else free_fd l' (Datatypes.S fd)
  end.

Definition set_fd (p : nat) (fd : nat) (f : Z) : KM unit :=
  modp p (fun q => set_ofile (<[fd := f]> (ofile q)) q).

Definition fdalloc (c : nat) (f : Z) : KM Z :=
  let! p := cur c in
  let! r := getp p (fun q => free_fd (take NOFILE (ofile q)) 0) in
  match r with
  | Some fd => do! set_fd p fd f in ret (Z.of_nat fd)
  | None => ret (-1)
  end.

(** The characters of a path argument, or [None] when [argstr] returns -1. *)
Definition argpath (c : nat) (n : Z) : KM (option (list Z)) :=
  let! r := argstr c n MAXPATH in
  ret (if r.1 <? 0 then None else Some (take (Z.to_nat r.1) r.2)).

Definition my_cwd (c : nat) : KM nat :=
  let! p := cur c in
  let! d := getp p cwd in
  ret (idx d).

Definition minus1 : sysout (fwait dsusp) := Done (u64 (-1)).

Definition file_done (o : fileout dsusp) : sysout (fwait dsusp) :=
  match o with FReturn v => Done (u64 v) | FWait w => Blocked (InFile w) end.

Definition sys_dup (c : nat) : KM (sysout (fwait dsusp)) :=
  let! a := argfd c 0 in
  match a with
  | None => ret minus1
  | Some (_, f) =>
      let! fd := fdalloc c f in
      if fd <? 0 then ret minus1 else
      do! do_filedup f in
      ret (Done (u64 fd))
  end.

Definition sys_getreadcount : KM (sysout (fwait dsusp)) :=
  let! n := gets (fun k => readCount (kfs k)) in ret (Done (u64 n)).

Definition sys_read (c : nat) : KM (sysout (fwait dsusp)) :=
  do! on_files (fun s => mkfiles (ffs s) (ftab s) (pipes s) (i32 (readCount s + 1))) in
  let! addr := argaddr c 1 in
  let! n := argint c 2 in
  let! a := argfd c 0 in
  match a with
  | None => ret minus1
  | Some (_, f) => let! o := fileread c f addr n in ret (file_done o)
  end.

Definition sys_write (c : nat) : KM (sysout (fwait dsusp)) :=
  let! addr := argaddr c 1 in
  let! n := argint c 2 in
  let! a := argfd c 0 in
  match a with
  | None => ret minus1
  | Some (_, f) => let! o := filewrite log_addr c f addr n in ret (file_done o)
  end.

Definition sys_close (c : nat) : KM (sysout (fwait dsusp)) :=
  let! a := argfd c 0 in
  match a with
  | None => ret minus1
  | Some (fd, f) =>
      let! p := cur c in
      do! set_fd p (Z.to_nat fd) 0 in
      do! do_fileclose log_addr c f in
      ret (Done 0)
  end.

Definition sys_fstat (c : nat) : KM (sysout (fwait dsusp)) :=
  let! st := argaddr c 1 in
  let! a := argfd c 0 in
  match a with
  | None => ret minus1
  | Some (_, f) => let! v := filestat stat_pad c f st in ret (Done (u64 v))
  end.

Definition sys_link (c : nat) : KM (sysout (fwait dsusp)) :=
  let! old := argpath c 0 in
  match old with
  | None => ret minus1
  | Some old =>
      let! new := argpath c 1 in
      match new with
      | None => ret minus1
      | Some new =>
          let! me := mypid c in
          let! cwd := my_cwd c in
          do! do_begin_op c in
          let! v := onf (link_inode me cwd old new) in
          do! do_end_op log_addr c in
          ret (Done (u64 v))
      end
  end.

Definition sys_unlink (c : nat) : KM (sysout (fwait dsusp)) :=
  let! path := argpath c 0 in
  match path with
  | None => ret minus1
  | Some path =>
      let! me := mypid c in
      let! cwd := my_cwd c in
      do! do_begin_op c in
      let! v := onf (unlink_inode me cwd path) in
      do! do_end_op log_addr c in
      ret (Done (u64 v))
  end.

(** The stores of [sys_open] to a new file. *)
Definition init_file (ip : nat) (x : inode) (omode : Z) (f : file) : file :=
  let dev := i_type x =? T_DEVICE in
  mkfile (if dev then FD_DEVICE else FD_INODE) (fref f) (negb (has omode O_WRONLY))
    (has omode O_WRONLY || has omode O_RDWR) (fpipe f) (ptr ip) (if dev then off f else 0)
    (if dev then major x else fmajor f).

Definition sys_open (c : nat) : KM (sysout (fwait dsusp)) :=
  let! omode := argint c 1 in
  let! path := argpath c 0 in
  match path with
  | None => ret minus1
  | Some path =>
      let! me := mypid c in
      let! cwd := my_cwd c in
      do! do_begin_op c in
      let! ipp := onf (open_inode me cwd path omode) in
      match ipp with
      | None => do! do_end_op log_addr c in ret minus1
      | Some ip =>
          let! f := filealloc in
          let! fd := (if f =? 0 then ret (-1) else fdalloc c f) in
          if fd <? 0 then
            do! (if negb (f =? 0) then do_fileclose log_addr c f else ret tt) in
            do! onf (iunlockput me ip) in
            do! do_end_op log_addr c in
            ret minus1
          else
            let! x := onf (geti ip id) in
            do! modf (idx f) (init_file ip x omode) in
            do! onf (if has omode O_TRUNC && (i_type x =? T_FILE) then itrunc ip else ret tt) in
            do! onf (iunlock me (Some ip)) in
            do! do_end_op log_addr c in
            ret (Done (u64 fd))
      end
  end.

(** [sys_mkdir] and [sys_mknod] once their arguments are there. *)
Definition make_node (c : nat) (path : option (list Z)) (ty maj min : Z) : KM (sysout (fwait dsusp)) :=
  let! me := mypid c in
  let! cwd := my_cwd c in
  let! ipp := (match path with None => ret None | Some path => onf (create me cwd path ty maj min) end) in
  match ipp with
  | None => do! do_end_op log_addr c in ret minus1
  | Some ip => do! onf (iunlockput me ip) in do! do_end_op log_addr c in ret (Done 0)
  end.

Definition sys_mkdir (c : nat) : KM (sysout (fwait dsusp)) :=
  do! do_begin_op c in
  let! path := argpath c 0 in
  make_node c path T_DIR 0 0.

Definition sys_mknod (c : nat) : KM (sysout (fwait dsusp)) :=
  do! do_begin_op c in
  let! maj := argint c 1 in
  let! min := argint c 2 in
  let! path := argpath c 0 in
  make_node c path T_DEVICE (i16 maj) (i16 min).

Definition sys_chdir (c : nat) : KM (sysout (fwait dsusp)) :=
  do! do_begin_op c in
  let! path := argpath c 0 in
  let! me := mypid c in
  let! cwd := my_cwd c in
  let! ipp := (match path with None => ret None | Some path => onf (chdir_inode me cwd path) end) in
  match ipp with
  | None => do! do_end_op log_addr c in ret minus1
  | Some ip =>
      do! onf (Fs.iput me cwd) in
      do! do_end_op log_addr c in
      let! p := cur c in
      do! modp p (set_cwd (ptr ip)) in
      ret (Done 0)
  end.

(** The loop of [sys_exec] that copies the arguments, each into a page of its own: the
    pages so far, and whether all went well. *)
Fixpoint fetch_args (n : nat) (c : nat) (uargv : Z) (argv : list Z) : KM (bool * list Z) :=
  match n with
  | O => ret (false, argv)
  | Datatypes.S n' =>
      let! r := fetchaddr c (u64 (uargv + 8 * Z.of_nat (length argv))) in
      if r.1 <? 0 then ret (false, argv) else
      if r.2 =? 0 then ret (true, argv) else
      let! page := on_vm kalloc in
      if page =? 0 then ret (false, argv) else
      let! s := fetchstr c r.2 PGSIZE in
      do! on_vm (write_bytes page s.2) in
      if s.1 <? 0 then ret (false, argv ++ [page]) else
      fetch_args n' c uargv (argv ++ [page])
  end.

Fixpoint free_args (argv : list Z) : KM unit :=
  match argv with
  | [] => ret tt
  | a :: argv' => do! on_vm (kfree a) in free_args argv'
  end.

Definition sys_exec (c : nat) : KM (sysout (fwait dsusp)) :=
  let! uargv := argaddr c 1 in
  let! path := argpath c 0 in
  match path with
  | None => ret minus1
  | Some path =>
      let! a := fetch_args MAXARG c uargv [] in
      if negb a.1 then do! free_args a.2 in ret minus1 else
      let! v := exec log_addr c path a.2 in
      do! free_args a.2 in
      ret (Done (u64 v))
  end.

(** [fileclose(rf); fileclose(wf); return -1;] *)
Definition pipe_fail (c : nat) (rf wf : Z) : KM (sysout (fwait dsusp)) :=
  do! do_fileclose log_addr c rf in
  do! do_fileclose log_addr c wf in
  ret minus1.

(** The copies of the two descriptors to the user, and what is undone when one fails. *)
Definition pipe_report (c p : nat) (fdarray rf wf fd0 fd1 : Z) : KM (sysout (fwait dsusp)) :=
  let! pt := getp p pagetable in
  let! r0 := on_vm (copyout pt fdarray (int_bytes fd0)) in
  let! r1 := (if r0 <? 0 then ret (-1) else on_vm (copyout pt (u64 (fdarray + 4)) (int_bytes fd1))) in
  if r1 <? 0 then
    do! set_fd p (Z.to_nat fd0) 0 in
    do! set_fd p (Z.to_nat fd1) 0 in
    pipe_fail c rf wf
  else ret (Done 0).

Definition sys_pipe (c : nat) : KM (sysout (fwait dsusp)) :=
  let! fdarray := argaddr c 0 in
  let! r := pipealloc log_addr c in
  match r with
  | None => ret minus1
  | Some (rf, wf) =>
      let! p := cur c in
      let! fd0 := fdalloc c rf in
      if fd0 <? 0 then pipe_fail c rf wf else
      let! fd1 := fdalloc c wf in
      if fd1 <? 0 then
        do! set_fd p (Z.to_nat fd0) 0 in
        pipe_fail c rf wf
      else
      pipe_report c p fdarray rf wf fd0 fd1
  end.

(** The handlers of the table that belong to [sysfile.c]. *)
Definition do_file_call (f : filecall) (c : nat) : KM (sysout (fwait dsusp)) :=
  match f with
  | CallPipe => sys_pipe c
  | CallRead => sys_read c
  | CallExec => sys_exec c
  | CallFstat => sys_fstat c
  | CallChdir => sys_chdir c
  | CallDup => sys_dup c
  | CallOpen => sys_open c
  | CallWrite => sys_write c
  | CallMknod => sys_mknod c
  | CallUnlink => sys_unlink c
  | CallLink => sys_link c
  | CallMkdir => sys_mkdir c
  | CallClose => sys_close c
  | CallGetreadcount => sys_getreadcount
  end.

Definition do_file_resume (c : nat) (w : fwait dsusp) : KM (sysout (fwait dsusp)) :=
  let! o := file_continue c w in ret (file_done o).

End Calls.

(** The file system calls of the kernel, for the dispatcher. *)
Definition kernel_calls `{I : Image} {S : Type} `{CS : Cache S} `{DV : DevSw (files S)} (log_addr : Z)
    (stat_pad : list Z) : FileCalls (files S) := {|
  fsusp := fwait dsusp;
  file_call := do_file_call log_addr stat_pad;
  file_resume := do_file_resume;
|}.
