(* ===== verification/FdInv.v ===== *)
(** * FdInv: file descriptors and reference counts

    The invariant that ties [File.v], [Sysfile.v] and the process table together: the
    reference count of every open file is the number of descriptors, in all processes,
    that refer to it ([refs_ok]); while a call is under way the two differ by the references
    it holds outside of a table, which the first argument of [refs_ok] gives per file.  Every system call on files, [fork] and [exit] keep
    it, on all their success and error paths. *)

From stdpp Require Import base list relations strings.
From Stdlib Require Import ZArith Lia.
From S2P Require Import Prelude Riscv Mem Kalloc Vm Proc Sched ProcLife ProcInv Spinlock Pipe Bio Log Fs File Syscall Exec Sysfile.

(** ** Counting *)

Definition count (f : Z) (l : list Z) : Z := Z.of_nat (length (filter (fun x => x = f) l)).

(** References to [f] in all descriptor tables. *)
Fixpoint total (f : Z) (L : list (list Z)) : Z :=
  match L with [] => 0 | l :: L' => count f l + total f L' end.

Lemma count_cons f x l : count f (x :: l) = (if bool_decide (x = f) then 1 else 0) + count f l.
Proof.
  unfold count. rewrite filter_cons. destruct (decide (x = f)) as [E|E].
  - rewrite bool_decide_eq_true_2 by done. cbn [length]. lia.
  - rewrite bool_decide_eq_false_2 by done. lia.
Qed.

Lemma count_nonneg f l : 0 <= count f l.
Proof. unfold count. lia. Qed.

Lemma count_insert f l i x v : l !! i = Some x ->
  count f (<[i := v]> l) + (if bool_decide (x = f) then 1 else 0) =
  count f l + (if bool_decide (v = f) then 1 else 0).
Proof.
  revert i. induction l as [|y l IH]; intros [|i] Hl; simplify_eq/=; rewrite !count_cons; [lia |].
  specialize (IH i Hl). lia.
Qed.

Lemma count_pos f l i : l !! i = Some f -> 1 <= count f l.
Proof.
  revert i. induction l as [|y l IH]; intros [|i] Hl; simplify_eq/=; rewrite count_cons.
  - rewrite bool_decide_eq_true_2 by done. pose proof (count_nonneg f l). lia.
  - pose proof (IH i Hl). destruct (bool_decide (y = f)); lia.
Qed.

Lemma total_insert f L p l l' : L !! p = Some l ->
  total f (<[p := l']> L) + count f l = total f L + count f l'.
Proof.
  revert p. induction L as [|x L IH]; intros [|p] HL; simplify_eq/=; [lia |]. specialize (IH p HL). lia.
Qed.

Lemma total_nonneg f L : 0 <= total f L.
Proof. induction L as [|x L IH]; cbn; [lia |]. pose proof (count_nonneg f x). lia. Qed.

Lemma total_ge f L p l : L !! p = Some l -> count f l <= total f L.
Proof.
  revert p. induction L as [|x L IH]; intros [|p] HL; simplify_eq/=.
  - pose proof (total_nonneg f L). lia.
  - specialize (IH p HL). pose proof (count_nonneg f x). lia.
Qed.

(** ** The invariant *)

Section Inv.
Context {S : Type}.

(** A process without descriptors: its slot is unused or waits to be reaped. *)
Definition dead (p : proc) : Prop := state p = UNUSED \/ state p = ZOMBIE.

Definition no_files_open (l : list Z) : Prop := Forall (fun f => f = 0) l.

(** The descriptor tables of all slots. *)
Definition fds (k : kernel (files S)) : list (list Z) := ofile <$> procs k.

Definition is_file (k : kernel (files S)) (f : Z) : Prop := 1 <= f <= Z.of_nat (length (ftab (kfs k))).

Record refs_ok (held : Z -> Z) (k : kernel (files S)) : Prop := {
  ro_ref i f : ftab (kfs k) !! i = Some f -> fref f = total (ptr i) (fds k) + held (ptr i);
  ro_fd l f : l ∈ fds k -> f ∈ l -> f = 0 \/ is_file k f;
  ro_len l : l ∈ fds k -> length l = NOFILE;
  ro_dead p : p ∈ procs k -> dead p -> no_files_open (ofile p);
}.

(** No reference outside of a table, and [n] more to [f]. *)
Definition none : Z -> Z := fun _ => 0.
Definition hold (f n : Z) (held : Z -> Z) : Z -> Z := fun g => if g =? f then held g + n else held g.

(** What a piece of code may do without touching references: slots keep their
    descriptors, and no slot becomes dead except possibly [o]. *)
Record quiet_rel (o : option nat) (k k' : kernel (files S)) : Prop := {
  qr_ref : fref <$> ftab (kfs k') = fref <$> ftab (kfs k);
  qr_fds : fds k' = fds k;
  qr_dead j p p' : procs k !! j = Some p -> procs k' !! j = Some p' -> o <> Some j -> dead p' -> dead p;
}.

Definition quiet {A} (o : option nat) (m : M (kernel (files S)) A) : Prop :=
  forall k a k', m k = Ok (a, k') -> quiet_rel o k k'.

Lemma quiet_refl o k : quiet_rel o k k.
Proof. split; [done | done |]. intros j p p' H1 H2. simplify_eq. done. Qed.

Lemma fds_length k k' : fds k' = fds k -> length (procs k') = length (procs k).
Proof. intros H. apply (f_equal length) in H. unfold fds in H. by rewrite !length_fmap in H. Qed.

Lemma quiet_trans o k1 k2 k3 : quiet_rel o k1 k2 -> quiet_rel o k2 k3 -> quiet_rel o k1 k3.
Proof.
  intros [R1 F1 D1] [R2 F2 D2]. split; [congruence | congruence |]. intros j p p' Hp Hp' Ho Hd.
  destruct (lookup_lt_is_Some_2 (procs k2) j) as [q Hq].
  { apply lookup_lt_Some in Hp. by rewrite (fds_length _ _ F1). }
  eapply D1; [done | exact Hq | done |]. by eapply D2.
Qed.

Lemma quiet_weaken {A} o (m : M (kernel (files S)) A) : quiet None m -> quiet o m.
Proof. intros H k a k' [R E D]%H. split; [done | done |]. intros j p p' ? ? _. by apply (D j). Qed.

Lemma quiet_bind {A B} o (m : M (kernel (files S)) A) (n : A -> M (kernel (files S)) B) :
  quiet o m -> (forall a, quiet o (n a)) -> quiet o (bind m n).
Proof. intros Hm Hn k b k' (a & k1 & H1 & H2)%bind_Ok_inv. eapply quiet_trans; [by eapply Hm | by eapply Hn]. Qed.

Lemma quiet_ret {A} o (a : A) : quiet o (ret a).
Proof. intros k b k' [_ <-]%Ok_inv. apply quiet_refl. Qed.

Lemma quiet_gets {A} o (f : kernel (files S) -> A) : quiet o (gets f).
Proof. intros k b k' [_ <-]%Ok_inv. apply quiet_refl. Qed.

Lemma quiet_getp {A} o i (f : proc -> A) : quiet o (getp i f).
Proof. apply quiet_gets. Qed.

Lemma quiet_getf {A} o i (f : file -> A) : quiet o (getf i f).
Proof. apply quiet_gets. Qed.

Lemma quiet_panic {A} o msg : quiet (A := A) o (panic msg).
Proof. done. Qed.

Lemma quiet_diverge {A} o : quiet (A := A) o diverge.
Proof. done. Qed.

(** Code that leaves the process table and the file table alone. *)
Lemma quiet_same {A} o (m : M (kernel (files S)) A) :
  (forall k a k', m k = Ok (a, k') -> procs k' = procs k /\ ftab (kfs k') = ftab (kfs k)) -> quiet o m.
Proof.
  intros H k a k' [Ep Ef]%H. split; [by rewrite Ef | unfold fds; by rewrite Ep |].
  intros j p p'. rewrite Ep. intros H1 H2. by simplify_eq.
Qed.

Lemma quiet_cur o c : quiet o (cur c).
Proof.
  apply quiet_same. intros k a k'. unfold cur, myproc. rewrite bind_gets. destruct (cpu_proc _); [| done].
  by intros [_ <-]%Ok_inv.
Qed.

Lemma quiet_on_vm {A} o (m : M vm A) : quiet o (on_vm m).
Proof.
  apply quiet_same. intros k a k'. unfold on_vm. destruct (m (kvm k)) as [[b s]| |]; [| done..]. by intros [_ <-]%Ok_inv.
Qed.

Lemma quiet_onf {A} o (m : M (fs S) A) : quiet o (onf m).
Proof.
  apply quiet_same. intros k a k'. unfold onf, on_fs. destruct (m _) as [[b s]| |]; [| done..]. by intros [_ <-]%Ok_inv.
Qed.

Lemma quiet_onfu {A} o (m : M (fs (S * vm)) A) : quiet o (onfu m).
Proof.
  apply quiet_same. intros k a k'. unfold onfu. destruct (m _) as [[b f]| |]; [| done..].
  destruct (lcache (flog f)) as [c0 s]. by intros [_ <-]%Ok_inv.
Qed.

Lemma quiet_set_pipe o pi q : quiet o (set_pipe pi q).
Proof. apply quiet_same. intros k a k' [_ <-]%Ok_inv. done. Qed.

Lemma quiet_readcount o g : quiet o (on_files (fun s => mkfiles (ffs s) (ftab s) (pipes s) (g s))).
Proof. apply quiet_same. intros k a k' [_ <-]%Ok_inv. done. Qed.

(** A store to a file that keeps its reference count. *)
Lemma quiet_modf o i g : (forall f, fref (g f) = fref f) -> quiet o (modf i g).
Proof.
  intros Hg k a k' [_ <-]%Ok_inv. split; [| done |].
  - cbn. rewrite (fmap_alter _ _ (fun x => x)) by done. apply alter_id.
  - cbn. intros j p p' H1 H2. by simplify_eq.
Qed.

Lemma quiet_map o (g : nat -> proc -> proc) n i (k : kernel (files S)) :
  (forall j p, ofile (g j p) = ofile p /\ (o <> Some j -> dead (g j p) -> dead p)) ->
  quiet_rel o k (set_procs (map_range n i g) k).
Proof.
  intros Hg. split; [done | |].
  - unfold fds. cbn [procs set_procs]. rewrite (fmap_map_range _ _ _ _ (fun _ x => x)) by (intros; apply Hg).
    apply list_eq. intros j. rewrite map_range_lookup. case_decide; [| done]. by destruct (_ !! j).
  - intros j p p' H1. cbn [procs set_procs]. rewrite map_range_lookup, H1. cbn.
    case_decide; intros [= <-] Ho; [apply Hg; done | done].
Qed.

(** A store to slot [i] that keeps its descriptors. *)
Lemma quiet_modp o i g : (forall p, ofile (g p) = ofile p /\ (o <> Some i -> dead (g p) -> dead p)) -> quiet o (modp i g).
Proof.
  intros Hg k a k' [_ <-]%Ok_inv.
  pose proof (quiet_map o (fun j p => if (j =? i)%nat then g p else p) 1 i k) as H. cbn [map_range] in H.
  rewrite Nat.eqb_refl in H. apply H. intros j p. destruct (Nat.eqb_spec j i) as [->|]; [apply Hg | done].
Qed.

Lemma quiet_wakeup o c ch : quiet o (wakeup c ch).
Proof.
  intros k [] k'. rewrite wakeup_eq. intros [_ <-]%Ok_inv. apply quiet_map. intros j p. unfold wake_one, dead.
  repeat case_bool_decide; cbn; split; try done; intros _ [?|?]; congruence.
Qed.

(** Keeping the invariant. *)
Lemma refs_quiet o held k k' :
  refs_ok held k -> quiet_rel o k k' ->
  (forall i p, o = Some i -> procs k !! i = Some p -> no_files_open (ofile p)) -> refs_ok held k'.
Proof.
  intros [R F L D] [QR QF QD] Ho.
  assert (length (ftab (kfs k')) = length (ftab (kfs k))) as El.
  { apply (f_equal length) in QR. by rewrite !length_fmap in QR. }
  split.
  - intros i f Hf. rewrite QF. assert ((fref <$> ftab (kfs k)) !! i = Some (fref f)) as E.
    { rewrite <- QR, list_lookup_fmap, Hf. done. }
    rewrite list_lookup_fmap in E. destruct (ftab (kfs k) !! i) as [g|] eqn:Hg; [| done].
    injection E as <-. by apply R.
  - intros l f. rewrite QF. intros Hl Hf. destruct (F l f Hl Hf); [by left | right]. unfold is_file. by rewrite El.
  - intros l. rewrite QF. apply L.
  - intros p' [j Hp']%list_elem_of_lookup Hd. pose proof (fds_length _ _ QF) as EL.
    destruct (lookup_lt_is_Some_2 (procs k) j) as [p Hp]; [apply lookup_lt_Some in Hp'; lia |].
    assert (ofile p' = ofile p) as ->.
    { pose proof (f_equal (fun l => l !! j) QF) as E. unfold fds in E. cbn beta in E.
      rewrite !list_lookup_fmap, Hp, Hp' in E. by injection E. }
    destruct (decide (o = Some j)) as [->|Hne]; [by eapply Ho |].
    apply D; [by apply list_elem_of_lookup_2 with j |]. by eapply QD.
Qed.

Lemma refs_ext held held' (k : kernel (files S)) :
  (forall i, held (ptr i) = held' (ptr i)) -> refs_ok held k -> refs_ok held' k.
Proof. intros He [R F L D]. split; try done. intros i f Hf. rewrite <- He. by apply R. Qed.

Lemma quiet_is_file o (k k' : kernel (files S)) f : quiet_rel o k k' -> is_file k f -> is_file k' f.
Proof.
  intros [QR _ _]. apply (f_equal length) in QR. rewrite !length_fmap in QR. unfold is_file. by rewrite QR.
Qed.

Lemma refs_quiet_none {A} held k (m : M (kernel (files S)) A) a k' :
  quiet None m -> refs_ok held k -> m k = Ok (a, k') -> refs_ok held k'.
Proof. intros Hq Hr Hm. eapply refs_quiet; [done | by eapply Hq | done]. Qed.

End Inv.

(** ** Automation *)

Create HintDb quiet.
#[export] Hint Resolve quiet_ret quiet_gets quiet_getp quiet_getf quiet_panic quiet_diverge quiet_cur quiet_on_vm
  quiet_onf quiet_onfu quiet_set_pipe quiet_readcount quiet_wakeup : quiet.

(** Straight-line code that leaves descriptors and reference counts alone. *)
Ltac quieted :=
  repeat match goal with
  | |- forall _, _ => intros ?
  | |- quiet _ (bind _ _) => apply quiet_bind
  | |- quiet _ (if ?b then _ else _) => destruct b
  | |- quiet _ (let '(_, _) := ?x in _) => destruct x
  | |- quiet _ (match ?x with _ => _ end) => destruct x
  | |- quiet _ (modp _ _) => solve [apply quiet_modp; intros ?; split; [done | unfold dead; cbn; intuition congruence]]
  | |- quiet _ (modf _ _) => apply quiet_modf; done
  | |- quiet _ _ => solve [auto with quiet]
  end.

(** ** References change hands *)

Section Moves.
Context {S : Type}.

Lemma ptr_inj i j : ptr i = ptr j -> i = j.
Proof. unfold ptr. lia. Qed.

Lemma idx_ptr i : idx (ptr i) = i.
Proof. unfold idx, ptr. lia. Qed.

Lemma is_file_ptr (k : kernel (files S)) f : is_file k f -> exists i g, f = ptr i /\ ftab (kfs k) !! i = Some g.
Proof.
  intros [H1 H2]. destruct (lookup_lt_is_Some_2 (ftab (kfs k)) (idx f)) as [g Hg]; [unfold idx; lia |].
  exists (idx f), g. split; [unfold ptr, idx; lia | done].
Qed.

Lemma ptr_is_file (k : kernel (files S)) i g : ftab (kfs k) !! i = Some g -> is_file k (ptr i).
Proof. intros H%lookup_lt_Some. unfold is_file, ptr. lia. Qed.

Lemma fds_lookup (k : kernel (files S)) p q : procs k !! p = Some q -> fds k !! p = Some (ofile q).
Proof. intros H. unfold fds. by rewrite list_lookup_fmap, H. Qed.

(** A store to a descriptor. *)
Lemma refs_set_fd held held' (k : kernel (files S)) p q fd x v :
  refs_ok held k -> procs k !! p = Some q -> ofile q !! fd = Some x ->
  v = 0 \/ (is_file k v /\ ~ dead q) ->
  (forall i, held' (ptr i) + (if bool_decide (v = ptr i) then 1 else 0) =
             held (ptr i) + (if bool_decide (x = ptr i) then 1 else 0)) ->
  refs_ok held' (set_procs (alter (fun q => set_ofile (<[fd := v]> (ofile q)) q) p) k).
Proof.
  intros [R F L D] Hp Hfd Hv Hcount. set (k' := set_procs _ k).
  assert (fds k' = <[p := <[fd := v]> (ofile q)]> (fds k)) as Ef.
  { unfold fds, k'. cbn [procs set_procs]. apply list_eq. intros j.
    rewrite list_lookup_fmap, list_lookup_alter. case_decide as E; [subst j |].
    - rewrite Hp, list_lookup_insert_eq; [done | rewrite length_fmap; by apply lookup_lt_Some in Hp].
    - rewrite list_lookup_insert_ne, list_lookup_fmap by done. done. }
  pose proof (fds_lookup _ _ _ Hp) as Hfp. split.
  - intros i f Hf. rewrite (R i f Hf), Ef. pose proof (total_insert (ptr i) _ _ _ (<[fd := v]> (ofile q)) Hfp).
    pose proof (count_insert (ptr i) _ _ _ v Hfd). specialize (Hcount i). lia.
  - intros l f Hl Hf. rewrite Ef in Hl. apply list_elem_of_lookup in Hl as [j Hj].
    apply list_lookup_insert_Some in Hj as [(-> & <- & _)|[_ Hj]].
    + apply list_elem_of_lookup in Hf as [n Hn]. apply list_lookup_insert_Some in Hn as [(-> & <- & _)|[_ Hn]].
      * destruct Hv as [->|[Hv _]]; [by left | by right].
      * eapply F; [eapply list_elem_of_lookup_2; exact Hfp | by eapply list_elem_of_lookup_2].
    + eapply F; [by eapply list_elem_of_lookup_2 | done].
  - intros l Hl. rewrite Ef in Hl. apply list_elem_of_lookup in Hl as [j Hj].
    apply list_lookup_insert_Some in Hj as [(-> & <- & _)|[_ Hj]]; [rewrite length_insert |]; apply L;
      by eapply list_elem_of_lookup_2.
  - intros p' [j Hj]%list_elem_of_lookup Hd. cbn [procs set_procs k'] in Hj. rewrite list_lookup_alter in Hj.
    case_decide as E; [subst j | apply D; [by eapply list_elem_of_lookup_2 | done]].
    rewrite Hp in Hj. injection Hj as <-. destruct Hv as [->|[_ Hv]]; [| by destruct Hv].
    cbn [ofile set_ofile]. apply Forall_insert; [| done]. apply D; [by eapply list_elem_of_lookup_2 | done].
Qed.

Lemma hold_eq f n held : hold f n held f = held f + n.
Proof. unfold hold. by rewrite Z.eqb_refl. Qed.

Lemma hold_ne f n held g : g <> f -> hold f n held g = held g.
Proof. unfold hold. intros H. by rewrite (proj2 (Z.eqb_neq g f) H). Qed.

(** A store to a reference count. *)
Lemma refs_set_ref held (k k' : kernel (files S)) i f v :
  refs_ok held k -> ftab (kfs k) !! i = Some f -> modf i (set_fref v) k = Ok (tt, k') ->
  refs_ok (hold (ptr i) (v - fref f) held) k' /\ (forall g, is_file k g -> is_file k' g).
Proof.
  intros [R F L D] Hf [_ <-]%Ok_inv.
  assert (forall g, is_file k g <-> 1 <= g <= Z.of_nat (length (alter (set_fref v) i (ftab (kfs k))))) as Hfile.
  { intros g. unfold is_file. by rewrite length_alter. }
  split; [split; cbn [kfs ftab procs] | intros g; apply Hfile].
  - intros j g Hg. rewrite list_lookup_alter in Hg. case_decide as E; [subst j |].
    + rewrite Hf in Hg. injection Hg as <-. pose proof (R i f Hf) as E. rewrite hold_eq. cbn [fref set_fref].
      unfold fds in *. cbn [procs]. lia.
    + rewrite (R j g Hg), hold_ne; [done |]. intros E'%ptr_inj. congruence.
  - intros l g Hl Hg. destruct (F l g Hl Hg) as [->|Hi]; [by left | right; by apply Hfile].
  - exact L.
  - exact D.
Qed.

Lemma find_file_spec l n i : find_file l n = Some i -> exists f, l !! (i - n)%nat = Some f /\ fref f = 0 /\ (n <= i)%nat.
Proof.
  revert n. induction l as [|f l IH]; intros n; cbn; [done |]. destruct (Z.eqb_spec (fref f) 0) as [E|E].
  - intros [= <-]. exists f. by rewrite Nat.sub_diag.
  - intros (g & Hg & E0 & Hle)%IH. exists g. split_and!; [| done | lia].
    replace (i - n)%nat with (Datatypes.S (i - Datatypes.S n)) by lia. done.
Qed.

(** [f] is a file and its references are counted, with one more in the hands of the code. *)
Definition gained (f : Z) (held : Z -> Z) (k k' : kernel (files S)) : Prop :=
  refs_ok (hold f 1 held) k' /\ is_file k' f /\ (forall g, is_file k g -> is_file k' g).

Lemma filealloc_refs held (k k' : kernel (files S)) f :
  refs_ok held k -> filealloc k = Ok (f, k') -> (f = 0 /\ k' = k) \/ (f <> 0 /\ gained f held k k').
Proof.
  intros Hr. unfold filealloc. rewrite bind_gets. destruct (find_file _ _) as [i|] eqn:Ef.
  - apply find_file_spec in Ef as (g & Hg & E0 & _). rewrite Nat.sub_0_r in Hg.
    intros ([] & k1 & H1 & [<- <-]%Ok_inv)%bind_Ok_inv. right. split; [unfold ptr; lia |].
    destruct (refs_set_ref held k k1 i g 1 Hr Hg H1) as [Hr1 Hf]. rewrite E0 in Hr1.
    split_and!; [exact Hr1 | by eapply Hf, ptr_is_file | exact Hf].
  - intros [<- <-]%Ok_inv. by left.
Qed.

Lemma filedup_refs held (k k' : kernel (files S)) f r :
  refs_ok held k -> is_file k f -> do_filedup f k = Ok (r, k') -> r = f /\ procs k' = procs k /\ gained f held k k'.
Proof.
  intros Hr Hf. destruct (is_file_ptr _ _ Hf) as (i & g & -> & Hg). unfold do_filedup, getf. rewrite bind_gets, idx_ptr.
  rewrite nth_lookup, Hg. cbn [default from_option id]. destruct (fref g <? 1); [done |].
  intros ([] & k1 & H1 & [<- <-]%Ok_inv)%bind_Ok_inv. split; [done |]. split; [by apply Ok_inv in H1 as [_ <-] |].
  destruct (refs_set_ref held k k1 i g _ Hr Hg H1) as [Hr1 Hf1]. replace (fref g + 1 - fref g) with 1 in Hr1 by lia.
  split_and!; [exact Hr1 | by apply Hf1 | exact Hf1].
Qed.

End Moves.

Section Close.
Context `{I : Image} {S : Type} `{CS : Cache S} (log_addr : Z).

Lemma quiet_mypid o c : quiet (S := S) o (mypid c).
Proof. unfold mypid. quieted. Qed.

Lemma quiet_begin_op o c : quiet (S := S) o (do_begin_op c).
Proof. unfold do_begin_op. quieted. Qed.

Lemma quiet_end_op o c : quiet (S := S) o (do_end_op log_addr c).
Proof. unfold do_end_op. quieted. Qed.

#[local] Hint Resolve quiet_mypid quiet_begin_op quiet_end_op : quiet.

Lemma quiet_iput o c ip : quiet (S := S) o (do_iput c ip).
Proof. unfold do_iput. quieted. Qed.

Lemma quiet_pipeclose o c pi w : quiet (S := S) o (do_pipeclose c pi w).
Proof. unfold do_pipeclose. quieted. Qed.

#[local] Hint Resolve quiet_iput quiet_pipeclose : quiet.

Lemma fileclose_refs held c (k k' : kernel (files S)) f :
  refs_ok held k -> is_file k f -> do_fileclose log_addr c f k = Ok (tt, k') ->
  refs_ok (hold f (-1) held) k' /\ fds k' = fds k /\ (forall g, is_file k g -> is_file k' g).
Proof.
  intros Hr Hf. destruct (is_file_ptr k f Hf) as (i & g & -> & Hg).
  unfold do_fileclose, getf. rewrite bind_gets, idx_ptr, nth_lookup, Hg. cbn [default from_option id].
  destruct (Z.ltb_spec (fref g) 1) as [|Hpos]; [done |].
  intros ([] & k1 & H1 & H)%bind_Ok_inv.
  destruct (refs_set_ref held k k1 i g _ Hr Hg H1) as [Hr1 Hf1]. replace (fref g - 1 - fref g) with (-1) in Hr1 by lia.
  assert (fds k1 = fds k) as E1 by (by apply Ok_inv in H1 as [_ <-]).
  destruct (Z.ltb_spec 0 (fref g - 1)); [by apply Ok_inv in H as [_ <-] |]. rewrite bind_gets in H.
  assert (ftab (kfs k1) !! i = Some (set_fref (fref g - 1) g)) as Hg1.
  { apply Ok_inv in H1 as [_ <-]. cbn [kfs ftab]. rewrite list_lookup_alter, decide_True, Hg by done. done. }
  apply bind_Ok_inv in H as ([] & k2 & H2 & H).
  destruct (refs_set_ref _ k1 k2 i _ _ Hr1 Hg1 H2) as [Hr2 Hf2]. cbn [fref set_fref] in Hr2.
  replace (0 - (fref g - 1)) with 0 in Hr2 by lia.
  assert (quiet_rel None k2 k') as Hq by (refine ((_ : quiet None _) _ _ _ H); quieted).
  split_and!.
  - eapply refs_ext; [| eapply refs_quiet; [exact Hr2 | exact Hq | done]]. intros j. cbn beta.
    destruct (Z.eq_dec (ptr j) (ptr i)) as [->|E]; [rewrite (hold_eq _ 0); lia | by rewrite (hold_ne _ 0)].
  - rewrite (qr_fds _ _ _ Hq), <- E1. by apply Ok_inv in H2 as [_ <-].
  - intros h Hh. eapply quiet_is_file; [exact Hq |]. by apply Hf2, Hf1.
Qed.

End Close.

(** ** System calls that only use references *)

Section Quiet.
Context `{I : Image} {S : Type} `{CS : Cache S} `{DV : DevSw (files S)} (log_addr : Z) (pad : list Z).

(** What is assumed of device drivers: they leave descriptors and open files alone. *)
Definition drivers_quiet : Prop :=
  (forall n op c a l, dev_read n = Some op -> quiet (S := S) None (op c a l)) /\
  (forall n op c a l, dev_write n = Some op -> quiet (S := S) None (op c a l)) /\
  (forall c x, quiet (S := S) None (dev_resume c x)).

Context (HD : drivers_quiet).

#[local] Hint Resolve quiet_mypid quiet_begin_op quiet_end_op quiet_iput quiet_pipeclose : quiet.

Lemma quiet_sleep c ch : quiet (S := S) None (sleep c ch).
Proof. unfold sleep. quieted. Qed.

Lemma quiet_sleep_return c : quiet (S := S) None (sleep_return c).
Proof. unfold sleep_return. quieted. Qed.

Lemma quiet_argraw c n : quiet (S := S) None (argraw c n).
Proof. unfold argraw. quieted. Qed.

#[local] Hint Resolve quiet_sleep quiet_sleep_return quiet_argraw : quiet.

Lemma quiet_argint c n : quiet (S := S) None (argint c n).
Proof. unfold argint. quieted. Qed.

Lemma quiet_fetchstr c a n : quiet (S := S) None (fetchstr c a n).
Proof. unfold fetchstr. quieted. Qed.

Lemma quiet_fetchaddr c a : quiet (S := S) None (fetchaddr c a).
Proof. unfold fetchaddr. quieted. Qed.

#[local] Hint Resolve quiet_argint quiet_fetchstr quiet_fetchaddr : quiet.

Lemma quiet_argaddr c n : quiet (S := S) None (argaddr c n).
Proof. unfold argaddr. quieted. Qed.

Lemma quiet_argfd c n : quiet (S := S) None (argfd c n).
Proof. unfold argfd. quieted. Qed.

Lemma quiet_argpath c n : quiet (S := S) None (argpath c n).
Proof. unfold argpath, argstr, argaddr. quieted. Qed.

Lemma quiet_my_cwd c : quiet (S := S) None (my_cwd c).
Proof. unfold my_cwd. quieted. Qed.

Lemma quiet_wake_all c pi l : quiet (S := S) None (wake_all c pi l).
Proof. induction l as [|ch l IH]; cbn [wake_all]; quieted. Qed.

#[local] Hint Resolve quiet_argaddr quiet_argfd quiet_argpath quiet_my_cwd quiet_wake_all : quiet.

Lemma quiet_pipe_done c pi w r : quiet (S := S) None (pipe_done c pi w r).
Proof. unfold pipe_done. quieted. Qed.

#[local] Hint Resolve quiet_pipe_done : quiet.

Lemma quiet_piperead c pi a n : quiet (S := S) None (do_piperead c pi a n).
Proof. unfold do_piperead, is_killed. quieted. Qed.

Lemma quiet_pipewrite c pi a n i : quiet (S := S) None (do_pipewrite c pi a n i).
Proof. unfold do_pipewrite, is_killed. quieted. Qed.

Lemma quiet_dev_read c n a l : quiet (S := S) None (dev_call dev_read c n a l).
Proof. unfold dev_call. destruct (_ || _); [apply quiet_ret |]. destruct (dev_read n) eqn:E; quieted. by eapply (proj1 HD). Qed.

Lemma quiet_dev_write c n a l : quiet (S := S) None (dev_call dev_write c n a l).
Proof. unfold dev_call. destruct (_ || _); [apply quiet_ret |]. destruct (dev_write n) eqn:E; quieted. by eapply (proj1 (proj2 HD)). Qed.

#[local] Hint Resolve quiet_piperead quiet_pipewrite quiet_dev_read quiet_dev_write : quiet.

Lemma quiet_fileread c f a n : quiet (S := S) None (fileread c f a n).
Proof. unfold fileread. quieted. Qed.

Lemma quiet_filewrite_loop fu c f a n i : quiet (S := S) None (filewrite_loop log_addr fu c f a n i).
Proof. revert i. induction fu as [|fu IH]; intros i; cbn [filewrite_loop]; quieted. Qed.

#[local] Hint Resolve quiet_filewrite_loop : quiet.

Lemma quiet_filewrite c f a n : quiet (S := S) None (filewrite log_addr c f a n).
Proof. unfold filewrite. quieted. Qed.

Lemma quiet_filestat c f a : quiet (S := S) None (filestat pad c f a).
Proof. unfold filestat. quieted. Qed.

Lemma quiet_proc_pagetable o p : quiet (S := S) o (proc_pagetable p).
Proof. unfold proc_pagetable. quieted. Qed.

Lemma quiet_proc_freepagetable o pt sz : quiet (S := S) o (proc_freepagetable pt sz).
Proof. unfold proc_freepagetable. quieted. Qed.

#[local] Hint Resolve quiet_proc_pagetable quiet_proc_freepagetable : quiet.

Lemma quiet_loadseg pt va ip offset sz : quiet (S := S) None (loadseg pt va ip offset sz).
Proof.
  unfold loadseg. generalize 0 as i. induction (Datatypes.S _) as [|n IH]; intros i; cbn [loadseg_loop]; quieted.
Qed.

#[local] Hint Resolve quiet_loadseg : quiet.

Lemma quiet_load_loop n pt ip off sz : quiet (S := S) None (load_loop n pt ip off sz).
Proof. revert off sz. induction n as [|n IH]; intros off sz; cbn [load_loop]; quieted. Qed.

Lemma quiet_push_args argv argc pt sb sp us : quiet (S := S) None (push_args argv argc pt sb sp us).
Proof. revert argc sp us. induction argv as [|a argv IH]; intros argc sp us; cbn [push_args]; unfold kstrlen; quieted. Qed.

#[local] Hint Resolve quiet_load_loop quiet_push_args : quiet.

Lemma quiet_exec c path argv : quiet (S := S) None (exec log_addr c path argv).
Proof. unfold exec, load_image, make_stack, exec_commit, exec_putback, exec_free. quieted. Qed.

Lemma quiet_fetch_args n c u l : quiet (S := S) None (fetch_args n c u l).
Proof. revert l. induction n as [|n IH]; intros l; cbn [fetch_args]; quieted. Qed.

Lemma quiet_free_args l : quiet (S := S) None (free_args l).
Proof. induction l as [|a l IH]; cbn [free_args]; quieted. Qed.

#[local] Hint Resolve quiet_fileread quiet_filewrite quiet_filestat quiet_exec quiet_fetch_args quiet_free_args : quiet.

Lemma quiet_resume c w : quiet (S := S) None (do_file_resume c w).
Proof. unfold do_file_resume, file_continue. destruct w; quieted. apply (proj2 (proj2 HD)). Qed.

(** Every call but the four that create or drop references. *)
Lemma quiet_call f c : f <> CallDup -> f <> CallClose -> f <> CallOpen -> f <> CallPipe ->
  quiet (S := S) None (do_file_call log_addr pad f c).
Proof.
  intros H1 H2 H3 H4. destruct f; try done; cbn [do_file_call];
    unfold sys_read, sys_write, sys_exec, sys_fstat, sys_chdir, sys_mknod, sys_mkdir, sys_link, sys_unlink,
      sys_getreadcount, make_node; quieted.
Qed.

End Quiet.

(** ** System calls that create or drop references *)

Section Calls.
Context `{I : Image} {S : Type} `{CS : Cache S} `{DV : DevSw (files S)} (log_addr : Z) (pad : list Z).
Implicit Types k : kernel (files S).

(** The process in slot [p] runs on hart [c]. *)
Definition active (c p : nat) k : Prop :=
  cpu_of k c = Some p /\ (p < length (procs k))%nat /\ ~ dead (slot k p).

Lemma own_active {A} c p (m : M (kernel (files S)) A) k a k' :
  own c p m -> active c p k -> m k = Ok (a, k') -> active c p k'.
Proof.
  intros Ho (Hc & Hp & Hd) Hm. destruct (Ho _ _ _ Hc Hm) as (C & L & E). split_and!; [done | lia | by rewrite E].
Qed.

Lemma slot_lookup k p : (p < length (procs k))%nat -> procs k !! p = Some (slot k p).
Proof. intros [q Hq]%lookup_lt_is_Some_2. unfold slot. by rewrite nth_lookup, Hq. Qed.

Lemma files_of_slot held k p : refs_ok held k -> (p < length (procs k))%nat -> length (ofile (slot k p)) = NOFILE.
Proof.
  intros Hr Hp. eapply ro_len; [exact Hr |]. eapply list_elem_of_lookup_2, fds_lookup. by apply slot_lookup.
Qed.

Lemma free_fd_spec l n i : free_fd l n = Some i -> (n <= i)%nat /\ l !! (i - n)%nat = Some 0.
Proof.
  revert n. induction l as [|f l IH]; intros n; cbn; [done |]. destruct (Z.eqb_spec f 0) as [->|E].
  - intros [= <-]. by rewrite Nat.sub_diag.
  - intros [Hle Hi]%IH. split; [lia |]. by replace (i - n)%nat with (Datatypes.S (i - Datatypes.S n)) by lia.
Qed.

(** Storing to a descriptor of the running process. *)
Lemma set_fd_refs held c p n x v k k' :
  refs_ok held k -> active c p k -> ofile (slot k p) !! n = Some x -> v = 0 \/ is_file k v ->
  set_fd p n v k = Ok (tt, k') ->
  refs_ok (hold v (-1) (hold x 1 held)) k' /\ active c p k' /\ (forall g, is_file k g -> is_file k' g) /\
  ofile (slot k' p) = <[n := v]> (ofile (slot k p)).
Proof.
  intros Hr (Hc & Hp & Hd) Hx Hv [_ <-]%Ok_inv.
  assert (slot (set_procs (alter (fun q => set_ofile (<[n := v]> (ofile q)) q) p) k) p
          = set_ofile (<[n := v]> (ofile (slot k p))) (slot k p)) as Es by (by rewrite slot_alter).
  split_and!; [| split_and!; [done | cbn [procs set_procs]; by rewrite length_alter | by rewrite Es] | done | by rewrite Es].
  eapply refs_set_fd; [exact Hr | by apply slot_lookup | exact Hx | destruct Hv; [by left | by right] |].
  intros i. unfold hold.
  repeat match goal with |- context[?a =? ?b] => destruct (Z.eqb_spec a b) end;
    repeat case_bool_decide; subst; try lia; congruence.
Qed.

Lemma fdalloc_refs held c p f k fd k' :
  refs_ok held k -> active c p k -> is_file k f -> fdalloc c f k = Ok (fd, k') ->
  (fd = -1 /\ k' = k) \/
  (exists n, fd = Z.of_nat n /\ refs_ok (hold f (-1) held) k' /\ active c p k' /\
     (forall g, is_file k g -> is_file k' g) /\
     ofile (slot k p) !! n = Some 0 /\ ofile (slot k' p) = <[n := f]> (ofile (slot k p))).
Proof.
  intros Hr Ha Hf. unfold fdalloc. rewrite (bind_ok _ _ _ _ _ (cur_eq _ _ _ (proj1 Ha))). unfold getp. rewrite bind_gets.
  fold (slot k p). destruct (free_fd _ _) as [n|] eqn:Hn; [| intros [<- <-]%Ok_inv; by left].
  apply free_fd_spec in Hn as [_ Hn]. rewrite Nat.sub_0_r in Hn. apply lookup_take_Some in Hn as [Hn _].
  intros ([] & k1 & H1 & [<- <-]%Ok_inv)%bind_Ok_inv. right. exists n. split; [done |].
  destruct (set_fd_refs held c p n 0 f k k1) as (Hr1 & Ha1 & Hf1 & E); try done; [by right |].
  split_and!; [| done | done | done | done].
  eapply refs_ext; [| exact Hr1]. intros i. unfold hold, ptr.
  repeat match goal with |- context[?a =? ?b] => destruct (Z.eqb_spec a b) end; lia.
Qed.

Lemma argfd_spec c p n k a k' : active c p k -> argfd c n k = Ok (a, k') ->
  k' = k /\ match a with
            | Some (fd, f) => f <> 0 /\ 0 <= fd < Z.of_nat NOFILE /\ nth (Z.to_nat fd) (ofile (slot k p)) 0 = f
            | None => True
            end.
Proof.
  intros (Hc & _ & _). unfold argfd. intros (fd & k1 & H1 & H)%bind_Ok_inv.
  assert (k1 = k) as ->.
  { revert H1. unfold argint, argraw. intros (v & k2 & H2 & [_ <-]%Ok_inv)%bind_Ok_inv.
    rewrite (bind_ok _ _ _ _ _ (cur_eq _ _ _ Hc)) in H2. unfold getp in H2. rewrite bind_gets in H2.
    destruct (_ && _); [| done]. unfold on_vm, ld64, gets in H2. apply Ok_inv in H2 as [_ <-]. by destruct k. }
  rewrite (bind_ok _ _ _ _ _ (cur_eq _ _ _ Hc)) in H. destruct (_ || _) eqn:Er; [by apply Ok_inv in H as [<- <-] |].
  unfold getp in H. rewrite bind_gets in H. fold (slot k p) in H. destruct (Z.eqb_spec (nth (Z.to_nat fd) (ofile (slot k p)) 0) 0).
  - by apply Ok_inv in H as [<- <-].
  - apply Ok_inv in H as [<- <-]. apply orb_false_iff in Er as [E1%Z.ltb_ge E2%Z.leb_gt]. done.
Qed.

(** The entry of a descriptor that is open. *)
Lemma open_fd held c p fd k :
  refs_ok held k -> active c p k -> 0 <= fd < Z.of_nat NOFILE -> nth (Z.to_nat fd) (ofile (slot k p)) 0 <> 0 ->
  ofile (slot k p) !! Z.to_nat fd = Some (nth (Z.to_nat fd) (ofile (slot k p)) 0) /\
  is_file k (nth (Z.to_nat fd) (ofile (slot k p)) 0).
Proof.
  intros Hr (_ & Hp & _) Hfd Hne. pose proof (files_of_slot held k p Hr Hp) as Hl.
  destruct (lookup_lt_is_Some_2 (ofile (slot k p)) (Z.to_nat fd)) as [f Hf]; [lia |].
  rewrite nth_lookup, Hf in *. cbn in *. split; [done |]. destruct (ro_fd _ _ Hr (ofile (slot k p)) f) as [->|]; [| | done..].
  - eapply list_elem_of_lookup_2, fds_lookup. by apply slot_lookup.
  - by eapply list_elem_of_lookup_2.
Qed.

Lemma hold_back f held k : refs_ok (hold f (-1) (hold f 1 held)) k -> refs_ok held k.
Proof. apply refs_ext. intros i. unfold hold. destruct (ptr i =? f); lia. Qed.

Lemma hold_back' f held k : refs_ok (hold f 1 (hold f (-1) held)) k -> refs_ok held k.
Proof. apply refs_ext. intros i. unfold hold. destruct (ptr i =? f); lia. Qed.

Lemma hold_0 n held k : refs_ok (hold 0 n held) k -> refs_ok held k.
Proof. apply refs_ext. intros i. unfold hold, ptr. destruct (Z.eqb_spec (Z.of_nat i + 1) 0); lia. Qed.

Lemma dup_refs c p k o k' : refs_ok none k -> active c p k -> sys_dup c k = Ok (o, k') -> refs_ok none k'.
Proof.
  intros Hr Ha. unfold sys_dup. intros (a & k1 & H1 & H)%bind_Ok_inv.
  apply (argfd_spec c p) in H1 as [-> Hs]; [| done]. destruct a as [[fd0 f]|]; [| by apply Ok_inv in H as [_ <-]].
  destruct Hs as (Hne & Hfd & Ef). subst f. destruct (open_fd none c p fd0 k Hr Ha Hfd Hne) as [_ Hf].
  apply bind_Ok_inv in H as (fd & k2 & H2 & H).
  destruct (fdalloc_refs _ c p _ _ _ _ Hr Ha Hf H2) as [[-> ->]|(n & -> & Hr2 & Ha2 & Hf2 & _)]; [by apply Ok_inv in H as [_ <-] |].
  destruct (Z.ltb_spec (Z.of_nat n) 0); [lia |]. apply bind_Ok_inv in H as (r & k3 & H3 & [_ <-]%Ok_inv).
  apply (filedup_refs _ _ _ _ _ Hr2 (Hf2 _ Hf)) in H3 as (_ & _ & Hr3 & _). by eapply hold_back'.
Qed.

Lemma close_refs c p k o k' : refs_ok none k -> active c p k -> sys_close log_addr c k = Ok (o, k') -> refs_ok none k'.
Proof.
  intros Hr Ha. unfold sys_close. intros (a & k1 & H1 & H)%bind_Ok_inv.
  apply (argfd_spec c p) in H1 as [-> Hs]; [| done]. destruct a as [[fd0 f]|]; [| by apply Ok_inv in H as [_ <-]].
  destruct Hs as (Hne & Hfd & Ef). subst f. destruct (open_fd none c p fd0 k Hr Ha Hfd Hne) as [Hl Hf].
  rewrite (bind_ok _ _ _ _ _ (cur_eq _ _ _ (proj1 Ha))) in H. apply bind_Ok_inv in H as ([] & k2 & H2 & H).
  destruct (set_fd_refs none c p _ _ 0 k k2 Hr Ha Hl ltac:(by left) H2) as (Hr2 & Ha2 & Hf2 & _).
  apply bind_Ok_inv in H as ([] & k3 & H3 & [_ <-]%Ok_inv). apply hold_0 in Hr2.
  apply (fileclose_refs log_addr _ _ _ _ _ Hr2 (Hf2 _ Hf)) in H3 as [Hr3 _]. by eapply hold_back.
Qed.

End Calls.

Section OpenPipe.
Context `{I : Image} {S : Type} `{CS : Cache S} `{DV : DevSw (files S)} (log_addr : Z) (pad : list Z).
Implicit Types k : kernel (files S).

#[local] Hint Resolve own_mypid own_begin_op own_end_op : own.
#[local] Hint Resolve quiet_mypid quiet_begin_op quiet_end_op quiet_argint quiet_argaddr quiet_argpath quiet_my_cwd : quiet.

Lemma own_argint c p n : own (S := S) c p (argint c n).
Proof. unfold argint, argraw. owned. Qed.

Lemma own_argpath c p n : own (S := S) c p (argpath c n).
Proof. unfold argpath, argstr, argaddr, argraw, fetchstr. owned. Qed.

Lemma own_my_cwd c p : own (S := S) c p (my_cwd c).
Proof. unfold my_cwd. owned. Qed.

Lemma own_filealloc c p : own (S := S) c p filealloc.
Proof. unfold filealloc. owned. Qed.

Lemma own_pipeclose c p pi w : own (S := S) c p (do_pipeclose c pi w).
Proof. unfold do_pipeclose. owned. Qed.

Lemma own_iput c p ip : own (S := S) c p (do_iput c ip).
Proof. unfold do_iput. owned. Qed.

#[local] Hint Resolve own_argint own_argpath own_my_cwd own_filealloc own_pipeclose own_iput : own.

Lemma own_fileclose c p f : own (S := S) c p (do_fileclose log_addr c f).
Proof. unfold do_fileclose. owned. Qed.

Lemma own_pipealloc c p : own (S := S) c p (pipealloc log_addr c).
Proof. unfold pipealloc. pose proof own_fileclose. owned. Qed.

#[local] Hint Resolve own_fileclose own_pipealloc : own.

(** A step that neither touches references nor the caller. *)
Lemma calm_step {A} held c p (m : M (kernel (files S)) A) k a k' :
  own c p m -> quiet None m -> refs_ok held k -> active c p k -> m k = Ok (a, k') ->
  refs_ok held k' /\ active c p k' /\ (forall g, is_file k g -> is_file k' g).
Proof.
  intros Ho Hq Hr Ha Hm. split_and!; [by eapply refs_quiet_none | by eapply own_active |].
  intros g. eapply quiet_is_file. by eapply Hq.
Qed.

Ltac calm_at H x :=
  lazymatch type of H with
  | bind ?m _ ?k = Ok _ =>
      let k1 := fresh "k" in let H1 := fresh "H" in
      apply bind_Ok_inv in H as (x & k1 & H1 & H);
      lazymatch goal with
      | Hr : refs_ok ?held k, Ha : active ?c ?p k |- _ =>
          let Ho := fresh in let Hq := fresh in
          assert (own c p m) as Ho by owned; assert (quiet None m) as Hq by quieted;
          pose proof (calm_step held c p m k x k1 Ho Hq Hr Ha H1) as Hs;
          clear Ho Hq Hr Ha H1; destruct Hs as (Hr & Ha & _)
      end
  end.

Tactic Notation "calm" hyp(H) "as" ident(x) := calm_at H x.

Lemma open_refs c p k o k' : refs_ok none k -> active c p k -> sys_open log_addr c k = Ok (o, k') -> refs_ok none k'.
Proof.
  intros Hr Ha H. unfold sys_open in H. calm H as om. calm H as path.
  destruct path as [path|]; [| by apply Ok_inv in H as [_ <-]].
  calm H as me. calm H as cwd. calm H as u. calm H as ipp. rename k0 into k6, Hr into Hr6, Ha into Ha6.
  destruct ipp as [ip|]; [| eapply refs_quiet_none; [| exact Hr6 | exact H]; quieted].
  apply bind_Ok_inv in H as (f & k7 & H7 & H).
  pose proof (own_active c p _ _ _ _ (own_filealloc c p) Ha6 H7) as Ha7.
  destruct (filealloc_refs _ _ _ _ Hr6 H7) as [[-> ->]|(Hne & Hr7 & Hf7 & _)].
  { change (0 =? 0) with true in H. cbn [negb] in H. cbv iota in H. rewrite bind_ret in H.
    eapply refs_quiet_none; [| exact Hr6 | exact H]. quieted. }
  rewrite (proj2 (Z.eqb_neq f 0) Hne) in H. cbn [negb] in H. apply bind_Ok_inv in H as (fd & k8 & H8 & H).
  destruct (fdalloc_refs _ c p _ _ _ _ Hr7 Ha7 Hf7 H8) as [[-> ->]|(n & -> & Hr8 & _)].
  - cbn in H. apply bind_Ok_inv in H as ([] & k9 & H9 & H).
    apply (fileclose_refs log_addr _ _ _ _ _ Hr7 Hf7) in H9 as (Hr9 & _). apply hold_back in Hr9.
    eapply refs_quiet_none; [| exact Hr9 | exact H]. quieted.
  - apply hold_back in Hr8. destruct (Z.ltb_spec (Z.of_nat n) 0); [lia |].
    eapply refs_quiet_none; [| exact Hr8 | exact H]. quieted.
Qed.

Lemma pipealloc_refs held c k r k' :
  refs_ok held k -> pipealloc log_addr c k = Ok (r, k') ->
  match r with
  | None => refs_ok held k'
  | Some (f0, f1) => refs_ok (hold f1 1 (hold f0 1 held)) k' /\ is_file k' f0 /\ is_file k' f1
  end.
Proof.
  intros Hr. unfold pipealloc. intros (f0 & k1 & H1 & H)%bind_Ok_inv.
  destruct (filealloc_refs _ _ _ _ Hr H1) as [[-> ->]|(Hn0 & Hr1 & Hf1 & _)]; [by apply Ok_inv in H as [<- <-] |].
  rewrite (proj2 (Z.eqb_neq f0 0) Hn0) in H. apply bind_Ok_inv in H as (f1 & k2 & H2 & H).
  destruct (filealloc_refs _ _ _ _ Hr1 H2) as [[-> ->]|(Hn1 & Hr2 & Hf2 & Hk2)].
  { cbn in H. apply bind_Ok_inv in H as ([] & k3 & H3 & [<- <-]%Ok_inv).
    apply (fileclose_refs log_addr _ _ _ _ _ Hr1 Hf1) in H3 as (Hr3 & _). by eapply hold_back. }
  rewrite (proj2 (Z.eqb_neq f1 0) Hn1) in H. specialize (Hk2 _ Hf1). apply bind_Ok_inv in H as (pi & k3 & H3 & H).
  assert (quiet_rel None k2 k3) as Hq3 by (refine ((_ : quiet None _) _ _ _ H3); quieted).
  pose proof (refs_quiet None _ _ _ Hr2 Hq3 ltac:(done)) as Hr3.
  pose proof (quiet_is_file _ _ _ _ Hq3 Hf2) as Hf1'. pose proof (quiet_is_file _ _ _ _ Hq3 Hk2) as Hf0'. destruct (pi =? 0).
  - apply bind_Ok_inv in H as ([] & k4 & H4 & H).
    apply (fileclose_refs log_addr _ _ _ _ _ Hr3 Hf0') in H4 as (Hr4 & _ & Hk4). apply bind_Ok_inv in H as ([] & k5 & H5 & [<- <-]%Ok_inv).
    apply (fileclose_refs log_addr _ _ _ _ _ Hr4 (Hk4 _ Hf1')) in H5 as (Hr5 & _).
    eapply refs_ext; [| exact Hr5]. intros i. unfold hold. destruct (ptr i =? f1), (ptr i =? f0); lia.
  - assert (quiet_rel None k3 k') as Hq by (refine ((_ : quiet None _) _ _ _ H); quieted).
    assert (r = Some (f0, f1)) as ->.
    { do 4 (apply bind_Ok_inv in H as (? & ? & _ & H)). by apply Ok_inv in H as [<- _]. }
    split_and!; [by eapply refs_quiet | by eapply quiet_is_file | by eapply quiet_is_file].
Qed.

(** The error path of [sys_pipe]: two files closed. *)
Lemma pipe_fail_refs held c f0 f1 k o k' :
  refs_ok (hold f1 1 (hold f0 1 held)) k -> is_file k f0 -> is_file k f1 ->
  pipe_fail log_addr c f0 f1 k = Ok (o, k') -> refs_ok held k'.
Proof.
  intros Hr Hf0 Hf1. unfold pipe_fail. intros ([] & k1 & H1 & H)%bind_Ok_inv.
  apply (fileclose_refs log_addr _ _ _ _ _ Hr Hf0) in H1 as (Hr1 & _ & Hk1).
  apply bind_Ok_inv in H as ([] & k2 & H2 & [_ <-]%Ok_inv).
  apply (fileclose_refs log_addr _ _ _ _ _ Hr1 (Hk1 _ Hf1)) in H2 as (Hr2 & _).
  eapply refs_ext; [| exact Hr2]. intros i. unfold hold. destruct (ptr i =? f1), (ptr i =? f0); lia.
Qed.

Lemma pipe_report_refs c p fdarray f0 f1 n0 n1 k o k' :
  refs_ok none k -> active c p k -> n0 <> n1 -> ofile (slot k p) !! n0 = Some f0 -> ofile (slot k p) !! n1 = Some f1 ->
  is_file k f0 -> is_file k f1 ->
  pipe_report log_addr c p fdarray f0 f1 (Z.of_nat n0) (Z.of_nat n1) k = Ok (o, k') -> refs_ok none k'.
Proof.
  intros Hr Ha Hne Hn0 Hn1 Hf0 Hf1 H. unfold pipe_report, getp in H. rewrite bind_gets, !Nat2Z.id in H.
  apply bind_Ok_inv in H as (r0 & k5 & H5 & H). apply bind_Ok_inv in H as (r1 & k6 & H6 & H).
  set (pt := pagetable _) in *. clearbody pt.
  assert (own (S := S) c p (if r0 <? 0 then ret (-1) else on_vm (copyout pt (u64 (fdarray + 4)) (int_bytes (Z.of_nat n1)))))
    as Ho6 by owned.
  assert (quiet (S := S) None (if r0 <? 0 then ret (-1) else on_vm (copyout pt (u64 (fdarray + 4)) (int_bytes (Z.of_nat n1)))))
    as Hq6 by quieted.
  destruct (own_on_vm c p _ _ _ _ (proj1 Ha) H5) as (C5 & _ & E5).
  destruct (calm_step none c p _ _ _ _ (own_on_vm c p _) (quiet_on_vm None _) Hr Ha H5) as (Hr5 & Ha5 & Hk5).
  destruct (Ho6 _ _ _ C5 H6) as (_ & _ & E6). destruct (calm_step none c p _ _ _ _ Ho6 Hq6 Hr5 Ha5 H6) as (Hr6 & Ha6 & Hk6).
  destruct (r1 <? 0); [| by apply Ok_inv in H as [_ <-]].
  assert (slot k6 p = slot k p) as E by congruence. rewrite <- E in Hn0, Hn1.
  apply bind_Ok_inv in H as ([] & k7 & H7 & H). apply bind_Ok_inv in H as ([] & k8 & H8 & H).
  destruct (set_fd_refs _ c p _ _ 0 _ _ Hr6 Ha6 Hn0 ltac:(by left) H7) as (Hr7 & Ha7 & Hk7 & E7). apply hold_0 in Hr7.
  assert (ofile (slot k7 p) !! n1 = Some f1) as Hn1' by (by rewrite E7, list_lookup_insert_ne by done).
  destruct (set_fd_refs _ c p _ _ 0 _ _ Hr7 Ha7 Hn1' ltac:(by left) H8) as (Hr8 & _ & Hk8 & _). apply hold_0 in Hr8.
  eapply pipe_fail_refs; [exact Hr8 | by apply Hk8, Hk7, Hk6, Hk5 | by apply Hk8, Hk7, Hk6, Hk5 | exact H].
Qed.

Lemma pipe_refs c p k o k' : refs_ok none k -> active c p k -> sys_pipe log_addr c k = Ok (o, k') -> refs_ok none k'.
Proof.
  intros Hr Ha H. unfold sys_pipe, argaddr, argraw in H. calm H as fdarray.
  apply bind_Ok_inv in H as (r & k1 & H1 & H). pose proof (own_active c p _ _ _ _ (own_pipealloc c p) Ha H1) as Ha1.
  pose proof (pipealloc_refs none c _ _ _ Hr H1) as Hr1. clear Hr H1.
  destruct r as [[f0 f1]|]; [| by apply Ok_inv in H as [_ <-]]. destruct Hr1 as (Hr1 & Hf0 & Hf1).
  rewrite (bind_ok _ _ _ _ _ (cur_eq _ _ _ (proj1 Ha1))) in H. apply bind_Ok_inv in H as (fd0 & k2 & H2 & H).
  destruct (fdalloc_refs _ c p _ _ _ _ Hr1 Ha1 Hf0 H2) as [[-> ->]|(n0 & -> & Hr2 & Ha2 & Hk2 & Hz0 & E2)].
  { cbn in H. by eapply pipe_fail_refs. }
  assert (ofile (slot k2 p) !! n0 = Some f0) as Hn0.
  { rewrite E2. apply list_lookup_insert_eq. by apply lookup_lt_Some in Hz0. }
  destruct (Z.ltb_spec (Z.of_nat n0) 0); [lia |]. apply bind_Ok_inv in H as (fd1 & k3 & H3 & H).
  destruct (fdalloc_refs _ c p _ _ _ _ Hr2 Ha2 (Hk2 _ Hf1) H3) as [[-> ->]|(n1 & -> & Hr3 & Ha3 & Hk3 & Hz1 & E3)].
  { change (-1 <? 0) with true in H. cbv iota in H. rewrite Nat2Z.id in H. apply bind_Ok_inv in H as ([] & k4 & H4 & H).
    destruct (set_fd_refs _ c p _ _ 0 _ _ Hr2 Ha2 Hn0 ltac:(by left) H4) as (Hr4 & _ & Hk4 & _). apply hold_0, hold_back' in Hr4.
    eapply pipe_fail_refs; [exact Hr4 | by apply Hk4, Hk2 | by apply Hk4, Hk2 | exact H]. }
  destruct (Z.ltb_spec (Z.of_nat n1) 0); [lia |].
  assert (n0 <> n1) as Hne. { intros ->. rewrite Hn0 in Hz1. injection Hz1 as ->. destruct Hf0. lia. }
  assert (ofile (slot k3 p) !! n1 = Some f1 /\ ofile (slot k3 p) !! n0 = Some f0) as [Hn1 Hn0'].
  { rewrite E3, list_lookup_insert_eq, list_lookup_insert_ne by (done || by apply lookup_lt_Some in Hz1). done. }
  assert (refs_ok none k3) as Hr.
  { eapply refs_ext; [| exact Hr3]. intros i. unfold hold. destruct (ptr i =? f1), (ptr i =? f0); lia. }
  apply Hk2, Hk3 in Hf0. apply Hk2, Hk3 in Hf1. clear Hr1 Ha1 Hr2 Ha2 Hr3 Hk2 Hk3 E2 E3 Hz0 Hz1 Hn0 H2 H3.
  by eapply pipe_report_refs.
Qed.

End OpenPipe.

(** ** Fork and exit *)

Section Life.
Context `{I : Image} {S : Type} `{CS : Cache S} (log_addr fra : Z).
Implicit Types k : kernel (files S).

#[local] Existing Instance kernel_files.
#[local] Instance kf : FileLayer (files S) := kernel_files log_addr.
#[local] Instance kf_ok : FileLayerOk (files S) := kernel_files_ok log_addr.

#[local] Hint Resolve quiet_mypid quiet_begin_op quiet_end_op quiet_iput quiet_proc_pagetable quiet_proc_freepagetable : quiet.

Lemma quiet_freeproc i : quiet (S := S) (Some i) (freeproc i).
Proof. unfold freeproc. quieted. Qed.

Lemma quiet_find_proc o n i f : quiet (S := S) o (find_proc n i f).
Proof. intros k a k'. rewrite find_proc_eq. intros [_ <-]%Ok_inv. apply quiet_refl. Qed.

Lemma quiet_allocpid o : quiet (S := S) o allocpid.
Proof.
  unfold allocpid. apply quiet_bind; [apply quiet_gets | intros n].
  apply quiet_bind; [apply quiet_same; by intros k a k' [_ <-]%Ok_inv | intros _; apply quiet_ret].
Qed.

#[local] Hint Resolve quiet_freeproc quiet_find_proc quiet_allocpid : quiet.

Lemma allocproc_quiet k r k' : allocproc fra k = Ok (r, k') ->
  exists o, quiet_rel o k k' /\ (forall i, o = Some i -> state (slot k i) = UNUSED) /\
    (forall np, r = Some np -> o = Some np).
Proof.
  unfold allocproc. rewrite (bind_ok _ _ _ _ _ (find_proc_eq _ _ _ _)).
  destruct (find_from _ _ _ _) as [i|] eqn:Ef.
  - apply find_from_Some in Ef as (_ & Hun%bool_decide_eq_true & _). intros H. exists (Some i). split_and!.
    + refine ((_ : quiet (Some i) _) _ _ _ H). quieted.
    + by intros j [= <-].
    + intros np ->. apply bind_Ok_inv in H as (? & ? & _ & H). do 2 (apply bind_Ok_inv in H as (? & ? & _ & H)).
      apply bind_Ok_inv in H as (tf & ? & _ & H). apply bind_Ok_inv in H as (? & ? & _ & H).
      destruct (tf =? 0); [by apply bind_Ok_inv in H as (? & ? & _ & H) |].
      apply bind_Ok_inv in H as (pt & ? & _ & H). apply bind_Ok_inv in H as (? & ? & _ & H).
      destruct (pt =? 0); [by apply bind_Ok_inv in H as (? & ? & _ & H) |].
      do 2 (apply bind_Ok_inv in H as (? & ? & _ & H)). by apply Ok_inv in H as [[= ->] _].
  - intros [<- <-]%Ok_inv. exists None. split_and!; [apply quiet_refl | done | done].
Qed.

Lemma slot_fd_file held k p i :
  refs_ok held k -> nth i (ofile (slot k p)) 0 <> 0 -> is_file k (nth i (ofile (slot k p)) 0).
Proof.
  intros Hr. rewrite nth_lookup. destruct (ofile (slot k p) !! i) as [f|] eqn:Ef; [| by intros []]. cbn. intros Hne.
  unfold slot in Ef. rewrite nth_lookup in Ef. destruct (procs k !! p) as [q|] eqn:Hq; cbn in Ef.
  - destruct (ro_fd _ _ Hr (ofile q) f) as [->|]; [| | done | done].
    + by eapply list_elem_of_lookup_2, fds_lookup.
    + by eapply list_elem_of_lookup_2.
  - by apply (lookup_replicate NOFILE 0) in Ef as [-> _].
Qed.

(** The copies of the parent's descriptors. *)
Lemma dup_files_refs n i p np k k' :
  refs_ok none k -> (np < length (procs k))%nat -> ~ dead (slot k np) -> (i + n <= NOFILE)%nat ->
  (forall j, (i <= j < NOFILE)%nat -> ofile (slot k np) !! j = Some 0) ->
  dup_files n i p np k = Ok (tt, k') -> refs_ok none k'.
Proof.
  revert i k. induction n as [|n IH]; intros i k Hr Hnp Hd Hle Hz; cbn [dup_files]; [by intros [_ <-]%Ok_inv |].
  unfold getp. rewrite bind_gets. fold (slot k p). intros ([] & k1 & H1 & H)%bind_Ok_inv.
  destruct (Z.eqb_spec (nth i (ofile (slot k p)) 0) 0) as [E|E]; cbn [negb] in H1.
  { apply Ok_inv in H1 as [_ <-]. eapply (IH (Datatypes.S i)); [done | done | done | lia | | exact H].
    intros j Hj. apply Hz. lia. }
  apply bind_Ok_inv in H1 as (g & k2 & H2 & H1).
  assert (is_file k (nth i (ofile (slot k p)) 0)) as Hf.
  { by eapply slot_fd_file. }
  apply (filedup_refs none k k2 _ g Hr Hf) in H2 as (-> & Ep & Hr2 & Hf2 & _).
  assert (slot k2 np = slot k np) as Es by (unfold slot; by rewrite Ep).
  assert (np < length (procs k2))%nat as Hnp2 by (by rewrite Ep).
  apply Ok_inv in H1 as [_ <-]. set (f := nth i _ 0) in *.
  assert (ofile (slot k2 np) !! i = Some 0) as Hi by (rewrite Es; apply Hz; lia).
  pose proof (refs_set_fd (hold f 1 none) none k2 np (slot k2 np) i 0 f Hr2 (slot_lookup _ _ Hnp2) Hi) as Hr3.
  assert (slot (set_procs (alter (fun q => set_ofile (<[i := f]> (ofile q)) q) np) k2) np
          = set_ofile (<[i := f]> (ofile (slot k np))) (slot k np)) as Es3 by (rewrite slot_alter, Es; done).
  eapply (IH (Datatypes.S i)); [apply Hr3 | | | lia | | exact H].
  - right. rewrite Es. done.
  - intros j. unfold hold, none, ptr. destruct (Z.eqb_spec (Z.of_nat j + 1) f); repeat case_bool_decide; lia.
  - cbn [procs set_procs]. by rewrite length_alter.
  - by rewrite Es3.
  - intros j Hj. rewrite Es3. cbn [ofile set_ofile]. rewrite list_lookup_insert_ne by lia. apply Hz. lia.
Qed.

Lemma no_files_lookup l j : no_files_open l -> length l = NOFILE -> (j < NOFILE)%nat -> l !! j = Some 0.
Proof.
  intros Hl Hn Hj. destruct (lookup_lt_is_Some_2 l j) as [x Hx]; [lia |]. rewrite Hx. f_equal.
  by apply (proj1 (Forall_lookup _ _) Hl j).
Qed.

Lemma fds_slot k k' i : fds k' = fds k -> (i < length (procs k))%nat -> ofile (slot k' i) = ofile (slot k i).
Proof.
  intros E Hi. pose proof (fds_length _ _ E) as El. pose proof (f_equal (fun l => l !! i) E) as H. unfold fds in H.
  cbn beta in H. rewrite !list_lookup_fmap, !slot_lookup in H by lia. by injection H.
Qed.

Lemma unused_no_files held k i : refs_ok held k -> (i < length (procs k))%nat -> state (slot k i) = UNUSED ->
  no_files_open (ofile (slot k i)).
Proof.
  intros Hr Hi Hu. eapply ro_dead; [exact Hr | eapply list_elem_of_lookup_2; by apply slot_lookup | by left].
Qed.

(** A child whose descriptors can be filled. *)
Definition child_ready (np : nat) k : Prop :=
  refs_ok none k /\ length (procs k) = NPROC /\ (np < NPROC)%nat /\ no_files_open (ofile (slot k np)) /\
  state (slot k np) = USED.

Lemma allocproc_refs k r k' :
  length (procs k) = NPROC -> refs_ok none k -> allocproc fra k = Ok (r, k') ->
  refs_ok none k' /\ forall np, r = Some np -> child_ready np k'.
Proof.
  intros Hlen Hr H1. destruct (allocproc_quiet _ _ _ H1) as (o & Hq1 & Hun & Ho).
  assert (refs_ok none k') as Hr1.
  { eapply refs_quiet; [exact Hr | exact Hq1 |]. intros i q -> Hq.
    eapply ro_dead; [exact Hr | by eapply list_elem_of_lookup_2 |]. left.
    specialize (Hun i eq_refl). unfold slot in Hun. by rewrite nth_lookup, Hq in Hun. }
  split; [done |]. intros np ->. pose proof (qr_fds _ _ _ Hq1) as Ef. pose proof (fds_length _ _ Ef) as El.
  destruct (allocproc_abs fra _ _ _ H1) as (Hnp & _ & Eabs). split_and!; [done | lia | done | |].
  - rewrite (fds_slot _ _ _ Ef) by lia. eapply unused_no_files; [exact Hr | lia | by apply Hun, Ho].
  - assert (tab (absk k') !! np = Some (core (slot k' np))) as Et.
    { unfold absk. cbn [tab]. by rewrite list_lookup_fmap, slot_lookup by lia. }
    rewrite Eabs in Et. cbn [tab absk] in Et.
    rewrite list_lookup_alter, decide_True, list_lookup_fmap, slot_lookup in Et by (done || lia).
    by injection Et as <- _ _ _.
Qed.

Lemma child_step {A} np (m : M (kernel (files S)) A) k a k' :
  quiet None m -> frames m -> child_ready np k -> m k = Ok (a, k') -> child_ready np k'.
Proof.
  intros Hq Hfr (Hr & Hl & Hnp & Hz & Hs) Hm. pose proof (Hq _ _ _ Hm) as Hk. pose proof (qr_fds _ _ _ Hk) as Ef.
  pose proof (fds_length _ _ Ef) as El. split_and!; [by eapply refs_quiet | lia | done | rewrite (fds_slot _ _ _ Ef); [done | lia] |].
  pose proof (f_equal (fun b => tab b !! np) (Hfr _ _ _ Hm)) as E. cbn [tab absk] in E.
  rewrite !list_lookup_fmap, !slot_lookup in E by lia. injection E as E _. congruence.
Qed.

Lemma fork_refs c k r k' : length (procs k) = NPROC -> refs_ok none k -> fork fra c k = Ok (r, k') -> refs_ok none k'.
Proof.
  intros Hlen Hr. unfold fork. intros (p & k0 & H0 & H)%bind_Ok_inv. apply cur_Ok in H0 as [-> _].
  apply bind_Ok_inv in H as (r0 & k1 & H1 & H). destruct (allocproc_refs _ _ _ Hlen Hr H1) as [Hr1 Hc1].
  destruct r0 as [np|]; [| by apply Ok_inv in H as [_ <-]]. specialize (Hc1 np eq_refl).
  unfold getp in H. repeat rewrite bind_gets in H. apply bind_Ok_inv in H as (cr & k2 & H2 & H).
  pose proof (child_step _ _ _ _ _ (quiet_on_vm None _) (frames_on_vm _) Hc1 H2) as Hc2.
  destruct (cr <? 0).
  { destruct Hc2 as (Hr2 & Hl2 & Hnp & Hz & _).
    eapply refs_quiet; [exact Hr2 | refine ((_ : quiet (Some np) _) _ _ _ H); quieted |].
    intros i q [= <-] Hq. rewrite slot_lookup in Hq by lia. by injection Hq as <-. }
  apply bind_Ok_inv in H as ([] & k3 & H3 & H). repeat rewrite bind_gets in H.
  apply bind_Ok_inv in H as ([] & k4 & H4 & H). apply bind_Ok_inv in H as ([] & k5 & H5 & H).
  apply (child_step np) in H3; [| by apply quiet_modp | by apply frames_modp | done].
  apply (child_step np) in H4; [| apply quiet_on_vm | apply frames_on_vm | done].
  apply (child_step np) in H5; [| apply quiet_on_vm | apply frames_on_vm | done].
  destruct H5 as (Hr5 & Hl5 & Hnp & Hz & Hs). apply bind_Ok_inv in H as ([] & k6 & H6 & H).
  assert (refs_ok none k6) as Hr6.
  { eapply (dup_files_refs NOFILE 0 p np); [exact Hr5 | lia | unfold dead; rewrite Hs; by intros [|] | | | exact H6]; [done |].
    intros j Hj. apply no_files_lookup; [done | | lia]. eapply files_of_slot; [exact Hr5 | lia]. }
  eapply refs_quiet_none; [| exact Hr6 | exact H].
  apply quiet_bind; [apply quiet_gets | intros dir]. apply quiet_bind; [apply quiet_bind; quieted |].
  intros d. quieted.
Qed.

(** Closing all descriptors of an exiting process. *)
Lemma close_files_refs n fd c p k k' :
  refs_ok none k -> active c p k -> (fd + n = NOFILE)%nat ->
  (forall j, (j < fd)%nat -> ofile (slot k p) !! j = Some 0) ->
  close_files n fd c p k = Ok (tt, k') ->
  refs_ok none k' /\ active c p k' /\ no_files_open (ofile (slot k' p)).
Proof.
  revert fd k. induction n as [|n IH]; intros fd k Hr Ha Hn Hz; cbn [close_files].
  { intros [_ <-]%Ok_inv. split_and!; [done | done |]. apply Forall_lookup. intros j x Hx.
    pose proof (files_of_slot none k p Hr (proj1 (proj2 Ha))) as Hl. rewrite Hz in Hx; [by injection Hx |].
    apply lookup_lt_Some in Hx. lia. }
  unfold getp. rewrite bind_gets. fold (slot k p). intros ([] & k1 & H1 & H)%bind_Ok_inv.
  pose proof (files_of_slot none k p Hr (proj1 (proj2 Ha))) as Hl.
  destruct (lookup_lt_is_Some_2 (ofile (slot k p)) fd) as [f Hf]; [lia |].
  assert (nth fd (ofile (slot k p)) 0 = f) as En by (by rewrite nth_lookup, Hf). rewrite En in H1.
  destruct (Z.eqb_spec f 0) as [E0|E]; cbn [negb] in H1.
  { rewrite E0 in Hf. apply Ok_inv in H1 as [_ <-]. eapply (IH (Datatypes.S fd)); [done | done | lia | | exact H].
    intros j Hj. destruct (decide (j = fd)) as [->|]; [done | apply Hz; lia]. }
  assert (is_file k f) as Hif by (rewrite <- En; eapply slot_fd_file; [exact Hr | by rewrite En]).
  apply bind_Ok_inv in H1 as ([] & k2 & H2 & H1).
  pose proof (own_active c p _ _ _ _ (own_fileclose log_addr c p f) Ha H2) as Ha2.
  destruct (own_fileclose log_addr c p f _ _ _ (proj1 Ha) H2) as (_ & _ & E2).
  apply (fileclose_refs log_addr none c k k2 f Hr Hif) in H2 as (Hr2 & _ & _). rewrite <- E2 in Hf.
  destruct (set_fd_refs _ c p fd f 0 k2 k1 Hr2 Ha2 Hf ltac:(by left) H1) as (Hr3 & Ha3 & _ & E3).
  apply hold_0, hold_back' in Hr3. eapply (IH (Datatypes.S fd)); [done | done | lia | | exact H].
  intros j Hj. rewrite E3, E2. destruct (decide (j = fd)) as [->|].
  - apply list_lookup_insert_eq. lia.
  - rewrite list_lookup_insert_ne by done. apply Hz. lia.
Qed.

Lemma quiet_for_procs o n i (body : nat -> M (kernel (files S)) unit) :
  (forall j, quiet o (body j)) -> quiet o (for_procs n i body).
Proof. intros Hb. revert i. induction n as [|n IH]; intros i; cbn [for_procs]; [apply quiet_ret |]. by apply quiet_bind. Qed.

Lemma exit_refs c p st k k' : refs_ok none k -> active c p k -> exit c st k = Ok (tt, k') -> refs_ok none k'.
Proof.
  intros Hr Ha. unfold exit. rewrite (bind_ok _ _ _ _ _ (cur_eq _ _ _ (proj1 Ha))), bind_gets.
  case_bool_decide as Hini; [done |]. intros ([] & k1 & H1 & H)%bind_Ok_inv.
  apply close_files_refs in H1 as (Hr1 & Ha1 & Hz); [| done | done | done | lia].
  eapply refs_quiet; [exact Hr1 | |].
  - refine ((_ : quiet (Some p) _) _ _ _ H). apply quiet_bind; [apply quiet_begin_op | intros _].
    apply quiet_bind; [apply quiet_getp | intros dir]. apply quiet_bind; [apply quiet_iput | intros _].
    apply quiet_bind; [apply quiet_end_op | intros _]. unfold reparent.
    apply quiet_bind; [quieted | intros _]. apply quiet_bind; [| quieted].
    apply quiet_for_procs. intros j. quieted.
  - intros i q [= <-] Hq. destruct Ha1 as (_ & Hp & _). rewrite slot_lookup in Hq by done. by injection Hq as <-.
Qed.

End Life.

(** ** Properties *)

Section Properties.
Context `{I : Image} {S : Type} `{CS : Cache S} `{DV : DevSw (files S)} (log_addr fra : Z) (pad : list Z).
Implicit Types k : kernel (files S).

(** What the kernel does to descriptors and open files: a system call on files by a running
    process, its continuation after a wait, [fork], [exit], and everything else (scheduling,
    other system calls, interrupts, reaping), which leaves descriptors and reference
    counts alone and does not end a process. *)
Inductive fd_step k k' : Prop :=
  | FdCall f c p o : active c p k -> do_file_call log_addr pad f c k = Ok (o, k') -> fd_step k k'
  | FdResume c w o : do_file_resume c w k = Ok (o, k') -> fd_step k k'
  | FdFork c r : length (procs k) = NPROC -> fork (FS := kernel_files log_addr) fra c k = Ok (r, k') -> fd_step k k'
  | FdExit c p st : active c p k -> exit (FS := kernel_files log_addr) c st k = Ok (tt, k') -> fd_step k k'
  | FdOther : quiet_rel None k k' -> fd_step k k'.

Lemma fd_step_ok k k' : drivers_quiet -> fd_step k k' -> refs_ok none k -> refs_ok none k'.
Proof.
  intros HD Hs Hr. destruct Hs as [f c p o Ha H|c w o H|c r Hl H|c p st Ha H|H].
  - destruct (decide (f = CallDup)) as [->|]; [cbn [do_file_call] in H; eapply dup_refs; [exact Hr | exact Ha | exact H] |].
    destruct (decide (f = CallClose)) as [->|]; [cbn [do_file_call] in H; eapply close_refs; [exact Hr | exact Ha | exact H] |].
    destruct (decide (f = CallOpen)) as [->|]; [cbn [do_file_call] in H; eapply open_refs; [exact Hr | exact Ha | exact H] |].
    destruct (decide (f = CallPipe)) as [->|]; [cbn [do_file_call] in H; eapply pipe_refs; [exact Hr | exact Ha | exact H] |].
    eapply refs_quiet_none; [by apply quiet_call | exact Hr | exact H].
  - eapply refs_quiet_none; [by apply quiet_resume | exact Hr | exact H].
  - eapply fork_refs; [exact Hl | exact Hr | exact H].
  - eapply exit_refs; [exact Hr | exact Ha | exact H].
  - by eapply refs_quiet.
Qed.

(** No file is open. *)
Definition nothing_open k : Prop :=
  Forall (fun p => length (ofile p) = NOFILE /\ no_files_open (ofile p)) (procs k) /\
  Forall (fun f => fref f = 0) (ftab (kfs k)).

Lemma nothing_open_ok k : nothing_open k -> refs_ok none k.
Proof.
  intros [Hp Hf]. assert (forall l, l ∈ fds k -> length l = NOFILE /\ no_files_open l) as Hl.
  { intros l (p & -> & Hin)%list_elem_of_fmap. by apply (proj1 (Forall_forall _ _) Hp). }
  assert (forall i L, (forall l, l ∈ L -> no_files_open l) -> total (ptr i) L = 0) as Ht.
  { intros i L. induction L as [|l L IH]; intros HL; cbn; [done |]. rewrite IH by (intros; apply HL, elem_of_cons; by right).
    assert (no_files_open l) as Hz by (apply HL, elem_of_cons; by left). clear -Hz.
    induction Hz as [|x l -> _ IH]; [done |]. rewrite count_cons, bool_decide_eq_false_2 by (unfold ptr; lia). lia. }
  split.
  - intros i f Hi. rewrite (Ht i (fds k)) by (intros; by apply Hl). by apply (proj1 (Forall_lookup _ _) Hf i).
  - intros l f Hin Hin'. left. destruct (Hl l Hin) as [_ Hz]. by apply (proj1 (Forall_forall _ _) Hz).
  - intros l Hin. by apply Hl.
  - intros p Hin _. by apply (proj1 (Forall_forall _ _) Hp).
Qed.

(** C15: in every state the kernel reaches from a state without open files, by system calls on
    files that succeed or fail at any point, their continuations, forks and exits of any
    processes, the reference count of each open file is exactly the number of
    descriptors in all processes that refer to it, every descriptor that is not free refers
    to a file in use, and processes that have exited hold none. *)
Theorem fd_refs_exact (k0 k : kernel (files S)) (HD : drivers_quiet) (H0 : nothing_open k0)
    (Hrun : rtc fd_step k0 k) :
  (forall i f, ftab (kfs k) !! i = Some f -> fref f = total (ptr i) (fds k)) /\
  (forall p fd x, procs k !! p = Some x -> nth fd (ofile x) 0 <> 0 ->
     exists i f, nth fd (ofile x) 0 = ptr i /\ ftab (kfs k) !! i = Some f /\ 1 <= fref f) /\
  (forall p x, procs k !! p = Some x -> dead x -> no_files_open (ofile x)).
Proof.
  assert (refs_ok none k) as Hr.
  { apply nothing_open_ok in H0. induction Hrun as [k|k0 k1 k Hs _ IH]; [done |]. apply IH. by eapply fd_step_ok. }
  split_and!.
  - intros i f Hf. rewrite (ro_ref _ _ Hr i f Hf). unfold none. lia.
  - intros p fd x Hx Hne. assert (slot k p = x) as Es by (unfold slot; by rewrite nth_lookup, Hx). rewrite <- Es in Hne |- *.
    pose proof (slot_fd_file none k p fd Hr Hne) as Hf. destruct (is_file_ptr _ _ Hf) as (i & f & E & Hi).
    exists i, f. split_and!; [done | done |]. rewrite (ro_ref _ _ Hr i f Hi). unfold none.
    pose proof (total_ge (ptr i) _ _ _ (fds_lookup _ _ _ Hx)). rewrite nth_lookup in E, Hne.
    destruct (ofile (slot k p) !! fd) as [g|] eqn:Eg; [| by destruct Hne]. cbn in E. subst g. rewrite Es in Eg.
    pose proof (count_pos _ _ _ Eg). lia.
  - intros p x Hx. eapply ro_dead; [exact Hr | by eapply list_elem_of_lookup_2].
Qed.

End Properties.

(** ** Witness *)

(** No devices. *)
Definition no_drivers : DevSw (files bcache) := {|
  dsusp := unit;
  dev_read := fun _ => None;
  dev_write := fun _ => None;
  dev_resume := fun _ _ => ret (DReturn 0);
|}.

(** A process and two free file structures, and no free memory. *)
Definition full_kernel : kernel (files bcache) :=
  mkkernel (boot_vm zero_mem) [set_state RUNNING (set_pid 3 proc0)] [mkcpu (Some 0%nat)] 4 None 0
    (mkfiles dir_fs [file0; file0] (fun _ => pipe_init []) 0).

(** [pipe] gets its two files, fails for lack of memory and gives them back. *)
Lemma full_pipe_value :
  value (do_file_call (I := small_image) (CS := bio_cache 0) (DV := no_drivers) 4096 [] CallPipe 0 full_kernel)
  = Some (Done (u64 (-1))).
Proof. vm_compute. reflexivity. Qed.

Lemma fd_refs_exact_witness :
  exists k, rtc (fd_step (I := small_image) (CS := bio_cache 0) (DV := no_drivers) 4096 0 []) full_kernel k /\
    forall i f, ftab (kfs k) !! i = Some f -> fref f = total (ptr i) (fds k).
Proof.
  destruct (value_Some _ _ full_pipe_value) as [k Hk]. exists k.
  assert (rtc (fd_step (I := small_image) (CS := bio_cache 0) (DV := no_drivers) 4096 0 []) full_kernel k) as Hrun.
  { apply rtc_once. eapply (FdCall _ _ _ _ _ CallPipe 0 0 (Done (u64 (-1)))); [| exact Hk].
    split_and!; [reflexivity | cbn; lia | by intros [|]]. }
  split; [exact Hrun |].
  apply (fd_refs_exact (I := small_image) (CS := bio_cache 0) (DV := no_drivers) 4096 0 [] full_kernel k); [| | exact Hrun].
  - split_and!; [done | done |]. intros c x. apply quiet_ret.
  - split; repeat constructor.
Defined.
