(* ===== verification/Print.v ===== *)
(** * Print: formatted output of the kernel

    [printint], [printptr], [printf] and [panic] of [kernel/printf.c]; [procdump] of [kernel/proc.c].  Output
    is the list of characters handed to [consputc], in order.  Characters are integers; a C string is the list of its
    characters up to the first 0.  A variable argument list is a list of [varg]; reading an
    argument that is not there or of another kind is undefined ([None]). *)

From stdpp Require Import base list strings.
From Stdlib Require Import ZArith Lia Ascii.
From S2P Require Import Prelude Riscv Mem Kalloc Vm Proc.

(** ** Characters and strings *)

Definition chr (a : ascii) : Z := Z.of_N (N_of_ascii a).
Definition bytes (s : string) : list Z := chr <$> String.list_ascii_of_string s.

Definition c_pct : Z := Eval cbv in chr "%".
Definition c_minus : Z := Eval cbv in chr "-".
Definition c_d : Z := Eval cbv in chr "d".
Definition c_x : Z := Eval cbv in chr "x".
Definition c_p : Z := Eval cbv in chr "p".
Definition c_s : Z := Eval cbv in chr "s".
Definition c_l : Z := Eval cbv in chr "l".
Definition c_c : Z := Eval cbv in chr "c".
Definition c_0 : Z := Eval cbv in chr "0".
Definition c_9 : Z := Eval cbv in chr "9".
Definition c_nl : Z := 10.

Inductive varg : Type :=
  | VInt (v : Z)
  | VStr (s : option (list Z)).

Definition va_num (ap : list varg) : option (Z * list varg) :=
  match ap with VInt v :: rest => Some (v, rest) | _ => None end.
Definition va_str (ap : list varg) : option (list Z * list varg) :=
  match ap with
  | VStr (Some s) :: rest => Some (cut0 s, rest)
  | VStr None :: rest => Some (bytes "(null)", rest)
  | _ => None
  end.

(** ** Numbers: the parts that [kernel/printf.c] and [user/printf.c] share, up to the digits *)

Definition kdigits : list Z := Eval cbv in bytes "0123456789abcdef".
Definition udigits : list Z := Eval cbv in bytes "0123456789ABCDEF".

(** The loop [do buf[i++] = digits[x % base]; while((x /= base) != 0)]. *)
Fixpoint digit_loop (fuel : nat) (digits : list Z) (x base : Z) : list Z :=
  match fuel with
  | O => []
  | S f => nth (Z.to_nat (x mod base)) digits 0 ::
           (if x / base =? 0 then [] else digit_loop f digits (x / base) base)
  end.

(** The buffer [buf] of [printint] when the printing loop starts; [x] is 32 bits wide, so
    there are at most 32 digits. *)
Definition printint_buf (digits : list Z) (xx base : Z) (sign : bool) : list Z :=
  let neg := sign && (xx <? 0) in
  let x := u32 (if neg then - xx else xx) in
  let buf := digit_loop 32 digits x base in
  if neg then buf ++ [c_minus] else buf.

Definition printint (xx base : Z) (sign : bool) : list Z := rev (printint_buf kdigits (i32 xx) base sign).

Fixpoint hex_loop (n : nat) (digits : list Z) (x : Z) : list Z :=
  match n with
  | O => []
  | S n' => nth (Z.to_nat (Z.shiftr x 60)) digits 0 :: hex_loop n' digits (u64 (Z.shiftl x 4))
  end.

Definition printptr (x : Z) : list Z := c_0 :: c_x :: hex_loop 16 kdigits (u64 x).

(** ** [printf] of the kernel *)

Fixpoint printf_loop (fmt : list Z) (ap : list varg) : option (list Z) :=
  match fmt with
  | [] => Some []
  | c :: rest =>
      if c =? 0 then Some [] else
      if negb (c =? c_pct) then (cons c) <$> printf_loop rest ap else
      match rest with
      | [] => Some []
      | d :: rest' =>
          if d =? 0 then Some [] else
          if d =? c_d then
            '(v, ap') ← va_num ap; app (printint v 10 true) <$> printf_loop rest' ap'
          else if d =? c_x then
            '(v, ap') ← va_num ap; app (printint v 16 true) <$> printf_loop rest' ap'
          else if d =? c_p then
            '(v, ap') ← va_num ap; app (printptr v) <$> printf_loop rest' ap'
          else if d =? c_s then
            '(s, ap') ← va_str ap; app s <$> printf_loop rest' ap'
          else if d =? c_pct then (cons c_pct) <$> printf_loop rest' ap
          else (app [c_pct; d]) <$> printf_loop rest' ap
      end
  end.

(** The end of a call: it returns, the machine is frozen by [panic], or the arguments do not
    fit the format. *)
Inductive pout : Type :=
  | PDone (out : list Z)
  | PFrozen (out : list Z)
  | PUndef.

Definition pthen (a : pout) (b : pout) : pout :=
  match a, b with
  | PDone l, PDone k => PDone (l ++ k)
  | PDone l, PFrozen k => PFrozen (l ++ k)
  | PDone _, PUndef => PUndef
  | _, _ => a
  end.

Definition of_loop (r : option (list Z)) : pout := match r with Some l => PDone l | None => PUndef end.

(** [panic]: its argument is used as a format.  The output of the last [printf] is followed by
    the endless loop. *)
Definition kpanic (s : list Z) : pout :=
  match pthen (of_loop (printf_loop (bytes "panic: ") []))
          (pthen (of_loop (printf_loop s [])) (PDone [c_nl])) with
  | PDone l => PFrozen l
  | r => r
  end.

Definition printf (fmt : option (list Z)) (ap : list varg) : pout :=
  match fmt with
  | None => kpanic (bytes "null fmt")
  | Some f => of_loop (printf_loop f ap)
  end.

(** ** [procdump] *)

Definition state_name (s : procstate) : list Z :=
  match s with
  | UNUSED => bytes "unused"
  | USED => bytes "used"
  | SLEEPING => bytes "sleep "
  | RUNNABLE => bytes "runble"
  | RUNNING => bytes "run   "
  | ZOMBIE => bytes "zombie"
  end.

Fixpoint procdump_loop (ps : list proc) : pout :=
  match ps with
  | [] => PDone []
  | p :: rest =>
      if bool_decide (state p = UNUSED) then procdump_loop rest else
      pthen (printf (Some (bytes "%d %s %s")) [VInt (pid p); VStr (Some (state_name (state p))); VStr (Some (name p))])
        (pthen (printf (Some [c_nl]) []) (procdump_loop rest))
  end.

Definition procdump (ps : list proc) : pout := pthen (printf (Some [c_nl]) []) (procdump_loop ps).

(** ** Lemmas *)

(** The number a list of digits stands for, least significant first. *)
Fixpoint number (base : Z) (l : list Z) : Z :=
  match l with
  | [] => 0
  | d :: l' => d + base * number base l'
  end.

(** The digits themselves, without fuel running out. *)
Fixpoint digits_of (fuel : nat) (x base : Z) : list Z :=
  match fuel with
  | O => []
  | S f => x mod base :: (if x / base =? 0 then [] else digits_of f (x / base) base)
  end.

Lemma digit_loop_digits fuel ds x base :
  digit_loop fuel ds x base = (fun d => nth (Z.to_nat d) ds 0) <$> digits_of fuel x base.
Proof.
  revert x. induction fuel as [|f IH]; intros x; [done |]. cbn [digit_loop digits_of].
  rewrite fmap_cons. f_equal. destruct (_ =? 0); [done | apply IH].
Qed.

(** Fuel [n] is enough for a number below [base ^ n]. *)
Lemma digits_of_number fuel x base :
  2 <= base -> 0 <= x < base ^ Z.of_nat fuel -> number base (digits_of fuel x base) = x.
Proof.
  intros Hb. revert x. induction fuel as [|f IH]; intros x Hx.
  { cbn in Hx. cbn. lia. }
  cbn [digits_of number]. pose proof (Z.div_mod x base ltac:(lia)) as E.
  destruct (Z.eqb_spec (x / base) 0) as [Hz|Hz]; cbn [number].
  - lia.
  - rewrite IH; [lia |]. split; [apply Z.div_pos; lia |]. apply Z.div_lt_upper_bound; [lia |].
    rewrite Nat2Z.inj_succ, Z.pow_succ_r in Hx by lia. lia.
Qed.

Lemma digits_of_range fuel x base : 2 <= base -> Forall (fun d => 0 <= d < base) (digits_of fuel x base).
Proof.
  intros Hb. revert x. induction fuel as [|f IH]; intros x; cbn [digits_of]; constructor.
  - apply Z.mod_pos_bound. lia.
  - destruct (_ =? 0); [done | apply IH].
Qed.

(** Ten decimal digits are enough for 32 bits. *)
Lemma digits_of_length fuel n x base :
  2 <= base -> 0 <= x < base ^ Z.of_nat n -> (0 < n)%nat -> (length (digits_of fuel x base) <= n)%nat.
Proof.
  intros Hb. revert n x. induction fuel as [|f IH]; intros n x Hx Hn; [cbn; lia |]. cbn [digits_of length].
  destruct (Z.eqb_spec (x / base) 0) as [Hz|Hz]; [cbn; lia |].
  destruct n as [|n]; [lia |]. rewrite Nat2Z.inj_succ, Z.pow_succ_r in Hx by lia.
  assert (0 <= x / base < base ^ Z.of_nat n) as Hq.
  { split; [apply Z.div_pos; lia | apply Z.div_lt_upper_bound; lia]. }
  destruct n as [|n]; [cbn in Hq; lia |]. specialize (IH (S n) (x / base) Hq). lia.
Qed.

Definition accumulate (base : Z) (n : Z) (l : list Z) : Z := foldl (fun n d => n * base + d) n l.

Lemma accumulate_rev base n l :
  accumulate base n (rev l) = n * base ^ Z.of_nat (length l) + number base l.
Proof.
  revert n. induction l as [|d l IH]; intros n; cbn [rev length number].
  - cbn. lia.
  - unfold accumulate in *. rewrite foldl_app, IH. cbn. rewrite Nat2Z.inj_succ, Z.pow_succ_r by lia. lia.
Qed.

Lemma accumulate_ge base n l : 1 <= base -> 0 <= n -> Forall (fun d => 0 <= d < base) l -> n <= accumulate base n l.
Proof.
  intros Hb. revert n. induction l as [|d l IH]; intros n Hn Hl; [cbn; lia |].
  inversion Hl as [|?? Hd Hl']; subst. unfold accumulate in *. cbn [foldl].
  specialize (IH (n * base + d) ltac:(nia) Hl'). nia.
Qed.

Lemma i32_sub_l a b : i32 (i32 a - b) = i32 (a - b).
Proof.
  unfold i32. replace ((a + 2 ^ 31) mod 2 ^ 32 - 2 ^ 31 - b + 2 ^ 31) with ((a + 2 ^ 31) mod 2 ^ 32 - b) by lia.
  rewrite Zminus_mod_idemp_l. do 2 f_equal. lia.
Qed.

(** The characters of decimal digits, in both digit tables. *)
Lemma decimal_char ds d : ds = kdigits \/ ds = udigits -> 0 <= d < 10 -> nth (Z.to_nat d) ds 0 = c_0 + d.
Proof.
  intros Hds Hd. assert (d = 0 \/ d = 1 \/ d = 2 \/ d = 3 \/ d = 4 \/ d = 5 \/ d = 6 \/ d = 7 \/ d = 8 \/ d = 9) as Hc by lia.
  destruct Hds as [-> | ->]; repeat (destruct Hc as [->|Hc]; [reflexivity |]); by subst.
Qed.

Lemma decimal_digits ds x :
  ds = kdigits \/ ds = udigits -> 0 <= x < 2 ^ 32 ->
  rev (digit_loop 32 ds x 10) = Z.add c_0 <$> rev (digits_of 32 x 10).
Proof.
  intros Hds Hx. rewrite digit_loop_digits, <- map_rev. apply map_ext_in. intros d Hd.
  apply decimal_char; [done |]. pose proof (digits_of_range 32 x 10 ltac:(lia)) as H.
  rewrite List.Forall_forall in H. apply H, in_rev, Hd.
Qed.

(** ** An example *)

(** The smallest [int] and a negative hexadecimal number. *)
Example printf_text : printf (Some (bytes "%d %s %x%%")) [VInt (-2147483648); VStr (Some (bytes "sh")); VInt (-1)]
  = PDone (bytes "-2147483648 sh -1%").
Proof. reflexivity. Qed.
