(* ===== verification/Console.v ===== *)
(** * Console: [kernel/uart.c] and [kernel/console.c]

    The transmit ring of the UART driver and the input ring of the console with its line
    discipline.  The UART is outside the source: [lsr k] and [rhr k] are the answers to the
    [k]-th read of its line status and receive registers.  What is stored to the transmit
    register is recorded in [sent].  Functions that sleep end in a result that says where
    ([TxFull], [CSleep], [WSleep]) and are continued from there; wakeups are recorded in [cwakes].

    The input ring is proved to be a queue of committed bytes followed by the line being
    edited, and the transmit ring a queue between [uartputc] and the device. *)

From stdpp Require Import base list sets strings.
From Stdlib Require Import ZArith Lia.
From S2P Require Import Prelude Ring Riscv Mem Kalloc Vm PageTable Pipe.

(** ** Registers and constants *)

Definition RHR : Z := 0.
Definition THR : Z := 0.
Definition IER : Z := 1.
Definition IER_RX_ENABLE : Z := 1.
Definition IER_TX_ENABLE : Z := 2.
Definition FCR : Z := 2.
Definition FCR_FIFO_ENABLE : Z := 1.
Definition FCR_FIFO_CLEAR : Z := 6.
Definition LCR : Z := 3.
Definition LCR_EIGHT_BITS : Z := 3.
Definition LCR_BAUD_LATCH : Z := 128.
Definition LSR_RX_READY : Z := 1.
Definition LSR_TX_IDLE : Z := 32.

Definition UART_TX_BUF_SIZE : Z := 32.
Definition INPUT_BUF_SIZE : Z := 128.
Definition BACKSPACE : Z := 0x100.

(** [C('D')] and the other control characters of [consoleintr]. *)
Definition ctrl_D : Z := 4.
Definition ctrl_H : Z := 8.
Definition ctrl_P : Z := 16.
Definition ctrl_U : Z := 21.
Definition DEL : Z := 0x7f.
Definition NL : Z := 10.
Definition CR : Z := 13.

(** ** State *)

(** The channels [&uart_tx_r] and [&cons.r]. *)
Inductive cchan : Type := ChTx | ChCons.

Record con : Type := mkcon {
  tx_buf : list Z;
  tx_w : Z;
  tx_r : Z;
  sent : list Z;
  nlsr : nat;
  nrhr : nat;
  panicked : bool;
  cbuf : list Z;
  cr : Z;
  cw : Z;
  ce : Z;
  cwakes : list cchan;
}.

Definition set_tx (b : list Z) (w r : Z) (s : con) : con :=
  mkcon b w r (sent s) (nlsr s) (nrhr s) (panicked s) (cbuf s) (cr s) (cw s) (ce s) (cwakes s).
Definition set_cons (b : list Z) (r w e : Z) (s : con) : con :=
  mkcon (tx_buf s) (tx_w s) (tx_r s) (sent s) (nlsr s) (nrhr s) (panicked s) b r w e (cwakes s).
Definition write_thr (c : Z) (s : con) : con :=
  mkcon (tx_buf s) (tx_w s) (tx_r s) (sent s ++ [u8 c]) (nlsr s) (nrhr s) (panicked s) (cbuf s) (cr s) (cw s) (ce s) (cwakes s).
Definition count_lsr (s : con) : con :=
  mkcon (tx_buf s) (tx_w s) (tx_r s) (sent s) (S (nlsr s)) (nrhr s) (panicked s) (cbuf s) (cr s) (cw s) (ce s) (cwakes s).
Definition count_rhr (s : con) : con :=
  mkcon (tx_buf s) (tx_w s) (tx_r s) (sent s) (nlsr s) (S (nrhr s)) (panicked s) (cbuf s) (cr s) (cw s) (ce s) (cwakes s).
Definition cwakeup (c : cchan) (s : con) : con :=
  mkcon (tx_buf s) (tx_w s) (tx_r s) (sent s) (nlsr s) (nrhr s) (panicked s) (cbuf s) (cr s) (cw s) (ce s) (cwakes s ++ [c]).

(** ** Code: [uart.c] *)

(** The register writes of [uartinit], in order. *)
Definition uartinit : list (Z * Z) :=
  [(IER, 0x00); (LCR, LCR_BAUD_LATCH); (0, 0x03); (1, 0x00); (LCR, LCR_EIGHT_BITS);
   (FCR, Z.lor FCR_FIFO_ENABLE FCR_FIFO_CLEAR); (IER, Z.lor IER_TX_ENABLE IER_RX_ENABLE)].

Section Code.

(** The device, and the number of reads after which a spinning driver is given up. *)
Context (lsr rhr : nat -> Z) (patience : nat).

Definition read_lsr : M con Z :=
  let! k := gets nlsr in
  do! modify count_lsr in
  ret (lsr k).

Fixpoint uartstart_loop (fuel : nat) : M con unit :=
  let! w := gets tx_w in
  let! r := gets tx_r in
  if w =? r then ret tt else
  match fuel with
  | O => diverge
  | S f =>
      let! l := read_lsr in
      if negb (has l LSR_TX_IDLE) then ret tt else
      let! c := gets (fun s => nth (Z.to_nat (r mod UART_TX_BUF_SIZE)) (tx_buf s) 0) in
      do! modify (fun s => set_tx (tx_buf s) (tx_w s) (u64 (r + 1)) s) in
      do! modify (cwakeup ChTx) in
      do! modify (write_thr c) in
      uartstart_loop f
  end.

(** As many rounds as there are characters in the ring. *)
Definition uartstart : M con unit :=
  let! w := gets tx_w in
  let! r := gets tx_r in
  uartstart_loop (Z.to_nat (u64 (w - r))).

Inductive txout : Type := TxDone | TxFull.

(** [uartputc] until it returns or sleeps on [&uart_tx_r]; it starts over after the sleep. *)
Definition uartputc (c : Z) : M con txout :=
  let! p := gets panicked in
  if (p : bool) then diverge else
  let! w := gets tx_w in
  let! r := gets tx_r in
  if w =? u64 (r + UART_TX_BUF_SIZE) then ret TxFull else
  do! modify (fun s => set_tx (<[Z.to_nat (w mod UART_TX_BUF_SIZE) := u8 c]> (tx_buf s)) (u64 (w + 1)) (tx_r s) s) in
  do! uartstart in
  ret TxDone.

Fixpoint spin_idle (fuel : nat) : M con unit :=
  match fuel with
  | O => diverge
  | S f =>
      let! l := read_lsr in
      if has l LSR_TX_IDLE then ret tt else spin_idle f
  end.

Definition uartputc_sync (c : Z) : M con unit :=
  let! p := gets panicked in
  if (p : bool) then diverge else
  do! spin_idle patience in
  modify (write_thr c).

Definition uartgetc : M con Z :=
  let! l := read_lsr in
  if has l 0x01 then
    let! k := gets nrhr in
    do! modify count_rhr in
    ret (u8 (rhr k))
  else ret (-1).

(** ** Code: [console.c] *)

Definition consputc (c : Z) : M con unit :=
  if c =? BACKSPACE then
    do! uartputc_sync 8 in
    do! uartputc_sync 32 in
    uartputc_sync 8
  else uartputc_sync c.

Fixpoint consputs (l : list Z) : M con unit :=
  match l with
  | [] => ret tt
  | c :: l' => do! consputc c in consputs l'
  end.

(** [while(cons.e != cons.w && cons.buf[(cons.e-1) % INPUT_BUF_SIZE] != '\n')] *)
Fixpoint kill_line (fuel : nat) : M con unit :=
  let! s := gets (fun s => s) in
  if (ce s =? cw s) || (nth (Z.to_nat (u32 (ce s - 1) mod INPUT_BUF_SIZE)) (cbuf s) 0 =? NL) then ret tt else
  match fuel with
  | O => diverge
  | S f =>
      do! modify (fun s => set_cons (cbuf s) (cr s) (cw s) (u32 (ce s - 1)) s) in
      do! consputc BACKSPACE in
      kill_line f
  end.

(** [consoleintr]; [dump] is what [procdump] prints. *)
Definition consoleintr (dump : list Z) (c : Z) : M con unit :=
  if c =? ctrl_P then consputs dump
  else if c =? ctrl_U then
    let! n := gets (fun s => u32 (ce s - cw s)) in
    kill_line (Z.to_nat n)
  else if (c =? ctrl_H) || (c =? DEL) then
    let! s := gets (fun s => s) in
    if negb (ce s =? cw s) then
      do! modify (fun s => set_cons (cbuf s) (cr s) (cw s) (u32 (ce s - 1)) s) in
      consputc BACKSPACE
    else ret tt
  else
    let! s := gets (fun s => s) in
    if negb (c =? 0) && (u32 (ce s - cr s) <? INPUT_BUF_SIZE) then
      let c := if c =? CR then NL else c in
      do! consputc c in
      do! modify (fun s => set_cons (<[Z.to_nat (ce s mod INPUT_BUF_SIZE) := u8 c]> (cbuf s)) (cr s) (cw s) (u32 (ce s + 1)) s) in
      let! full := gets (fun s => u32 (ce s - cr s) =? INPUT_BUF_SIZE) in
      if (c =? NL) || (c =? ctrl_D) || full then
        do! modify (fun s => set_cons (cbuf s) (cr s) (ce s) (ce s) s) in
        modify (cwakeup ChCons)
      else ret tt
    else ret tt.

(** The input loop of [uartintr]; at most [fuel] characters arrive while it runs. *)
Fixpoint uartintr_loop (fuel : nat) (dump : list Z) : M con unit :=
  match fuel with
  | O => diverge
  | S f =>
      let! c := uartgetc in
      if c =? -1 then ret tt else
      do! consoleintr dump c in
      uartintr_loop f dump
  end.

Definition uartintr (fuel : nat) (dump : list Z) : M con unit :=
  do! uartintr_loop fuel dump in
  uartstart.

(** *** Reads and writes of a process *)

Definition onc {A} (m : M con A) : M (con * vm) A := fun s =>
  match m s.1 with Ok (a, c) => Ok (a, (c, s.2)) | Panic msg => Panic msg | Diverge => Diverge end.
Definition onv {A} (m : M vm A) : M (con * vm) A := fun s =>
  match m s.2 with Ok (a, v) => Ok (a, (s.1, v)) | Panic msg => Panic msg | Diverge => Diverge end.

Section Process.
Context `{I : Image}.

(** The page table of the calling process, and whether it is killed. *)
Context (pt : Z) (killed : bool).

(** [either_copyout] and [either_copyin] of one byte. *)
Definition put1 (user : bool) (dst b : Z) : M vm Z :=
  if user then copyout pt dst [b] else do! modify (set_mem (fun m => upd m dst (u8 b))) in ret 0.
Definition get1 (user : bool) (src : Z) : M vm (Z * list Z) :=
  if user then copyin pt src 1 else let! b := gets (fun s => mem_of s src) in ret (0, [b]).

Inductive cresult : Type :=
  | CReturn (v : Z)
  | CSleep (dst n : Z).

Fixpoint consoleread_loop (fuel : nat) (user : bool) (dst n target : Z) : M (con * vm) cresult :=
  if negb (0 <? n) then ret (CReturn (i32 (target - n))) else
  match fuel with
  | O => diverge
  | S f =>
      let! s := gets fst in
      if cr s =? cw s then
        if killed then ret (CReturn (-1)) else ret (CSleep dst n)
      else
        let c := nth (Z.to_nat (cr s mod INPUT_BUF_SIZE)) (cbuf s) 0 in
        do! onc (modify (fun s => set_cons (cbuf s) (u32 (cr s + 1)) (cw s) (ce s) s)) in
        if c =? ctrl_D then
          do! (if u32 n <? target
               then onc (modify (fun s => set_cons (cbuf s) (u32 (cr s - 1)) (cw s) (ce s) s)) else ret tt) in
          ret (CReturn (i32 (target - n)))
        else
          let! r := onv (put1 user dst c) in
          if r =? -1 then ret (CReturn (i32 (target - n))) else
          if c =? NL then ret (CReturn (i32 (target - (n - 1)))) else
          consoleread_loop f user (u64 (dst + 1)) (n - 1) target
  end.

Definition consoleread (user : bool) (dst n : Z) : M (con * vm) cresult :=
  consoleread_loop (Z.to_nat n) user dst n (u32 n).

Inductive wresult : Type :=
  | WReturn (v : Z)
  | WSleep (i c : Z).

(** [consolewrite] from index [i]; it may sleep in [uartputc] with character [c] in hand. *)
Fixpoint consolewrite_loop (fuel : nat) (user : bool) (src n i : Z) : M (con * vm) wresult :=
  if negb (i <? n) then ret (WReturn i) else
  match fuel with
  | O => diverge
  | S f =>
      let! r := onv (get1 user (u64 (src + i))) in
      let '(st, l) := r in
      if st =? -1 then ret (WReturn i) else
      let! t := onc (uartputc (hd 0 l)) in
      match t with
      | TxFull => ret (WSleep i (hd 0 l))
      | TxDone => consolewrite_loop f user src n (i + 1)
      end
  end.

Definition consolewrite (user : bool) (src n : Z) : M (con * vm) wresult :=
  consolewrite_loop (Z.to_nat n) user src n 0.

(** The continuation after the sleep in [uartputc]. *)
Definition consolewrite_resume (user : bool) (src n i c : Z) : M (con * vm) wresult :=
  let! t := onc (uartputc c) in
  match t with
  | TxFull => ret (WSleep i c)
  | TxDone => consolewrite_loop (Z.to_nat (n - (i + 1))) user src n (i + 1)
  end.

End Process.
End Code.

(** ** The line discipline *)

#[export] Instance cons_ring : RingSize INPUT_BUF_SIZE (2 ^ 32).
Proof. split; [done | done |]. by exists (2 ^ 25). Qed.

#[export] Instance tx_ring : RingSize UART_TX_BUF_SIZE (2 ^ 64).
Proof. split; [done | done |]. by exists (2 ^ 59). Qed.

(** The input ring holds the committed bytes [q], then the line [l] being edited. *)
Record disc (s : con) (q l : list Z) : Prop := {
  d_q : ringq INPUT_BUF_SIZE (2 ^ 32) (cbuf s) (cr s) (cw s) q;
  d_e : ringq INPUT_BUF_SIZE (2 ^ 32) (cbuf s) (cr s) (ce s) (q ++ l);
  d_nl : NL ∉ l;
}.

(** What a key does to committed input and edited line. *)
Definition key (c : Z) (q l : list Z) : list Z * list Z :=
  if c =? ctrl_P then (q, l)
  else if c =? ctrl_U then (q, [])
  else if (c =? ctrl_H) || (c =? DEL) then (q, removelast l)
  else if negb (c =? 0) && (Z.of_nat (length (q ++ l)) <? INPUT_BUF_SIZE) then
    let c := if c =? CR then NL else c in
    if (c =? NL) || (c =? ctrl_D) || (Z.of_nat (length (q ++ l)) + 1 =? INPUT_BUF_SIZE)
    then (q ++ l ++ [c], []) else (q, l ++ [c])
  else (q, l).

(** What appears on the screen for a character, and for a key. *)
Definition glyph (c : Z) : list Z := if c =? BACKSPACE then [8; 32; 8] else [u8 c].

Definition echo (dump : list Z) (c : Z) (q l : list Z) : list Z :=
  if c =? ctrl_P then mjoin (glyph <$> dump)
  else if c =? ctrl_U then mjoin (replicate (length l) [8; 32; 8])
  else if (c =? ctrl_H) || (c =? DEL) then match l with [] => [] | _ => [8; 32; 8] end
  else if negb (c =? 0) && (Z.of_nat (length (q ++ l)) <? INPUT_BUF_SIZE) then [if c =? CR then NL else c]
  else [].

(** The line [consoleread] takes from committed input: at most [n] bytes, up to a newline; [some] says
    that bytes have been delivered before. *)
Inductive stop : Type := SFull | SEmpty | SEof | SLine.

Fixpoint take_line (n : nat) (some : bool) (q : list Z) : list Z * list Z * stop :=
  match n with
  | O => ([], q, SFull)
  | S n' =>
      match q with
      | [] => ([], [], SEmpty)
      | c :: q' =>
          if c =? ctrl_D then ([], if some then q else q', SEof)
          else if c =? NL then ([c], q', SLine)
          else let '(d, r, st) := take_line n' true q' in (c :: d, r, st)
      end
  end.

(** ** Lemmas *)

(** The state after characters reached the screen. *)
Definition emitted (s : con) (l : list Z) (n : nat) : con :=
  mkcon (tx_buf s) (tx_w s) (tx_r s) (sent s ++ l) n (nrhr s) (panicked s) (cbuf s) (cr s) (cw s) (ce s) (cwakes s).

Lemma emitted_app s l n l' n' : emitted (emitted s l n) l' n' = emitted s (l ++ l') n'.
Proof. unfold emitted. cbn. by rewrite (assoc_L (++)). Qed.

Lemma disc_emitted s q l out n : disc s q l -> disc (emitted s out n) q l.
Proof. intros []. by split. Qed.

(** The edited line in the ring. *)
Lemma disc_line s q l :
  disc s q l -> ringq INPUT_BUF_SIZE (2 ^ 32) (cbuf s) (cw s) (ce s) l.
Proof. intros []. destruct (rq_split _ _ _ _ _ _ _ d_e0) as [_ H]. by rewrite (rq_w _ _ _ _ _ _ d_q0). Qed.

Lemma disc_empty s q l : disc s q l -> (ce s =? cw s) = bool_decide (l = []).
Proof. intros H. apply disc_line in H. exact (rq_empty _ _ _ _ _ _ H). Qed.

(** Erasing the last character of the line. *)
Lemma disc_erase s q l c :
  disc s q (l ++ [c]) -> disc (set_cons (cbuf s) (cr s) (cw s) (u32 (ce s - 1)) s) q l.
Proof.
  intros []. split; [done | | set_solver]. rewrite (assoc_L (++)) in d_e0.
  exact (rq_unpush _ _ _ _ _ _ _ d_e0).
Qed.

Lemma disc_last s q l c :
  disc s q (l ++ [c]) -> nth (Z.to_nat (u32 (ce s - 1) mod INPUT_BUF_SIZE)) (cbuf s) 0 = c.
Proof. intros H. apply disc_line in H. apply nth_lookup_Some. exact (rq_last _ _ _ _ _ _ _ H). Qed.

Section Theory.
Context (lsr : nat -> Z) (patience : nat).

(** The device becomes ready for a character again and again. *)
Context (ready : forall k, exists j, (j < patience)%nat /\ has (lsr (k + j)) LSR_TX_IDLE = true).

Lemma spin_idle_ends fuel s :
  (exists j, (j < fuel)%nat /\ has (lsr (nlsr s + j)) LSR_TX_IDLE = true) ->
  exists n, spin_idle lsr fuel s = Ok (tt, emitted s [] n).
Proof.
  revert s. induction fuel as [|f IH]; intros s (j & Hj & Hi); [lia |]. cbn [spin_idle].
  unfold read_lsr. rewrite !bind_assoc, bind_gets, bind_assoc, bind_modify, bind_ret.
  destruct (has (lsr (nlsr s)) LSR_TX_IDLE) eqn:E.
  - exists (S (nlsr s)). unfold emitted. by rewrite app_nil_r.
  - destruct j as [|j]; [rewrite Nat.add_0_r in Hi; congruence |].
    destruct (IH (count_lsr s)) as [n Hn]; [| by exists n].
    exists j. split; [lia |]. cbn. by rewrite Nat.add_succ_r in Hi.
Qed.

Lemma uartputc_sync_ok c s :
  panicked s = false -> exists n, uartputc_sync lsr patience c s = Ok (tt, emitted s [u8 c] n).
Proof.
  intros Hp. unfold uartputc_sync. rewrite bind_gets, Hp.
  destruct (spin_idle_ends patience s (ready _)) as [n Hn]. mrun with Hn. exists n.
  unfold modify, emitted, write_thr. cbn. by rewrite app_nil_r.
Qed.

Lemma consputc_ok c s :
  panicked s = false -> exists n, consputc lsr patience c s = Ok (tt, emitted s (glyph c) n).
Proof.
  intros Hp. unfold consputc, glyph. destruct (c =? BACKSPACE); [| by apply uartputc_sync_ok].
  destruct (uartputc_sync_ok 8 s Hp) as [n1 H1]. mrun with H1.
  destruct (uartputc_sync_ok 32 (emitted s [u8 8] n1) Hp) as [n2 H2]. mrun with H2.
  destruct (uartputc_sync_ok 8 (emitted (emitted s [u8 8] n1) [u8 32] n2) Hp) as [n3 H3].
  exists n3. rewrite H3, !emitted_app. done.
Qed.

Lemma consputs_ok l s :
  panicked s = false -> exists n, consputs lsr patience l s = Ok (tt, emitted s (mjoin (glyph <$> l)) n).
Proof.
  revert s. induction l as [|c l IH]; intros s Hp; cbn [consputs].
  - exists (nlsr s). unfold ret, emitted. cbn. rewrite app_nil_r. by destruct s.
  - destruct (consputc_ok c s Hp) as [n Hn]. mrun with Hn. destruct (IH (emitted s (glyph c) n) Hp) as [n' Hn'].
    exists n'. rewrite Hn', emitted_app. done.
Qed.

(** Control-U removes exactly the edited line. *)
Lemma kill_line_ok l s q :
  disc s q l -> panicked s = false ->
  exists n s', kill_line lsr patience (length l) s = Ok (tt, emitted s' (mjoin (replicate (length l) [8; 32; 8])) n) /\
    s' = set_cons (cbuf s) (cr s) (cw s) (cw s) s /\ disc s' q [].
Proof.
  revert s. induction l as [|c l IH] using rev_ind; intros s Hd Hp.
  - exists (nlsr s), s. cbn [length kill_line]. rewrite bind_gets, (disc_empty s q []) by done. cbn [bool_decide].
    pose proof (disc_empty s q [] Hd) as E. apply Z.eqb_eq in E. rewrite bool_decide_eq_true_2 by done. cbn [orb].
    split; [unfold ret, emitted; cbn; rewrite app_nil_r; by destruct s |]. split; [destruct s; cbn in *; by rewrite <- E | done].
  - rewrite length_app, Nat.add_comm. cbn [length Nat.add kill_line]. rewrite bind_gets.
    rewrite (disc_empty s q (l ++ [c])), bool_decide_eq_false_2 by (done || by destruct l). cbn [orb].
    rewrite (disc_last s q l c) by done. destruct (Z.eqb_spec c NL) as [->|Hc].
    { destruct Hd as [_ _ Hnl]. exfalso. apply Hnl. set_solver. }
    cbv iota. rewrite bind_modify. set (s1 := set_cons _ _ _ _ s).
    destruct (consputc_ok BACKSPACE s1 Hp) as [n1 H1]. mrun with H1.
    destruct (IH (emitted s1 (glyph BACKSPACE) n1)) as (n & s' & Hrun & Hs' & Hd').
    + apply disc_emitted. by apply (disc_erase s q l c).
    + done.
    + exists n, (set_cons (cbuf s) (cr s) (cw s) (cw s) s). rewrite Hrun. split; [| split; [done |]].
      * subst s'. cbn [replicate mjoin list_join]. unfold emitted. cbn. by rewrite <- (assoc_L (++)).
      * subst s'. destruct Hd' as [X Y Z']. by split.
Qed.

Lemma disc_count s q l : disc s q l -> u32 (ce s - cr s) = Z.of_nat (length (q ++ l)).
Proof. intros []. exact (rq_count _ _ _ _ _ _ d_e0). Qed.

(** Storing a character at the end of the line. *)
Lemma disc_type s q l c :
  disc s q l -> 0 <= c < 256 -> Z.of_nat (length (q ++ l)) < INPUT_BUF_SIZE ->
  let s' := set_cons (<[Z.to_nat (ce s mod INPUT_BUF_SIZE) := u8 c]> (cbuf s)) (cr s) (cw s) (u32 (ce s + 1)) s in
  ringq INPUT_BUF_SIZE (2 ^ 32) (cbuf s') (cr s') (cw s') q /\
  ringq INPUT_BUF_SIZE (2 ^ 32) (cbuf s') (cr s') (ce s') (q ++ l ++ [c]).
Proof.
  intros [] Hc Hlt. cbn. rewrite (u8_small c) by done.
  pose proof (rq_push _ _ _ _ _ _ c d_e0 Hlt) as H. rewrite <- (assoc_L (++)) in H. split; [| done].
  destruct (rq_split _ _ _ _ _ _ _ H) as [H1 _]. by rewrite (rq_w _ _ _ _ _ _ d_q0).
Qed.

Lemma removelast_snoc {A} (l : list A) x : removelast (l ++ [x]) = l.
Proof. rewrite removelast_app by done. apply app_nil_r. Qed.

(** C25: the console input is a line editor: whatever key arrives, [consoleintr] returns with the input
    ring holding the committed bytes and the edited line that the key gives ([key]: append,
    erase a character, erase the line, commit on newline, control-D or a full ring), the
    screen shows the corresponding echo, and the readers are woken exactly when
    bytes are committed; also when the 32-bit indexes wrap around. *)
Theorem console_line_editor (dump : list Z) (c : Z) (s : con) (q l : list Z)
    (Hd : disc s q l) (Hp : panicked s = false) (Hc : 0 <= c < 256) :
  exists s', consoleintr lsr patience dump c s = Ok (tt, s') /\
    disc s' (key c q l).1 (key c q l).2 /\ sent s' = sent s ++ echo dump c q l /\
    cwakes s' = cwakes s ++ (if bool_decide ((key c q l).1 = q) then [] else [ChCons]) /\
    (tx_buf s', tx_w s', tx_r s') = (tx_buf s, tx_w s, tx_r s).
Proof.
  unfold consoleintr, key, echo. destruct (c =? ctrl_P).
  { destruct (consputs_ok dump s Hp) as [n Hn]. eexists. split; [exact Hn |]. cbn [fst snd].
    rewrite bool_decide_eq_true_2 by done. split_and!; [by apply disc_emitted | done | by rewrite app_nil_r | done]. }
  destruct (c =? ctrl_U).
  { rewrite bind_gets. pose proof (rq_count _ _ _ _ _ _ (disc_line s q l Hd)) as Hn. unfold u32. rewrite Hn, Nat2Z.id.
    destruct (kill_line_ok l s q Hd Hp) as (n & s' & Hrun & -> & Hd'). eexists. split; [exact Hrun |]. cbn [fst snd].
    rewrite bool_decide_eq_true_2 by done. split_and!; [by apply disc_emitted | done | by rewrite app_nil_r | done]. }
  destruct ((c =? ctrl_H) || (c =? DEL)).
  { rewrite bind_gets, (disc_empty s q l Hd). cbn [fst snd]. destruct l as [|x l _] using rev_ind.
    - rewrite bool_decide_eq_true_2 by done. cbn [negb]. exists s. split; [done |]. rewrite bool_decide_eq_true_2 by done.
      rewrite !app_nil_r. done.
    - rewrite bool_decide_eq_false_2 by (by destruct l). cbn [negb]. rewrite bind_modify, removelast_snoc.
      set (s1 := set_cons _ _ _ _ s). destruct (consputc_ok BACKSPACE s1 Hp) as [n Hn]. eexists. split; [exact Hn |].
      rewrite bool_decide_eq_true_2 by done. split_and!; [| by destruct l | by rewrite app_nil_r | done].
      apply disc_emitted. by apply (disc_erase s q l x). }
  rewrite bind_gets, (disc_count s q l Hd).
  destruct (negb (c =? 0) && (Z.of_nat (length (q ++ l)) <? INPUT_BUF_SIZE)) eqn:Hroom; cbn [fst snd].
  2: { exists s. split; [done |]. rewrite bool_decide_eq_true_2 by done. rewrite !app_nil_r. done. }
  apply andb_true_iff in Hroom as [_ Hlt%Z.ltb_lt]. set (c' := if c =? CR then NL else c).
  assert (0 <= c' < 256) as Hc' by (unfold c', NL; destruct (c =? CR); lia).
  destruct (consputc_ok c' s Hp) as [n Hn]. mrun with Hn. rewrite bind_modify.
  assert (glyph c' = [c']) as Hg.
  { unfold glyph, BACKSPACE. destruct (Z.eqb_spec c' 0x100); [lia |]. by rewrite u8_small. }
  set (s1 := emitted s (glyph c') n) in *. assert (disc s1 q l) as Hd1 by by apply disc_emitted.
  destruct (disc_type s1 q l c' Hd1 Hc' Hlt) as [Hq He]. rewrite bind_gets.
  set (s2 := set_cons _ _ _ _ s1) in *. unfold u32. rewrite (rq_count _ _ _ _ _ _ He).
  assert (Z.of_nat (length (q ++ l ++ [c'])) = Z.of_nat (length (q ++ l)) + 1) as Hlen
    by (rewrite !length_app; cbn [length]; lia).
  rewrite Hlen. destruct ((c' =? NL) || (c' =? ctrl_D) || (Z.of_nat (length (q ++ l)) + 1 =? INPUT_BUF_SIZE)) eqn:Hcommit; cbn [fst snd].
  - eexists. split; [rewrite bind_modify; reflexivity |]. rewrite bool_decide_eq_false_2.
    2: { intros E%(f_equal length). rewrite !length_app in E. cbn in E. lia. }
    split_and!; [| by rewrite <- Hg | done | done]. split; cbn [cwakeup set_cons cbuf cr cw ce]; [done | by rewrite app_nil_r | set_solver].
  - exists s2. split; [done |]. rewrite bool_decide_eq_true_2 by done.
    split_and!; [| by rewrite <- Hg | by rewrite app_nil_r | done]. split; [done | done |].
    apply orb_false_iff in Hcommit as [[Hnl _]%orb_false_iff _]. apply Z.eqb_neq in Hnl. destruct Hd as [_ _ Hnl'].
    rewrite elem_of_app, list_elem_of_singleton. intros [?|?]; [done | congruence].
Qed.

End Theory.

Section Read.
Context `{I : Image} (pt : Z) (killed : bool).

(** One byte is copied, refused, or the copy stops the machine. *)
Lemma put1_cases user dst b (c : con) (v : vm) :
  (exists r v', onv (put1 pt user dst b) (c, v) = Ok (r, (c, v'))) \/
  (user = true /\ forall r v', copyout pt dst [b] v <> Ok (r, v')).
Proof.
  unfold onv, put1. destruct user; cbn [snd fst]; [| left; by eexists _, _].
  destruct (copyout pt dst [b] v) as [[r v']| |]; [left; by eexists _, _ | right; done..].
Qed.

(** Consuming the first committed byte. *)
Lemma disc_pop s c q l :
  disc s (c :: q) l -> disc (set_cons (cbuf s) (u32 (cr s + 1)) (cw s) (ce s) s) q l.
Proof. intros [Hq He Hn]. split; [exact (rq_pop _ _ _ _ _ _ _ Hq) | exact (rq_pop _ _ _ _ _ _ _ He) | done]. Qed.

Lemma disc_unpop s c q l :
  disc s (c :: q) l ->
  let s' := set_cons (cbuf s) (u32 (cr s + 1)) (cw s) (ce s) s in
  set_cons (cbuf s') (u32 (cr s' - 1)) (cw s') (ce s') s' = s.
Proof.
  intros [Hq _ _]. cbn. unfold u32. rewrite Zminus_mod_idemp_l. replace (cr s + 1 - 1) with (cr s) by lia.
  pose proof (rq_r _ _ _ _ _ _ Hq). rewrite Z.mod_small by lia. by destruct s.
Qed.

(** The outcomes of a read with [n] bytes to go: the line, a byte the process cannot take, or
    a copy that stops the machine. *)
Definition read_outcome (user : bool) (dst n target : Z) (q l : list Z) (o : outcome (cresult * (con * vm))) : Prop :=
  (exists res s' v', o = Ok (res, (s', v')) /\
    let '(d, rest, st) := take_line (Z.to_nat n) (n <? target) q in
    disc s' rest l /\
    match st with
    | SEmpty => res = if killed then CReturn (-1) else CSleep (u64 (dst + Z.of_nat (length d))) (n - Z.of_nat (length d))
    | _ => res = CReturn (target - n + Z.of_nat (length d))
    end) \/
  (exists d c rest s' v', q = d ++ c :: rest /\ user = true /\ disc s' rest l /\
    o = Ok (CReturn (target - n + Z.of_nat (length d)), (s', v'))) \/
  (user = true /\ exists a b v, forall r w, copyout pt a [b] v <> Ok (r, w)).

Lemma consoleread_loop_spec fuel user dst n target s v q l :
  disc s q l -> 0 <= dst < 2 ^ 64 -> 0 <= n <= target -> target < 2 ^ 31 -> (Z.to_nat n <= fuel)%nat ->
  read_outcome user dst n target q l (consoleread_loop pt killed fuel user dst n target (s, v)).
Proof.
  revert dst n s v q. induction fuel as [|f IH]; intros dst n s v q Hd Hdst Hn Ht Hf; cbn [consoleread_loop];
    (destruct (Z.ltb_spec 0 n) as [Hpos|Hz]; cbn [negb]; [try lia |
       left; replace n with 0 by lia; eexists _, s, v; split; [rewrite i32_small by lia; reflexivity |];
       cbn [Z.to_nat take_line]; split; [done | cbn; f_equal; lia]]).
  rewrite bind_gets. cbn [fst]. unfold read_outcome. replace (Z.to_nat n) with (S (Z.to_nat (n - 1))) in * by lia.
  rewrite Z.eqb_sym. rewrite (rq_empty _ _ _ _ _ _ (d_q _ _ _ Hd)). destruct q as [|c q].
  { rewrite bool_decide_eq_true_2 by done. left. destruct killed; eexists _, s, v; (split; [reflexivity |]); cbn [take_line];
      (split; [done |]); [done |]. cbn [length Z.of_nat]. by rewrite Z.add_0_r, Z.sub_0_r, u64_small. }
  rewrite bool_decide_eq_false_2 by done.
  pose proof (rq_head _ _ _ _ _ _ _ (d_q _ _ _ Hd)) as Hh. apply (nth_lookup_Some _ _ 0) in Hh. rewrite Hh. clear Hh.
  set (s1 := set_cons (cbuf s) (u32 (cr s + 1)) (cw s) (ce s) s).
  assert (disc s1 q l) as Hd1 by (by eapply disc_pop).
  change (onc (modify _) (s, v)) with (Ok (tt, (s1, v)) : outcome (unit * (con * vm))).
  rewrite (bind_ok _ _ _ _ _ (eq_refl : onc (modify (fun s => set_cons (cbuf s) (u32 (cr s + 1)) (cw s) (ce s) s)) (s, v) = Ok (tt, (s1, v)))).
  cbn beta iota. destruct (c =? ctrl_D) eqn:Ec.
  { left. rewrite u32_small by lia. destruct (n <? target) eqn:Elt.
    - rewrite (bind_ok _ _ _ _ _ (eq_refl : onc (modify (fun s => set_cons (cbuf s) (u32 (cr s - 1)) (cw s) (ce s) s)) (s1, v)
        = Ok (tt, (set_cons (cbuf s1) (u32 (cr s1 - 1)) (cw s1) (ce s1) s1, v)))).
      eexists _, _, v. split; [rewrite i32_small by lia; reflexivity |]. cbn [take_line]. rewrite Ec.
      split; [| cbn; f_equal; lia]. pose proof (disc_unpop s c q l Hd) as E. cbn zeta in E. fold s1 in E. by rewrite E.
    - rewrite bind_ret. eexists _, s1, v. split; [rewrite i32_small by lia; reflexivity |]. cbn [take_line]. rewrite Ec.
      split; [done | cbn; f_equal; lia]. }
  destruct (put1_cases user dst c s1 v) as [(r & v1 & Hput)|[Hu Hbad]].
  2: { right. right. split; [done |]. by exists dst, c, v. }
  rewrite (bind_ok _ _ _ _ _ Hput). cbn beta iota. destruct (Z.eqb_spec r (-1)) as [->|_].
  { right. left. exists [], c, q, s1, v1. split; [done |]. split.
    - destruct user; [done |]. discriminate Hput.
    - split; [done |]. rewrite i32_small by lia. by replace (target - n + Z.of_nat (length [])) with (target - n) by (cbn; lia). }
  destruct (c =? NL) eqn:Enl.
  { left. eexists _, s1, v1. split; [rewrite i32_small by lia; reflexivity |]. cbn [take_line]. rewrite Ec, Enl.
    split; [done |]. cbn. f_equal. lia. }
  pose proof (IH (u64 (dst + 1)) (n - 1) s1 v1 q Hd1 (u64_range _) ltac:(lia) Ht ltac:(lia)) as Hread.
  unfold read_outcome in Hread. destruct Hread as [(res & s' & v' & -> & H)|[(d & c' & rest & s' & v' & -> & Hu & Hd' & ->)|H]].
  - left. exists res, s', v'. split; [done |]. cbn [take_line]. rewrite Ec, Enl.
    destruct (Z.ltb_spec (n - 1) target); [| lia]. destruct (take_line (Z.to_nat (n - 1)) true q) as [[d rest] st].
    destruct H as [H1 H2]. split; [done |]. cbn [length]. destruct st; rewrite H2; [| destruct killed; [done |] | |].
    2: { f_equal; [| lia]. unfold u64. rewrite Z.add_mod_idemp_l by lia. f_equal. lia. }
    all: f_equal; lia.
  - right. left. exists (c :: d), c', rest, s', v'. split_and!; [done | done | done |]. 
    by replace (target - n + Z.of_nat (length (c :: d))) with (target - (n - 1) + Z.of_nat (length d)) by (cbn [length]; lia).
  - by right; right.
Qed.

(** [consoleread] gives a process at most one line: the bytes delivered are those of [take_line]
    (up to [n], through the first newline, or up to a control-D, which ends the input and stays
    for the next read if something was delivered), the rest stays committed, and
    it sleeps exactly when the committed bytes run out first, keeping its place; a byte the process
    cannot take is lost.  Nothing else stops it but a copy to user memory that stops the
    kernel. *)
Lemma consoleread_line (user : bool) (dst n : Z) (s : con) (v : vm) (q l : list Z)
    (Hd : disc s q l) (Hdst : 0 <= dst < 2 ^ 64) (Hn : 0 <= n < 2 ^ 31) :
  read_outcome user dst n n q l (consoleread pt killed user dst n (s, v)).
Proof. unfold consoleread. rewrite u32_small by lia. apply consoleread_loop_spec; (done || lia). Qed.

End Read.

(** ** The transmit queue *)

Section Transmit.
Context (lsr : nat -> Z).

(** The transmit ring holds the bytes [q] on their way to the device. *)
Definition tx (s : con) (q : list Z) : Prop :=
  ringq UART_TX_BUF_SIZE (2 ^ 64) (tx_buf s) (tx_r s) (tx_w s) q /\ Forall (fun b => 0 <= b < 256) q.

(** What the transmit side leaves alone. *)
Definition input_of (s : con) := (nrhr s, panicked s, cbuf s, cr s, cw s, ce s).

(** [uartstart] moves bytes from the front of the queue to the device, in order. *)
Lemma uartstart_loop_spec fuel s q :
  tx s q -> (length q <= fuel)%nat ->
  exists s' d rest, uartstart_loop lsr fuel s = Ok (tt, s') /\ q = d ++ rest /\ tx s' rest /\
    sent s' = sent s ++ d /\ input_of s' = input_of s.
Proof.
  revert s q. induction fuel as [|f IH]; intros s q Ht Hf; pose proof Ht as [Hr Hb]; cbn [uartstart_loop]; rewrite !bind_gets, (rq_empty _ _ _ _ _ _ Hr).
  { destruct q; [| cbn in Hf; lia]. rewrite bool_decide_eq_true_2 by done. exists s, [], []. rewrite !app_nil_r. done. }
  case_bool_decide as Hq.
  { exists s, [], q. rewrite app_nil_r. done. }
  destruct q as [|c q]; [done |]. unfold read_lsr. rewrite !bind_assoc, bind_gets, bind_assoc, bind_modify, bind_ret.
  destruct (has (lsr (nlsr s)) LSR_TX_IDLE); cbn [negb].
  2: { exists (count_lsr s), [], (c :: q). cbn [app sent count_lsr]. by rewrite app_nil_r. }
  rewrite bind_gets, !bind_modify. cbn [tx_buf count_lsr]. pose proof (rq_head _ _ _ _ _ _ _ Hr) as Hh.
  apply (nth_lookup_Some _ _ 0) in Hh. rewrite Hh. apply Forall_cons in Hb as [Hc Hb'].
  match goal with |- context [uartstart_loop lsr f ?t] => destruct (IH t q) as (s' & d & rest & Hrun & -> & Htx & Hs & Hi) end.
  - split; [exact (rq_pop _ _ _ _ _ _ _ Hr) | done].
  - cbn in Hf. lia.
  - exists s', (c :: d), rest. rewrite Hrun. split_and!; try done. rewrite Hs. cbn. rewrite u8_small by done. by rewrite <- (assoc_L (++)).
Qed.

Lemma uartstart_spec s q :
  tx s q -> exists s' d rest, uartstart lsr s = Ok (tt, s') /\ q = d ++ rest /\ tx s' rest /\
    sent s' = sent s ++ d /\ input_of s' = input_of s.
Proof.
  intros Ht. unfold uartstart. rewrite !bind_gets. apply uartstart_loop_spec; [done |].
  destruct Ht as [Hr _]. unfold u64. rewrite (rq_count _ _ _ _ _ _ Hr). lia.
Qed.

Lemma uartputc_spec c s q :
  tx s q -> panicked s = false ->
  exists r s', uartputc lsr c s = Ok (r, s') /\ input_of s' = input_of s /\
    match r with
    | TxFull => s' = s /\ Z.of_nat (length q) = UART_TX_BUF_SIZE
    | TxDone => exists q', tx s' q' /\ sent s' ++ q' = sent s ++ q ++ [u8 c]
    end.
Proof.
  intros [Hr Hb] Hp. unfold uartputc. rewrite bind_gets, Hp, !bind_gets. unfold u64 at 1.
  rewrite (rq_full _ _ _ _ _ _ Hr). case_bool_decide as Hq; [by eexists _, s |].
  rewrite bind_modify. pose proof (rq_cap _ _ _ _ _ _ Hr).
  match goal with |- context [bind (uartstart lsr) _ ?t] => destruct (uartstart_spec t (q ++ [u8 c])) as (s' & d & rest & Hrun & Hq' & Htx & Hs & Hi) end.
  { split; [apply rq_push; [apply _ | done | lia] |]. apply Forall_app. split; [done |]. constructor; [apply u8_range | done]. }
  mrun with Hrun. eexists _, s'. split; [reflexivity |]. split; [done |]. exists rest. split; [done |].
  rewrite Hs. cbn [sent set_tx]. rewrite <- (assoc_L (++)), <- Hq'. done.
Qed.

Context `{I : Image} (pt : Z).

Lemma get1_cases user src (c : con) (v : vm) :
  exists st l, onv (get1 pt user src) (c, v) = Ok ((st, l), (c, v)) /\ get1 pt user src v = Ok ((st, l), v) /\
    (st = -1 \/ (st = 0 /\ exists b, l = [b])).
Proof.
  unfold onv, get1. destruct user; cbn [fst snd].
  - destruct (copyin_1 pt src v) as (st & l & Hrun & H). rewrite Hrun. by exists st, l.
  - mrun. eexists 0, _. split; [reflexivity |]. split; [reflexivity |]. right. eauto.
Qed.

Lemma consolewrite_loop_spec fuel user src n i s v q :
  tx s q -> panicked s = false -> 0 <= i -> (Z.to_nat (n - i) <= fuel)%nat ->
  exists res s' l q', consolewrite_loop lsr pt fuel user src n i (s, v) = Ok (res, (s', v)) /\
    (forall j x, l !! j = Some x -> get1 pt user (u64 (src + (i + Z.of_nat j))) v = Ok ((0, [x]), v)) /\
    tx s' q' /\ sent s' ++ q' = sent s ++ q ++ (u8 <$> l) /\ input_of s' = input_of s /\
    match res with
    | WReturn k => k = i + Z.of_nat (length l) /\ (k < n -> exists l', get1 pt user (u64 (src + k)) v = Ok ((-1, l'), v))
    | WSleep k c => k = i + Z.of_nat (length l) /\ k < n /\ Z.of_nat (length q') = UART_TX_BUF_SIZE /\
                    get1 pt user (u64 (src + k)) v = Ok ((0, [c]), v)
    end.
Proof.
  revert s q i. induction fuel as [|f IH]; intros s q i Ht Hp Hi Hf; cbn [consolewrite_loop];
    (destruct (Z.ltb_spec i n) as [Hlt|Hge]; cbn [negb]; [try lia |
       eexists _, s, [], q; split; [reflexivity |]; split; [done |]; cbn; rewrite app_nil_r; split_and!; (done || lia)]).
  destruct (get1_cases user (u64 (src + i)) s v) as (st & l & Hrun & Hg & H). rewrite (bind_ok _ _ _ _ _ Hrun). cbn beta iota.
  destruct H as [->|(-> & b & ->)].
  { cbn. eexists _, s, [], q. split; [reflexivity |]. split; [done |]. cbn. rewrite app_nil_r, Z.add_0_r. split_and!; try done. intros _. by exists l. }
  cbn [Z.eqb hd]. destruct (uartputc_spec b s q Ht Hp) as (r & s1 & Hput & Hin & Hr).
  assert (onc (uartputc lsr b) (s, v) = Ok (r, (s1, v))) as Hput' by (unfold onc; cbn [fst]; by rewrite Hput).
  rewrite (bind_ok _ _ _ _ _ Hput'). destruct r.
  - destruct Hr as (q1 & Ht1 & Hs1). assert (panicked s1 = false) as Hp1 by (injection Hin as _ E _ _ _ _; congruence).
    destruct (IH s1 q1 (i + 1) Ht1 Hp1 ltac:(lia) ltac:(lia)) as (res & s' & l & q' & Hrun' & Hl & Ht' & Hs' & Hin' & Hres).
    exists res, s', (b :: l), q'. split; [exact Hrun' |]. split.
    { intros [|j] x Hx; [injection Hx as <-; by rewrite Z.add_0_r |]. specialize (Hl j x Hx). rewrite <- Hl. do 2 f_equal. lia. }
    split; [done |]. split; [rewrite Hs', fmap_cons, (assoc_L (++)), Hs1, <- !(assoc_L (++)); done |]. split; [congruence |].
    cbn [length]. destruct res; naive_solver lia.
  - destruct Hr as [-> Hfull]. eexists _, s, [], q. split; [reflexivity |]. split; [done |]. cbn. rewrite app_nil_r, Z.add_0_r. done.
Qed.

(** A [write] to the console keeps the order of the bytes: [consolewrite] always returns or sleeps, and
    what has been sent followed by what is queued grows by exactly the bytes read from the
    caller, none lost, doubled or reordered; it stops early only at a byte the caller
    cannot provide, and sleeps only when the transmit ring is full, with the next byte in hand. *)
Lemma consolewrite_in_order (user : bool) (src n : Z) (s : con) (v : vm) (q : list Z)
    (Ht : tx s q) (Hp : panicked s = false) :
  exists res s' l q', consolewrite lsr pt user src n (s, v) = Ok (res, (s', v)) /\
    (forall j x, l !! j = Some x -> get1 pt user (u64 (src + Z.of_nat j)) v = Ok ((0, [x]), v)) /\
    tx s' q' /\ sent s' ++ q' = sent s ++ q ++ (u8 <$> l) /\ input_of s' = input_of s /\
    match res with
    | WReturn k => k = Z.of_nat (length l) /\ (k < n -> exists l', get1 pt user (u64 (src + k)) v = Ok ((-1, l'), v))
    | WSleep k c => k = Z.of_nat (length l) /\ k < n /\ Z.of_nat (length q') = UART_TX_BUF_SIZE /\
                    get1 pt user (u64 (src + k)) v = Ok ((0, [c]), v)
    end.
Proof. apply (consolewrite_loop_spec (Z.to_nat n) user src n 0 s v q); (done || lia). Qed.

End Transmit.

(** ** Witnesses *)

(** A console whose indexes are about to wrap around: one committed byte, a line "ab". *)
Definition demo_con : con :=
  mkcon (replicate 32 0) 0 0 [] 0 0 false (<[127%nat := 120]> (<[0%nat := 97]> (<[1%nat := 98]> (replicate 128 0))))
    (2 ^ 32 - 1) 0 2 [].

Lemma demo_disc : disc demo_con [120] [97; 98].
Proof.
  split; [split | split |]; try (cbn; lia); try done; cbn [length app].
  - intros [|j] Hj; [reflexivity | lia].
  - intros [|[|[|j]]] Hj; [reflexivity.. | lia].
  - unfold NL. set_solver.
Qed.

Lemma console_line_editor_witness :
  exists s', consoleintr (fun _ => 0x20) 1%nat [] CR demo_con = Ok (tt, s') /\ disc s' [120; 97; 98; 10] [] /\ sent s' = [10].
Proof.
  destruct (console_line_editor (fun _ => 0x20) 1%nat ltac:(by exists 0%nat; split; [lia |]) [] CR demo_con [120] [97; 98] demo_disc eq_refl
    ltac:(unfold CR; lia)) as (s' & H1 & H2 & H3 & _).
  by exists s'.
Defined.

