(* ===== verification/Uprint.v ===== *)
(** * Uprint: formatted output and numbers in user programs

    [printint], [printptr] and [vprintf] of [user/printf.c] and [atoi] of [user/ulib.c].  The conventions
    are those of the kernel's [printf], in [Print].  Shown: numbers that are printed are read back,
    and the two libraries print alike. *)

From stdpp Require Import base list strings.
From Stdlib Require Import ZArith Lia.
From S2P Require Import Prelude Riscv Print.

(** ** Code *)

Definition printint (xx base : Z) (sgn : bool) : list Z := rev (printint_buf udigits (i32 xx) base sgn).

Definition printptr (x : Z) : list Z := c_0 :: c_x :: hex_loop 16 udigits (u64 x).

(** The loop of [vprintf]; [st] is its variable [state], true for '%'. *)
Fixpoint vprintf_loop (st : bool) (fmt : list Z) (ap : list varg) : option (list Z) :=
  match fmt with
  | [] => Some []
  | c :: rest =>
      if c =? 0 then Some [] else
      if negb st then
        if c =? c_pct then vprintf_loop true rest ap else (cons c) <$> vprintf_loop false rest ap
      else
        if c =? c_d then
          '(v, ap') ← va_num ap; app (printint v 10 true) <$> vprintf_loop false rest ap'
        else if c =? c_l then
          '(v, ap') ← va_num ap; app (printint v 10 false) <$> vprintf_loop false rest ap'
        else if c =? c_x then
          '(v, ap') ← va_num ap; app (printint v 16 false) <$> vprintf_loop false rest ap'
        else if c =? c_p then
          '(v, ap') ← va_num ap; app (printptr v) <$> vprintf_loop false rest ap'
        else if c =? c_s then
          '(s, ap') ← va_str ap; app s <$> vprintf_loop false rest ap'
        else if c =? c_c then
          '(v, ap') ← va_num ap; (cons (u8 v)) <$> vprintf_loop false rest ap'
        else if c =? c_pct then (cons c) <$> vprintf_loop false rest ap
        else (app [c_pct; c]) <$> vprintf_loop false rest ap
  end.

Definition vprintf (fmt : list Z) (ap : list varg) : option (list Z) := vprintf_loop false fmt ap.

(** [atoi]: the loop from [n] on. *)
Fixpoint atoi_loop (s : list Z) (n : Z) : Z :=
  match s with
  | [] => n
  | c :: rest => if (c_0 <=? c) && (c <=? c_9) then atoi_loop rest (i32 (i32 (n * 10 + c) - c_0)) else n
  end.

Definition atoi (s : list Z) : Z := atoi_loop s 0.

(** ** Lemmas *)

(** [atoi] reads decimal digits, most significant first, as long as the number fits. *)
Lemma atoi_loop_digits l n rest :
  Forall (fun d => 0 <= d < 10) l -> 0 <= n -> accumulate 10 n l < 2 ^ 31 ->
  (forall c, head rest = Some c -> c < c_0 \/ c_9 < c) ->
  atoi_loop ((Z.add c_0 <$> l) ++ rest) n = accumulate 10 n l.
Proof.
  intros Hl Hn Hlt Hrest. revert n Hn Hlt. induction Hl as [|d l Hd Hl IH]; intros n Hn Hlt.
  - cbn. destruct rest as [|c rest]; [done |]. cbn. specialize (Hrest c eq_refl). unfold c_0, c_9 in *.
    destruct (Z.leb_spec 48 c), (Z.leb_spec c 57); cbn; try done; lia.
  - pose proof (accumulate_ge 10 (n * 10 + d) l ltac:(lia) ltac:(lia) Hl) as Hge.
    change (accumulate 10 n (d :: l)) with (accumulate 10 (n * 10 + d) l) in *.
    rewrite fmap_cons. cbn [app atoi_loop]. unfold c_0, c_9 in *.
    destruct (Z.leb_spec 48 (48 + d)), (Z.leb_spec (48 + d) 57); cbn [andb]; try lia.
    rewrite i32_sub_l. replace (n * 10 + (48 + d) - 48) with (n * 10 + d) by lia.
    rewrite i32_small by lia. apply IH; lia.
Qed.

(** Both libraries print the same decimal text. *)
Lemma printint_10 v : printint v 10 true = Print.printint v 10 true.
Proof.
  unfold printint, Print.printint, printint_buf. set (x := u32 _).
  assert (0 <= x < 2 ^ 32) as Hx by apply u32_range. clearbody x.
  destruct (true && _); rewrite ?rev_app_distr, (decimal_digits udigits x (or_intror eq_refl) Hx),
    (decimal_digits kdigits x (or_introl eq_refl) Hx); reflexivity.
Qed.

(** The formats whose conversions mean the same to both [printf]s: no [%x], [%p] (the digits
    differ), [%l], [%c] (unknown to the kernel). *)
Fixpoint shared (fmt : list Z) : bool :=
  match fmt with
  | [] => true
  | c :: rest =>
      if c =? 0 then true else
      if negb (c =? c_pct) then shared rest else
      match rest with
      | [] => true
      | d :: rest' => negb ((d =? c_x) || (d =? c_p) || (d =? c_l) || (d =? c_c)) && shared rest'
      end
  end.

(** ** Properties *)

(** [printint] and [atoi] agree: the decimal text that the kernel's or the user library's
    [printint] produces for an [int] other than the smallest is, after a minus sign if the number
    is negative, read back by [atoi] as its absolute value, whatever follows that is
    not a digit; and the text fits the 16 bytes of the local buffer. *)
Lemma printint_atoi (ds : list Z) (n : Z) (rest : list Z)
    (Hds : ds = kdigits \/ ds = udigits) (Hn : - 2 ^ 31 < n < 2 ^ 31)
    (Hrest : forall c, head rest = Some c -> c < c_0 \/ c_9 < c) :
  exists text, rev (printint_buf ds n 10 true) = (if n <? 0 then [c_minus] else []) ++ text /\
    atoi (text ++ rest) = Z.abs n /\
    (length (printint_buf ds n 10 true) <= 16)%nat.
Proof.
  set (x := Z.abs n). assert (u32 (if n <? 0 then - n else n) = x) as Hx.
  { unfold x. destruct (Z.ltb_spec n 0); rewrite u32_small by lia; lia. }
  assert (0 <= x < 2 ^ 31) as Hr by (unfold x; lia).
  exists (rev (digit_loop 32 ds x 10)). unfold printint_buf. cbn [andb]. rewrite Hx. split_and!.
  - destruct (n <? 0); [by rewrite rev_app_distr | done].
  - rewrite decimal_digits by (done || lia). unfold atoi. rewrite atoi_loop_digits.
    + rewrite accumulate_rev, digits_of_number by (cbn; lia). cbn. lia.
    + apply Forall_rev. by apply digits_of_range.
    + lia.
    + rewrite accumulate_rev, digits_of_number by (cbn; lia). cbn. lia.
    + done.
  - pose proof (digits_of_length 32 10 x 10 ltac:(lia) ltac:(cbn; lia) ltac:(lia)) as Hl.
    destruct (n <? 0); rewrite ?length_app, digit_loop_digits, length_fmap; cbn [length]; lia.
Qed.

(** The two implementations of [printf] agree: on a format that uses only conversions both
    know and print alike, the loop over the format of the kernel and the state machine of the user
    library produce the same text from the same arguments, or both read an argument that is
    not there. *)
Lemma printf_agree (fmt : list Z) (ap : list varg) (Hf : shared fmt = true) :
  vprintf fmt ap = printf_loop fmt ap.
Proof.
  unfold vprintf. remember (length fmt) as n eqn:Hn. revert fmt ap Hf Hn.
  induction n as [n IH] using lt_wf_ind. intros [|c rest] ap Hf Hn; [done |].
  cbn [vprintf_loop printf_loop shared negb] in *. destruct (c =? 0); [done |].
  destruct (c =? c_pct); cbn [negb] in *.
  2: { f_equal. eapply (IH (length rest)); [subst; cbn; lia | done | done]. }
  destruct rest as [|d rest]; [done |]. cbn [vprintf_loop negb] in *. destruct (d =? 0); [done |].
  apply andb_true_iff in Hf as [Hd Hf]. rewrite !negb_orb, !andb_true_iff, !negb_true_iff in Hd.
  destruct Hd as [[[Hx Hp] Hl] Hc]. rewrite Hx, Hp, Hl, Hc.
  assert (forall ap', vprintf_loop false rest ap' = printf_loop rest ap') as IH'
    by (intros ap'; eapply (IH (length rest)); [subst; cbn; lia | done | done]).
  destruct (d =? c_d).
  { destruct (va_num ap) as [[v ap']|]; [| done]. cbn. by rewrite printint_10, IH'. }
  destruct (d =? c_s).
  { destruct (va_str ap) as [[v ap']|]; [| done]. cbn. by rewrite IH'. }
  destruct (d =? c_pct) eqn:E; [apply Z.eqb_eq in E; subst d |]; by rewrite IH'.
Qed.

(** ** Witnesses *)

