(* ===== verification/Grep.v ===== *)
(** * Grep: [user/grep.c]

    The pattern matcher of Kernighan and Pike on C strings (lists of characters before the 0),
    against a reference definition: the language of a pattern.  The function [grep] with its buffer
    of 1024 bytes, over a reader that may return short reads at will: [sizes] bounds what
    each [read] delivers. *)

From stdpp Require Import base list.
From Stdlib Require Import ZArith Lia.
From S2P Require Import Prelude.

(** ** Code: the matcher *)

Definition CARET : Z := 94.
Definition STAR : Z := 42.
Definition DOT : Z := 46.
Definition DOLLAR : Z := 36.
Definition NEWLINE : Z := 10.

(** [matchstar]; [here] is [matchhere] of the pattern after the star. *)
Fixpoint matchstar (here : list Z -> bool) (c : Z) (text : list Z) : bool :=
  if here text then true else
  match text with
  | [] => false
  | t :: text' => if (t =? c) || (c =? DOT) then matchstar here c text' else false
  end.

Fixpoint matchhere (re : list Z) (text : list Z) : bool :=
  match re with
  | [] => true
  | c :: re1 =>
      match re1 with
      | d :: re2 =>
          if d =? STAR then matchstar (matchhere re2) c text
          else match text with
               | t :: text' => if (c =? DOT) || (c =? t) then matchhere re1 text' else false
               | [] => false
               end
      | [] =>
          if c =? DOLLAR then match text with [] => true | _ => false end
          else match text with
               | t :: text' => if (c =? DOT) || (c =? t) then matchhere re1 text' else false
               | [] => false
               end
      end
  end.

(** The loop of [match] over the starting points, the end of the text included. *)
Fixpoint match_from (re text : list Z) : bool :=
  if matchhere re text then true else
  match text with
  | [] => false
  | _ :: text' => match_from re text'
  end.

Definition match_re (re text : list Z) : bool :=
  match re with
  | c :: re1 => if c =? CARET then matchhere re1 text else match_from re text
  | [] => match_from re text
  end.

(** ** Code: the loop over the input *)

(** [strchr(p, '\n')]: the distance to the first newline before any 0. *)
Fixpoint strchr (l : list Z) (c : Z) : option nat :=
  match l with
  | [] => None
  | x :: l' => if x =? 0 then None else if x =? c then Some 0%nat else S <$> strchr l' c
  end.

(** The inner loop of [grep]: the lines of the buffer from [p] on; the text written, and what is
    left after the last newline. *)
Fixpoint grep_lines (fuel : nat) (pattern : list Z) (p : list Z) : option (list Z * list Z) :=
  match strchr p NEWLINE with
  | None => Some ([], p)
  | Some k =>
      match fuel with
      | O => None
      | S f =>
          r ← grep_lines f pattern (drop (S k) p);
          let '(out, tl) := r in
          Some ((if match_re pattern (take k p) then take (S k) p else []) ++ out, tl)
      end
  end.

(** [read(fd, buf, n)] of a file with contents [src], when at most the first of [sizes] bytes are
    available. *)
Definition read_some (n : nat) (sizes : list nat) (src : list Z) : list Z * list Z :=
  let k := match sizes with [] => n | z :: _ => (n `min` z)%nat end in
  (take k src, drop k src).

Definition BUFSIZE : nat := 1024.

(** [grep] with the bytes [buf[0 .. m)] in the buffer. *)
Fixpoint grep_loop (fuel : nat) (pattern buf : list Z) (sizes : list nat) (src : list Z) : option (list Z) :=
  match fuel with
  | O => None
  | S f =>
      let '(chunk, src') := read_some (BUFSIZE - length buf - 1) sizes src in
      match chunk with
      | [] => Some []
      | _ =>
          r ← grep_lines (length (buf ++ chunk)) pattern (buf ++ chunk);
          let '(out, tl) := r in
          rest ← grep_loop f pattern tl (tail sizes) src';
          Some (out ++ rest)
      end
  end.

(** Each read but the last takes a byte off the input. *)
Definition grep (pattern : list Z) (sizes : list nat) (src : list Z) : option (list Z) :=
  grep_loop (S (length src)) pattern [] sizes src.

(** ** Specification *)

(** A pattern is a list of items and possibly an end anchor. *)
Inductive item : Type :=
  | One (c : Z)
  | Many (c : Z).

Fixpoint items (re : list Z) : list item * bool :=
  match re with
  | [] => ([], false)
  | c :: re1 =>
      match re1 with
      | d :: re2 =>
          if d =? STAR then let '(l, e) := items re2 in (Many c :: l, e)
          else let '(l, e) := items re1 in (One c :: l, e)
      | [] => if c =? DOLLAR then ([], true) else ([One c], false)
      end
  end.

(** The character [c] of a pattern stands for the character [t]. *)
Definition fits (c t : Z) : Prop := c = DOT \/ c = t.

(** The strings an item list stands for. *)
Inductive lang : list item -> list Z -> Prop :=
  | lang_nil : lang [] []
  | lang_one c t l s : fits c t -> lang l s -> lang (One c :: l) (t :: s)
  | lang_many c l s1 s2 : Forall (fits c) s1 -> lang l s2 -> lang (Many c :: l) (s1 ++ s2).

(** The text starts with a string of the pattern, and ends there if the pattern is anchored. *)
Definition prefix_matches (re text : list Z) : Prop :=
  exists s rest, text = s ++ rest /\ lang (items re).1 s /\ ((items re).2 = true -> rest = []).

(** The complete lines of [l] that match, with [acc] the start of the current line. *)
Fixpoint complete_matches (pattern acc l : list Z) : list Z :=
  match l with
  | [] => []
  | c :: l' =>
      if c =? NEWLINE then (if match_re pattern acc then acc ++ [NEWLINE] else []) ++ complete_matches pattern [] l'
      else complete_matches pattern (acc ++ [c]) l'
  end.

(** The lines of a text; what follows the last newline is a line too. *)
Fixpoint lines (acc l : list Z) : list (list Z) :=
  match l with
  | [] => match acc with [] => [] | _ => [acc] end
  | c :: l' => if c =? NEWLINE then acc :: lines [] l' else lines (acc ++ [c]) l'
  end.

(** The lines that match, each with its newline. *)
Definition matching_lines (pattern l : list Z) : list Z :=
  mjoin ((fun x => if match_re pattern x then x ++ [NEWLINE] else []) <$> lines [] l).

(** A text whose last line is terminated. *)
Definition terminated (l : list Z) : Prop := l = [] \/ last l = Some NEWLINE.

(** No 0 byte, and no line is longer than the buffer allows; [n] characters of the current
    line have gone by. *)
Fixpoint text_ok (n : nat) (l : list Z) : bool :=
  match l with
  | [] => true
  | c :: l' =>
      if c =? 0 then false else
      if c =? NEWLINE then text_ok 0 l' else (S n <? BUFSIZE - 1)%nat && text_ok (S n) l'
  end.

(** ** Lemmas *)

Lemma fits_b c t : (c =? DOT) || (c =? t) = true <-> fits c t.
Proof. unfold fits. rewrite orb_true_iff, !Z.eqb_eq. done. Qed.

Lemma fits_b' c t : (t =? c) || (c =? DOT) = true <-> fits c t.
Proof. rewrite orb_comm, (Z.eqb_sym t). apply fits_b. Qed.

(** A star matches the characters it stands for, any number of them. *)
Lemma matchstar_spec here c text :
  matchstar here c text = true <-> exists s1 s2, text = s1 ++ s2 /\ Forall (fits c) s1 /\ here s2 = true.
Proof.
  induction text as [|t text IH]; cbn [matchstar].
  - destruct (here []) eqn:E.
    + split; [| done]. intros _. by exists [], [].
    + split; [done |]. intros (s1 & s2 & H & _ & H2). symmetry in H. apply app_nil in H as [-> ->]. congruence.
  - destruct (here (t :: text)) eqn:E.
    { split; [| done]. intros _. by exists [], (t :: text). }
    destruct ((t =? c) || (c =? DOT)) eqn:Ef.
    + rewrite IH. apply fits_b' in Ef. split.
      * intros (s1 & s2 & -> & H1 & H2). exists (t :: s1), s2. by split; [| split; [constructor |]].
      * intros ([|x s1] & s2 & H & H1 & H2); cbn in H; [subst; congruence |]. injection H as -> ->.
        exists s1, s2. by inversion H1.
    + split; [done |]. intros ([|x s1] & s2 & H & H1 & H2); cbn in H; [subst; congruence |].
      injection H as -> ->. inversion H1 as [|?? Hf _]; subst. apply fits_b' in Hf. congruence.
Qed.

(** An ordinary character of a pattern. *)
Lemma one_spec c (l : list item) (e : bool) (P : list Z -> bool) text :
  (forall text, P text = true <-> exists s rest, text = s ++ rest /\ lang l s /\ (e = true -> rest = [])) ->
  match text with t :: text' => if (c =? DOT) || (c =? t) then P text' else false | [] => false end = true <->
  exists s rest, text = s ++ rest /\ lang (One c :: l) s /\ (e = true -> rest = []).
Proof.
  intros HP. destruct text as [|t text].
  - split; [done |]. intros (s & rest & H & Hl & _). inversion Hl; subst. done.
  - destruct ((c =? DOT) || (c =? t)) eqn:Ef.
    + rewrite HP. apply fits_b in Ef. split.
      * intros (s & rest & -> & Hl & He). exists (t :: s), rest. by split; [| split; [constructor |]].
      * intros (s & rest & H & Hl & He). inversion Hl as [|? t' ? s' Hf Hl'|]; subst. injection H as -> ->. by exists s', rest.
    + split; [done |]. intros (s & rest & H & Hl & He). inversion Hl as [|? t' ? s' Hf Hl'|]; subst. injection H as -> ->.
      apply fits_b in Hf. congruence.
Qed.

Lemma matchhere_eq c d re2 text :
  matchhere (c :: d :: re2) text =
  if d =? STAR then matchstar (matchhere re2) c text
  else match text with
       | t :: text' => if (c =? DOT) || (c =? t) then matchhere (d :: re2) text' else false
       | [] => false
       end.
Proof. reflexivity. Qed.

Lemma items_eq c d re2 :
  items (c :: d :: re2) =
  if d =? STAR then let '(l, e) := items re2 in (Many c :: l, e) else let '(l, e) := items (d :: re2) in (One c :: l, e).
Proof. reflexivity. Qed.

Lemma matchhere_spec re text : matchhere re text = true <-> prefix_matches re text.
Proof.
  unfold prefix_matches. remember (length re) as n eqn:Hn. revert re Hn text.
  induction n as [n IH] using lt_wf_ind. intros [|c re1] Hn text.
  { cbn. split; [intros _; exists [], text; by split; [| split; [constructor |]] | done]. }
  destruct re1 as [|d re2].
  - cbn [matchhere items]. destruct (c =? DOLLAR).
    + cbn [fst snd]. split.
      * destruct text; [| done]. intros _. exists [], []. by split; [| split; [constructor |]].
      * intros (s & rest & -> & Hl & He). inversion Hl; subst. by rewrite He.
    + cbn [fst snd]. apply (one_spec c [] false). intros text'. split; [| done].
      intros _. exists [], text'. by split; [| split; [constructor |]].
  - rewrite matchhere_eq, items_eq. destruct (d =? STAR).
    + rewrite matchstar_spec. pose proof (IH (length re2) ltac:(subst; cbn; lia) re2 eq_refl) as IH2.
      destruct (items re2) as [l e]. cbn [fst snd] in *. setoid_rewrite IH2. split.
      * intros (s1 & s2 & -> & H1 & s & rest & -> & Hl & He). exists (s1 ++ s), rest. rewrite (assoc_L (++)).
        by split; [| split; [constructor |]].
      * intros (s & rest & -> & Hl & He). inversion Hl as [| |? ? s1 s2 H1 H2]; subst. exists s1, (s2 ++ rest).
        rewrite <- (assoc_L (++)). split; [done |]. split; [done |]. by exists s2, rest.
    + pose proof (IH (length (d :: re2)) ltac:(subst; cbn; lia) (d :: re2) eq_refl) as IH1.
      destruct (items (d :: re2)) as [l e]. cbn [fst snd] in *. by apply one_spec.
Qed.

Lemma match_from_spec re text :
  match_from re text = true <-> exists pre rest, text = pre ++ rest /\ matchhere re rest = true.
Proof.
  induction text as [|t text IH]; cbn [match_from].
  - destruct (matchhere re []) eqn:E.
    + split; [| done]. intros _. by exists [], [].
    + split; [done |]. intros (pre & rest & H & H2). symmetry in H. apply app_nil in H as [-> ->]. congruence.
  - destruct (matchhere re (t :: text)) eqn:E.
    + split; [| done]. intros _. by exists [], (t :: text).
    + rewrite IH. split.
      * intros (pre & rest & -> & H). by exists (t :: pre), rest.
      * intros ([|x pre] & rest & H & H2); cbn in H; [subst; congruence |]. injection H as -> ->. by exists pre, rest.
Qed.

Lemma strchr_none l c : strchr l c = None -> Forall (fun x => x <> 0) l -> c ∉ l.
Proof.
  intros H Hz. induction Hz as [|x l Hx Hz IH]; [apply not_elem_of_nil |]. cbn [strchr] in H.
  destruct (Z.eqb_spec x 0); [done |]. destruct (Z.eqb_spec x c); [done |].
  apply not_elem_of_cons. split; [done |]. apply IH. by destruct (strchr l c).
Qed.

Lemma strchr_some l c k :
  strchr l c = Some k -> exists l', l = take k l ++ c :: l' /\ (c ∉ take k l) /\ drop (S k) l = l' /\ take (S k) l = take k l ++ [c].
Proof.
  revert k. induction l as [|x l IH]; intros k H; [done |]. cbn [strchr] in H.
  destruct (Z.eqb_spec x 0); [done |]. destruct (Z.eqb_spec x c) as [->|Hne].
  - injection H as <-. exists l. split_and!; try done. apply not_elem_of_nil.
  - destruct (strchr l c) as [j|] eqn:Hj; [| done]. injection H as <-. destruct (IH j eq_refl) as (l' & H1 & H2 & H3 & H4).
    exists l'. cbn [take drop app]. split_and!; [by rewrite <- H1 | | done | by rewrite H4].
    apply not_elem_of_cons. done.
Qed.

Lemma complete_matches_run pattern acc x l :
  NEWLINE ∉ x -> complete_matches pattern acc (x ++ l) = complete_matches pattern (acc ++ x) l.
Proof.
  revert acc. induction x as [|c x IH]; intros acc Hx; [by rewrite app_nil_r |].
  apply not_elem_of_cons in Hx as [Hc Hx]. cbn [app complete_matches]. destruct (Z.eqb_spec c NEWLINE); [congruence |].
  rewrite IH by done. by rewrite <- (assoc_L (++)).
Qed.

(** On a terminated text the complete lines are all lines. *)
Lemma complete_matches_lines pattern l : terminated l -> complete_matches pattern [] l = matching_lines pattern l.
Proof.
  unfold matching_lines. enough (forall acc, l = [] /\ acc = [] \/ last l = Some NEWLINE ->
    complete_matches pattern acc l = mjoin ((fun x => if match_re pattern x then x ++ [NEWLINE] else []) <$> lines acc l)) as H.
  { intros [->|Hl]; apply H; auto. }
  induction l as [|c l IH]; intros acc Hl; [destruct Hl as [[_ ->]|]; done |].
  destruct Hl as [[]|Hl]; [done |]. cbn [complete_matches lines].
  assert (l = [] /\ c = NEWLINE \/ last l = Some NEWLINE) as Hl'.
  { destruct l as [|d l]; [left; cbn in Hl; naive_solver | right; done]. }
  destruct (Z.eqb_spec c NEWLINE) as [->|Hc].
  - rewrite fmap_cons. cbn [mjoin list_join]. f_equal. apply IH. naive_solver.
  - apply IH. naive_solver.
Qed.

Lemma text_ok_run n x l : NEWLINE ∉ x -> text_ok n (x ++ l) = true -> text_ok (n + length x) l = true /\ (x = [] \/ n + length x < BUFSIZE - 1)%nat.
Proof.
  revert n. induction x as [|c x IH]; intros n Hx H; [cbn in *; rewrite Nat.add_0_r; auto |].
  apply not_elem_of_cons in Hx as [Hc Hx]. cbn [app text_ok] in H. destruct (c =? 0); [done |].
  destruct (Z.eqb_spec c NEWLINE); [congruence |]. apply andb_true_iff in H as [Hn H]. apply Nat.ltb_lt in Hn.
  destruct (IH (S n) Hx H) as [H1 H2]. cbn [length]. rewrite Nat.add_succ_r. split; [done |]. right.
  destruct H2 as [->|H2]; cbn [length]; lia.
Qed.

Lemma text_ok_nonzero n l : text_ok n l = true -> Forall (fun x => x <> 0) l.
Proof.
  revert n. induction l as [|c l IH]; intros n H; constructor; cbn [text_ok] in H; destruct (Z.eqb_spec c 0); try done.
  destruct (c =? NEWLINE); [by eapply IH |]. apply andb_true_iff in H as [_ H]. by eapply IH.
Qed.

(** The inner loop writes the matching lines of the buffer and keeps the last, incomplete one. *)
Lemma grep_lines_spec fuel pattern p src :
  (length p <= fuel)%nat -> text_ok 0 (p ++ src) = true ->
  exists out tl, grep_lines fuel pattern p = Some (out, tl) /\ (NEWLINE ∉ tl) /\ (length tl <= length p)%nat /\
    text_ok 0 (tl ++ src) = true /\ complete_matches pattern [] (p ++ src) = out ++ complete_matches pattern [] (tl ++ src).
Proof.
  revert p. induction fuel as [|f IH]; intros p Hf Hok.
  { destruct p; [| cbn in Hf; lia]. exists [], []. cbn. split_and!; try done. apply not_elem_of_nil. }
  cbn [grep_lines]. destruct (strchr p NEWLINE) as [k|] eqn:Hk.
  - destruct (strchr_some p NEWLINE k Hk) as (l' & Hp & Hn & Hdrop & Htake). rewrite Hdrop, Htake.
    assert (length p = length (take k p) + S (length l'))%nat as Hlen by (rewrite Hp at 1; by rewrite length_app).
    assert (text_ok 0 (l' ++ src) = true) as Hok'.
    { rewrite Hp, <- (assoc_L (++)) in Hok. apply text_ok_run in Hok as [Hok _]; [| done]. done. }
    destruct (IH l' ltac:(lia) Hok') as (out & tl & Hr & Hn' & Hl & Hok2 & Hm). rewrite Hr. cbn [mbind option_bind].
    eexists _, tl. split; [reflexivity |]. split_and!; [done | lia | done |]. rewrite Hp at 1. rewrite <- (assoc_L (++)).
    rewrite complete_matches_run by done. cbn [app complete_matches]. change (NEWLINE =? NEWLINE) with true. cbv iota. cbn [app].
    by rewrite Hm, (assoc_L (++)).
  - exists [], p. split_and!; try done. apply strchr_none; [done |]. apply text_ok_nonzero in Hok. by apply Forall_app in Hok as [? _].
Qed.

Lemma grep_loop_spec fuel pattern buf sizes src :
  (length src < fuel)%nat -> NEWLINE ∉ buf -> Forall (fun z => 1 <= z)%nat sizes -> text_ok 0 (buf ++ src) = true ->
  grep_loop fuel pattern buf sizes src = Some (complete_matches pattern [] (buf ++ src)).
Proof.
  revert buf sizes src. induction fuel as [|f IH]; intros buf sizes src Hf Hb Hs Hok; [lia |].
  assert (length buf < BUFSIZE - 1)%nat as Hroom.
  { apply text_ok_run in Hok as [_ [->|H]]; [cbn; unfold BUFSIZE; lia | cbn in H; done | done]. }
  cbn [grep_loop]. unfold read_some. set (k := match sizes with [] => _ | _ => _ end).
  assert (1 <= k)%nat as Hk by (unfold k; destruct Hs; lia).
  destruct (take k src) as [|c chunk] eqn:Hchunk.
  - destruct src; [| destruct k; [lia | done]]. rewrite complete_matches_run by done. done.
  - rewrite <- Hchunk in *. assert (buf ++ src = (buf ++ take k src) ++ drop k src) as Hsrc by (by rewrite <- (assoc_L (++)), take_drop).
    rewrite Hsrc in *. destruct (grep_lines_spec (length (buf ++ take k src)) pattern (buf ++ take k src) (drop k src)) as
      (out & tl & Hr & Hn & _ & Hok' & Hm); [lia | done |].
    rewrite Hr. cbn [mbind option_bind]. rewrite IH; [by rewrite Hm | | done | by destruct Hs | done].
    rewrite length_drop. destruct src; [by rewrite take_nil in Hchunk | cbn in *; lia].
Qed.

(** ** Properties *)

(** C33: [match] decides the language of the pattern: it finds a match exactly when some part
    of the text (its beginning, for a pattern that starts with [^]; up to its end, for one
    that ends in [$]) is a string of the pattern, where [.] stands for any character and a
    starred character for any number of them. *)
Theorem match_language (re text : list Z) :
  match_re re text = true <->
  match re with
  | c :: re1 => if c =? CARET then prefix_matches re1 text
                else exists pre rest, text = pre ++ rest /\ prefix_matches re rest
  | [] => exists pre rest, text = pre ++ rest /\ prefix_matches re rest
  end.
Proof.
  unfold match_re. destruct re as [|c re1]; [| destruct (c =? CARET); [apply matchhere_spec |]];
    rewrite match_from_spec; by setoid_rewrite matchhere_spec.
Qed.

(** [grep] ends and writes exactly the lines of its input that match, in order, however the input
    is cut into reads, provided it has no 0 byte and no line longer than the buffer allows; what
    follows the last newline is not considered a line, so that on a terminated text these are
    all matching lines. *)
Lemma grep_writes_matching_lines (pattern : list Z) (sizes : list nat) (src : list Z)
    (Hs : Forall (fun z => 1 <= z)%nat sizes) (Hok : text_ok 0 src = true) :
  grep pattern sizes src = Some (complete_matches pattern [] src) /\
  (terminated src -> grep pattern sizes src = Some (matching_lines pattern src)).
Proof.
  assert (grep pattern sizes src = Some (complete_matches pattern [] src)) as E
    by (apply grep_loop_spec; [lia | apply not_elem_of_nil | done | done]).
  split; [exact E |]. intros Ht. by rewrite E, complete_matches_lines.
Qed.

(** ** Witnesses *)

(** A line of 1023 characters stops [grep]: the lines after it are not read. *)
Example grep_long_line : grep [97] [] (replicate 1023 98 ++ [10; 97; 10]) = Some [].
Proof. vm_compute. reflexivity. Qed.

(** A last line without a newline is not printed. *)
Example grep_last_line : grep [97] [] [97] = Some [] /\ matching_lines [97] [97] = [97; 10].
Proof. split; vm_compute; reflexivity. Qed.
