(* ===== verification/Umalloc.v ===== *)
(** * Umalloc: [user/umalloc.c]

    The storage allocator of Kernighan and Ritchie: a circular list of free blocks in order of
    address that starts at the static header [base].  Addresses are in bytes; a header takes 16
    and block sizes are in headers.  The header fields are two maps from addresses.  [sbrk] is
    the system call: it moves the end of the heap and returns the old one, or fails; when it
    fails is the parameter [granted].

    Ghost: the free blocks in order, and the blocks in use; all are disjoint. *)

From stdpp Require Import base list sorting strings.
From Stdlib Require Import ZArith Lia.
From S2P Require Import Prelude.

Definition HDR : Z := 16.

Record heap : Type := mkheap {
  hptr : Z -> Z;
  hsize : Z -> Z;
  freep : Z;
  brk : Z;
}.

Definition zupd (f : Z -> Z) (a v : Z) : Z -> Z := fun x => if x =? a then v else f x.

Definition set_ptr (a v : Z) (h : heap) : heap := mkheap (zupd (hptr h) a v) (hsize h) (freep h) (brk h).
Definition set_hsize (a v : Z) (h : heap) : heap := mkheap (hptr h) (zupd (hsize h) a v) (freep h) (brk h).
Definition set_freep (v : Z) (h : heap) : heap := mkheap (hptr h) (hsize h) v (brk h).
Definition set_brk (v : Z) (h : heap) : heap := mkheap (hptr h) (hsize h) (freep h) v.

(** ** Code *)

Section Code.

(** The address of [base], and whether [sbrk(n)] succeeds when the heap ends at [b]. *)
Context (base : Z) (granted : Z -> Z -> bool).

Definition sbrk (n : Z) : M heap Z :=
  let! b := gets brk in
  if granted b n then do! modify (set_brk (b + n)) in ret b else ret (-1).

(** The loop of [free]: the block after which [bp] belongs. *)
Fixpoint find_place (fuel : nat) (bp p : Z) : M heap Z :=
  let! q := gets (fun h => hptr h p) in
  if (p <? bp) && (bp <? q) then ret p else
  if (q <=? p) && ((p <? bp) || (bp <? q)) then ret p else
  match fuel with
  | O => diverge
  | S f => find_place f bp q
  end.

(** [if(bp + bp->s.size == p->s.ptr)]: join [bp] with the block after it, or link to it. *)
Definition join_next (bp p : Z) : M heap unit :=
  let! q := gets (fun h => hptr h p) in
  let! sz := gets (fun h => hsize h bp) in
  if bp + HDR * sz =? q then
    let! qs := gets (fun h => hsize h q) in
    let! qq := gets (fun h => hptr h q) in
    do! modify (set_hsize bp (u32 (sz + qs))) in
    modify (set_ptr bp qq)
  else modify (set_ptr bp q).

(** [if(p + p->s.size == bp)]: join the block [p] with [bp], or link it to [bp]. *)
Definition join_prev (bp p : Z) : M heap unit :=
  let! ps := gets (fun h => hsize h p) in
  if p + HDR * ps =? bp then
    let! bs := gets (fun h => hsize h bp) in
    let! bq := gets (fun h => hptr h bp) in
    do! modify (set_hsize p (u32 (ps + bs))) in
    modify (set_ptr p bq)
  else modify (set_ptr p bp).

Definition free (fuel : nat) (ap : Z) : M heap unit :=
  let bp := ap - HDR in
  let! start := gets freep in
  let! p := find_place fuel bp start in
  do! join_next bp p in
  do! join_prev bp p in
  modify (set_freep p).

(** [morecore]; the argument of [sbrk] is an [int]. *)
Definition morecore (fuel : nat) (nu : Z) : M heap Z :=
  let nu := if nu <? 4096 then 4096 else nu in
  let! p := sbrk (i32 (nu * HDR)) in
  if p =? -1 then ret 0 else
  do! modify (set_hsize p nu) in
  do! free fuel (p + HDR) in
  gets freep.

(** The branch of [malloc] that takes [nunits] from the block [p], or all of it. *)
Definition carve (nunits prevp p : Z) : M heap Z :=
  let! s := gets (fun h => hsize h p) in
  let! r := (if s =? nunits then
               let! q := gets (fun h => hptr h p) in
               do! modify (set_ptr prevp q) in ret p
             else
               do! modify (set_hsize p (s - nunits)) in
               let p' := p + HDR * (s - nunits) in
               do! modify (set_hsize p' nunits) in ret p') in
  do! modify (set_freep prevp) in
  ret (r + HDR).

(** The loop of [malloc]. *)
Fixpoint malloc_loop (fuel : nat) (nunits prevp p : Z) : M heap Z :=
  let! s := gets (fun h => hsize h p) in
  if nunits <=? s then carve nunits prevp p
  else
    match fuel with
    | O => diverge
    | S f =>
        let! fp := gets freep in
        let! p' := (if p =? fp then morecore fuel nunits else ret p) in
        if (p =? fp) && (p' =? 0) then ret 0 else
        let! q := gets (fun h => hptr h p') in
        malloc_loop f nunits p' q
    end.

Definition units (nbytes : Z) : Z := u32 ((nbytes + HDR - 1) / HDR + 1).

Definition malloc (fuel : nat) (nbytes : Z) : M heap Z :=
  let nunits := units nbytes in
  let! fp := gets freep in
  let! prevp := (if fp =? 0 then
                   do! modify (set_freep base) in
                   do! modify (set_ptr base base) in
                   do! modify (set_hsize base 0) in ret base
                 else ret fp) in
  let! p := gets (fun h => hptr h prevp) in
  malloc_loop fuel nunits prevp p.

End Code.

(** ** Specification *)

(** A block: the address of its header and its size. *)
Definition blk : Type := Z * Z.
Definition bend (b : blk) : Z := b.1 + HDR * b.2.

Definition apart_blk (x y : blk) : Prop := bend x <= y.1 \/ bend y <= x.1.

Fixpoint disjoint_blks (l : list blk) : Prop :=
  match l with
  | [] => True
  | x :: l' => Forall (apart_blk x) l' /\ disjoint_blks l'
  end.

(** Free blocks in order of address, each after [lo] and separated from the next: neighbours
    have been joined. *)
Fixpoint spaced (lo : Z) (F : list blk) : Prop :=
  match F with
  | [] => True
  | b :: F' => lo < b.1 /\ 0 < b.2 /\ spaced (bend b) F'
  end.

(** Following the pointers from [a] visits [l] and then [b]. *)
Fixpoint path (h : heap) (a : Z) (l : list Z) (b : Z) : Prop :=
  match l with
  | [] => hptr h a = b
  | x :: l' => hptr h a = x /\ path h x l' b
  end.

(** Blocks with their headers: inside the heap, not empty, disjoint. *)
Record blocks_ok (base : Z) (h : heap) (L : list blk) : Prop := {
  b_sizes : Forall (fun b => hsize h b.1 = b.2) L;
  b_range : Forall (fun b => base + HDR <= b.1 /\ 0 < b.2 /\ bend b <= brk h) L;
  b_disj : disjoint_blks L;
}.

(** The free blocks [F] and the blocks in use [A]. *)
Record heap_ok (base : Z) (h : heap) (F A : list blk) : Prop := {
  k_base : 0 < base /\ base + HDR <= brk h /\ brk h < 2 ^ 32;
  k_ring : path h base F.*1 base;
  k_freep : freep h ∈ base :: F.*1;
  k_size0 : hsize h base = 0;
  k_spaced : spaced (base + HDR - 1) F;
  k_blocks : blocks_ok base h (F ++ A);
}.

(** The free units. *)
Definition total (F : list blk) : Z := foldr (fun b n => b.2 + n) 0 F.

(** ** Lemmas: lists of blocks *)

Lemma apart_sym x y : apart_blk x y -> apart_blk y x.
Proof. unfold apart_blk. tauto. Qed.

Lemma disjoint_app l1 l2 :
  disjoint_blks (l1 ++ l2) <-> disjoint_blks l1 /\ disjoint_blks l2 /\ Forall (fun x => Forall (apart_blk x) l2) l1.
Proof.
  induction l1 as [|x l1 IH]; cbn [app disjoint_blks].
  - split; [intros; by split_and! | tauto].
  - rewrite IH, Forall_app, Forall_cons. tauto.
Qed.

#[export] Instance disjoint_perm : Proper ((≡ₚ) ==> iff) disjoint_blks.
Proof.
  intros l1 l2 H. induction H as [|x l1 l2 Hp IH|x y l|l1 l2 l3 _ IH1 _ IH2]; cbn [disjoint_blks]; [done | by rewrite IH, Hp | | by rewrite IH1].
  rewrite !Forall_cons. pose proof (apart_sym x y). pose proof (apart_sym y x). tauto.
Qed.

(** Cutting a block in two, or joining two neighbours. *)
Lemma disjoint_cut a s n l :
  0 < n < s -> Forall (fun b => 0 < b.2) l ->
  disjoint_blks ((a, s) :: l) <-> disjoint_blks ((a, s - n) :: (a + HDR * (s - n), n) :: l).
Proof.
  intros Hn Hl. cbn [disjoint_blks]. rewrite Forall_cons.
  assert (apart_blk (a, s - n) (a + HDR * (s - n), n)) as H0 by (left; unfold bend; cbn; lia).
  cut (Forall (apart_blk (a, s)) l <-> Forall (apart_blk (a, s - n)) l /\ Forall (apart_blk (a + HDR * (s - n), n)) l); [tauto |].
  rewrite <- Forall_and, !Forall_forall. rewrite Forall_forall in Hl.
  split; intros H y Hy; specialize (H y Hy); specialize (Hl y Hy); unfold apart_blk, bend, HDR in *; cbn in *; lia.
Qed.

Lemma spaced_weaken lo lo' F : spaced lo F -> lo' <= lo -> spaced lo' F.
Proof. destruct F as [|b F]; [done |]. cbn. intros (H1 & H2 & H3) Hlo. split_and!; [lia | done | done]. Qed.

(** The end of the last block, and the last node, of a piece of the list. *)
Definition last_end (lo : Z) (F : list blk) : Z := foldl (fun _ b => bend b) lo F.
Definition lst (a : Z) (l : list Z) : Z := foldl (fun _ x => x) a l.

Lemma spaced_app lo F1 F2 : spaced lo (F1 ++ F2) <-> spaced lo F1 /\ spaced (last_end lo F1) F2.
Proof. revert lo. induction F1 as [|b F1 IH]; intros lo; cbn; [tauto |]. rewrite IH. tauto. Qed.

Lemma spaced_above lo F : spaced lo F -> Forall (fun b => lo < b.1 /\ 0 < b.2) F.
Proof.
  revert lo. induction F as [|b F IH]; intros lo H; [done |]. destruct H as (H1 & H2 & H3). constructor; [done |].
  eapply Forall_impl; [by apply IH |]. cbn. unfold bend, HDR. lia.
Qed.

Lemma last_end_snoc lo F b : last_end lo (F ++ [b]) = bend b.
Proof. unfold last_end. by rewrite foldl_app. Qed.

Lemma lst_snoc a l x : lst a (l ++ [x]) = x.
Proof. unfold lst. by rewrite foldl_app. Qed.

Lemma lst_elem a l : lst a l ∈ a :: l.
Proof. destruct l as [|x l _] using rev_ind; [by left | rewrite lst_snoc]. apply elem_of_cons; right. apply elem_of_app; right. by left. Qed.

(** The blocks before and after a free address. *)
Lemma spaced_place lo F bp :
  spaced lo F -> bp ∉ F.*1 ->
  exists F1 F2, F = F1 ++ F2 /\ Forall (fun b => b.1 < bp) F1 /\ Forall (fun b => bp < b.1) F2.
Proof.
  revert lo. induction F as [|b F IH]; intros lo H Hn; [by exists [], [] |]. destruct H as (H1 & H2 & H3).
  apply not_elem_of_cons in Hn as [Hb Hn]. destruct (Z.lt_ge_cases b.1 bp) as [Hlt|Hge].
  - destruct (IH _ H3 Hn) as (F1 & F2 & -> & HF1 & HF2). exists (b :: F1), F2. split_and!; [done | by constructor | done].
  - exists [], (b :: F). split_and!; [done | done |]. constructor; [lia |].
    eapply Forall_impl; [by apply spaced_above |]. cbn. unfold bend, HDR. lia.
Qed.

(** Blocks at different places have different headers. *)
Lemma apart_ne x y : apart_blk x y -> 0 < x.2 -> 0 < y.2 -> x.1 <> y.1.
Proof. unfold apart_blk, bend, HDR. lia. Qed.

#[export] Instance blocks_perm base h : Proper ((≡ₚ) ==> iff) (blocks_ok base h).
Proof. intros l1 l2 H. split; intros []; split; by (rewrite H || rewrite <- H). Qed.

(** A block's header is not the header of another block. *)
Lemma blocks_header base h b L : blocks_ok base h (b :: L) -> b.1 ∉ L.*1.
Proof.
  intros [] (c & E & Hc)%list_elem_of_fmap. destruct b_disj0 as [Hd _]. apply Forall_cons in b_range0 as [Hb Hr].
  rewrite Forall_forall in Hd, Hr. specialize (Hd c Hc). specialize (Hr c Hc). cbn in *.
  by apply (apart_ne b c); [| lia | lia |].
Qed.

Lemma blocks_frame base h h' L :
  blocks_ok base h L -> (forall a, a ∈ L.*1 -> hsize h' a = hsize h a) -> brk h <= brk h' -> blocks_ok base h' L.
Proof.
  intros [] Hs Hb. split; [| | done].
  - apply Forall_forall. intros b Hin. rewrite Forall_forall in b_sizes0. rewrite Hs; [by apply b_sizes0 |].
    apply list_elem_of_fmap. eauto.
  - eapply Forall_impl; [exact b_range0 |]. cbn. lia.
Qed.

Lemma blocks_pos base h L : blocks_ok base h L -> Forall (fun b => 0 < b.2) L.
Proof. intros []. eapply Forall_impl; [done |]. cbn. lia. Qed.

Lemma blocks_tail base h b L : blocks_ok base h (b :: L) -> blocks_ok base h L.
Proof. intros []. by apply Forall_cons in b_sizes0 as [_ ?]; apply Forall_cons in b_range0 as [_ ?]; destruct b_disj0. Qed.

Lemma blocks_NoDup base h L : blocks_ok base h L -> NoDup (base :: L.*1).
Proof.
  intros Hb. constructor.
  - intros (b & E & Hin)%list_elem_of_fmap. destruct Hb. rewrite Forall_forall in b_range0. specialize (b_range0 b Hin). cbn in *. unfold HDR in *. lia.
  - induction L as [|b L IH]; [constructor |]. cbn. constructor; [by eapply blocks_header |]. by apply IH, (blocks_tail _ _ b).
Qed.

(** Joining neighbours, given their common header. *)
Lemma blocks_join base h h' a s1 s2 L :
  blocks_ok base h ((a, s1) :: (a + HDR * s1, s2) :: L) ->
  hsize h' a = s1 + s2 -> (forall x, x <> a -> hsize h' x = hsize h x) -> brk h' = brk h ->
  blocks_ok base h' ((a, s1 + s2) :: L).
Proof.
  intros Hb Ha Hx Hk. pose proof (blocks_header _ _ _ _ Hb) as Hn. cbn [fst] in Hn. apply not_elem_of_cons in Hn as [_ Hn].
  pose proof (blocks_pos _ _ _ Hb) as Hp. destruct Hb. apply Forall_cons in b_sizes0 as [_ [_ Hs]%Forall_cons].
  apply Forall_cons in b_range0 as [R1 [R2 R]%Forall_cons]. apply Forall_cons in Hp as [P1 [P2 Hp]%Forall_cons]. cbn in *.
  split.
  - constructor; [done |]. apply Forall_forall. intros b Hin. rewrite Forall_forall in Hs. rewrite Hx; [by apply Hs |].
    intros E. apply Hn, list_elem_of_fmap. eauto.
  - constructor; [| eapply Forall_impl; [exact R |]; cbn; lia]. unfold bend in *. cbn in *. lia.
  - apply (disjoint_cut a (s1 + s2) s2 L); [lia | done |]. replace (s1 + s2 - s2) with s1 by lia. done.
Qed.

(** Cutting a block. *)
Lemma blocks_cut base h h' a s n L :
  blocks_ok base h ((a, s) :: L) -> 0 < n < s ->
  hsize h' a = s - n -> hsize h' (a + HDR * (s - n)) = n ->
  (forall x, x <> a -> x <> a + HDR * (s - n) -> hsize h' x = hsize h x) -> brk h' = brk h ->
  blocks_ok base h' ((a, s - n) :: (a + HDR * (s - n), n) :: L).
Proof.
  intros Hb Hn Ha Ha' Hx Hk. pose proof (blocks_pos _ _ _ Hb) as Hp. destruct Hb.
  apply Forall_cons in Hp as [_ Hp]. rewrite (disjoint_cut a s n L) in b_disj0 by done.
  apply Forall_cons in b_sizes0 as [_ Hs]. apply Forall_cons in b_range0 as [R1 R]. cbn in *.
  split; [| | done].
  - constructor; [done |]. constructor; [done |]. apply Forall_forall. intros b Hin. rewrite Forall_forall in Hs, Hp.
    destruct b_disj0 as ([_ H1]%Forall_cons & H2 & _). rewrite Forall_forall in H1, H2.
    specialize (H1 b Hin). specialize (H2 b Hin). specialize (Hp b Hin). cbn in Hp. rewrite Hx; [by apply Hs | |].
    + intros E. apply (apart_ne _ _ H1); cbn in *; [lia | lia | done].
    + intros E. apply (apart_ne _ _ H2); cbn in *; [lia | lia | done].
  - constructor; [unfold bend, HDR in *; cbn in *; lia |]. constructor; [unfold bend, HDR in *; cbn in *; lia |].
    eapply Forall_impl; [exact R |]. cbn. lia.
Qed.

(** ** Lemmas: paths *)

Lemma path_app h a l1 x l2 b : path h a (l1 ++ x :: l2) b <-> path h a l1 x /\ path h x l2 b.
Proof. revert a. induction l1 as [|y l1 IH]; intros a; cbn; [tauto |]. rewrite IH. tauto. Qed.

Lemma path_lst h a l b : path h a l b -> hptr h (lst a l) = b.
Proof. revert a. induction l as [|x l IH]; intros a H; [done |]. destruct H as [_ H]. exact (IH x H). Qed.

Lemma path_frame h h' a l b :
  (forall x, x ∈ a :: l -> hptr h' x = hptr h x) -> path h a l b -> path h' a l b.
Proof.
  revert a. induction l as [|x l IH]; intros a Hx H; cbn in *; [rewrite Hx; [done | by left] |].
  destruct H as [H1 H2]. split; [rewrite Hx; [done | by left] |]. apply IH; [| done]. intros y Hy. apply Hx. by right.
Qed.

(** The path from another node with the same successor. *)
Lemma path_shift h h' a a' l b :
  path h a l b -> hptr h' a' = hptr h a -> (forall x, x ∈ l -> hptr h' x = hptr h x) -> path h' a' l b.
Proof.
  destruct l as [|x l]; cbn; intros H Ha Hx; [congruence |]. destruct H as [H1 H2]. split; [congruence |].
  apply (path_frame h); [| done]. intros y Hy. by apply Hx.
Qed.

(** A path up to its last node depends on the nodes before it only. *)
Lemma path_redirect h h' a l b c :
  path h a l b -> NoDup (a :: l) -> (forall x, x ∈ a :: l -> x <> lst a l -> hptr h' x = hptr h x) ->
  hptr h' (lst a l) = c -> path h' a l c.
Proof.
  revert a. induction l as [|x l IH]; intros a H Hnd Hx Hc; [done |]. destruct H as [H1 H2].
  apply NoDup_cons in Hnd as [Hn Hnd]. change (lst a (x :: l)) with (lst x l) in *. split.
  - rewrite Hx; [done | by left |]. intros ->. by apply Hn, lst_elem.
  - apply IH; [done | done | | done]. intros y Hy Hne. apply Hx; [by right | done].
Qed.

(** The node of a ring whose successor is [x]. *)
Lemma path_pred h a l b y x :
  path h a l b -> NoDup (a :: l) -> b ∉ l -> y ∈ a :: l -> hptr h y = x -> x ∈ l ->
  exists l1 l2, l = l1 ++ x :: l2 /\ y = lst a l1.
Proof.
  revert a. induction l as [|z l IH]; intros a H Hnd Hb Hy Hx Hin; [by apply not_elem_of_nil in Hin |].
  destruct H as [H1 H2]. apply NoDup_cons in Hnd as [Hn Hnd]. apply not_elem_of_cons in Hb as [Hbz Hb].
  apply elem_of_cons in Hy as [->|Hy].
  - exists [], l. rewrite <- Hx, H1. done.
  - assert (x <> z) as Hxz.
    { intros ->. apply NoDup_cons in Hnd as [Hnz Hnd']. clear IH Hin. revert Hy. 
      assert (forall w, w ∈ z :: l -> hptr h w = b \/ hptr h w ∈ l) as K.
      { clear -H2. revert z H2. induction l as [|u l IH]; intros z H2 w Hw; cbn in *.
        - apply list_elem_of_singleton in Hw as ->. by left.
        - destruct H2 as [E H2]. apply elem_of_cons in Hw as [->|Hw]; [right; rewrite E; by left |].
          destruct (IH u H2 w Hw); [by left | right; by right]. }
      intros Hy. destruct (K y Hy) as [E|E]; rewrite Hx in E; [by subst | done]. }
    apply elem_of_cons in Hin as [->|Hin]; [done |].
    destruct (IH z H2 Hnd Hb Hy Hx Hin) as (l1 & l2 & -> & ->). by exists (z :: l1), l2.
Qed.

(** A ring seen from any of its nodes. *)
Lemma ring_rotate h base l s :
  path h base l base -> s ∈ base :: l -> exists l', path h s l' s /\ s :: l' ≡ₚ base :: l.
Proof.
  intros H [->|Hs]%elem_of_cons; [by exists l |]. apply list_elem_of_split in Hs as (l1 & l2 & ->).
  apply path_app in H as [H1 H2]. exists (l2 ++ base :: l1). split; [by apply path_app |].
  rewrite (Permutation_app_comm l2 (base :: l1)). cbn [app]. rewrite <- Permutation_middle. apply perm_swap.
Qed.

(** ** Lemmas: [free] *)

Section Theory.
Context (base : Z) (granted : Z -> Z -> bool).

(** Nodes that are passed by the search for a place. *)
Lemma find_place_high fuel bp h x l :
  path h x l base -> Forall (fun a => bp < a) (x :: l) -> base < bp -> StronglySorted Z.lt (x :: l) ->
  (length l < fuel)%nat -> find_place fuel bp x h = find_place (fuel - S (length l)) bp base h.
Proof.
  revert x fuel. induction l as [|y l IH]; intros x fuel Hp Hb Hbase Hs Hf; (destruct fuel as [|f]; [lia |]);
    cbn [find_place]; rewrite bind_gets; apply Forall_cons in Hb as [Hx Hb].
  - cbn in Hp. rewrite Hp. destruct (Z.ltb_spec x bp); [lia |]. cbn [andb]. destruct (Z.leb_spec base x); [| lia].
    destruct (Z.ltb_spec bp base); [lia |]. cbn [andb orb length]. by rewrite Nat.sub_succ, Nat.sub_0_r.
  - destruct Hp as [Hp1 Hp2]. rewrite Hp1. apply StronglySorted_inv in Hs as [Hs Hlt]. apply Forall_cons in Hlt as [Hxy _].
    destruct (Z.ltb_spec x bp); [lia |]. cbn [andb]. destruct (Z.leb_spec y x); [lia |]. cbn [andb length Nat.sub].
    apply IH; [done | done | done | done | cbn in Hf; lia].
Qed.

Lemma find_place_low fuel bp h x l q :
  path h x l q -> Forall (fun a => a < bp) (x :: l) -> StronglySorted Z.lt (x :: l) ->
  (bp < q \/ q <= lst x l) -> (length l <= fuel)%nat -> find_place fuel bp x h = Ok (lst x l, h).
Proof.
  revert x fuel. induction l as [|y l IH]; intros x fuel Hp Hb Hs Hq Hf; apply Forall_cons in Hb as [Hx Hb].
  - cbn in Hp, Hq. destruct fuel; cbn [find_place]; rewrite bind_gets, Hp; destruct (Z.ltb_spec x bp); try lia; cbn [andb orb];
      (destruct (Z.ltb_spec bp q); [done |]; destruct (Z.leb_spec q x); [done | lia]).
  - destruct fuel as [|f]; [cbn in Hf; lia |]. destruct Hp as [Hp1 Hp2]. cbn [find_place]. rewrite bind_gets, Hp1.
    apply StronglySorted_inv in Hs as [Hs Hlt]. apply Forall_cons in Hlt as [Hxy _]. apply Forall_cons in Hb as Hb'. destruct Hb' as [Hy _].
    destruct (Z.ltb_spec bp y); [lia |]. destruct (Z.leb_spec y x); [lia |]. rewrite andb_false_r. cbn [andb].
    apply IH; [done | done | done | done | cbn in Hf; lia].
Qed.

Lemma spaced_sorted lo F a : spaced lo F -> a <= lo -> StronglySorted Z.lt (a :: F.*1).
Proof.
  revert lo a. induction F as [|b F IH]; intros lo a H Ha; cbn; [by repeat constructor |]. destruct H as (H1 & H2 & H3).
  constructor.
  - apply (IH (bend b)); [done |]. unfold bend, HDR. lia.
  - constructor; [lia |]. apply Forall_fmap. eapply Forall_impl; [by apply spaced_above |]. cbn. unfold bend, HDR. lia.
Qed.

(** The search ends at the last node below the block. *)
Lemma find_place_spec fuel bp h F1 F2 s :
  path h base (F1 ++ F2).*1 base -> spaced (base + HDR - 1) (F1 ++ F2) -> base < bp ->
  Forall (fun b => b.1 < bp) F1 -> Forall (fun b => bp < b.1) F2 -> s ∈ base :: (F1 ++ F2).*1 ->
  (length (F1 ++ F2) < fuel)%nat ->
  find_place fuel bp s h = Ok (lst base F1.*1, h).
Proof.
  intros Hp Hs Hb H1 H2 Hin Hf. rewrite fmap_app in *.
  pose proof (spaced_sorted _ _ base Hs ltac:(unfold HDR; lia)) as Hsort. rewrite fmap_app in Hsort.
  assert (forall x l1 l2 q, base :: F1.*1 = l1 ++ x :: l2 -> path h x l2 q -> bp < q \/ q <= lst x l2 ->
            forall f, (length l2 <= f)%nat -> find_place f bp x h = Ok (lst base F1.*1, h)) as Low.
  { intros x l1 l2 q E Hp' Hq f Hf'. assert (lst base F1.*1 = lst x l2) as ->.
    { change (lst base F1.*1) with (lst 0 (base :: F1.*1)). rewrite E. unfold lst. by rewrite foldl_app. }
    apply (find_place_low f bp h x l2 q); [done | | | done | done].
    - assert (Forall (fun a => a < bp) (base :: F1.*1)) as K by (constructor; [done | by apply Forall_fmap]).
      rewrite E in K. by apply Forall_app in K as [_ K].
    - assert (StronglySorted Z.lt (base :: F1.*1)) as K by (rewrite app_comm_cons in Hsort; by eapply StronglySorted_app_1_l).
      rewrite E in K. by eapply StronglySorted_app_1_r. }
  assert (exists q, path h base F1.*1 q /\ (bp < q \/ q <= lst base F1.*1)) as (q & HpF1 & Hq).
  { destruct F2 as [|b F2].
    - exists base. rewrite app_nil_r in Hp. split; [done |]. right. destruct F1 as [|b F1 _] using rev_ind; [cbn; lia |].
      rewrite fmap_app. cbn [fmap list_fmap]. rewrite lst_snoc. apply spaced_app in Hs as [Hs _]. apply spaced_above in Hs. apply Forall_app in Hs as [_ Hs].
      apply Forall_cons in Hs as [Hs _]. unfold HDR in Hs. lia.
    - exists b.1. apply path_app in Hp as [Hp _]. split; [done |]. left. by apply Forall_cons in H2 as [? _]. }
  rewrite length_app in Hf. apply elem_of_cons in Hin as [->|Hin].
  { apply (Low base [] F1.*1 q); [done | done | done |]. rewrite length_fmap. lia. }
  apply elem_of_app in Hin as [Hin|Hin]; apply list_elem_of_split in Hin as (l1 & l2 & E).
  - rewrite E in HpF1. apply path_app in HpF1 as [_ Hp2]. apply (Low s (base :: l1) l2 q); [by rewrite E | done | |].
    + destruct Hq as [Hq|Hq]; [by left | right]. rewrite E in Hq. unfold lst in *. by rewrite foldl_app in Hq.
    + apply (f_equal length) in E. rewrite length_fmap, length_app in E. cbn in E. lia.
  - pose proof (f_equal length E) as El. rewrite length_fmap, length_app in El. cbn in El.
    rewrite (find_place_high fuel bp h s l2).
    + apply (Low base [] F1.*1 q); [done | done | done |]. rewrite length_fmap. lia.
    + rewrite E, (assoc_L (++)) in Hp. by apply path_app in Hp as [_ Hp].
    + assert (Forall (fun a => bp < a) F2.*1) as K by (by apply Forall_fmap). rewrite E in K. by apply Forall_app in K as [_ K].
    + done.
    + rewrite E, app_comm_cons, (assoc_L (++)) in Hsort. by eapply StronglySorted_app_1_r.
    + lia.
Qed.

Lemma total_app F1 F2 : total (F1 ++ F2) = total F1 + total F2.
Proof. induction F1 as [|b F1 IH]; cbn; [done |]. unfold total in *. rewrite IH. lia. Qed.

Lemma zupd_eq f a v : zupd f a v a = v.
Proof. unfold zupd. by rewrite Z.eqb_refl. Qed.

Lemma zupd_ne f a v x : x <> a -> zupd f a v x = f x.
Proof. intros H. unfold zupd. by destruct (Z.eqb_spec x a). Qed.

(** After the first join, [bp] is a block in front of the rest of the list. *)
Lemma join_next_spec h F1 F2 bp sz lo L :
  path h base (F1 ++ F2).*1 base -> spaced lo F2 -> Forall (fun b => bp < b.1) F2 -> 0 < base < bp -> brk h < 2 ^ 32 ->
  blocks_ok base h ((bp, sz) :: F2 ++ L) ->
  exists bs R h1, join_next bp (lst base F1.*1) h = Ok (tt, h1) /\
    (forall x, x <> bp -> hptr h1 x = hptr h x /\ hsize h1 x = hsize h x) /\ freep h1 = freep h /\ brk h1 = brk h /\
    path h1 bp R.*1 base /\ spaced (bp - 1) ((bp, bs) :: R) /\ blocks_ok base h1 ((bp, bs) :: R ++ L) /\
    bs + total R = sz + total F2 /\ sz <= bs /\ (length R <= length F2)%nat.
Proof.
  intros Hp Hsp Hgt Hb Hk Hok. unfold join_next. rewrite !bind_gets.
  pose proof (Forall_inv (b_sizes _ _ _ Hok)) as Hsz. pose proof (Forall_inv (b_range _ _ _ Hok)) as Hr. cbn in Hsz, Hr.
  pose proof (blocks_header _ _ _ _ Hok) as Hnb. rewrite fmap_app in Hnb. apply not_elem_of_app in Hnb as [Hnb _]. cbn [fst] in Hnb.
  rewrite Hsz. destruct F2 as [|[q qs] F2].
  - rewrite app_nil_r in Hp. rewrite (path_lst _ _ _ _ Hp). destruct (Z.eqb_spec (bp + HDR * sz) base); [unfold HDR in *; lia |].
    exists sz, [], (set_ptr bp base h). split; [reflexivity |]. split; [intros x Hx; cbn; by rewrite zupd_ne |].
    split; [done |]. split; [done |]. split; [cbn; by rewrite zupd_eq |]. split; [cbn; lia |]. split; [| done].
    by apply (blocks_frame _ h).
  - rewrite fmap_app in Hp. apply path_app in Hp as [Hp1 Hp2]. rewrite (path_lst _ _ _ _ Hp1). cbn [fst] in *.
    destruct Hsp as (Hq1 & Hq2 & Hsp). cbn [fst snd] in *. apply not_elem_of_cons in Hnb as [Hbq Hnb].
    apply Forall_cons in Hgt as [Hbq' Hgt]. cbn in Hbq'. destruct (Z.eqb_spec (bp + HDR * sz) q) as [E|E].
    + rewrite !bind_gets, bind_modify.
      assert (hsize h q = qs) as Hqs by (by destruct Hok as [[_ [H _]%Forall_cons]%Forall_cons _ _]).
      assert (bend (q, qs) <= brk h) as Hqr by (by destruct Hok as [_ [_ [(_ & _ & H) _]%Forall_cons]%Forall_cons _]).
      rewrite Hqs, u32_small by (unfold bend, HDR in *; cbn in *; lia).
      exists (sz + qs), F2, (set_ptr bp (hptr h q) (set_hsize bp (sz + qs) h)). split; [reflexivity |].
      split; [intros x Hx; cbn; by rewrite !zupd_ne |]. split_and!; try done.
      * apply (path_shift h _ q); [done | cbn; by rewrite zupd_eq |]. intros x Hx. cbn. rewrite zupd_ne; [done |]. by intros ->.
      * cbn. split_and!; [lia | lia |]. unfold bend, HDR in *. cbn in *. replace (bp + 16 * (sz + qs)) with (q + 16 * qs) by lia. done.
      * apply (blocks_join base h _ bp sz qs (F2 ++ L)); [by rewrite E | cbn; by rewrite zupd_eq | | done]. intros x Hx. cbn. by rewrite zupd_ne.
      * cbn. unfold total. lia.
      * lia.
      * cbn. lia.
    + exists sz, ((q, qs) :: F2), (set_ptr bp q h). split; [reflexivity |]. split; [intros x Hx; cbn; by rewrite zupd_ne |].
      split_and!; try done.
      * cbn. split; [by rewrite zupd_eq |]. apply (path_frame h); [| done]. intros x Hx. cbn. rewrite zupd_ne; [done |].
        intros ->. apply elem_of_cons in Hx as [?|?]; done.
      * destruct Hok as [_ _ [[H _]%Forall_cons _]]. unfold apart_blk, bend, HDR in *. cbn in *.
        split_and!; try done; unfold bend, HDR; cbn; lia.
      * by apply (blocks_frame _ h).
Qed.

(** After the second join, the ring is complete again. *)
Lemma join_prev_spec h F1 R bp bs q A :
  path h base F1.*1 q -> path h bp R.*1 base -> spaced (base + HDR - 1) F1 -> last_end (base + HDR - 1) F1 <= bp ->
  0 < base -> base + HDR <= bp -> spaced (bp - 1) ((bp, bs) :: R) -> brk h < 2 ^ 32 -> hsize h base = 0 ->
  blocks_ok base h ((bp, bs) :: F1 ++ R ++ A) ->
  exists F h', join_prev bp (lst base F1.*1) h = Ok (tt, h') /\ path h' base F.*1 base /\ spaced (base + HDR - 1) F /\
    blocks_ok base h' (F ++ A) /\ total F = total F1 + bs + total R /\ lst base F1.*1 ∈ base :: F.*1 /\
    hsize h' base = 0 /\ brk h' = brk h /\ (exists b, b ∈ F /\ bs <= b.2) /\ (length F <= S (length F1 + length R))%nat.
Proof.
  intros Hp1 Hp2 Hs1 Hle Hpos Hbase Hs2 Hk H0 Hok. unfold join_prev. rewrite bind_gets.
  pose proof (blocks_NoDup _ _ _ Hok) as Hnd. cbn [fmap list_fmap fst] in Hnd. rewrite !fmap_app in Hnd.
  apply NoDup_cons in Hnd as [Hn0 Hnd]. apply NoDup_cons in Hnd as [Hnb Hnd].
  rewrite !not_elem_of_app in Hnb. destruct Hnb as (Hnb1 & Hnb2 & _).
  rewrite not_elem_of_cons, !not_elem_of_app in Hn0. destruct Hn0 as (Hn0b & Hn01 & Hn02 & _).
  apply NoDup_app in Hnd as (Hnd1 & Hdis & _). destruct Hs2 as (Hs2a & Hs2b & Hs2). cbn [fst snd] in *.
  assert (forall x, x ∈ base :: F1.*1 -> x ∉ bp :: R.*1) as Hdis'.
  { intros x [->|Hx]%elem_of_cons; apply not_elem_of_cons; [done |]. split; [by intros -> |].
    intros HxR. apply (Hdis x Hx). apply elem_of_app. by left. }
  assert (NoDup (base :: F1.*1)) as HndF by (by constructor).
  destruct (decide (lst base F1.*1 + HDR * hsize h (lst base F1.*1) = bp)) as [E|E].
  - destruct F1 as [|[p ps] F1 _] using rev_ind; [cbn in E; rewrite H0 in E; unfold HDR in *; lia |].
    rewrite fmap_app in *. cbn [fmap list_fmap fst] in *. rewrite lst_snoc in *.
    assert (hsize h p = ps) as Hps.
    { destruct Hok as [[_ [[_ [H _]%Forall_cons]%Forall_app _]%Forall_app]%Forall_cons _ _]. done. }
    rewrite Hps in *. rewrite (proj2 (Z.eqb_eq _ _) E), !bind_gets, bind_modify.
    assert (hsize h bp = bs) as Hbs by (by destruct Hok as [[H _]%Forall_cons _ _]).
    assert (base + HDR <= p /\ 0 < ps) as Hpr.
    { destruct Hok as [_ [_ [[_ [(H1 & H2 & _) _]%Forall_cons]%Forall_app _]%Forall_app]%Forall_cons _]. done. }
    assert (bend (bp, bs) <= brk h) as Hbr by (by destruct Hok as [_ [(_ & _ & H) _]%Forall_cons _]).
    rewrite Hbs, u32_small by (unfold bend, HDR in *; cbn in *; lia).
    exists (F1 ++ (p, ps + bs) :: R), (set_ptr p (hptr h bp) (set_hsize p (ps + bs) h)). split; [reflexivity |].
    apply path_app in Hp1 as [Hp1 _]. rewrite fmap_app. cbn [fmap list_fmap fst]. split_and!.
    + apply path_app. split.
      * apply (path_frame h); [| done]. intros x Hx. cbn. rewrite zupd_ne; [done |]. intros ->.
        rewrite app_comm_cons in HndF. apply NoDup_app in HndF as (_ & HndF & _). apply (HndF p Hx). by left.
      * apply (path_shift h _ bp); [done | cbn; by rewrite zupd_eq |]. intros x Hx. cbn. rewrite zupd_ne; [done |]. intros ->.
        apply (Hdis' p); [apply elem_of_cons; right; apply elem_of_app; right; by left | by right].
    + apply spaced_app in Hs1 as [Hs1 (H1 & H2 & _)]. apply spaced_app. cbn [fst snd] in *. split; [done |]. cbn. split_and!; [done | lia |].
      unfold bend, HDR in *. cbn in *. replace (p + 16 * (ps + bs)) with (bp + 16 * bs) by lia. done.
    + assert ((F1 ++ (p, ps + bs) :: R) ++ A ≡ₚ (p, ps + bs) :: F1 ++ R ++ A) as ->
        by (rewrite <- (assoc_L (++)); cbn; by rewrite <- Permutation_middle).
      apply (blocks_join base h _ p ps bs); [| cbn; by rewrite zupd_eq | | done].
      * assert ((F1 ++ [(p, ps)]) ++ R ++ A ≡ₚ (p, ps) :: F1 ++ R ++ A) as K
          by (rewrite <- (assoc_L (++)); cbn; by rewrite <- Permutation_middle).
        by rewrite E, perm_swap, <- K.
      * intros x Hx. cbn. by rewrite zupd_ne.
    + rewrite !total_app. cbn. unfold total. lia.
    + apply elem_of_cons; right. apply elem_of_app; right. by left.
    + cbn. rewrite zupd_ne; [done |]. unfold HDR in *. lia.
    + done.
    + exists (p, ps + bs). split; [apply elem_of_app; right; by left | cbn; lia].
    + rewrite !length_app. cbn. lia.
  - rewrite (proj2 (Z.eqb_neq _ _) E). set (p := lst base F1.*1) in *.
    assert (p ∈ base :: F1.*1) as Hpin by apply lst_elem.
    exists (F1 ++ (bp, bs) :: R), (set_ptr p bp h). split; [reflexivity |]. rewrite fmap_app. cbn [fmap list_fmap fst]. split_and!.
    + apply path_app. split.
      * apply (path_redirect h _ _ _ q); [done | done | | cbn; by rewrite zupd_eq]. intros x _ Hx. cbn. by rewrite zupd_ne.
      * apply (path_frame h); [| done]. intros x Hx. cbn. rewrite zupd_ne; [done |]. intros ->. by apply (Hdis' p).
    + apply spaced_app. split; [done |]. cbn. split_and!; [| done | done].
      destruct F1 as [|[a sa] F1 _] using rev_ind; [cbn; unfold HDR in *; lia |]. rewrite last_end_snoc in *.
      unfold p in E. rewrite fmap_app in E. cbn [fmap list_fmap fst] in E. rewrite lst_snoc in E.
      assert (hsize h a = sa) as Ha.
      { destruct Hok as [[_ [[_ [H _]%Forall_cons]%Forall_app _]%Forall_app]%Forall_cons _ _]. done. }
      rewrite Ha in E. unfold bend in *. cbn in *. lia.
    + assert ((F1 ++ (bp, bs) :: R) ++ A ≡ₚ (bp, bs) :: F1 ++ R ++ A) as ->
        by (rewrite <- (assoc_L (++)); cbn; by rewrite <- Permutation_middle).
      by apply (blocks_frame _ h).
    + rewrite !total_app. cbn. unfold total. lia.
    + apply elem_of_cons in Hpin as [->|?]; [by left | right]. apply elem_of_app. by left.
    + done.
    + done.
    + exists (bp, bs). split; [apply elem_of_app; right; by left | cbn; lia].
    + rewrite length_app. cbn. lia.
Qed.

(** [free] on a heap in order: it ends, and the block joins the free list. *)
Lemma free_keeps fuel h F A bp sz :
  heap_ok base h F ((bp, sz) :: A) -> (length F < fuel)%nat ->
  exists F' h', free fuel (bp + HDR) h = Ok (tt, h') /\ heap_ok base h' F' A /\ total F' = total F + sz /\
    brk h' = brk h /\ (exists b, b ∈ F' /\ sz <= b.2) /\ (length F' <= S (length F))%nat.
Proof.
  intros [] Hf. assert (F ++ (bp, sz) :: A ≡ₚ (bp, sz) :: F ++ A) as Hperm by (by rewrite <- Permutation_middle).
  rewrite Hperm in k_blocks0. pose proof (blocks_header _ _ _ _ k_blocks0) as Hnb. cbn [fst] in Hnb.
  rewrite fmap_app in Hnb. apply not_elem_of_app in Hnb as [Hnb _].
  destruct (spaced_place _ _ bp k_spaced0 Hnb) as (F1 & F2 & -> & H1 & H2).
  assert (base + HDR <= bp /\ 0 < sz) as [Hbp Hsz] by (by destruct k_blocks0 as [_ [(X & Y & _) _]%Forall_cons _]).
  unfold free. rewrite bind_gets. replace (bp + HDR - HDR) with bp by lia.
  pose proof (find_place_spec fuel bp h F1 F2 (freep h) k_ring0 k_spaced0 ltac:(unfold HDR in *; lia) H1 H2 k_freep0 Hf) as Hfind.
  mrun with Hfind. set (p := lst base F1.*1) in *.
  apply spaced_app in k_spaced0 as [Hs1 Hs2]. destruct k_base0 as (B1 & B2 & B3).
  destruct (join_next_spec h F1 F2 bp sz _ (F1 ++ A) k_ring0 Hs2 H2 ltac:(unfold HDR in *; lia) B3) as
    (bs & R & h1 & Hrun1 & Hframe & Hfp & Hbk & Hpath & Hsp & Hok1 & Htot & Hge & Hlen).
  { revert k_blocks0. rewrite <- (assoc_L (++)). assert (F1 ++ F2 ++ A ≡ₚ F2 ++ F1 ++ A) as -> by (by rewrite !(assoc (++)), (Permutation_app_comm F1)). done. }
  mrun with Hrun1.
  assert (exists q, path h base F1.*1 q) as [q Hq].
  { rewrite fmap_app in k_ring0. destruct F2 as [|b F2]; [rewrite app_nil_r in k_ring0; eauto |]. apply path_app in k_ring0 as [K _]. eauto. }
  assert (forall x, x ∈ base :: F1.*1 -> x <> bp) as Hne.
  { intros x [->|Hx]%elem_of_cons; [unfold HDR in *; lia |]. intros ->. apply Hnb. rewrite fmap_app. apply elem_of_app. by left. }
  assert (last_end (base + HDR - 1) F1 <= bp) as Hle.
  { destruct F1 as [|[a s] F1 _] using rev_ind; [cbn; lia |]. rewrite last_end_snoc. apply Forall_app in H1 as [_ [H1 _]%Forall_cons]. cbn in H1.
    destruct k_blocks0 as [_ _ [K _]]. rewrite <- !(assoc_L (++)) in K. apply Forall_app in K as [_ [K _]%Forall_cons].
    unfold apart_blk, bend, HDR in *. cbn in *. lia. }
  destruct (join_prev_spec h1 F1 R bp bs q A) as (F' & h' & Hrun2 & Hring & Hspc & Hok2 & Htot2 & Hin & Hz & Hbk2 & Hfit & Hlen2); try done.
  { apply (path_frame h); [| done]. intros x Hx. by apply Hframe, Hne. }
  { by rewrite Hbk. }
  { destruct (Hframe base) as [_ ->]; [apply Hne; by left | done]. }
  { revert Hok1. assert (R ++ F1 ++ A ≡ₚ F1 ++ R ++ A) as -> by (by rewrite !(assoc (++)), (Permutation_app_comm R)). done. }
  mrun with Hrun2. exists F', (set_freep p h'). split; [reflexivity |]. split.
  { split; cbn [brk hptr hsize freep set_freep]; try done.
    - rewrite Hbk2, Hbk. done.
    - by apply (path_frame h').
    - by apply (blocks_frame _ h'). }
  split; [rewrite Htot2, total_app; lia |]. split; [cbn; by rewrite Hbk2 |]. split.
  - destruct Hfit as (b & Hb & Hbs). exists b. split; [done | lia].
  - rewrite length_app. unfold blk in *. lia.
Qed.

Lemma heap_nodes h F A : heap_ok base h F A -> NoDup (base :: F.*1).
Proof.
  intros []. pose proof (blocks_NoDup _ _ _ k_blocks0) as H. rewrite fmap_app, app_comm_cons in H. by apply NoDup_app in H as (H & _).
Qed.

Lemma heap_size h F A b : heap_ok base h F A -> b ∈ F -> hsize h b.1 = b.2 /\ 0 < b.2.
Proof.
  intros [] Hb. destruct k_blocks0. rewrite Forall_forall in b_sizes0, b_range0.
  assert (b ∈ F ++ A) as Hin by (apply elem_of_app; by left). specialize (b_range0 b Hin). cbn in *. split; [by apply b_sizes0 | lia].
Qed.

(** Taking [n] units from a free block. *)
Lemma carve_keeps h F A n y x s :
  heap_ok base h F A -> y ∈ base :: F.*1 -> hptr h y = x -> (x, s) ∈ F -> 0 < n <= s ->
  exists a F' h', carve n y x h = Ok (a + HDR, h') /\ heap_ok base h' F' ((a, n) :: A) /\ total F = total F' + n /\
    brk h' = brk h.
Proof.
  intros Hok Hy Hyx Hx Hn. pose proof (heap_nodes h F A Hok) as Hnd. pose proof (heap_size h F A _ Hok Hx) as [Hs _]. cbn [fst snd] in Hs.
  destruct Hok. apply NoDup_cons in Hnd as Hnd'. destruct Hnd' as [Hnb HndF].
  destruct (path_pred h base F.*1 base y x k_ring0 Hnd Hnb Hy Hyx) as (l1 & l2 & El & ->).
  { apply list_elem_of_fmap. by exists (x, s). }
  apply fmap_app_inv in El as (F1 & F2' & -> & E2 & ->). symmetry in E2.
  apply fmap_cons_inv in E2 as ([x' s'] & F2 & Ex & -> & ->). cbn in Ex. subst x'.
  rewrite fmap_app in *. cbn [fmap list_fmap fst] in *. apply path_app in k_ring0 as [Hp1 Hp2].
  assert (s' = s) as ->.
  { apply elem_of_app in Hx as [Hx|Hx].
    - apply NoDup_app in HndF as (_ & Hd & _). exfalso. apply (Hd x); [apply list_elem_of_fmap; by exists (x, s) | by left].
    - apply elem_of_cons in Hx as [Hx|Hx]; [congruence |]. apply NoDup_app in HndF as (_ & _ & [Hd _]%NoDup_cons).
      exfalso. apply Hd, list_elem_of_fmap. by exists (x, s). }
  assert (lst base F1.*1 ∈ base :: F1.*1) as Hpin by apply lst_elem. set (p := lst base F1.*1) in *.
  assert (x ∉ base :: F1.*1) as Hx1.
  { apply not_elem_of_cons. split; [intros ->; apply Hnb; apply elem_of_app; right; by left |].
    apply NoDup_app in HndF as (_ & Hd & _). intros H. apply (Hd x H). by left. }
  assert (F1 ++ (x, s) :: F2 ++ A ≡ₚ (x, s) :: F1 ++ F2 ++ A) as Hperm by (by rewrite <- Permutation_middle).
  rewrite <- (assoc_L (++)) in k_blocks0. cbn [app] in k_blocks0. rewrite Hperm in k_blocks0.
  unfold carve. rewrite bind_gets, Hs. destruct (Z.eqb_spec s n) as [->|Hsn].
  - rewrite bind_assoc, bind_gets, bind_assoc, bind_modify, bind_ret, bind_modify.
    eexists x, (F1 ++ F2), _. split; [reflexivity |]. split; [| split; [rewrite !total_app; cbn; unfold total; lia | done]].
    apply spaced_app in k_spaced0 as [Hs1 (Ha & Hb & Hs2)]. cbn [fst snd] in *.
    split; cbn [brk hptr hsize freep set_freep set_ptr]; try done.
    + rewrite fmap_app. destruct F2 as [|[z zs] F2]; cbn [fmap list_fmap fst] in *.
      * rewrite app_nil_r. apply (path_redirect h _ _ _ x); [done | rewrite app_comm_cons in Hnd; by apply NoDup_app in Hnd as (? & _) | |].
        -- intros w _ Hw. cbn. by rewrite zupd_ne.
        -- cbn. fold p. by rewrite zupd_eq.
      * destruct Hp2 as [Hxz Hp2]. apply path_app. split.
        -- apply (path_redirect h _ _ _ x); [done | rewrite app_comm_cons in Hnd; by apply NoDup_app in Hnd as (? & _) | |].
           ++ intros w _ Hw. cbn. by rewrite zupd_ne.
           ++ cbn. fold p. by rewrite zupd_eq.
        -- apply (path_frame h); [| done]. intros w Hw. cbn. rewrite zupd_ne; [done |]. intros ->.
           rewrite app_comm_cons in Hnd. apply NoDup_app in Hnd as (_ & Hd & _). apply (Hd p Hpin). by right.
    + rewrite fmap_app. apply elem_of_cons in Hpin as [->|Hpin]; [by left | right]. apply elem_of_app. by left.
    + apply spaced_app. split; [done |]. eapply spaced_weaken; [done |]. unfold bend, HDR in *. cbn in *. lia.
    + apply (blocks_frame _ h); [| done | done].
      assert ((F1 ++ F2) ++ (x, n) :: A ≡ₚ (x, n) :: F1 ++ F2 ++ A) as -> by (rewrite <- (assoc_L (++)), <- !Permutation_middle; done). done.
  - rewrite bind_assoc, bind_modify, bind_assoc, bind_modify, bind_ret, bind_modify.
    set (x' := x + HDR * (s - n)). exists x', (F1 ++ (x, s - n) :: F2). eexists. split; [reflexivity |].
    split; [| split; [rewrite !total_app; cbn; unfold total; lia | done]].
    apply spaced_app in k_spaced0 as [Hs1 (Ha & Hb & Hs2)]. cbn [fst snd] in *.
    assert (x' <> x) as Hxx by (unfold x', HDR; lia).
    assert (base <> x /\ base <> x') as [Hbx Hbx'].
    { destruct k_blocks0 as [_ [(K & _) _]%Forall_cons _]. cbn in K. unfold x', HDR in *. lia. }
    split; cbn [brk hptr hsize freep set_freep set_hsize]; try done.
    + rewrite fmap_app. cbn. apply path_app. split; [by apply (path_frame h) | by apply (path_frame h)].
    + rewrite fmap_app. cbn. apply elem_of_cons in Hpin as [->|Hpin]; [by left | right]. apply elem_of_app. by left.
    + by rewrite !zupd_ne.
    + apply spaced_app. split; [done |]. cbn. split_and!; [done | lia |]. eapply spaced_weaken; [done |]. unfold bend, HDR. cbn. lia.
    + assert ((F1 ++ (x, s - n) :: F2) ++ (x', n) :: A ≡ₚ (x, s - n) :: (x', n) :: F1 ++ F2 ++ A) as ->.
      { rewrite <- (assoc_L (++)). cbn [app]. rewrite <- !Permutation_middle. done. }
      apply (blocks_cut base h _ x s n); cbn; try done; [lia | by rewrite zupd_ne, zupd_eq by done | by rewrite zupd_eq |].
      intros w Hw1 Hw2. by rewrite !zupd_ne.
Qed.

(** The system call never gives more than 32-bit addresses. *)
Context (granted_range : forall b n, granted b n = true -> b + n < 2 ^ 32).

Lemma morecore_keeps fuel h F A n :
  heap_ok base h F A -> (length F < fuel)%nat -> 0 < n -> n * HDR < 2 ^ 31 ->
  let nu := Z.max n 4096 in
  if granted (brk h) (nu * HDR) then
    exists F' h', morecore granted fuel n h = Ok (freep h', h') /\ heap_ok base h' F' A /\
      total F' = total F + nu /\ (exists b, b ∈ F' /\ n <= b.2) /\ (length F' <= S (length F))%nat
  else morecore granted fuel n h = Ok (0, h).
Proof.
  intros Hok Hf Hn Hlt nu. unfold morecore. assert ((if n <? 4096 then 4096 else n) = nu) as -> by (unfold nu; destruct (Z.ltb_spec n 4096); lia).
  rewrite i32_small by (unfold nu, HDR in *; lia). destruct (granted (brk h) (nu * HDR)) eqn:Hg.
  - unfold sbrk. rewrite bind_assoc, bind_gets, Hg, bind_assoc, bind_modify, bind_ret. pose proof Hok as [].
    destruct (Z.eqb_spec (brk h) (-1)); [unfold HDR in *; lia |]. rewrite bind_modify.
    set (h1 := set_hsize (brk h) nu (set_brk (brk h + nu * HDR) h)). assert (0 < nu) as Hnu by (unfold nu; lia).
    assert (Forall (fun b : blk => bend b <= brk h) (F ++ A)) as Hend.
    { destruct k_blocks0. eapply Forall_impl; [exact b_range0 |]. cbn. lia. }
    destruct (free_keeps fuel h1 F A (brk h) nu) as (F' & h' & Hrun & Hok' & Htot & _ & Hfit & Hlen); [| done |].
    { split; cbn [brk hptr hsize freep set_hsize set_brk h1]; try done.
      - specialize (granted_range _ _ Hg). unfold HDR in *. lia.
      - by apply (path_frame h).
      - rewrite zupd_ne; [done |]. unfold HDR in *. lia.
      - rewrite <- Permutation_middle. assert (Forall (fun b : blk => b.1 <> brk h) (F ++ A)) as Hne.
        { destruct k_blocks0. rewrite Forall_forall in *. intros b Hb. specialize (b_range0 b Hb). specialize (Hend b Hb).
          unfold bend, HDR in *. cbn in *. lia. }
        assert (blocks_ok base h1 (F ++ A)) as [].
        { apply (blocks_frame _ h); [done | | cbn; unfold HDR; lia]. intros a (b & -> & Hb)%list_elem_of_fmap.
          rewrite Forall_forall in Hne. cbn. rewrite zupd_ne; [done | by apply Hne]. }
        split.
        + constructor; [cbn; by rewrite zupd_eq | done].
        + constructor; [| done]. unfold bend. cbn. lia.
        + split; [| done]. eapply Forall_impl; [exact Hend |]. intros b Hb. right. cbn. done. }
    mrun with Hrun. exists F', h'. split; [done |]. split; [done |]. split; [done |]. split; [| done].
    destruct Hfit as (b & Hb & Hge). exists b. split; [done | unfold nu in *; lia].
  - unfold sbrk. rewrite bind_assoc, bind_gets, Hg, bind_ret. done.
Qed.

(** The first fit after [prev], before the search is back at [freep]. *)
Lemma malloc_walk fuel h F A n prev l :
  heap_ok base h F A -> path h prev l (freep h) -> NoDup (l ++ [freep h]) -> prev ∈ base :: F.*1 ->
  Forall (fun x => x ∈ base :: F.*1) (l ++ [freep h]) -> 0 < n ->
  (exists b, b ∈ F /\ b.1 ∈ l ++ [freep h] /\ n <= b.2) -> (length l <= fuel)%nat ->
  exists y x s, malloc_loop granted fuel n prev (hptr h prev) h = carve n y x h /\
    y ∈ base :: F.*1 /\ hptr h y = x /\ (x, s) ∈ F /\ n <= s.
Proof.
  intros Hok. revert prev fuel. induction l as [|x l IH]; intros prev fuel Hp Hnd Hprev Hall Hn (b & HbF & Hb & Hbn) Hf.
  - cbn in Hp, Hb. apply list_elem_of_singleton in Hb. destruct (heap_size h F A b Hok HbF) as [Hs _].
    exists prev, (freep h), b.2. rewrite Hp. split_and!; [| done | done | rewrite <- Hb; by destruct b | done].
    destruct fuel; cbn [malloc_loop]; rewrite bind_gets, <- Hb, Hs; by destruct (Z.leb_spec n b.2); [| lia].
  - destruct Hp as [Hp1 Hp2]. apply NoDup_cons in Hnd as [Hnx Hnd]. apply Forall_cons in Hall as [Hx Hall].
    destruct fuel as [|f]; [cbn in Hf; lia |]. destruct (Z.leb_spec n (hsize h x)) as [Hle|Hgt].
    + apply elem_of_cons in Hx as [->|Hx]; [destruct Hok; lia |]. apply list_elem_of_fmap in Hx as ([a s] & -> & Hin). cbn [fst] in *.
      destruct (heap_size h F A _ Hok Hin) as [Hs _]. cbn [fst snd] in Hs.
      exists prev, a, s. split_and!; [| done | done | done | lia]. rewrite Hp1. cbn [malloc_loop]. rewrite bind_gets.
      by destruct (Z.leb_spec n (hsize h a)); [| lia].
    + destruct (IH x f Hp2 Hnd Hx Hall Hn) as (y & x' & s & Hrun & H).
      { exists b. split; [done |]. apply elem_of_cons in Hb as [Hb|Hb]; [| done]. exfalso.
        destruct (heap_size h F A b Hok HbF) as [Hs _]. rewrite Hb in Hs. lia. }
      { cbn in Hf. lia. }
      exists y, x', s. split; [| done]. rewrite <- Hrun. rewrite Hp1. cbn [malloc_loop]. rewrite bind_gets.
      destruct (Z.leb_spec n (hsize h x)); [lia |]. rewrite bind_gets. destruct (Z.eqb_spec x (freep h)) as [E|E].
      { exfalso. apply Hnx. rewrite E. apply elem_of_app. right. by left. }
      rewrite bind_ret. cbn [andb]. by rewrite bind_gets.
Qed.

(** No block fits: the search gets to [freep]. *)
Lemma malloc_walk_none fuel h n prev l :
  path h prev l (freep h) -> NoDup (l ++ [freep h]) -> Forall (fun x => hsize h x < n) l -> (length l <= fuel)%nat ->
  exists y, malloc_loop granted fuel n prev (hptr h prev) h = malloc_loop granted (fuel - length l) n y (freep h) h.
Proof.
  revert prev fuel. induction l as [|x l IH]; intros prev fuel Hp Hnd Hs Hf.
  - cbn in Hp. exists prev. rewrite Hp. cbn. by rewrite Nat.sub_0_r.
  - destruct Hp as [Hp1 Hp2]. apply NoDup_cons in Hnd as [Hnx Hnd]. apply Forall_cons in Hs as [Hx Hs].
    destruct fuel as [|f]; [cbn in Hf; lia |]. destruct (IH x f Hp2 Hnd Hs ltac:(cbn in Hf; lia)) as [y Hy].
    exists y. rewrite Hp1. cbn [length Nat.sub]. rewrite <- Hy. cbn [malloc_loop]. rewrite bind_gets.
    destruct (Z.leb_spec n (hsize h x)); [lia |]. rewrite bind_gets. destruct (Z.eqb_spec x (freep h)) as [E|E].
    { exfalso. apply Hnx. rewrite E. apply elem_of_app. right. by left. }
    rewrite bind_ret. cbn [andb]. by rewrite bind_gets.
Qed.

Lemma freep_rotation h F A :
  heap_ok base h F A -> exists l, path h (freep h) l (freep h) /\ NoDup (l ++ [freep h]) /\
    l ++ [freep h] ≡ₚ base :: F.*1 /\ length l = length F.
Proof.
  intros Hok. pose proof (heap_nodes h F A Hok) as Hnd. destruct Hok.
  destruct (ring_rotate h base F.*1 (freep h) k_ring0 k_freep0) as (l & Hp & Hperm). exists l.
  assert (l ++ [freep h] ≡ₚ base :: F.*1) as Hperm' by (rewrite <- Hperm; symmetry; apply Permutation_cons_append).
  split_and!; [done | by rewrite Hperm' | done |]. apply Permutation_length in Hperm. cbn in Hperm. rewrite length_fmap in Hperm. unfold blk in *. lia.
Qed.

(** A fitting block is found from [freep] on. *)
Lemma malloc_fit fuel h F A n :
  heap_ok base h F A -> 0 < n -> (exists b, b ∈ F /\ n <= b.2) -> (length F <= fuel)%nat ->
  exists a F' h', malloc_loop granted fuel n (freep h) (hptr h (freep h)) h = Ok (a + HDR, h') /\
    heap_ok base h' F' ((a, n) :: A) /\ total F = total F' + n.
Proof.
  intros Hok Hn (b & Hb & Hbn) Hf. destruct (freep_rotation h F A Hok) as (l & Hp & Hnd & Hperm & Hlen).
  destruct (malloc_walk fuel h F A n (freep h) l Hok Hp Hnd) as (y & x & s & Hrun & Hy & Hyx & Hx & Hns).
  - by destruct Hok.
  - rewrite Hperm. by apply Forall_forall.
  - done.
  - exists b. split; [done |]. split; [| done]. rewrite Hperm. right. apply list_elem_of_fmap. eauto.
  - lia.
  - destruct (carve_keeps h F A n y x s Hok Hy Hyx Hx ltac:(lia)) as (a & F' & h' & Hc & Hok' & Ht & _).
    exists a, F', h'. by rewrite Hrun.
Qed.

(** The loop from [freep]: it takes a block, from new memory if need be, or fails when the
    system refuses more. *)
Lemma malloc_loop_keeps fuel h F A n :
  heap_ok base h F A -> 0 < n -> n * HDR < 2 ^ 31 -> (2 * length F + 2 < fuel)%nat ->
  (exists a F' h', malloc_loop granted fuel n (freep h) (hptr h (freep h)) h = Ok (a + HDR, h') /\
    heap_ok base h' F' ((a, n) :: A)) \/
  (malloc_loop granted fuel n (freep h) (hptr h (freep h)) h = Ok (0, h) /\
    Forall (fun b => b.2 < n) F /\ granted (brk h) (Z.max n 4096 * HDR) = false).
Proof.
  intros Hok Hn Hlt Hf. destruct (decide (Exists (fun b : blk => n <= b.2) F)) as [Hfit|Hfit].
  { apply Exists_exists in Hfit. left. destruct (malloc_fit fuel h F A n Hok Hn Hfit ltac:(lia)) as (a & F' & h' & H1 & H2 & _).
    by exists a, F', h'. }
  assert (Forall (fun b : blk => b.2 < n) F) as Hsmall.
  { apply not_Exists_Forall in Hfit; [| intros b; apply _]. eapply Forall_impl; [exact Hfit |]. cbn. lia. }
  destruct (freep_rotation h F A Hok) as (l & Hp & Hnd & Hperm & Hlen).
  assert (Forall (fun x => hsize h x < n) (l ++ [freep h])) as Hall.
  { rewrite Hperm. constructor; [destruct Hok; lia |]. apply Forall_fmap, Forall_forall. intros b Hb. cbn.
    destruct (heap_size h F A b Hok Hb) as [-> _]. rewrite Forall_forall in Hsmall. by apply Hsmall. }
  apply Forall_app in Hall as [Hl [Hfp _]%Forall_cons].
  destruct (malloc_walk_none fuel h n (freep h) l Hp Hnd Hl ltac:(lia)) as [y Hy]. rewrite Hy.
  destruct (fuel - length l)%nat as [|f] eqn:Ef; [lia |]. cbn [malloc_loop]. rewrite bind_gets.
  destruct (Z.leb_spec n (hsize h (freep h))); [lia |]. rewrite bind_gets, Z.eqb_refl. cbn [andb].
  pose proof (morecore_keeps (S f) h F A n Hok ltac:(lia) Hn Hlt) as Hm. cbn zeta in Hm.
  destruct (granted (brk h) (Z.max n 4096 * HDR)) eqn:Hg.
  - left. destruct Hm as (F' & h' & Hrun & Hok' & _ & Hfit' & Hlen'). mrun with Hrun.
    assert (freep h' <> 0) as Hz.
    { destruct Hok'. apply elem_of_cons in k_freep0 as [->|Hin]; [lia |]. apply list_elem_of_fmap in Hin as (b & -> & Hb).
      destruct k_blocks0. rewrite Forall_forall in b_range0. assert (b ∈ F' ++ A) as Hin by (apply elem_of_app; by left).
      specialize (b_range0 b Hin). cbn in b_range0. unfold HDR in *. lia. }
    destruct (Z.eqb_spec (freep h') 0); [done |]. rewrite bind_gets.
    destruct (malloc_fit f h' F' A n Hok' Hn Hfit' ltac:(lia)) as (a & F2 & h2 & H1 & H2 & _). by exists a, F2, h2.
  - right. mrun with Hm. done.
Qed.

(** The heap before the first [malloc]. *)
Definition fresh (h : heap) : Prop := freep h = 0 /\ 0 < base /\ base + HDR <= brk h /\ brk h < 2 ^ 32.

(** ** Properties *)

(** C26: [malloc] of fewer than 2 GB on a heap in order, or on its first call, ends and gives a block that is
    large enough, inside the heap and disjoint from all free blocks and all blocks in use,
    and leaves a heap in order; it returns 0 only when no free block fits and
    [sbrk] refuses. *)
Theorem malloc_spec (fuel : nat) (h : heap) (F A : list blk) (nbytes : Z)
    (Hok : heap_ok base h F A \/ (fresh h /\ F = [] /\ A = []))
    (Hn : 0 <= nbytes <= 2 ^ 31 - 64) (Hf : (2 * length F + 2 < fuel)%nat) :
  (exists a F' h', malloc base granted fuel nbytes h = Ok (a + HDR, h') /\
    heap_ok base h' F' ((a, units nbytes) :: A) /\ nbytes <= HDR * (units nbytes - 1)) \/
  (exists h', malloc base granted fuel nbytes h = Ok (0, h') /\ heap_ok base h' F A /\
    Forall (fun b => b.2 < units nbytes) F /\ granted (brk h) (Z.max (units nbytes) 4096 * HDR) = false).
Proof.
  assert (units nbytes = (nbytes + HDR - 1) / HDR + 1) as Hu.
  { unfold units. apply u32_small. unfold HDR. pose proof (Z.div_mod (nbytes + 16 - 1) 16). pose proof (Z.mod_pos_bound (nbytes + 16 - 1) 16). lia. }
  assert (nbytes <= HDR * (units nbytes - 1) /\ 0 < units nbytes /\ units nbytes * HDR < 2 ^ 31) as (Hfit & Hpos & Hlt).
  { rewrite Hu. unfold HDR. pose proof (Z.div_mod (nbytes + 16 - 1) 16). pose proof (Z.mod_pos_bound (nbytes + 16 - 1) 16). lia. }
  unfold malloc. rewrite bind_gets. destruct Hok as [Hok|((Hz & Hb) & -> & ->)].
  - assert (freep h <> 0) as Hne.
    { destruct Hok. apply elem_of_cons in k_freep0 as [->|Hin]; [lia |]. apply list_elem_of_fmap in Hin as (b & -> & Hin).
      destruct k_blocks0. rewrite Forall_app in b_range0. destruct b_range0 as [R _]. rewrite Forall_forall in R.
      specialize (R b Hin). cbn in R. unfold HDR in *. lia. }
    destruct (Z.eqb_spec (freep h) 0); [done |]. rewrite bind_ret, bind_gets.
    destruct (malloc_loop_keeps fuel h F A (units nbytes) Hok Hpos Hlt Hf) as [(a & F' & h' & H1 & H2)|(H1 & H2 & H3)].
    + left. by exists a, F', h'.
    + right. by exists h.
  - rewrite Hz. cbn [Z.eqb]. rewrite bind_assoc, bind_modify, bind_assoc, bind_modify, bind_assoc, bind_modify, bind_ret, bind_gets.
    set (h0 := set_hsize base 0 (set_ptr base base (set_freep base h))).
    assert (heap_ok base h0 [] []) as Hok0.
    { split; cbn; try done; [by rewrite zupd_eq | by left | by rewrite zupd_eq]. }
    change base with (freep h0) at 2 3.
    destruct (malloc_loop_keeps fuel h0 [] [] (units nbytes) Hok0 Hpos Hlt Hf) as [(a & F' & h' & H1 & H2)|(H1 & H2 & H3)].
    + left. by exists a, F', h'.
    + right. by exists h0.
Qed.

(** C27: [free] of a block in use ends and puts all of it back: the free list stays in order of
    address with neighbours joined, its total grows by the size of the block, and the other
    blocks in use are untouched. *)
Theorem free_spec (fuel : nat) (h : heap) (F A : list blk) (a n : Z)
    (Hok : heap_ok base h F ((a, n) :: A)) (Hf : (length F < fuel)%nat) :
  exists F' h', free fuel (a + HDR) h = Ok (tt, h') /\ heap_ok base h' F' A /\ total F' = total F + n.
Proof. destruct (free_keeps fuel h F A a n Hok Hf) as (F' & h' & H1 & H2 & H3 & _). by exists F', h'. Qed.

End Theory.

(** ** Witnesses *)

(** A machine with 128 MB for the program. *)
Definition ram (b n : Z) : bool := b + n <? 2 ^ 27.
Definition fresh_heap : heap := mkheap (fun _ => 0) (fun _ => 0) 0 8192.

Lemma ram_range b n : ram b n = true -> b + n < 2 ^ 32.
Proof. unfold ram. intros H%Z.ltb_lt. lia. Qed.

Lemma malloc_spec_witness :
  exists a F' h', malloc 4096 ram 4 100 fresh_heap = Ok (a + HDR, h') /\ heap_ok 4096 h' F' [(a, 8)].
Proof.
  destruct (malloc_spec 4096 ram ram_range 4 fresh_heap [] [] 100) as [(a & F' & h' & H1 & H2 & _)|(h' & H1 & _)].
  - right. by repeat split.
  - lia.
  - cbn. lia.
  - exists a, F', h'. split; [exact H1 | exact H2].
  - exfalso. apply (f_equal value) in H1. by vm_compute in H1.
Defined.

(** A heap with two blocks in use around a free one. *)
Definition small_heap : heap :=
  mkheap (zupd (zupd (fun _ => 0) 4096 8256) 8256 4096) (zupd (zupd (zupd (fun _ => 0) 8192 4) 8256 2) 8288 6) 4096 12288.

Lemma small_heap_ok : heap_ok 4096 small_heap [(8256, 2)] [(8288, 6); (8192, 4)].
Proof.
  split; cbn; try done.
  - by left.
  - split; cbn; [by repeat constructor | | ].
    + unfold bend, HDR. repeat constructor; cbn; lia.
    + unfold apart_blk, bend, HDR. repeat constructor; cbn; lia.
Qed.

Lemma free_spec_witness :
  exists F' h', free 2 (8288 + HDR) small_heap = Ok (tt, h') /\ heap_ok 4096 h' F' [(8192, 4)] /\ total F' = 8.
Proof.
  destruct (free_spec 4096 2 small_heap [(8256, 2)] [(8192, 4)] 8288 6 small_heap_ok ltac:(cbn; lia)) as (F' & h' & H1 & H2 & H3).
  exists F', h'. split; [exact H1 |]. split; [exact H2 | exact H3].
Defined.

(** [malloc] of 4294967280 bytes asks [sbrk] for 0 bytes (the size in bytes does not fit an [int]) and
    hands out memory that is not there. *)
Example malloc_huge :
  i32 (units 4294967280 * HDR) = 0 /\
  value (malloc 4096 ram 8 4294967280 fresh_heap) = Some (8192 + HDR).
Proof. split; vm_compute; reflexivity. Qed.
