(* ===== verification/Sh.v ===== *)
(** * Sh: the parser of the shell, [user/sh.c]

    A pointer into the command line is the rest of the line from there on; the character at its
    end is 0.  The parser's state [*ps] is such a rest, and [panic], which ends the shell's
    child, is [Panic].  A token is its start, as the length of the rest there, and its text; its end is
    the [eargv] or [efile] of the code.  The C code stores arguments in an [execcmd] that may already
    be wrapped in redirections: here the redirections found on the way are collected and put
    around it at the end.

    Shown: the parser ends on every line; every command tree can be written as a line that is
    parsed back to it; [nulterminate] turns each token into the C string of its text. *)

From stdpp Require Import base list strings.
From Stdlib Require Import ZArith Lia.
From S2P Require Import Prelude Fcntl.

(** ** Data *)

Record token : Type := mktok { qrem : nat; text : list Z }.

Inductive cmd (T : Type) : Type :=
  | Exec (argv : list T)
  | Redir (c : cmd T) (file : T) (mode fd : Z)
  | PipeC (left right : cmd T)
  | ListC (left right : cmd T)
  | Back (c : cmd T).
Arguments Exec {T}. Arguments Redir {T}. Arguments PipeC {T}. Arguments ListC {T}. Arguments Back {T}.

Definition MAXARGS : nat := 10.

(** A redirection before it is put around a command: file, mode, descriptor. *)
Definition redir (T : Type) : Type := T * Z * Z.

Definition wrap {T} (rs : list (redir T)) (c : cmd T) : cmd T :=
  foldl (fun c r => Redir c r.1.1 r.1.2 r.2) c rs.

(** Characters. *)
Definition BAR : Z := 124.
Definition LPAR : Z := 40.
Definition RPAR : Z := 41.
Definition SEMI : Z := 59.
Definition AMP : Z := 38.
Definition LT : Z := 60.
Definition GT : Z := 62.
Definition PLUS : Z := 43.
Definition WORD : Z := 97.

Definition whitespace : list Z := [32; 9; 13; 10; 11].
Definition symbols : list Z := [LT; BAR; GT; AMP; SEMI; LPAR; RPAR].

(** ** Code: tokens *)

(** [strchr(l, c)] as a condition. *)
Definition among (l : list Z) (c : Z) : bool := bool_decide (c ∈ l).

Fixpoint skip (s : list Z) : list Z :=
  match s with
  | c :: s' => if among whitespace c then skip s' else s
  | [] => []
  end.

Definition word_char (c : Z) : bool := negb (among whitespace c) && negb (among symbols c).

(** The word at the start of [s] and what follows it. *)
Fixpoint word (s : list Z) : list Z * list Z :=
  match s with
  | c :: s' => if word_char c then let '(w, r) := word s' in (c :: w, r) else ([], s)
  | [] => ([], [])
  end.

Definition gettoken : M (list Z) (Z * token) :=
  let! s0 := gets (fun s => s) in
  let s := skip s0 in
  let c := hd 0 s in
  let '(r, txt, s') :=
    if c =? 0 then (0, [], s)
    else if among [BAR; LPAR; RPAR; SEMI; AMP; LT] c then (c, [c], tail s)
    else if c =? GT then
      if hd 0 (tail s) =? GT then (PLUS, [GT; GT], tail (tail s)) else (GT, [GT], tail s)
    else let '(w, s') := word s in (WORD, w, s') in
  do! modify (fun _ => skip s') in
  ret (r, mktok (length s) txt).

Definition peek (toks : list Z) : M (list Z) bool :=
  do! modify skip in
  let! s := gets (fun s => s) in
  ret (negb (hd 0 s =? 0) && among toks (hd 0 s)).

(** ** Code: the grammar *)

(** [parseredirs]: the redirections it puts around its argument, innermost first. *)
Fixpoint parseredirs (fuel : nat) : M (list Z) (list (redir token)) :=
  match fuel with
  | O => diverge
  | S f =>
      let! more := peek [LT; GT] in
      if negb more then ret [] else
      let! t := gettoken in
      let! a := gettoken in
      if negb (a.1 =? WORD) then panic "missing file for redirection" else
      let here :=
        if t.1 =? LT then [(a.2, O_RDONLY, 0)]
        else if t.1 =? GT then [(a.2, Z.lor (Z.lor O_WRONLY O_CREATE) O_TRUNC, 1)]
        else if t.1 =? PLUS then [(a.2, Z.lor O_WRONLY O_CREATE, 1)]
        else [] in
      let! rest := parseredirs f in
      ret (here ++ rest)
  end.

(** The loop of [parseexec]: arguments so far and redirections so far. *)
Fixpoint parseargs (fuel : nat) (argv : list token) (rs : list (redir token)) :
    M (list Z) (list token * list (redir token)) :=
  match fuel with
  | O => diverge
  | S f =>
      let! stop := peek [BAR; RPAR; AMP; SEMI] in
      if (stop : bool) then ret (argv, rs) else
      let! t := gettoken in
      if t.1 =? 0 then ret (argv, rs) else
      if negb (t.1 =? WORD) then panic "syntax" else
      let argv' := argv ++ [t.2] in
      if (MAXARGS <=? length argv')%nat then panic "too many args" else
      let! n := gets length in
      let! more := parseredirs (S n) in
      parseargs f argv' (rs ++ more)
  end.

(** The loop of [parseline] over the ampersands. *)
Fixpoint parsebacks (fuel : nat) (c : cmd token) : M (list Z) (cmd token) :=
  match fuel with
  | O => diverge
  | S f =>
      let! more := peek [AMP] in
      if negb more then ret c else
      do! gettoken in
      parsebacks f (Back c)
  end.

Fixpoint parseline (fuel : nat) : M (list Z) (cmd token) :=
  match fuel with
  | O => diverge
  | S f =>
      let! c := parsepipe f in
      let! n := gets length in
      let! c := parsebacks (S n) c in
      let! semi := peek [SEMI] in
      if (semi : bool) then
        do! gettoken in
        let! r := parseline f in
        ret (ListC c r)
      else ret c
  end
with parsepipe (fuel : nat) : M (list Z) (cmd token) :=
  match fuel with
  | O => diverge
  | S f =>
      let! c := parseexec f in
      let! bar := peek [BAR] in
      if (bar : bool) then
        do! gettoken in
        let! r := parsepipe f in
        ret (PipeC c r)
      else ret c
  end
with parseexec (fuel : nat) : M (list Z) (cmd token) :=
  match fuel with
  | O => diverge
  | S f =>
      let! block := peek [LPAR] in
      if (block : bool) then parseblock f else
      let! n := gets length in
      let! rs := parseredirs (S n) in
      let! m := gets length in
      let! r := parseargs (S m) [] rs in
      ret (wrap r.2 (Exec r.1))
  end
with parseblock (fuel : nat) : M (list Z) (cmd token) :=
  match fuel with
  | O => diverge
  | S f =>
      let! open := peek [LPAR] in
      if negb open then panic "parseblock" else
      do! gettoken in
      let! c := parseline f in
      let! close := peek [RPAR] in
      if negb close then panic "syntax - missing )" else
      do! gettoken in
      let! n := gets length in
      let! rs := parseredirs (S n) in
      ret (wrap rs c)
  end.

(** Four calls per character of nesting, and the last round. *)
Definition parse_fuel (s : list Z) : nat := 4 * length s + 4.

(** [parsecmd] up to [nulterminate]. *)
Definition parse : M (list Z) (cmd token) :=
  let! s := gets (fun s => s) in
  let! c := parseline (parse_fuel s) in
  do! peek [] in
  let! rest := gets (fun s => s) in
  match rest with
  | [] => ret c
  | _ => panic "syntax"
  end.

(** [*eq = 0] for a token of a line of [n] characters. *)
Definition end_at (n : nat) (t : token) : nat := (n - qrem t + length (text t))%nat.

Fixpoint nulterminate (n : nat) (c : cmd token) (buf : list Z) : list Z :=
  match c with
  | Exec argv => foldl (fun b t => <[end_at n t := 0]> b) buf argv
  | Redir c' file _ _ => <[end_at n file := 0]> (nulterminate n c' buf)
  | PipeC l r => nulterminate n r (nulterminate n l buf)
  | ListC l r => nulterminate n r (nulterminate n l buf)
  | Back c' => nulterminate n c' buf
  end.

(** [parsecmd] on the line [s]: the command and the buffer with its 0s. *)
Definition parsecmd (s : list Z) : outcome (cmd token * list Z) :=
  match parse s with
  | Ok (c, _) => Ok (c, nulterminate (length s) c (s ++ [0]))
  | Panic msg => Panic msg
  | Diverge => Diverge
  end.

(** ** Lemmas: runs of the parser *)

Definition suffix_of (s buf : list Z) : Prop := exists pre, buf = pre ++ s.

(** The token is a maximal word of the line. *)
Definition tok_ok (buf : list Z) (t : token) : Prop :=
  exists pre post, buf = pre ++ text t ++ post /\ qrem t = length (text t ++ post) /\
    Forall (fun c => word_char c = true) (text t) /\ match post with c :: _ => word_char c = false | [] => True end.

(** The tokens of a command. *)
Fixpoint toks {T} (c : cmd T) : list T :=
  match c with
  | Exec argv => argv
  | Redir c' file _ _ => toks c' ++ [file]
  | PipeC l r => toks l ++ toks r
  | ListC l r => toks l ++ toks r
  | Back c' => toks c'
  end.

(** The run from [s] ends with a rest of the line no longer than [s], or in [panic]. *)
Definition good {A} (buf s : list Z) (o : outcome (A * list Z)) (P : A -> list Z -> Prop) : Prop :=
  match o with
  | Ok (a, s') => suffix_of s' buf /\ (length s' <= length s)%nat /\ P a s'
  | Panic _ => True
  | Diverge => False
  end.

Lemma good_bind {A B} buf s (m : M (list Z) A) (k : A -> M (list Z) B) (P : A -> list Z -> Prop) (R : B -> list Z -> Prop) :
  good buf s (m s) P ->
  (forall a s', suffix_of s' buf -> (length s' <= length s)%nat -> P a s' -> good buf s' (k a s') R) ->
  good buf s (bind m k s) R.
Proof.
  intros Hm Hk. unfold bind. destruct (m s) as [[a s']| |]; [| done..]. destruct Hm as (H1 & H2 & H3).
  specialize (Hk a s' H1 H2 H3). destruct (k a s') as [[b s'']| |]; [| done..]. destruct Hk as (K1 & K2 & K3).
  split_and!; [done | lia | done].
Qed.

Lemma good_ret {A} buf s (a : A) (P : A -> list Z -> Prop) : suffix_of s buf -> P a s -> good buf s (ret a s) P.
Proof. done. Qed.

Lemma skip_suffix s : exists pre, s = pre ++ skip s.
Proof.
  induction s as [|c s IH]; [by exists [] |]. cbn [skip]. destruct (among whitespace c); [| by exists []].
  destruct IH as [pre IH]. exists (c :: pre). cbn. by rewrite <- IH.
Qed.

Lemma skip_skip s : skip (skip s) = skip s.
Proof. induction s as [|c s IH]; [done |]. cbn [skip]. destruct (among whitespace c) eqn:E; [done |]. cbn [skip]. by rewrite E. Qed.

Lemma suffix_skip s buf : suffix_of s buf -> suffix_of (skip s) buf /\ (length (skip s) <= length s)%nat.
Proof.
  intros [pre ->]. destruct (skip_suffix s) as [p E]. split.
  - exists (pre ++ p). by rewrite <- (assoc_L (++)), <- E.
  - rewrite E at 2. rewrite length_app. lia.
Qed.

Lemma suffix_tail s buf : suffix_of s buf -> suffix_of (tail s) buf.
Proof. intros [pre ->]. destruct s as [|c s]; [by exists pre |]. exists (pre ++ [c]). cbn. by rewrite <- (assoc_L (++)). Qed.

Lemma word_split s :
  exists w r, word s = (w, r) /\ s = w ++ r /\ Forall (fun c => word_char c = true) w /\
    match r with c :: _ => word_char c = false | [] => True end.
Proof.
  induction s as [|c s IH]; [by exists [], [] |]. cbn [word]. destruct (word_char c) eqn:E.
  - destruct IH as (w & r & -> & -> & H1 & H2). exists (c :: w), r. split_and!; [done | done | by constructor | done].
  - exists [], (c :: s). by split_and!.
Qed.

Lemma skip_head s c k : skip s = c :: k -> among whitespace c = false.
Proof.
  induction s as [|x s IH]; [done |]. cbn [skip]. destruct (among whitespace x) eqn:E; [done |]. intros [= -> _]. done.
Qed.

Lemma symbol_cases c : among [BAR; LPAR; RPAR; SEMI; AMP; LT] c = false -> c <> GT -> among symbols c = false.
Proof.
  unfold among, symbols. intros H1%bool_decide_eq_false H2. apply bool_decide_eq_false. intros H. apply H1.
  rewrite !elem_of_cons, elem_of_nil in *. tauto.
Qed.

Lemma gettoken_good buf s :
  suffix_of s buf ->
  good buf s (gettoken s) (fun rt s' => (rt.1 = WORD -> tok_ok buf rt.2) /\ (hd 0 (skip s) <> 0 -> (length s' < length s)%nat)).
Proof.
  intros Hs. destruct (suffix_skip s buf Hs) as [Hk Hkl]. unfold gettoken. rewrite bind_gets.
  set (k := skip s) in *. set (c := hd 0 k).
  assert (forall k', suffix_of k' buf -> (length k' <= length k)%nat -> suffix_of (skip k') buf /\ (length (skip k') <= length k)%nat) as Hskip.
  { intros k' H1 H2. destruct (suffix_skip k' buf H1). split; [done | lia]. }
  assert (c <> 0 -> exists k1, k = c :: k1) as Hcons by (unfold c; destruct k; [done | by eexists]).
  destruct (Z.eqb_spec c 0) as [Hc|Hc].
  { rewrite bind_modify. destruct (Hskip k Hk ltac:(lia)) as [H1 H2]. split; [done |]. split; [lia |]. split; [done |]. by intros ?. }
  destruct (Hcons Hc) as [k1 Ek]. clear Hcons. pose proof (suffix_tail _ _ Hk) as Hk1. rewrite Ek in Hkl, Hk1, Hskip |- *. cbn [tail length] in *.
  destruct (among [BAR; LPAR; RPAR; SEMI; AMP; LT] c) eqn:Ea.
  { rewrite bind_modify. destruct (Hskip k1 Hk1 ltac:(lia)) as [H1 H2]. pose proof (suffix_skip k1 buf Hk1) as [_ H3].
    split; [done |]. split; [cbn in *; lia |]. cbn [fst snd]. split; [| lia].
    intros ->. by vm_compute in Ea. }
  destruct (c =? GT) eqn:Egt.
  { pose proof (suffix_tail _ _ Hk1) as Hk2. destruct (hd 0 k1 =? GT).
    - rewrite bind_modify. pose proof (suffix_skip _ buf Hk2) as [H2 H3].
      assert (length (tail k1) <= length k1)%nat by (destruct k1; cbn; lia). split; [done |]. split; [lia |]. by split; [| lia].
    - rewrite bind_modify. pose proof (suffix_skip _ buf Hk1) as [H2 H3]. split; [done |]. split; [lia |]. by split; [| lia]. }
  destruct (word_split (c :: k1)) as (w & r & Hw & Ew & Hall & Hr). rewrite Hw, bind_modify.
  assert (suffix_of r buf) as Hrs.
  { rewrite Ek in Hk. destruct Hk as [pre ->]. exists (pre ++ w). by rewrite Ew, (assoc_L (++)). }
  pose proof (suffix_skip r buf Hrs) as [H2 H3]. pose proof (f_equal length Ew) as El. rewrite length_app in El. cbn [length] in El.
  split; [done |]. split; [lia |]. cbn [fst snd]. split.
  - intros _. rewrite Ek in Hk. destruct Hk as [pre ->]. exists pre, r. cbn [text qrem]. rewrite <- Ew. done.
  - intros _. destruct w as [|x w]; [| cbn in El; lia]. cbn in Ew. exfalso. destruct r as [|y r]; [done |]. injection Ew as -> ->.
    apply andb_false_iff in Hr as [Hr|Hr]; apply negb_false_iff in Hr.
    + by rewrite (skip_head s y r Ek) in Hr.
    + apply Z.eqb_neq in Egt. by rewrite (symbol_cases y Ea Egt) in Hr.
Qed.

Lemma peek_good buf s l :
  suffix_of s buf ->
  good buf s (peek l s) (fun b s' => s' = skip s /\ b = negb (hd 0 (skip s) =? 0) && among l (hd 0 (skip s))).
Proof. intros Hs. unfold peek. rewrite bind_modify, bind_gets. pose proof (suffix_skip s buf Hs) as [H1 H2]. by split_and!. Qed.

(** After [peek] has seen a character, [gettoken] takes it. *)
Lemma gettoken_after_peek buf s l :
  suffix_of s buf -> true = negb (hd 0 (skip s) =? 0) && among l (hd 0 (skip s)) ->
  good buf (skip s) (gettoken (skip s)) (fun rt s' => (rt.1 = WORD -> tok_ok buf rt.2) /\ (length s' < length (skip s))%nat).
Proof.
  intros Hs Hb. pose proof (suffix_skip s buf Hs) as [H1 _]. pose proof (gettoken_good buf (skip s) H1) as H. rewrite skip_skip in H.
  destruct (gettoken (skip s)) as [[rt s']| |]; [| done..]. destruct H as (A & B & C & E). split_and!; [done | done | done |].
  apply E. symmetry in Hb. apply andb_true_iff in Hb as [Hb _]. apply negb_true_iff, Z.eqb_neq in Hb. done.
Qed.

Lemma parseredirs_good fuel buf s :
  suffix_of s buf -> (length s < fuel)%nat ->
  good buf s (parseredirs fuel s) (fun rs _ => Forall (fun r => tok_ok buf r.1.1) rs).
Proof.
  revert s. induction fuel as [|f IH]; intros s Hs Hf; [lia |]. cbn [parseredirs].
  eapply good_bind; [by apply peek_good |]. intros b s1 Hs1 Hl1 [-> Hb]. destruct b; cbn [negb].
  2: { by apply good_ret. }
  eapply good_bind; [by eapply gettoken_after_peek |]. intros t s2 Hs2 Hl2 [_ Hlt].
  eapply good_bind; [by apply gettoken_good |]. intros a s3 Hs3 Hl3 [Ha _].
  destruct (Z.eqb_spec a.1 WORD) as [Ew|]; cbn [negb]; [| done].
  eapply good_bind; [apply IH; [done | lia] |]. intros rest s4 Hs4 Hl4 Hrest. apply good_ret; [done |].
  apply Forall_app. split; [| done]. destruct (t.1 =? LT), (t.1 =? GT), (t.1 =? PLUS); repeat constructor; by apply Ha.
Qed.

Lemma parseargs_good fuel buf s argv rs :
  suffix_of s buf -> (length s < fuel)%nat -> Forall (tok_ok buf) argv -> Forall (fun r => tok_ok buf r.1.1) rs ->
  good buf s (parseargs fuel argv rs s) (fun r _ => Forall (tok_ok buf) r.1 /\ Forall (fun r => tok_ok buf r.1.1) r.2).
Proof.
  revert s argv rs. induction fuel as [|f IH]; intros s argv rs Hs Hf Ha Hr; [lia |]. cbn [parseargs].
  eapply good_bind; [by apply peek_good |]. intros b s1 Hs1 Hl1 [-> Hb]. destruct b; [by apply good_ret |].
  destruct (Z.eqb_spec (hd 0 (skip s)) 0) as [Hz|Hz].
  - (* the end of the line *)
    unfold gettoken. rewrite bind_assoc, bind_gets. rewrite skip_skip, Hz. cbn [Z.eqb]. rewrite bind_assoc, bind_modify, bind_ret.
    cbn [fst Z.eqb]. rewrite skip_skip. by apply good_ret.
  - eapply good_bind; [by apply gettoken_good |]. intros t s2 Hs2 Hl2 [Ht Hlt]. rewrite skip_skip in Hlt. specialize (Hlt Hz).
    destruct (t.1 =? 0); [by apply good_ret |]. destruct (Z.eqb_spec t.1 WORD) as [Ew|]; cbn [negb]; [| done].
    destruct (MAXARGS <=? length (argv ++ [t.2]))%nat; [done |]. rewrite bind_gets.
    eapply good_bind; [apply parseredirs_good; [done | lia] |]. intros more s3 Hs3 Hl3 Hmore.
    apply IH; [done | lia | |]; apply Forall_app; (split; [done |]); [constructor; auto | done].
Qed.

Lemma parsebacks_good fuel buf s c :
  suffix_of s buf -> (length s < fuel)%nat -> Forall (tok_ok buf) (toks c) ->
  good buf s (parsebacks fuel c s) (fun c' _ => Forall (tok_ok buf) (toks c')).
Proof.
  revert s c. induction fuel as [|f IH]; intros s c Hs Hf Hc; [lia |]. cbn [parsebacks].
  eapply good_bind; [by apply peek_good |]. intros b s1 Hs1 Hl1 [-> Hb]. destruct b; cbn [negb]; [| by apply good_ret].
  eapply good_bind; [by eapply gettoken_after_peek |]. intros t s2 Hs2 Hl2 [_ Hlt]. apply IH; [done | lia | done].
Qed.

Lemma toks_wrap {T} (rs : list (redir T)) (c : cmd T) : toks (wrap rs c) = toks c ++ ((fun r => r.1.1) <$> rs).
Proof.
  revert c. induction rs as [|r rs IH]; intros c; [cbn; by rewrite app_nil_r |].
  change (wrap (r :: rs) c) with (wrap rs (Redir c r.1.1 r.1.2 r.2)). rewrite IH. cbn. by rewrite <- (assoc_L (++)).
Qed.

Lemma wrap_ok buf rs c :
  Forall (tok_ok buf) (toks c) -> Forall (fun r => tok_ok buf r.1.1) rs -> Forall (tok_ok buf) (toks (wrap rs c)).
Proof. intros H1 H2. rewrite toks_wrap. apply Forall_app. split; [done | by apply Forall_fmap]. Qed.

(** The four functions of the grammar end and deliver words of the line. *)
Lemma grammar_good fuel :
  let ok buf s o := good buf s o (fun c _ => Forall (tok_ok buf) (toks c)) in
  (forall buf s, suffix_of s buf -> (4 * length s + 4 <= fuel)%nat -> ok buf s (parseline fuel s)) /\
  (forall buf s, suffix_of s buf -> (4 * length s + 3 <= fuel)%nat -> ok buf s (parsepipe fuel s)) /\
  (forall buf s, suffix_of s buf -> (4 * length s + 2 <= fuel)%nat -> ok buf s (parseexec fuel s)) /\
  (forall buf s, suffix_of s buf -> (4 * length s + 1 <= fuel)%nat -> ok buf s (parseblock fuel s)).
Proof.
  induction fuel as [|f IH]; cbn zeta; [split_and!; intros; lia |]. destruct IH as (IHl & IHp & IHe & IHb).
  split_and!; intros buf s Hs Hf; cbn [parseline parsepipe parseexec parseblock].
  - eapply good_bind; [apply IHp; [done | lia] |]. intros c s1 Hs1 Hl1 Hc. rewrite bind_gets.
    eapply good_bind; [apply parsebacks_good; [done | lia | done] |]. intros c2 s2 Hs2 Hl2 Hc2.
    eapply good_bind; [by apply peek_good |]. intros b s3 Hs3 Hl3 [-> Hb]. destruct b; [| by apply good_ret].
    eapply good_bind; [by eapply gettoken_after_peek |]. intros t s4 Hs4 Hl4 [_ Hlt].
    eapply good_bind; [apply IHl; [done | lia] |]. intros r s5 Hs5 Hl5 Hr. apply good_ret; [done |]. by apply Forall_app.
  - eapply good_bind; [apply IHe; [done | lia] |]. intros c s1 Hs1 Hl1 Hc.
    eapply good_bind; [by apply peek_good |]. intros b s3 Hs3 Hl3 [-> Hb]. destruct b; [| by apply good_ret].
    eapply good_bind; [by eapply gettoken_after_peek |]. intros t s4 Hs4 Hl4 [_ Hlt].
    eapply good_bind; [apply IHp; [done | lia] |]. intros r s5 Hs5 Hl5 Hr. apply good_ret; [done |]. by apply Forall_app.
  - eapply good_bind; [by apply peek_good |]. intros b s1 Hs1 Hl1 [-> Hb]. destruct b; [apply IHb; [done | lia] |]. rewrite bind_gets.
    eapply good_bind; [apply parseredirs_good; [done | lia] |]. intros rs s2 Hs2 Hl2 Hrs. rewrite bind_gets.
    eapply good_bind; [apply parseargs_good; [done | lia | done | done] |]. intros r s3 Hs3 Hl3 [Hr1 Hr2]. apply good_ret; [done |]. by apply wrap_ok.
  - eapply good_bind; [by apply peek_good |]. intros b s1 Hs1 Hl1 [-> Hb]. destruct b; cbn [negb]; [| done].
    eapply good_bind; [by eapply gettoken_after_peek |]. intros t s2 Hs2 Hl2 [_ Hlt].
    eapply good_bind; [apply IHl; [done | lia] |]. intros c s3 Hs3 Hl3 Hc.
    eapply good_bind; [by apply peek_good |]. intros b s4 Hs4 Hl4 [-> Hb2]. destruct b; cbn [negb]; [| done].
    eapply good_bind; [by eapply gettoken_after_peek |]. intros t2 s5 Hs5 Hl5 [_ Hlt5]. rewrite bind_gets.
    eapply good_bind; [apply parseredirs_good; [done | lia] |]. intros rs s6 Hs6 Hl6 Hrs. apply good_ret; [done |]. by apply wrap_ok.
Qed.

(** ** Lemmas: the 0s of [nulterminate] *)

Lemma zero_at_end (b : list Z) ts n :
  let b' := foldl (fun b t => <[end_at n t := 0]> b) b ts in
  length b' = length b /\
  (forall i, (forall t, t ∈ ts -> end_at n t <> i) -> b' !! i = b !! i) /\
  (forall i, b !! i = Some 0 -> b' !! i = Some 0) /\
  (forall t, t ∈ ts -> (end_at n t < length b)%nat -> b' !! end_at n t = Some 0).
Proof.
  revert b. induction ts as [|t ts IH]; intros b; cbn [foldl].
  { split_and!; try done. intros t Ht. by apply not_elem_of_nil in Ht. }
  destruct (IH (<[end_at n t := 0]> b)) as (H1 & H2 & H3 & H4). rewrite length_insert in *. split_and!.
  - done.
  - intros i Hi. rewrite H2 by (intros u Hu; apply Hi; by right). apply list_lookup_insert_ne. apply Hi. by left.
  - intros i Hi. apply H3. destruct (decide (end_at n t = i)) as [<-|Hne].
    + apply list_lookup_insert_eq. by apply lookup_lt_Some in Hi.
    + by rewrite list_lookup_insert_ne.
  - intros u [->|Hu]%elem_of_cons Hlt; [| by apply H4]. apply H3. by apply list_lookup_insert_eq.
Qed.

(** [nulterminate] is the same stores, token by token. *)
Lemma nulterminate_stores n c b :
  nulterminate n c b = foldl (fun b t => <[end_at n t := 0]> b) b (toks c).
Proof.
  revert b. induction c as [argv|c IH file mode fd|l IHl r IHr|l IHl r IHr|c IH]; intros b; cbn [nulterminate toks]; try done;
    rewrite ?foldl_app, ?IH, ?IHl, ?IHr; done.
Qed.

(** In a line without 0s, words and the ends of words do not meet. *)
Lemma word_end_apart s t u i :
  tok_ok s t -> tok_ok s u -> (length s - qrem t <= i < end_at (length s) t)%nat -> end_at (length s) u <> i.
Proof.
  intros (p1 & q1 & E1 & Q1 & W1 & _) (p2 & q2 & E2 & Q2 & _ & W2) Hi Heq. unfold end_at in *. rewrite Q1 in Hi. rewrite Q2 in Heq.
  assert (length s = length p1 + length (text t ++ q1))%nat as L1 by (rewrite E1 at 1; by rewrite length_app).
  assert (length s = length p2 + length (text u ++ q2))%nat as L2 by (rewrite E2 at 1; by rewrite length_app).
  assert (exists c, text t !! (i - length p1)%nat = Some c) as [c Hc] by (apply lookup_lt_is_Some_2; lia).
  assert (s !! i = Some c) as H1.
  { rewrite E1, lookup_app_r by lia. apply lookup_app_l_Some. done. }
  rewrite Forall_lookup in W1. specialize (W1 _ _ Hc). rewrite length_app in L2, Heq.
  assert (s !! i = q2 !! 0%nat) as H2.
  { rewrite E2, (assoc_L (++)), lookup_app_r by (rewrite length_app; lia). f_equal. rewrite length_app. lia. }
  rewrite H2 in H1. destruct q2 as [|x q2]; [done |]. injection H1 as ->. congruence.
Qed.

(** C32: the parser ends on every command line, with a command or one of the shell's error messages;
    and when it delivers a command, then after [nulterminate] every argument and file name
    of it is, read as a C string from its start, the word it was in the line. *)
Theorem parsecmd_words (s : list Z) (Hs : Forall (fun c => c <> 0) s) :
  match parsecmd s with
  | Ok (c, buf) => forall t, t ∈ toks c -> cut0 (drop (length s - qrem t) buf) = text t /\ tok_ok s t
  | Panic _ => True
  | Diverge => False
  end.
Proof.
  unfold parsecmd. assert (suffix_of s s) as Hsuf by (by exists []).
  assert (good s s (parse s) (fun c _ => Forall (tok_ok s) (toks c))) as Hg.
  { unfold parse. rewrite bind_gets. eapply good_bind; [apply (grammar_good (parse_fuel s)); [done | unfold parse_fuel; lia] |].
    intros c s1 Hs1 Hl1 Hc. eapply good_bind; [by apply peek_good |]. intros _ s2 Hs2 Hl2 _. rewrite bind_gets.
    destruct s2; [by apply good_ret | done]. }
  destruct (parse s) as [[c s']| |]; [| done..]. destruct Hg as (_ & _ & Hg). rewrite Forall_forall in Hg.
  intros t Ht. split; [| by apply Hg]. rewrite nulterminate_stores.
  pose proof (zero_at_end (s ++ [0]) (toks c) (length s)) as (_ & Hkeep & _ & Hzero).
  destruct (Hg t Ht) as (pre & post & E & Q & W & _).
  assert (length s = length pre + length (text t ++ post))%nat as L by (rewrite E at 1; by rewrite length_app).
  pose proof (length_app (text t) post) as L2.
  assert (length s - qrem t = length pre)%nat as Hstart by lia. apply cut0_spec.
  - intros j x Hx. apply lookup_lt_Some in Hx as Hj. rewrite Hkeep.
    + rewrite Hstart, E, <- (assoc_L (++)), lookup_app_r by lia. rewrite <- (assoc_L (++)). apply lookup_app_l_Some.
      replace (length pre + j - length pre)%nat with j by lia. done.
    + intros u Hu. apply (word_end_apart s t u); [by apply Hg | by apply Hg |]. unfold end_at. lia.
  - change (length s - qrem t + length (text t))%nat with (end_at (length s) t). apply Hzero; [done |].
    unfold end_at. rewrite length_app. cbn. lia.
  - rewrite E in Hs. apply Forall_app in Hs as [_ [Hs _]%Forall_app]. done.
Qed.

(** ** Writing a command as a line *)

Fixpoint cmap {A B} (f : A -> B) (c : cmd A) : cmd B :=
  match c with
  | Exec argv => Exec (f <$> argv)
  | Redir c' file mode fd => Redir (cmap f c') (f file) mode fd
  | PipeC l r => PipeC (cmap f l) (cmap f r)
  | ListC l r => ListC (cmap f l) (cmap f r)
  | Back c' => Back (cmap f c')
  end.

Definition show_word (w : list Z) : list Z := w ++ [32].
Definition show_words (ws : list (list Z)) : list Z := mjoin (show_word <$> ws).

(** The three kinds of redirection. *)
Definition redir_op (mode : Z) : list Z :=
  if mode =? O_RDONLY then [LT; 32] else if mode =? Z.lor (Z.lor O_WRONLY O_CREATE) O_TRUNC then [GT; 32] else [GT; GT; 32].
Definition show_redir (r : redir (list Z)) : list Z := redir_op r.1.2 ++ show_word r.1.1.
Definition show_redirs (rs : list (redir (list Z))) : list Z := mjoin (show_redir <$> rs).

Definition in_parens (l : list Z) : list Z := [LPAR; 32] ++ l ++ [RPAR; 32].

(** The text of a command where a command of at most level [lvl] may stand: 0 for [parseexec],
    1 for [parsepipe], 2 with ampersands, 3 for [parseline]; in parentheses otherwise. *)
Fixpoint show (lvl : nat) (c : cmd (list Z)) : list Z :=
  match c with
  | Exec argv => show_words argv
  | Redir c' file mode fd => show 0 c' ++ show_redir (file, mode, fd)
  | PipeC l r => let t := show 0 l ++ [BAR; 32] ++ show 1 r in if (1 <=? lvl)%nat then t else in_parens t
  | Back c' => let t := show 2 c' ++ [AMP; 32] in if (2 <=? lvl)%nat then t else in_parens t
  | ListC l r => let t := show 2 l ++ [SEMI; 32] ++ show 3 r in if (3 <=? lvl)%nat then t else in_parens t
  end.

(** Words the shell can read, redirections it can make, and not too many arguments. *)
Definition word_ok (w : list Z) : Prop := w <> [] /\ Forall (fun c => word_char c = true /\ c <> 0) w.
Definition redir_ok (r : redir (list Z)) : Prop :=
  word_ok r.1.1 /\
  (r.1.2, r.2) ∈ [(O_RDONLY, 0); (Z.lor (Z.lor O_WRONLY O_CREATE) O_TRUNC, 1); (Z.lor O_WRONLY O_CREATE, 1)].
Fixpoint cmd_ok (c : cmd (list Z)) : Prop :=
  match c with
  | Exec argv => Forall word_ok argv /\ (length argv < MAXARGS)%nat
  | Redir c' file mode fd => cmd_ok c' /\ redir_ok (file, mode, fd)
  | PipeC l r => cmd_ok l /\ cmd_ok r
  | ListC l r => cmd_ok l /\ cmd_ok r
  | Back c' => cmd_ok c'
  end.

(** ** Lemmas: reading it back *)

(** The rest of the line begins with one of the symbols [l], or is empty. *)
Definition next (l : list Z) (s : list Z) : Prop := match s with [] => True | c :: _ => c ∈ l end.

Definition no_space (l : list Z) : bool := forallb (fun c => negb (among whitespace c) && negb (c =? 0)) l.

Lemma next_skip l s : no_space l = true -> next l s -> skip s = s.
Proof.
  destruct s as [|c s]; [done |]. cbn [next]. intros Hl Hc. unfold no_space in Hl. rewrite forallb_forall in Hl.
  apply list_elem_of_In in Hc. specialize (Hl c Hc). apply andb_true_iff in Hl as [Hl _]. apply negb_true_iff in Hl. cbn [skip]. by rewrite Hl.
Qed.

Lemma next_nonzero l s : no_space l = true -> next l s -> hd 0 s = 0 -> s = [].
Proof.
  destruct s as [|c s]; [done |]. cbn [next hd]. intros Hl Hc ->. unfold no_space in Hl. rewrite forallb_forall in Hl.
  apply list_elem_of_In in Hc. by specialize (Hl 0 Hc).
Qed.

Lemma next_weaken l l' s : next l s -> l ⊆ l' -> next l' s.
Proof. destruct s; [done |]. cbn. auto. Qed.

Lemma peek_yes toks c s : among whitespace c = false -> c <> 0 -> among toks c = true -> peek toks (c :: s) = Ok (true, c :: s).
Proof.
  intros H1 H2 H3. unfold peek. rewrite bind_modify, bind_gets. cbn [skip]. rewrite H1. cbn [hd].
  destruct (Z.eqb_spec c 0); [done |]. by rewrite H3.
Qed.

Lemma peek_no toks l s :
  no_space l = true -> next l s -> forallb (fun c => negb (among toks c)) l = true -> peek toks s = Ok (false, s).
Proof.
  intros H1 H2 H3. unfold peek. rewrite bind_modify, bind_gets, (next_skip l) by done. destruct s as [|c s]; [done |]. cbn [hd next] in *.
  rewrite forallb_forall in H3. apply list_elem_of_In in H2. specialize (H3 c H2). apply negb_true_iff in H3. rewrite H3.
  by rewrite andb_false_r.
Qed.

(** A word is neither blank nor a symbol. *)
Lemma word_char_false c l : word_char c = true -> l ⊆ symbols -> among l c = false.
Proof.
  intros H Hl. apply andb_true_iff in H as [_ H]. apply negb_true_iff in H. unfold among in *.
  apply bool_decide_eq_false. apply bool_decide_eq_false in H. auto.
Qed.

Lemma peek_word toks w s : word_ok w -> toks ⊆ symbols -> peek toks (w ++ s) = Ok (false, w ++ s).
Proof.
  intros [Hne Hw] Ht. destruct w as [|c w]; [done |]. apply Forall_cons in Hw as [[Hc Hz] _]. unfold peek.
  rewrite bind_modify, bind_gets. cbn [app skip]. pose proof Hc as Hc'. apply andb_true_iff in Hc' as [Hs _]. apply negb_true_iff in Hs.
  rewrite Hs. cbn [hd]. rewrite (word_char_false c toks) by done. by rewrite andb_false_r.
Qed.

Lemma word_app w s : Forall (fun c => word_char c = true) w -> word (w ++ 32 :: s) = (w, 32 :: s).
Proof.
  induction 1 as [|c w Hc Hw IH]; [done |]. cbn [app word]. rewrite Hc, IH. done.
Qed.

Lemma gettoken_word w s :
  word_ok w -> exists t, gettoken (show_word w ++ s) = Ok ((WORD, t), skip s) /\ text t = w.
Proof.
  intros [Hne Hw]. assert (Forall (fun c => word_char c = true) w) as Hw' by (eapply Forall_impl; [exact Hw |]; cbn; tauto).
  unfold show_word. rewrite <- (assoc_L (++)). cbn [app]. destruct w as [|c w]; [done |]. apply Forall_cons in Hw as [[Hc Hz] _].
  unfold gettoken. rewrite bind_gets. pose proof Hc as Hc'. apply andb_true_iff in Hc' as [Hs _]. apply negb_true_iff in Hs.
  cbn [app skip]. rewrite Hs. cbn [hd]. destruct (Z.eqb_spec c 0); [done |].
  rewrite (word_char_false c [BAR; LPAR; RPAR; SEMI; AMP; LT]) by (done || (unfold symbols; intros x; rewrite !elem_of_cons; tauto)).
  destruct (Z.eqb_spec c GT) as [->|]; [by vm_compute in Hc |].
  pose proof (word_app (c :: w) s Hw') as E. cbn [app] in E. rewrite E, bind_modify. cbn [skip]. change (among whitespace 32) with true. cbv iota.
  by eexists.
Qed.

Lemma gettoken_symbol c s :
  c ∈ [BAR; LPAR; RPAR; SEMI; AMP; LT] -> exists t, gettoken (c :: 32 :: s) = Ok ((c, t), skip s).
Proof.
  intros Hc. unfold gettoken. rewrite bind_gets. rewrite !elem_of_cons, elem_of_nil in Hc.
  decompose [or] Hc; try done; subst c; eexists; reflexivity.
Qed.

Definition rmap (r : redir token) : redir (list Z) := (text r.1.1, r.1.2, r.2).

(** What may follow a command at each level. *)
Definition follow0 : list Z := [BAR; RPAR; AMP; SEMI].
Definition follow1 : list Z := [RPAR; AMP; SEMI].
Definition follow2 : list Z := [RPAR; SEMI].
Definition follow3 : list Z := [RPAR].

Lemma cmap_wrap rs c : cmap text (wrap rs c) = wrap (rmap <$> rs) (cmap text c).
Proof. revert c. induction rs as [|r rs IH]; intros c; [done |]. exact (IH (Redir c r.1.1 r.1.2 r.2)). Qed.

Lemma next_redirs rs l s : next l s -> next (LT :: GT :: l) (show_redirs rs ++ s).
Proof.
  destruct rs as [|r rs]; intros Hs; [eapply next_weaken; [exact Hs | intros x; rewrite !elem_of_cons; tauto] |].
  unfold show_redirs. cbn [fmap list_fmap mjoin list_join]. unfold show_redir, redir_op.
  destruct (_ =? _); [by left |]. destruct (_ =? _); right; by left.
Qed.

Lemma gettoken_gt s : exists t, gettoken (GT :: 32 :: s) = Ok ((GT, t), skip s).
Proof. eexists. unfold gettoken. rewrite bind_gets. vm_compute. reflexivity. Qed.

Lemma gettoken_gtgt s : exists t, gettoken (GT :: GT :: 32 :: s) = Ok ((PLUS, t), skip s).
Proof. eexists. unfold gettoken. rewrite bind_gets. vm_compute. reflexivity. Qed.

(** The three operators are read as what they stand for. *)
Lemma redir_op_reads mode fd s :
  (mode, fd) ∈ [(O_RDONLY, 0); (Z.lor (Z.lor O_WRONLY O_CREATE) O_TRUNC, 1); (Z.lor O_WRONLY O_CREATE, 1)] -> skip s = s ->
  exists op u, gettoken (redir_op mode ++ s) = Ok ((op, u), s) /\
    peek [LT; GT] (redir_op mode ++ s) = Ok (true, redir_op mode ++ s) /\
    forall t : token, (if op =? LT then [(t, O_RDONLY, 0)] else if op =? GT then [(t, Z.lor (Z.lor O_WRONLY O_CREATE) O_TRUNC, 1)]
                       else if op =? PLUS then [(t, Z.lor O_WRONLY O_CREATE, 1)] else []) = [(t, mode, fd)].
Proof.
  intros Hm Hs. rewrite !elem_of_cons, elem_of_nil in Hm. destruct Hm as [Hm|[Hm|[Hm|[]]]]; injection Hm as -> ->.
  - destruct (gettoken_symbol LT s) as [u Hu]; [rewrite !elem_of_cons; tauto |]. rewrite Hs in Hu. by exists LT, u.
  - destruct (gettoken_gt s) as [u Hu]. rewrite Hs in Hu. by exists GT, u.
  - destruct (gettoken_gtgt s) as [u Hu]. rewrite Hs in Hu. by exists PLUS, u.
Qed.

Lemma word_skip w s : word_ok w -> skip (show_word w ++ s) = show_word w ++ s.
Proof.
  intros [Hne Hw]. destruct w as [|c w]; [done |]. apply Forall_cons in Hw as [[Hc _] _].
  apply andb_true_iff in Hc as [Hc _]. apply negb_true_iff in Hc. unfold show_word. cbn [app skip]. by rewrite Hc.
Qed.

Lemma parseredirs_reads fuel rs s :
  Forall redir_ok rs -> next follow0 s -> (length (show_redirs rs ++ s) < fuel)%nat ->
  exists rs', parseredirs fuel (show_redirs rs ++ s) = Ok (rs', s) /\ rmap <$> rs' = rs.
Proof.
  intros Hrs Hs. revert fuel. induction Hrs as [|[[file mode] fd] rs [Hw Hm] Hrs IH]; intros fuel Hf; (destruct fuel as [|f]; [lia |]); cbn [parseredirs].
  - cbn [show_redirs fmap list_fmap mjoin list_join app]. rewrite (bind_ok _ _ _ _ _ (peek_no [LT; GT] follow0 s eq_refl Hs eq_refl)). by exists [].
  - assert (skip (show_redirs rs ++ s) = show_redirs rs ++ s) as Hmore
      by (apply (next_skip (LT :: GT :: follow0)); [done | by apply next_redirs]).
    change (show_redirs ((file, mode, fd) :: rs)) with ((redir_op mode ++ show_word file) ++ show_redirs rs) in *.
    rewrite <- !(assoc_L (++)) in *. destruct (gettoken_word file (show_redirs rs ++ s) Hw) as (t & Ht & Htxt). rewrite Hmore in Ht.
    destruct (redir_op_reads mode fd (show_word file ++ show_redirs rs ++ s) Hm (word_skip _ _ Hw)) as (op & u & Hu & Hp & Hop).
    rewrite (bind_ok _ _ _ _ _ Hp). cbn [negb]. rewrite (bind_ok _ _ _ _ _ Hu), (bind_ok _ _ _ _ _ Ht). cbn [fst snd].
    change (WORD =? WORD) with true. cbn [negb]. rewrite Hop. destruct (IH f) as (rs' & Hrun & Hmap).
    { rewrite !length_app in *. unfold redir_op in Hf. destruct (_ =? _), (_ =? _); cbn in Hf; lia. }
    rewrite (bind_ok _ _ _ _ _ Hrun). eexists. split; [reflexivity |]. cbn. by rewrite Hmap, <- Htxt.
Qed.

Lemma next_words ws s : Forall word_ok ws -> skip s = s -> skip (show_words ws ++ s) = show_words ws ++ s.
Proof.
  intros Hws Hs. destruct Hws as [|w ws Hw Hws]; [done |]. unfold show_words. cbn [fmap list_fmap mjoin list_join].
  rewrite <- (assoc_L (++)). by apply word_skip.
Qed.

Lemma parseredirs_none fuel l s :
  no_space l = true -> next l s -> forallb (fun c => negb (among [LT; GT] c)) l = true -> parseredirs (S fuel) s = Ok ([], s).
Proof. intros H1 H2 H3. cbn [parseredirs]. by rewrite (bind_ok _ _ _ _ _ (peek_no [LT; GT] l s H1 H2 H3)). Qed.

(** After the last argument come its redirections, then what follows the command. *)
Lemma parseargs_end fuel argv rs s :
  next follow0 s -> parseargs (S fuel) argv rs s = Ok ((argv, rs), s).
Proof.
  intros Hs. cbn [parseargs]. destruct s as [|c s].
  - rewrite (bind_ok _ _ _ _ _ (peek_no [BAR; RPAR; AMP; SEMI] [] [] eq_refl I eq_refl)). reflexivity.
  - cbn [next] in Hs. assert (among [BAR; RPAR; AMP; SEMI] c = true) as Ha by (by apply bool_decide_eq_true).
    assert (among whitespace c = false /\ c <> 0) as [Hw Hz].
    { unfold follow0 in Hs. rewrite !elem_of_cons, elem_of_nil in Hs. decompose [or] Hs; try done; subst c; done. }
    rewrite (bind_ok _ _ _ _ _ (peek_yes _ c s Hw Hz Ha)). done.
Qed.

Lemma parseargs_reads fuel argv ws rs0 rs s :
  Forall word_ok ws -> ws <> [] -> (length argv + length ws < MAXARGS)%nat -> Forall redir_ok rs -> next follow0 s ->
  (length (show_words ws ++ show_redirs rs ++ s) < fuel)%nat ->
  exists argv' rs', parseargs fuel argv rs0 (show_words ws ++ show_redirs rs ++ s) = Ok ((argv ++ argv', rs0 ++ rs'), s) /\
    text <$> argv' = ws /\ rmap <$> rs' = rs.
Proof.
  intros Hws Hne Hlen Hrs Hs. revert fuel argv rs0 Hlen Hne. induction Hws as [|w ws Hw Hws IH]; intros fuel argv rs0 Hlen Hne Hf; [done |].
  destruct fuel as [|f]; [lia |]. change (show_words (w :: ws)) with (show_word w ++ show_words ws) in *. rewrite <- (assoc_L (++)) in *.
  cbn [parseargs]. set (more := show_words ws ++ show_redirs rs ++ s) in *.
  assert (skip (show_redirs rs ++ s) = show_redirs rs ++ s) as Hsr by (apply (next_skip (LT :: GT :: follow0)); [done | by apply next_redirs]).
  assert (skip more = more) as Hmore by (by apply next_words).
  assert (peek [BAR; RPAR; AMP; SEMI] (show_word w ++ more) = Ok (false, show_word w ++ more)) as Hpk.
  { unfold show_word. rewrite <- (assoc_L (++)). apply peek_word; [done |]. unfold symbols. intros x. rewrite !elem_of_cons. tauto. }
  rewrite (bind_ok _ _ _ _ _ Hpk). destruct (gettoken_word w more Hw) as (t & Ht & Htxt). rewrite Hmore in Ht.
  rewrite (bind_ok _ _ _ _ _ Ht). cbn [fst snd]. change (WORD =? 0) with false. change (WORD =? WORD) with true. cbn [negb].
  rewrite length_app. cbn [length]. cbn [length] in Hlen. destruct (Nat.leb_spec MAXARGS (length argv + 1)); [lia |]. rewrite bind_gets.
  rewrite length_app in Hf. assert (0 < length (show_word w))%nat by (unfold show_word; rewrite length_app; cbn; lia).
  destruct ws as [|w2 ws].
  - change more with (show_redirs rs ++ s) in *. destruct (parseredirs_reads (S (length (show_redirs rs ++ s))) rs s Hrs Hs ltac:(lia)) as (rs' & Hrun & Hmap).
    rewrite (bind_ok _ _ _ _ _ Hrun). destruct f as [|f]; [lia |]. rewrite parseargs_end by done.
    exists [t], rs'. split; [done |]. split; [cbn; by rewrite Htxt | done].
  - assert (parseredirs (S (length more)) more = Ok ([], more)) as Hno.
    { cbn [parseredirs]. unfold more. change (show_words (w2 :: ws)) with (show_word w2 ++ show_words ws). unfold show_word. rewrite <- !(assoc_L (++)).
      rewrite (bind_ok _ _ _ _ _ (peek_word [LT; GT] w2 _ ltac:(by apply Forall_inv in Hws) ltac:(unfold symbols; intros x; rewrite !elem_of_cons; tauto))). done. }
    rewrite (bind_ok _ _ _ _ _ Hno), app_nil_r.
    destruct (IH f (argv ++ [t]) rs0) as (argv' & rs' & Hrun & H1 & H2); [rewrite length_app; cbn [length] in *; lia | done | fold more; lia |].
    fold more in Hrun. exists (t :: argv'), rs'. rewrite Hrun, <- (assoc_L (++)). split; [done |]. split; [cbn; by rewrite Htxt, H1 | done].
Qed.

(** The claims at the four levels; [rs] and [k] are redirections and ampersands still to come. *)
Definition reads0 (c : cmd (list Z)) : Prop := forall fuel rs s,
  Forall redir_ok rs -> next follow0 s -> (4 * length (show 0 c ++ show_redirs rs ++ s) + 2 <= fuel)%nat ->
  exists c', parseexec fuel (show 0 c ++ show_redirs rs ++ s) = Ok (c', s) /\ cmap text c' = wrap rs c.
Definition reads1 (c : cmd (list Z)) : Prop := forall fuel s,
  next follow1 s -> (4 * length (show 1 c ++ s) + 3 <= fuel)%nat ->
  exists c', parsepipe fuel (show 1 c ++ s) = Ok (c', s) /\ cmap text c' = c.
Definition amps (k : nat) : list Z := mjoin (replicate k [AMP; 32]).
Definition reads2 (c : cmd (list Z)) : Prop := forall fuel k s,
  next follow2 s -> (4 * length (show 2 c ++ amps k ++ s) + 3 <= fuel)%nat ->
  exists c' s1 c'', parsepipe fuel (show 2 c ++ amps k ++ s) = Ok (c', s1) /\
    parsebacks (S (length s1)) c' s1 = Ok (c'', s) /\ cmap text c'' = Nat.iter k Back c.
Definition reads3 (c : cmd (list Z)) : Prop := forall fuel s,
  next follow3 s -> (4 * length (show 3 c ++ s) + 4 <= fuel)%nat ->
  exists c', parseline fuel (show 3 c ++ s) = Ok (c', s) /\ cmap text c' = c.

Lemma next_amps k s : next follow2 s -> next follow1 (amps k ++ s).
Proof.
  destruct k as [|k]; intros Hs; [cbn; eapply next_weaken; [exact Hs |] | cbn]; unfold follow1, follow2; [intros x |]; rewrite !elem_of_cons; tauto.
Qed.

Lemma parsebacks_reads k fuel (c : cmd token) s :
  next follow2 s -> (length (amps k ++ s) < fuel)%nat -> parsebacks fuel c (amps k ++ s) = Ok (Nat.iter k Back c, s).
Proof.
  intros Hs. revert fuel c. induction k as [|k IH]; intros fuel c Hf; (destruct fuel as [|f]; [lia |]); cbn [parsebacks].
  - cbn [amps replicate mjoin list_join app]. by rewrite (bind_ok _ _ _ _ _ (peek_no [AMP] follow2 s eq_refl Hs eq_refl)).
  - change (amps (S k)) with ([AMP; 32] ++ amps k) in *. rewrite <- (assoc_L (++)) in *. cbn [app] in *.
    rewrite (bind_ok _ _ _ _ _ (peek_yes [AMP] AMP _ eq_refl ltac:(done) eq_refl)). cbn [negb].
    destruct (gettoken_symbol AMP (amps k ++ s)) as [t Ht]; [rewrite !elem_of_cons; tauto |].
    rewrite (next_skip follow1 (amps k ++ s) eq_refl (next_amps k s Hs)) in Ht. rewrite (bind_ok _ _ _ _ _ Ht).
    rewrite IH by (cbn in Hf; lia). by rewrite Nat.iter_swap.
Qed.

Lemma cmap_backs k c : cmap text (Nat.iter k Back c) = Nat.iter k Back (cmap text c).
Proof. induction k as [|k IH]; [done |]. change (Nat.iter (S k) Back c) with (Back (Nat.iter k Back c)). cbn [cmap]. by rewrite IH. Qed.

(** *** From level to level *)

Lemma reads_up1 c : show 1 c = show 0 c -> reads0 c -> reads1 c.
Proof.
  intros E H fuel s Hs Hf. rewrite E in *. destruct fuel as [|f]; [lia |]. cbn [parsepipe].
  destruct (H f [] s) as (c' & Hrun & Hc); [done | | cbn [show_redirs fmap list_fmap mjoin list_join app]; lia |].
  { eapply next_weaken; [exact Hs |]. unfold follow0, follow1. intros x. rewrite !elem_of_cons. tauto. }
  cbn [show_redirs fmap list_fmap mjoin list_join app] in Hrun. rewrite (bind_ok _ _ _ _ _ Hrun).
  rewrite (bind_ok _ _ _ _ _ (peek_no [BAR] follow1 s eq_refl Hs eq_refl)). by exists c'.
Qed.

Lemma reads_up2 c : show 2 c = show 1 c -> reads1 c -> reads2 c.
Proof.
  intros E H fuel k s Hs Hf. rewrite E in *. destruct (H fuel (amps k ++ s) (next_amps k s Hs) Hf) as (c' & Hrun & Hc).
  exists c', (amps k ++ s), (Nat.iter k Back c'). split; [done |]. split; [apply parsebacks_reads; [done | lia] |]. by rewrite cmap_backs, Hc.
Qed.

Lemma reads_up3 c : show 3 c = show 2 c -> reads2 c -> reads3 c.
Proof.
  intros E H fuel s Hs Hf. rewrite E in *. destruct fuel as [|f]; [lia |]. cbn [parseline].
  assert (next follow2 s) as Hs2 by (eapply next_weaken; [exact Hs |]; unfold follow2, follow3; intros x; rewrite !elem_of_cons; tauto).
  destruct (H f 0%nat s Hs2) as (c' & s1 & c'' & H1 & H2 & Hc); [cbn [amps replicate mjoin list_join app]; lia |].
  cbn [amps replicate mjoin list_join app] in H1. rewrite (bind_ok _ _ _ _ _ H1), bind_gets, (bind_ok _ _ _ _ _ H2).
  rewrite (bind_ok _ _ _ _ _ (peek_no [SEMI] follow3 s eq_refl Hs eq_refl)). by exists c''.
Qed.

(** The text of a command does not begin with a blank. *)
Lemma show_skip c lvl s : cmd_ok c -> skip s = s -> skip (show lvl c ++ s) = show lvl c ++ s.
Proof.
  revert lvl s. induction c as [argv|c IH file mode fd|l IHl r IHr|l IHl r IHr|c IH]; intros lvl s Hc Hs; cbn [show cmd_ok] in *.
  - apply next_words; tauto.
  - rewrite <- (assoc_L (++)). apply IH; [tauto |]. unfold show_redir, redir_op. cbn [fst snd]. destruct (_ =? _); [done |]. by destruct (_ =? _).
  - destruct (_ <=? _)%nat; [| done]. rewrite <- (assoc_L (++)). apply IHl; [tauto | done].
  - destruct (_ <=? _)%nat; [| done]. rewrite <- (assoc_L (++)). apply IHl; [tauto | done].
  - destruct (_ <=? _)%nat; [| done]. rewrite <- (assoc_L (++)). apply IH; [tauto | done].
Qed.

Lemma redirs_skip rs s : next follow0 s -> skip (show_redirs rs ++ s) = show_redirs rs ++ s.
Proof. intros Hs. apply (next_skip (LT :: GT :: follow0)); [done | by apply next_redirs]. Qed.

(** A command in parentheses, with redirections. *)
Lemma reads_down c : cmd_ok c -> show 0 c = in_parens (show 3 c) -> reads3 c -> reads0 c.
Proof.
  intros Hok E H fuel rs s Hrs Hs Hf. rewrite E in *. unfold in_parens in *. rewrite <- !(assoc_L (++)) in *. cbn [app] in *.
  set (inner := show 3 c ++ RPAR :: 32 :: show_redirs rs ++ s) in *.
  assert (length inner = length (show 3 c) + (2 + length (show_redirs rs ++ s)))%nat as Li by (unfold inner; by rewrite length_app).
  cbn [length] in Hf. destruct fuel as [|[|f]]; [lia | lia |]. cbn [parseexec].
  assert (peek [LPAR] (LPAR :: 32 :: inner) = Ok (true, LPAR :: 32 :: inner)) as Hp by (apply peek_yes; done).
  rewrite (bind_ok _ _ _ _ _ Hp). cbn [parseblock]. rewrite (bind_ok _ _ _ _ _ Hp). cbn [negb].
  destruct (gettoken_symbol LPAR inner) as [t Ht]; [rewrite !elem_of_cons; tauto |].
  unfold inner in Ht at 2. rewrite show_skip in Ht by done. fold inner in Ht. rewrite (bind_ok _ _ _ _ _ Ht).
  destruct (H f (RPAR :: 32 :: show_redirs rs ++ s)) as (c' & Hrun & Hc); [by left | fold inner; lia |].
  fold inner in Hrun. rewrite (bind_ok _ _ _ _ _ Hrun).
  rewrite (bind_ok _ _ _ _ _ (peek_yes [RPAR] RPAR _ eq_refl ltac:(done) eq_refl)). cbn [negb].
  destruct (gettoken_symbol RPAR (show_redirs rs ++ s)) as [t2 Ht2]; [rewrite !elem_of_cons; tauto |].
  rewrite redirs_skip in Ht2 by done. rewrite (bind_ok _ _ _ _ _ Ht2), bind_gets.
  destruct (parseredirs_reads (S (length (show_redirs rs ++ s))) rs s Hrs Hs ltac:(lia)) as (rs' & Hr & Hm).
  rewrite (bind_ok _ _ _ _ _ Hr). exists (wrap rs' c'). split; [done |]. by rewrite cmap_wrap, Hm, Hc.
Qed.

(** *** Each kind of command at its own level *)

Lemma reads_exec argv : cmd_ok (Exec argv) -> reads0 (Exec argv).
Proof.
  intros [Hws Hlen] fuel rs s Hrs Hs Hf. cbn [show] in *. destruct fuel as [|f]; [lia |]. cbn [parseexec].
  destruct argv as [|w ws].
  - change (show_words []) with (@nil Z) in *. cbn [app] in *.
    rewrite (bind_ok _ _ _ _ _ (peek_no [LPAR] (LT :: GT :: follow0) _ eq_refl (next_redirs rs follow0 s Hs) eq_refl)), bind_gets.
    destruct (parseredirs_reads (S (length (show_redirs rs ++ s))) rs s Hrs Hs ltac:(lia)) as (rs' & Hr & Hm).
    rewrite (bind_ok _ _ _ _ _ Hr), bind_gets, (bind_ok _ _ _ _ _ (parseargs_end (length s) [] rs' s Hs)).
    eexists. split; [reflexivity |]. cbn [fst snd]. by rewrite cmap_wrap, Hm.
  - set (line := show_words (w :: ws) ++ show_redirs rs ++ s) in *.
    assert (forall toks, toks ⊆ symbols -> peek toks line = Ok (false, line)) as Hp.
    { intros toks Ht. unfold line. change (show_words (w :: ws)) with (show_word w ++ show_words ws). unfold show_word. rewrite <- !(assoc_L (++)).
      apply peek_word; [by apply Forall_inv in Hws | done]. }
    rewrite (bind_ok _ _ _ _ _ (Hp [LPAR] ltac:(unfold symbols; intros x; rewrite !elem_of_cons; tauto))), bind_gets.
    assert (parseredirs (S (length line)) line = Ok ([], line)) as Hr.
    { cbn [parseredirs]. by rewrite (bind_ok _ _ _ _ _ (Hp [LT; GT] ltac:(unfold symbols; intros x; rewrite !elem_of_cons; tauto))). }
    rewrite (bind_ok _ _ _ _ _ Hr), bind_gets.
    destruct (parseargs_reads (S (length line)) [] (w :: ws) [] rs s) as (argv' & rs' & Ha & Ht & Hm); try done; [fold line; lia |].
    fold line in Ha. rewrite (bind_ok _ _ _ _ _ Ha). eexists. split; [reflexivity |]. cbn [fst snd app]. rewrite cmap_wrap, Hm. cbn [cmap]. by rewrite Ht.
Qed.

Lemma reads_redir c file mode fd : redir_ok (file, mode, fd) -> reads0 c -> reads0 (Redir c file mode fd).
Proof.
  intros Hr H fuel rs s Hrs Hs Hf. cbn [show] in *.
  assert ((show 0 c ++ show_redir (file, mode, fd)) ++ show_redirs rs ++ s = show 0 c ++ show_redirs ((file, mode, fd) :: rs) ++ s) as E.
  { unfold show_redirs. cbn [fmap list_fmap mjoin list_join]. by rewrite <- !(assoc_L (++)). }
  rewrite E in *. destruct (H fuel ((file, mode, fd) :: rs) s) as (c' & Hrun & Hc); [by constructor | done | done |]. by exists c'.
Qed.

Lemma reads_pipe l r : cmd_ok r -> reads0 l -> reads1 r -> reads1 (PipeC l r).
Proof.
  intros Hok Hl Hr fuel s Hs Hf. cbn [show Nat.leb] in *. rewrite <- !(assoc_L (++)) in *. cbn [app] in *.
  rewrite length_app in Hf. cbn [length] in Hf. destruct fuel as [|f]; [lia |]. cbn [parsepipe].
  destruct (Hl f [] (BAR :: 32 :: show 1 r ++ s)) as (l' & Hrun & El); [done | by left | cbn [show_redirs fmap list_fmap mjoin list_join app]; rewrite length_app; cbn [length]; lia |].
  cbn [show_redirs fmap list_fmap mjoin list_join app] in Hrun. rewrite (bind_ok _ _ _ _ _ Hrun).
  rewrite (bind_ok _ _ _ _ _ (peek_yes [BAR] BAR _ eq_refl ltac:(done) eq_refl)).
  destruct (gettoken_symbol BAR (show 1 r ++ s)) as [t Ht]; [by left |].
  rewrite show_skip in Ht by (done || by apply (next_skip follow1)). rewrite (bind_ok _ _ _ _ _ Ht).
  destruct (Hr f s Hs) as (r' & Hrun2 & Er); [lia |]. rewrite (bind_ok _ _ _ _ _ Hrun2).
  eexists. split; [reflexivity |]. cbn [cmap]. by rewrite El, Er.
Qed.

Lemma reads_back c : reads2 c -> reads2 (Back c).
Proof.
  intros H fuel k s Hs Hf. cbn [show Nat.leb] in *. rewrite <- !(assoc_L (++)) in *.
  change ([AMP; 32] ++ amps k ++ s) with (amps (S k) ++ s) in *.
  destruct (H fuel (S k) s Hs Hf) as (c' & s1 & c'' & H1 & H2 & Hc). exists c', s1, c''. split_and!; [done | done |].
  rewrite Hc. change (Nat.iter (S k) Back c) with (Back (Nat.iter k Back c)). by rewrite Nat.iter_swap.
Qed.

Lemma reads_list l r : cmd_ok r -> reads2 l -> reads3 r -> reads3 (ListC l r).
Proof.
  intros Hok Hl Hr fuel s Hs Hf. cbn [show Nat.leb] in *. rewrite <- !(assoc_L (++)) in *. cbn [app] in *.
  rewrite length_app in Hf. cbn [length] in Hf. destruct fuel as [|f]; [lia |]. cbn [parseline].
  destruct (Hl f 0%nat (SEMI :: 32 :: show 3 r ++ s)) as (c' & s1 & l' & H1 & H2 & El);
    [unfold next, follow2; rewrite !elem_of_cons; tauto | cbn [amps replicate mjoin list_join app]; rewrite length_app; cbn [length]; lia |].
  cbn [amps replicate mjoin list_join app] in H1. rewrite (bind_ok _ _ _ _ _ H1), bind_gets, (bind_ok _ _ _ _ _ H2).
  rewrite (bind_ok _ _ _ _ _ (peek_yes [SEMI] SEMI _ eq_refl ltac:(done) eq_refl)).
  destruct (gettoken_symbol SEMI (show 3 r ++ s)) as [t Ht]; [rewrite !elem_of_cons; tauto |].
  rewrite show_skip in Ht by (done || by apply (next_skip follow3)). rewrite (bind_ok _ _ _ _ _ Ht).
  destruct (Hr f s Hs) as (r' & Hrun2 & Er); [lia |]. rewrite (bind_ok _ _ _ _ _ Hrun2).
  eexists. split; [reflexivity |]. cbn [cmap]. by rewrite El, Er.
Qed.

Lemma reads_all c : cmd_ok c -> reads0 c /\ reads1 c /\ reads2 c /\ reads3 c.
Proof.
  induction c as [argv|c IH file mode fd|l IHl r IHr|l IHl r IHr|c IH]; intros Hok.
  - pose proof (reads_exec _ Hok) as H0. pose proof (reads_up1 (Exec argv) eq_refl H0) as H1.
    pose proof (reads_up2 (Exec argv) eq_refl H1) as H2. pose proof (reads_up3 (Exec argv) eq_refl H2). done.
  - destruct Hok as [Hc Hr]. destruct (IH Hc) as [H _]. pose proof (reads_redir c _ _ _ Hr H) as H0.
    pose proof (reads_up1 (Redir c file mode fd) eq_refl H0) as H1. pose proof (reads_up2 (Redir c file mode fd) eq_refl H1) as H2.
    pose proof (reads_up3 (Redir c file mode fd) eq_refl H2). done.
  - pose proof Hok as [Hl Hr]. destruct (IHl Hl) as (L0 & _). destruct (IHr Hr) as (_ & R1 & _).
    pose proof (reads_pipe l r Hr L0 R1) as H1. pose proof (reads_up2 (PipeC l r) eq_refl H1) as H2.
    pose proof (reads_up3 (PipeC l r) eq_refl H2) as H3. pose proof (reads_down (PipeC l r) Hok eq_refl H3). done.
  - pose proof Hok as [Hl Hr]. destruct (IHl Hl) as (_ & _ & L2 & _). destruct (IHr Hr) as (_ & _ & _ & R3).
    pose proof (reads_list l r Hr L2 R3) as H3. pose proof (reads_down (ListC l r) Hok eq_refl H3) as H0.
    pose proof (reads_up1 (ListC l r) eq_refl H0) as H1. pose proof (reads_up2 (ListC l r) eq_refl H1). done.
  - destruct (IH Hok) as (_ & _ & C2 & _). pose proof (reads_back c C2) as H2. pose proof (reads_up3 (Back c) eq_refl H2) as H3.
    pose proof (reads_down (Back c) Hok eq_refl H3) as H0. pose proof (reads_up1 (Back c) eq_refl H0). done.
Qed.

(** C31: every command tree with at most nine readable words per program and the redirections the
    shell knows has a line, its text with parentheses where the nesting needs them, that
    the parser reads back as that tree: pipes, lists, ampersands, redirections and parentheses bind as
    the text says, and nothing of the line is left. *)
Theorem show_parse (c : cmd (list Z)) (Hc : cmd_ok c) :
  exists c', parse (show 3 c) = Ok (c', []) /\ cmap text c' = c.
Proof.
  destruct (reads_all c Hc) as (_ & _ & _ & H). destruct (H (parse_fuel (show 3 c)) [] I) as (c' & Hrun & E).
  { rewrite app_nil_r. unfold parse_fuel. lia. }
  rewrite app_nil_r in Hrun. exists c'. split; [| done]. unfold parse. rewrite bind_gets, (bind_ok _ _ _ _ _ Hrun). reflexivity.
Qed.

(** ** Witnesses *)

(** The line [ls -l > x | (wc; a &) < y]. *)
Definition sample_cmd : cmd (list Z) :=
  PipeC (Redir (Exec [[108; 115]; [45; 108]]) [120] (Z.lor (Z.lor O_WRONLY O_CREATE) O_TRUNC) 1)
        (Redir (ListC (Exec [[119; 99]]) (Back (Exec [[97]]))) [121] O_RDONLY 0).

Lemma show_parse_witness : exists c', parse (show 3 sample_cmd) = Ok (c', []) /\ cmap text c' = sample_cmd.
Proof.
  apply (show_parse sample_cmd).
  assert (forall w, w <> [] -> forallb (fun c => word_char c && negb (c =? 0)) w = true -> word_ok w) as Hw.
  { intros w H1 H2. split; [done |]. apply Forall_forall. intros c Hc%list_elem_of_In. rewrite forallb_forall in H2.
    apply H2, andb_true_iff in Hc as [H3 H4]. split; [done |]. by intros ->. }
  cbn [sample_cmd cmd_ok]. unfold redir_ok, MAXARGS. cbn [fst snd length].
  split_and!; repeat first [apply Forall_nil_2 | apply Forall_cons_2]; try (by apply Hw); try lia; rewrite !elem_of_cons; tauto.
Defined.

(** The line [a b>c]. *)
Lemma parsecmd_words_witness :
  Forall (fun c => c <> 0) [97; 32; 98; 62; 99] /\
  match parsecmd [97; 32; 98; 62; 99] with
  | Ok (c, buf) => forall t, t ∈ toks c -> cut0 (drop (5 - qrem t) buf) = text t /\ tok_ok [97; 32; 98; 62; 99] t
  | Panic _ => True
  | Diverge => False
  end.
Proof.
  assert (Forall (fun c => c <> 0) [97; 32; 98; 62; 99]) as H by (repeat constructor; lia).
  split; [exact H |]. exact (parsecmd_words [97; 32; 98; 62; 99] H).
Defined.

(** What that line is parsed to, and the buffer afterwards. *)
Example parsecmd_example :
  parsecmd [97; 32; 98; 62; 99] =
    Ok (Redir (Exec [mktok 5 [97]; mktok 3 [98]]) (mktok 1 [99]) (Z.lor (Z.lor O_WRONLY O_CREATE) O_TRUNC) 1, [97; 0; 98; 0; 99; 0]).
Proof. vm_compute. reflexivity. Qed.

(** A tenth argument is one too many. *)
Example too_many_args : parsecmd (mjoin (replicate 10 [97; 32])) = Panic "too many args".
Proof. vm_compute. reflexivity. Qed.
