(* ===== verification/Mkfs.v ===== *)
(** * Mkfs: the image builder, [mkfs/mkfs.c]

    The image file is an array of [nsec] sectors, one block each; the rest of the state are the two
    counters [freeinode] and [freeblock].  [assert] and [die] end the run ([Panic]).  The
    host is little-endian, as [xint] and [xshort] allow for; a [struct dinode] on the stack is the
    [inode] of [Fs] whose fields in memory are unused, and it is read and written with the
    layout the kernel uses.  A file of the host is its name and the pieces in which [read]
    delivers its bytes; opening it succeeds.

    Shown: the image is what the kernel's file system expects.  Each file is found in its inode
    through the kernel's block map, no block is used twice, the bitmap is exact, and the root
    directory lists the files. *)

From stdpp Require Import base list gmap sets strings.
From Stdlib Require Import ZArith Lia.
From S2P Require Import Prelude Riscv Mem Spinlock Bio Log Fs FsBlock FsProps.

(** ** Layout *)

Definition FSSIZE : Z := 2000.
Definition NINODES : Z := 200.
Definition nbitmap : Z := FSSIZE / (BSIZE * 8) + 1.
Definition ninodeblocks : Z := NINODES / IPB + 1.
Definition nlog : Z := LOGSIZE.
Definition nmeta : Z := 2 + nlog + ninodeblocks + nbitmap.
Definition nblocks : Z := FSSIZE - nmeta.

(** Byte order: the number whose bytes on a little-endian host are those stored. *)
Definition xshort (x : Z) : Z := u8 x + 2 ^ 8 * u8 (Z.shiftr x 8).
Definition xint (x : Z) : Z :=
  u8 x + 2 ^ 8 * u8 (Z.shiftr x 8) + 2 ^ 16 * u8 (Z.shiftr x 16) + 2 ^ 24 * u8 (Z.shiftr x 24).

Definition the_sb : superblock :=
  mksb FSMAGIC (xint FSSIZE) (xint nblocks) (xint NINODES) (xint nlog) (xint 2) (xint (2 + nlog)) (xint (2 + nlog + ninodeblocks)).

(** ** State *)

Record mk : Type := mkmk { img : Z -> block; nsec : Z; freeinode : Z; freeblock : Z }.

Definition zeroes : block := fun _ => 0.

Definition mk0 : mk := mkmk (fun _ => zeroes) 0 1 nmeta.

(** [sec * BSIZE] is computed with 32 bits. *)
Definition sector (sec : Z) : Z := u32 (sec * BSIZE) / BSIZE.

Definition wsect (sec : Z) (buf : block) : M mk unit :=
  modify (fun s => mkmk (zset (img s) (sector sec) buf) (Z.max (nsec s) (sector sec + 1)) (freeinode s) (freeblock s)).

Definition rsect (sec : Z) : M mk block :=
  let! n := gets nsec in
  if sector sec <? n then gets (fun s => img s (sector sec)) else panic "read".

Definition winode (inum : Z) (ip : inode) : M mk unit :=
  let bn := IBLOCK inum the_sb in
  let! buf := rsect bn in
  wsect bn (put_dinode buf (dip inum) ip).

Definition rinode (inum : Z) : M mk inode :=
  let bn := IBLOCK inum the_sb in
  let! buf := rsect bn in
  ret (get_dinode buf (dip inum) inode0).

Definition ialloc (type : Z) : M mk Z :=
  let! inum := gets freeinode in
  do! modify (fun s => mkmk (img s) (nsec s) (u32 (freeinode s + 1)) (freeblock s)) in
  let din := set_size (xint 0) (set_nlink (xshort 1) (set_type (xshort type) inode0)) in
  do! winode inum din in
  ret inum.

(** [freeblock++] *)
Definition take_block : M mk Z :=
  let! b := gets freeblock in
  do! modify (fun s => mkmk (img s) (nsec s) (freeinode s) (u32 (freeblock s + 1))) in
  ret b.

(** The loop of [balloc]: bits [i, i + n). *)
Fixpoint mark_bits (n : nat) (i : Z) (buf : block) : block :=
  match n with
  | O => buf
  | S n' => mark_bits n' (i + 1) (mark_bit buf i)
  end.

Definition balloc (used : Z) : M mk unit :=
  if negb (used <? BSIZE * 8) then panic "assert" else
  wsect (bmapstart the_sb) (mark_bits (Z.to_nat used) 0 zeroes).

(** The block for block [fbn] of the file: the two branches of [iappend]'s loop. *)
Definition file_block (din : inode) (fbn : Z) : M mk (inode * Z) :=
  if fbn <? NDIRECT then
    let! din :=
      (if xint (nth (Z.to_nat fbn) (addrs din) 0) =? 0 then
         let! b := take_block in ret (set_addr (Z.to_nat fbn) (xint b) din)
       else ret din) in
    ret (din, xint (nth (Z.to_nat fbn) (addrs din) 0))
  else
    let! din :=
      (if xint (nth (Z.to_nat NDIRECT) (addrs din) 0) =? 0 then
         let! b := take_block in ret (set_addr (Z.to_nat NDIRECT) (xint b) din)
       else ret din) in
    let ind := xint (nth (Z.to_nat NDIRECT) (addrs din) 0) in
    let! indirect := rsect ind in
    let! indirect :=
      (if load32 indirect (4 * (fbn - NDIRECT)) =? 0 then
         let! b := take_block in
         let indirect := store32 indirect (4 * (fbn - NDIRECT)) (xint b) in
         do! wsect ind indirect in
         ret indirect
       else ret indirect) in
    ret (din, xint (load32 indirect (4 * (fbn - NDIRECT)))).

(** The loop of [iappend]; each round writes at least one byte. *)
Fixpoint iappend_loop (fuel : nat) (din : inode) (off : Z) (p : list Z) : M mk (inode * Z) :=
  match p with
  | [] => ret (din, off)
  | _ =>
      match fuel with
      | O => diverge
      | S f =>
          let fbn := off / BSIZE in
          if negb (fbn <? MAXFILE) then panic "assert" else
          let! r := file_block din fbn in
          let n1 := Z.min (Z.of_nat (length p)) ((fbn + 1) * BSIZE - off) in
          let! buf := rsect r.2 in
          do! wsect r.2 (put_bytes buf (off - fbn * BSIZE) (take (Z.to_nat n1) p)) in
          iappend_loop f r.1 (u32 (off + n1)) (drop (Z.to_nat n1) p)
      end
  end.

Definition iappend (inum : Z) (p : list Z) : M mk unit :=
  let! din := rinode inum in
  let! r := iappend_loop (length p) din (xint (isize din)) p in
  winode inum (set_size (xint r.2) r.1).

(** ** [main] *)

(** [strncpy(de.name, name, DIRSIZ)] into a zeroed entry; [strcpy] for the short names. *)
Definition dirent (inum : Z) (name : list Z) : list Z :=
  let n := take (Z.to_nat DIRSIZ) name in
  [u8 (xshort inum); u8 (Z.shiftr (xshort inum) 8)] ++ n ++ replicate (Z.to_nat DIRSIZ - length n) 0.

Definition SLASH : Z := 47.
Definition UNDERSCORE : Z := 95.

(** ["user/"] *)
Definition user_prefix : list Z := [117; 115; 101; 114; SLASH].

Definition shortname (arg : list Z) : list Z :=
  if bool_decide (take 5 arg = user_prefix) then drop 5 arg else arg.

Definition skip_underscore (name : list Z) : list Z :=
  match name with
  | c :: rest => if c =? UNDERSCORE then rest else name
  | [] => []
  end.

Fixpoint append_pieces (inum : Z) (pieces : list (list Z)) : M mk unit :=
  match pieces with
  | [] => ret tt
  | p :: rest => do! iappend inum p in append_pieces inum rest
  end.

Definition add_file (f : list Z * list (list Z)) : M mk unit :=
  let name := shortname f.1 in
  if bool_decide (SLASH ∈ name) then panic "assert" else
  let! inum := ialloc T_FILE in
  do! iappend ROOTINO (dirent inum (skip_underscore name)) in
  append_pieces inum f.2.

Fixpoint add_files (l : list (list Z * list (list Z))) : M mk unit :=
  match l with
  | [] => ret tt
  | f :: l' => do! add_file f in add_files l'
  end.

(** [for(i = 0; i < FSSIZE; i++) wsect(i, zeroes)] *)
Fixpoint zero_sectors (n : nat) (i : Z) : M mk unit :=
  match n with
  | O => ret tt
  | S n' => do! wsect i zeroes in zero_sectors n' (i + 1)
  end.

(** The super block as bytes of block 1. *)
Definition sb_block : block :=
  store32 (store32 (store32 (store32 (store32 (store32 (store32 (store32 zeroes
    0 (magic the_sb)) 4 (sb_size the_sb)) 8 (Fs.nblocks the_sb)) 12 (ninodes the_sb)) 16 (Fs.nlog the_sb))
    20 (logstart the_sb)) 24 (inodestart the_sb)) 28 (bmapstart the_sb).

(** [fix size of root inode dir] *)
Definition fix_root : M mk unit :=
  let! din := rinode ROOTINO in
  let off := xint (isize din) in
  winode ROOTINO (set_size (xint (u32 ((off / BSIZE + 1) * BSIZE))) din).

Definition main (files : list (list Z * list (list Z))) : M mk unit :=
  do! zero_sectors (Z.to_nat FSSIZE) 0 in
  do! wsect 1 sb_block in
  let! rootino := ialloc T_DIR in
  if negb (rootino =? ROOTINO) then panic "assert" else
  do! iappend rootino (dirent rootino [46]) in
  do! iappend rootino (dirent rootino [46; 46]) in
  do! add_files files in
  do! fix_root in
  let! used := gets freeblock in
  balloc used.

(** ** Lemmas: numbers, sectors *)

Lemma xint_u32 x : xint x = u32 x.
Proof.
  unfold xint, u8, u32. rewrite !Z.shiftr_div_pow2 by lia.
  change (2 ^ 32) with (2 ^ 8 * (2 ^ 8 * (2 ^ 8 * 2 ^ 8))). rewrite 3 Z.rem_mul_r by lia. rewrite !Z.div_div by lia.
  change (2 ^ 8 * 2 ^ 8) with (2 ^ 16). change (2 ^ 16 * 2 ^ 8) with (2 ^ 24). lia.
Qed.

Lemma xint_small x : 0 <= x < 2 ^ 32 -> xint x = x.
Proof. intros Hx. rewrite xint_u32. by apply u32_small. Qed.

Lemma sector_small sec : 0 <= sec < 2 ^ 22 -> sector sec = sec.
Proof. intros H. unfold sector. rewrite u32_small by (unfold BSIZE; lia). apply Z.div_mul. done. Qed.

Lemma wsect_ok sec buf s : 0 <= sec < FSSIZE -> nsec s = FSSIZE ->
  wsect sec buf s = Ok (tt, mkmk (zset (img s) sec buf) FSSIZE (freeinode s) (freeblock s)).
Proof.
  intros H Hn. unfold wsect, modify. rewrite sector_small by (unfold FSSIZE in H; lia). rewrite Hn, Z.max_l by lia. done.
Qed.

Lemma rsect_ok sec s : 0 <= sec < FSSIZE -> nsec s = FSSIZE -> rsect sec s = Ok (img s sec, s).
Proof.
  intros H Hn. unfold rsect. rewrite bind_gets, Hn, sector_small by (unfold FSSIZE in H; lia). destruct (Z.ltb_spec sec FSSIZE); [done | lia].
Qed.

Lemma load_zero n (b : block) a :
  (forall o, 0 <= o < BSIZE -> b o = 0) -> 0 <= a -> a + Z.of_nat n <= BSIZE -> load n b a = 0.
Proof.
  intros Hz. revert a. induction n as [|n IH]; intros a Ha Hn; [done |]. cbn [load]. rewrite Hz by lia. rewrite IH by lia. done.
Qed.

#[local] Arguments load : simpl never.
#[local] Arguments store : simpl never.

(** ** The image as the kernel sees it *)

Definition ind (x : inode) : Z := nth (Z.to_nat NDIRECT) (addrs x) 0.

(** [X] are the inodes, [C] the contents of the files, [nb] their numbers of blocks; [role b] says which
    file uses block [b], and as which of its blocks ([None] for its indirect block). *)
Record image (X : Z -> inode) (C : Z -> list Z) (nb : Z -> Z) (role : Z -> Z * option Z) (s : mk) : Prop := {
  m_nsec : nsec s = FSSIZE;
  m_ino : 1 <= freeinode s <= NINODES;
  m_free : nmeta <= freeblock s <= FSSIZE;
  m_zero : forall b o, freeblock s <= b -> 0 <= o < BSIZE -> img s b o = 0;
  m_fields : forall k, 1 <= k < freeinode s -> disk_fields (X k);
  m_nb : forall k, 1 <= k < freeinode s -> 0 <= nb k <= MAXFILE;
  m_data : forall k bn, 1 <= k < freeinode s -> 0 <= bn < nb k ->
             nmeta <= faddr (img s) (X k) bn < freeblock s /\ role (faddr (img s) (X k) bn) = (k, Some bn);
  m_none : forall k bn, 1 <= k < freeinode s -> nb k <= bn < MAXFILE -> faddr (img s) (X k) bn = 0;
  m_ind : forall k, 1 <= k < freeinode s -> ind (X k) <> 0 ->
            nmeta <= ind (X k) < freeblock s /\ role (ind (X k)) = (k, None);
  m_bytes : forall k off, 1 <= k < freeinode s -> 0 <= off < nb k * BSIZE ->
              fbyte (img s) (X k) off = nth (Z.to_nat off) (C k) 0;
  m_len : forall k, 1 <= k < freeinode s -> Z.of_nat (length (C k)) <= nb k * BSIZE
}.

(** The inodes on disk are [X], but for inode [cur], which is being written. *)
Definition on_disk (X : Z -> inode) (cur : Z) (s : mk) : Prop :=
  forall k, 1 <= k < freeinode s -> k <> cur -> get_dinode (img s (IBLOCK k the_sb)) (dip k) inode0 = X k.

Lemma faddr_ext V W x bn : (ind x <> 0 -> W (ind x) = V (ind x)) -> faddr W x bn = faddr V x bn.
Proof.
  intros H. unfold faddr. destruct (bn <? NDIRECT); [done |]. cbn zeta. fold (ind x). destruct (Z.eqb_spec (ind x) 0); [done |]. by rewrite H.
Qed.

Lemma div_bound off n : 0 <= off < n * BSIZE -> 0 <= off / BSIZE < n.
Proof. intros H. split; [apply Z.div_pos; unfold BSIZE in *; lia | apply Z.div_lt_upper_bound; unfold BSIZE in *; lia]. Qed.

(** A new data block [freeblock] at the end of file [k]. *)
Lemma extend_ok X C nb role s k din V :
  image X C nb role s -> 1 <= k < freeinode s -> nb k < MAXFILE -> freeblock s < FSSIZE -> disk_fields din ->
  ind din = ind (X k) -> faddr V din (nb k) = freeblock s ->
  (forall bn, 0 <= bn < MAXFILE -> bn <> nb k -> faddr V din bn = faddr (img s) (X k) bn) ->
  (forall k' bn, 1 <= k' < freeinode s -> k' <> k -> 0 <= bn < MAXFILE -> faddr V (X k') bn = faddr (img s) (X k') bn) ->
  (forall b, (freeblock s <= b \/ exists k' bn, role b = (k', Some bn)) -> V b = img s b) ->
  image (zset X k din) C (zset nb k (nb k + 1)) (zset role (freeblock s) (k, Some (nb k))) (mkmk V FSSIZE (freeinode s) (freeblock s + 1)).
Proof.
  intros M Hk Hnb Hfree Hdf Hind Hnew Hsame Hother HV. pose proof (m_nb _ _ _ _ _ M) as Hn. pose proof (m_free _ _ _ _ _ M) as Hf.
  pose proof (m_data _ _ _ _ _ M) as Hd.
  assert (nmeta > 0) as Hpos by reflexivity.
  split; cbn [img nsec freeinode freeblock].
  - done.
  - apply (m_ino _ _ _ _ _ M).
  - lia.
  - intros b o Hb Ho. rewrite HV by lia. apply (m_zero _ _ _ _ _ M); lia.
  - intros k' Hk'. unfold zset. destruct (Z.eqb_spec k' k); [done | by apply (m_fields _ _ _ _ _ M)].
  - intros k' Hk'. unfold zset. destruct (Z.eqb_spec k' k); [subst; specialize (Hn k Hk); lia | by apply Hn].
  - intros k' bn Hk' Hbn. pose proof (Hn k' Hk'). unfold zset in *. destruct (Z.eqb_spec k' k) as [->|Hne].
    + destruct (Z.eq_dec bn (nb k)) as [->|Hb].
      * rewrite Hnew, Z.eqb_refl. split; [lia | done].
      * rewrite Hsame by lia. destruct (Hd k bn) as [H1 H2]; [done | lia |]. split; [lia |].
        destruct (Z.eqb_spec (faddr (img s) (X k) bn) (freeblock s)); [lia | done].
    + rewrite Hother by lia. destruct (Hd k' bn) as [H1 H2]; [done | lia |]. split; [lia |].
      destruct (Z.eqb_spec (faddr (img s) (X k') bn) (freeblock s)); [lia | done].
  - intros k' bn Hk' Hbn. pose proof (Hn k' Hk'). unfold zset in *. destruct (Z.eqb_spec k' k) as [->|Hne].
    + rewrite Hsame by lia. apply (m_none _ _ _ _ _ M); [done | lia].
    + rewrite Hother by lia. apply (m_none _ _ _ _ _ M); [done | lia].
  - intros k' Hk'. unfold zset at 1 2 4. unfold zset. destruct (Z.eqb_spec k' k) as [->|Hne].
    + rewrite Hind. intros Hi. destruct (m_ind _ _ _ _ _ M k Hk Hi). split; [lia |]. destruct (Z.eqb_spec (ind (X k)) (freeblock s)); [lia | done].
    + intros Hi. destruct (m_ind _ _ _ _ _ M k' Hk' Hi). split; [lia |]. destruct (Z.eqb_spec (ind (X k')) (freeblock s)); [lia | done].
  - intros k' off Hk' Hoff. pose proof (Hn k' Hk'). unfold zset in *. unfold fbyte. destruct (Z.eqb_spec k' k) as [->|Hne].
    + pose proof (div_bound _ _ Hoff) as Hbn. destruct (Z.eq_dec (off / BSIZE) (nb k)) as [Eb|Hb].
      * rewrite Eb, Hnew, HV by lia. rewrite (m_zero _ _ _ _ _ M) by (lia || (apply Z.mod_pos_bound; done)).
        symmetry. apply nth_overflow. pose proof (m_len _ _ _ _ _ M k Hk) as Hlen.
        assert (nb k * BSIZE <= off); [| lia]. rewrite <- Eb. rewrite Z.mul_comm. apply Z.mul_div_le. done.
      * rewrite Hsame by lia. assert (0 <= off / BSIZE < nb k) as Hin by lia. destruct (Hd k _ Hk Hin) as [_ Hr]. rewrite HV by eauto.
        apply (m_bytes _ _ _ _ _ M); [done |]. split; [lia |]. pose proof (Z.div_mod off BSIZE ltac:(done)). pose proof (Z.mod_pos_bound off BSIZE ltac:(done)).
        unfold BSIZE in *. nia.
    + pose proof (div_bound _ _ Hoff) as Hbn. rewrite Hother by lia. destruct (Hd k' _ Hk' Hbn) as [_ Hr]. rewrite HV by eauto.
      by apply (m_bytes _ _ _ _ _ M).
  - intros k' Hk'. pose proof (m_len _ _ _ _ _ M k' Hk'). unfold zset. destruct (Z.eqb_spec k' k); [subst; unfold BSIZE in *; lia | done].
Qed.

(** *** Allocation *)

Lemma MAXFILE_eq : MAXFILE = 268.
Proof. reflexivity. Qed.

Lemma set_addr_fields n v x : disk_fields x -> 0 <= v < 2 ^ 32 -> disk_fields (set_addr n v x).
Proof. intros [] Hv. split; try done. cbn. rewrite length_insert. split; [tauto |]. apply Forall_insert; [tauto | done]. Qed.

Lemma ind_set_addr n v x : n <> Z.to_nat NDIRECT -> ind (set_addr n v x) = ind x.
Proof. intros Hn. unfold ind. cbn. rewrite !nth_lookup, list_lookup_insert_ne by done. done. Qed.

Lemma nth_addr_eq n v x : (n < length (addrs x))%nat -> nth n (addrs (set_addr n v x)) 0 = v.
Proof. intros Hn. cbn. by rewrite nth_lookup, list_lookup_insert_eq. Qed.

Lemma nth_addr_ne n m v x : n <> m -> nth m (addrs (set_addr n v x)) 0 = nth m (addrs x) 0.
Proof. intros Hn. cbn. by rewrite !nth_lookup, list_lookup_insert_ne. Qed.

(** Indirect blocks are not data blocks, and each belongs to one file. *)
Lemma ind_apart X C nb role s k k' :
  image X C nb role s -> 1 <= k < freeinode s -> 1 <= k' < freeinode s -> k' <> k -> ind (X k') <> 0 -> ind (X k') <> ind (X k).
Proof.
  intros M Hk Hk' Hne Hi E. pose proof (m_ind _ _ _ _ _ M k' Hk' Hi) as [_ H1]. rewrite E in H1, Hi.
  pose proof (m_ind _ _ _ _ _ M k Hk Hi) as [_ H2]. congruence.
Qed.

Lemma direct_alloc X C nb role s k :
  image X C nb role s -> 1 <= k < freeinode s -> nb k < NDIRECT -> freeblock s < FSSIZE ->
  image (zset X k (set_addr (Z.to_nat (nb k)) (freeblock s) (X k))) C (zset nb k (nb k + 1)) (zset role (freeblock s) (k, Some (nb k)))
    (mkmk (img s) FSSIZE (freeinode s) (freeblock s + 1)).
Proof.
  intros M Hk Hnb Hf. pose proof (m_fields _ _ _ _ _ M k Hk) as Hdf. pose proof (m_nb _ _ _ _ _ M k Hk) as Hn. pose proof (m_free _ _ _ _ _ M) as Hfr.
  assert (nmeta = 46) as Em by reflexivity. unfold NDIRECT, FSSIZE in *.
  assert (length (addrs (X k)) = 13%nat) as Hlen by apply (df_addrs _ Hdf).
  assert (ind (set_addr (Z.to_nat (nb k)) (freeblock s) (X k)) = ind (X k)) as Hi by (apply ind_set_addr; unfold NDIRECT; lia).
  apply extend_ok; try done; [rewrite MAXFILE_eq; lia | apply set_addr_fields; [done | lia] | |].
  - unfold faddr. destruct (Z.ltb_spec (nb k) NDIRECT); [| unfold NDIRECT in *; lia]. apply nth_addr_eq. lia.
  - intros bn Hbn Hne. unfold faddr. destruct (Z.ltb_spec bn NDIRECT); [apply nth_addr_ne; lia |]. cbn zeta.
    fold (ind (set_addr (Z.to_nat (nb k)) (freeblock s) (X k))). by rewrite Hi.
Qed.

Lemma ind_alloc X C nb role s k :
  image X C nb role s -> 1 <= k < freeinode s -> ind (X k) = 0 -> nb k = NDIRECT -> freeblock s < FSSIZE ->
  image (zset X k (set_addr (Z.to_nat NDIRECT) (freeblock s) (X k))) C nb (zset role (freeblock s) (k, None))
    (mkmk (img s) FSSIZE (freeinode s) (freeblock s + 1)).
Proof.
  intros M Hk Hi Hnb Hf. pose proof (m_fields _ _ _ _ _ M k Hk) as Hdf. pose proof (m_free _ _ _ _ _ M) as Hfr.
  assert (nmeta = 46) as Em by reflexivity. assert (length (addrs (X k)) = 13%nat) as Hlen by apply (df_addrs _ Hdf).
  set (din := set_addr (Z.to_nat NDIRECT) (freeblock s) (X k)).
  assert (ind din = freeblock s) as Hi' by (apply nth_addr_eq; unfold NDIRECT; lia).
  assert (forall bn, 0 <= bn < MAXFILE -> faddr (img s) din bn = faddr (img s) (X k) bn) as Hfa.
  { intros bn Hbn. unfold faddr. destruct (Z.ltb_spec bn NDIRECT); [apply nth_addr_ne; unfold NDIRECT in *; lia |]. cbn zeta.
    fold (ind din). fold (ind (X k)). rewrite Hi, Hi', Z.eqb_refl. destruct (Z.eqb_spec (freeblock s) 0); [done |].
    apply load_zero; [intros o Ho; apply (m_zero _ _ _ _ _ M); [lia | done] | |]; rewrite MAXFILE_eq in *; unfold NDIRECT, BSIZE in *; simpl in *; lia. }
  pose proof (m_nb _ _ _ _ _ M) as Hn.
  split; cbn [img nsec freeinode freeblock]; try apply M; try (unfold FSSIZE in *; lia).
  - intros b o Hb Ho. apply (m_zero _ _ _ _ _ M); lia.
  - intros k' Hk'. unfold zset. destruct (Z.eqb_spec k' k); [apply set_addr_fields; [done | unfold FSSIZE in *; lia] | by apply (m_fields _ _ _ _ _ M)].
  - intros k' bn Hk' Hbn. pose proof (Hn k' Hk'). assert (faddr (img s) (zset X k din k') bn = faddr (img s) (X k') bn) as ->.
    { unfold zset. destruct (Z.eqb_spec k' k); [subst; apply Hfa; lia | done]. }
    destruct (m_data _ _ _ _ _ M k' bn Hk' Hbn). split; [lia |]. rewrite zset_ne by lia. done.
  - intros k' bn Hk' Hbn. pose proof (Hn k' Hk'). unfold zset. destruct (Z.eqb_spec k' k); [subst; rewrite Hfa by lia |]; by apply (m_none _ _ _ _ _ M).
  - intros k' Hk'. destruct (Z.eq_dec k' k) as [->|Hne].
    + rewrite (zset_eq X). rewrite Hi', zset_eq. split; [lia | done].
    + rewrite (zset_ne X) by done. intros Hi1. destruct (m_ind _ _ _ _ _ M k' Hk' Hi1). rewrite zset_ne by lia. split; [lia | done].
  - intros k' off Hk' Hoff. pose proof (div_bound _ _ Hoff). pose proof (Hn k' Hk').
    assert (fbyte (img s) (zset X k din k') off = fbyte (img s) (X k') off) as ->; [| by apply (m_bytes _ _ _ _ _ M)].
    unfold zset, fbyte. destruct (Z.eqb_spec k' k); [subst; by rewrite Hfa by lia | done].
Qed.

Lemma entry_alloc X C nb role s k :
  image X C nb role s -> 1 <= k < freeinode s -> ind (X k) <> 0 -> NDIRECT <= nb k < MAXFILE -> freeblock s < FSSIZE ->
  image (zset X k (X k)) C (zset nb k (nb k + 1)) (zset role (freeblock s) (k, Some (nb k)))
    (mkmk (zset (img s) (ind (X k)) (store32 (img s (ind (X k))) (4 * (nb k - NDIRECT)) (freeblock s))) FSSIZE (freeinode s) (freeblock s + 1)).
Proof.
  intros M Hk Hi Hnb Hf. pose proof (m_free _ _ _ _ _ M) as Hfr. pose proof (m_ind _ _ _ _ _ M k Hk Hi) as [Hir Hrole].
  set (V := zset (img s) (ind (X k)) _). assert (nmeta = 46) as Em by reflexivity.
  assert (forall bn, NDIRECT <= bn -> faddr V (X k) bn = load32 (store32 (img s (ind (X k))) (4 * (nb k - NDIRECT)) (freeblock s)) (4 * (bn - NDIRECT))) as Hfa.
  { intros bn Hbn. unfold faddr. destruct (Z.ltb_spec bn NDIRECT); [lia |]. cbn zeta. fold (ind (X k)).
    destruct (Z.eqb_spec (ind (X k)) 0); [done |]. unfold V. by rewrite zset_eq. }
  apply extend_ok; try done; [lia | by apply (m_fields _ _ _ _ _ M) | | | |].
  - rewrite Hfa by lia. unfold load32, store32. rewrite load_store_eq. apply Z.mod_small. unfold FSSIZE in *. simpl. lia.
  - intros bn Hbn Hne. destruct (Z.ltb_spec bn NDIRECT) as [Hlt|Hge].
    + unfold faddr. destruct (Z.ltb_spec bn NDIRECT); [done | lia].
    + rewrite Hfa by done. unfold load32, store32. rewrite load_store_ne by (simpl; lia). symmetry. unfold faddr.
      destruct (Z.ltb_spec bn NDIRECT); [lia |]. cbn zeta. fold (ind (X k)). destruct (Z.eqb_spec (ind (X k)) 0); [done |]. done.
  - intros k' bn Hk' Hne Hbn. apply faddr_ext. intros Hi'. unfold V. apply zset_ne. by eapply ind_apart.
  - intros b [Hb|(k' & bn & Hb)]; unfold V; apply zset_ne; [lia |]. intros ->. congruence.
Qed.

Lemma image_ext X X' C C' nb nb' role s :
  image X C nb role s -> (forall k, X' k = X k) -> (forall k, C' k = C k) -> (forall k, nb' k = nb k) -> image X' C' nb' role s.
Proof.
  intros [] H1 H2 H3. split; try done; intros; rewrite ?H1, ?H2, ?H3 in *; eauto.
Qed.

(** Everything but the addresses. *)
Record same_file (x y : inode) : Prop := {
  sf_type : i_type x = i_type y;
  sf_nlink : nlink x = nlink y;
  sf_size : isize x = isize y;
  sf_mem : forall b o, get_dinode b o x = get_dinode b o y
}.

Lemma same_refl x : same_file x x.
Proof. done. Qed.

Lemma same_trans x y z : same_file x y -> same_file y z -> same_file x z.
Proof. intros [] []. split; congruence. Qed.

Lemma same_set_addr n v x : same_file (set_addr n v x) x.
Proof. done. Qed.

(** Blocks of a file of [n] data blocks. *)
Definition cost (n : Z) : Z := n + (if NDIRECT <? n then 1 else 0).

Lemma zset_zset {A} (f : Z -> A) k a b x : zset (zset f k a) k b x = zset f k b x.
Proof. unfold zset. by destruct (_ =? _). Qed.

Lemma zset_id {A} (f : Z -> A) k x : zset f k (f k) x = f x.
Proof. unfold zset. by destruct (Z.eqb_spec x k); subst. Qed.

Lemma take_block_ok s : 0 <= freeblock s < FSSIZE ->
  take_block s = Ok (freeblock s, mkmk (img s) (nsec s) (freeinode s) (freeblock s + 1)).
Proof. intros H. unfold take_block. rewrite bind_gets, bind_modify. unfold FSSIZE in H. rewrite u32_small by lia. done. Qed.

Record block_post (X : Z -> inode) (C : Z -> list Z) (nb : Z -> Z) (s : mk) (k fbn : Z) (din : inode) (s' : mk) : Prop := {
  b_image : exists role, image (zset X k din) C (zset nb k (fbn + 1)) role s';
  b_tight : ind din <> 0 <-> NDIRECT < fbn + 1;
  b_same : same_file din (X k);
  b_free : freeblock s' = freeblock s + cost (fbn + 1) - cost (nb k);
  b_ino : freeinode s' = freeinode s;
  b_meta : forall b, b < nmeta -> img s' b = img s b
}.

Section FileBlock.
Context (X : Z -> inode) (C : Z -> list Z) (nb : Z -> Z) (role : Z -> Z * option Z) (s : mk) (k fbn : Z).
Context (M : image X C nb role s) (Hk : 1 <= k < freeinode s) (Htight : ind (X k) <> 0 <-> NDIRECT < nb k).
Context (Hfbn : 0 <= fbn < MAXFILE) (Hroom : freeblock s + cost (fbn + 1) - cost (nb k) <= FSSIZE).

(** The block is there already. *)
Lemma block_there : fbn + 1 = nb k ->
  file_block (X k) fbn s = Ok ((X k, faddr (img s) (X k) fbn), s) /\ block_post X C nb s k fbn (X k) s.
Proof using M Hk Htight Hfbn.
  intros E. pose proof (m_data _ _ _ _ _ M k fbn Hk ltac:(lia)) as [Hd _]. pose proof (m_free _ _ _ _ _ M) as Hf.
  assert (nmeta = 46) as Em by reflexivity. unfold FSSIZE in Hf. split.
  - unfold file_block, faddr in *. destruct (Z.ltb_spec fbn NDIRECT) as [Hlt|Hge].
    + rewrite (xint_small (nth _ _ _)) by lia. destruct (Z.eqb_spec (nth (Z.to_nat fbn) (addrs (X k)) 0) 0); [lia |].
      rewrite bind_ret. by rewrite xint_small by lia.
    + cbn zeta in Hd |- *. fold (ind (X k)) in *. assert (ind (X k) <> 0) as Hi by (apply Htight; lia).
      pose proof (m_ind _ _ _ _ _ M k Hk Hi) as [Hir _]. rewrite (xint_small (ind (X k))) by lia.
      destruct (Z.eqb_spec (ind (X k)) 0); [done |]. rewrite bind_ret. fold (ind (X k)). rewrite (xint_small (ind (X k))) by lia.
      rewrite (bind_ok _ _ _ _ _ (rsect_ok (ind (X k)) s ltac:(unfold FSSIZE; lia) (m_nsec _ _ _ _ _ M))).
      destruct (Z.eqb_spec (load32 (img s (ind (X k))) (4 * (fbn - NDIRECT))) 0); [lia |]. rewrite bind_ret. by rewrite xint_small by lia.
  - split; try done; [| by rewrite E | rewrite E; lia]. exists role. rewrite E. eapply image_ext; [exact M | | done |]; intros; apply zset_id.
Qed.

Lemma block_direct : fbn = nb k -> fbn < NDIRECT ->
  exists din s', file_block (X k) fbn s = Ok ((din, faddr (img s') din fbn), s') /\ block_post X C nb s k fbn din s'.
Proof using M Hk Htight Hfbn Hroom.
  intros E Hlt. pose proof (m_free _ _ _ _ _ M) as Hf. assert (nmeta = 46) as Em by reflexivity.
  assert (cost (fbn + 1) - cost (nb k) = 1) as Ec.
  { unfold cost. rewrite E. destruct (Z.ltb_spec NDIRECT (nb k + 1)), (Z.ltb_spec NDIRECT (nb k)); lia. }
  assert (freeblock s < FSSIZE) as Hfs by lia. unfold FSSIZE in Hf.
  pose proof (m_none _ _ _ _ _ M k fbn Hk ltac:(lia)) as H0. pose proof (m_fields _ _ _ _ _ M k Hk) as Hdf.
  assert (length (addrs (X k)) = 13%nat) as Hlen by apply (df_addrs _ Hdf).
  assert (Z.to_nat fbn < length (addrs (X k)))%nat as Hin by (unfold NDIRECT in Hlt; lia).
  eexists (set_addr (Z.to_nat fbn) (freeblock s) (X k)), (mkmk (img s) FSSIZE (freeinode s) (freeblock s + 1)). split.
  - unfold file_block. unfold faddr in *. destruct (Z.ltb_spec fbn NDIRECT) as [_|]; [| lia]. rewrite H0. change (xint 0 =? 0) with true. cbv iota.
    rewrite bind_assoc, (bind_ok _ _ _ _ _ (take_block_ok s ltac:(lia))), bind_ret, (m_nsec _ _ _ _ _ M).
    rewrite (xint_small (freeblock s)) by lia. rewrite (nth_addr_eq _ _ _ Hin), (xint_small (freeblock s)) by lia. done.
  - split; try done; [| | cbn; lia].
    + exists (zset role (freeblock s) (k, Some (nb k))). rewrite E. by apply direct_alloc; [| | lia |].
    + rewrite ind_set_addr by (unfold NDIRECT in *; lia). rewrite Htight. lia.
Qed.

Lemma block_indirect : fbn = nb k -> NDIRECT <= fbn ->
  exists din s', file_block (X k) fbn s = Ok ((din, faddr (img s') din fbn), s') /\ block_post X C nb s k fbn din s'.
Proof using M Hk Htight Hfbn Hroom.
  intros E Hge. pose proof (m_free _ _ _ _ _ M) as Hf. assert (nmeta = 46) as Em by reflexivity.
  pose proof (m_fields _ _ _ _ _ M k Hk) as Hdf. assert (length (addrs (X k)) = 13%nat) as Hlen by apply (df_addrs _ Hdf).
  (* the indirect block *)
  assert (exists din s1 role1 d, image (zset X k din) C nb role1 s1 /\ ind din <> 0 /\ same_file din (X k) /\ freeinode s1 = freeinode s /\
    freeblock s1 = freeblock s + d /\ img s1 = img s /\ d + 1 = cost (fbn + 1) - cost (nb k) /\
    (if xint (nth (Z.to_nat NDIRECT) (addrs (X k)) 0) =? 0 then
         let! b := take_block in ret (set_addr (Z.to_nat NDIRECT) (xint b) (X k))
       else ret (X k)) s = Ok (din, s1)) as (din & s1 & role1 & d & M1 & Hi1 & Hsame & Hino & Hfr & Himg & Hd & Hrun).
  { unfold FSSIZE in Hf. fold (ind (X k)). destruct (Z.eq_dec (ind (X k)) 0) as [Hi|Hi].
    - assert (nb k = NDIRECT) as Enb by (destruct (Z.lt_trichotomy NDIRECT (nb k)) as [H|[H|H]]; [apply Htight in H; done | done | lia]).
      assert (cost (fbn + 1) - cost (nb k) = 2) as Ec by (rewrite E, Enb; reflexivity).
      exists (set_addr (Z.to_nat NDIRECT) (freeblock s) (X k)), (mkmk (img s) FSSIZE (freeinode s) (freeblock s + 1)), (zset role (freeblock s) (k, None)), 1.
      assert (ind (set_addr (Z.to_nat NDIRECT) (freeblock s) (X k)) = freeblock s) as Hi' by (apply nth_addr_eq; unfold NDIRECT; lia).
      split_and!; try done; [apply ind_alloc; try done; unfold FSSIZE in *; lia | rewrite Hi'; lia |].
      rewrite Hi. change (xint 0 =? 0) with true. cbv iota.
      rewrite (bind_ok _ _ _ _ _ (take_block_ok s ltac:(unfold FSSIZE in *; lia))), (m_nsec _ _ _ _ _ M). rewrite xint_small by (unfold FSSIZE in *; lia). done.
    - assert (NDIRECT < nb k) as Hlt by (by apply Htight). pose proof (m_ind _ _ _ _ _ M k Hk Hi) as [Hir _].
      exists (X k), s, role, 0. split_and!; try done; [eapply image_ext; [exact M | | done..]; intros; apply zset_id | lia | |].
      + unfold cost. rewrite E. destruct (Z.ltb_spec NDIRECT (nb k + 1)), (Z.ltb_spec NDIRECT (nb k)); lia.
      + rewrite xint_small by lia. by destruct (Z.eqb_spec (ind (X k)) 0). }
  (* the entry *)
  assert (freeblock s1 < FSSIZE) as Hfs by lia. pose proof (m_free _ _ _ _ _ M1) as Hf1. unfold FSSIZE in Hf1.
  assert (1 <= k < freeinode s1) as Hk1 by (by rewrite Hino).
  pose proof (m_ind _ _ _ _ _ M1 k Hk1) as Hir. rewrite zset_eq in Hir. specialize (Hir Hi1) as [Hir _].
  pose proof (m_none _ _ _ _ _ M1 k fbn Hk1 ltac:(lia)) as H0. rewrite zset_eq in H0.
  pose proof (entry_alloc _ _ _ _ _ k M1 Hk1) as Ha. rewrite zset_eq in Ha. specialize (Ha Hi1 ltac:(lia) Hfs). rewrite <- E in Ha.
  set (V := zset (img s1) (ind din) (store32 (img s1 (ind din)) (4 * (fbn - NDIRECT)) (freeblock s1))) in *.
  assert (faddr V din fbn = freeblock s1) as Hnew.
  { unfold faddr. destruct (Z.ltb_spec fbn NDIRECT); [lia |]. cbn zeta. fold (ind din). destruct (Z.eqb_spec (ind din) 0); [done |].
    unfold V. rewrite zset_eq. unfold load32, store32. rewrite load_store_eq. apply Z.mod_small. simpl. lia. }
  assert (load32 (img s1 (ind din)) (4 * (fbn - NDIRECT)) = 0) as Hl0.
  { unfold faddr in H0. destruct (Z.ltb_spec fbn NDIRECT); [lia |]. cbn zeta in H0. fold (ind din) in H0. by destruct (Z.eqb_spec (ind din) 0). }
  exists din, (mkmk V FSSIZE (freeinode s1) (freeblock s1 + 1)). split.
  - unfold file_block. destruct (Z.ltb_spec fbn NDIRECT); [lia |]. rewrite (bind_ok _ _ _ _ _ Hrun). fold (ind din).
    rewrite (xint_small (ind din)) by lia. rewrite (bind_ok _ _ _ _ _ (rsect_ok (ind din) s1 ltac:(unfold FSSIZE; lia) (m_nsec _ _ _ _ _ M1))).
    rewrite Hl0. change (0 =? 0) with true. cbv iota.
    rewrite bind_assoc, (bind_ok _ _ _ _ _ (take_block_ok s1 ltac:(lia))), (m_nsec _ _ _ _ _ M1), (xint_small (freeblock s1)) by lia.
    rewrite bind_assoc. erewrite bind_ok by (apply wsect_ok; [unfold FSSIZE; lia | reflexivity]). rewrite bind_ret. cbn [img nsec freeinode freeblock].
    unfold ret. rewrite Hnew. f_equal. f_equal. f_equal. unfold load32, store32. rewrite load_store_eq.
    rewrite Z.mod_small by (simpl; lia). apply xint_small. lia.
  - split; cbn [img nsec freeinode freeblock].
    + eexists. eapply image_ext; [exact Ha | | done |]; intros k'; [unfold zset; by destruct (k' =? k) | by rewrite E].
    + split; [lia | done].
    + done.
    + lia.
    + done.
    + intros b Hb. unfold V. rewrite zset_ne by lia. by rewrite Himg.
Qed.

Lemma file_block_ok : fbn = nb k \/ fbn + 1 = nb k ->
  exists din s', file_block (X k) fbn s = Ok ((din, faddr (img s') din fbn), s') /\ block_post X C nb s k fbn din s'.
Proof using M Hk Htight Hfbn Hroom.
  intros [E|E]; [destruct (Z.lt_ge_cases fbn NDIRECT); [by apply block_direct | by apply block_indirect] |].
  exists (X k), s. by apply block_there.
Qed.

End FileBlock.

(** *** Writing *)

(** Blocks of [n] bytes. *)
Definition blocks (n : Z) : Z := (n + BSIZE - 1) / BSIZE.

Lemma data_write X C nb role s k off piece :
  image X C nb role s -> 1 <= k < freeinode s -> off = Z.of_nat (length (C k)) -> off / BSIZE < nb k ->
  off mod BSIZE + Z.of_nat (length piece) <= BSIZE ->
  let x := faddr (img s) (X k) (off / BSIZE) in
  image X (zset C k (C k ++ piece)) nb role
    (mkmk (zset (img s) x (put_bytes (img s x) (off - off / BSIZE * BSIZE) piece)) FSSIZE (freeinode s) (freeblock s)).
Proof.
  intros M Hk Hoff Hbn Hlen x. assert (0 <= off / BSIZE) as H0 by (apply Z.div_pos; [lia | done]).
  destruct (m_data _ _ _ _ _ M k (off / BSIZE) Hk ltac:(lia)) as [Hx Hrole]. fold x in Hx, Hrole.
  set (V := zset (img s) x _).
  assert (forall k' bn, 1 <= k' < freeinode s -> faddr V (X k') bn = faddr (img s) (X k') bn) as Hfa.
  { intros k' bn Hk'. apply faddr_ext. intros Hi. apply zset_ne. intros E. pose proof (m_ind _ _ _ _ _ M k' Hk' Hi) as [_ H]. rewrite E in H. congruence. }
  pose proof (m_free _ _ _ _ _ M). pose proof (Z.div_mod off BSIZE ltac:(done)) as Hdm. pose proof (Z.mod_pos_bound off BSIZE ltac:(done)) as Hmod.
  split; cbn [img nsec freeinode freeblock]; try apply M; try done.
  - intros b o Hb Ho. unfold V. rewrite zset_ne by lia. by apply (m_zero _ _ _ _ _ M).
  - intros k' bn Hk' Hb. rewrite Hfa by done. by apply (m_data _ _ _ _ _ M).
  - intros k' bn Hk' Hb. rewrite Hfa by done. by apply (m_none _ _ _ _ _ M).
  - intros k' o Hk' Ho. unfold fbyte. rewrite Hfa by done. pose proof (div_bound _ _ Ho) as Hob.
    pose proof (m_bytes _ _ _ _ _ M k' o Hk' Ho) as Hb. unfold fbyte in Hb.
    destruct (m_data _ _ _ _ _ M k' _ Hk' Hob) as [_ Hr]. destruct (Z.eq_dec (faddr (img s) (X k') (o / BSIZE)) x) as [E|Hne].
    + rewrite E in Hr. assert (k' = k /\ o / BSIZE = off / BSIZE) as [-> Eb] by (rewrite Hrole in Hr; by simplify_eq).
      rewrite E in Hb |- *. unfold V. rewrite !zset_eq. unfold put_bytes. pose proof (Z.div_mod o BSIZE ltac:(done)) as Hdo. pose proof (Z.mod_pos_bound o BSIZE ltac:(done)).
      destruct (in_range _ _ _) eqn:Er; [apply in_range_spec in Er | apply in_range_false in Er].
      * rewrite app_nth2 by lia. f_equal. lia.
      * rewrite Hb. destruct (Z.lt_ge_cases o off); [by rewrite app_nth1 by lia |]. rewrite !nth_overflow; [done | | lia]. rewrite length_app. lia.
    + unfold V. rewrite zset_ne by done. rewrite Hb. unfold zset. destruct (Z.eqb_spec k' k) as [->|]; [| done].
      assert (o < off \/ off + Z.of_nat (length piece) <= o) as [Hlt|Hge].
      { destruct (Z.lt_ge_cases o off); [by left |]. right. destruct (Z.eq_dec (o / BSIZE) (off / BSIZE)) as [Eb|Eb]; [by rewrite Eb in Hne |].
        assert (off / BSIZE <= o / BSIZE) by (apply Z.div_le_mono; [done | lia]). pose proof (Z.div_mod o BSIZE ltac:(done)). pose proof (Z.mod_pos_bound o BSIZE ltac:(done)).
        unfold BSIZE in *. nia. }
      * by rewrite app_nth1 by lia.
      * rewrite !nth_overflow; [done | | lia]. rewrite length_app. lia.
  - intros k' Hk'. unfold zset. destruct (Z.eqb_spec k' k) as [->|]; [| by apply (m_len _ _ _ _ _ M)].
    rewrite length_app. unfold BSIZE in *. nia.
Qed.

Lemma blocks_range off n : 0 <= off -> 0 < n -> off mod BSIZE + n <= BSIZE -> blocks (off + n) = off / BSIZE + 1.
Proof.
  intros H0 Hn Hle. unfold blocks. pose proof (Z.div_mod off BSIZE ltac:(done)) as Hd. pose proof (Z.mod_pos_bound off BSIZE ltac:(done)).
  symmetry. apply (Z.div_unique _ _ _ (off mod BSIZE + n - 1)); unfold BSIZE in *; lia.
Qed.

Lemma blocks_at off : 0 <= off -> blocks off = off / BSIZE \/ blocks off = off / BSIZE + 1.
Proof.
  intros H0. unfold blocks. pose proof (Z.div_mod off BSIZE ltac:(done)) as Hd. pose proof (Z.mod_pos_bound off BSIZE ltac:(done)) as Hm.
  destruct (Z.eq_dec (off mod BSIZE) 0); [left | right]; symmetry.
  - apply (Z.div_unique _ _ _ (BSIZE - 1)); unfold BSIZE in *; lia.
  - apply (Z.div_unique _ _ _ (off mod BSIZE - 1)); unfold BSIZE in *; lia.
Qed.

Lemma blocks_mono a b : a <= b -> blocks a <= blocks b.
Proof. intros H. apply Z.div_le_mono; [done | lia]. Qed.

Lemma cost_mono a b : a <= b -> cost a <= cost b.
Proof. intros H. unfold cost. destruct (Z.ltb_spec NDIRECT a), (Z.ltb_spec NDIRECT b); lia. Qed.

Record append_post (X : Z -> inode) (C : Z -> list Z) (nb : Z -> Z) (s : mk) (k : Z) (p : list Z) (din : inode) (s' : mk) : Prop := {
  a_image : exists role, image (zset X k din) (zset C k (C k ++ p)) (zset nb k (blocks (Z.of_nat (length (C k ++ p))))) role s';
  a_tight : ind din <> 0 <-> NDIRECT < blocks (Z.of_nat (length (C k ++ p)));
  a_same : same_file din (X k);
  a_free : freeblock s' = freeblock s + cost (blocks (Z.of_nat (length (C k ++ p)))) - cost (nb k);
  a_ino : freeinode s' = freeinode s;
  a_meta : forall b, b < nmeta -> img s' b = img s b
}.

Lemma iappend_loop_ok fuel X C nb role s k p :
  image X C nb role s -> 1 <= k < freeinode s -> (ind (X k) <> 0 <-> NDIRECT < nb k) ->
  nb k = blocks (Z.of_nat (length (C k))) -> Z.of_nat (length (C k ++ p)) <= MAXFILE * BSIZE ->
  freeblock s + cost (blocks (Z.of_nat (length (C k ++ p)))) - cost (nb k) <= FSSIZE -> (length p <= fuel)%nat ->
  exists din s', iappend_loop fuel (X k) (Z.of_nat (length (C k))) p s = Ok ((din, Z.of_nat (length (C k ++ p))), s') /\
    append_post X C nb s k p din s'.
Proof.
  revert X C nb role s p. induction fuel as [|f IH]; intros X C nb role s p M Hk Ht Hnb Hmax Hroom Hfuel.
  { destruct p; [| cbn in Hfuel; lia]. rewrite app_nil_r in *. exists (X k), s. split; [done |]. split; rewrite ?app_nil_r, <- ?Hnb; try done; [| lia].
    exists role. eapply image_ext; [exact M | ..]; intros; apply zset_id. }
  destruct p as [|c p0] eqn:Ep.
  { rewrite app_nil_r in *. exists (X k), s. split; [done |]. split; rewrite ?app_nil_r, <- ?Hnb; try done; [| lia].
    exists role. eapply image_ext; [exact M | ..]; intros; apply zset_id. }
  rewrite <- Ep in *. assert (0 < length p)%nat as Hp by (rewrite Ep; cbn; lia).
  set (off := Z.of_nat (length (C k))) in *. set (fbn := off / BSIZE).
  pose proof (Z.div_mod off BSIZE ltac:(done)) as Hdm. fold fbn in Hdm. pose proof (Z.mod_pos_bound off BSIZE ltac:(done)) as Hmod.
  rewrite length_app in Hmax, Hroom. rewrite Nat2Z.inj_add in Hmax, Hroom. fold off in Hmax, Hroom.
  assert (fbn < MAXFILE) as Hfb by (apply Z.div_lt_upper_bound; [done | unfold BSIZE in *; lia]).
  assert (0 <= fbn) as Hfb0 by (apply Z.div_pos; [lia | done]).
  set (n1 := Z.min (Z.of_nat (length p)) ((fbn + 1) * BSIZE - off)).
  assert (0 < n1 <= Z.of_nat (length p)) as Hn1 by (unfold n1, BSIZE in *; lia).
  assert (off mod BSIZE + n1 <= BSIZE) as Hfit by (unfold n1, BSIZE in *; lia).
  assert (blocks (off + n1) = fbn + 1) as Hb1 by (apply blocks_range; lia).
  assert (cost (fbn + 1) <= cost (blocks (off + Z.of_nat (length p)))) as Hc1 by (rewrite <- Hb1; apply cost_mono, blocks_mono; lia).
  destruct (file_block_ok X C nb role s k fbn M Hk Ht ltac:(lia) ltac:(lia)) as (din & s1 & Hrun & Hpost).
  { rewrite Hnb. destruct (blocks_at off ltac:(lia)) as [->| ->]; [by left | by right]. }
  destruct Hpost as [[role1 M1] Ht1 Hsame Hfree1 Hino1 Hmeta1]. rewrite <- Hino1 in Hk.
  destruct (m_data _ _ _ _ _ M1 k fbn Hk) as [Hx _]; [rewrite zset_eq; lia |]. rewrite zset_eq in Hx.
  pose proof (m_free _ _ _ _ _ M1) as Hf1. assert (nmeta = 46) as Em by reflexivity.
  set (piece := take (Z.to_nat n1) p). assert (length piece = Z.to_nat n1) as Hpl by (unfold piece; rewrite length_take; lia).
  pose proof (data_write _ _ _ _ _ k off piece M1 Hk eq_refl) as Hw. rewrite !zset_eq in Hw. fold fbn in Hw. specialize (Hw ltac:(lia) ltac:(lia)). cbn zeta in Hw.
  set (s2 := mkmk _ _ _ _) in Hw.
  assert (Z.of_nat (length (C k ++ piece)) = off + n1) as Hlen2 by (rewrite length_app; unfold off; lia).
  specialize (IH (zset X k din) (zset C k (C k ++ piece)) (zset nb k (fbn + 1)) role1 s2 (drop (Z.to_nat n1) p) Hw Hk). rewrite !zset_eq in IH.
  rewrite <- (assoc_L (++)), (take_drop (Z.to_nat n1) p : piece ++ drop _ p = p) in IH. rewrite Hlen2, length_app, Nat2Z.inj_add in IH. fold off in IH.
  cbn [freeblock s2] in IH. rewrite length_drop in IH.
  destruct IH as (din' & s' & Hloop & Hpost'); [done | by rewrite Hb1 | lia | rewrite Hfree1; lia | lia |].
  exists din', s'. split.
  - cbn [iappend_loop]. rewrite Ep. rewrite <- Ep. cbn zeta. fold fbn. destruct (Z.ltb_spec fbn MAXFILE); [| lia]. cbn [negb].
    rewrite (bind_ok _ _ _ _ _ Hrun). cbn [fst snd].
    rewrite (bind_ok _ _ _ _ _ (rsect_ok (faddr (img s1) din fbn) s1 ltac:(lia) (m_nsec _ _ _ _ _ M1))).
    rewrite (bind_ok _ _ _ _ _ (wsect_ok (faddr (img s1) din fbn) _ s1 ltac:(lia) (m_nsec _ _ _ _ _ M1))).
    fold n1 piece. fold s2. rewrite u32_small by (rewrite MAXFILE_eq in *; unfold BSIZE in *; lia).
    rewrite Hloop. rewrite length_app, Nat2Z.inj_add. done.
  - destruct Hpost' as [[role' Mi] Hti Hsa Hfr Hin Hme]. rewrite !zset_eq in *.
    rewrite <- (assoc_L (++)), (take_drop (Z.to_nat n1) p : piece ++ drop _ p = p) in *. split.
    + exists role'. eapply image_ext; [exact Mi | ..]; intros; symmetry; apply zset_zset.
    + done.
    + by eapply same_trans.
    + rewrite Hfr. cbn [freeblock s2]. lia.
    + by rewrite Hin.
    + intros b Hb. rewrite Hme by done. cbn [img s2]. rewrite zset_ne by lia. by apply Hmeta1.
Qed.

(** ** Between two calls of [iappend] *)

Lemma IBLOCK_eq k : 1 <= k < NINODES -> IBLOCK k the_sb = k / IPB + 32 /\ 32 <= k / IPB + 32 < 45.
Proof.
  intros H. assert (0 <= k / IPB < 13) as Hd.
  { split; [apply Z.div_pos; [lia | done] | apply Z.div_lt_upper_bound; [done |]]. change (IPB * 13) with 208. unfold NINODES in H. lia. }
  unfold IBLOCK. change (inodestart the_sb) with 32. rewrite u32_small by lia. lia.
Qed.

(** The disk is consistent: inodes and contents, and the blocks before the inodes and the bitmap as at the start. *)
Record ready (X : Z -> inode) (C : Z -> list Z) (s : mk) : Prop := {
  r_image : exists nb role, image X C nb role s /\
              forall k, 1 <= k < freeinode s -> nb k = blocks (Z.of_nat (length (C k))) /\ (ind (X k) <> 0 <-> NDIRECT < nb k);
  r_disk : forall k, 1 <= k < freeinode s -> get_dinode (img s (IBLOCK k the_sb)) (dip k) inode0 = X k;
  r_size : forall k, 1 <= k < freeinode s -> isize (X k) = Z.of_nat (length (C k));
  r_mem : forall k b o, 1 <= k < freeinode s -> get_dinode b o (X k) = get_dinode b o inode0;
  r_boot : forall b, 0 <= b < 32 \/ b = 45 -> img s b = if b =? 1 then sb_block else zeroes
}.

(** Another write to the blocks of inodes. *)
Lemma image_meta X C nb role s V :
  image X C nb role s -> (forall b, nmeta <= b -> V b = img s b) -> image X C nb role (mkmk V FSSIZE (freeinode s) (freeblock s)).
Proof.
  intros M HV. pose proof (m_free _ _ _ _ _ M) as Hf.
  assert (forall k bn, 1 <= k < freeinode s -> faddr V (X k) bn = faddr (img s) (X k) bn) as Hfa.
  { intros k bn Hk. apply faddr_ext. intros Hi. apply HV. by apply (m_ind _ _ _ _ _ M). }
  split; cbn [img nsec freeinode freeblock]; try apply M; try done.
  - intros b o Hb Ho. rewrite HV by lia. by apply (m_zero _ _ _ _ _ M).
  - intros k bn Hk Hb. rewrite Hfa by done. by apply (m_data _ _ _ _ _ M).
  - intros k bn Hk Hb. rewrite Hfa by done. by apply (m_none _ _ _ _ _ M).
  - intros k off Hk Ho. unfold fbyte. rewrite Hfa by done. pose proof (div_bound _ _ Ho) as Hb.
    destruct (m_data _ _ _ _ _ M k _ Hk Hb) as [H1 _]. rewrite HV by lia. by apply (m_bytes _ _ _ _ _ M).
Qed.

(** Storing inode [k] changes no other inode. *)
Lemma winode_disk V k k' x :
  1 <= k < NINODES -> 1 <= k' < NINODES -> k' <> k -> length (addrs x) = Z.to_nat (NDIRECT + 1) ->
  let W := zset V (IBLOCK k the_sb) (put_dinode (V (IBLOCK k the_sb)) (dip k) x) in
  get_dinode (W (IBLOCK k' the_sb)) (dip k') inode0 = get_dinode (V (IBLOCK k' the_sb)) (dip k') inode0.
Proof.
  intros Hk Hk' Hne Hlen W. unfold W. destruct (Z.eq_dec (IBLOCK k' the_sb) (IBLOCK k the_sb)) as [E|E]; [| by rewrite zset_ne].
  rewrite E, zset_eq. apply dinode_others; [lia | lia | | done]. intros Em. apply Hne.
  destruct (IBLOCK_eq k Hk) as [E1 _]. destruct (IBLOCK_eq k' Hk') as [E2 _].
  pose proof (Z.div_mod k IPB ltac:(done)). pose proof (Z.div_mod k' IPB ltac:(done)). assert (k' / IPB = k / IPB) as Ed by lia. rewrite Ed in *. lia.
Qed.

Lemma rinode_ok X C s k : ready X C s -> 1 <= k < freeinode s -> rinode k s = Ok (X k, s).
Proof.
  intros R Hk. destruct (r_image _ _ _ R) as (nb & role & M & _). pose proof (m_ino _ _ _ _ _ M) as Hi.
  destruct (IBLOCK_eq k ltac:(lia)) as [E Hb]. unfold rinode.
  rewrite (bind_ok _ _ _ _ _ (rsect_ok (IBLOCK k the_sb) s ltac:(unfold FSSIZE; lia) (m_nsec _ _ _ _ _ M))). unfold ret. by rewrite (r_disk _ _ _ R).
Qed.

Lemma winode_run k x s : 1 <= k < NINODES -> nsec s = FSSIZE ->
  winode k x s = Ok (tt, mkmk (zset (img s) (IBLOCK k the_sb) (put_dinode (img s (IBLOCK k the_sb)) (dip k) x)) FSSIZE (freeinode s) (freeblock s)).
Proof.
  intros Hk Hn. destruct (IBLOCK_eq k Hk) as [E Hb]. unfold winode.
  rewrite (bind_ok _ _ _ _ _ (rsect_ok (IBLOCK k the_sb) s ltac:(unfold FSSIZE; lia) Hn)). apply wsect_ok; [unfold FSSIZE; lia | done].
Qed.

(** Only the addresses of an inode matter for the contents. *)
Lemma image_addrs X X' C nb role s :
  image X C nb role s -> (forall k, 1 <= k < freeinode s -> addrs (X' k) = addrs (X k) /\ disk_fields (X' k)) -> image X' C nb role s.
Proof.
  intros M H. assert (forall k bn, 1 <= k < freeinode s -> faddr (img s) (X' k) bn = faddr (img s) (X k) bn) as Hfa.
  { intros k bn Hk. unfold faddr. by rewrite (proj1 (H k Hk)). }
  split; try apply M.
  - intros k Hk. by apply H.
  - intros k bn Hk Hb. rewrite Hfa by done. by apply (m_data _ _ _ _ _ M).
  - intros k bn Hk Hb. rewrite Hfa by done. by apply (m_none _ _ _ _ _ M).
  - intros k Hk. unfold ind. rewrite (proj1 (H k Hk)). by apply (m_ind _ _ _ _ _ M).
  - intros k off Hk Ho. unfold fbyte. rewrite Hfa by done. by apply (m_bytes _ _ _ _ _ M).
Qed.

Lemma mem_set_size v x b o : get_dinode b o (set_size v x) = get_dinode b o x.
Proof. done. Qed.

Lemma dinode_back b o x : disk_fields x -> (forall b o, get_dinode b o x = get_dinode b o inode0) -> get_dinode (put_dinode b o x) o inode0 = x.
Proof. intros Hd Hm. rewrite <- Hm. by apply dinode_roundtrip. Qed.

Lemma iappend_ok X C s k p :
  ready X C s -> 1 <= k < freeinode s -> Z.of_nat (length (C k ++ p)) <= MAXFILE * BSIZE ->
  freeblock s + cost (blocks (Z.of_nat (length (C k ++ p)))) - cost (blocks (Z.of_nat (length (C k)))) <= FSSIZE ->
  exists X' s', iappend k p s = Ok (tt, s') /\ ready X' (zset C k (C k ++ p)) s' /\ freeinode s' = freeinode s /\
    freeblock s' = freeblock s + cost (blocks (Z.of_nat (length (C k ++ p)))) - cost (blocks (Z.of_nat (length (C k)))) /\
    (forall k', i_type (X' k') = i_type (X k') /\ nlink (X' k') = nlink (X k')).
Proof.
  intros R Hk Hmax Hroom. destruct (r_image _ _ _ R) as (nb & role & M & Hnb). destruct (Hnb k Hk) as [Enb Ht]. pose proof (m_ino _ _ _ _ _ M) as Hi.
  rewrite <- Enb in *. destruct (iappend_loop_ok (length p) X C nb role s k p M Hk Ht Enb Hmax Hroom (le_n _)) as (din & s1 & Hrun & Hpost).
  destruct Hpost as [[role1 M1] Ht1 Hsame Hfree Hino Hmeta]. set (size := Z.of_nat (length (C k ++ p))) in *.
  assert (0 <= size < 2 ^ 32) as Hsz by (rewrite MAXFILE_eq in Hmax; unfold BSIZE in Hmax; lia).
  set (x := set_size size din). pose proof (m_fields _ _ _ _ _ M1 k ltac:(lia)) as Hdf. rewrite zset_eq in Hdf.
  assert (disk_fields x) as Hdx by (destruct Hdf; split; done).
  assert (forall b o, get_dinode b o x = get_dinode b o inode0) as Hmem.
  { intros b o. unfold x. rewrite mem_set_size, (sf_mem _ _ Hsame). by apply (r_mem _ _ _ R). }
  set (V := zset (img s1) (IBLOCK k the_sb) (put_dinode (img s1 (IBLOCK k the_sb)) (dip k) x)).
  destruct (IBLOCK_eq k ltac:(lia)) as [Eb Hb]. assert (nmeta = 46) as Em by reflexivity.
  exists (zset X k x), (mkmk V FSSIZE (freeinode s1) (freeblock s1)). split_and!; [| | done | done |].
  - unfold iappend. rewrite (bind_ok _ _ _ _ _ (rinode_ok X C s k R Hk)). rewrite (r_size _ _ _ R) by done.
    assert (Z.of_nat (length (C k)) <= size) by (unfold size; rewrite length_app; lia).
    rewrite xint_small by lia. rewrite (bind_ok _ _ _ _ _ Hrun). cbn [fst snd]. rewrite xint_small by done. fold x.
    apply winode_run; [lia | apply (m_nsec _ _ _ _ _ M1)].
  - split; cbn [img nsec freeinode freeblock]; rewrite ?Hino.
    + exists (zset nb k (blocks size)), role1. rewrite <- Hino. split.
      * apply image_meta; [| intros b Hb'; unfold V; rewrite zset_ne by lia; done].
        eapply image_addrs; [exact M1 |]. intros k' Hk'. pose proof (m_fields _ _ _ _ _ M1 k' Hk') as H0. unfold zset in *. by destruct (k' =? k).
      * intros k' Hk'. rewrite Hino in Hk'. unfold zset. destruct (Z.eqb_spec k' k) as [->|]; [split; done | by apply Hnb].
    + intros k' Hk'. destruct (Z.eq_dec k' k) as [->|Hne].
      * rewrite (zset_eq X). unfold V. rewrite zset_eq. by apply dinode_back.
      * rewrite (zset_ne X) by done. unfold V. rewrite winode_disk; [| lia | lia | done | apply (df_addrs _ Hdx)].
        destruct (IBLOCK_eq k' ltac:(lia)) as [Eb' Hb']. rewrite Hmeta by lia. by apply (r_disk _ _ _ R).
    + intros k' Hk'. unfold zset. destruct (Z.eqb_spec k' k) as [->|]; [done | by apply (r_size _ _ _ R)].
    + intros k' b o Hk'. unfold zset. destruct (Z.eqb_spec k' k) as [->|]; [apply Hmem | by apply (r_mem _ _ _ R)].
    + intros b Hb'. unfold V. rewrite zset_ne by lia. rewrite Hmeta by lia. by apply (r_boot _ _ _ R).
  - intros k'. unfold zset. destruct (Z.eqb_spec k' k) as [->|]; [| done]. split; [apply (sf_type _ _ Hsame) | apply (sf_nlink _ _ Hsame)].
Qed.

(** ** A new inode *)

Definition new_inode (ty : Z) : inode := set_size 0 (set_nlink 1 (set_type ty inode0)).

Lemma new_fields ty : 0 <= ty < 2 ^ 15 -> disk_fields (new_inode ty).
Proof. intros H. split; cbn; try lia. split; [done |]. repeat constructor; lia. Qed.

Lemma new_faddr V ty bn : 0 <= bn -> faddr V (new_inode ty) bn = 0.
Proof.
  intros Hb. unfold faddr. cbn [addrs new_inode set_size set_nlink set_type inode0].
  destruct (Z.ltb_spec bn NDIRECT); [| done]. rewrite nth_lookup. destruct (_ !! _) as [v|] eqn:E; [| done]. cbn. by apply lookup_replicate in E as [-> _].
Qed.

Lemma image_new X C nb role s ty :
  image X C nb role s -> freeinode s < NINODES -> 0 <= ty < 2 ^ 15 -> let n := freeinode s in
  image (zset X n (new_inode ty)) (zset C n []) (zset nb n 0) role (mkmk (img s) (nsec s) (n + 1) (freeblock s)).
Proof.
  intros M Hn Hty n. pose proof (m_ino _ _ _ _ _ M) as Hi.
  assert (forall k, 1 <= k < n + 1 -> k <> n -> 1 <= k < freeinode s) as Hlt by (unfold n; lia).
  split; cbn [img nsec freeinode freeblock]; try apply M; try (unfold n; lia).
  - intros k Hk. unfold zset. destruct (Z.eqb_spec k n); [by apply new_fields | by apply (m_fields _ _ _ _ _ M), Hlt].
  - intros k Hk. unfold zset. destruct (Z.eqb_spec k n); [rewrite MAXFILE_eq; lia | by apply (m_nb _ _ _ _ _ M), Hlt].
  - intros k bn Hk. unfold zset. destruct (Z.eqb_spec k n); [lia | by apply (m_data _ _ _ _ _ M), Hlt].
  - intros k bn Hk. unfold zset. destruct (Z.eqb_spec k n); [intros; apply new_faddr; lia | by apply (m_none _ _ _ _ _ M), Hlt].
  - intros k Hk. unfold zset. destruct (Z.eqb_spec k n); [by intros [] | by apply (m_ind _ _ _ _ _ M), Hlt].
  - intros k off Hk. unfold zset. destruct (Z.eqb_spec k n); [lia | by apply (m_bytes _ _ _ _ _ M), Hlt].
  - intros k Hk. unfold zset. destruct (Z.eqb_spec k n); [done | by apply (m_len _ _ _ _ _ M), Hlt].
Qed.

Lemma ialloc_ok X C s ty :
  ready X C s -> freeinode s < NINODES -> 0 <= ty < 2 ^ 15 ->
  exists s', ialloc ty s = Ok (freeinode s, s') /\ ready (zset X (freeinode s) (new_inode ty)) (zset C (freeinode s) []) s' /\
    freeinode s' = freeinode s + 1 /\ freeblock s' = freeblock s.
Proof.
  intros R Hn Hty. destruct (r_image _ _ _ R) as (nb & role & M & Hnb). pose proof (m_ino _ _ _ _ _ M) as Hi. set (n := freeinode s) in *.
  pose proof (new_fields ty Hty) as Hdx. destruct (IBLOCK_eq n ltac:(lia)) as [Eb Hb]. assert (nmeta = 46) as Em by reflexivity.
  set (V := zset (img s) (IBLOCK n the_sb) (put_dinode (img s (IBLOCK n the_sb)) (dip n) (new_inode ty))).
  exists (mkmk V FSSIZE (n + 1) (freeblock s)). split_and!; [| | done | done].
  - unfold ialloc. rewrite bind_gets. fold n. rewrite bind_modify. fold n. rewrite u32_small by (unfold NINODES in *; lia).
    assert (xshort ty = ty) as ->.
    { unfold xshort, u8. rewrite Z.shiftr_div_pow2 by lia. rewrite (Z.mod_small (ty / 2 ^ 8)).
      - pose proof (Z.div_mod ty (2 ^ 8) ltac:(done)). lia.
      - split; [apply Z.div_pos; lia | apply Z.div_lt_upper_bound; lia]. }
    change (xint 0) with 0. change (xshort 1) with 1. fold (new_inode ty).
    erewrite bind_ok by (apply winode_run; [lia | apply (m_nsec _ _ _ _ _ M)]). cbn [img nsec freeinode freeblock]. done.
  - assert (forall k, 1 <= k < n + 1 -> k <> n -> 1 <= k < freeinode s) as Hlt by (unfold n; lia).
    split; cbn [img nsec freeinode freeblock].
    + exists (zset nb n 0), role. split.
      * pose proof (image_new X C nb role s ty M Hn Hty) as M1. cbn zeta in M1. fold n in M1.
        apply (image_meta _ _ _ _ _ V M1). intros b Hb'. unfold V. cbn [img]. by rewrite zset_ne by lia.
      * intros k Hk. unfold zset. destruct (Z.eqb_spec k n); [| by apply Hnb, Hlt]. split; [done |]. split; [by intros [] |]. unfold NDIRECT. lia.
    + intros k Hk. destruct (Z.eq_dec k n) as [->|Hne].
      * rewrite (zset_eq X). unfold V. rewrite zset_eq. by apply dinode_back.
      * rewrite (zset_ne X) by done. unfold V. rewrite winode_disk; [| lia | lia | done | apply (df_addrs _ Hdx)]. by apply (r_disk _ _ _ R), Hlt.
    + intros k Hk. unfold zset. destruct (Z.eqb_spec k n); [done | by apply (r_size _ _ _ R), Hlt].
    + intros k b o Hk. unfold zset. destruct (Z.eqb_spec k n); [done | by apply (r_mem _ _ _ R), Hlt].
    + intros b Hb'. unfold V. rewrite zset_ne by lia. by apply (r_boot _ _ _ R).
Qed.

(** ** Files *)

Definition content (f : list Z * list (list Z)) : list Z := mjoin f.2.
Definition file_name (f : list Z * list (list Z)) : list Z := skip_underscore (shortname f.1).

Definition size_of (l : list Z) : Z := cost (blocks (Z.of_nat (length l))).

Lemma ready_ext X C C' s : ready X C s -> (forall k, C' k = C k) -> ready X C' s.
Proof.
  intros [(nb & role & M & H) ? ? ? ?] HC. split; try done; [| intros; rewrite HC; auto].
  exists nb, role. split; [by eapply image_ext; [exact M | ..] |]. intros k Hk. rewrite HC. by apply H.
Qed.

Lemma append_pieces_ok X C s k ps :
  ready X C s -> 1 <= k < freeinode s -> Z.of_nat (length (C k ++ mjoin ps)) <= MAXFILE * BSIZE ->
  freeblock s + size_of (C k ++ mjoin ps) - size_of (C k) <= FSSIZE ->
  exists X' s', append_pieces k ps s = Ok (tt, s') /\ ready X' (zset C k (C k ++ mjoin ps)) s' /\ freeinode s' = freeinode s /\
    freeblock s' = freeblock s + size_of (C k ++ mjoin ps) - size_of (C k) /\
    (forall k', i_type (X' k') = i_type (X k') /\ nlink (X' k') = nlink (X k')).
Proof.
  revert X C s. induction ps as [|p ps IH]; intros X C s R Hk Hmax Hroom.
  { cbn [mjoin list_join] in *. rewrite app_nil_r in *. exists X, s. split_and!; try done; [| lia]. eapply ready_ext; [exact R |]. intros. apply zset_id. }
  change (mjoin (p :: ps)) with (p ++ mjoin ps) in *. rewrite (assoc_L (++)) in *. rewrite length_app in Hmax.
  assert (size_of (C k ++ p) <= size_of ((C k ++ p) ++ mjoin ps)) as Hm by (apply cost_mono, blocks_mono; rewrite (length_app (C k ++ p)); lia).
  destruct (iappend_ok X C s k p R Hk ltac:(lia)) as (X1 & s1 & Hrun & R1 & Hi1 & Hf1 & Hs1); [unfold size_of in *; lia |]. fold (size_of (C k ++ p)) (size_of (C k)) in Hf1.
  destruct (IH X1 _ s1 R1) as (X2 & s2 & Hrun2 & R2 & Hi2 & Hf2 & Hs2); [by rewrite Hi1 | rewrite zset_eq, length_app; lia | rewrite zset_eq; lia |].
  rewrite zset_eq in *. exists X2, s2. cbn [append_pieces]. rewrite (bind_ok _ _ _ _ _ Hrun). split_and!; [done | | congruence | lia |].
  - eapply ready_ext; [exact R2 |]. intros. symmetry. apply zset_zset.
  - intros k'. destruct (Hs1 k'), (Hs2 k'). split; congruence.
Qed.

Lemma add_file_ok X C s f :
  ready X C s -> 1 < freeinode s < NINODES -> SLASH ∉ shortname f.1 -> Z.of_nat (length (content f)) <= MAXFILE * BSIZE ->
  let n := freeinode s in let root := C ROOTINO ++ dirent n (file_name f) in
  Z.of_nat (length root) <= MAXFILE * BSIZE -> freeblock s + (size_of root - size_of (C ROOTINO)) + size_of (content f) <= FSSIZE ->
  exists X' s', add_file f s = Ok (tt, s') /\ ready X' (zset (zset C ROOTINO root) n (content f)) s' /\ freeinode s' = n + 1 /\
    freeblock s' = freeblock s + (size_of root - size_of (C ROOTINO)) + size_of (content f) /\
    i_type (X' n) = T_FILE /\ nlink (X' n) = 1 /\ forall k, k <> n -> i_type (X' k) = i_type (X k) /\ nlink (X' k) = nlink (X k).
Proof.
  intros R Hn Hslash Hmax n root Hroot Hroom. unfold add_file. rewrite bool_decide_false by done.
  destruct (ialloc_ok X C s T_FILE R ltac:(lia)) as (s1 & Hrun1 & R1 & Hi1 & Hf1); [unfold T_FILE; lia |]. fold n in Hrun1, R1, Hi1.
  rewrite (bind_ok _ _ _ _ _ Hrun1). fold (file_name f).
  assert (size_of [] = 0) as E0 by reflexivity. assert (0 <= size_of (content f)) as Hpos.
  { rewrite <- E0. apply cost_mono, blocks_mono. cbn. lia. }
  destruct (iappend_ok _ _ s1 ROOTINO (dirent n (file_name f)) R1) as (X2 & s2 & Hrun2 & R2 & Hi2 & Hf2 & Hs2).
  { rewrite Hi1. unfold ROOTINO, n. lia. }
  { rewrite zset_ne by (unfold ROOTINO, n; lia). fold root. done. }
  { rewrite zset_ne by (unfold ROOTINO, n; lia). fold root. fold (size_of root) (size_of (C ROOTINO)). lia. }
  rewrite (zset_ne C) in R2, Hf2 by (unfold ROOTINO, n; lia). fold root in R2, Hf2. fold (size_of root) (size_of (C ROOTINO)) in Hf2.
  rewrite (bind_ok _ _ _ _ _ Hrun2). set (C2 := zset (zset C n []) ROOTINO root) in *.
  assert (C2 n = []) as EC by (unfold C2; rewrite zset_ne by (unfold ROOTINO, n; lia); apply zset_eq).
  destruct (append_pieces_ok X2 C2 s2 n f.2 R2) as (X3 & s3 & Hrun3 & R3 & Hi3 & Hf3 & Hs3); rewrite ?EC, ?app_nil_l; [lia | done | fold (content f); lia |].
  rewrite EC in R3, Hf3. cbn [app] in R3, Hf3. fold (content f) in R3, Hf3. exists X3, s3. split_and!; [done | | lia | lia | | |].
  - eapply ready_ext; [exact R3 |]. intros k. unfold C2, zset. destruct (k =? n); [done |]. by destruct (k =? ROOTINO).
  - destruct (Hs3 n) as [-> _]. destruct (Hs2 n) as [-> _]. by rewrite zset_eq.
  - destruct (Hs3 n) as [_ ->]. destruct (Hs2 n) as [_ ->]. by rewrite zset_eq.
  - intros k Hk. destruct (Hs3 k) as [-> ->]. destruct (Hs2 k) as [-> ->]. by rewrite zset_ne.
Qed.

(** The directory entries of files from inode [n] on, and the blocks the files need. *)
Fixpoint entries (n : Z) (l : list (list Z * list (list Z))) : list Z :=
  match l with
  | [] => []
  | f :: l' => dirent n (file_name f) ++ entries (n + 1) l'
  end.

Fixpoint files_cost (l : list (list Z * list (list Z))) : Z :=
  match l with
  | [] => 0
  | f :: l' => size_of (content f) + files_cost l'
  end.

Definition file_fits (f : list Z * list (list Z)) : Prop :=
  (SLASH ∉ shortname f.1) /\ Z.of_nat (length (content f)) <= MAXFILE * BSIZE.

Lemma size_of_nonneg l : 0 <= size_of l.
Proof. change 0 with (size_of []). apply cost_mono, blocks_mono. cbn. lia. Qed.

Lemma files_cost_nonneg l : 0 <= files_cost l.
Proof. induction l as [|f l IH]; cbn [files_cost]; [done |]. pose proof (size_of_nonneg (content f)). lia. Qed.

Lemma size_of_app l k : size_of l <= size_of (l ++ k).
Proof. apply cost_mono, blocks_mono. rewrite length_app. lia. Qed.

Record files_post (X : Z -> inode) (C : Z -> list Z) (n : Z) (l : list (list Z * list (list Z))) (X' : Z -> inode) (C' : Z -> list Z) : Prop := {
  p_root : C' ROOTINO = C ROOTINO ++ entries n l;
  p_files : forall i f, l !! i = Some f ->
    C' (n + Z.of_nat i) = content f /\ i_type (X' (n + Z.of_nat i)) = T_FILE /\ nlink (X' (n + Z.of_nat i)) = 1;
  p_old : forall k, k < n -> i_type (X' k) = i_type (X k) /\ nlink (X' k) = nlink (X k) /\ (k <> ROOTINO -> C' k = C k)
}.

Lemma add_files_ok X C s l :
  ready X C s -> 1 < freeinode s -> freeinode s + Z.of_nat (length l) <= NINODES -> Forall file_fits l ->
  Z.of_nat (length (C ROOTINO ++ entries (freeinode s) l)) <= MAXFILE * BSIZE ->
  freeblock s + (size_of (C ROOTINO ++ entries (freeinode s) l) - size_of (C ROOTINO)) + files_cost l <= FSSIZE ->
  exists X' C' s', add_files l s = Ok (tt, s') /\ ready X' C' s' /\ freeinode s' = freeinode s + Z.of_nat (length l) /\
    freeblock s' = freeblock s + (size_of (C ROOTINO ++ entries (freeinode s) l) - size_of (C ROOTINO)) + files_cost l /\
    files_post X C (freeinode s) l X' C'.
Proof.
  revert X C s. induction l as [|f l IH]; intros X C s R Hn Hlen Hfit Hmax Hroom.
  { cbn [entries files_cost length] in *. rewrite app_nil_r in *. exists X, C, s. split_and!; try done; [lia | lia |]. split; [by rewrite app_nil_r | done | done]. }
  apply Forall_cons in Hfit as [[Hs Hm] Hfit]. cbn [entries files_cost length] in *. set (n := freeinode s) in *.
  rewrite (assoc_L (++)) in *. set (root := C ROOTINO ++ dirent n (file_name f)) in *.
  pose proof (files_cost_nonneg l). pose proof (size_of_app root (entries (n + 1) l)). rewrite length_app in Hmax.
  destruct (add_file_ok X C s f R ltac:(unfold n in *; lia) Hs Hm) as (X1 & s1 & Hrun1 & R1 & Hi1 & Hf1 & Ht1 & Hl1 & Ho1);
    [fold n; fold root; lia | fold n; fold root; lia |]. fold n root in R1, Hi1, Hf1, Ht1, Hl1, Ho1.
  set (C1 := zset (zset C ROOTINO root) n (content f)) in *.
  assert (C1 ROOTINO = root) as Er by (unfold C1; rewrite zset_ne by (unfold ROOTINO; lia); apply zset_eq).
  destruct (IH X1 C1 s1 R1) as (X2 & C2 & s2 & Hrun2 & R2 & Hi2 & Hf2 & [Hr Hfs Ho]); rewrite ?Hi1, ?Er; try lia; [done | rewrite length_app; lia |].
  rewrite Hi1, Er in *. exists X2, C2, s2. split_and!; [| done | lia | lia |].
  - cbn [add_files]. by rewrite (bind_ok _ _ _ _ _ Hrun1).
  - split; [cbn [entries]; by rewrite Hr, (assoc_L (++)) | |].
    + intros [|i] f' Hf'; cbn in Hf'.
      * injection Hf' as <-. rewrite Z.add_0_r. destruct (Ho n ltac:(lia)) as (-> & -> & E). split_and!; try done.
        rewrite E by (unfold ROOTINO; lia). unfold C1. apply zset_eq.
      * replace (n + Z.of_nat (S i)) with (n + 1 + Z.of_nat i) by lia. by apply Hfs.
    + intros k Hk. destruct (Ho k ltac:(lia)) as (-> & -> & E). destruct (Ho1 k ltac:(lia)) as [-> ->]. split_and!; try done.
      intros Hne. rewrite E by done. unfold C1. by rewrite !zset_ne by lia.
Qed.

(** ** The start and the end of [main] *)

Lemma zero_sectors_ok n i s : 0 <= i -> i + Z.of_nat n <= FSSIZE -> nsec s = i -> (forall b, img s b = zeroes) ->
  exists V, zero_sectors n i s = Ok (tt, mkmk V (i + Z.of_nat n) (freeinode s) (freeblock s)) /\ forall b, V b = zeroes.
Proof.
  revert i s. induction n as [|n IH]; intros i s Hi Hle Hn Hz; cbn [zero_sectors].
  - exists (img s). split; [| done]. unfold ret. rewrite Z.add_0_r. rewrite <- Hn. by destruct s.
  - unfold wsect at 1. rewrite bind_modify, sector_small by (unfold FSSIZE in Hle; lia).
    destruct (IH (i + 1) (mkmk (zset (img s) i zeroes) (Z.max (nsec s) (i + 1)) (freeinode s) (freeblock s))) as (V & Hrun & HV);
      cbn [img nsec freeinode freeblock] in *; [lia | lia | lia | |].
    + intros b. unfold zset. destruct (_ =? _); [done | apply Hz].
    + exists V. split; [| done]. rewrite Hrun. f_equal. f_equal. f_equal. lia.
Qed.

Lemma mark_bits_spec n i buf j : 0 <= i -> 0 <= j ->
  bit_set (mark_bits n i buf) j = ((i <=? j) && (j <? i + Z.of_nat n)) || bit_set buf j.
Proof.
  revert i buf. induction n as [|n IH]; intros i buf Hi Hj; cbn [mark_bits].
  - destruct (Z.leb_spec i j), (Z.ltb_spec j (i + Z.of_nat 0)); cbn [andb orb]; try done. lia.
  - rewrite IH, mark_bit_spec by lia.
    destruct (Z.leb_spec (i + 1) j), (Z.ltb_spec j (i + 1 + Z.of_nat n)), (Z.leb_spec i j), (Z.ltb_spec j (i + Z.of_nat (S n))), (Z.eqb_spec i j); cbn [andb orb]; try done; lia.
Qed.

Lemma sb_read : get_sb sb_block = the_sb.
Proof. vm_compute. reflexivity. Qed.

Definition listing (files : list (list Z * list (list Z))) : list Z :=
  dirent ROOTINO [46] ++ dirent ROOTINO [46; 46] ++ entries 2 files.

(** The files fit: names without slashes, sizes the block map can hold, inodes and blocks enough. *)
Record fits (files : list (list Z * list (list Z))) : Prop := {
  f_each : Forall file_fits files;
  f_inodes : 2 + Z.of_nat (length files) <= NINODES;
  f_room : size_of (listing files) + files_cost files <= nblocks
}.

Lemma dirent_length n name : length (dirent n name) = 16%nat.
Proof.
  unfold dirent. rewrite !length_app, length_replicate, length_take. change (Z.to_nat DIRSIZ) with 14%nat. cbn [length]. lia.
Qed.

Lemma entries_length n l : length (entries n l) = (16 * length l)%nat.
Proof. revert n. induction l as [|f l IH]; intros n; cbn [entries length]; [done |]. rewrite length_app, dirent_length, IH. lia. Qed.

Lemma ready_start V : (forall b, V b = if b =? 1 then sb_block else zeroes) ->
  ready (fun _ => inode0) (fun _ => []) (mkmk V FSSIZE 1 nmeta).
Proof.
  intros HV. split; cbn [img nsec freeinode freeblock]; try lia; [| intros; apply HV].
  exists (fun _ => 0), (fun _ => (0, None)). split; [| lia]. split; cbn [img nsec freeinode freeblock]; try lia; try done.
  intros b o Hb Ho. rewrite HV. destruct (Z.eqb_spec b 1); [subst; by destruct Hb | done].
Qed.

(** [main] up to [fix_root]. *)
Lemma build_ok files : fits files ->
  exists X C s,
    (forall k : M mk unit, (do! zero_sectors (Z.to_nat FSSIZE) 0 in do! wsect 1 sb_block in let! rootino := ialloc T_DIR in
       if negb (rootino =? ROOTINO) then panic "assert" else
       do! iappend rootino (dirent rootino [46]) in do! iappend rootino (dirent rootino [46; 46]) in do! add_files files in k) mk0 = k s) /\
    ready X C s /\ freeinode s = 2 + Z.of_nat (length files) /\ freeblock s = nmeta + size_of (listing files) + files_cost files /\
    C ROOTINO = listing files /\ i_type (X ROOTINO) = T_DIR /\ nlink (X ROOTINO) = 1 /\
    forall i f, files !! i = Some f ->
      C (2 + Z.of_nat i) = content f /\ i_type (X (2 + Z.of_nat i)) = T_FILE /\ nlink (X (2 + Z.of_nat i)) = 1.
Proof.
  intros [Hfit Hino Hroom]. destruct (zero_sectors_ok (Z.to_nat FSSIZE) 0 mk0) as (V0 & Hrun0 & HV0); [lia | unfold FSSIZE; lia | reflexivity | reflexivity |].
  rewrite Z2Nat.id, Z.add_0_l in Hrun0 by (unfold FSSIZE; lia). cbn [freeinode freeblock mk0] in Hrun0.
  set (s1 := mkmk (zset V0 1 sb_block) FSSIZE 1 nmeta).
  assert (wsect 1 sb_block (mkmk V0 FSSIZE 1 nmeta) = Ok (tt, s1)) as Hrun1 by (apply wsect_ok; [unfold FSSIZE; lia | done]).
  assert (ready (fun _ => inode0) (fun _ => []) s1) as R1 by (apply ready_start; intros b; unfold zset; destruct (b =? 1); [done | apply HV0]).
  destruct (ialloc_ok _ _ s1 T_DIR R1) as (s2 & Hrun2 & R2 & Hi2 & Hf2); [done | unfold T_DIR; lia |]. cbn [freeinode freeblock s1] in *.
  assert (length (listing files) = 32 + 16 * length files)%nat as Hll by (unfold listing; rewrite !length_app, !dirent_length, entries_length; lia).
  assert (nblocks + nmeta = FSSIZE) as Enb by reflexivity. assert (MAXFILE * BSIZE = 274432) as Emf by reflexivity. unfold NINODES in Hino.
  pose proof (files_cost_nonneg files) as Hcost. set (d1 := dirent ROOTINO [46]) in *. set (d2 := dirent ROOTINO [46; 46]) in *.
  assert (size_of (d1 ++ d2) <= size_of (listing files)) as Hd12 by (unfold listing; fold d1 d2; rewrite (assoc_L (++)); apply size_of_app).
  assert (size_of d1 <= size_of (d1 ++ d2)) as Hd1 by apply size_of_app.
  assert (length d1 = 16%nat /\ length d2 = 16%nat) as [L1 L2] by (split; apply dirent_length). assert (size_of [] = 0) as E0 by reflexivity.
  destruct (iappend_ok _ _ s2 ROOTINO d1 R2) as (X3 & s3 & Hrun3 & R3 & Hi3 & Hf3 & Hs3);
    [rewrite Hi2; unfold ROOTINO; lia | rewrite zset_eq; cbn [app]; lia | rewrite zset_eq; cbn [app]; fold (size_of d1) (size_of []); lia |].
  rewrite !zset_eq in R3, Hf3. cbn [app] in R3, Hf3. fold (size_of d1) (size_of []) in Hf3.
  destruct (iappend_ok _ _ s3 ROOTINO d2 R3) as (X4 & s4 & Hrun4 & R4 & Hi4 & Hf4 & Hs4);
    [rewrite Hi3, Hi2; unfold ROOTINO; lia | rewrite zset_eq, length_app; lia | rewrite !zset_eq; fold (size_of (d1 ++ d2)) (size_of d1); lia |].
  rewrite !zset_eq in R4, Hf4. fold (size_of (d1 ++ d2)) (size_of d1) in Hf4.
  set (C4 := zset _ ROOTINO (d1 ++ d2)) in R4. assert (C4 ROOTINO = d1 ++ d2) as EC4 by apply zset_eq.
  assert (freeinode s4 = 2) as Hi by (rewrite Hi4, Hi3, Hi2; done).
  assert (C4 ROOTINO ++ entries (freeinode s4) files = listing files) as El by (rewrite EC4, Hi; unfold listing; fold d1 d2; by rewrite <- (assoc_L (++))).
  destruct (add_files_ok X4 C4 s4 files R4) as (X5 & C5 & s5 & Hrun5 & R5 & Hi5 & Hf5 & [Hroot Hfiles Hold]);
    rewrite ?El, ?EC4; [lia | unfold NINODES; lia | exact Hfit | rewrite Hll; lia | lia |].
  rewrite El in Hroot, Hf5. rewrite Hi in *. rewrite EC4 in Hf5. exists X5, C5, s5. split_and!; [| exact R5 | lia | lia | exact Hroot | | | exact Hfiles].
  - intros k. rewrite (bind_ok _ _ _ _ _ Hrun0), (bind_ok _ _ _ _ _ Hrun1), (bind_ok _ _ _ _ _ Hrun2). change (1 =? ROOTINO) with true. cbn [negb].
    change 1 with ROOTINO. rewrite (bind_ok _ _ _ _ _ Hrun3), (bind_ok _ _ _ _ _ Hrun4), (bind_ok _ _ _ _ _ Hrun5). reflexivity.
  - destruct (Hold ROOTINO ltac:(unfold ROOTINO; lia)) as (-> & _). destruct (Hs4 ROOTINO) as [-> _]. destruct (Hs3 ROOTINO) as [-> _]. by rewrite zset_eq.
  - destruct (Hold ROOTINO ltac:(unfold ROOTINO; lia)) as (_ & -> & _). destruct (Hs4 ROOTINO) as [_ ->]. destruct (Hs3 ROOTINO) as [_ ->]. by rewrite zset_eq.
Qed.

(** The size that [fix_root] gives the root directory. *)
Definition root_size (n : Z) : Z := (n / BSIZE + 1) * BSIZE.

Lemma finish_ok X C s : ready X C s -> 1 < freeinode s -> Z.of_nat (length (C ROOTINO)) < MAXFILE * BSIZE ->
  exists V, (do! fix_root in let! used := gets freeblock in balloc used) s = Ok (tt, mkmk V FSSIZE (freeinode s) (freeblock s)) /\
    (forall b, nmeta <= b -> V b = img s b) /\ (forall b, 0 <= b < 32 -> V b = if b =? 1 then sb_block else zeroes) /\
    V 45 = mark_bits (Z.to_nat (freeblock s)) 0 zeroes /\
    (forall k, 1 <= k < freeinode s -> k <> ROOTINO -> get_dinode (V (IBLOCK k the_sb)) (dip k) inode0 = X k) /\
    get_dinode (V (IBLOCK ROOTINO the_sb)) (dip ROOTINO) inode0 = set_size (root_size (Z.of_nat (length (C ROOTINO)))) (X ROOTINO).
Proof.
  intros R Hn Hmax. destruct (r_image _ _ _ R) as (nb & role & M & _). pose proof (m_ino _ _ _ _ _ M) as Hi. pose proof (m_free _ _ _ _ _ M) as Hf.
  assert (1 <= ROOTINO < freeinode s) as Hr by (unfold ROOTINO; lia). assert (MAXFILE * BSIZE = 274432) as Emf by reflexivity.
  set (len := Z.of_nat (length (C ROOTINO))) in *. set (x := set_size (root_size len) (X ROOTINO)).
  pose proof (Z.div_mod len BSIZE ltac:(done)) as Hd. pose proof (Z.mod_pos_bound len BSIZE ltac:(done)) as Hm. pose proof (Z.div_pos len BSIZE ltac:(lia) ltac:(done)) as Hp.
  assert (0 <= root_size len < 2 ^ 32) as Hsz by (unfold root_size, BSIZE in *; lia).
  pose proof (m_fields _ _ _ _ _ M ROOTINO Hr) as Hdf. assert (disk_fields x) as Hdx by (destruct Hdf; split; done).
  assert (nmeta = 46) as Em by reflexivity. assert (bmapstart the_sb = 45) as Ebm by reflexivity.
  set (V1 := zset (img s) (IBLOCK ROOTINO the_sb) (put_dinode (img s (IBLOCK ROOTINO the_sb)) (dip ROOTINO) x)).
  set (V := zset V1 45 (mark_bits (Z.to_nat (freeblock s)) 0 zeroes)). assert (IBLOCK ROOTINO the_sb = 32) as E32 by reflexivity.
  exists V. split_and!.
  - unfold fix_root. rewrite bind_assoc, (bind_ok _ _ _ _ _ (rinode_ok X C s ROOTINO R Hr)). rewrite (r_size _ _ _ R) by done. fold len.
    rewrite (xint_small len) by lia. fold (root_size len). rewrite u32_small, xint_small by done. fold x.
    rewrite (bind_ok _ _ _ _ _ (winode_run ROOTINO x s ltac:(unfold ROOTINO, NINODES; lia) (m_nsec _ _ _ _ _ M))). fold V1. rewrite bind_gets. cbn [freeblock].
    unfold balloc. unfold FSSIZE in Hf. destruct (Z.ltb_spec (freeblock s) (BSIZE * 8)); [| unfold BSIZE in *; lia]. cbn [negb]. rewrite Ebm.
    by rewrite wsect_ok by (done || (unfold FSSIZE; lia)).
  - intros b Hb. unfold V, V1. by rewrite !zset_ne by (rewrite ?E32; lia).
  - intros b Hb. unfold V, V1. rewrite !zset_ne by (rewrite ?E32; lia). apply (r_boot _ _ _ R). lia.
  - apply zset_eq.
  - intros k Hk Hne. destruct (IBLOCK_eq k ltac:(lia)) as [Eb Hb]. unfold V. rewrite zset_ne by lia. unfold V1.
    rewrite winode_disk; [by apply (r_disk _ _ _ R) | unfold ROOTINO, NINODES; lia | lia | done | apply (df_addrs _ Hdx)].
  - unfold V. rewrite zset_ne by (rewrite E32; lia). unfold V1. rewrite zset_eq. apply dinode_back; [done |].
    intros b o. unfold x. rewrite mem_set_size. by apply (r_mem _ _ _ R).
Qed.

(** ** The image *)

Definition disk_inode (V : Z -> block) (k : Z) (ip : inode) : inode := get_dinode (V (IBLOCK k the_sb)) (dip k) ip.

Record good_image (files : list (list Z * list (list Z))) (V : Z -> block) (free : Z) : Prop := {
  g_sb : get_sb (V 1) = the_sb;
  g_geom : geom the_sb V;
  g_log : hdr_n (V (logstart the_sb)) = 0;
  g_bitmap : forall b, 0 <= b < FSSIZE -> used the_sb V b = (b <? free);
  g_file : forall i f ip, files !! i = Some f -> let x := disk_inode V (2 + Z.of_nat i) ip in
    i_type x = T_FILE /\ nlink x = 1 /\ isize x = Z.of_nat (length (content f)) /\
    fbytes V x 0 (length (content f)) = content f /\ file_ok the_sb V ∅ x /\ (i_dev ip = ROOTDEV -> inode_ok the_sb V x);
  g_root : forall ip, let x := disk_inode V ROOTINO ip in let n := Z.of_nat (length (listing files)) in
    i_type x = T_DIR /\ nlink x = 1 /\ isize x = root_size n /\ fbytes V x 0 (length (listing files)) = listing files /\
    (n mod BSIZE <> 0 -> file_ok the_sb V ∅ x /\ forall off, n <= off < isize x -> fbyte V x off = 0);
  g_apart : forall k k' bn bn', 1 <= k < 2 + Z.of_nat (length files) -> 1 <= k' < 2 + Z.of_nat (length files) ->
    0 <= bn < MAXFILE -> 0 <= bn' < MAXFILE -> faddr V (disk_inode V k inode0) bn <> 0 ->
    faddr V (disk_inode V k inode0) bn = faddr V (disk_inode V k' inode0) bn' -> k = k' /\ bn = bn'
}.

(** Two blocks of files at the same place are the same block of the same file. *)
Lemma image_apart X C nb role s k k' bn bn' :
  image X C nb role s -> 1 <= k < freeinode s -> 1 <= k' < freeinode s -> 0 <= bn < MAXFILE -> 0 <= bn' < MAXFILE ->
  faddr (img s) (X k) bn <> 0 -> faddr (img s) (X k) bn = faddr (img s) (X k') bn' -> k = k' /\ bn = bn'.
Proof.
  intros M Hk Hk' Hbn Hbn' Hne E. pose proof (m_nb _ _ _ _ _ M k Hk). pose proof (m_nb _ _ _ _ _ M k' Hk').
  assert (bn < nb k) as H1 by (destruct (Z.lt_ge_cases bn (nb k)); [done |]; destruct Hne; apply (m_none _ _ _ _ _ M); [done | lia]).
  assert (bn' < nb k') as H2 by (destruct (Z.lt_ge_cases bn' (nb k')); [done |]; destruct Hne; rewrite E; apply (m_none _ _ _ _ _ M); [done | lia]).
  destruct (m_data _ _ _ _ _ M k bn Hk ltac:(lia)) as [_ R1]. destruct (m_data _ _ _ _ _ M k' bn' Hk' ltac:(lia)) as [_ R2].
  rewrite E in R1. rewrite R1 in R2. by simplify_eq.
Qed.

Section Final.
Context (X : Z -> inode) (C : Z -> list Z) (nb : Z -> Z) (role : Z -> Z * option Z) (s : mk) (M : image X C nb role s).
Context (Hmap : img s 45 = mark_bits (Z.to_nat (freeblock s)) 0 zeroes).

Lemma BBLOCK_45 b : 0 <= b < FSSIZE -> BBLOCK b the_sb = 45 /\ b mod BPB = b.
Proof.
  intros Hb. unfold FSSIZE in Hb. unfold BBLOCK. change (bmapstart the_sb) with 45. change BPB with 8192. rewrite Z.div_small, Z.mod_small by lia. done.
Qed.

Lemma final_used b : 0 <= b < FSSIZE -> used the_sb (img s) b = (b <? freeblock s).
Proof using M Hmap.
  intros Hb. destruct (BBLOCK_45 b Hb) as [E1 E2]. unfold used. rewrite E1, E2, Hmap. pose proof (m_free _ _ _ _ _ M) as Hf. assert (nmeta = 46) as Em by reflexivity.
  rewrite mark_bits_spec by lia. assert (bit_set zeroes b = false) as ->.
  { rewrite bit_set_testbit by lia. apply Z.testbit_0_l. }
  rewrite orb_false_r, Z.add_0_l, Z2Nat.id by lia. destruct (Z.leb_spec 0 b); [done | lia].
Qed.

Lemma final_geom : geom the_sb (img s).
Proof using M Hmap.
  assert (sb_size the_sb = FSSIZE) as Es by reflexivity. assert (logstart the_sb = 2) as El by reflexivity. pose proof (m_free _ _ _ _ _ M) as Hf. assert (nmeta = 46) as Em by reflexivity.
  split; rewrite ?Es.
  - unfold FSSIZE. lia.
  - change (bmapstart the_sb) with 45. change (FSSIZE / BPB) with 0. lia.
  - intros b Hb. destruct (BBLOCK_45 b Hb) as [-> _]. split; [lia |]. unfold in_log. rewrite El. unfold LOGSIZE, MAXOPBLOCKS. lia.
  - intros b Hb Hu. rewrite final_used in Hu by done. apply Z.ltb_ge in Hu. split.
    + split; [unfold FSSIZE in Hb; lia |]. unfold in_log. rewrite El. unfold LOGSIZE, MAXOPBLOCKS. lia.
    + intros c Hc. destruct (BBLOCK_45 c Hc) as [-> _]. lia.
  - rewrite final_used by (unfold FSSIZE; lia). apply Z.ltb_lt. lia.
Qed.

Lemma final_data b : nmeta <= b < freeblock s -> data_block the_sb (img s) b.
Proof using M Hmap.
  intros Hb. assert (sb_size the_sb = FSSIZE) as Es by reflexivity. assert (logstart the_sb = 2) as El by reflexivity. pose proof (m_free _ _ _ _ _ M) as Hf.
  assert (nmeta = 46) as Em by reflexivity. unfold data_block. rewrite Es. split; [lia |]. split; [rewrite final_used by lia; apply Z.ltb_lt; lia |]. split.
  - split; [unfold FSSIZE in Hf; lia |]. unfold in_log. rewrite El. unfold LOGSIZE, MAXOPBLOCKS. lia.
  - intros c Hc. destruct (BBLOCK_45 c Hc) as [-> _]. lia.
Qed.

Context (k : Z) (Hk : 1 <= k < freeinode s) (x : inode) (Hx : addrs x = addrs (X k)).

Lemma final_faddr bn : faddr (img s) x bn = faddr (img s) (X k) bn.
Proof using Hx. unfold faddr. by rewrite Hx. Qed.

Lemma final_bytes : fbytes (img s) x 0 (length (C k)) = C k.
Proof using M Hk Hx.
  unfold fbytes. apply list_eq. intros j. rewrite list_lookup_fmap. destruct (decide (j < length (C k))%nat) as [Hj|Hj].
  - rewrite (lookup_seq_lt 0 _ j Hj). cbn. rewrite Z.add_0_l. pose proof (m_len _ _ _ _ _ M k Hk) as Hl.
    pose proof (m_bytes _ _ _ _ _ M k (Z.of_nat j) Hk ltac:(lia)) as Hb. unfold fbyte in *. rewrite final_faddr, Hb, Nat2Z.id.
    destruct (lookup_lt_is_Some_2 (C k) j Hj) as [v Hv]. rewrite Hv. by rewrite (nth_lookup_Some _ _ _ _ Hv).
  - rewrite !(proj2 (lookup_ge_None _ _)); [done | lia | rewrite length_seq; lia].
Qed.

Lemma final_ok : isize x <= nb k * BSIZE -> 0 <= isize x <= MAXFILE * BSIZE -> file_ok the_sb (img s) ∅ x.
Proof using M Hmap Hk Hx.
  intros Hs Hm. split; [done |]. intros bn Hbn Hlt. split; [| done]. apply final_data. rewrite final_faddr.
  apply (m_data _ _ _ _ _ M k bn Hk). split; [done |]. unfold BSIZE in *. lia.
Qed.

Lemma final_inode : i_dev x = ROOTDEV -> inode_ok the_sb (img s) x.
Proof using M Hmap Hk Hx.
  intros Hd. split; [done | |].
  - rewrite Hx. apply (df_addrs _ (m_fields _ _ _ _ _ M k Hk)).
  - rewrite Hx. fold (ind (X k)). intros Hi. apply final_data. by apply (m_ind _ _ _ _ _ M).
Qed.

End Final.

Lemma blocks_cover n : 0 <= n -> n <= blocks n * BSIZE.
Proof.
  intros Hn. unfold blocks. pose proof (Z.div_mod (n + BSIZE - 1) BSIZE ltac:(done)). pose proof (Z.mod_pos_bound (n + BSIZE - 1) BSIZE ltac:(done)).
  unfold BSIZE in *. lia.
Qed.

Lemma root_size_blocks n : 0 <= n -> n mod BSIZE <> 0 -> root_size n = blocks n * BSIZE.
Proof.
  intros Hn Hm. unfold root_size. f_equal. destruct (blocks_at n Hn) as [E|E]; [| lia]. pose proof (blocks_cover n Hn).
  pose proof (Z.div_mod n BSIZE ltac:(done)). pose proof (Z.mod_pos_bound n BSIZE ltac:(done)). unfold BSIZE in *. lia.
Qed.

(** C13: the image that [mkfs] builds from files that fit is a file system the kernel can use: [main] ends; the
    super block, the geometry and the empty log are in place; the bitmap marks exactly the blocks below
    [freeblock]; every file is in the inode of its position, and read through the kernel's block map it
    has the bytes that were put in; the root directory lists the names with these inodes; no block belongs to
    two files. *)
Theorem mkfs_image (files : list (list Z * list (list Z))) (Hfit : fits files) :
  exists s, main files mk0 = Ok (tt, s) /\ good_image files (img s) (freeblock s).
Proof.
  destruct (build_ok files Hfit) as (X & C & s & Hbuild & R & Hino & Hfree & Hroot & Hrt & Hrl & Hfiles). pose proof (f_inodes _ Hfit) as Hin. unfold NINODES in Hin.
  assert (length (listing files) = 32 + 16 * length files)%nat as Hll by (unfold listing; rewrite !length_app, !dirent_length, entries_length; lia).
  assert (MAXFILE * BSIZE = 274432) as Emf by reflexivity.
  destruct (finish_ok X C s R) as (V & Hrun & HV & Hlow & Hmap & Hdisk & Hdr); [lia | rewrite Hroot; lia |].
  exists (mkmk V FSSIZE (freeinode s) (freeblock s)). split; [exact (eq_trans (Hbuild _) Hrun) |]. cbn [img freeblock].
  destruct (r_image _ _ _ R) as (nb & role & M0 & Hnb). pose proof (image_meta _ _ _ _ _ V M0 HV) as M. set (s' := mkmk V FSSIZE (freeinode s) (freeblock s)) in *.
  change V with (img s') at 1. change (freeblock s) with (freeblock s') at 1. change V with (img s') in Hmap.
  split.
  - cbn [img s']. rewrite Hlow by lia. exact sb_read.
  - exact (final_geom X C nb role s' M Hmap).
  - change (logstart the_sb) with 2. cbn [img s']. rewrite Hlow by lia. vm_compute. reflexivity.
  - exact (final_used X C nb role s' M Hmap).
  - intros i f ip Hf x. destruct (Hfiles i f Hf) as (Hc & Ht & Hl). assert (i < length files)%nat as Hlt by (by eapply lookup_lt_Some).
    set (k := 2 + Z.of_nat i) in *. assert (1 <= k < freeinode s') as Hk by (cbn [freeinode s']; lia).
    pose proof (Hdisk k Hk ltac:(unfold ROOTINO; lia)) as E. assert (addrs x = addrs (X k)) as Ea by (rewrite <- E; reflexivity).
    assert (isize x = Z.of_nat (length (content f))) as Es by (rewrite <- Hc, <- (r_size _ _ _ R k Hk), <- E; reflexivity).
    destruct (Hnb k Hk) as [En _]. pose proof (f_each _ Hfit) as Hall. rewrite Forall_lookup in Hall. destruct (Hall i f Hf) as [_ Hmax]. rewrite <- Hc.
    split_and!; [rewrite <- Ht, <- E; reflexivity | rewrite <- Hl, <- E; reflexivity | by rewrite Hc | exact (final_bytes X C nb role s' M k Hk x Ea) | |].
    + apply (final_ok X C nb role s' M Hmap k Hk x Ea); rewrite Es; [rewrite En, Hc; apply blocks_cover; lia | lia].
    + intros Hd. exact (final_inode X C nb role s' M Hmap k Hk x Ea Hd).
  - intros ip x n. assert (1 <= ROOTINO < freeinode s') as Hk by (cbn [freeinode s']; unfold ROOTINO; lia).
    assert (addrs x = addrs (X ROOTINO)) as Ea by (change (addrs (X ROOTINO)) with (addrs (set_size (root_size (Z.of_nat (length (C ROOTINO)))) (X ROOTINO))); rewrite <- Hdr; reflexivity).
    assert (isize x = root_size n) as Es.
    { unfold n. rewrite <- Hroot. change (root_size (Z.of_nat (length (C ROOTINO)))) with (isize (set_size (root_size (Z.of_nat (length (C ROOTINO)))) (X ROOTINO))). rewrite <- Hdr. reflexivity. }
    destruct (Hnb ROOTINO Hk) as [En _]. rewrite Hroot in En. fold n in En. rewrite <- Hroot.
    split_and!; [| | done | exact (final_bytes X C nb role s' M ROOTINO Hk x Ea) |].
    + rewrite <- Hrt. change (i_type (X ROOTINO)) with (i_type (set_size (root_size (Z.of_nat (length (C ROOTINO)))) (X ROOTINO))). rewrite <- Hdr. reflexivity.
    + rewrite <- Hrl. change (nlink (X ROOTINO)) with (nlink (set_size (root_size (Z.of_nat (length (C ROOTINO)))) (X ROOTINO))). rewrite <- Hdr. reflexivity.
    + intros Hm. assert (isize x = nb ROOTINO * BSIZE) as Esb by (rewrite Es, En; apply root_size_blocks; [lia | done]).
      pose proof (m_nb _ _ _ _ _ M ROOTINO Hk) as Hnb'. split.
      * apply (final_ok X C nb role s' M Hmap ROOTINO Hk x Ea); [lia |]. rewrite Esb. unfold BSIZE in *. lia.
      * intros off Ho. unfold fbyte. rewrite (final_faddr X s' ROOTINO x Ea).
        pose proof (m_bytes _ _ _ _ _ M ROOTINO off Hk ltac:(lia)) as Hb. unfold fbyte in Hb. rewrite Hb, Hroot. apply nth_overflow. lia.
  - intros k k' bn bn' Hk Hk' Hbn Hbn'.
    assert (forall j, 1 <= j < freeinode s' -> addrs (disk_inode (img s') j inode0) = addrs (X j)) as Ha.
    { intros j Hj. destruct (Z.eq_dec j ROOTINO) as [->|Hne]; [| by rewrite <- (Hdisk j Hj Hne)].
      change (addrs (X ROOTINO)) with (addrs (set_size (root_size (Z.of_nat (length (C ROOTINO)))) (X ROOTINO))). rewrite <- Hdr. reflexivity. }
    rewrite <- Hino in Hk, Hk'. rewrite (final_faddr X s' k _ (Ha k Hk)), (final_faddr X s' k' _ (Ha k' Hk')). exact (image_apart X C nb role s' k k' bn bn' M Hk Hk' Hbn Hbn').
Qed.

(** ** Examples *)

(** [user/_cat] in two pieces, and a [README] of 15 blocks. *)
Definition two_files : list (list Z * list (list Z)) :=
  [(user_prefix ++ [UNDERSCORE; 99; 97; 116], [[127; 69]; [76; 70; 1]]); ([82; 69; 65; 68; 77; 69], replicate 15 (replicate 1024 7))].

Lemma two_files_fit : fits two_files.
Proof.
  assert (forallb (fun f => bool_decide (SLASH ∉ shortname f.1) && (Z.of_nat (length (content f)) <=? MAXFILE * BSIZE)) two_files = true) as Hall by (vm_compute; reflexivity).
  split.
  - apply Forall_forall. intros f Hf%list_elem_of_In. rewrite forallb_forall in Hall. apply Hall in Hf. apply andb_true_iff in Hf as [H1 H2].
    split; [by apply bool_decide_eq_true in H1 | lia].
  - cbn [length two_files]. unfold NINODES. lia.
  - apply Z.leb_le. vm_compute. reflexivity.
Qed.

Lemma mkfs_image_witness : exists s, main two_files mk0 = Ok (tt, s) /\ good_image two_files (img s) (freeblock s).
Proof. exact (mkfs_image two_files two_files_fit). Defined.

(** With 62 files the directory fills its block exactly, and [fix_root] gives it a second block that does not exist. *)
Example root_block_missing :
  match main (replicate 62 ([97], [])) mk0 with
  | Ok (_, s) => let x := disk_inode (img s) ROOTINO inode0 in isize x = 2048 /\ faddr (img s) x 1 = 0
  | _ => False
  end.
Proof. vm_compute. by split. Qed.

(** The number of inodes is not checked: inode 208 would be in the block of the bitmap. *)
Example inodes_run_over : IBLOCK 208 the_sb = bmapstart the_sb.
Proof. reflexivity. Qed.
