(* ===== verification/Cafe.v ===== *)
(** * Cafe: the coffee shop of [concurrency/1.c]

    One thread per customer, one semaphore per barista.  The body of a thread is a tree of the
    calls it makes ([prog]): the clock, [sleep], [printf], the semaphores, and the separate loads and
    stores of the shared counters [wasted_coffee] and [average_wait_time], which no lock
    protects.  [act] runs one call of one thread, or lets time pass; a state of the shop is reachable
    when some sequence of these leads to it, so every interleaving is covered.

    Time is in nanoseconds and [time(NULL)] is its whole seconds; seconds since the start are taken
    to fit an [int].  [sleep] takes an [unsigned int], so a negative argument is a very long sleep.
    [average_wait_time] is a double that only holds whole numbers.  [log] records who did what. *)

From stdpp Require Import base list strings relations.
From Stdlib Require Import ZArith Lia.
From S2P Require Import Prelude.

(** ** Data *)

Record customer : Type := mkcustomer {
  id : Z;
  arrival_time : Z;
  tolerance : Z;
  coffee_name : list Z;
  coffee_prep_time : Z
}.

Record coffee : Type := mkcoffee { name : list Z; prep_time : Z }.

(** The lines printed, with the numbers in them. *)
Inductive message : Type :=
  | Arrives (c t : Z)
  | Orders (c : Z) (coffee : list Z)
  | Begins (barista : nat) (c t : Z)
  | Completes (barista : nat) (c t : Z)
  | LeavesWithout (c t : Z)
  | LeavesWith (c t : Z).

Inductive prog : Type :=
  | Ret
  | Time (k : Z -> prog)
  | ClockGettime (k : Z -> prog)
  | Sleep (n : Z) (k : prog)
  | Printf (m : message) (k : prog)
  | SemTrywait (i : nat) (k : bool -> prog)
  | SemTimedwait (i : nat) (ts : Z) (k : bool -> prog)
  | SemPost (i : nat) (k : prog)
  | LoadWasted (k : Z -> prog)
  | StoreWasted (v : Z) (k : prog)
  | LoadAverage (k : Z -> prog)
  | StoreAverage (v : Z) (k : prog).

Definition NS : Z := 10 ^ 9.

(** ** Code: [customer_handler] *)

Section Handler.
Context (B : nat) (c : customer).

(** [wasted_coffee++] *)
Definition count_wasted (k : prog) : prog := LoadWasted (fun v => StoreWasted (v + 1) k).

(** The end of the handler, after both loops. *)
Definition leave (start : Z) (served : bool) : prog :=
  Time (fun t =>
    let customer_leave_time := t - start in
    if served then Printf (LeavesWith (id c + 1) customer_leave_time) Ret
    else count_wasted (Sleep 1 (Printf (LeavesWithout (id c + 1) (customer_leave_time + 1)) Ret))).

(** The order is completed and the barista freed. *)
Definition complete (start : Z) (i : nat) (k : prog) : prog :=
  Time (fun t => Printf (Completes (i + 1) (id c + 1) (t - start)) (SemPost i k)).

(** A barista was free at once. *)
Definition prepare (start : Z) (i : nat) : prog :=
  Sleep 1 (Time (fun t =>
    let order_start_time := t - start in
    Printf (Begins (i + 1) (id c + 1) order_start_time) (
      if tolerance c <? coffee_prep_time c then
        Sleep (tolerance c) (
        Printf (LeavesWithout (id c + 1) (tolerance c + order_start_time)) (
        count_wasted (
        Sleep (coffee_prep_time c - tolerance c) (complete start i Ret))))
      else Sleep (coffee_prep_time c) (complete start i (leave start true))))).

(** A barista was free after waiting. *)
Definition prepare_late (start : Z) (i : nat) : prog :=
  Time (fun barista_takes_order =>
    let delay := barista_takes_order - start - arrival_time c in
    LoadAverage (fun a => StoreAverage (a + (delay - 1)) (
      if tolerance c <? delay + coffee_prep_time c then
        Time (fun t =>
          let order_start_time := t - start in
          Printf (Begins (i + 1) (id c + 1) order_start_time) (
          Sleep 1 (Sleep (tolerance c - delay) (
          Printf (LeavesWithout (id c + 1) (tolerance c + order_start_time - delay + 1)) (
          count_wasted (
          Sleep (coffee_prep_time c - tolerance c + delay - 1) (complete start i Ret)))))))
      else
        Sleep 1 (Time (fun t =>
          Printf (Begins (i + 1) (id c + 1) (t - start)) (
          Sleep (coffee_prep_time c) (complete start i (leave start true)))))))).

(** The second loop, from barista [i] on with [n] to go. *)
Fixpoint timed_loop (start ts : Z) (n i : nat) : prog :=
  match n with
  | O => leave start false
  | S n' => SemTimedwait i ts (fun ok : bool => if ok then prepare_late start i else timed_loop start ts n' (S i))
  end.

Definition wait_for_barista (start : Z) : prog :=
  ClockGettime (fun now => timed_loop start (now + tolerance c * NS) B 0).

(** The first loop. *)
Fixpoint try_loop (start : Z) (n i : nat) : prog :=
  match n with
  | O => wait_for_barista start
  | S n' => SemTrywait i (fun ok : bool => if ok then prepare start i else try_loop start n' (S i))
  end.

Definition customer_handler : prog :=
  Time (fun start =>
  Sleep (arrival_time c) (
  Printf (Arrives (id c + 1) (arrival_time c)) (
  Printf (Orders (id c + 1) (coffee_name c)) (
  try_loop start B 0)))).

End Handler.

(** ** Code: [get_input], [initialize_threads_semaphores], [main] *)

(** The inner loop of [get_input]: the first coffee of that name; a name not on the list leaves
    the 0 of the global array. *)
Fixpoint prep_of (coffees : list coffee) (n : list Z) : Z :=
  match coffees with
  | [] => 0
  | k :: rest => if bool_decide (n = name k) then prep_time k else prep_of rest n
  end.

(** A line of the input: number, coffee, arrival, tolerance. *)
Definition read_customer (coffees : list coffee) (line : Z * list Z * Z * Z) : customer :=
  let '(num, n, arr, tol) := line in mkcustomer (num - 1) arr tol n (prep_of coffees n).

Definition get_input (coffees : list coffee) (lines : list (Z * list Z * Z * Z)) : list customer :=
  read_customer coffees <$> lines.

Definition initialize_threads_semaphores (B : nat) : list nat := replicate B 1%nat.

(** ** Running the threads *)

(** What a thread did that concerns others, or was seen. *)
Inductive label : Type :=
  | LPrint (m : message)
  | LTake (i : nat)
  | LPost (i : nat)
  | LWaste
  | LAverage.

Record thread : Type := mkthread { code : prog; wake : Z }.

Record shop : Type := mkshop {
  now : Z;
  sems : list nat;
  wasted_coffee : Z;
  average_wait_time : Z;
  threads : list thread;
  log : list (nat * label)
}.

(** All threads created, none started. *)
Definition open_shop (B : nat) (customers : list customer) (t0 : Z) : shop :=
  mkshop t0 (initialize_threads_semaphores B) 0 0
    ((fun c => mkthread (customer_handler B c) t0) <$> customers) [].

Definition set_code (t : nat) (p : prog) (s : shop) : shop :=
  mkshop (now s) (sems s) (wasted_coffee s) (average_wait_time s)
    (<[t := mkthread p (now s)]> (threads s)) (log s).
Definition set_wake (t : nat) (p : prog) (w : Z) (s : shop) : shop :=
  mkshop (now s) (sems s) (wasted_coffee s) (average_wait_time s)
    (<[t := mkthread p w]> (threads s)) (log s).
Definition set_sem (i v : nat) (s : shop) : shop :=
  mkshop (now s) (<[i := v]> (sems s)) (wasted_coffee s) (average_wait_time s) (threads s) (log s).
Definition set_wasted (v : Z) (s : shop) : shop :=
  mkshop (now s) (sems s) v (average_wait_time s) (threads s) (log s).
Definition set_average (v : Z) (s : shop) : shop :=
  mkshop (now s) (sems s) (wasted_coffee s) v (threads s) (log s).
Definition note (t : nat) (l : label) (s : shop) : shop :=
  mkshop (now s) (sems s) (wasted_coffee s) (average_wait_time s) (threads s) (log s ++ [(t, l)]).
Definition set_now (v : Z) (s : shop) : shop :=
  mkshop v (sems s) (wasted_coffee s) (average_wait_time s) (threads s) (log s).

(** The next call of thread [t], which is awake and at [p]; [None] when it must wait. *)
Definition call (t : nat) (p : prog) (s : shop) : option shop :=
  match p with
  | Ret => None
  | Time k => Some (set_code t (k (now s / NS)) s)
  | ClockGettime k => Some (set_code t (k (now s)) s)
  | Sleep n k => Some (set_wake t k (now s + u32 n * NS) s)
  | Printf m k => Some (set_code t k (note t (LPrint m) s))
  | SemTrywait i k =>
      match sems s !! i with
      | Some (S v) => Some (set_code t (k true) (set_sem i v (note t (LTake i) s)))
      | _ => Some (set_code t (k false) s)
      end
  | SemTimedwait i ts k =>
      match sems s !! i with
      | Some (S v) => Some (set_code t (k true) (set_sem i v (note t (LTake i) s)))
      | _ => if ts <=? now s then Some (set_code t (k false) s) else None
      end
  | SemPost i k =>
      match sems s !! i with
      | Some v => Some (set_code t k (set_sem i (S v) (note t (LPost i) s)))
      | None => None
      end
  | LoadWasted k => Some (set_code t (k (wasted_coffee s)) s)
  | StoreWasted v k => Some (set_code t k (set_wasted v (note t LWaste s)))
  | LoadAverage k => Some (set_code t (k (average_wait_time s)) s)
  | StoreAverage v k => Some (set_code t k (set_average v (note t LAverage s)))
  end.

Inductive action : Type :=
  | Tick (d : Z)
  | Run (t : nat).

Definition act (a : action) (s : shop) : option shop :=
  match a with
  | Tick d => if 0 <=? d then Some (set_now (now s + d) s) else None
  | Run t =>
      match threads s !! t with
      | Some th => if wake th <=? now s then call t (code th) s else None
      | None => None
      end
  end.

Definition step (s s' : shop) : Prop := exists a, act a s = Some s'.

Fixpoint acts (l : list action) (s : shop) : option shop :=
  match l with
  | [] => Some s
  | a :: l' => match act a s with Some s' => acts l' s' | None => None end
  end.

#[export] Instance ended_dec (p : prog) : Decision (p = Ret).
Proof. destruct p; [left; done | right; done..]. Defined.

(** [main] has joined all threads. *)
Definition closed (s : shop) : Prop := Forall (fun th => code th = Ret) (threads s).

(** ** The life of a customer *)

Inductive phase : Type :=
  | PNew
  | PArrived
  | POrdered
  | PTaken (i : nat) (late : bool)
  | PBusy (i : nat)
  | PGone (i : nat)
  | PWasted (i : nat)
  | PDone (i : nat) (left : bool)
  | PServed
  | PGivenUp
  | PLeft.

Inductive moves (c : customer) : phase -> label -> phase -> Prop :=
  | M_arrive t : moves c PNew (LPrint (Arrives (id c + 1) t)) PArrived
  | M_order : moves c PArrived (LPrint (Orders (id c + 1) (coffee_name c))) POrdered
  | M_take i : moves c POrdered (LTake i) (PTaken i false)
  | M_late i : moves c (PTaken i false) LAverage (PTaken i true)
  | M_begin i late t : moves c (PTaken i late) (LPrint (Begins (i + 1) (id c + 1) t)) (PBusy i)
  | M_complete i t : moves c (PBusy i) (LPrint (Completes (i + 1) (id c + 1) t)) (PDone i false)
  | M_gone i t : moves c (PBusy i) (LPrint (LeavesWithout (id c + 1) t)) (PGone i)
  | M_wasted i : moves c (PGone i) LWaste (PWasted i)
  | M_complete_wasted i t : moves c (PWasted i) (LPrint (Completes (i + 1) (id c + 1) t)) (PDone i true)
  | M_post i : moves c (PDone i false) (LPost i) PServed
  | M_post_wasted i : moves c (PDone i true) (LPost i) PLeft
  | M_with t : moves c PServed (LPrint (LeavesWith (id c + 1) t)) PLeft
  | M_give_up : moves c POrdered LWaste PGivenUp
  | M_without t : moves c PGivenUp (LPrint (LeavesWithout (id c + 1) t)) PLeft.

(** From phase [ph], the program [p] makes at most [n] calls, each of which is a move of the
    customer or silent, and ends when the customer has left. *)
Inductive conforms (B : nat) (c : customer) : nat -> phase -> prog -> Prop :=
  | C_ret n : conforms B c n PLeft Ret
  | C_time n ph k : (forall t, conforms B c n ph (k t)) -> conforms B c (S n) ph (Time k)
  | C_clock n ph k : (forall t, conforms B c n ph (k t)) -> conforms B c (S n) ph (ClockGettime k)
  | C_sleep n ph d p : conforms B c n ph p -> conforms B c (S n) ph (Sleep d p)
  | C_print n ph m ph' p : moves c ph (LPrint m) ph' -> conforms B c n ph' p -> conforms B c (S n) ph (Printf m p)
  | C_try n ph i ph' k : (i < B)%nat -> moves c ph (LTake i) ph' -> conforms B c n ph' (k true) -> conforms B c n ph (k false) ->
      conforms B c (S n) ph (SemTrywait i k)
  | C_timed n ph i ts ph' k : (i < B)%nat -> moves c ph (LTake i) ph' -> conforms B c n ph' (k true) -> conforms B c n ph (k false) ->
      conforms B c (S n) ph (SemTimedwait i ts k)
  | C_post n ph i ph' p : (i < B)%nat -> moves c ph (LPost i) ph' -> conforms B c n ph' p -> conforms B c (S n) ph (SemPost i p)
  | C_load n ph ph' p : moves c ph LWaste ph' -> conforms B c n ph' p -> conforms B c (S (S n)) ph (LoadWasted (fun v => StoreWasted (v + 1) p))
  | C_load_avg n ph k : (forall a, conforms B c n ph (k a)) -> conforms B c (S n) ph (LoadAverage k)
  | C_store_avg n ph v ph' p : moves c ph LAverage ph' -> conforms B c n ph' p -> conforms B c (S n) ph (StoreAverage v p).

Create HintDb cafe.
#[export] Hint Constructors moves : cafe.
#[export] Hint Constructors conforms : cafe.

(** The same for a thread that may be between the load and the store of [wasted_coffee], when [w] coffees
    have been counted. *)
Inductive running (B : nat) (c : customer) (w : Z) : nat -> phase -> prog -> Prop :=
  | R_code n ph p : conforms B c n ph p -> running B c w n ph p
  | R_store n ph v ph' p : moves c ph LWaste ph' -> conforms B c n ph' p -> 1 <= v <= w + 1 ->
      running B c w (S n) ph (StoreWasted v p).

(** The calls a customer makes at most. *)
Definition max_calls (B : nat) : nat := 2 * B + 24.

Section Conforms.
Context (B : nat) (c : customer).

Lemma conforms_mono n n' ph p : conforms B c n ph p -> (n <= n')%nat -> conforms B c n' ph p.
Proof.
  intros H. revert n'. induction H; intros n' Hn; try (destruct n' as [|n']; [lia |]); try (econstructor; eauto with lia; fail).
  destruct n' as [|n']; [lia |]. econstructor; eauto with lia.
Qed.

Lemma leave_served start : conforms B c 2 PServed (leave c start true).
Proof. constructor. intros t. cbn. eauto with cafe. Qed.

Lemma leave_unserved start : conforms B c 5 POrdered (leave c start false).
Proof. constructor. intros t. cbn. unfold count_wasted. eauto with cafe. Qed.

Lemma complete_served start i : (i < B)%nat -> conforms B c 5 (PBusy i) (complete c start i (leave c start true)).
Proof. intros Hi. constructor. intros t. econstructor; [constructor |]. econstructor; [done | constructor |]. apply leave_served. Qed.

Lemma complete_wasted start i : (i < B)%nat -> conforms B c 3 (PWasted i) (complete c start i Ret).
Proof. intros Hi. constructor. intros t. econstructor; [constructor |]. econstructor; [done | constructor |]. constructor. Qed.

Lemma prepare_conforms start i : (i < B)%nat -> conforms B c 11 (PTaken i false) (prepare c start i).
Proof.
  intros Hi. unfold prepare. do 2 constructor. intros t. econstructor; [constructor |].
  destruct (_ <? _).
  - constructor. econstructor; [constructor |]. unfold count_wasted. econstructor; [constructor |]. constructor. by apply complete_wasted.
  - constructor. apply (conforms_mono 5); [by apply complete_served | lia].
Qed.

Lemma prepare_late_conforms start i : (i < B)%nat -> conforms B c 14 (PTaken i false) (prepare_late c start i).
Proof.
  intros Hi. unfold prepare_late. constructor. intros t. constructor. intros a. econstructor; [constructor |].
  destruct (_ <? _).
  - constructor. intros t'. econstructor; [constructor |]. do 2 constructor. econstructor; [constructor |].
    unfold count_wasted. econstructor; [constructor |]. constructor. apply (conforms_mono 3); [by apply complete_wasted | lia].
  - do 2 constructor. intros t'. econstructor; [constructor |]. constructor. apply (conforms_mono 5); [by apply complete_served | lia].
Qed.

Lemma timed_conforms start ts n i : (i + n <= B)%nat -> conforms B c (14 + n) POrdered (timed_loop c start ts n i).
Proof.
  revert i. induction n as [|n IH]; intros i Hi; cbn [timed_loop].
  - apply (conforms_mono 5); [apply leave_unserved | lia].
  - replace (14 + S n)%nat with (S (14 + n)) by lia. econstructor; [lia | constructor | |].
    + apply (conforms_mono 14); [apply prepare_late_conforms; lia | lia].
    + apply IH. lia.
Qed.

Lemma try_conforms start n i : (i + n <= B)%nat -> conforms B c (15 + B + n) POrdered (try_loop B c start n i).
Proof.
  revert i. induction n as [|n IH]; intros i Hi; cbn [try_loop].
  - apply (conforms_mono (S (14 + B))); [| lia]. constructor. intros t. apply timed_conforms. lia.
  - replace (15 + B + S n)%nat with (S (15 + B + n)) by lia. econstructor; [lia | constructor | |].
    + apply (conforms_mono 11); [apply prepare_conforms; lia | lia].
    + apply IH. lia.
Qed.

Lemma handler_conforms : conforms B c (max_calls B) PNew (customer_handler B c).
Proof.
  apply (conforms_mono (4 + (15 + B + B))); [| unfold max_calls; lia]. unfold customer_handler. constructor. intros start. constructor.
  econstructor; [constructor |]. econstructor; [constructor |]. apply try_conforms. lia.
Qed.

End Conforms.

(** ** One call *)

(** What the calls noted in the log do to the semaphores. *)
Definition sem_effect (ls : list label) (a b : list nat) : Prop :=
  match ls with
  | [LTake i] => exists v, a !! i = Some (S v) /\ b = <[i := v]> a
  | [LPost i] => exists v, a !! i = Some v /\ b = <[i := S v]> a
  | _ => b = a
  end.

Definition phase_effect (c : customer) (ls : list label) (ph ph' : phase) : Prop :=
  match ls with
  | [] => ph' = ph
  | [l] => moves c ph l ph'
  | _ => False
  end.

(** Coffees counted as wasted, and customers who left without their order. *)
Fixpoint wastes (ls : list label) : Z :=
  match ls with
  | [] => 0
  | LWaste :: l => 1 + wastes l
  | _ :: l => wastes l
  end.

Fixpoint lost (ls : list label) : Z :=
  match ls with
  | [] => 0
  | LPrint (LeavesWithout _ _) :: l => 1 + lost l
  | _ :: l => lost l
  end.

Lemma wastes_app l k : wastes (l ++ k) = wastes l + wastes k.
Proof. induction l as [|[]]; cbn [app wastes]; lia. Qed.

Lemma lost_app l k : lost (l ++ k) = lost l + lost k.
Proof. induction l as [|[[]| | | |]]; cbn [app lost]; lia. Qed.

Lemma wastes_nonneg l : 0 <= wastes l.
Proof. induction l as [|[]]; cbn [wastes]; lia. Qed.

(** The counter never exceeds the coffees counted, and is not 0 after the first. *)
Definition waste_ok (w : Z) (s : shop) : Prop := 0 <= wasted_coffee s <= w /\ (0 < w -> 1 <= wasted_coffee s).

Lemma running_mono B c w w' n ph p : running B c w n ph p -> w <= w' -> running B c w' n ph p.
Proof. destruct 1; intros Hw; [by constructor |]. econstructor; [done | done | lia]. Qed.

Lemma call_effect B c w n ph p t s s' :
  running B c w n ph p -> waste_ok w s -> call t p s = Some s' ->
  exists n' ph' p' wk ls, n = S n' /\ running B c (w + wastes ls) n' ph' p' /\ waste_ok (w + wastes ls) s' /\
    phase_effect c ls ph ph' /\ sem_effect ls (sems s) (sems s') /\
    threads s' = <[t := mkthread p' wk]> (threads s) /\ log s' = log s ++ (pair t <$> ls).
Proof.
  intros Hr Hw. destruct Hr as [n ph p Hc|n ph v ph' p Hm Hc Hv]; [destruct Hc |]; cbn [call]; intros Hs; simplify_eq.
  - exists n, ph, (k (now s / NS)), (now s), []. cbn. rewrite app_nil_r, Z.add_0_r. split_and!; first [exact Hw | by constructor | done | eauto].
  - exists n, ph, (k (now s)), (now s), []. cbn. rewrite app_nil_r, Z.add_0_r. split_and!; first [exact Hw | by constructor | done | eauto].
  - eexists n, ph, p, _, []. cbn. rewrite app_nil_r, Z.add_0_r. split_and!; first [exact Hw | by constructor | done | eauto].
  - exists n, ph', p, (now s), [LPrint m]. cbn. rewrite Z.add_0_r. split_and!; first [exact Hw | by constructor | done | eauto].
  - destruct (sems s !! i) as [[|v]|] eqn:E; simplify_eq.
    + exists n, ph, (k false), (now s), []. cbn. rewrite app_nil_r, Z.add_0_r. split_and!; first [exact Hw | by constructor | done | eauto].
    + exists n, ph', (k true), (now s), [LTake i]. cbn. rewrite Z.add_0_r. split_and!; first [exact Hw | by constructor | done | eauto].
    + exists n, ph, (k false), (now s), []. cbn. rewrite app_nil_r, Z.add_0_r. split_and!; first [exact Hw | by constructor | done | eauto].
  - destruct (sems s !! i) as [[|v]|] eqn:E; [destruct (ts <=? now s); [| done] | | destruct (ts <=? now s); [| done]]; simplify_eq.
    + exists n, ph, (k false), (now s), []. cbn. rewrite app_nil_r, Z.add_0_r. split_and!; first [exact Hw | by constructor | done | eauto].
    + exists n, ph', (k true), (now s), [LTake i]. cbn. rewrite Z.add_0_r. split_and!; first [exact Hw | by constructor | done | eauto].
    + exists n, ph, (k false), (now s), []. cbn. rewrite app_nil_r, Z.add_0_r. split_and!; first [exact Hw | by constructor | done | eauto].
  - destruct (sems s !! i) as [v|] eqn:E; simplify_eq.
    exists n, ph', p, (now s), [LPost i]. cbn. rewrite Z.add_0_r. split_and!; first [exact Hw | by constructor | done | eauto].
  - exists (S n), ph, (StoreWasted (wasted_coffee s + 1) p), (now s), []. cbn. rewrite app_nil_r, Z.add_0_r.
    split_and!; [done | | exact Hw | done..]. destruct Hw. econstructor; [done | done | lia].
  - exists n, ph, (k (average_wait_time s)), (now s), []. cbn. rewrite app_nil_r, Z.add_0_r. split_and!; first [exact Hw | by constructor | done | eauto].
  - exists n, ph', p, (now s), [LAverage]. cbn. rewrite Z.add_0_r. split_and!; first [exact Hw | by constructor | done | eauto].
  - exists n, ph', p, (now s), [LWaste]. cbn. split_and!; [done | by constructor | | done..]. destruct Hw. split; cbn; lia.
Qed.

(** ** What the log says about a customer and about a barista *)

Definition own (t : nat) (l : list (nat * label)) : list label :=
  omap (fun x => if decide (x.1 = t) then Some x.2 else None) l.

Inductive mark : Type := MTake | MBegin | MComplete | MPost.

Definition mark_of (i : nat) (l : label) : option mark :=
  match l with
  | LTake j => if decide (j = i) then Some MTake else None
  | LPost j => if decide (j = i) then Some MPost else None
  | LPrint (Begins b _ _) => if decide (b = (i + 1)%nat) then Some MBegin else None
  | LPrint (Completes b _ _) => if decide (b = (i + 1)%nat) then Some MComplete else None
  | _ => None
  end.

Definition seen (i : nat) (l : list (nat * label)) : list (nat * mark) :=
  omap (fun x => pair x.1 <$> mark_of i x.2) l.

(** An order that the customer of thread [t] places with a barista, from beginning to end. *)
Definition order (t : nat) : list (nat * mark) := [(t, MTake); (t, MBegin); (t, MComplete); (t, MPost)].

Definition holding (ph : phase) : option nat :=
  match ph with
  | PTaken i _ | PBusy i | PGone i | PWasted i | PDone i _ => Some i
  | _ => None
  end.

(** How much of the order is done. *)
Definition progress (ph : phase) : nat :=
  match ph with
  | PTaken _ _ => 1
  | PBusy _ | PGone _ | PWasted _ => 2
  | PDone _ _ => 3
  | _ => 0
  end.

(** The labels of a customer up to a phase. *)
Inductive history (c : customer) : phase -> list label -> Prop :=
  | H_new : history c PNew []
  | H_move ph l x ph' : history c ph l -> moves c ph x ph' -> history c ph' (l ++ [x]).

Lemma own_note t t' ls l : own t' (l ++ (pair t <$> ls)) = own t' l ++ (if decide (t = t') then ls else []).
Proof.
  unfold own. rewrite omap_app. f_equal. induction ls as [|x ls IH]; [by case_decide |]. rewrite fmap_cons. cbn.
  destruct (decide (t = t')); cbn in *; by rewrite IH.
Qed.

Lemma seen_note i t ls l : seen i (l ++ (pair t <$> ls)) = seen i l ++ (pair t <$> omap (mark_of i) ls).
Proof.
  unfold seen. rewrite omap_app. f_equal. induction ls as [|x ls IH]; [done |]. rewrite fmap_cons. cbn.
  destruct (mark_of i x); cbn; by rewrite IH.
Qed.

Lemma moves_mark c ph l ph' i :
  moves c ph l ph' ->
  match mark_of i l with
  | None => (holding ph = Some i <-> holding ph' = Some i) /\ (holding ph = Some i -> progress ph' = progress ph)
  | Some MTake => holding ph = None /\ holding ph' = Some i /\ progress ph' = 1%nat
  | Some MPost => holding ph = Some i /\ progress ph = 3%nat /\ holding ph' = None
  | Some m => holding ph = Some i /\ holding ph' = Some i /\ progress ph' = S (progress ph) /\
              [MTake; MBegin; MComplete; MPost] !! progress ph = Some m
  end.
Proof.
  destruct 1; cbn [mark_of holding progress]; try (split; [naive_solver | naive_solver]).
  all: case_decide as E; try (assert (i0 = i) as -> by lia; done); try (assert (i0 <> i) by lia; naive_solver).
Qed.

(** ** The invariant *)

(** Barista [i] is free and all its orders are complete, or one customer is being served. *)
Definition barista_ok (i : nat) (phs : list phase) (v : nat) (sn : list (nat * mark)) : Prop :=
  (exists served, sn = mjoin (order <$> served) /\ v = 1%nat /\ forall t ph, phs !! t = Some ph -> holding ph <> Some i) \/
  (exists served t ph, phs !! t = Some ph /\ holding ph = Some i /\ v = 0%nat /\ sn = mjoin (order <$> served) ++ take (progress ph) (order t) /\
     forall t' ph', phs !! t' = Some ph' -> holding ph' = Some i -> t' = t).

(** Customers who left and are not counted yet, or are counted and about to leave. *)
Definition debt (ph : phase) : Z := match ph with PGone _ => 1 | PGivenUp => -1 | _ => 0 end.

Fixpoint sum_debt (phs : list phase) : Z := match phs with [] => 0 | ph :: l => debt ph + sum_debt l end.

(** [phs] are the phases of the customers, [ns] bounds on the calls they have left. *)
Record inv (B : nat) (cs : list customer) (s : shop) (phs : list phase) (ns : list nat) : Prop := {
  i_phs : length phs = length cs;
  i_ns : length ns = length cs;
  i_threads : length (threads s) = length cs;
  i_run : forall t c ph n th, cs !! t = Some c -> phs !! t = Some ph -> ns !! t = Some n -> threads s !! t = Some th ->
            running B c (wastes (log s).*2) n ph (code th);
  i_waste : waste_ok (wastes (log s).*2) s;
  i_debt : lost (log s).*2 - wastes (log s).*2 = sum_debt phs;
  i_hist : forall t c ph, cs !! t = Some c -> phs !! t = Some ph -> history c ph (own t (log s));
  i_known : forall t, (length cs <= t)%nat -> own t (log s) = [];
  i_sems : length (sems s) = B;
  i_bar : forall i v, sems s !! i = Some v -> barista_ok i phs v (seen i (log s))
}.

(** The semaphore of barista [i] under the calls [ls]. *)
Definition sem_at (i : nat) (ls : list label) (v v' : nat) : Prop :=
  match ls with
  | [LTake j] => if decide (j = i) then v = S v' else v' = v
  | [LPost j] => if decide (j = i) then v' = S v else v' = v
  | _ => v' = v
  end.

Lemma sem_effect_at ls a b i v' : sem_effect ls a b -> b !! i = Some v' -> exists v, a !! i = Some v /\ sem_at i ls v v'.
Proof.
  intros H Hb. destruct ls as [|l [|]]; cbn in *; subst; try by exists v'.
  2: { destruct l; subst; by exists v'. }
  destruct l as [m|j|j| |]; cbn in *; subst; try by exists v'.
  - destruct H as (v & Hv & ->). case_decide as E.
    + subst. rewrite list_lookup_insert_eq in Hb by (by eapply lookup_lt_Some). simplify_eq. by exists (S v').
    + rewrite list_lookup_insert_ne in Hb by done. by exists v'.
  - destruct H as (v & Hv & ->). case_decide as E.
    + subst. rewrite list_lookup_insert_eq in Hb by (by eapply lookup_lt_Some). simplify_eq. by exists v.
    + rewrite list_lookup_insert_ne in Hb by done. by exists v'.
Qed.

Lemma order_take n t m : [MTake; MBegin; MComplete; MPost] !! n = Some m -> take n (order t) ++ [(t, m)] = take (S n) (order t).
Proof. intros H. do 4 (destruct n as [|n]; [by injection H as <- |]). done. Qed.

Lemma lookup_insert_phase (phs : list phase) t ph' t1 ph1 :
  <[t := ph']> phs !! t1 = Some ph1 -> (t1 = t /\ ph1 = ph') \/ (t1 <> t /\ phs !! t1 = Some ph1).
Proof. intros H. apply list_lookup_insert_Some in H. naive_solver. Qed.

Section Barista.
Context (c : customer) (phs : list phase) (t : nat) (ph ph' : phase) (i : nat) (Ht : phs !! t = Some ph).

Lemma new_phase : <[t := ph']> phs !! t = Some ph'.
Proof using Ht. apply list_lookup_insert_eq. by eapply lookup_lt_Some. Qed.

Lemma barista_silent v sn :
  barista_ok i phs v sn -> (holding ph = Some i <-> holding ph' = Some i) -> (holding ph = Some i -> progress ph' = progress ph) ->
  barista_ok i (<[t := ph']> phs) v sn.
Proof using Ht.
  intros [(served & -> & -> & Hno)|(served & t0 & ph0 & Ht0 & Hh & -> & -> & Hone)] Hiff Hp.
  - left. exists served. split_and!; [done | done |]. intros t1 ph1 [[-> ->]|[_ H]]%lookup_insert_phase; [| by eapply Hno].
    rewrite <- Hiff. by eapply Hno.
  - right. exists served, t0. destruct (decide (t0 = t)) as [->|Hne].
    + rewrite Ht in Ht0. injection Ht0 as <-. exists ph'. rewrite (Hp Hh). split_and!; [apply new_phase | by apply Hiff | done | done |].
      intros t1 ph1 [[-> ->]|[_ H]]%lookup_insert_phase ?; [done | by eapply Hone].
    + exists ph0. split_and!; [by rewrite list_lookup_insert_ne | done | done | done |].
      intros t1 ph1 [[-> ->]|[_ H]]%lookup_insert_phase Hh1; [| by eapply Hone]. eapply Hone; [exact Ht | by apply Hiff].
Qed.

Lemma barista_take v sn :
  barista_ok i phs (S v) sn -> holding ph' = Some i -> progress ph' = 1%nat -> barista_ok i (<[t := ph']> phs) v (sn ++ [(t, MTake)]).
Proof using Ht.
  intros [(served & -> & [= ->] & Hno)|(? & ? & ? & _ & _ & ? & _)] Hh Hp; [| done].
  right. exists served, t, ph'. rewrite Hp. split_and!; [apply new_phase | done | done | done |].
  intros t1 ph1 [[-> ->]|[_ H]]%lookup_insert_phase Hh1; [done |]. by destruct (Hno _ _ H).
Qed.

Lemma barista_post v sn :
  barista_ok i phs v sn -> holding ph = Some i -> progress ph = 3%nat -> holding ph' = None ->
  barista_ok i (<[t := ph']> phs) (S v) (sn ++ [(t, MPost)]).
Proof using Ht.
  intros [(served & -> & -> & Hno)|(served & t0 & ph0 & Ht0 & Hh0 & -> & -> & Hone)] Hh Hp Hn; [by destruct (Hno _ _ Ht) |].
  assert (t = t0) as <- by (by eapply Hone). rewrite Ht in Ht0. injection Ht0 as <-. left. exists (served ++ [t]). split_and!; [| done |].
  - rewrite fmap_app, join_app, Hp. cbn. by rewrite <- (assoc_L (++)).
  - intros t1 ph1 [[-> ->]|[Hne H]]%lookup_insert_phase; [by rewrite Hn |]. intros Hh1. by apply Hne, (Hone _ _ H).
Qed.

Lemma barista_work v sn m :
  barista_ok i phs v sn -> holding ph = Some i -> holding ph' = Some i -> progress ph' = S (progress ph) ->
  [MTake; MBegin; MComplete; MPost] !! progress ph = Some m -> barista_ok i (<[t := ph']> phs) v (sn ++ [(t, m)]).
Proof using Ht.
  intros [(served & -> & -> & Hno)|(served & t0 & ph0 & Ht0 & Hh0 & -> & -> & Hone)] Hh Hh' Hp Hm; [by destruct (Hno _ _ Ht) |].
  assert (t = t0) as <- by (by eapply Hone). rewrite Ht in Ht0. injection Ht0 as <-. right. exists served, t, ph'.
  split_and!; [apply new_phase | done | done | |].
  - by rewrite <- (assoc_L (++)), order_take, Hp by done.
  - intros t1 ph1 [[-> ->]|[Hne H]]%lookup_insert_phase Hh1; [done | by eapply Hone].
Qed.

Lemma barista_step ls v v' sn :
  barista_ok i phs v sn -> phase_effect c ls ph ph' -> sem_at i ls v v' ->
  barista_ok i (<[t := ph']> phs) v' (sn ++ (pair t <$> omap (mark_of i) ls)).
Proof using Ht.
  intros Hb Hph Hv. destruct ls as [|l [|]]; [| | done]; cbn [phase_effect sem_at omap list_omap] in *.
  { subst. rewrite app_nil_r. by rewrite list_insert_id. }
  pose proof (moves_mark c ph l ph' i Hph) as Hm. destruct (mark_of i l) as [m|] eqn:E; cbn [fmap list_fmap].
  2: { assert (v' = v) as -> by (destruct l; cbn in E, Hv; try done; by case_decide).
       rewrite app_nil_r. destruct Hm. by apply barista_silent. }
  destruct l as [msg|j|j| |]; cbn [mark_of] in E; try done.
  - assert (m = MBegin \/ m = MComplete) as Hc by (destruct msg; try done; case_decide; simplify_eq; auto). subst v'.
    destruct Hc as [-> | ->]; destruct Hm as (H1 & H2 & H3 & H4); by apply barista_work.
  - case_decide; simplify_eq. destruct Hm as (_ & H1 & H2). by apply barista_take.
  - case_decide; simplify_eq. destruct Hm as (H1 & H2 & H3). by apply barista_post.
Qed.

End Barista.

(** ** Preservation *)

Lemma sum_insert (ns : list nat) t n : ns !! t = Some (S n) -> sum_list ns = S (sum_list (<[t := n]> ns)).
Proof.
  revert t. induction ns as [|m ns IH]; intros [|t] H; simplify_eq/=; [done |]. rewrite (IH _ H). lia.
Qed.

Lemma sum_debt_insert phs t ph ph' : phs !! t = Some ph -> sum_debt (<[t := ph']> phs) = sum_debt phs + (debt ph' - debt ph).
Proof. revert t. induction phs as [|x phs IH]; intros [|t] H; simplify_eq/=; [lia |]. rewrite (IH _ H). lia. Qed.

Lemma moves_debt c ls ph ph' : phase_effect c ls ph ph' -> lost ls - wastes ls = debt ph' - debt ph.
Proof. destruct ls as [|l [|]]; [intros -> | destruct 1 | done]; cbn; lia. Qed.

(** The number of [Run]s, and of those of one thread: the calls it makes. *)
Definition runs1 (a : action) : nat := match a with Tick _ => 0 | Run _ => 1 end.
Definition runs (l : list action) : nat := sum_list (runs1 <$> l).
Definition calls1 (t : nat) (a : action) : nat := match a with Run u => if decide (u = t) then 1 else 0 | Tick _ => 0 end.
Definition calls_of (t : nat) (l : list action) : nat := sum_list (calls1 t <$> l).

(** The bounds [ns] have become [ns'] by the calls of [l]. *)
Definition spent (l : list action) (ns ns' : list nat) : Prop :=
  forall t n, ns !! t = Some n -> exists n', ns' !! t = Some n' /\ n = (calls_of t l + n')%nat.

Section Preserve.
Context (B : nat) (cs : list customer).

Lemma inv_call s phs ns t th s' :
  inv B cs s phs ns -> threads s !! t = Some th -> call t (code th) s = Some s' ->
  exists phs' ns', inv B cs s' phs' ns' /\ sum_list ns = S (sum_list ns') /\ spent [Run t] ns ns'.
Proof.
  intros [] Hth Hrun. assert (t < length cs)%nat as Hlt by (rewrite <- i_threads0; by eapply lookup_lt_Some).
  destruct (lookup_lt_is_Some_2 cs t Hlt) as [c Hc].
  destruct (lookup_lt_is_Some_2 phs t ltac:(lia)) as [ph Hph]. destruct (lookup_lt_is_Some_2 ns t ltac:(lia)) as [n Hn].
  destruct (call_effect B c _ n ph (code th) t s s' (i_run0 _ _ _ _ _ Hc Hph Hn Hth) i_waste0 Hrun)
    as (n' & ph' & p' & w & ls & -> & Hconf & Hwaste & Heff & Hsem & Ethr & Elog).
  assert ((log s').*2 = (log s).*2 ++ ls) as Elab.
  { rewrite Elog, fmap_app, <- list_fmap_compose. f_equal. apply list_fmap_id. }
  assert (wastes (log s').*2 = wastes (log s).*2 + wastes ls) as Ew by (by rewrite Elab, wastes_app).
  exists (<[t := ph']> phs), (<[t := n']> ns). split; [| split; [by apply sum_insert |]].
  2:{ intros u n Hu. unfold calls_of. cbn. destruct (decide (t = u)) as [<-|Hne].
      - rewrite list_lookup_insert_eq by lia. exists n'. split; [done |]. simplify_eq. lia.
      - rewrite list_lookup_insert_ne by done. exists n. split; [done | lia]. }
  split.
  - by rewrite length_insert.
  - by rewrite length_insert.
  - by rewrite Ethr, length_insert.
  - intros t1 c1 ph1 n1 th1 Hc1. rewrite Ethr. rewrite !list_lookup_insert_Some. intros [(<- & <- & _)|[Hne H1]] [(? & H2 & _)|[? H2]] [(? & H3 & _)|[? H3]]; try done.
    + simplify_eq. by rewrite Ew.
    + eapply running_mono; [by eapply i_run0 |]. pose proof (wastes_nonneg ls). lia.
  - by rewrite Ew.
  - rewrite Ew, Elab, lost_app, (sum_debt_insert phs t ph ph' Hph), <- (moves_debt c ls ph ph' Heff). lia.
  - intros t1 c1 ph1 Hc1. rewrite Elog, own_note, list_lookup_insert_Some. intros [(<- & <- & _)|[Hne H1]].
    + rewrite decide_True by done. simplify_eq. specialize (i_hist0 _ _ _ Hc Hph). destruct ls as [|l [|]]; cbn in Heff; [| | done].
      * subst. by rewrite app_nil_r.
      * by econstructor.
    + rewrite decide_False by done. rewrite app_nil_r. by apply i_hist0.
  - intros t1 Ht1. rewrite Elog, own_note, decide_False by lia. rewrite app_nil_r. by apply i_known0.
  - destruct ls as [|l [|]]; cbn in Hsem, Heff; [by rewrite Hsem | | done].
    destruct l; try (by rewrite Hsem); destruct Hsem as (v & _ & ->); by rewrite length_insert.
  - intros i v' Hv'. destruct (sem_effect_at _ _ _ _ _ Hsem Hv') as (v & Hv & Hat).
    rewrite Elog, seen_note. eapply barista_step; [exact Hph | by apply i_bar0 | exact Heff | exact Hat].
Qed.

Lemma inv_act a s phs ns s' :
  inv B cs s phs ns -> act a s = Some s' -> exists phs' ns', inv B cs s' phs' ns' /\ sum_list ns = (runs1 a + sum_list ns')%nat /\ spent [a] ns ns'.
Proof.
  intros Hinv. destruct a as [d|t]; cbn [act].
  - destruct (0 <=? d); [| done]. intros [= <-]. exists phs, ns. split; [by destruct Hinv |]. split; [done |].
    intros t n Ht. exists n. split; [done |]. unfold calls_of. cbn. lia.
  - destruct (threads s !! t) as [th|] eqn:Hth; [| done]. destruct (wake th <=? now s); [| done]. intros Hrun. by eapply inv_call.
Qed.

Lemma inv_acts l s phs ns s' :
  inv B cs s phs ns -> acts l s = Some s' -> exists phs' ns', inv B cs s' phs' ns' /\ sum_list ns = (runs l + sum_list ns')%nat /\ spent l ns ns'.
Proof.
  revert s phs ns. induction l as [|a l IH]; intros s phs ns Hinv; cbn [acts].
  - intros [= <-]. exists phs, ns. split; [done |]. split; [done |]. intros t n Ht. by exists n.
  - destruct (act a s) as [s1|] eqn:Ha; [| done]. intros Hl. destruct (inv_act a s phs ns s1 Hinv Ha) as (phs1 & ns1 & H1 & E1 & S1).
    destruct (IH s1 phs1 ns1 H1 Hl) as (phs' & ns' & H' & E' & S'). exists phs', ns'. split; [done |].
    change (runs (a :: l)) with (runs1 a + runs l)%nat. split; [lia |]. intros t n Ht.
    destruct (S1 t n Ht) as (n1 & Hn1 & ->). destruct (S' t n1 Hn1) as (n' & Hn' & ->). exists n'. split; [done |].
    unfold calls_of. cbn. lia.
Qed.

Lemma inv_open t0 : inv B cs (open_shop B cs t0) (replicate (length cs) PNew) (replicate (length cs) (max_calls B)).
Proof.
  split; cbn [threads sems log open_shop]; rewrite ?length_fmap, ?length_replicate; try done.
  - intros t c ph n th Hc [-> _]%lookup_replicate [-> _]%lookup_replicate. rewrite list_lookup_fmap, Hc. intros [= <-]. constructor. apply handler_conforms.
  - cbn. by induction (length cs).
  - intros t c ph _ [-> _]%lookup_replicate. constructor.
  - apply length_replicate.
  - intros i v [-> _]%lookup_replicate. left. exists []. split_and!; try done. by intros t ph [-> _]%lookup_replicate.
Qed.

End Preserve.

(** A sequence of actions leads to every reachable state. *)
Lemma reach_acts s s' : rtc step s s' -> exists l, acts l s = Some s'.
Proof.
  induction 1 as [s|s s1 s' [a Ha] _ [l Hl]]; [by exists [] |]. exists (a :: l). cbn. by rewrite Ha.
Qed.

Lemma reach_inv B cs t0 s : rtc step (open_shop B cs t0) s -> exists phs ns, inv B cs s phs ns.
Proof.
  intros [l Hl]%reach_acts. destruct (inv_acts B cs l _ _ _ _ (inv_open B cs t0) Hl) as (phs & ns & H & _). eauto.
Qed.

(** ** The end of the day *)

Section End.
Context (B : nat) (cs : list customer) (s : shop) (phs : list phase) (ns : list nat) (Hinv : inv B cs s phs ns).

Lemma closed_left t ph : closed s -> phs !! t = Some ph -> ph = PLeft.
Proof using Hinv.
  intros Hcl Hph. destruct Hinv. assert (t < length cs)%nat as Hlt by (rewrite <- i_phs0; by eapply lookup_lt_Some).
  destruct (lookup_lt_is_Some_2 cs t Hlt) as [c Hc]. destruct (lookup_lt_is_Some_2 ns t ltac:(lia)) as [n Hn].
  destruct (lookup_lt_is_Some_2 (threads s) t ltac:(lia)) as [th Hth]. unfold closed in Hcl. rewrite Forall_lookup in Hcl.
  pose proof (i_run0 _ _ _ _ _ Hc Hph Hn Hth) as Hr. rewrite (Hcl _ _ Hth) in Hr. inversion Hr as [??? Hf|]. by inversion Hf.
Qed.

Lemma closed_debt : closed s -> lost (log s).*2 = wastes (log s).*2.
Proof using Hinv.
  intros Hcl. assert (sum_debt phs = 0) as H0; [| destruct Hinv; lia].
  assert (forall t ph, phs !! t = Some ph -> ph = PLeft) as Hl by (intros; by eapply closed_left). clear Hinv Hcl.
  induction phs as [|ph l IH]; [done |]. cbn. rewrite (Hl 0%nat ph eq_refl), IH; [done |]. intros t ph' H. by apply (Hl (S t)).
Qed.

(** A thread that has not finished can go on once enough time has passed. *)
Lemma can_run t th : threads s !! t = Some th -> code th <> Ret -> exists d s', acts [Tick d; Run t] s = Some s'.
Proof using Hinv.
  intros Hth Hne. destruct Hinv. assert (t < length cs)%nat as Hlt by (rewrite <- i_threads0; by eapply lookup_lt_Some).
  destruct (lookup_lt_is_Some_2 cs t Hlt) as [c Hc]. destruct (lookup_lt_is_Some_2 ns t ltac:(lia)) as [n Hn].
  destruct (lookup_lt_is_Some_2 phs t ltac:(lia)) as [ph Hph]. pose proof (i_run0 _ _ _ _ _ Hc Hph Hn Hth) as Hr.
  set (deadline := match code th with SemTimedwait _ ts _ => ts | _ => 0 end).
  set (d := Z.max 0 (Z.max (wake th - now s) (deadline - now s))). exists d. cbn [acts act].
  destruct (Z.leb_spec 0 d); [| lia]. cbn [threads set_now now]. rewrite Hth. destruct (Z.leb_spec (wake th) (now s + d)); [| lia].
  assert (exists s', call t (code th) (set_now (now s + d) s) = Some s') as [s' ->]; [| by eexists].
  destruct (code th) as [| | | | |i k|i ts k|i k| | | |] eqn:E; cbn [call sems set_now]; try done; try (by eexists).
  - destruct (sems s !! i) as [[|]|]; by eexists.
  - cbn [now set_now]. destruct (Z.leb_spec ts (now s + d)); [destruct (sems s !! i) as [[|]|]; by eexists | unfold deadline in d; lia].
  - inversion Hr as [??? Hf|]; subst. inversion Hf as [| | | | | | |? ? ? ? ? Hi| | |]; subst.
    destruct (lookup_lt_is_Some_2 (sems s) i Hi) as [v ->]. by eexists.
Qed.

End End.

Lemma acts_app l k s : acts (l ++ k) s = match acts l s with Some s' => acts k s' | None => None end.
Proof. revert s. induction l as [|a l IH]; intros s; [done |]. cbn. destruct (act a s); [apply IH | done]. Qed.

Lemma can_close B cs m s phs ns : inv B cs s phs ns -> sum_list ns = m -> exists l s', acts l s = Some s' /\ closed s'.
Proof.
  revert s phs ns. induction m as [m IH] using lt_wf_ind. intros s phs ns Hinv Hm.
  destruct (decide (Exists (fun th => code th <> Ret) (threads s))) as [H|H].
  - apply Exists_exists in H as (th & Hin & Hne). apply list_elem_of_lookup in Hin as [t Hth].
    destruct (can_run B cs s phs ns Hinv t th Hth Hne) as (d & s1 & Hrun).
    destruct (inv_acts B cs _ _ _ _ _ Hinv Hrun) as (phs1 & ns1 & Hinv1 & Hsum). cbn in Hsum.
    destruct (IH (sum_list ns1) ltac:(lia) s1 phs1 ns1 Hinv1 eq_refl) as (l & s' & Hl & Hcl).
    exists ([Tick d; Run t] ++ l), s'. by rewrite acts_app, Hrun.
  - exists [], s. split; [done |]. apply Forall_lookup. intros t th Hth. destruct (decide (code th = Ret)) as [|Hne]; [done |].
    destruct H. apply Exists_exists. exists th. split; [by eapply list_elem_of_lookup_2 | done].
Qed.

(** ** One visit *)

(** What the customer of thread [t] is said to have done. *)
Definition said (t : nat) (l : list (nat * label)) : list message :=
  omap (fun x => match x with LPrint m => Some m | _ => None end) (own t l).

(** A visit: served in time, served too late, or not served. *)
Inductive visit (c : customer) : list message -> Prop :=
  | V_served i ta t1 t2 t3 :
      visit c [Arrives (id c + 1) ta; Orders (id c + 1) (coffee_name c); Begins (i + 1) (id c + 1) t1;
               Completes (i + 1) (id c + 1) t2; LeavesWith (id c + 1) t3]
  | V_wasted i ta t1 t2 t3 :
      visit c [Arrives (id c + 1) ta; Orders (id c + 1) (coffee_name c); Begins (i + 1) (id c + 1) t1;
               LeavesWithout (id c + 1) t2; Completes (i + 1) (id c + 1) t3]
  | V_unserved ta t1 :
      visit c [Arrives (id c + 1) ta; Orders (id c + 1) (coffee_name c); LeavesWithout (id c + 1) t1].

Ltac back1 :=
  match goal with
  | H : moves _ _ _ _ |- _ => inversion H; clear H; subst
  | H : history _ _ _ |- _ => inversion H; clear H; subst
  end.

Lemma history_visit c l : history c PLeft l -> visit c (omap (fun x => match x with LPrint m => Some m | _ => None end) l).
Proof. intros H. repeat back1; constructor. Qed.

Lemma history_take c ph l :
  history c ph l ->
  (ph = PNew \/ ph = PArrived \/ ph = POrdered -> forall j, LTake j ∉ l) /\
  (forall j j', LTake j ∈ l -> LTake j' ∈ l -> j = j').
Proof.
  induction 1 as [|ph l x ph' Hh [IH1 IH2] Hm].
  { split; [intros _ j|intros j j']; intros H; by apply not_elem_of_nil in H. }
  assert (ph' = PNew \/ ph' = PArrived \/ ph' = POrdered -> (ph = PNew \/ ph = PArrived \/ ph = POrdered) /\ forall j, x <> LTake j) as Hb
    by (inversion Hm; subst; naive_solver).
  assert (forall j, x = LTake j -> forall j', LTake j' ∉ l) as Ht by (intros j ->; inversion Hm; subst; apply IH1; auto).
  split.
  - intros [H1 H2]%Hb j [H|H]%elem_of_app; [by eapply IH1 |]. apply list_elem_of_singleton in H. by apply (H2 j).
  - intros j j'. rewrite !elem_of_app, !list_elem_of_singleton. intros [H1|H1] [H2|H2].
    + by apply IH2.
    + exfalso. by eapply (Ht j').
    + exfalso. by eapply (Ht j).
    + congruence.
Qed.

Lemma history_holding c ph l i : history c ph l -> holding ph = Some i -> LTake i ∈ l.
Proof.
  induction 1 as [|ph l x ph' Hh IH Hm]; [done |]. intros Hi. rewrite elem_of_app, list_elem_of_singleton.
  inversion Hm; subst; cbn in *; try (left; apply IH; congruence); try done. right. congruence.
Qed.

(** ** As many baristas as customers *)

(** Nothing left that takes a barista or touches the average. *)
Inductive quiet : prog -> Prop :=
  | Q_ret : quiet Ret
  | Q_time k : (forall t, quiet (k t)) -> quiet (Time k)
  | Q_sleep n p : quiet p -> quiet (Sleep n p)
  | Q_print m p : quiet p -> quiet (Printf m p)
  | Q_post i p : quiet p -> quiet (SemPost i p)
  | Q_load k : (forall v, quiet (k v)) -> quiet (LoadWasted k)
  | Q_store v p : quiet p -> quiet (StoreWasted v p).
#[export] Hint Constructors quiet : cafe.

Lemma prepare_quiet c start i : quiet (prepare c start i).
Proof.
  unfold prepare, complete, leave, count_wasted. do 2 constructor. intros t. constructor. destruct (_ <? _); repeat (constructor; intros).
Qed.

(** A thread before or in its first loop, past [i] baristas. *)
Definition scanning (B : nat) (c : customer) (i : nat) (p : prog) : Prop :=
  (exists start, p = try_loop B c start (B - i) i /\ (i <= B)%nat) \/
  (i = 0%nat /\ (p = customer_handler B c \/ exists start,
     p = Sleep (arrival_time c) (Printf (Arrives (id c + 1) (arrival_time c)) (Printf (Orders (id c + 1) (coffee_name c)) (try_loop B c start B 0))) \/
     p = Printf (Arrives (id c + 1) (arrival_time c)) (Printf (Orders (id c + 1) (coffee_name c)) (try_loop B c start B 0)) \/
     p = Printf (Orders (id c + 1) (coffee_name c)) (try_loop B c start B 0))).

(** Every barista passed was taken by someone else. *)
Definition passed (t i : nat) (l : list (nat * label)) : Prop :=
  (forall j, LTake j ∉ own t l) /\ forall j, (j < i)%nat -> exists t', t' <> t /\ LTake j ∈ own t' l.

Record plenty (B : nat) (cs : list customer) (s : shop) : Prop := {
  e_avg : average_wait_time s = 0;
  e_thr : forall t c th, cs !! t = Some c -> threads s !! t = Some th ->
            quiet (code th) \/ exists i, scanning B c i (code th) /\ passed t i (log s)
}.

(** Different baristas were taken by different customers. *)
Lemma pigeonhole B N t (P : nat -> nat -> Prop) :
  (forall t' j j', P t' j -> P t' j' -> j = j') -> (forall t' j, P t' j -> (t' < N)%nat) -> (t < N)%nat ->
  (forall j, (j < B)%nat -> exists t', t' <> t /\ P t' j) -> (B < N)%nat.
Proof.
  intros Hfun Hlt Ht H.
  assert (forall n, (n <= B)%nat -> exists ts, length ts = n /\ NoDup (t :: ts) /\ forall t', t' ∈ ts -> exists j, (j < n)%nat /\ P t' j) as Hts.
  { induction n as [|n IH]; intros Hn.
    - exists []. split_and!; [done | apply NoDup_singleton |]. intros t' H0. by apply not_elem_of_nil in H0.
    - destruct IH as (ts & Hl & Hnd & Hts); [lia |]. destruct (H n ltac:(lia)) as (t' & Hne & Ht'). exists (t' :: ts). split_and!; [cbn; lia | |].
      + apply NoDup_cons in Hnd as [H1 H2]. repeat apply NoDup_cons_2; [| | done].
        * rewrite elem_of_cons. intros [->|?]; [by destruct Hne | done].
        * intros (j & Hj & Hp)%Hts. pose proof (Hfun _ _ _ Ht' Hp). lia.
      + intros t1 [->|H1]%elem_of_cons; [exists n; split; [lia | done] |]. destruct (Hts _ H1) as (j & Hj & Hp). exists j. split; [lia | done]. }
  destruct (Hts B ltac:(lia)) as (ts & Hl & Hnd & Hin).
  assert (length (t :: ts) <= length (seq 0 N))%nat as Hle.
  { apply submseteq_length, NoDup_submseteq; [done |]. intros t1 [->|H1]%elem_of_cons; apply elem_of_seq; [lia |].
    destruct (Hin _ H1) as (j & _ & Hp). pose proof (Hlt _ _ Hp). lia. }
  rewrite length_seq in Hle. cbn in Hle. lia.
Qed.

Lemma quiet_prog_call t p s s' :
  quiet p -> call t p s = Some s' ->
  average_wait_time s' = average_wait_time s /\ exists p' w, threads s' = <[t := mkthread p' w]> (threads s) /\ quiet p'.
Proof.
  destruct 1; cbn [call]; intros Hs; try (destruct (sems s !! i) eqn:E); simplify_eq; (split; [done |]); eexists _, _; (split; [reflexivity | auto]).
Qed.

Lemma passed_mono t t1 i l ls : t1 <> t -> passed t1 i l -> passed t1 i (l ++ (pair t <$> ls)).
Proof.
  intros Hne [H1 H2]. split.
  - intros j. rewrite own_note, decide_False by done. rewrite app_nil_r. apply H1.
  - intros j Hj. destruct (H2 j Hj) as (t' & Hn & Hin). exists t'. split; [done |]. rewrite own_note. apply elem_of_app. by left.
Qed.

Section Plenty.
Context (B : nat) (cs : list customer) (s : shop) (phs : list phase) (ns : list nat).
Context (Hinv : inv B cs s phs ns) (Henough : (length cs <= B)%nat) (Hpl : plenty B cs s).

Lemma plenty_frame t c th' ls s' :
  cs !! t = Some c -> average_wait_time s' = average_wait_time s -> threads s' = <[t := th']> (threads s) ->
  log s' = log s ++ (pair t <$> ls) ->
  quiet (code th') \/ (exists i, scanning B c i (code th') /\ passed t i (log s')) -> plenty B cs s'.
Proof using Hpl.
  intros Hc Ha Ht Hl Hth. destruct Hpl. split; [congruence |]. intros t1 c1 th1 Hc1. rewrite Ht, list_lookup_insert_Some.
  intros [(<- & <- & _)|[Hne H1]]; [by simplify_eq |]. destruct (e_thr0 _ _ _ Hc1 H1) as [|(i & Hs & Hp)]; [by left |].
  right. exists i. split; [done |]. rewrite Hl. by apply passed_mono.
Qed.

(** Nobody has to go past all baristas. *)
Lemma not_all_passed t c : cs !! t = Some c -> ~ passed t B (log s).
Proof using Hinv Henough.
  intros Hc [_ H]. destruct Hinv.
  assert (forall t' j, LTake j ∈ own t' (log s) -> (t' < length cs)%nat) as Hlt.
  { intros t' j Hj. destruct (decide (t' < length cs)%nat); [done |]. rewrite i_known0 in Hj by lia. by apply not_elem_of_nil in Hj. }
  pose proof (pigeonhole B (length cs) t (fun t' j => LTake j ∈ own t' (log s))) as P. cbn beta in P.
  assert (B < length cs)%nat; [| lia]. apply P; [| apply Hlt | by eapply lookup_lt_Some | exact H].
  intros t' j j' Hj Hj'. pose proof (Hlt _ _ Hj) as Hn. destruct (lookup_lt_is_Some_2 cs t' Hn) as [c' Hc'].
  destruct (lookup_lt_is_Some_2 phs t' ltac:(lia)) as [ph' Hph']. by eapply (history_take c' ph' (own t' (log s))); [apply i_hist0 | |].
Qed.

Lemma plenty_call t c th s' :
  cs !! t = Some c -> threads s !! t = Some th -> call t (code th) s = Some s' -> plenty B cs s'.
Proof using Hinv Henough Hpl.
  intros Hc Hth Hrun. destruct Hpl as [Ha He]. pose proof (He _ _ _ Hc Hth) as Hcase.
  assert (log s = log s ++ (pair t <$> [])) as Enil by (cbn; by rewrite app_nil_r).
  assert (t < length cs)%nat as Hlt by (by eapply lookup_lt_Some).
  destruct Hcase as [Hq|(i & Hscan & Hpass)].
  - destruct (quiet_prog_call t (code th) s s' Hq Hrun) as (Ea & p' & w & Et & Hq').
    destruct Hinv. destruct (lookup_lt_is_Some_2 phs t ltac:(lia)) as [ph Hph]. destruct (lookup_lt_is_Some_2 ns t ltac:(lia)) as [n Hn].
    destruct (call_effect B c _ n ph (code th) t s s' (i_run0 _ _ _ _ _ Hc Hph Hn Hth) i_waste0 Hrun) as (_ & _ & _ & _ & ls & _ & _ & _ & _ & _ & _ & El).
    eapply plenty_frame; [exact Hc | exact Ea | exact Et | exact El | by left].
  - destruct Hscan as [(start & Hp & Hi)|(-> & [Hp|(start & [Hp|[Hp|Hp]])])]; rewrite Hp in Hrun.
    + destruct (B - i)%nat as [|m] eqn:Em.
      { exfalso. assert (i = B) as -> by lia. by eapply not_all_passed. }
      cbn [try_loop call] in Hrun.
      destruct (lookup_lt_is_Some_2 (sems s) i) as [v Hv]; [destruct Hinv; lia |]. rewrite Hv in Hrun. destruct v as [|v]; simplify_eq.
      * eapply (plenty_frame t c _ []); [exact Hc | done | reflexivity | exact Enil |]. right. exists (S i). cbn [code log set_code]. split.
        { left. exists start. split; [by replace (B - S i)%nat with m by lia | lia]. }
        destruct Hpass as [H1 H2]. split; [exact H1 |]. intros j Hj. destruct (decide (j = i)) as [->|]; [| apply H2; lia].
        destruct Hinv. destruct (i_bar0 i 0%nat Hv) as [(? & _ & ? & _)|(? & t0 & ph0 & Ht0 & Hh & _)]; [done |].
        destruct (lookup_lt_is_Some_2 cs t0) as [c0 Hc0]; [rewrite <- i_phs0; by eapply lookup_lt_Some |].
        pose proof (history_holding c0 ph0 _ i (i_hist0 _ _ _ Hc0 Ht0) Hh) as Hin. exists t0. split; [| done]. intros ->. by apply (H1 i).
      * eapply (plenty_frame t c _ [LTake i]); [exact Hc | done | reflexivity | reflexivity |]. left. apply prepare_quiet.
    + injection Hrun as <-. eapply (plenty_frame t c _ []); [exact Hc | done | reflexivity | exact Enil |]. right. exists 0%nat.
      split; [| done]. right. split; [done |]. right. eexists. left. reflexivity.
    + injection Hrun as <-. eapply (plenty_frame t c _ []); [exact Hc | done | reflexivity | exact Enil |]. right. exists 0%nat.
      split; [| done]. right. split; [done |]. right. exists start. right. by left.
    + injection Hrun as <-. eapply (plenty_frame t c _ [LPrint _]); [exact Hc | done | reflexivity | reflexivity |]. right. exists 0%nat.
      cbn [code log set_code note]. split; [right; split; [done |]; right; exists start; right; by right |]. split; [| intros j Hj; lia]. intros j.
      change ([(t, _)]) with (pair t <$> [LPrint (Arrives (id c + 1) (arrival_time c))]). rewrite own_note, decide_True by done.
      rewrite elem_of_app, list_elem_of_singleton. intros [H|H]; [by apply (proj1 Hpass j) | done].
    + injection Hrun as <-. eapply (plenty_frame t c _ [LPrint _]); [exact Hc | done | reflexivity | reflexivity |]. right. exists 0%nat.
      cbn [code log set_code note]. split; [left; exists start; rewrite Nat.sub_0_r; split; [done | lia] |]. split; [| intros j Hj; lia]. intros j.
      change ([(t, _)]) with (pair t <$> [LPrint (Orders (id c + 1) (coffee_name c))]). rewrite own_note, decide_True by done.
      rewrite elem_of_app, list_elem_of_singleton. intros [H|H]; [by apply (proj1 Hpass j) | done].
Qed.

End Plenty.

Lemma plenty_reach B cs t0 s :
  (length cs <= B)%nat -> rtc step (open_shop B cs t0) s -> plenty B cs s.
Proof.
  intros HB [l Hl]%reach_acts. revert Hl. generalize (inv_open B cs t0).
  assert (plenty B cs (open_shop B cs t0)) as H0.
  { split; [done |]. intros t c th Hc. cbn [threads open_shop]. rewrite list_lookup_fmap, Hc. intros [= <-]. right. exists 0%nat. split.
    - right. split; [done |]. by left.
    - split; [intros j; apply not_elem_of_nil | lia]. }
  revert H0. generalize (replicate (length cs) PNew) (replicate (length cs) (max_calls B)). generalize (open_shop B cs t0).
  induction l as [|a l IH]; intros s0 phs ns Hp Hi; cbn [acts]; [by intros [= <-] |].
  destruct (act a s0) as [s1|] eqn:Ha; [| done]. destruct (inv_act B cs a s0 phs ns s1 Hi Ha) as (phs1 & ns1 & Hi1 & _).
  apply (IH s1 phs1 ns1); [| done]. destruct a as [d|t]; cbn [act] in Ha.
  - destruct (0 <=? d); [| done]. injection Ha as <-. by destruct Hp.
  - destruct (threads s0 !! t) as [th|] eqn:Hth; [| done]. destruct (wake th <=? now s0); [| done].
    destruct (lookup_lt_is_Some_2 cs t) as [c Hc]; [rewrite <- (i_threads _ _ _ _ _ Hi); by eapply lookup_lt_Some |]. exact (plenty_call B cs s0 phs ns Hi HB Hp t c th s1 Hc Hth Ha).
Qed.

(** ** Properties *)

(** C12: a barista prepares one order at a time: in every reachable state of the shop, whatever the
    interleaving of the threads, what has happened at a barista is a sequence of whole orders (taken,
    begun, completed and the barista freed by one customer) followed by at most one order in progress;
    when all customers have left, every barista is free and every order that was begun is complete. *)
Theorem one_order_at_a_time (B : nat) (cs : list customer) (t0 : Z) (s : shop) (i : nat)
    (Hs : rtc step (open_shop B cs t0) s) (Hi : (i < B)%nat) :
  exists served cur, seen i (log s) = mjoin (order <$> served) ++ cur /\
    (cur = [] \/ exists t n, (n < 4)%nat /\ cur = take n (order t)) /\
    (closed s -> cur = [] /\ sems s !! i = Some 1%nat).
Proof.
  destruct (reach_inv B cs t0 s Hs) as (phs & ns & Hinv).
  destruct (lookup_lt_is_Some_2 (sems s) i) as [v Hv]; [rewrite (i_sems _ _ _ _ _ Hinv); done |].
  destruct (i_bar _ _ _ _ _ Hinv i v Hv) as [(served & E & -> & _)|(served & t & ph & Hph & Hh & -> & E & _)].
  - exists served, []. rewrite app_nil_r. auto.
  - exists served, (take (progress ph) (order t)). split; [done |]. split.
    + right. exists t, (progress ph). split; [destruct ph; cbn; lia | done].
    + intros Hc. by rewrite (closed_left B cs s phs ns Hinv t ph Hc Hph) in Hh.
Qed.

(** Every customer gets a clear answer: when the shop has closed, the messages about each customer are
    those of one visit: arrival and order, then the coffee is begun and completed by the same
    barista and taken along, or begun, given up and completed for nothing, or never begun; and the
    counter of wasted coffees is at most the number of customers who left without, and positive if
    there are any. *)
Lemma every_visit_ends (B : nat) (cs : list customer) (t0 : Z) (s : shop)
    (Hs : rtc step (open_shop B cs t0) s) (Hc : closed s) :
  (forall t c, cs !! t = Some c -> visit c (said t (log s))) /\
  0 <= wasted_coffee s <= lost (log s).*2 /\ (0 < lost (log s).*2 -> 1 <= wasted_coffee s).
Proof.
  destruct (reach_inv B cs t0 s Hs) as (phs & ns & Hinv). split.
  - intros t c Ht. destruct (lookup_lt_is_Some_2 phs t) as [ph Hph]; [rewrite (i_phs _ _ _ _ _ Hinv); by eapply lookup_lt_Some |].
    apply history_visit. pose proof (i_hist _ _ _ _ _ Hinv t c ph Ht Hph) as Hh. by rewrite (closed_left B cs s phs ns Hinv t ph Hc Hph) in Hh.
  - rewrite (closed_debt B cs s phs ns Hinv Hc). exact (i_waste _ _ _ _ _ Hinv).
Qed.

(** C38: the shop closes: no customer makes more than [2 B + 24] calls, however the threads are scheduled
    and however long they wait, and from every reachable state some schedule leads to the end of
    all threads, where [main] goes on; so there is no deadlock. *)
Theorem shop_closes (B : nat) (cs : list customer) (t0 : Z) (l : list action) (s : shop)
    (Hl : acts l (open_shop B cs t0) = Some s) :
  (forall t, (t < length cs)%nat -> (calls_of t l <= 2 * B + 24)%nat) /\
  (runs l <= length cs * max_calls B)%nat /\ exists l' s', acts l' s = Some s' /\ closed s'.
Proof.
  destruct (inv_acts B cs l _ _ _ _ (inv_open B cs t0) Hl) as (phs & ns & Hinv & Hsum & Hspent). split; [| split].
  - intros t Ht. destruct (Hspent t (max_calls B)) as (n' & _ & E); [by apply lookup_replicate |]. unfold max_calls in E. lia.
  - rewrite sum_list_replicate in Hsum. lia.
  - by eapply can_close.
Qed.

(** With as many baristas as customers nobody waits: [average_wait_time] stays 0, as the
    documentation says of infinitely many baristas, because every customer finds a free barista in
    the first loop, even while others come and go. *)
Lemma enough_baristas (B : nat) (cs : list customer) (t0 : Z) (s : shop)
    (HB : (length cs <= B)%nat) (Hs : rtc step (open_shop B cs t0) s) : average_wait_time s = 0.
Proof. exact (e_avg _ _ _ (plenty_reach B cs t0 s HB Hs)). Qed.

(** ** Concrete days *)

(** A schedule: the first thread that can run does, and [d] nanoseconds pass when none can. *)
Fixpoint greedy (fuel : nat) (d : Z) (s : shop) : list action :=
  match fuel with
  | O => []
  | S f =>
      let next := List.find (fun t => match act (Run t) s with Some _ => true | None => false end) (seq 0 (length (threads s))) in
      let a := match next with Some t => Run t | None => Tick d end in
      match act a s with Some s' => a :: greedy f d s' | None => [] end
  end.

Lemma acts_reach l s s' : acts l s = Some s' -> rtc step s s'.
Proof.
  revert s. induction l as [|a l IH]; intros s; cbn [acts]; [by intros [= ->] |].
  destruct (act a s) as [s1|] eqn:E; [| done]. intros H. eapply rtc_l; [by exists a | by apply IH].
Qed.

(** The state after a schedule, for closed terms. *)
Definition after (l : list action) (s : shop) : shop := default s (acts l s).

Lemma after_acts l s : is_Some (acts l s) -> acts l s = Some (after l s).
Proof. unfold after. by intros [s' ->]. Qed.

Definition espresso : list Z := [101].
Definition cappuccino : list Z := [99].
Definition menu : list coffee := [mkcoffee espresso 3; mkcoffee cappuccino 10].

(** The day of [1.input]. *)
Definition sample_day : shop :=
  open_shop 2 (get_input menu [(1, cappuccino, 0, 15); (2, espresso, 3, 6); (3, espresso, 3, 5)]) 0.
Definition sample_end : shop := after (greedy 120 NS sample_day) sample_day.

Lemma sample_run : acts (greedy 120 NS sample_day) sample_day = Some sample_end.
Proof. apply after_acts. vm_compute. by eexists. Qed.

Lemma sample_closed : closed sample_end.
Proof.
  assert (forallb (fun th => bool_decide (code th = Ret)) (threads sample_end) = true) as H by (vm_compute; reflexivity).
  apply Forall_forall. intros th Hth%list_elem_of_In. rewrite forallb_forall in H. by apply H, bool_decide_eq_true in Hth.
Qed.

Example sample_day_messages :
  omap (fun x => match x.2 with LPrint m => Some m | _ => None end) (log sample_end) =
    [Arrives 1 0; Orders 1 cappuccino; Begins 1 1 1; Arrives 2 3; Orders 2 espresso; Arrives 3 3; Orders 3 espresso;
     Begins 2 2 4; Completes 2 2 7; LeavesWith 2 7; Begins 2 3 8; LeavesWithout 3 9; Completes 1 1 11; LeavesWith 1 11;
     Completes 2 3 11].
Proof. vm_compute. reflexivity. Qed.

Lemma one_order_at_a_time_witness :
  exists served cur, seen 1 (log sample_end) = mjoin (order <$> served) ++ cur /\ cur = [] /\ sems sample_end !! 1%nat = Some 1%nat.
Proof.
  destruct (one_order_at_a_time 2 _ 0 sample_end 1 (acts_reach _ _ _ sample_run) (Nat.lt_succ_diag_r 1)) as (served & cur & E & _ & H).
  exists served, cur. split; [exact E | exact (H sample_closed)].
Defined.

Lemma shop_closes_witness :
  (calls_of 1 [Run 0; Tick 5; Run 1] <= 2 * 2 + 24)%nat /\ (runs [Run 0; Tick 5; Run 1] <= 3 * max_calls 2)%nat /\
  exists s l' s', acts [Run 0; Tick 5; Run 1] sample_day = Some s /\ acts l' s = Some s' /\ closed s'.
Proof.
  assert (acts [Run 0; Tick 5; Run 1] sample_day = Some (after [Run 0; Tick 5; Run 1] sample_day)) as Hl
    by (apply after_acts; vm_compute; by eexists).
  destruct (shop_closes 2 _ 0 _ _ Hl) as (H0 & H1 & l' & s' & H2 & H3). split; [apply H0; vm_compute; lia |]. split; [exact H1 |]. by exists (after [Run 0; Tick 5; Run 1] sample_day), l', s'.
Defined.

(** Two customers leave without their coffee at the same time and one of them is not counted: both load
    [wasted_coffee] before either stores. *)
Definition race_day : shop :=
  open_shop 1 [mkcustomer 0 0 9 espresso 3; mkcustomer 1 0 1 espresso 3; mkcustomer 2 0 1 espresso 3] 0.
Definition race : list action :=
  replicate 5 (Run 0) ++ replicate 6 (Run 1) ++ replicate 6 (Run 2) ++
  [Tick NS; Run 1; Run 1; Run 1; Run 2; Run 2; Run 2; Run 1; Run 2].

Example wasted_coffee_lost :
  let s := after race race_day in let s' := after (greedy 60 NS s) s in
  is_Some (acts race race_day) /\ wasted_coffee s' = 1 /\ lost (log s').*2 = 2 /\
  forallb (fun th => bool_decide (code th = Ret)) (threads s') = true.
Proof. vm_compute. split; [by eexists | by split_and!]. Qed.

(** The second loop waits for the first barista until the customer's patience ends and tries the others only
    then: customer 3 waits from second 1 to 7 and leaves without coffee, while barista 2 is free
    from second 3 on. *)
Definition slow_day (t0 : Z) : shop :=
  open_shop 2 [mkcustomer 0 0 20 cappuccino 10; mkcustomer 1 0 20 espresso 2; mkcustomer 2 1 6 espresso 1] t0.

Example free_barista_missed :
  let s := after (greedy 90 NS (slow_day 0)) (slow_day 0) in
  said 1 (log s) = [Arrives 2 0; Orders 2 espresso; Begins 2 2 1; Completes 2 2 3; LeavesWith 2 3] /\
  said 2 (log s) = [Arrives 3 1; Orders 3 espresso; Begins 2 3 7; LeavesWithout 3 8; Completes 2 3 8].
Proof. vm_compute. by split. Qed.

(** The same day opened 0.9 seconds after a full second: the delay is rounded up to 7 seconds, one more than
    the tolerance, and [sleep(c->tolerance - delay)] sleeps for 2^32 - 1 seconds, holding barista 2. *)
Example oversleep :
  let s := after (greedy 90 (3 * 10 ^ 8) (slow_day (9 * 10 ^ 8))) (slow_day (9 * 10 ^ 8)) in
  wake <$> threads s !! 2%nat = Some (93 * 10 ^ 8 + (2 ^ 32 - 1) * NS) /\ sems s = [1%nat; 0%nat].
Proof. vm_compute. by split. Qed.

(** A customer whose barista is freed between the two loops adds -1 to the waiting time. *)
Definition quick_day : shop := open_shop 1 [mkcustomer 0 0 9 espresso 1; mkcustomer 1 2 9 espresso 1] 0.
Definition quick : list action :=
  replicate 6 (Run 0) ++ [Run 1; Run 1; Tick NS; Run 0; Run 0; Run 0; Tick NS; Run 1; Run 1; Run 1; Run 0; Run 0; Run 0] ++ replicate 5 (Run 1).

Example negative_wait : is_Some (acts quick quick_day) /\ average_wait_time (after quick quick_day) = -1.
Proof. vm_compute. split; [by eexists | reflexivity]. Qed.
