(* ===== verification/Ucall.v ===== *)
(** * Ucall: user programs and the system calls they make

    A user program ([user/*.c]) is a tree: it returns, it exits, or it makes one of the calls of
    [user/user.h] and continues with the answer.  A loop without a bound takes the number of rounds
    it is followed for; a program that is still in its loop then is [PMore].

    An operating system is anything that answers calls and keeps a state ([Os]); [run] is a
    process alone with it.  What a program that copies text relies on is the interface [Streams]:
    descriptors to read from that deliver a text in pieces of any size, descriptors that take what is
    written, files that can be opened.  [desk] is an implementation of it. *)

From stdpp Require Import base list strings gmap.
From Stdlib Require Import ZArith Lia.
From S2P Require Import Prelude Fcntl Print Uprint.

(** ** Data *)

(** The fields of [struct stat]. *)
Record ustat : Type := mkustat { st_dev : Z; st_ino : Z; st_type : Z; st_nlink : Z; st_size : Z }.

(** The calls of [user.h] but [exit]; a string is the list of its characters, and the buffer of a
    [write] the bytes it holds. *)
Inductive ucall : Type :=
  | UFork
  | UWait
  | UPipe
  | UWrite (fd : Z) (buf : list Z)
  | URead (fd n : Z)
  | UClose (fd : Z)
  | UKill (pid : Z)
  | UExec (path : list Z) (argv : list (list Z))
  | UOpen (path : list Z) (mode : Z)
  | UMknod (path : list Z) (major minor : Z)
  | UUnlink (path : list Z)
  | UFstat (fd : Z)
  | ULink (old new : list Z)
  | UMkdir (path : list Z)
  | UChdir (path : list Z)
  | UDup (fd : Z)
  | UGetpid
  | USbrk (n : Z)
  | USleep (n : Z)
  | UUptime
  | UWaitx
  | UGetreadcount
  | USetpriority (a b : Z).

(** What comes back: the result, and what the call has stored for its caller. *)
Definition answer (c : ucall) : Type :=
  match c with
  | UPipe => Z * (Z * Z)
  | URead _ _ => Z * list Z
  | UFstat _ => Z * ustat
  | UWaitx => Z * (Z * Z)
  | _ => Z
  end.

Inductive uprog (A : Type) : Type :=
  | PRet (a : A)
  | PExit (status : Z)
  | PMore
  | PAsk (c : ucall) (k : answer c -> uprog A).
Arguments PRet {A}. Arguments PExit {A}. Arguments PMore {A}. Arguments PAsk {A}.

Fixpoint pbind {A B} (p : uprog A) (f : A -> uprog B) : uprog B :=
  match p with
  | PRet a => f a
  | PExit st => PExit st
  | PMore => PMore
  | PAsk c k => PAsk c (fun a => pbind (k a) f)
  end.

Definition ask (c : ucall) : uprog (answer c) := PAsk c PRet.

Declare Scope user_scope.
Delimit Scope user_scope with user.
Notation "'let?' x := p 'in' k" :=
  (pbind p (fun x => k)) (at level 10, x binder, p at level 100, k at level 200) : user_scope.
Notation "'do?' p 'in' k" :=
  (pbind p (fun _ => k)) (at level 10, p at level 100, k at level 200) : user_scope.
#[global] Open Scope user_scope.

(** ** Code: output *)

(** [putc] for every character of a text. *)
Fixpoint puts (fd : Z) (l : list Z) : uprog unit :=
  match l with
  | [] => PRet tt
  | c :: l' => do? ask (UWrite fd [c]) in puts fd l'
  end.

(** A string literal that ends in a newline. *)
Definition line (s : string) : list Z := bytes s ++ [c_nl].

(** A format the arguments do not fit has no defined output. *)
Definition fprintf (fd : Z) (fmt : list Z) (ap : list varg) : uprog unit :=
  match vprintf fmt ap with
  | Some l => puts fd l
  | None => PMore
  end.

Definition printf (fmt : list Z) (ap : list varg) : uprog unit := fprintf 1 fmt ap.

Lemma cut0_id l : Forall (fun c => c <> 0) l -> cut0 l = l.
Proof. induction 1 as [|c l Hc Hl IH]; [done |]. cbn. destruct (Z.eqb_spec c 0); [done |]. by rewrite IH. Qed.

Lemma cut0_length l : (length (cut0 l) <= length l)%nat.
Proof. induction l as [|c l IH]; [done |]. cbn. destruct (c =? 0); cbn; lia. Qed.

(** ** A process alone with an operating system *)

Class Os (W : Type) : Type := { sys : forall c : ucall, W -> answer c * W }.

Inductive uend (A : Type) : Type :=
  | Returned (a : A)
  | Exited (status : Z)
  | Unfinished.
Arguments Returned {A}. Arguments Exited {A}. Arguments Unfinished {A}.

Section Run.
Context {W : Type} `{OS : Os W}.

Fixpoint run {A} (p : uprog A) (w : W) : uend A * W :=
  match p with
  | PRet a => (Returned a, w)
  | PExit st => (Exited st, w)
  | PMore => (Unfinished, w)
  | PAsk c k => let '(a, w') := sys c w in run (k a) w'
  end.

Lemma run_bind {A B} (p : uprog A) (f : A -> uprog B) w :
  run (pbind p f) w =
  match run p w with
  | (Returned a, w') => run (f a) w'
  | (Exited st, w') => (Exited st, w')
  | (Unfinished, w') => (Unfinished, w')
  end.
Proof.
  revert w. induction p as [a|st| |c k IH]; intros w; cbn; [done..|]. destruct (sys c w) as [a w']. apply IH.
Qed.

Lemma run_ret {A B} (p : uprog A) (f : A -> uprog B) w a w' :
  run p w = (Returned a, w') -> run (pbind p f) w = run (f a) w'.
Proof. intros H. by rewrite run_bind, H. Qed.

Lemma run_ask {B} c (f : answer c -> uprog B) w a w' :
  sys c w = (a, w') -> run (pbind (ask c) f) w = run (f a) w'.
Proof. intros H. cbn. by rewrite H. Qed.

End Run.

(** ** Interface: text streams *)

(** What is still to be read from a descriptor, what has been written to one, and the contents of
    the files that can be opened. *)
Class Streams (W : Type) : Type := {
  source : W -> Z -> option (list Z);
  sink : W -> Z -> option (list Z);
  named : W -> list Z -> option (list Z);
}.

(** [w'] differs from [w] in what is to be read from [fd]. *)
Definition reads {W} `{Streams W} (fd : Z) (l : option (list Z)) (w w' : W) : Prop :=
  source w' fd = l /\ (forall fd', fd' <> fd -> source w' fd' = source w fd') /\
  (forall fd', sink w' fd' = sink w fd') /\ (forall p, named w' p = named w p).

(** [w'] differs from [w] in what has been written to [fd]. *)
Definition writes {W} `{Streams W} (fd : Z) (l : list Z) (w w' : W) : Prop :=
  sink w' fd = Some l /\ (forall fd', fd' <> fd -> sink w' fd' = sink w fd') /\
  (forall fd', source w' fd' = source w fd') /\ (forall p, named w' p = named w p).

Class StreamsOk (W : Type) `{OS : Os W} `{ST : Streams W} : Prop := {
  read_ok w fd n l : source w fd = Some l -> 0 < n ->
    exists k w', sys (URead fd n) w = ((Z.of_nat k, take k l), w') /\ Z.of_nat k <= n /\ (k <= length l)%nat /\
      (k = 0%nat -> l = []) /\ reads fd (Some (drop k l)) w w';
  write_ok w fd l out : sink w fd = Some out ->
    exists w', sys (UWrite fd l) w = (Z.of_nat (length l), w') /\ writes fd (out ++ l) w w';
  open_ok w path l : named w path = Some l ->
    exists fd w', sys (UOpen path O_RDONLY) w = (fd, w') /\ 0 <= fd /\ source w fd = None /\ reads fd (Some l) w w';
  open_missing w path : named w path = None -> exists r, sys (UOpen path O_RDONLY) w = (r, w) /\ r < 0;
  close_ok w fd l : source w fd = Some l -> exists w', sys (UClose fd) w = (0, w') /\ reads fd None w w';
}.

Section Writing.
Context {W : Type} `{SO : StreamsOk W}.

Lemma run_puts fd l w out : sink w fd = Some out -> exists w', run (puts fd l) w = (Returned tt, w') /\ writes fd (out ++ l) w w'.
Proof.
  revert w out. induction l as [|c l IH]; intros w out Hs.
  - exists w. rewrite app_nil_r. done.
  - destruct (write_ok w fd [c] out Hs) as (w1 & E1 & S1 & O1 & R1 & N1).
    destruct (IH w1 _ S1) as (w2 & E2 & S2 & O2 & R2 & N2). exists w2. cbn [puts]. rewrite (run_ask _ _ _ _ _ E1). split; [done |].
    rewrite <- (assoc_L (++)) in S2. repeat split; [done | intros; rewrite O2, O1; done | intros; by rewrite R2 | intros; by rewrite N2].
Qed.

Lemma run_fprintf fd fmt ap l w out :
  vprintf fmt ap = Some l -> sink w fd = Some out -> exists w', run (fprintf fd fmt ap) w = (Returned tt, w') /\ writes fd (out ++ l) w w'.
Proof. intros Hv Hs. unfold fprintf. rewrite Hv. by apply run_puts. Qed.

End Writing.

(** ** An implementation *)

(** A desk: files, the descriptors opened for reading with what is left, the descriptors for
    writing with what they got, and the sizes of the next pieces a reader gets. *)
Record desk : Type := mkdesk {
  dfiles : gmap (list Z) (list Z);
  dsrc : gmap nat (list Z);
  dout : gmap Z (list Z);
  dsizes : list nat;
}.

Definition dread (d : desk) (fd : Z) : option (list Z) := if fd <? 0 then None else dsrc d !! Z.to_nat fd.

(** Never an empty piece before the end of the text. *)
Definition piece (d : desk) (n : Z) : nat := Nat.min (Z.to_nat n) (match dsizes d with [] => Z.to_nat n | s :: _ => S s end).

(** The calls it does not know return -1. *)
Definition no_answer (c : ucall) : answer c :=
  match c with
  | UPipe => (-1, (0, 0))
  | URead _ _ => (-1, [])
  | UFstat _ => (-1, mkustat 0 0 0 0 0)
  | UWaitx => (-1, (0, 0))
  | _ => -1
  end.

Definition desk_sys (c : ucall) (d : desk) : answer c * desk :=
  match c as c return answer c * desk with
  | URead fd n =>
      match dread d fd with
      | Some l => let k := Nat.min (piece d n) (length l) in
          ((Z.of_nat k, take k l), mkdesk (dfiles d) (<[Z.to_nat fd := drop k l]> (dsrc d)) (dout d) (tail (dsizes d)))
      | None => ((-1, []), d)
      end
  | UWrite fd l =>
      match dout d !! fd with
      | Some out => (Z.of_nat (length l), mkdesk (dfiles d) (dsrc d) (<[fd := out ++ l]> (dout d)) (dsizes d))
      | None => (-1, d)
      end
  | UOpen path mode =>
      match dfiles d !! path with
      | Some l => let fd := fresh (dom (dsrc d)) in (Z.of_nat fd, mkdesk (dfiles d) (<[fd := l]> (dsrc d)) (dout d) (dsizes d))
      | None => (-1, d)
      end
  | UClose fd =>
      match dread d fd with
      | Some _ => (0, mkdesk (dfiles d) (delete (Z.to_nat fd) (dsrc d)) (dout d) (dsizes d))
      | None => (-1, d)
      end
  | c => (no_answer c, d)
  end.

#[export] Instance desk_os : Os desk := { sys := desk_sys }.

#[export] Instance desk_streams : Streams desk := {
  source := dread;
  sink d fd := dout d !! fd;
  named d p := dfiles d !! p;
}.

(** Two descriptors that are both in use have different table entries. *)
Lemma dread_other d fd fd' x f :
  0 <= fd -> fd' <> fd -> dread (mkdesk (dfiles d) (partial_alter f (Z.to_nat fd) (dsrc d)) (dout d) x) fd' = dread d fd'.
Proof.
  intros Hfd Hne. unfold dread. destruct (Z.ltb_spec fd' 0); [done |]. cbn. apply lookup_partial_alter_ne. lia.
Qed.

#[export] Instance desk_ok : StreamsOk desk.
Proof.
  assert (forall d fd l, dread d fd = Some l -> 0 <= fd) as Hpos.
  { intros d fd l. unfold dread. destruct (Z.ltb_spec fd 0); [done | lia]. }
  split.
  - intros d fd n l Hs Hn. pose proof (Hpos _ _ _ Hs). cbn in Hs. cbn. rewrite Hs. eexists _, _. split; [reflexivity |].
    assert (piece d n <= Z.to_nat n)%nat by (unfold piece; lia).
    assert (0 < piece d n)%nat by (unfold piece; destruct (dsizes d); lia). split_and!; [lia | lia | |].
    + intros E. apply length_zero_iff_nil. lia.
    + repeat split; [| intros fd' Hne; by apply dread_other].
      cbn. unfold dread. destruct (Z.ltb_spec fd 0); [lia |]. cbn. by rewrite lookup_insert_eq.
  - intros d fd l out Hs. cbn in *. rewrite Hs. eexists. split; [reflexivity |]. repeat split; cbn; [by rewrite lookup_insert_eq |].
    intros fd' Hne. by rewrite lookup_insert_ne.
  - intros d p l Hs. cbn in *. rewrite Hs. eexists _, _. split; [reflexivity |].
    set (fd := fresh (dom (dsrc d))). assert (dsrc d !! fd = None) as Hf by (apply not_elem_of_dom, is_fresh).
    unfold dread. destruct (Z.ltb_spec (Z.of_nat fd) 0); [lia |]. rewrite Nat2Z.id. split_and!; [lia | done |].
    repeat split; cbn; unfold dread; cbn.
    + destruct (Z.ltb_spec (Z.of_nat fd) 0); [lia |]. by rewrite Nat2Z.id, lookup_insert_eq.
    + intros fd' Hne. destruct (Z.ltb_spec fd' 0); [done |]. apply lookup_insert_ne. lia.
  - intros d p Hs. cbn in *. rewrite Hs. by exists (-1).
  - intros d fd l Hs. pose proof (Hpos _ _ _ Hs). cbn in *. rewrite Hs. eexists. split; [reflexivity |].
    repeat split; [| intros fd' Hne; by apply dread_other].
    cbn. unfold dread. destruct (Z.ltb_spec fd 0); [done |]. cbn. apply lookup_delete_eq.
Qed.
