(* ===== verification/Ulib.v ===== *)
(** * Ulib: the user library [user/ulib.c]

    The string and memory routines over byte memory ([Mem]), as their loops: a loop up to a terminating 0 takes
    the number of bytes it may look at.  [char] is unsigned on this machine.  [gets] and [stat] are programs of
    [Ucall].  [atoi] is in [Uprint], [strchr] in [Grep].

    Shown: [strcpy] and [strcmp] against the strings in memory, [memmove] for overlapping ranges, agreement with the
    routines of the kernel, and that [gets] returns one line of its input. *)

From stdpp Require Import base list.
From Stdlib Require Import ZArith Lia.
From S2P Require Import Prelude Fcntl Mem Ucall.

(** ** Code *)

(** The loop copies up to the 0 and the 0 itself. *)
Fixpoint strcpy (fuel : nat) (m : mem) (s t : Z) : option mem :=
  match fuel with
  | O => None
  | S f => let m' := upd m s (m t) in if m t =? 0 then Some m' else strcpy f m' (s + 1) (t + 1)
  end.

Fixpoint strcmp (fuel : nat) (m : mem) (p q : Z) : option Z :=
  match fuel with
  | O => None
  | S f => if negb (m p =? 0) && (m p =? m q) then strcmp f m (p + 1) (q + 1) else Some (u8 (m p) - u8 (m q))
  end.

Fixpoint strlen_loop (fuel : nat) (m : mem) (s : Z) (n : Z) : option Z :=
  match fuel with
  | O => None
  | S f => if m (s + n) =? 0 then Some n else strlen_loop f m s (n + 1)
  end.

Definition strlen (fuel : nat) (m : mem) (s : Z) : option Z := u32 <$> strlen_loop fuel m s 0.

Fixpoint memset_loop (n : nat) (i : Z) (m : mem) (dst c : Z) : mem :=
  match n with
  | O => m
  | S n' => memset_loop n' (i + 1) (upd m (dst + i) (u8 c)) dst c
  end.

Definition memset (m : mem) (dst c n : Z) : mem := memset_loop (Z.to_nat (u32 n)) 0 m dst c.

(** [n] is an [int]: nothing is moved when it is negative. *)
Definition memmove (m : mem) (vdst vsrc n : Z) : mem :=
  if vdst <? vsrc then memmove_fwd (Z.to_nat n) m vdst vsrc
  else memmove_bwd (Z.to_nat n) m (vdst + n) (vsrc + n).

Fixpoint memcmp (n : nat) (m : mem) (s1 s2 : Z) : Z :=
  match n with
  | O => 0
  | S n' => if negb (m s1 =? m s2) then m s1 - m s2 else memcmp n' m (s1 + 1) (s2 + 1)
  end.

Definition memcpy (m : mem) (dst src n : Z) : mem := memmove m dst src (i32 n).

Definition nl : Z := 10.
Definition cr : Z := 13.

(** The loop of [gets] with room for [n] more characters after those of [buf]: what the buffer holds. *)
Fixpoint gets_loop (n : nat) (buf : list Z) : uprog (list Z) :=
  match n with
  | O => PRet buf
  | S n' =>
      let? a := ask (URead 0 1) in
      if a.1 <? 1 then PRet buf else
      let c := hd 0 a.2 in
      if (c =? nl) || (c =? cr) then PRet (buf ++ [c]) else gets_loop n' (buf ++ [c])
  end.

Definition gets (max : Z) : uprog (list Z) := gets_loop (Z.to_nat (max - 1)) [].

(** [struct stat] is filled by [fstat]; the result is -1 when the file cannot be opened. *)
Definition stat (n : list Z) : uprog (Z * option ustat) :=
  let? fd := ask (UOpen n O_RDONLY) in
  if fd <? 0 then PRet (-1, None) else
  let? r := ask (UFstat fd) in
  do? ask (UClose fd) in
  PRet (r.1, Some r.2).

(** A program whose [main] returns. *)
Definition start_main {A} (main : uprog A) : uprog unit :=
  do? main in
  PExit 0.

(** ** Strings in memory *)

(** The bytes of [l] are at [a], followed by 0. *)
Definition string_at (m : mem) (a : Z) (l : list Z) : Prop :=
  (forall i c, l !! i = Some c -> m (a + Z.of_nat i) = c) /\ m (a + Z.of_nat (length l)) = 0 /\ Forall (fun c => c <> 0) l.

Lemma string_at_cons m a c l : string_at m a (c :: l) -> m a = c /\ c <> 0 /\ string_at m (a + 1) l.
Proof.
  intros (H1 & H2 & [Hc Hl]%Forall_cons). split_and!; [rewrite <- (H1 0%nat c eq_refl); f_equal; lia | done |].
  split_and!; [| | done].
  - intros i x Hx. rewrite <- (H1 (S i) x Hx). f_equal. lia.
  - rewrite <- H2. f_equal. cbn [length]. lia.
Qed.

Lemma string_at_nil m a : string_at m a [] -> m a = 0.
Proof. intros (_ & H & _). rewrite <- H. f_equal. cbn. lia. Qed.

Lemma strlen_loop_spec fuel m s l n : string_at m (s + n) l -> (length l < fuel)%nat -> strlen_loop fuel m s n = Some (n + Z.of_nat (length l)).
Proof.
  revert n l. induction fuel as [|f IH]; intros n l Hs Hf; [lia |]. cbn [strlen_loop]. destruct l as [|c l].
  - rewrite (string_at_nil _ _ Hs). cbn. f_equal. lia.
  - apply string_at_cons in Hs as (H1 & H2 & H3). rewrite H1. destruct (Z.eqb_spec c 0); [done |]. cbn [length] in *. rewrite (IH (n + 1) l); [f_equal; lia | | lia].
    by replace (s + (n + 1)) with (s + n + 1) by lia.
Qed.

(** The length of the string. *)
Lemma strlen_spec fuel m s l : string_at m s l -> (length l < fuel)%nat -> Z.of_nat (length l) < 2 ^ 32 -> strlen fuel m s = Some (Z.of_nat (length l)).
Proof.
  intros Hs Hf Hl. unfold strlen. rewrite (strlen_loop_spec _ _ _ l); [cbn; f_equal; apply u32_small; lia | by rewrite Z.add_0_r | done].
Qed.

(** The sign of [strcmp] is the order of the strings as lists of bytes. *)
Fixpoint order (l1 l2 : list Z) : Z :=
  match l1, l2 with
  | [], [] => 0
  | [], c :: _ => - c
  | c :: _, [] => c
  | c :: l1', d :: l2' => if c =? d then order l1' l2' else c - d
  end.

Lemma order_0 l1 l2 : Forall (fun c => c <> 0) l1 -> Forall (fun c => c <> 0) l2 -> order l1 l2 = 0 <-> l1 = l2.
Proof.
  intros H1. revert l2. induction H1 as [|c l1 Hc H1 IH]; intros l2 H2; destruct H2 as [|d l2 Hd H2]; cbn; [done | split; [lia | done] | split; [lia | done] |].
  destruct (Z.eqb_spec c d) as [->|Hne]; [rewrite IH by done; naive_solver | split; [lia | congruence]].
Qed.

Lemma strcmp_order fuel m p q l1 l2 : (forall a, 0 <= m a < 256) -> string_at m p l1 -> string_at m q l2 -> (length l1 < fuel)%nat ->
  strcmp fuel m p q = Some (order l1 l2).
Proof.
  intros Hm. assert (forall a, u8 (m a) = m a) as H8 by (intros a; apply u8_small, Hm).
  revert p q l1 l2. induction fuel as [|f IH]; intros p q l1 l2 H1 H2 Hf; [lia |]. cbn [strcmp]. rewrite !H8.
  destruct l1 as [|c l1], l2 as [|d l2].
  - rewrite (string_at_nil _ _ H1), (string_at_nil _ _ H2). done.
  - rewrite (string_at_nil _ _ H1). apply string_at_cons in H2 as (-> & _). cbn. f_equal; lia.
  - rewrite (string_at_nil _ _ H2). apply string_at_cons in H1 as (-> & Hc & _). destruct (Z.eqb_spec c 0); [done |]. cbn. f_equal. lia.
  - apply string_at_cons in H1 as (-> & Hc & H1). apply string_at_cons in H2 as (-> & Hd & H2). destruct (Z.eqb_spec c 0); [done |]. cbn [negb andb order].
    destruct (c =? d); [apply IH; [done | done | cbn in Hf; lia] | done].
Qed.

Lemma strcpy_spec fuel m s t l : string_at m t l -> (length l < fuel)%nat ->
  s + Z.of_nat (length l) < t \/ t + Z.of_nat (length l) < s ->
  exists m', strcpy fuel m s t = Some m' /\ string_at m' s l /\ forall x, ~ (s <= x <= s + Z.of_nat (length l)) -> m' x = m x.
Proof.
  revert m s t l. induction fuel as [|f IH]; intros m s t l Ht Hf Hd; [lia |]. cbn [strcpy]. destruct l as [|c l].
  - rewrite (string_at_nil _ _ Ht). cbn. eexists. split; [done |]. unfold upd. split.
    + split_and!; [done | | done]. change (Z.of_nat (length [])) with 0. by rewrite Z.add_0_r, Z.eqb_refl.
    + intros x Hx. destruct (Z.eqb_spec x s); [lia | done].
  - pose proof Ht as Ht0. apply string_at_cons in Ht as (Hc & Hc0 & Ht). rewrite Hc. destruct (Z.eqb_spec c 0); [done |]. cbn [length] in *.
    destruct (IH (upd m s c) (s + 1) (t + 1) l) as (m' & E & H1 & H2); [| lia | lia |].
    { destruct Ht as (T1 & T2 & T3). split_and!; [| | done]; unfold upd.
      - intros i x Hx. pose proof (lookup_lt_Some _ _ _ Hx). destruct (Z.eqb_spec (t + 1 + Z.of_nat i) s); [lia | by apply T1].
      - destruct (Z.eqb_spec (t + 1 + Z.of_nat (length l)) s); [lia | done]. }
    exists m'. split; [done |]. destruct H1 as (S1 & S2 & S3). split.
    + split_and!; [| | by constructor].
      * intros [|i] x Hx; cbn in Hx; [injection Hx as <- | rewrite <- (S1 i x Hx); f_equal; lia]. rewrite Z.add_0_r, H2 by lia. unfold upd. by rewrite Z.eqb_refl.
      * rewrite <- S2. f_equal. cbn [length]. lia.
    + intros x Hx. rewrite H2 by lia. unfold upd. destruct (Z.eqb_spec x s); [lia | done].
Qed.

(** ** Agreement with the kernel *)

Lemma memset_closed m dst c n x : 0 <= n < 2 ^ 32 -> memset m dst c n x = Mem.memset m dst c n x.
Proof.
  intros Hn. unfold memset. rewrite u32_small by lia. assert (forall k i m', memset_loop k i m' dst c = Mem.memset_loop k i m' dst c) as E.
  { induction k as [|k IH]; intros i m'; [done |]. cbn. apply IH. }
  rewrite E, memset_loop_spec, Z.add_0_r, Z2Nat.id by lia. done.
Qed.

Lemma memmove_closed m dst src n x : 0 <= n -> memmove m dst src n x = Mem.memmove m dst src n x.
Proof.
  intros Hn. unfold memmove. destruct (Z.ltb_spec dst src).
  - rewrite memmove_fwd_spec by lia. by rewrite Z2Nat.id.
  - rewrite <- (Z2Nat.id n) at 2 3 by lia. rewrite memmove_bwd_spec by lia. by rewrite Z2Nat.id.
Qed.

(** ** One line of input *)

(** A line of at most [n] characters at the start of a text, its end included. *)
Fixpoint first_line (n : nat) (t : list Z) : list Z :=
  match n, t with
  | S n', c :: t' => if (c =? nl) || (c =? cr) then [c] else c :: first_line n' t'
  | _, _ => []
  end.

Lemma first_line_prefix n t : exists rest, t = first_line n t ++ rest.
Proof.
  revert t. induction n as [|n IH]; intros t; [by exists t |]. destruct t as [|c t]; [by exists [] |]. cbn. destruct (_ || _); [by exists t |].
  destruct (IH t) as [rest E]. exists rest. cbn. by rewrite <- E.
Qed.

Lemma first_line_length n t : (length (first_line n t) <= n)%nat.
Proof. revert t. induction n as [|n IH]; intros [|c t]; cbn; try lia. destruct (_ || _); cbn; [lia |]. specialize (IH t). lia. Qed.

Section Gets.
Context {W : Type} `{SO : StreamsOk W}.

(** [gets] returns the first line of its input and leaves the rest. *)
Lemma gets_loop_line n buf t w : source w 0 = Some t ->
  exists w', run (gets_loop n buf) w = (Returned (buf ++ first_line n t), w') /\
    source w' 0 = Some (drop (length (first_line n t)) t) /\ (forall fd, sink w' fd = sink w fd).
Proof.
  revert buf t w. induction n as [|n IH]; intros buf t w Hs; [exists w; cbn; by rewrite app_nil_r |].
  destruct (read_ok w 0 1 t Hs ltac:(lia)) as (k & w1 & E1 & Hk & Hl & Hz & R1 & _ & R2 & _). cbn [gets_loop]. rewrite (run_ask _ _ _ _ _ E1). cbn [fst snd].
  destruct (Z.ltb_spec (Z.of_nat k) 1).
  - assert (k = 0)%nat as Ek by lia. pose proof (Hz Ek) as Et. subst k t. exists w1. cbn. by rewrite app_nil_r.
  - assert (k = 1)%nat as -> by lia. destruct t as [|c t]; [cbn in Hl; lia |]. cbn [take hd first_line drop] in *. destruct ((c =? nl) || (c =? cr)).
    + exists w1. cbn. by rewrite R1.
    + destruct (IH (buf ++ [c]) t w1 R1) as (w2 & E2 & H1 & H2). exists w2. rewrite E2, <- (assoc_L (++)). split_and!; [done | done |]. intros fd. by rewrite H2.
Qed.

Lemma gets_line max t w : source w 0 = Some t ->
  exists w', run (gets max) w = (Returned (first_line (Z.to_nat (max - 1)) t), w') /\
    source w' 0 = Some (drop (length (first_line (Z.to_nat (max - 1)) t)) t) /\ (forall fd, sink w' fd = sink w fd).
Proof. apply (gets_loop_line _ []). Qed.

End Gets.
