(* ===== verification/Utils.v ===== *)
(** * Utils: small user programs

    [cat], [wc], [grep], [ls], [echo], [mkdir], [rm], [ln], [kill], [zombie], [setpriority] and [getreadcount] as
    programs of [Ucall].  [argv] is the argument vector with the program's name in front.  For every
    operating system that keeps the promises of [Streams], [cat], [wc] and [grep] end with the result a
    reference definition gives, however their input is cut into pieces: [cat] the files one after the
    other, [wc] the numbers of lines, words and characters, [grep] the lines of the files that match; each up
    to the first file that cannot be opened, which is reported. *)

From stdpp Require Import base list strings gmap.
From Stdlib Require Import ZArith Lia.
From S2P Require Import Prelude Fcntl Print Uprint Grep Ucall Ulib.

(** ** Code *)

(** The loop of [cat], [wc] and [grep] over the files named on the command line; [efd] is where the message
    [fmt] goes. *)
Fixpoint over_files (efd : Z) (fmt : list Z) (body : Z -> list Z -> uprog unit) (names : list (list Z)) : uprog unit :=
  match names with
  | [] => PRet tt
  | name :: rest =>
      let? fd := ask (UOpen name O_RDONLY) in
      if fd <? 0 then
        do? fprintf efd fmt [VStr (Some name)] in
        PExit 1
      else
        do? body fd name in
        do? ask (UClose fd) in
        over_files efd fmt body rest
  end.

(** *** [cat.c] *)

Fixpoint cat (rounds : nat) (fd : Z) : uprog unit :=
  match rounds with
  | O => PMore
  | S r =>
      let? a := ask (URead fd 512) in
      if 0 <? a.1 then
        let? n := ask (UWrite 1 (take (Z.to_nat a.1) a.2)) in
        if negb (n =? a.1) then do? fprintf 2 (line "cat: write error") [] in PExit 1
        else cat r fd
      else if a.1 <? 0 then do? fprintf 2 (line "cat: read error") [] in PExit 1
      else PRet tt
  end.

Definition cat_main (rounds : nat) (argv : list (list Z)) : uprog unit :=
  if (length argv <=? 1)%nat then do? cat rounds 0 in PExit 0 else
  do? over_files 2 (line "cat: cannot open %s") (fun fd _ => cat rounds fd) (tail argv) in
  PExit 0.

(** *** [wc.c] *)

(** The variables [l], [w], [c] and [inword]. *)
Record counts : Type := mkcounts { wl : Z; ww : Z; wch : Z; inword : bool }.

Definition blanks : list Z := [32; 13; 9; 10; 11].

Definition wc_char (s : counts) (b : Z) : counts :=
  let l := if b =? c_nl then i32 (wl s + 1) else wl s in
  if bool_decide (is_Some (strchr blanks b)) then mkcounts l (ww s) (i32 (wch s + 1)) false
  else if negb (inword s) then mkcounts l (i32 (ww s + 1)) (i32 (wch s + 1)) true
  else mkcounts l (ww s) (i32 (wch s + 1)) true.

Fixpoint wc_loop (rounds : nat) (fd : Z) (name : list Z) (s : counts) : uprog unit :=
  match rounds with
  | O => PMore
  | S r =>
      let? a := ask (URead fd 512) in
      if 0 <? a.1 then wc_loop r fd name (foldl wc_char s (take (Z.to_nat a.1) a.2))
      else if a.1 <? 0 then do? printf (line "wc: read error") [] in PExit 1
      else printf (line "%d %d %d %s") [VInt (wl s); VInt (ww s); VInt (wch s); VStr (Some name)]
  end.

Definition wc (rounds : nat) (fd : Z) (name : list Z) : uprog unit := wc_loop rounds fd name (mkcounts 0 0 0 false).

Definition wc_main (rounds : nat) (argv : list (list Z)) : uprog unit :=
  if (length argv <=? 1)%nat then do? wc rounds 0 [] in PExit 0 else
  do? over_files 1 (line "wc: cannot open %s") (wc rounds) (tail argv) in
  PExit 0.

(** *** [grep.c]: the calls around the matcher of [Grep] *)

(** The inner loop: a [write] for every line that matches, and what is left of the buffer. *)
Fixpoint grep_write (fuel : nat) (pattern p : list Z) : uprog (list Z) :=
  match strchr p NEWLINE with
  | None => PRet p
  | Some k =>
      match fuel with
      | O => PMore
      | S f =>
          do? (if match_re pattern (take k p) then do? ask (UWrite 1 (take (S k) p)) in PRet tt else PRet tt) in
          grep_write f pattern (drop (S k) p)
      end
  end.

(** [grep] with [buf[0 .. m)] in the buffer. *)
Fixpoint grep_prog (rounds : nat) (pattern buf : list Z) (fd : Z) : uprog unit :=
  match rounds with
  | O => PMore
  | S r =>
      let? a := ask (URead fd (Z.of_nat (BUFSIZE - length buf - 1))) in
      if 0 <? a.1 then
        let p := buf ++ take (Z.to_nat a.1) a.2 in
        let? tl := grep_write (length p) pattern p in
        grep_prog r pattern tl fd
      else PRet tt
  end.

Definition grep_main (rounds : nat) (argv : list (list Z)) : uprog unit :=
  match argv with
  | _ :: pattern :: names =>
      if (length argv <=? 2)%nat then do? grep_prog rounds pattern [] 0 in PExit 0 else
      do? over_files 1 (line "grep: cannot open %s") (fun fd _ => grep_prog rounds pattern [] fd) names in
      PExit 0
  | _ => do? fprintf 2 (line "usage: grep pattern [file ...]") [] in PExit 1
  end.

(** *** The others *)

Fixpoint echo_args (args : list (list Z)) : uprog unit :=
  match args with
  | [] => PRet tt
  | a :: rest =>
      do? ask (UWrite 1 a) in
      do? ask (UWrite 1 (match rest with [] => [c_nl] | _ => [32] end)) in
      echo_args rest
  end.

Definition echo_main (argv : list (list Z)) : uprog unit := do? echo_args (tail argv) in PExit 0.

(** The loop of [mkdir] and [rm]: it stops at the first failure. *)
Fixpoint until_failure (call : list Z -> uprog Z) (fmt : list Z) (names : list (list Z)) : uprog unit :=
  match names with
  | [] => PRet tt
  | n :: rest =>
      let? r := call n in
      if r <? 0 then fprintf 2 fmt [VStr (Some n)] else until_failure call fmt rest
  end.

Definition mkdir_main (argv : list (list Z)) : uprog unit :=
  if (length argv <? 2)%nat then do? fprintf 2 (line "Usage: mkdir files...") [] in PExit 1 else
  do? until_failure (fun n => ask (UMkdir n)) (line "mkdir: %s failed to create") (tail argv) in
  PExit 0.

Definition rm_main (argv : list (list Z)) : uprog unit :=
  if (length argv <? 2)%nat then do? fprintf 2 (line "Usage: rm files...") [] in PExit 1 else
  do? until_failure (fun n => ask (UUnlink n)) (line "rm: %s failed to delete") (tail argv) in
  PExit 0.

Definition ln_main (argv : list (list Z)) : uprog unit :=
  match argv with
  | [_; old; new] =>
      let? r := ask (ULink old new) in
      do? (if r <? 0 then fprintf 2 (line "link %s %s: failed") [VStr (Some old); VStr (Some new)] else PRet tt) in
      PExit 0
  | _ => do? fprintf 2 (line "Usage: ln old new") [] in PExit 1
  end.

Fixpoint kill_args (args : list (list Z)) : uprog unit :=
  match args with
  | [] => PRet tt
  | a :: rest => do? ask (UKill (atoi a)) in kill_args rest
  end.

Definition kill_main (argv : list (list Z)) : uprog unit :=
  if (length argv <? 2)%nat then do? fprintf 2 (line "usage: kill pid...") [] in PExit 1 else
  do? kill_args (tail argv) in
  PExit 0.

Definition zombie_main : uprog unit :=
  let? pid := ask UFork in
  do? (if 0 <? pid then do? ask (USleep 5) in PRet tt else PRet tt) in
  PExit 0.

Definition setpriority_main (argv : list (list Z)) : uprog unit :=
  match argv with
  | [_; a; b] =>
      let priority := atoi a in
      let pid := atoi b in
      let? r := ask (USetpriority priority pid) in
      if r <? 0 then do? printf (line "setpriority failed") [] in PExit 1 else PExit 0
  | _ => do? printf (line "Usage: setpriority pid priority") [] in PExit 1
  end.

Definition getreadcount_main : uprog unit :=
  let? n := ask UGetreadcount in
  do? printf (line "Current read count is %d") [VInt n] in
  PExit 0.

(** *** [ls.c] *)

Definition dir_type : Z := 1.
Definition file_type : Z := 2.
Definition device_type : Z := 3.
Definition name_size : nat := 14.
Definition slash : Z := 47.

(** What follows the last slash of [path]; [p] is what follows the last one seen. *)
Fixpoint after_slash (p path : list Z) : list Z :=
  match path with
  | [] => p
  | c :: rest => after_slash (if c =? slash then rest else p) rest
  end.

Definition fmtname (path : list Z) : list Z :=
  let p := after_slash path path in
  if (name_size <=? length p)%nat then p else p ++ replicate (name_size - length p) 32.

(** The loop over the entries of a directory: the number of the inode and the name of each. *)
Fixpoint ls_entries (rounds : nat) (fd : Z) (path : list Z) : uprog unit :=
  match rounds with
  | O => PMore
  | S r =>
      let? a := ask (URead fd 16) in
      if negb (a.1 =? 16) then PRet tt else
      let inum := nth 0 a.2 0 + 256 * nth 1 a.2 0 in
      if inum =? 0 then ls_entries r fd path else
      let buf := path ++ [slash] ++ cut0 (take name_size (drop 2 a.2)) in
      let? s := stat buf in
      match s with
      | (res, Some st) =>
          if res <? 0 then do? printf (line "ls: cannot stat %s") [VStr (Some buf)] in ls_entries r fd path
          else do? printf (line "%s %d %d %d") [VStr (Some (fmtname buf)); VInt (st_type st); VInt (st_ino st); VInt (st_size st)] in ls_entries r fd path
      | (_, None) => do? printf (line "ls: cannot stat %s") [VStr (Some buf)] in ls_entries r fd path
      end
  end.

Definition ls (rounds : nat) (path : list Z) : uprog unit :=
  let? fd := ask (UOpen path O_RDONLY) in
  if fd <? 0 then fprintf 2 (line "ls: cannot open %s") [VStr (Some path)] else
  let? a := ask (UFstat fd) in
  if a.1 <? 0 then
    do? fprintf 2 (line "ls: cannot stat %s") [VStr (Some path)] in
    do? ask (UClose fd) in
    PRet tt
  else
    let st := a.2 in
    do? (if (st_type st =? device_type) || (st_type st =? file_type) then
           printf (line "%s %d %d %l") [VStr (Some (fmtname path)); VInt (st_type st); VInt (st_ino st); VInt (st_size st)]
         else if st_type st =? dir_type then
           if (512 <? length path + 1 + name_size + 1)%nat then printf (line "ls: path too long") []
           else ls_entries rounds fd path
         else PRet tt) in
    do? ask (UClose fd) in
    PRet tt.

Fixpoint ls_args (rounds : nat) (args : list (list Z)) : uprog unit :=
  match args with
  | [] => PRet tt
  | a :: rest => do? ls rounds a in ls_args rounds rest
  end.

Definition ls_main (rounds : nat) (argv : list (list Z)) : uprog unit :=
  do? (if (length argv <? 2)%nat then ls rounds [46] else ls_args rounds (tail argv)) in
  PExit 0.

(** ** Reference definitions *)

(** Exit status, output and errors of a program that treats the files one by one: [body] is
    what it writes for a text and a name, [miss] what it writes and what it reports for a file that
    cannot be opened. *)
Fixpoint files_spec (look : list Z -> option (list Z)) (body : list Z -> list Z -> list Z)
    (miss : list Z -> list Z * list Z) (names : list (list Z)) : Z * list Z * list Z :=
  match names with
  | [] => (0, [], [])
  | n :: rest =>
      match look n with
      | None => (1, (miss n).1, (miss n).2)
      | Some t => let '(st, out, err) := files_spec look body miss rest in (st, body t n ++ out, err)
      end
  end.

(** The words of a text, the one being read last. *)
Fixpoint words_from (cur l : list Z) : list (list Z) :=
  match l with
  | [] => match cur with [] => [] | _ => [cur] end
  | c :: l' =>
      if bool_decide (c ∈ blanks) then (match cur with [] => [] | _ => [cur] end) ++ words_from [] l'
      else words_from (cur ++ [c]) l'
  end.

Definition words (l : list Z) : list (list Z) := words_from [] l.
Definition newlines (l : list Z) : list Z := filter (fun c => c = c_nl) l.

Definition decimal (n : nat) : list Z := Uprint.printint (Z.of_nat n) 10 true.

(** The line [wc] prints. *)
Definition wc_text (l name : list Z) : list Z :=
  decimal (length (newlines l)) ++ [32] ++ decimal (length (words l)) ++ [32] ++ decimal (length l) ++ [32] ++ name ++ [c_nl].

Definition report (s : string) (name : list Z) : list Z := bytes s ++ name ++ [c_nl].

(** ** Lemmas *)

(** [fmtname]: the last component of a path, filled up with blanks. *)
Lemma after_slash_name p d name : slash ∉ name -> after_slash p (d ++ slash :: name) = name.
Proof.
  intros Hn. revert p. induction d as [|c d IH]; intros p; cbn [app after_slash]; [| apply IH]. rewrite Z.eqb_refl.
  enough (forall p q, slash ∉ q -> after_slash p q = p) as H by (by apply H). clear. intros p q. revert p. induction q as [|c q IH]; intros p Hq; [done |].
  apply not_elem_of_cons in Hq as [Hc Hq]. cbn [after_slash]. destruct (Z.eqb_spec c slash); [congruence |]. by apply IH.
Qed.

Lemma fmtname_name d name : slash ∉ name -> fmtname (d ++ slash :: name) = name ++ replicate (name_size - length name) 32.
Proof.
  intros Hn. unfold fmtname. rewrite after_slash_name by done. destruct (Nat.leb_spec name_size (length name)); [| done].
  replace (name_size - length name)%nat with 0%nat by lia. by rewrite app_nil_r.
Qed.

Section Programs.
Context {W : Type} `{SO : StreamsOk W}.

(** From [w] to [w'] the process has written [o] to its standard output, and may have read from
    descriptors. *)
Record printed (o : list Z) (w w' : W) : Prop := {
  p_out : sink w' 1 = (fun l => l ++ o) <$> sink w 1;
  p_other : forall fd, fd <> 1 -> sink w' fd = sink w fd;
  p_named : forall p, named w' p = named w p;
}.

Lemma printed_trans o1 o2 w1 w2 w3 : printed o1 w1 w2 -> printed o2 w2 w3 -> printed (o1 ++ o2) w1 w3.
Proof.
  intros [A1 B1 C1] [A2 B2 C2]. split.
  - rewrite A2, A1. destruct (sink w1 1); cbn; [| done]. by rewrite (assoc_L (++)).
  - intros fd H. by rewrite B2, B1.
  - intros p. by rewrite C2.
Qed.

Lemma printed_reads fd l w w' : reads fd l w w' -> printed [] w w'.
Proof. intros (_ & _ & H1 & H2). split; [| done..]. rewrite H1. destruct (sink w 1); cbn; [by rewrite app_nil_r | done]. Qed.

Lemma printed_writes l o w w' : sink w 1 = Some o -> writes 1 (o ++ l) w w' -> printed l w w'.
Proof. intros H (H1 & H2 & _ & H3). split; [by rewrite H, H1 | done..]. Qed.

(** A body that reads its descriptor to the end and writes [o]. *)
Definition consumes (p : uprog unit) (fd : Z) (o : list Z) (w : W) : Prop :=
  exists w', run p w = (Returned tt, w') /\ source w' fd = Some [] /\ printed o w w'.

Lemma run_over_files efd fmt body B (miss : string) names w o e :
  efd = 1 \/ efd = 2 ->
  (forall name, Forall (fun c => c <> 0) name -> vprintf fmt [VStr (Some name)] = Some (report miss name)) ->
  Forall (fun n => Forall (fun c => c <> 0) n) names ->
  (forall fd t name w1, name ∈ names -> named w name = Some t -> source w1 fd = Some t -> sink w1 1 <> None -> consumes (body fd name) fd (B t name) w1) ->
  sink w 1 = Some o -> sink w 2 = Some e ->
  let '(st, out, err) := files_spec (named w) B (fun n => if efd =? 1 then (report miss n, []) else ([], report miss n)) names in
  exists w', run (do? over_files efd fmt body names in PExit 0) w = (Exited (A := unit) st, w') /\
    sink w' 1 = Some (o ++ out) /\ sink w' 2 = Some (e ++ err).
Proof.
  intros Hefd Hmiss. revert w o e. induction names as [|n names IH]; intros w o e Hz Hbody Ho He.
  { cbn. exists w. by rewrite !app_nil_r. }
  apply Forall_cons in Hz as [Hn Hz]. cbn [files_spec over_files]. destruct (named w n) as [t|] eqn:Hnamed.
  - destruct (open_ok w n t Hnamed) as (fd & w1 & E1 & Hfd & Hfresh & R1). pose proof (printed_reads _ _ _ _ R1) as P1. destruct R1 as (Hsrc & _ & Hs1 & Hn1).
    destruct (Hbody fd t n w1) as (w2 & E2 & Hend & P2); [apply elem_of_cons; by left | done | done | by rewrite Hs1, Ho |].
    destruct (close_ok w2 fd [] Hend) as (w3 & E3 & R3). apply printed_reads in R3. pose proof (printed_trans _ _ _ _ _ (printed_trans _ _ _ _ _ P1 P2) R3) as P.
    rewrite app_nil_r, app_nil_l in P. destruct P as [Pout Pother Pnamed].
    assert (forall rest, files_spec (named w3) B rest names = files_spec (named w) B rest names) as Esp.
    { intros rest. clear -Pnamed. induction names as [|m names IH]; [done |]. cbn [files_spec]. by rewrite Pnamed, IH. }
    specialize (IH w3 (o ++ B t n) e Hz). rewrite Esp in IH. destruct (files_spec (named w) B _ names) as [[st out] err].
    destruct IH as (w' & E' & Ho' & He'); [| by rewrite Pout, Ho | by rewrite Pother, He |].
    { intros fd' t' name' w' Hin Hnm. apply Hbody; [apply elem_of_cons; by right |]. by rewrite Pnamed in Hnm. }
    exists w'. rewrite <- (assoc_L (++)) in Ho'. split_and!; [| done | done]. rewrite <- E'.
    rewrite !(run_bind (over_files _ _ _ _)), !run_bind. cbn. rewrite E1. destruct (Z.ltb_spec fd 0); [lia |].
    rewrite run_bind, E2. cbn. rewrite E3. done.
  - destruct (open_missing w n Hnamed) as (r & E1 & Hr).
    destruct (run_fprintf efd fmt [VStr (Some n)] (report miss n) w (if efd =? 1 then o else e)) as (w' & E2 & S2 & O2 & _).
    { by apply Hmiss. }
    { by destruct Hefd as [-> | ->]. }
    exists w'. split.
    + rewrite run_bind. cbn. rewrite E1. destruct (Z.ltb_spec r 0); [| lia]. rewrite run_bind, E2. done.
    + destruct Hefd as [-> | ->]; cbn in *; rewrite app_nil_r; split; try done; by rewrite O2.
Qed.

(** Reading the next piece of a text. *)
Lemma read_piece fd n t w : source w fd = Some t -> 0 < n ->
  exists k w', sys (URead fd n) w = ((Z.of_nat k, take k t), w') /\ Z.of_nat k <= n /\ (k <= length t)%nat /\ (k = 0%nat -> t = []) /\
    source w' fd = Some (drop k t) /\ sink w' 1 = sink w 1 /\ printed [] w w'.
Proof.
  intros Hs Hn. destruct (read_ok w fd n t Hs Hn) as (k & w' & E & Hk & Hl & Hz & R). pose proof (printed_reads _ _ _ _ R). destruct R as (R1 & _ & R2 & _).
  exists k, w'. by split_and!.
Qed.

Lemma cat_consumes rounds fd t w :
  (length t < rounds)%nat -> source w fd = Some t -> sink w 1 <> None -> consumes (cat rounds fd) fd t w.
Proof.
  revert t w. induction rounds as [|r IH]; intros t w Hr Hs Ho; [lia |].
  destruct (read_piece fd 512 t w Hs ltac:(lia)) as (k & w1 & E1 & Hk & Hl & Hz & Hs1 & Ho1 & P1).
  unfold consumes. cbn [cat]. rewrite (run_ask _ _ _ _ _ E1). cbn [fst snd]. destruct (Z.ltb_spec 0 (Z.of_nat k)) as [Hpos|Hpos].
  - rewrite Nat2Z.id, take_take, Nat.min_id. destruct (sink w1 1) as [o|] eqn:Eo; [| by rewrite <- Ho1 in Ho].
    destruct (write_ok w1 1 (take k t) o Eo) as (w2 & E2 & Hw2). pose proof (printed_writes _ _ _ _ Eo Hw2) as P2. destruct Hw2 as (S2 & _ & R2 & _).
    rewrite (run_ask _ _ _ _ _ E2), length_take, Nat.min_l, Z.eqb_refl by done. cbn [negb].
    destruct (IH (drop k t) w2) as (w3 & E3 & Hs3 & P3); [rewrite length_drop; lia | by rewrite R2 | by rewrite S2 |].
    exists w3. split_and!; [done | done |]. pose proof (printed_trans _ _ _ _ _ (printed_trans _ _ _ _ _ P1 P2) P3) as P. by rewrite app_nil_l, take_drop in P.
  - assert (k = 0)%nat as Ek by lia. pose proof (Hz Ek) as Et. subst k t. exists w1. done.
Qed.

(** *** Counting *)

Lemma strchr_in l c : c <> 0 -> Forall (fun x => x <> 0) l -> (is_Some (strchr l c) <-> c ∈ l).
Proof.
  intros Hc. induction 1 as [|x l Hx Hl IH]; cbn; [split; [intros []; done | intros []%elem_of_nil] |].
  destruct (Z.eqb_spec x 0); [done |]. destruct (Z.eqb_spec x c) as [->|Hne].
  - split; [intros _; apply elem_of_cons; by left | eauto].
  - rewrite fmap_is_Some, IH, elem_of_cons. naive_solver.
Qed.

Lemma blank_iff c : bool_decide (is_Some (strchr blanks c)) = bool_decide (c ∈ blanks).
Proof.
  apply bool_decide_ext. destruct (Z.eq_dec c 0) as [->|Hc].
  - split; [vm_compute; intros [? [=]] |]. intros H. apply (bool_decide_eq_true_2 (0 ∈ blanks)) in H. by vm_compute in H.
  - apply strchr_in; [done |]. repeat constructor; done.
Qed.

(** The counters after a text, from the word [cur] being read. *)
Definition counted (cur l : list Z) (s s' : counts) : Prop :=
  wl s' = wl s + Z.of_nat (length (newlines l)) /\ wch s' = wch s + Z.of_nat (length l) /\
  ww s' = ww s + Z.of_nat (length (words_from cur l)) - (match cur with [] => 0 | _ => 1 end).

Lemma wc_counts l cur s :
  inword s = bool_decide (cur <> []) -> 0 <= wl s <= wch s -> 0 <= ww s <= wch s -> wch s + Z.of_nat (length l) < 2 ^ 31 ->
  counted cur l s (foldl wc_char s l).
Proof.
  revert cur s. induction l as [|b l IH]; intros cur s Hin Hl Hw Hmax.
  { unfold counted. cbn. destruct cur; cbn; lia. }
  cbn [foldl length] in *. assert (forall x, 0 <= x <= wch s -> i32 (x + 1) = x + 1) as E32 by (intros x Hx; apply i32_small; lia).
  set (cur' := if bool_decide (b ∈ blanks) then [] else cur ++ [b]).
  assert (wl (wc_char s b) = wl s + (if b =? c_nl then 1 else 0)) as El.
  { unfold wc_char. rewrite blank_iff. destruct (b =? c_nl), (bool_decide (b ∈ blanks)), (inword s); cbn [wl ww wch negb]; rewrite ?E32 by done; lia. }
  assert (wch (wc_char s b) = wch s + 1) as Ec by (unfold wc_char; rewrite blank_iff; destruct (bool_decide (b ∈ blanks)), (inword s); cbn [wl ww wch negb]; apply E32; lia).
  assert (ww (wc_char s b) = ww s + (if bool_decide (b ∈ blanks) then 0 else if inword s then 0 else 1)) as Ew.
  { unfold wc_char. rewrite blank_iff. destruct (bool_decide (b ∈ blanks)), (inword s); cbn [wl ww wch negb]; rewrite ?E32 by done; lia. }
  assert (inword (wc_char s b) = bool_decide (cur' <> [])) as Ei.
  { unfold wc_char, cur'. rewrite blank_iff. destruct (bool_decide (b ∈ blanks)), (inword s); cbn [inword negb]; try done;
      symmetry; apply bool_decide_eq_true; by destruct cur. }
  destruct (IH cur' (wc_char s b)) as (H1 & H2 & H3); rewrite ?El, ?Ec, ?Ew; [done | destruct (b =? c_nl); lia | destruct (bool_decide (b ∈ blanks)), (inword s); lia | lia |].
  rewrite El in H1. rewrite Ec in H2. rewrite Ew in H3. unfold counted. cbn [length]. split_and!; [| lia |].
  - rewrite H1. unfold newlines. rewrite filter_cons. destruct (Z.eqb_spec b c_nl), (decide (b = c_nl)); try done; cbn; lia.
  - rewrite H3. cbn [words_from]. unfold cur'. rewrite Hin. destruct (bool_decide (b ∈ blanks)); destruct cur; cbn; lia.
Qed.

Lemma wc_line s t name w o :
  Forall (fun c => c <> 0) name -> sink w 1 = Some o ->
  wl s = Z.of_nat (length (newlines t)) -> ww s = Z.of_nat (length (words t)) -> wch s = Z.of_nat (length t) ->
  exists w', run (printf (line "%d %d %d %s") [VInt (wl s); VInt (ww s); VInt (wch s); VStr (Some name)]) w = (Returned tt, w') /\
    writes 1 (o ++ wc_text t name) w w'.
Proof.
  intros Hn Ho -> -> ->. apply run_fprintf; [| done]. set (f := line "%d %d %d %s"). vm_compute in f. unfold f, vprintf.
  cbn -[Uprint.printint app]. rewrite cut0_id by done. reflexivity.
Qed.

Lemma wc_loop_consumes rounds fd t0 t name w :
  (length t < rounds)%nat -> Z.of_nat (length (t0 ++ t)) < 2 ^ 31 -> Forall (fun c => c <> 0) name ->
  source w fd = Some t -> sink w 1 <> None ->
  consumes (wc_loop rounds fd name (foldl wc_char (mkcounts 0 0 0 false) t0)) fd (wc_text (t0 ++ t) name) w.
Proof.
  revert t0 t w. induction rounds as [|r IH]; intros t0 t w Hr Hmax Hn Hs Ho; [lia |].
  destruct (read_piece fd 512 t w Hs ltac:(lia)) as (k & w1 & E1 & Hk & Hl & Hz & Hs1 & Ho1 & P1).
  unfold consumes. cbn [wc_loop]. rewrite (run_ask _ _ _ _ _ E1). cbn [fst snd]. destruct (Z.ltb_spec 0 (Z.of_nat k)) as [Hpos|Hpos].
  - rewrite Nat2Z.id, take_take, Nat.min_id, <- foldl_app. assert ((t0 ++ take k t) ++ drop k t = t0 ++ t) as Et by (by rewrite <- (assoc_L (++)), take_drop).
    destruct (IH (t0 ++ take k t) (drop k t) w1) as (w2 & E2 & Hs2 & P2); [rewrite length_drop; lia | by rewrite Et | done | done | by rewrite Ho1 |].
    exists w2. split_and!; [done | done |]. pose proof (printed_trans _ _ _ _ _ P1 P2) as P. by rewrite app_nil_l, Et in P.
  - assert (k = 0)%nat as Ek by lia. pose proof (Hz Ek) as Et. subst k t. rewrite app_nil_r in *. destruct (Z.ltb_spec (Z.of_nat 0) 0); [lia |].
    destruct (sink w1 1) as [o|] eqn:Eo; [| by rewrite <- Ho1 in Ho].
    destruct (wc_counts t0 [] (mkcounts 0 0 0 false)) as (C1 & C2 & C3); [done | done | done | done |]. cbn [wl ww wch] in C1, C2, C3.
    destruct (wc_line (foldl wc_char (mkcounts 0 0 0 false) t0) t0 name w1 o) as (w2 & E2 & Hw2); [done | done | lia | unfold words; lia | lia |].
    exists w2. pose proof (printed_writes _ _ _ _ Eo Hw2) as P2. destruct Hw2 as (_ & _ & R2 & _). split_and!; [done | by rewrite R2 |].
    exact (printed_trans _ _ _ _ _ P1 P2).
Qed.

Lemma wc_consumes rounds fd t name w :
  (length t < rounds)%nat -> Z.of_nat (length t) < 2 ^ 31 -> Forall (fun c => c <> 0) name ->
  source w fd = Some t -> sink w 1 <> None -> consumes (wc rounds fd name) fd (wc_text t name) w.
Proof. exact (wc_loop_consumes rounds fd [] t name w). Qed.

(** *** Matching lines *)

Lemma run_grep_write fuel pattern p out tl w :
  grep_lines fuel pattern p = Some (out, tl) -> sink w 1 <> None ->
  exists w', run (grep_write fuel pattern p) w = (Returned tl, w') /\ printed out w w' /\ (forall fd, source w' fd = source w fd).
Proof.
  assert (forall w, printed [] w w) as P0 by (intros x; split; [destruct (sink x 1); cbn; by rewrite ?app_nil_r | done..]).
  revert p out w. induction fuel as [|f IH]; intros p out w; cbn [grep_lines grep_write]; destruct (strchr p NEWLINE) as [k|]; try done.
  { intros [= <- <-] _. by exists w. }
  2: { intros [= <- <-] _. by exists w. }
  destruct (grep_lines f pattern (drop (S k) p)) as [[out' tl']|] eqn:E; [| done]. cbn. intros [= <- <-] Ho.
  destruct (match_re pattern (take k p)).
  - destruct (sink w 1) as [o|] eqn:Eo; [| done]. destruct (write_ok w 1 (take (S k) p) o Eo) as (w1 & E1 & Hw1).
    pose proof (printed_writes _ _ _ _ Eo Hw1) as P1. destruct Hw1 as (S1 & _ & R1 & _).
    destruct (IH _ _ w1 E) as (w2 & E2 & P2 & R2); [by rewrite S1 |]. exists w2. rewrite run_bind. cbn. rewrite E1. cbn.
    split_and!; [done | by eapply printed_trans | intros; by rewrite R2].
  - destruct (IH _ _ w E Ho) as (w2 & E2 & P2 & R2). exists w2. by rewrite run_bind.
Qed.

Lemma grep_consumes rounds pattern buf fd t w :
  (length t < rounds)%nat -> NEWLINE ∉ buf -> text_ok 0 (buf ++ t) = true -> source w fd = Some t -> sink w 1 <> None ->
  consumes (grep_prog rounds pattern buf fd) fd (complete_matches pattern [] (buf ++ t)) w.
Proof.
  revert buf t w. induction rounds as [|r IH]; intros buf t w Hr Hb Hok Hs Ho; [lia |].
  assert (length buf < BUFSIZE - 1)%nat as Hroom.
  { pose proof Hok as H. apply text_ok_run in H as [_ [->|H]]; [cbn; unfold BUFSIZE; lia | cbn in H; done | done]. }
  destruct (read_piece fd (Z.of_nat (BUFSIZE - length buf - 1)) t w Hs ltac:(lia)) as (k & w1 & E1 & Hk & Hl & Hz & Hs1 & Ho1 & P1).
  unfold consumes. cbn [grep_prog]. rewrite (run_ask _ _ _ _ _ E1). cbn [fst snd]. destruct (Z.ltb_spec 0 (Z.of_nat k)) as [Hpos|Hpos].
  - rewrite Nat2Z.id, take_take, Nat.min_id. assert (buf ++ t = (buf ++ take k t) ++ drop k t) as Et by (by rewrite <- (assoc_L (++)), take_drop).
    rewrite Et in Hok |- *. set (p := buf ++ take k t) in *.
    destruct (grep_lines_spec (length p) pattern p (drop k t) (le_n _) Hok) as (out & tl & E2 & Hn & Hlen & Hok' & ->).
    destruct (run_grep_write _ _ _ _ _ w1 E2) as (w2 & E3 & P2 & R2); [by rewrite Ho1 |]. rewrite (run_ret _ _ _ _ _ E3).
    destruct (IH tl (drop k t) w2) as (w3 & E4 & Hs3 & P3); [rewrite length_drop; lia | done | done | by rewrite R2 | |].
    { rewrite (p_out _ _ _ P2), Ho1. by destruct (sink w 1). }
    exists w3. split_and!; [done | done |]. exact (printed_trans _ _ _ _ _ (printed_trans _ _ _ _ _ P1 P2) P3).
  - assert (k = 0)%nat as Ek by lia. pose proof (Hz Ek) as Et. subst k t. rewrite complete_matches_run by done. by exists w1.
Qed.

End Programs.

(** A message that ends in the name of a file. *)
Ltac report_text := intros n Hn; match goal with |- vprintf (line ?s) _ = _ =>
  let f := fresh in set (f := line s); vm_compute in f; unfold f, vprintf, report; cbn -[app bytes]; rewrite cut0_id by done; reflexivity end.

Lemma two_args (A : Type) (a : A) l : l <> [] -> (length (a :: l) <=? 1)%nat = false.
Proof. intros H. apply Nat.leb_gt. destruct l; [done |]. cbn. lia. Qed.

(** ** Theorems *)

Section Theorems.
Context {W : Type} `{SO : StreamsOk W}.

Definition c_string (l : list Z) : Prop := Forall (fun c => c <> 0) l.

(** [cat] with file arguments ends and writes the files one after the other, whatever pieces [read]
    delivers; at the first file that cannot be opened it reports that file and exits with 1. *)
Lemma cat_concatenates (rounds : nat) (prog : list Z) (names : list (list Z)) (w : W) (o e : list Z)
    (Hne : names <> []) (Hz : Forall c_string names)
    (Hr : forall n t, n ∈ names -> named w n = Some t -> (length t < rounds)%nat)
    (Ho : sink w 1 = Some o) (He : sink w 2 = Some e) :
  let '(st, out, err) := files_spec (named w) (fun t _ => t) (fun n => ([], report "cat: cannot open " n)) names in
  exists w', run (cat_main rounds (prog :: names)) w = (Exited st, w') /\ sink w' 1 = Some (o ++ out) /\ sink w' 2 = Some (e ++ err).
Proof.
  unfold cat_main. rewrite two_args by done.
  apply (run_over_files 2 _ _ (fun t _ => t) "cat: cannot open "); [by right | report_text | done | | done | done].
  intros fd t n w1 Hin Hn. apply cat_consumes. by eapply Hr.
Qed.

(** C39: [wc] prints for every file the numbers of its newlines, words and characters, as long as they fit an
    [int]; however the text is cut into pieces, a word across two pieces is counted once. *)
Theorem wc_counts_files (rounds : nat) (prog : list Z) (names : list (list Z)) (w : W) (o e : list Z)
    (Hne : names <> []) (Hz : Forall c_string names)
    (Hr : forall n t, n ∈ names -> named w n = Some t -> (length t < rounds)%nat /\ Z.of_nat (length t) < 2 ^ 31)
    (Ho : sink w 1 = Some o) (He : sink w 2 = Some e) :
  let '(st, out, err) := files_spec (named w) wc_text (fun n => (report "wc: cannot open " n, [])) names in
  exists w', run (wc_main rounds (prog :: names)) w = (Exited st, w') /\ sink w' 1 = Some (o ++ out) /\ sink w' 2 = Some (e ++ err).
Proof.
  unfold wc_main. rewrite two_args by done.
  apply (run_over_files 1 _ _ wc_text "wc: cannot open "); [by left | report_text | done | | done | done].
  intros fd t n w1 Hin Hn. destruct (Hr n t Hin Hn). rewrite Forall_forall in Hz. apply wc_consumes; [done | done | by apply Hz].
Qed.

(** C40: [grep] with file arguments ends and writes the lines of the files that match the pattern, in order,
    each with its newline, however the text is cut into pieces, and reports files that cannot be opened.
    The files are text files: without 0 bytes, with a newline at the end of every line, also the last, and
    with fewer than 1023 characters in every line.  (On other files it misses lines: [grep_last_line],
    [grep_long_line].) *)
Theorem grep_prints_matches (rounds : nat) (prog pattern : list Z) (names : list (list Z)) (w : W) (o e : list Z)
    (Hne : names <> []) (Hz : Forall c_string names)
    (Hr : forall n t, n ∈ names -> named w n = Some t -> (length t < rounds)%nat /\ text_ok 0 t = true /\ terminated t)
    (Ho : sink w 1 = Some o) (He : sink w 2 = Some e) :
  let '(st, out, err) := files_spec (named w) (fun t _ => matching_lines pattern t) (fun n => (report "grep: cannot open " n, [])) names in
  exists w', run (grep_main rounds (prog :: pattern :: names)) w = (Exited st, w') /\ sink w' 1 = Some (o ++ out) /\ sink w' 2 = Some (e ++ err).
Proof.
  unfold grep_main. assert ((length (prog :: pattern :: names) <=? 2)%nat = false) as -> by (destruct names; done).
  apply (run_over_files 1 _ _ (fun t _ => matching_lines pattern t) "grep: cannot open "); [by left | report_text | done | | done | done].
  intros fd t n w1 Hin Hn. destruct (Hr n t Hin Hn) as (H1 & H2 & H3). rewrite <- complete_matches_lines by done.
  apply grep_consumes; [done | apply not_elem_of_nil | done].
Qed.

(** Without file arguments they treat their standard input in the same way. *)
Lemma cat_stdin rounds prog w t : (length t < rounds)%nat -> source w 0 = Some t -> sink w 1 <> None ->
  exists w', run (cat_main rounds [prog]) w = (Exited 0, w') /\ printed t w w'.
Proof. intros H1 H2 H3. destruct (cat_consumes rounds 0 t w H1 H2 H3) as (w' & E & _ & P). exists w'. cbn. by rewrite run_bind, E. Qed.

(** [echo]: the arguments with spaces between them; without arguments, nothing. *)
Fixpoint echo_text (l : list (list Z)) : list Z :=
  match l with
  | [] => []
  | [a] => a ++ [c_nl]
  | a :: rest => a ++ 32 :: echo_text rest
  end.

Lemma echo_prints prog args w : sink w 1 <> None -> exists w', run (echo_main (prog :: args)) w = (Exited 0, w') /\ printed (echo_text args) w w'.
Proof.
  unfold echo_main. cbn [tail]. intros Ho. enough (exists w', run (echo_args args) w = (Returned tt, w') /\ printed (echo_text args) w w') as (w' & E & P).
  { exists w'. by rewrite run_bind, E. }
  revert w Ho. induction args as [|a rest IH]; intros w Ho.
  { exists w. split; [done |]. split; [destruct (sink w 1); cbn; by rewrite ?app_nil_r | done..]. }
  destruct (sink w 1) as [o|] eqn:Eo; [| done]. destruct (write_ok w 1 a o Eo) as (w1 & E1 & H1). pose proof (printed_writes _ _ _ _ Eo H1) as P1. destruct H1 as (S1 & _).
  destruct (write_ok w1 1 (match rest with [] => [c_nl] | _ => [32] end) _ S1) as (w2 & E2 & H2). pose proof (printed_writes _ _ _ _ S1 H2) as P2. destruct H2 as (S2 & _).
  destruct (IH w2) as (w3 & E3 & P3); [by rewrite S2 |]. exists w3. cbn [echo_args]. rewrite (run_ask _ _ _ _ _ E1), (run_ask _ _ _ _ _ E2). split; [done |].
  pose proof (printed_trans _ _ _ _ _ (printed_trans _ _ _ _ _ P1 P2) P3) as P. destruct rest; cbn in *; by rewrite <- ?(assoc_L (++)), ?app_nil_r in *.
Qed.

End Theorems.

(** ** Witnesses *)

(** Files [a] with the text "xy z", a newline, "abc", a newline, and [b] with "z y": pieces of 3, 1 and 2 bytes. *)
Definition text_a : list Z := [120; 121; 32; 122; 10; 97; 98; 99; 10].
Definition text_b : list Z := [122; 32; 121].
Definition demo_desk : desk := mkdesk {[ [97] := text_a; [98] := text_b ]} ∅ {[ 1 := []; 2 := [] ]} [2; 0; 1]%nat.
Definition demo_names : list (list Z) := [[97]; [98]; [99]].

Lemma demo_strings : Forall c_string demo_names.
Proof. repeat constructor; done. Qed.

Lemma demo_texts n t : n ∈ demo_names -> named demo_desk n = Some t -> t = text_a \/ t = text_b.
Proof.
  unfold demo_names. rewrite !elem_of_cons, elem_of_nil. intros [-> | [-> | [-> | []]]] H; vm_compute in H; naive_solver.
Qed.

Lemma demo_bounds n t : n ∈ demo_names -> named demo_desk n = Some t ->
  (length t < 10)%nat /\ Z.of_nat (length t) < 2 ^ 31 /\ text_ok 0 t = true.
Proof. intros Hn Ht. destruct (demo_texts n t Hn Ht) as [-> | ->]; split_and!; (reflexivity || cbn; lia). Qed.

Ltac eval_spec H := match type of H with context [files_spec ?a ?b ?c ?d] =>
  let v := eval vm_compute in (files_spec a b c d) in
  replace (files_spec a b c d) with v in H by (vm_compute; reflexivity) end; exact H.

Lemma wc_counts_files_witness :
  exists w', run (wc_main 10 ([119; 99] :: demo_names)) demo_desk = (Exited 1, w') /\
    sink w' 1 = Some (line "2 3 9 a" ++ line "0 2 3 b" ++ line "wc: cannot open c") /\ sink w' 2 = Some [].
Proof.
  pose proof (wc_counts_files (W := desk) 10 [119; 99] demo_names demo_desk [] [] ltac:(done) demo_strings
    ltac:(intros n t Hn Ht; pose proof (demo_bounds n t Hn Ht); tauto) eq_refl eq_refl) as H. eval_spec H.
Defined.

Lemma grep_prints_matches_witness :
  exists w', run (grep_main 10 ([103] :: [122; 36] :: [[97]; [99]])) demo_desk = (Exited 1, w') /\
    sink w' 1 = Some ([120; 121; 32; 122; 10] ++ line "grep: cannot open c") /\ sink w' 2 = Some [].
Proof.
  assert (forall n t, n ∈ [[97]; [99]] -> named demo_desk n = Some t -> (length t < 10)%nat /\ text_ok 0 t = true /\ terminated t) as Hf.
  { intros n t Hn Ht. rewrite !elem_of_cons, elem_of_nil in Hn. destruct Hn as [-> | [-> | []]]; vm_compute in Ht; [| done].
    injection Ht as <-. split_and!; [cbn; lia | reflexivity | by right]. }
  pose proof (grep_prints_matches (W := desk) 10 [103] [122; 36] [[97]; [99]] demo_desk [] [] ltac:(done)
    ltac:(repeat constructor; done) Hf eq_refl eq_refl) as H. eval_spec H.
Defined.
