(* ===== verification/Shell.v ===== *)
(** * Shell: running commands, [user/sh.c]

    [runcmd] as a program of [Ucall], and a world of processes that run it: every process has its code
    and its table of open files, [fork] copies both, [exec] turns a process into the program named,
    [wait] needs a child that has ended.  Processes are named by the path of forks that leads to them, so
    that a result does not depend on who ran first: [n :: q] is the child of the [n]-th [fork] of [q].
    A step is one system call of one process, with whatever the kernel answers; [fork],
    [pipe], [open] and [exec] may be refused.  Of a program that has been started these steps have its
    end only, at any time; what it reads from the terminal is an event of [ShMain].

    Shown, for every command and every order of steps: only the programs of the command are started,
    each at most once and with the open files its place in the command says, three descriptors and no
    more; all of them if nothing was refused; when the shell's process is gone, only what the
    command puts in the background is left; the number of steps is bounded, and as long as there are
    processes one of them can go on. *)

From stdpp Require Import base list strings gmap sets.
From Stdlib Require Import ZArith Lia.
From S2P Require Import Prelude Fcntl Riscv Print Uprint Ucall Sh.

(** ** Code *)

Definition panic (s : list Z) : uprog Z :=
  do? fprintf 2 (line "%s") [VStr (Some s)] in
  PExit 1.

Definition fork1 : uprog Z :=
  let? pid := ask UFork in
  if pid =? -1 then panic (bytes "fork") else PRet pid.

(** It does not return: what follows a call of it in the child of a fork is not reached. *)
Fixpoint runcmd (c : cmd (list Z)) : uprog unit :=
  match c with
  | Exec [] => PExit 1
  | Exec (a :: rest) =>
      do? ask (UExec a (a :: rest)) in
      do? fprintf 2 (line "exec %s failed") [VStr (Some a)] in
      PExit 0
  | Redir c' file mode fd =>
      do? ask (UClose fd) in
      let? r := ask (UOpen file mode) in
      if r <? 0 then
        do? fprintf 2 (line "open %s failed") [VStr (Some file)] in
        PExit 1
      else runcmd c'
  | ListC l r =>
      let? pid := fork1 in
      if pid =? 0 then runcmd l else
      do? ask UWait in
      runcmd r
  | PipeC l r =>
      let? a := ask UPipe in
      let '(res, (p0, p1)) := a in
      if res <? 0 then do? panic (bytes "pipe") in PExit 1 else
      let? pid := fork1 in
      if pid =? 0 then
        do? ask (UClose 1) in
        do? ask (UDup p1) in
        do? ask (UClose p0) in
        do? ask (UClose p1) in
        runcmd l
      else
      let? pid := fork1 in
      if pid =? 0 then
        do? ask (UClose 0) in
        do? ask (UDup p0) in
        do? ask (UClose p0) in
        do? ask (UClose p1) in
        runcmd r
      else
      do? ask (UClose p0) in
      do? ask (UClose p1) in
      do? ask UWait in
      do? ask UWait in
      PExit 0
  | Back c' =>
      let? pid := fork1 in
      if pid =? 0 then runcmd c' else PExit 0
  end.

(** ** The world of processes *)

(** What a descriptor refers to: something inherited, a file opened, an end of the [m]-th pipe of a process. *)
Inductive obj : Type :=
  | Inherited (n : nat)
  | OFile (path : list Z) (mode : Z)
  | PipeR (q : list nat) (m : nat)
  | PipeW (q : list nat) (m : nat).

Definition fds : Type := list (option obj).

Inductive pstat : Type :=
  | Shl (p : uprog unit)
  | Prog (argv : list (list Z))
  | Zombie.

(** Status, descriptors, and the numbers of forks and pipes so far. *)
Record uproc : Type := mkproc { ustatus : pstat; ufds : fds; unext : nat; upipes : nat }.

Record launch : Type := mklaunch { lname : list nat; largv : list (list Z); lfds : fds }.

(** The processes, the programs started, whether anything was refused, and the terminal's input. *)
Record world : Type := mkworld { procs : gmap (list nat) uproc; launched : list launch; refused : bool; input : list Z }.

(** The lowest free descriptor, [fdalloc] of the kernel. *)
Fixpoint lowest (F : fds) : option nat :=
  match F with
  | [] => None
  | None :: _ => Some 0%nat
  | Some _ :: F' => S <$> lowest F'
  end.

Definition fd_get (F : fds) (fd : Z) : option obj := if fd <? 0 then None else mjoin (F !! Z.to_nat fd).

Definition fd_close (F : fds) (fd : Z) : fds := if fd <? 0 then F else <[Z.to_nat fd := None]> F.

(** Two descriptors, for [pipe]. *)
Definition pipe_fds (F : fds) (q : list nat) (m : nat) : option (nat * nat * fds) :=
  i ← lowest F;
  let F1 := <[i := Some (PipeR q m)]> F in
  j ← lowest F1;
  Some (i, j, <[j := Some (PipeW q m)]> F1).

(** What the kernel decides: to go on with a result, to refuse, to hand over the child [i]. *)
Inductive choice : Type :=
  | Go (v : Z)
  | Refuse
  | Reap (i : nat) (v : Z).

Definition is_zombie (p : uproc) : bool := match ustatus p with Zombie => true | _ => false end.

(** Whether somebody will wait for [q]. *)
Definition parent_alive (m : gmap (list nat) uproc) (q : list nat) : bool :=
  match q with
  | [] => false
  | _ :: q' => match m !! q' with Some p => negb (is_zombie p) | None => false end
  end.

Definition is_child (q x : list nat) : bool := match x with [] => false | _ :: q' => bool_decide (q' = q) end.

Definition no_child (m : gmap (list nat) uproc) (q : list nat) : bool := bool_decide (map_Forall (fun x _ => is_child q x = false) m).

(** [exit]: a zombie for the parent, if there is one; ended children go with [init]. *)
Definition exit_proc (m : gmap (list nat) uproc) (q : list nat) (p : uproc) : gmap (list nat) uproc :=
  let m1 := filter (fun xp => is_child q xp.1 && is_zombie xp.2 = false) m in
  if parent_alive m q then <[q := mkproc Zombie (ufds p) (unext p) (upipes p)]> m1 else delete q m1.

Definition goes (w : world) (q : list nat) (p : uprog unit) (F : fds) (n m : nat) : option world :=
  Some (mkworld (<[q := mkproc (Shl p) F n m]> (procs w)) (launched w) (refused w) (input w)).

Definition refuse (w : world) : world := mkworld (procs w) (launched w) true (input w).

(** One call of the process [q], which has the files [F], [n] forks and [m] pipes. *)
Definition call_step (w : world) (q : list nat) (F : fds) (n m : nat) (ch : choice) (c : ucall) :
    (answer c -> uprog unit) -> option world :=
  match c as c return (answer c -> uprog unit) -> option world with
  | UFork => fun k =>
      match ch with
      | Go pid => if pid <=? 0 then None else
          Some (mkworld (<[n :: q := mkproc (Shl (k 0)) F 0 0]> (<[q := mkproc (Shl (k pid)) F (S n) m]> (procs w))) (launched w) (refused w) (input w))
      | Refuse => goes (refuse w) q (k (-1)) F n m
      | _ => None
      end
  | UWait => fun k =>
      match ch with
      | Go _ => if no_child (procs w) q then goes w q (k (-1)) F n m else None
      | Reap i v =>
          match procs w !! (i :: q) with
          | Some p => if is_zombie p && (0 <? v) then goes (mkworld (delete (i :: q) (procs w)) (launched w) (refused w) (input w)) q (k v) F n m else None
          | None => None
          end
      | Refuse => None
      end
  | UPipe => fun k =>
      match ch, pipe_fds F q m with
      | Go _, Some (i, j, F') => goes w q (k (0, (Z.of_nat i, Z.of_nat j))) F' n (S m)
      | Go _, None | Refuse, _ => goes (refuse w) q (k (-1, (0, 0))) F n m
      | _, _ => None
      end
  | UClose fd => fun k =>
      match ch with
      | Go _ => goes w q (k (if bool_decide (is_Some (fd_get F fd)) then 0 else -1)) (fd_close F fd) n m
      | _ => None
      end
  | UOpen path mode => fun k =>
      match ch, lowest F with
      | Go _, Some i => goes w q (k (Z.of_nat i)) (<[i := Some (OFile path mode)]> F) n m
      | Go _, None | Refuse, _ => goes (refuse w) q (k (-1)) F n m
      | _, _ => None
      end
  | UDup fd => fun k =>
      match ch, fd_get F fd, lowest F with
      | Go _, Some o, Some i => goes w q (k (Z.of_nat i)) (<[i := Some o]> F) n m
      | Go _, _, _ => goes w q (k (-1)) F n m
      | _, _, _ => None
      end
  | UExec path argv => fun k =>
      match ch with
      | Go _ => Some (mkworld (<[q := mkproc (Prog argv) F n m]> (procs w)) (launched w ++ [mklaunch q argv F]) (refused w) (input w))
      | Refuse => goes (refuse w) q (k (-1)) F n m
      | _ => None
      end
  | UWrite fd l => fun k => match ch with Go v => goes w q (k v) F n m | _ => None end
  | UChdir path => fun k => match ch with Go v => goes w q (k v) F n m | _ => None end
  | URead fd cnt => fun k =>
      match ch, fd_get F fd with
      | Go _, Some _ =>
          let got := take (Z.to_nat cnt) (input w) in
          goes (mkworld (procs w) (launched w) (refused w) (drop (Z.to_nat cnt) (input w))) q (k (Z.of_nat (length got), got)) F n m
      | Go _, None => goes w q (k (-1, [])) F n m
      | _, _ => None
      end
  | _ => fun _ => None
  end.

Definition act (w : world) (a : list nat * choice) : option world :=
  p ← procs w !! a.1;
  match ustatus p with
  | Shl (PAsk c k) => call_step w a.1 (ufds p) (unext p) (upipes p) a.2 c k
  | Shl (PRet _) | Shl (PExit _) | Prog _ => Some (mkworld (exit_proc (procs w) a.1 p) (launched w) (refused w) (input w))
  | Shl PMore | Zombie => None
  end.

Fixpoint acts (w : world) (l : list (list nat * choice)) : option world :=
  match l with
  | [] => Some w
  | a :: l' => w' ← act w a; acts w' l'
  end.

(** The shell's child before it runs the command. *)
Definition start (c : cmd (list Z)) (F : fds) : world := mkworld {[ [] := mkproc (Shl (runcmd c)) F 0 0 ]} [] false [].

(** ** What a command means *)

(** The programs of a command and the files each gets, for a process [q] with [n] forks so far. *)
Fixpoint jobs (c : cmd (list Z)) (F : fds) (q : list nat) (n : nat) : list launch :=
  match c with
  | Exec [] => []
  | Exec argv => [mklaunch q argv F]
  | Redir c' file mode fd => jobs c' (<[Z.to_nat fd := Some (OFile file mode)]> F) q n
  | PipeC l r => jobs l (<[1%nat := Some (PipeW q 0)]> F) (n :: q) 0 ++ jobs r (<[0%nat := Some (PipeR q 0)]> F) (S n :: q) 0
  | ListC l r => jobs l F (n :: q) 0 ++ jobs r F q (S n)
  | Back c' => jobs c' F (n :: q) 0
  end.

(** The processes it does not wait for. *)
Fixpoint background (c : cmd (list Z)) (q : list nat) (n : nat) : list (list nat) :=
  match c with
  | Exec _ => []
  | Redir c' _ _ _ => background c' q n
  | PipeC l r => background l (n :: q) 0 ++ background r (S n :: q) 0
  | ListC l r => background l (n :: q) 0 ++ background r q (S n)
  | Back c' => (n :: q) :: background c' (n :: q) 0
  end.

(** A bound on the calls of a command. *)
Fixpoint cost (c : cmd (list Z)) : nat :=
  match c with
  | Exec [] => 1
  | Exec (a :: _) => 20 + length a
  | Redir c' file _ _ => 20 + length file + cost c'
  | PipeC l r => 40 + cost l + cost r
  | ListC l r => 20 + cost l + cost r
  | Back c' => 20 + cost c'
  end.

(** Redirections of the standard descriptors. *)
Fixpoint redirs_ok {T} (c : cmd T) : bool :=
  match c with
  | Exec _ => true
  | Redir c' _ _ fd => (0 <=? fd) && (fd <=? 2) && redirs_ok c'
  | PipeC l r | ListC l r => redirs_ok l && redirs_ok r
  | Back c' => redirs_ok c'
  end.

(** Descriptors 0, 1 and 2 are open and nothing else is. *)
Definition standard (F : fds) : Prop := exists a b c, F = Some a :: Some b :: Some c :: replicate (NOFILE - 3) None.

(** ** Lemmas: children *)

Definition kid_of (q x : list nat) : option nat := match x with i :: q' => if decide (q' = q) then Some i else None | [] => None end.

Definition kids (m : gmap (list nat) uproc) (q : list nat) : gset nat := list_to_set (omap (fun xp => kid_of q xp.1) (map_to_list m)).

Lemma elem_of_kids m q i : i ∈ kids m q <-> is_Some (m !! (i :: q)).
Proof.
  unfold kids. rewrite elem_of_list_to_set, list_elem_of_omap. split.
  - intros ([x p] & Hx%elem_of_map_to_list & H). cbn in *. unfold kid_of in H. destruct x as [|j q']; [done |]. case_decide; naive_solver.
  - intros [p Hp]. exists (i :: q, p). rewrite elem_of_map_to_list. split; [done |]. cbn. by rewrite decide_True.
Qed.

Lemma kids_ext m m' q : (forall i, is_Some (m !! (i :: q)) <-> is_Some (m' !! (i :: q))) -> kids m q = kids m' q.
Proof. intros H. apply set_eq. intros i. by rewrite !elem_of_kids, H. Qed.

Lemma kids_insert_other m q x p : is_child q x = false -> kids (<[x := p]> m) q = kids m q.
Proof.
  intros H. apply kids_ext. intros i. rewrite lookup_insert_ne; [done |]. intros ->. cbn in H. by apply bool_decide_eq_false in H.
Qed.

Lemma kids_insert_old m q x p : is_Some (m !! x) -> kids (<[x := p]> m) q = kids m q.
Proof.
  intros H. apply kids_ext. intros i. destruct (decide (x = i :: q)) as [->|Hne]; [by rewrite lookup_insert_eq | by rewrite lookup_insert_ne].
Qed.

Lemma kids_insert_new m q n p : kids (<[n :: q := p]> m) q = {[n]} ∪ kids m q.
Proof.
  apply set_eq. intros i. rewrite elem_of_union, elem_of_singleton, !elem_of_kids.
  destruct (decide (i = n)) as [->|Hne]; [rewrite lookup_insert_eq; naive_solver |]. rewrite lookup_insert_ne by congruence. naive_solver.
Qed.

Lemma kids_delete m q n : kids (delete (n :: q) m) q = kids m q ∖ {[n]}.
Proof.
  apply set_eq. intros i. rewrite elem_of_difference, elem_of_singleton, !elem_of_kids.
  destruct (decide (i = n)) as [->|Hne]; [rewrite lookup_delete_eq; split; [by intros [? [=]] | naive_solver] |]. rewrite lookup_delete_ne by congruence. naive_solver.
Qed.

Lemma no_child_kids m q : no_child m q = true <-> kids m q = ∅.
Proof.
  unfold no_child. rewrite bool_decide_eq_true. split.
  - intros H. apply set_eq. intros i. rewrite elem_of_kids. split; [| set_solver]. intros [p Hp]. specialize (H _ _ Hp). cbn in H. by rewrite bool_decide_true in H.
  - intros H x p Hx. destruct x as [|i q']; [done |]. cbn. apply bool_decide_eq_false. intros ->. assert (i ∈ kids m q) as Hi by (apply elem_of_kids; eauto). set_solver.
Qed.

(** ** The plan of a process *)

(** [plan b p q F n m U T L N]: the process [q] with code [p], files [F], [n] forks, [m] pipes and the unreaped
    children [U], which reads the input [T] if it reads at all, makes at most [N] calls, its descendants included, and starts no programs but
    those of [L].  If [b], nothing has been refused so far: then it starts all of [L] unless something is
    refused, and leaves no child behind but those [Bg] allows. *)
Section Plan.
Context (Bg : list nat -> Prop).

Definition left_ok (q : list nat) (U : gset nat) : Prop := forall i, i ∈ U -> Bg (i :: q).

Definition plan_ask (b : bool) (q : list nat) (F : fds) (n m : nat) (U : gset nat) (T : option (list Z)) (L : list launch) (N : nat) (c : ucall) :
    (answer c -> bool -> list nat -> fds -> nat -> nat -> gset nat -> option (list Z) -> list launch -> nat -> Prop) -> Prop :=
  match c as c return (answer c -> bool -> list nat -> fds -> nat -> nat -> gset nat -> option (list Z) -> list launch -> nat -> Prop) -> Prop with
  | UFork => fun P =>
      (exists L1 L2 N1 N2, L ≡ₚ L1 ++ L2 /\ (N1 + N2 <= N)%nat /\ P 0 b (n :: q) F 0%nat 0%nat ∅ None L1 N1 /\
        forall pid, 0 < pid -> P pid b q F (S n) m ({[n]} ∪ U) T L2 N2) /\
      P (-1) false q F n m U T L N
  | UWait => fun P =>
      (U = ∅ -> P (-1) b q F n m U T L N) /\ forall i v, i ∈ U -> 0 < v -> P v b q F n m (U ∖ {[i]}) T L N
  | UPipe => fun P =>
      (forall i j F', pipe_fds F q m = Some (i, j, F') -> P (0, (Z.of_nat i, Z.of_nat j)) b q F' n (S m) U T L N) /\
      P (-1, (0, 0)) false q F n m U T L N
  | UClose fd => fun P => P (if bool_decide (is_Some (fd_get F fd)) then 0 else -1) b q (fd_close F fd) n m U T L N
  | UOpen path mode => fun P =>
      (forall i, lowest F = Some i -> P (Z.of_nat i) b q (<[i := Some (OFile path mode)]> F) n m U T L N) /\ P (-1) false q F n m U T L N
  | UDup fd => fun P =>
      match fd_get F fd, lowest F with
      | Some o, Some i => P (Z.of_nat i) b q (<[i := Some o]> F) n m U T L N
      | _, _ => P (-1) b q F n m U T L N
      end
  | UExec path argv => fun P =>
      (exists L', L ≡ₚ mklaunch q argv F :: L' /\ (b = true -> L' = [] /\ left_ok q U)) /\ (1 <= N)%nat /\ P (-1) false q F n m U T L N
  | UWrite fd l => fun P => forall v, P v b q F n m U T L N
  | UChdir path => fun P => forall v, P v b q F n m U T L N
  | URead fd cnt => fun P =>
      match T with
      | None => False
      | Some t =>
          match fd_get F fd with
          | Some _ => let got := take (Z.to_nat cnt) t in P (Z.of_nat (length got), got) b q F n m U (Some (drop (Z.to_nat cnt) t)) L N
          | None => P (-1, []) b q F n m U T L N
          end
      end
  | _ => fun _ => False
  end.

Fixpoint plan (p : uprog unit) (b : bool) (q : list nat) (F : fds) (n m : nat) (U : gset nat) (T : option (list Z)) (L : list launch) (N : nat) : Prop :=
  match p with
  | PRet _ | PExit _ => (1 <= N)%nat /\ (b = true -> L = [] /\ left_ok q U)
  | PMore => False
  | PAsk c k => exists N', N = S N' /\ plan_ask b q F n m U T L N' c (fun a => plan (k a))
  end.

(** After a refusal less is promised. *)
Lemma plan_weaken p q F n m U T L N : plan p true q F n m U T L N -> plan p false q F n m U T L N.
Proof.
  revert q F n m U T L N. induction p as [a|st| |c k IH]; intros q F n m U T L N; cbn [plan]; [naive_solver | naive_solver | done |].
  intros (N' & -> & H). exists N'. split; [done |]. destruct c; cbn [plan_ask] in *; try done.
  - destruct H as [(L1 & L2 & N1 & N2 & H1 & H2 & H3 & H4) H5]. split; [| done]. exists L1, L2, N1, N2. split_and!; [done | done | by apply IH | naive_solver].
  - naive_solver.
  - naive_solver.
  - naive_solver.
  - destruct T; [| done]. destruct (fd_get F fd); by apply IH.
  - by apply IH.
  - destruct H as [(L' & H1 & H2) H3]. split; [| done]. exists L'. done.
  - naive_solver.
  - naive_solver.
  - destruct (fd_get F fd), (lowest F); by apply IH.
Qed.

(** The list up to reordering, more calls allowed. *)
Lemma plan_perm p b q F n m U T L L' N N' : L ≡ₚ L' -> (N <= N')%nat -> plan p b q F n m U T L N -> plan p b q F n m U T L' N'.
Proof.
  intros HL. revert b q F n m U T L L' N N' HL. induction p as [a|st| |c k IH]; intros b q F n m U T L L' N N' HL HN; cbn [plan].
  1,2: intros [H1 H2]; split; [lia |]; intros Hb; destruct (H2 Hb) as [-> ?]; apply Permutation_nil in HL; done.
  { done. }
  intros (N0 & -> & H). destruct N' as [|N']; [lia |]. exists N'. split; [done |]. assert (N0 <= N')%nat as HN' by lia. destruct c; cbn [plan_ask] in *; try done.
  - destruct H as [(L1 & L2 & N1 & N2 & H1 & H2 & H3 & H4) H5]. split; [| eapply IH; eauto]. exists L1, L2, N1, N2. split_and!; [by rewrite <- HL | lia | done | done].
  - destruct H as [H1 H2]. split; [intros HU; eapply IH; eauto | intros i v Hi Hv; eapply IH; eauto].
  - destruct H as [H1 H2]. split; [intros i j F' HF; eapply IH; eauto | eapply IH; eauto].
  - intros v. eapply IH; eauto.
  - destruct T; [| done]. destruct (fd_get F fd); eapply IH; eauto.
  - eapply IH; eauto.
  - destruct H as [(L0 & H1 & H2) [H3 H4]]. split_and!; [| lia | eapply IH; eauto]. exists L0. split; [by rewrite <- HL | done].
  - destruct H as [H1 H2]. split; [intros i Hi; eapply IH; eauto | eapply IH; eauto].
  - intros v. eapply IH; eauto.
  - destruct (fd_get F fd), (lowest F); eapply IH; eauto.
Qed.

(** Messages. *)
Lemma plan_puts fd l p b q F n m U T L N : plan p b q F n m U T L N -> plan (do? puts fd l in p) b q F n m U T L (length l + N).
Proof.
  intros Hp. induction l as [|c l IH]; cbn [puts pbind ask plan length Nat.add]; [done |]. eexists. split; [done |]. cbn [plan_ask]. intros _. exact IH.
Qed.

Lemma plan_fprintf fd fmt ap l p b q F n m U T L N N' :
  vprintf fmt ap = Some l -> (length l + N <= N')%nat -> plan p b q F n m U T L N -> plan (do? fprintf fd fmt ap in p) b q F n m U T L N'.
Proof. intros Hv HN Hp. unfold fprintf. rewrite Hv. eapply plan_perm; [done | exact HN | by apply plan_puts]. Qed.

Lemma plan_message fmt ap l st q F n m U T L N :
  vprintf fmt ap = Some l -> (length l < N)%nat -> plan (do? fprintf 2 fmt ap in PExit st) false q F n m U T L N.
Proof. intros Hv HN. apply (plan_fprintf 2 fmt ap l _ _ _ _ _ _ _ _ _ 1); [done | lia | by split]. Qed.

Lemma plan_panic s (k : Z -> uprog unit) b q F n m U T L N :
  (length s + 1 < N)%nat -> (b = true -> L = [] /\ left_ok q U) -> plan (pbind (panic s) k) b q F n m U T L N.
Proof.
  intros HN Hb. unfold panic, fprintf. set (f := line "%s"). vm_compute in f. assert (vprintf f [VStr (Some s)] = Some (cut0 s ++ [c_nl])) as -> by reflexivity.
  assert (length (cut0 s ++ [c_nl]) < N)%nat as Hl.
  { rewrite length_app. pose proof (cut0_length s). cbn. lia. }
  clear HN. revert N Hl. induction (cut0 s ++ [c_nl]) as [|c l IH]; intros N HN; cbn [puts pbind ask plan] in *.
  - split; [lia | done].
  - destruct N as [|N]; [lia |]. exists N. split; [done |]. cbn [plan_ask]. intros v. apply IH. cbn in HN. lia.
Qed.

Lemma plan_fork1 k b q F n m U T L1 L2 N1 N2 L N :
  L ≡ₚ L1 ++ L2 -> (7 + N1 + N2 < N)%nat -> plan (k 0) b (n :: q) F 0 0 ∅ None L1 N1 ->
  (forall pid, 0 < pid -> plan (k pid) b q F (S n) m ({[n]} ∪ U) T L2 N2) ->
  plan (pbind fork1 k) b q F n m U T L N.
Proof.
  intros HL HN H1 H2. unfold fork1. cbn [pbind ask plan]. destruct N as [|N]; [lia |]. exists N. split; [done |]. cbn [plan_ask]. split.
  - exists L1, L2, N1, N2. split_and!; [done | lia | done |]. intros pid Hp. destruct (Z.eqb_spec pid (-1)); [lia |]. by apply H2.
  - change (-1 =? -1) with true. apply plan_panic; [cbn; lia | done].
Qed.

Ltac next_call N := cbn [pbind ask plan]; destruct N as [|N]; [lia |]; exists N; split; [reflexivity |]; cbn [plan_ask].

(** Descriptors of a process between two commands. *)
Lemma close_std a b c o i : 0 <= i <= 2 ->
  let F := Some a :: Some b :: Some c :: replicate (NOFILE - 3) None in
  lowest (fd_close F i) = Some (Z.to_nat i) /\ <[Z.to_nat i := Some o]> (fd_close F i) = <[Z.to_nat i := Some o]> F /\
  standard (<[Z.to_nat i := Some o]> F).
Proof.
  intros Hi F. assert (i = 0 \/ i = 1 \/ i = 2) as [-> | [-> | ->]] by lia; (split_and!; [reflexivity.. | by eexists _, _, _]).
Qed.

(** The child at one end of a pipe. *)
Lemma plan_end fd p b q F F' U T L N a0 b0 c0 (i : nat) (pr pw : obj) :
  F = Some a0 :: Some b0 :: Some c0 :: Some pr :: Some pw :: replicate (NOFILE - 5) None ->
  (fd = 1 /\ i = 4%nat /\ F' = Some a0 :: Some pw :: Some c0 :: replicate (NOFILE - 3) None) \/
  (fd = 0 /\ i = 3%nat /\ F' = Some pr :: Some b0 :: Some c0 :: replicate (NOFILE - 3) None) ->
  (4 <= N)%nat -> plan p b q F' 0 0 U T L (N - 4) ->
  plan (do? ask (UClose fd) in do? ask (UDup (Z.of_nat i)) in do? ask (UClose 3) in do? ask (UClose 4) in p) b q F 0 0 U T L N.
Proof.
  intros -> Hcase HN Hp. do 4 (destruct N as [|N]; [lia |]). cbn [Nat.sub] in Hp.
  destruct Hcase as [(-> & -> & ->) | (-> & -> & ->)]; cbn [pbind ask plan]; repeat (eexists; split; [reflexivity |]; cbn); rewrite ?Nat.sub_0_r in Hp; exact Hp.
Qed.

Lemma runcmd_plan c F q n b T N :
  standard F -> redirs_ok c = true -> (forall y, y ∈ background c q n -> Bg y) -> (cost c <= N)%nat ->
  plan (runcmd c) b q F n 0 ∅ T (jobs c F q n) N.
Proof.
  revert F q n T N. induction c as [argv|c IH file mode fd|l IHl r IHr|l IHl r IHr|c IH]; intros F q n T N HF Hok Hbg HN.
  - destruct argv as [|a rest]; cbn [runcmd plan jobs cost] in *; [split; [lia |]; intros _; split; [done | set_solver] |].
    next_call N. split_and!; [exists []; split; [done |]; intros _; split; [done | set_solver] | lia |].
    eapply plan_message; [set (f := line "exec %s failed"); vm_compute in f; reflexivity |].
    pose proof (cut0_length a).
    cbn [length fmap option_fmap option_map]. rewrite length_app. cbn. lia.
  - cbn [redirs_ok] in Hok. apply andb_true_iff in Hok as [Hfd Hok]. apply andb_true_iff in Hfd as [Hf1%Z.leb_le Hf2%Z.leb_le].
    destruct HF as (a & b0 & c0 & ->). destruct (close_std a b0 c0 (OFile file mode) fd ltac:(lia)) as (H1 & H2 & H3). cbn [runcmd cost jobs] in *.
    next_call N. next_call N. split.
    + intros i Hi. rewrite H1 in Hi. injection Hi as <-. rewrite H2. destruct (Z.ltb_spec (Z.of_nat (Z.to_nat fd)) 0); [lia |]. apply IH; [done | done | done | lia].
    + change (-1 <? 0) with true. cbv match. eapply plan_message; [set (f := line "open %s failed"); vm_compute in f; reflexivity |].
      pose proof (cut0_length file). cbn [length fmap option_fmap option_map]. rewrite length_app. cbn. lia.
  - cbn [redirs_ok] in Hok. apply andb_true_iff in Hok as [Hl Hr]. cbn [background] in Hbg. cbn [runcmd cost jobs] in *.
    destruct HF as (a & b0 & c0 & ->). next_call N. split.
    2: { change (-1 <? 0) with true. cbv match. apply plan_panic; [cbn; lia | done]. }
    intros i j F' HF'. vm_compute in HF'. injection HF' as <- <- <-. change (0 <? 0) with false. cbv match.
    eapply (plan_fork1 _ _ _ _ _ _ _ _ (jobs l _ (n :: q) 0) (jobs r _ (S n :: q) 0) (4 + cost l) (18 + cost r)); [done | lia | |].
    { eapply (plan_end 1); [reflexivity | left; split_and!; reflexivity | lia |]. rewrite Nat.add_comm, Nat.add_sub.
      apply IHl; [by eexists _, _, _ | done | intros y Hy; apply Hbg, elem_of_app; by left | lia]. }
    intros pid Hpid. destruct (Z.eqb_spec pid 0); [lia |].
    eapply (plan_fork1 _ _ _ _ _ _ _ _ (jobs r _ (S n :: q) 0) [] (4 + cost r) 5); [by rewrite app_nil_r | lia | |].
    { eapply (plan_end 0); [reflexivity | right; split_and!; reflexivity | lia |]. rewrite Nat.add_comm, Nat.add_sub.
      apply IHr; [by eexists _, _, _ | done | intros y Hy; apply Hbg, elem_of_app; by right | lia]. }
    intros pid' Hpid'. destruct (Z.eqb_spec pid' 0); [lia |]. cbn [pbind ask plan].
    repeat (eexists; split; [reflexivity |]; cbn [plan_ask plan]). split; [set_solver |].
    intros i v Hi _. exists 1%nat. split; [done |]. split; [intros E; split; [lia |]; intros _; split; [done |]; rewrite E; set_solver |].
    intros j v' Hj _. split; [lia |]. intros _. split; [done |]. intros x Hx. exfalso. set_unfold. lia.
  - cbn [redirs_ok] in Hok. apply andb_true_iff in Hok as [Hl Hr]. cbn [background runcmd cost jobs] in *.
    eapply (plan_fork1 _ _ _ _ _ _ _ _ (jobs l F (n :: q) 0) (jobs r F q (S n)) (cost l) (S (cost r))); [done | lia | |].
    { apply IHl; [done | done | intros y Hy; apply Hbg, elem_of_app; by left | lia]. }
    intros pid Hpid. destruct (Z.eqb_spec pid 0); [lia |]. cbn [pbind ask plan plan_ask]. eexists. split; [reflexivity |]. split; [set_solver |].
    intros i v Hi _. assert (({[n]} ∪ ∅) ∖ {[i]} =@{gset nat} ∅) as -> by set_solver.
    apply IHr; [done | done | intros y Hy; apply Hbg, elem_of_app; by right | lia].
  - cbn [redirs_ok background runcmd cost jobs] in *.
    eapply (plan_fork1 _ _ _ _ _ _ _ _ (jobs c F (n :: q) 0) [] (cost c) 1); [by rewrite app_nil_r | lia | |].
    { apply IH; [done | done | intros y Hy; apply Hbg, elem_of_cons; by right | lia]. }
    intros pid Hpid. destruct (Z.eqb_spec pid 0); [lia |]. split; [lia |]. intros _. split; [done |]. intros i Hi. apply Hbg, elem_of_cons. left. set_solver.
Qed.

End Plan.

(** ** The invariant of all worlds *)

(** The ledger [R] has what is left to each process that ever was: programs to start, and calls. *)
Definition todo (R : gmap (list nat) (list launch * nat)) : list launch := mjoin ((fun x => x.2.1) <$> map_to_list R).
Definition total (R : gmap (list nat) (list launch * nat)) : nat := sum_list ((fun x => x.2.2) <$> map_to_list R).

Lemma todo_new (R : gmap (list nat) (list launch * nat)) q L N : R !! q = None -> todo (<[q := (L, N)]> R) ≡ₚ L ++ todo R.
Proof. intros H. unfold todo. rewrite (map_to_list_insert R q (L, N) H). done. Qed.

Lemma total_new (R : gmap (list nat) (list launch * nat)) q L N : R !! q = None -> total (<[q := (L, N)]> R) = (N + total R)%nat.
Proof. intros H. unfold total. rewrite (map_to_list_insert R q (L, N) H). done. Qed.

Lemma todo_set (R : gmap (list nat) (list launch * nat)) q L N L' N' : R !! q = Some (L, N) -> L ++ todo (<[q := (L', N')]> R) ≡ₚ L' ++ todo R.
Proof.
  intros H. assert (todo R ≡ₚ L ++ todo (delete q R)) as -> by (rewrite <- (insert_delete_id R q _ H) at 1; apply todo_new, lookup_delete_eq).
  rewrite <- insert_delete_eq, todo_new by apply lookup_delete_eq. solve_Permutation.
Qed.

Lemma total_set (R : gmap (list nat) (list launch * nat)) q L N L' N' : R !! q = Some (L, N) -> (N + total (<[q := (L', N')]> R) = N' + total R)%nat.
Proof.
  intros H. assert (total R = N + total (delete q R))%nat as -> by (rewrite <- (insert_delete_id R q _ H) at 1; apply total_new, lookup_delete_eq).
  rewrite <- insert_delete_eq, total_new by apply lookup_delete_eq. lia.
Qed.

(** The books after one process's entry has changed from [L] to [L']. *)
Lemma books (la la' : list launch) R R' L L' D D0 J :
  L ++ todo R' ≡ₚ L' ++ todo R -> la ++ L ≡ₚ la' ++ L' ++ D -> la ++ todo R ++ D0 ≡ₚ J -> la' ++ todo R' ++ D ++ D0 ≡ₚ J.
Proof.
  intros HR HL HJ. apply (Permutation_app_inv_l L).
  transitivity (la' ++ (L ++ todo R') ++ D ++ D0); [solve_Permutation |]. rewrite HR.
  transitivity ((la' ++ L' ++ D) ++ todo R ++ D0); [solve_Permutation |]. rewrite <- HL.
  transitivity (L ++ la ++ todo R ++ D0); [solve_Permutation |]. by rewrite HJ.
Qed.

Section Invariant.
Context (Bg : list nat -> Prop) (J : list launch) (N0 : nat).

(** Only the first process reads the terminal. *)
Definition term (q : list nat) (t : list Z) : option (list Z) := match q with [] => Some t | _ => None end.

Definition proc_ok (b : bool) (m : gmap (list nat) uproc) (t : list Z) (q : list nat) (p : uproc) (L : list launch) (N : nat) : Prop :=
  match ustatus p with
  | Shl c => plan Bg c b q (ufds p) (unext p) (upipes p) (kids m q) (term q t) L N
  | Prog _ => (1 <= N)%nat /\ (b = true -> L = [] /\ left_ok Bg q (kids m q))
  | Zombie => b = true -> L = [] /\ left_ok Bg q (kids m q)
  end.

(** The invariant after [k] steps; between the two halves of a step, [a] is a process whose code does not
    count, and without [z] there may be zombies nobody waits for. *)
Record winv (a : option (list nat)) (z : bool) (k : nat) (R : gmap (list nat) (list launch * nat)) (w : world) : Prop := {
  i_proc : forall q p, procs w !! q = Some p -> exists L N, R !! q = Some (L, N) /\
    (a <> Some q -> proc_ok (negb (refused w)) (procs w) (input w) q p L N);
  i_gone : refused w = false -> forall q L N, R !! q = Some (L, N) -> procs w !! q = None -> L = [];
  i_sum : exists D, launched w ++ todo R ++ D ≡ₚ J /\ (refused w = false -> D = []);
  i_count : (k + total R <= N0)%nat;
  i_fresh : forall l i q p, is_Some (R !! (l ++ i :: q)) -> procs w !! q = Some p -> (i < unext p)%nat;
  i_parent : refused w = false -> forall i q, is_Some (procs w !! (i :: q)) -> is_Some (procs w !! q) \/ Bg (i :: q);
  i_zombie : z = true -> forall q p, procs w !! q = Some p -> is_zombie p = true -> parent_alive (procs w) q = true;
}.

(** Nothing more is promised after a refusal. *)
Lemma proc_ok_mono b b' m t q p L N : (b' = true -> b = true) -> proc_ok b m t q p L N -> proc_ok b' m t q p L N.
Proof.
  intros Hb. unfold proc_ok. destruct (ustatus p) as [c|argv|]; [| intros [H1 H2]; split; [done |]; intros; apply H2, Hb; done | intros H E; by apply H, Hb].
  destruct b, b'; try done; [apply plan_weaken | by specialize (Hb eq_refl)].
Qed.

Lemma proc_ok_kids b m m' t q p L N : kids m q = kids m' q -> proc_ok b m t q p L N -> proc_ok b m' t q p L N.
Proof. intros H. unfold proc_ok. by rewrite H. Qed.

Lemma parent_alive_set (m : gmap (list nat) uproc) (q x : list nat) p p' : m !! q = Some p -> is_zombie p' = is_zombie p -> parent_alive (<[q := p']> m) x = parent_alive m x.
Proof.
  intros Hq Hz. destruct x as [|i x]; [done |]. cbn. destruct (decide (x = q)) as [->|Hne]; [| by rewrite lookup_insert_ne].
  by rewrite lookup_insert_eq, Hq, Hz.
Qed.

Lemma proc_ok_input b m t t' q p L N : q <> [] -> proc_ok b m t q p L N -> proc_ok b m t' q p L N.
Proof. intros H. unfold proc_ok. by destruct q. Qed.

(** A step that changes one process. *)
Lemma inv_set a z k R w q p p' L N L' N' la b t D :
  winv a true k R w -> (a = None \/ a = Some q) -> procs w !! q = Some p -> R !! q = Some (L, N) -> (b = false -> refused w = false) -> (t = input w \/ q = []) ->
  proc_ok (negb b) (procs w) t q p' L' N' -> is_zombie p = false -> (z = true -> is_zombie p' = false) -> (unext p <= unext p')%nat -> (N' < N)%nat ->
  launched w ++ L ≡ₚ la ++ L' ++ D -> (b = false -> D = []) ->
  winv None z (S k) (<[q := (L', N')]> R) (mkworld (<[q := p']> (procs w)) la b t).
Proof.
  intros I Ha Hq HR Hb Ht Hok Hz Hz' Hn HN HL HD. pose proof (todo_set R q L N L' N' HR) as Htodo. pose proof (total_set R q L N L' N' HR) as Htotal.
  split; cbn [procs launched refused input].
  - intros x px Hx. destruct (decide (x = q)) as [->|Hne].
    + rewrite lookup_insert_eq in Hx. injection Hx as <-. exists L', N'. rewrite lookup_insert_eq. split; [done |]. intros _.
      eapply proc_ok_kids; [| exact Hok]. symmetry. apply kids_insert_old. eauto.
    + rewrite lookup_insert_ne in Hx by done. destruct (i_proc _ _ _ _ _ I x px Hx) as (Lx & Nx & H1 & H2). exists Lx, Nx. rewrite lookup_insert_ne by done. split; [done |]. intros _.
      eapply proc_ok_kids; [symmetry; apply kids_insert_old; eauto |]. apply (proc_ok_mono (negb (refused w))).
      2: { destruct Ht as [->| ->]; [apply H2; destruct Ha; congruence |]. apply (proc_ok_input _ _ (input w)); [done |]. apply H2. destruct Ha; congruence. }
      intros E. apply negb_true_iff in E. by rewrite Hb.
  - intros E x Lx Nx HRx Hx. destruct (decide (x = q)) as [->|Hne]; [by rewrite lookup_insert_eq in Hx |]. rewrite lookup_insert_ne in HRx by done. rewrite lookup_insert_ne in Hx by done. by eapply (i_gone _ _ _ _ _ I); [apply Hb | |].
  - destruct (i_sum _ _ _ _ _ I) as (D0 & H1 & H2). exists (D ++ D0). split; [| intros E; by rewrite HD, H2 by auto].
    by eapply books.
  - pose proof (i_count _ _ _ _ _ I). lia.
  - intros l i x px HRx Hx. assert (is_Some (R !! (l ++ i :: x))) as HR'.
    { destruct (decide (q = l ++ i :: x)) as [<-|Hne]; [eauto | by rewrite lookup_insert_ne in HRx]. }
    destruct (decide (x = q)) as [->|Hne].
    + rewrite lookup_insert_eq in Hx. injection Hx as <-. pose proof (i_fresh _ _ _ _ _ I l i q p HR' Hq). lia.
    + rewrite lookup_insert_ne in Hx by done. by eapply (i_fresh _ _ _ _ _ I).
  - intros E i x Hx. assert (forall y, is_Some (<[q := p']> (procs w) !! y) <-> is_Some (procs w !! y)) as Hdom.
    { intros y. destruct (decide (y = q)) as [->|Hne]; [rewrite lookup_insert_eq, Hq; naive_solver | by rewrite lookup_insert_ne]. }
    rewrite Hdom in Hx |- *. by apply (i_parent _ _ _ _ _ I); [apply Hb |].
  - intros Ez x px Hx Hzx. specialize (Hz' Ez). rewrite (parent_alive_set _ _ _ p) by congruence. destruct (decide (x = q)) as [->|Hne].
    + rewrite lookup_insert_eq in Hx. injection Hx as <-. congruence.
    + rewrite lookup_insert_ne in Hx by done. by eapply (i_zombie _ _ _ _ _ I eq_refl).
Qed.

(** A fork. *)
Lemma inv_fork k R w q p p1 pc L N L1 L2 N1 N2 :
  let n := unext p in
  winv None true k R w -> procs w !! q = Some p -> R !! q = Some (L, N) -> is_zombie p = false -> is_zombie p1 = false -> is_zombie pc = false ->
  unext p1 = S n -> unext pc = 0%nat -> L ≡ₚ L1 ++ L2 -> (N1 + N2 < N)%nat ->
  (forall m, kids m q = {[n]} ∪ kids (procs w) q -> proc_ok (negb (refused w)) m (input w) q p1 L2 N2) ->
  (forall m, kids m (n :: q) = ∅ -> proc_ok (negb (refused w)) m (input w) (n :: q) pc L1 N1) ->
  winv None true (S k) (<[n :: q := (L1, N1)]> (<[q := (L2, N2)]> R)) (mkworld (<[n :: q := pc]> (<[q := p1]> (procs w))) (launched w) (refused w) (input w)).
Proof.
  intros n I Hq HR Hz Hz1 Hzc Hn1 Hnc HL HN Hpar Hchild. pose proof (todo_set R q L N L2 N2 HR) as Htodo. pose proof (total_set R q L N L2 N2 HR) as Htotal.
  assert (n :: q <> q) as Hne by (intros E; apply (f_equal length) in E; cbn in E; lia).
  assert (forall l, R !! (l ++ n :: q) = None) as Hfresh.
  { intros l. destruct (R !! (l ++ n :: q)) as [e|] eqn:E; [| done]. pose proof (i_fresh _ _ _ _ _ I l n q p (ex_intro _ _ E) Hq). unfold n in *. lia. }
  assert (forall x, R !! x = None -> procs w !! x = None) as HRp.
  { intros x Hx. destruct (procs w !! x) as [px|] eqn:E; [| done]. destruct (i_proc _ _ _ _ _ I x px E) as (? & ? & H & _). congruence. }
  assert (<[q := (L2, N2)]> R !! (n :: q) = None) as Hnew by (rewrite lookup_insert_ne by done; apply (Hfresh [])).
  set (m' := <[n :: q := pc]> (<[q := p1]> (procs w))).
  assert (forall x, x <> q -> x <> n :: q -> m' !! x = procs w !! x) as Hm' by (intros x H1 H2; unfold m'; by rewrite !lookup_insert_ne by done).
  assert (m' !! q = Some p1) as Hmq by (unfold m'; by rewrite lookup_insert_ne, lookup_insert_eq).
  assert (m' !! (n :: q) = Some pc) as Hmc by apply lookup_insert_eq.
  assert (kids m' q = {[n]} ∪ kids (procs w) q) as Kq by (unfold m'; rewrite kids_insert_new, kids_insert_old by eauto; done).
  assert (forall x, x <> q -> kids m' x = kids (procs w) x) as Kx.
  { intros x Hx. unfold m'. rewrite kids_insert_other by (cbn; by apply bool_decide_eq_false). apply kids_insert_old. eauto. }
  split; cbn [procs launched refused input]; fold m'.
  - intros x px Hx. destruct (decide (x = n :: q)) as [->|Hx1].
    { rewrite Hmc in Hx. injection Hx as <-. exists L1, N1. rewrite lookup_insert_eq. split; [done |]. intros _. apply Hchild. rewrite Kx by done.
      apply set_eq. intros i. rewrite elem_of_kids, (HRp (i :: n :: q) (Hfresh [i])). split; [by intros [? [=]] | set_solver]. }
    rewrite lookup_insert_ne by done. destruct (decide (x = q)) as [->|Hx2].
    { rewrite Hmq in Hx. injection Hx as <-. exists L2, N2. rewrite lookup_insert_eq. split; [done |]. intros _. by apply Hpar. }
    rewrite lookup_insert_ne by done. rewrite Hm' in Hx by done. destruct (i_proc _ _ _ _ _ I x px Hx) as (Lx & Nx & H1 & H2). exists Lx, Nx. split; [done |]. intros _.
    eapply proc_ok_kids; [symmetry; by apply Kx | by apply H2].
  - intros E x Lx Nx HRx Hx. destruct (decide (x = n :: q)) as [->|Hx1]; [congruence |]. destruct (decide (x = q)) as [->|Hx2]; [congruence |].
    rewrite !lookup_insert_ne in HRx by done. rewrite Hm' in Hx by done. by eapply (i_gone _ _ _ _ _ I).
  - destruct (i_sum _ _ _ _ _ I) as (D0 & H1 & H2). exists D0. split; [| done]. rewrite todo_new by done. rewrite <- (app_nil_l D0).
    transitivity ((launched w ++ L1) ++ todo (<[q := (L2, N2)]> R) ++ [] ++ D0); [solve_Permutation |].
    eapply (books (launched w)); [exact Htodo | | exact H1]. rewrite HL, app_nil_r. solve_Permutation.
  - rewrite total_new by done. pose proof (i_count _ _ _ _ _ I). lia.
  - intros l i x px HRx Hx. destruct (decide (x = n :: q)) as [->|Hx1].
    { exfalso. replace (l ++ i :: n :: q) with ((l ++ [i]) ++ n :: q) in HRx by (by rewrite <- (assoc_L (++))). rewrite lookup_insert_ne in HRx.
      2: { intros E. apply (f_equal length) in E. rewrite !length_app in E. cbn in E. lia. }
      rewrite lookup_insert_ne in HRx by (intros E; apply (f_equal length) in E; rewrite !length_app in E; cbn in E; lia).
      rewrite (Hfresh (l ++ [i])) in HRx. by destruct HRx. }
    destruct (decide (l ++ i :: x = n :: q)) as [E|Hx2].
    { destruct l as [|j l]; cbn in E; injection E as <- E.
      - subst x. rewrite Hmq in Hx. injection Hx as <-. rewrite Hn1. lia.
      - subst q. eapply (i_fresh _ _ _ _ _ I l); [eauto |]. rewrite <- Hm'; [exact Hx | | done]. intros E. apply (f_equal length) in E. rewrite length_app in E. cbn in E. lia. }
    rewrite lookup_insert_ne in HRx by done. assert (is_Some (R !! (l ++ i :: x))) as HR'.
    { destruct (decide (q = l ++ i :: x)) as [<-|]; [eauto | by rewrite lookup_insert_ne in HRx]. }
    destruct (decide (x = q)) as [->|Hx3].
    + rewrite Hmq in Hx. injection Hx as <-. pose proof (i_fresh _ _ _ _ _ I l i q p HR' Hq). unfold n in *. lia.
    + rewrite Hm' in Hx by done. by eapply (i_fresh _ _ _ _ _ I).
  - intros E i x Hx. destruct (decide (x = q)) as [->|Hx1]; [left; rewrite Hmq; eauto |]. destruct (decide (x = n :: q)) as [->|Hx2]; [left; rewrite Hmc; eauto |].
    rewrite (Hm' x) by done. destruct (decide (i :: x = q)) as [<-|Hx3]; [apply (i_parent _ _ _ _ _ I E); eauto |].
    apply (i_parent _ _ _ _ _ I E). rewrite Hm' in Hx; [done | done |]. intros [= -> ->]. done.
  - intros _ x px Hx Hzx. destruct (decide (x = n :: q)) as [->|Hx1]; [congruence |]. destruct (decide (x = q)) as [->|Hx2]; [congruence |]. rewrite Hm' in Hx by done.
    pose proof (i_zombie _ _ _ _ _ I eq_refl x px Hx Hzx) as Ha. destruct x as [|i x]; [done |]. cbn in *. destruct (decide (x = q)) as [->|Hx3]; [by rewrite Hmq, Hz1 |].
    destruct (decide (x = n :: q)) as [->|Hx4]; [by rewrite Hmc, Hzc | by rewrite Hm'].
Qed.

Lemma proc_ok_zombie b m m' t q p L N : is_zombie p = true -> kids m' q ⊆ kids m q -> proc_ok b m t q p L N -> proc_ok b m' t q p L N.
Proof.
  unfold proc_ok, is_zombie. destruct (ustatus p); [done | done |]. intros _ Hk H Hb. destruct (H Hb) as [HL Hl]. split; [done |]. intros i Hi. apply Hl, Hk, Hi.
Qed.

(** A process without code left to run has no programs to start. *)
Lemma zombie_done a z k R w q p : winv a z k R w -> a <> Some q -> refused w = false -> procs w !! q = Some p -> is_zombie p = true ->
  exists N, R !! q = Some ([], N) /\ left_ok Bg q (kids (procs w) q).
Proof.
  intros I Ha E Hq Hz. destruct (i_proc _ _ _ _ _ I q p Hq) as (L & N & HR & Hok). specialize (Hok Ha). unfold proc_ok in Hok. unfold is_zombie in Hz.
  destruct (ustatus p); [done | done |]. rewrite E in Hok. destruct (Hok eq_refl) as [-> Hl]. eauto.
Qed.

(** Processes disappear: those in [gone] have ended, and only [a] had waited for them. *)
Lemma inv_remove a z k R w (gone : list nat -> bool) :
  winv a z k R w ->
  (forall x p, gone x = true -> procs w !! x = Some p -> is_zombie p = true /\ a <> Some x) ->
  (forall i x p, gone (i :: x) = true -> procs w !! x = Some p -> is_zombie p = false -> a = Some x) ->
  (forall x p, procs w !! x = Some p -> is_zombie p = true -> gone x = false -> parent_alive (procs w) x = true) ->
  winv a true k R (mkworld (filter (fun xp => gone xp.1 = false) (procs w)) (launched w) (refused w) (input w)).
Proof.
  intros I Hgone Hpar Hzom. set (m' := filter _ _).
  assert (forall x, m' !! x = if gone x then None else procs w !! x) as Hm'.
  { intros x. unfold m'. destruct (gone x) eqn:E.
    - apply map_lookup_filter_None. right. intros p _. cbn. congruence.
    - apply option_eq. intros p. rewrite map_lookup_filter_Some. cbn. naive_solver. }
  assert (forall x, kids m' x ⊆ kids (procs w) x) as Hk.
  { intros x i. rewrite !elem_of_kids, Hm'. destruct (gone _); [by intros [? [=]] | done]. }
  split; cbn [procs launched refused input]; fold m'.
  - intros x p Hx. rewrite Hm' in Hx. destruct (gone x); [done |]. destruct (i_proc _ _ _ _ _ I x p Hx) as (L & N & HR & Hok). exists L, N. split; [done |].
    intros Ha. specialize (Hok Ha). destruct (is_zombie p) eqn:Hz; [by eapply proc_ok_zombie; [| apply Hk |] |]. eapply proc_ok_kids; [| exact Hok]. apply kids_ext. intros i. rewrite Hm'.
    destruct (gone (i :: x)) eqn:E; [| done]. by destruct Ha; apply (Hpar i x p).
  - intros E x L N HR Hx. rewrite Hm' in Hx. destruct (procs w !! x) as [p|] eqn:Hp; [| by eapply (i_gone _ _ _ _ _ I)].
    destruct (gone x) eqn:Hg; [| done]. destruct (Hgone x p Hg Hp) as [Hz Ha]. destruct (zombie_done _ _ _ _ _ _ _ I Ha E Hp Hz) as (N' & HR' & _). congruence.
  - apply (i_sum _ _ _ _ _ I).
  - apply (i_count _ _ _ _ _ I).
  - intros l i x p HR Hx. rewrite Hm' in Hx. destruct (gone x); [done |]. by eapply (i_fresh _ _ _ _ _ I).
  - intros E i x Hx. rewrite Hm' in Hx. destruct (gone (i :: x)); [by destruct Hx |]. destruct (i_parent _ _ _ _ _ I E i x Hx) as [[p Hp]|]; [| by right].
    rewrite Hm'. destruct (gone x) eqn:Hg; [| left; eauto]. right. destruct (Hgone x p Hg Hp) as [Hz Ha].
    destruct (zombie_done _ _ _ _ _ _ _ I Ha E Hp Hz) as (_ & _ & Hl). apply Hl. by apply elem_of_kids.
  - intros _ x p Hx Hz. rewrite Hm' in Hx. destruct (gone x) eqn:Hg; [done |]. pose proof (Hzom x p Hx Hz Hg) as Ha. destruct x as [|i x]; [done |]. cbn in *.
    rewrite Hm'. destruct (procs w !! x) as [px|] eqn:Hpx; [| done]. destruct (gone x) eqn:Hgx; [| done]. destruct (Hgone x px Hgx Hpx) as [Hzx _]. by rewrite Hzx in Ha.
Qed.

(** The end of a process. *)
Lemma inv_exit k R w q p L N :
  winv None true k R w -> procs w !! q = Some p -> is_zombie p = false -> R !! q = Some (L, S N) ->
  (refused w = false -> L = [] /\ left_ok Bg q (kids (procs w) q)) ->
  winv None true (S k) (<[q := (L, N)]> R) (mkworld (exit_proc (procs w) q p) (launched w) (refused w) (input w)).
Proof.
  intros I Hq Hz HR Hok. set (zp := mkproc Zombie (ufds p) (unext p) (upipes p)).
  assert (winv None false (S k) (<[q := (L, N)]> R) (mkworld (<[q := zp]> (procs w)) (launched w) (refused w) (input w))) as I1.
  { apply (inv_set None false k R w q p zp L (S N) L N (launched w) (refused w) (input w) []); try done; [by left | by left | | lia | by rewrite app_nil_r]. intros E. by apply Hok, negb_true_iff. }
  set (gone x := (is_child q x && match procs w !! x with Some px => is_zombie px | None => false end) || (bool_decide (x = q) && negb (parent_alive (procs w) q))).
  assert (is_child q q = false) as Hqq.
  { destruct q as [|i q]; [done |]. cbn. apply bool_decide_eq_false. intros E. apply (f_equal length) in E. cbn in E. lia. }
  assert (exit_proc (procs w) q p = filter (fun xp => gone xp.1 = false) (<[q := zp]> (procs w))) as ->.
  { unfold exit_proc. fold zp. apply map_eq. intros x. destruct (decide (x = q)) as [->|Hne].
    - unfold gone. destruct (parent_alive (procs w) q) eqn:Ea.
      + rewrite lookup_insert_eq. symmetry. apply map_lookup_filter_Some. rewrite lookup_insert_eq. cbn. by rewrite Hqq, bool_decide_true.
      + rewrite lookup_delete_eq. symmetry. apply map_lookup_filter_None. right. intros y _. cbn. by rewrite bool_decide_true, orb_true_r.
    - transitivity (filter (fun xp => is_child q xp.1 && is_zombie xp.2 = false) (procs w) !! x).
      { destruct (parent_alive (procs w) q); [by rewrite lookup_insert_ne | by rewrite lookup_delete_ne]. }
      apply option_eq. intros px. rewrite !map_lookup_filter_Some, lookup_insert_ne by done. cbn. unfold gone. rewrite (bool_decide_false (x = q)) by done. cbn.
      split; intros [H1 H2]; (split; [done |]); rewrite H1, ?orb_false_r in *; done. }
  apply (inv_remove None false (S k) _ (mkworld (<[q := zp]> (procs w)) (launched w) (refused w) (input w)) gone I1); cbn [procs].
  - intros x px Hg Hx. split; [| done]. destruct (decide (x = q)) as [->|Hne]; [rewrite lookup_insert_eq in Hx; by injection Hx as <- |].
    rewrite lookup_insert_ne in Hx by done. unfold gone in Hg. rewrite Hx, (bool_decide_false (x = q)) in Hg by done. cbn in Hg. rewrite orb_false_r in Hg. by apply andb_true_iff in Hg as [_ ?].
  - intros i x px Hg Hx Hzx. unfold gone in Hg. apply orb_true_iff in Hg as [[Hc _]%andb_true_iff | [Hc Ha]%andb_true_iff].
    + cbn in Hc. apply bool_decide_eq_true in Hc as ->. rewrite lookup_insert_eq in Hx. by injection Hx as <-.
    + apply bool_decide_eq_true in Hc as <-. cbn in Ha. rewrite lookup_insert_ne in Hx by (intros E; apply (f_equal length) in E; cbn in E; lia). by rewrite Hx, Hzx in Ha.
  - intros x px Hx Hzx Hg. assert (parent_alive (procs w) x = true /\ is_child q x = false) as [Ha Hc].
    { destruct (decide (x = q)) as [->|Hne].
      - split; [| done]. unfold gone in Hg. rewrite bool_decide_true in Hg by done. apply orb_false_iff in Hg as [_ Hg]. by apply negb_false_iff.
      - rewrite lookup_insert_ne in Hx by done. split; [by eapply (i_zombie _ _ _ _ _ I eq_refl) |]. unfold gone in Hg. rewrite Hx, Hzx in Hg. by apply orb_false_iff in Hg as [Hg%andb_false_iff _]; destruct Hg. }
    destruct x as [|i x]; [done |]. cbn in *. apply bool_decide_eq_false in Hc. by rewrite lookup_insert_ne.
Qed.

(** A child that has ended is handed over. *)
Lemma inv_reap k R w q p p' i pc L N :
  winv None true k R w -> procs w !! q = Some p -> is_zombie p = false -> is_zombie p' = false -> (unext p <= unext p')%nat ->
  procs w !! (i :: q) = Some pc -> is_zombie pc = true -> R !! q = Some (L, S N) ->
  (forall m, kids m q = kids (procs w) q ∖ {[i]} -> proc_ok (negb (refused w)) m (input w) q p' L N) ->
  winv None true (S k) (<[q := (L, N)]> R) (mkworld (<[q := p']> (delete (i :: q) (procs w))) (launched w) (refused w) (input w)).
Proof.
  intros I Hq Hz Hz' Hn Hc Hzc HR Hok. assert (i :: q <> q) as Hne by (intros E; apply (f_equal length) in E; cbn in E; lia).
  assert (winv (Some q) true k R w) as Iq by (destruct I as [I1 I2 I3 I4 I5 I6 I7]; split; [| done..]; intros x px Hx; destruct (I1 x px Hx) as (Lx & Nx & H1 & H2); exists Lx, Nx; auto).
  set (gone x := bool_decide (x = i :: q)).
  assert (delete (i :: q) (procs w) = filter (fun xp => gone xp.1 = false) (procs w)) as Ed.
  { apply map_eq. intros x. unfold gone. destruct (decide (x = i :: q)) as [->|Hx].
    - rewrite lookup_delete_eq. symmetry. apply map_lookup_filter_None. right. intros y _. cbn. by rewrite bool_decide_true.
    - rewrite lookup_delete_ne by done. apply option_eq. intros y. rewrite map_lookup_filter_Some. cbn. rewrite bool_decide_false by done. naive_solver. }
  assert (winv (Some q) true k R (mkworld (delete (i :: q) (procs w)) (launched w) (refused w) (input w))) as I1.
  { rewrite Ed. apply (inv_remove (Some q) true); [done | | |]; unfold gone.
    - intros x px Hx%bool_decide_eq_true. subst x. rewrite Hc. intros [= <-]. split; [done | congruence].
    - intros j x px Hx%bool_decide_eq_true _ _. by injection Hx as -> ->.
    - intros x px Hx Hzx _. by eapply (i_zombie _ _ _ _ _ I eq_refl). }
  set (w1 := mkworld (delete (i :: q) (procs w)) (launched w) (refused w) (input w)) in *. change (delete (i :: q) (procs w)) with (procs w1).
  apply (inv_set (Some q) true k R w1 q p p' L (S N) L N (launched w) (refused w) (input w) []); [exact I1 | by right | | done | done | by left | | done | done | done | lia | by rewrite app_nil_r | done]; cbn [procs refused w1].
  - by rewrite lookup_delete_ne.
  - apply Hok, kids_delete.
Qed.

Lemma inv_goes k R w q p b t L N code F n m w' :
  winv None true k R w -> procs w !! q = Some p -> is_zombie p = false -> R !! q = Some (L, S N) -> (unext p <= n)%nat ->
  (b = false -> refused w = false) -> (t = input w \/ q = []) -> plan Bg code (negb b) q F n m (kids (procs w) q) (term q t) L N ->
  goes (mkworld (procs w) (launched w) b t) q code F n m = Some w' -> exists R', winv None true (S k) R' w'.
Proof.
  intros I Hq Hz HR Hn Hb Ht Hplan [= <-]. cbn [procs launched refused]. eexists.
  apply (inv_set None true k R w q p _ L (S N) L N (launched w) b t []); try done; [by left | lia | by rewrite app_nil_r].
Qed.

Lemma inv_go k R w q p L N code F n m w' :
  winv None true k R w -> procs w !! q = Some p -> is_zombie p = false -> R !! q = Some (L, S N) -> (unext p <= n)%nat ->
  plan Bg code (negb (refused w)) q F n m (kids (procs w) q) (term q (input w)) L N ->
  goes w q code F n m = Some w' -> exists R', winv None true (S k) R' w'.
Proof. intros I Hq Hz HR Hn Hp Hg. apply (inv_goes k R w q p (refused w) (input w) L N code F n m w'); auto. Qed.

Lemma inv_refuse k R w q p L N code F n m w' :
  winv None true k R w -> procs w !! q = Some p -> is_zombie p = false -> R !! q = Some (L, S N) -> (unext p <= n)%nat ->
  plan Bg code false q F n m (kids (procs w) q) (term q (input w)) L N ->
  goes (refuse w) q code F n m = Some w' -> exists R', winv None true (S k) R' w'.
Proof. intros I Hq Hz HR Hn Hp Hg. apply (inv_goes k R w q p true (input w) L N code F n m w'); auto. done. Qed.

Lemma winv_act k R w a w' : winv None true k R w -> act w a = Some w' -> exists R', winv None true (S k) R' w'.
Proof.
  intros I. destruct a as [q ch]. unfold act. cbn [fst snd]. destruct (procs w !! q) as [p|] eqn:Hq; [| done]. cbn [mbind option_bind].
  destruct (i_proc _ _ _ _ _ I q p Hq) as (L & N & HR & Hok). specialize (Hok ltac:(done)). unfold proc_ok in Hok.
  assert (refused w = false -> negb (refused w) = true) as Hstrict by (by intros ->).
  destruct (ustatus p) as [code|argv|] eqn:Hst; [| | done].
  2: { destruct Hok as [HN Hok]. destruct N as [|N]; [lia |]. intros [= <-]. eexists. eapply inv_exit; eauto. unfold is_zombie. by rewrite Hst. }
  assert (is_zombie p = false) as Hz by (unfold is_zombie; by rewrite Hst).
  destruct code as [u|st| |c kk]; cbn [plan] in Hok.
  1,2: destruct Hok as [HN Hok]; destruct N as [|N]; [lia |]; intros [= <-]; eexists; eapply inv_exit; eauto.
  { done. }
  destruct Hok as (N' & -> & Hok). destruct c; cbn [plan_ask call_step] in *; try done.
  - destruct Hok as [(L1 & L2 & N1 & N2 & H1 & H2 & H3 & H4) H5]. destruct ch as [pid| |]; [| by eapply inv_refuse | done].
    destruct (Z.leb_spec pid 0); [done |]. intros [= <-]. eexists. apply (inv_fork k R w q p _ _ L (S N') L1 L2 N1 N2); try done; [lia | |].
    + intros m Hm. unfold proc_ok. cbn. rewrite Hm. by apply H4.
    + intros m Hm. unfold proc_ok. cbn. by rewrite Hm.
  - destruct Hok as [H1 H2]. destruct ch as [v| |i v]; [| done |].
    + destruct (no_child (procs w) q) eqn:Hc; [| done]. apply no_child_kids in Hc. by eapply inv_go; eauto.
    + destruct (procs w !! (i :: q)) as [pc|] eqn:Hpc; [| done]. destruct (is_zombie pc) eqn:Hzc; [| done]. cbn [andb]. destruct (Z.ltb_spec 0 v); [| done].
      intros [= <-]. cbn [procs launched refused]. eexists. eapply (inv_reap k R w q p _ i pc); try done.
      intros m Hm. unfold proc_ok. cbn. rewrite Hm. apply H2; [apply elem_of_kids; eauto | done].
  - destruct Hok as [H1 H2]. destruct ch as [v| |]; [| by eapply inv_refuse | by destruct (pipe_fds _ _ _) as [[[]]|]].
    destruct (pipe_fds (ufds p) q (upipes p)) as [[[i j] F']|] eqn:Hp; [| by eapply inv_refuse]. by eapply inv_go; eauto.
  - destruct ch as [v| |]; [| done..]. by eapply inv_go; eauto.
  - destruct (term q (input w)) as [t|] eqn:Ht; [| done]. unfold term in Ht. destruct q; [| done]. injection Ht as <-. destruct ch as [v| |]; [| by destruct (fd_get (ufds p) fd)..].
    destruct (fd_get (ufds p) fd); [| by eapply inv_go]. eapply (inv_goes k R w [] p (refused w) (drop (Z.to_nat n) (input w))); [exact I | exact Hq | exact Hz | exact HR | done | done | by right | exact Hok].
  - destruct ch as [v| |]; [| done..]. by eapply inv_go; eauto.
  - destruct Hok as [(L' & H1 & H2) [H3 H4]]. destruct ch as [v| |]; [| by eapply inv_refuse | done]. intros [= <-]. eexists.
    eapply (inv_set None true k R w q p _ L (S N') L' N' _ (refused w) (input w) []); [done | by left | done | done | done | by left | | done | done | done | lia | rewrite H1, app_nil_r; solve_Permutation | done].
    split; [done |]. intros E. by apply H2.
  - destruct Hok as [H1 H2]. destruct ch as [v| |]; [| by eapply inv_refuse | by destruct (lowest _)].
    destruct (lowest (ufds p)) as [i|] eqn:Hp; [| by eapply inv_refuse]. by eapply inv_go; eauto.
  - destruct ch as [v| |]; [| done..]. by eapply inv_go; eauto.
  - destruct ch as [v| |]; [| by destruct (fd_get (ufds p) fd), (lowest (ufds p))..].
    destruct (fd_get (ufds p) fd) as [o|], (lowest (ufds p)) as [i|] eqn:Hp; by eapply inv_go; eauto.
Qed.

Lemma winv_acts l k R w w' : winv None true k R w -> acts w l = Some w' -> exists R', winv None true (k + length l) R' w'.
Proof.
  revert k R w. induction l as [|a l IH]; intros k R w I; cbn [acts length].
  { intros [= <-]. exists R. by rewrite Nat.add_0_r. }
  destruct (act w a) as [w1|] eqn:E; [| done]. cbn. intros Hl. destruct (winv_act _ _ _ _ _ I E) as [R1 I1].
  destruct (IH _ _ _ I1 Hl) as [R' I']. exists R'. by rewrite Nat.add_succ_r.
Qed.

(** A process that has not ended and waits for nobody who has not. *)
Lemma youngest (m : gmap (list nat) uproc) d (q : list nat) p :
  m !! q = Some p -> is_zombie p = false -> map_Forall (fun x (_ : uproc) => (length x <= d + length q)%nat) m ->
  exists q' p', m !! q' = Some p' /\ is_zombie p' = false /\ forall i pc, m !! (i :: q') = Some pc -> is_zombie pc = true.
Proof.
  revert q p. induction d as [|d IH]; intros q p Hq Hz Hlen.
  - exists q, p. split_and!; [done | done |]. intros i pc Hi. specialize (Hlen _ _ Hi). cbn in Hlen. lia.
  - destruct (decide (map_Forall (fun x pc => is_child q x = true -> is_zombie pc = true) m)) as [Hall|Hex].
    + exists q, p. split_and!; [done | done |]. intros i pc Hi. apply (Hall _ _ Hi). cbn. by apply bool_decide_eq_true.
    + apply map_not_Forall in Hex as (x & pc & Hx & Hn); [| intros; apply _]. destruct x as [|i x]; [by destruct Hn |].
      cbn in Hn. destruct (bool_decide (x = q)) eqn:E; [| by destruct Hn]. apply bool_decide_eq_true in E as ->.
      apply (IH (i :: q) pc); [done | destruct (is_zombie pc); [by destruct Hn | done] |]. intros y py Hy. specialize (Hlen y py Hy). cbn in *. lia.
Qed.

Lemma length_bound (m : gmap (list nat) uproc) : exists d, map_Forall (fun x (_ : uproc) => (length x <= d)%nat) m.
Proof.
  induction m as [|x p m Hx IH] using map_ind; [exists 0%nat; apply map_Forall_empty |]. destruct IH as [d Hd].
  exists (Nat.max d (length x)). apply map_Forall_insert_2; [lia |]. eapply map_Forall_impl; [exact Hd |]. cbn. intros. lia.
Qed.

Lemma inv_progress k R w : winv None true k R w -> procs w <> ∅ -> exists a w', act w a = Some w'.
Proof.
  intros I Hne. assert (exists q p, procs w !! q = Some p /\ is_zombie p = false) as (q0 & p0 & Hq0 & Hz0).
  { apply map_choose in Hne as (x & p & Hx). destruct (is_zombie p) eqn:Hz; [| eauto]. pose proof (i_zombie _ _ _ _ _ I eq_refl x p Hx Hz) as Ha.
    destruct x as [|i x]; [done |]. cbn in Ha. destruct (procs w !! x) as [px|] eqn:E; [| done]. apply negb_true_iff in Ha. eauto. }
  destruct (length_bound (procs w)) as [d Hd]. destruct (youngest (procs w) d q0 p0 Hq0 Hz0) as (q & p & Hq & Hz & Hkids).
  { eapply map_Forall_impl; [exact Hd |]. cbn. intros. lia. }
  destruct (i_proc _ _ _ _ _ I q p Hq) as (L & N & HR & Hok). specialize (Hok ltac:(done)). unfold proc_ok in Hok. unfold is_zombie in Hz.
  enough (exists ch w', act w (q, ch) = Some w') as (ch & w' & H) by eauto. unfold act. cbn [fst snd]. rewrite Hq. cbn [mbind option_bind].
  destruct (ustatus p) as [code|argv|]; [| by exists (Go 0); eexists | done].
  destruct code as [u|st| |c kk]; cbn [plan] in Hok; [by exists (Go 0); eexists | by exists (Go 0); eexists | done |].
  destruct Hok as (N' & -> & Hok). destruct c; cbn [plan_ask call_step] in *; try done; try (by exists (Go 1); eexists).
  - destruct (no_child (procs w) q) eqn:Hc; [by exists (Go 0); eexists |]. destruct (decide (kids (procs w) q = ∅)) as [E|E]; [apply no_child_kids in E; congruence |].
    apply set_choose_L in E as [i Hi]. apply elem_of_kids in Hi as [pc Hpc]. exists (Reap i 1). rewrite Hpc, (Hkids i pc Hpc). by eexists.
  - exists (Go 1). destruct (pipe_fds _ _ _) as [[[]]|]; by eexists.
  - exists (Go 1). destruct (fd_get (ufds p) fd); by eexists.
  - exists (Go 1). destruct (lowest _); by eexists.
  - exists (Go 1). destruct (fd_get (ufds p) fd), (lowest (ufds p)); by eexists.
Qed.

End Invariant.

Lemma inv_begin Bg J N code F t : plan Bg code true [] F 0 0 ∅ (Some t) J N ->
  winv Bg J N None true 0 {[ [] := (J, N) ]} (mkworld {[ [] := mkproc (Shl code) F 0 0 ]} [] false t).
Proof.
  intros Hp. assert (forall (x : list nat) (p : uproc), ({[ [] := p ]} : gmap (list nat) uproc) !! x = (if decide (x = []) then Some p else None)) as Hl.
  { intros x p. case_decide as E; [by rewrite E, lookup_singleton_eq | by rewrite lookup_singleton_ne]. }
  split; cbn [procs launched refused input].
  - intros q p Hq. rewrite Hl in Hq. case_decide as E; [| done]. injection Hq as <-. subst q. exists J, N. rewrite lookup_singleton_eq. split; [done |].
    intros _. unfold proc_ok. cbn. replace (kids _ []) with (∅ : gset nat); [done |]. apply set_eq. intros i. rewrite elem_of_kids, lookup_singleton_ne by done.
    split; [set_solver | by intros [? [=]]].
  - intros _ q L N' HR Hq. rewrite Hl in Hq. case_decide as E; [done |]. by rewrite lookup_singleton_ne in HR.
  - exists []. split; [| done]. unfold todo. rewrite map_to_list_singleton. cbn. by rewrite !app_nil_r.
  - unfold total. rewrite map_to_list_singleton. cbn. lia.
  - intros l i q p HR. rewrite lookup_singleton_ne in HR; [by destruct HR |]. by destruct l.
  - intros _ i q H. rewrite Hl, decide_False in H by done. by destruct H.
  - intros _ q p Hq. rewrite Hl in Hq. case_decide; [| done]. by injection Hq as <-.
Qed.

Lemma inv_start c F : standard F -> redirs_ok c = true ->
  winv (fun y => y ∈ background c [] 0) (jobs c F [] 0) (cost c) None true 0 {[ [] := (jobs c F [] 0, cost c) ]} (start c F).
Proof. intros HF Hr. by apply inv_begin, runcmd_plan. Qed.

Lemma todo_nil (R : gmap (list nat) (list launch * nat)) : (forall q L N, R !! q = Some (L, N) -> L = []) -> todo R = [].
Proof.
  intros H. unfold todo. assert (Forall (fun x : list nat * (list launch * nat) => x.2.1 = []) (map_to_list R)) as Hall.
  { apply Forall_forall. intros [q [L N]] Hx%elem_of_map_to_list. by eapply H. }
  induction Hall as [|x l Hx Hl IH]; [done |]. cbn. rewrite Hx. apply IH.
Qed.

Lemma jobs_standard c F q n : standard F -> redirs_ok c = true -> Forall (fun j => standard (lfds j)) (jobs c F q n).
Proof.
  assert (forall a b d o i, (i <= 2)%nat -> standard (<[i := Some o]> (Some a :: Some b :: Some d :: replicate (NOFILE - 3) None))) as Hset.
  { intros a b d o i Hi. do 3 (destruct i as [|i]; [by eexists _, _, _ |]). lia. }
  revert F q n. induction c as [argv|c IH file mode fd|l IHl r IHr|l IHl r IHr|c IH]; intros F q n HF Hr; cbn [jobs redirs_ok] in *.
  - destruct argv; [done |]. by repeat constructor.
  - apply andb_true_iff in Hr as [[H1%Z.leb_le H2%Z.leb_le]%andb_true_iff Hr]. apply IH; [| done]. destruct HF as (a & b & d & ->). apply Hset. lia.
  - apply andb_true_iff in Hr as [H1 H2]. destruct HF as (a & b & d & ->). apply Forall_app. split; [apply IHl | apply IHr]; (done || apply Hset; lia).
  - apply andb_true_iff in Hr as [H1 H2]. apply Forall_app. split; [by apply IHl | by apply IHr].
  - by apply IH.
Qed.

(** When no process has code of the shell left, everything has been started. *)
Lemma all_started Bg J N k R w : winv Bg J N None true k R w -> refused w = false ->
  (forall q p code, procs w !! q = Some p -> ustatus p <> Shl code) -> launched w ≡ₚ J.
Proof.
  intros I E Hdone. destruct (i_sum _ _ _ _ _ _ _ _ I) as (D & HJ & HD).
  rewrite <- HJ, (HD E), todo_nil, !app_nil_r; [done |]. intros q L N' HR. destruct (procs w !! q) as [p|] eqn:Hq; [| by eapply (i_gone _ _ _ _ _ _ _ _ I)].
  destruct (i_proc _ _ _ _ _ _ _ _ I q p Hq) as (L' & N1 & HR' & Hok). rewrite HR in HR'. injection HR' as <- <-. specialize (Hok ltac:(done)). rewrite E in Hok. unfold proc_ok in Hok.
  destruct (ustatus p) as [code|argv|] eqn:Hst; [by destruct (Hdone q p code Hq) | by apply Hok | by apply Hok].
Qed.

Lemma started_sub Bg J N k R w : winv Bg J N None true k R w -> launched w ⊆+ J.
Proof. intros I. destruct (i_sum _ _ _ _ _ _ _ _ I) as (D & <- & _). by apply submseteq_inserts_r. Qed.

(** When the first process is gone, the others are in the background. *)
Lemma left_behind Bg J N k R w : winv Bg J N None true k R w -> refused w = false -> procs w !! [] = None ->
  forall q, is_Some (procs w !! q) -> exists pre b, q = pre ++ b /\ Bg b.
Proof.
  intros I Hok Hgone q Hq. induction q as [|i q IH]; [rewrite Hgone in Hq; by destruct Hq |].
  destruct (i_parent _ _ _ _ _ _ _ _ I Hok i q Hq) as [Hp|Hb]; [| by exists [], (i :: q)].
  destruct (IH Hp) as (pre & b & -> & Hb). by exists (i :: pre), b.
Qed.

(** ** Theorems *)

(** C28: whatever order the processes run in and whatever the kernel refuses, running a command starts only the
    programs of the command, each at most once, with exactly the files its redirections and pipes say
    on descriptors 0, 1 and 2 and no other descriptor open; if nothing was refused, then by the
    time no process runs the shell's code any more, all of them have been started. *)
Theorem shell_starts_jobs (c : cmd (list Z)) (F : fds) (l : list (list nat * choice)) (w : world)
    (HF : standard F) (Hr : redirs_ok c = true) (Hl : acts (start c F) l = Some w) :
  launched w ⊆+ jobs c F [] 0 /\ Forall (fun j => standard (lfds j)) (launched w) /\
  (refused w = false -> (forall q p code, procs w !! q = Some p -> ustatus p <> Shl code) -> launched w ≡ₚ jobs c F [] 0).
Proof.
  destruct (winv_acts _ _ _ _ _ _ _ _ (inv_start c F HF Hr) Hl) as [R I]. pose proof (started_sub _ _ _ _ _ _ I) as Hsub. split_and!; [done | | by eapply all_started].
  apply Forall_forall. intros j Hj. pose proof (jobs_standard c F [] 0 HF Hr) as Hall. rewrite Forall_forall in Hall. apply Hall. by eapply elem_of_submseteq.
Qed.

(** The shell waits for the whole command: if nothing was refused, then when the process that was to run the
    command is gone, every process left belongs to a part of the command followed by an
    ampersand. *)
Lemma shell_waits (c : cmd (list Z)) (F : fds) (l : list (list nat * choice)) (w : world)
    (HF : standard F) (Hr : redirs_ok c = true) (Hl : acts (start c F) l = Some w) (Hok : refused w = false) (Hgone : procs w !! [] = None)
    (q : list nat) (Hq : is_Some (procs w !! q)) :
  exists pre b, q = pre ++ b /\ b ∈ background c [] 0.
Proof.
  destruct (winv_acts _ _ _ _ _ _ _ _ (inv_start c F HF Hr) Hl) as [R I]. by eapply (left_behind _ _ _ _ _ _ I).
Qed.

(** Running a command comes to an end: no order of steps makes the processes of the shell perform
    more calls than [cost] says, and as long as there is a process, some process can go on; so
    nobody waits for a child that never ends, but for a program that does not. *)
Lemma shell_ends (c : cmd (list Z)) (F : fds) (l : list (list nat * choice)) (w : world)
    (HF : standard F) (Hr : redirs_ok c = true) (Hl : acts (start c F) l = Some w) :
  (length l <= cost c)%nat /\ (procs w <> ∅ -> exists a w', act w a = Some w').
Proof.
  destruct (winv_acts _ _ _ _ _ _ _ _ (inv_start c F HF Hr) Hl) as [R I]. split; [pose proof (i_count _ _ _ _ _ _ _ _ I); lia | by eapply inv_progress].
Qed.

(** ** Witnesses *)

Definition demo_fds : fds := [Some (Inherited 0); Some (Inherited 1); Some (Inherited 2)] ++ replicate (NOFILE - 3) None.

Lemma demo_standard : standard demo_fds.
Proof. by eexists _, _, _. Qed.

(** [a | b > f], run to its end. *)
Definition pipe_cmd : cmd (list Z) := PipeC (Sh.Exec [[97]]) (Redir (Sh.Exec [[98]]) [102] (Z.lor O_WRONLY O_CREATE) 1).
Definition pipe_acts : list (list nat * choice) :=
  replicate 2 ([], Go 1) ++ replicate 6 ([0%nat], Go 1) ++ [([], Go 1)] ++ replicate 8 ([1%nat], Go 1) ++
  replicate 2 ([], Go 1) ++ [([], Reap 0 1); ([], Reap 1 1); ([], Go 1)].
Definition pipe_launched : list launch :=
  [mklaunch [0%nat] [[97]] (<[1%nat := Some (PipeW [] 0)]> demo_fds);
   mklaunch [1%nat] [[98]] (<[1%nat := Some (OFile [102] (Z.lor O_WRONLY O_CREATE))]> (<[0%nat := Some (PipeR [] 0)]> demo_fds))].

Lemma shell_starts_jobs_witness : pipe_launched ≡ₚ jobs pipe_cmd demo_fds [] 0.
Proof.
  apply (shell_starts_jobs pipe_cmd demo_fds pipe_acts (mkworld ∅ pipe_launched false [])); [exact demo_standard | reflexivity | vm_compute; reflexivity | reflexivity |].
  intros q p code H. cbn [procs] in H. by rewrite lookup_empty in H.
Defined.
