(* ===== verification/ShMain.v ===== *)
(** * ShMain: the shell's loop and [init]

    [getcmd] and [main] of [user/sh.c] and [main] of [user/init.c].  The shell as a whole, from the text typed at
    the terminal to the programs that are started: reading lines ([Ulib]), [cd], the parser ([Sh]) in a child, and
    running the command ([Shell]).

    The programs that are started share the terminal with the shell and may take part of the text.

    Shown, for every text and every order of steps: of the text the programs leave to the shell, only the
    programs of the lines are started, each with the files its line says; all of them if nothing was
    refused and the shell is done; the number of steps is bounded and nobody gets stuck.  [init] has one shell at a time. *)

From stdpp Require Import base list strings gmap sets.
From Stdlib Require Import ZArith Lia.
From S2P Require Import Prelude Fcntl Print Uprint Ucall Ulib Sh Shell.

(** ** Code: [sh.c] *)

Definition LINEBUF : Z := 100.

(** [None] at the end of the input; else the string in the buffer.  What the buffer holds after the line is 0. *)
Definition getcmd : uprog (option (list Z)) :=
  do? ask (UWrite 2 [36; 32]) in
  let? l := gets LINEBUF in
  if hd 0 l =? 0 then PRet None else PRet (Some (cut0 l)).

(** [while((fd = open("console", O_RDWR)) >= 0)]; a descriptor below 3 is new in every round. *)
Fixpoint three_fds (n : nat) : uprog unit :=
  match n with
  | O => PMore
  | S n' =>
      let? fd := ask (UOpen (bytes "console") O_RDWR) in
      if fd <? 0 then PRet tt else
      if 3 <=? fd then do? ask (UClose fd) in PRet tt else
      three_fds n'
  end.

Definition is_cd (buf : list Z) : bool := bool_decide (take 3 buf = [99; 100; 32]).

(** [runcmd(parsecmd(buf))] in the child. *)
Definition run_line (buf : list Z) : uprog unit :=
  match parseline (parse_fuel buf) buf with
  | Ok (c, s) =>
      match skip s with
      | [] => runcmd (cmap text c)
      | lo =>
          do? fprintf 2 (line "leftovers: %s") [VStr (Some lo)] in
          do? panic (bytes "syntax") in PExit 1
      end
  | Panic msg => do? panic (bytes msg) in PExit 1
  | Diverge => PMore
  end.

(** The loop over the commands. *)
Fixpoint sh_loop (rounds : nat) : uprog unit :=
  match rounds with
  | O => PMore
  | S r =>
      let? g := getcmd in
      match g with
      | None => PExit 0
      | Some buf =>
          if is_cd buf then
            let path := drop 3 (removelast buf) in
            let? v := ask (UChdir path) in
            if v <? 0 then
              do? fprintf 2 (line "cannot cd %s") [VStr (Some path)] in
              sh_loop r
            else sh_loop r
          else
            let? pid := fork1 in
            if pid =? 0 then run_line buf else
            do? ask UWait in
            sh_loop r
      end
  end.

Definition sh_main (rounds : nat) : uprog unit :=
  do? three_fds 4 in
  sh_loop rounds.

(** The shell at the terminal. *)
Definition session (rounds : nat) (t : list Z) (F : fds) : world :=
  mkworld {[ [] := mkproc (Shl (sh_main rounds)) F 0 0 ]} [] false t.

(** The terminal is shared: the programs the shell has started inherit it on descriptor 0, and what one of
    them, or a process it has left behind, reads there does not reach the shell.  An event is a step of a process
    ([act]), or [Takes n]: a program takes the next [n] bytes of the input. *)
Inductive event : Type :=
  | Own (a : list nat * choice)
  | Takes (n : nat).

Definition with_input (t : list Z) (w : world) : world := mkworld (procs w) (launched w) (refused w) t.

Definition happen (w : world) (e : event) : option world :=
  match e with
  | Own a => act w a
  | Takes n =>
      match launched w with
      | [] => None
      | _ => if (1 <=? n)%nat && (n <=? length (input w))%nat then Some (with_input (drop n (input w)) w) else None
      end
  end.

Fixpoint events (w : world) (l : list event) : option world :=
  match l with
  | [] => Some w
  | e :: l' => w' ← happen w e; events w' l'
  end.

(** The number of bytes the programs have taken, and the steps of the processes of the shell. *)
Fixpoint taken (l : list event) : nat :=
  match l with [] => 0 | Takes n :: l' => n + taken l' | Own _ :: l' => taken l' end.
Fixpoint own_steps (l : list event) : list (list nat * choice) :=
  match l with [] => [] | Takes _ :: l' => own_steps l' | Own a :: l' => a :: own_steps l' end.

(** ** What a text means *)

(** The line at the start of a text, as it arrives in the buffer, and the rest. *)
Definition next_line (t : list Z) : list Z := first_line (Z.to_nat (LINEBUF - 1)) t.
Definition rest_of (t : list Z) : list Z := drop (length (next_line t)) t.

(** The lines that are commands, up to the end of the text (a line that starts with a 0 ends it, too). *)
Fixpoint commands (r : nat) (t : list Z) : list (list Z) :=
  match r with
  | O => []
  | S r' =>
      if hd 0 (next_line t) =? 0 then []
      else let buf := cut0 (next_line t) in
        if is_cd buf then commands r' (rest_of t) else buf :: commands r' (rest_of t)
  end.

Definition line_cmd (buf : list Z) : option (cmd (list Z)) :=
  match parse buf with
  | Ok (c, _) => Some (cmap text c)
  | _ => None
  end.

(** The [n]-th child of the shell runs the [n]-th command. *)
Fixpoint session_jobs (ls : list (list Z)) (F : fds) (n : nat) : list launch :=
  match ls with
  | [] => []
  | b :: ls' => (match line_cmd b with Some c => jobs c F [n] 0 | None => [] end) ++ session_jobs ls' F (S n)
  end.

Fixpoint session_background (ls : list (list Z)) (n : nat) : list (list nat) :=
  match ls with
  | [] => []
  | b :: ls' => (match line_cmd b with Some c => background c [n] 0 | None => [] end) ++ session_background ls' (S n)
  end.

(** Calls of the child for a line. *)
Definition line_cost (buf : list Z) : nat :=
  match parseline (parse_fuel buf) buf with
  | Ok (c, s) => 30 + length (skip s) + cost (cmap text c)
  | Panic msg => 3 + length (bytes msg)
  | Diverge => 0
  end.

Fixpoint session_cost (r : nat) (t : list Z) : nat :=
  match r with
  | O => 0
  | S r' => 120 + length (next_line t) + line_cost (cut0 (next_line t)) + session_cost r' (rest_of t)
  end.

(** ** Lemmas: what the parser delivers *)

Lemma redirs_cmap {A B} (f : A -> B) c : redirs_ok (cmap f c) = redirs_ok c.
Proof. induction c as [argv|c IH file mode fd|l IHl r IHr|l IHl r IHr|c IH]; cbn; rewrite ?IH, ?IHl, ?IHr; done. Qed.

Definition std_redir (r : redir token) : bool := (0 <=? r.2) && (r.2 <=? 2).

Lemma redirs_wrap rs c : forallb std_redir rs = true -> redirs_ok c = true -> redirs_ok (wrap rs c) = true.
Proof.
  revert c. induction rs as [|r rs IH]; intros c Hrs Hc; [done |]. cbn in Hrs. apply andb_true_iff in Hrs as [Hr Hrs]. cbn. apply IH; [done |].
  cbn. unfold std_redir in Hr. by rewrite Hr, Hc.
Qed.

Lemma parseredirs_std f s rs s' : parseredirs f s = Ok (rs, s') -> forallb std_redir rs = true.
Proof.
  revert s rs s'. induction f as [|f IH]; intros s rs s' H; [done |]. cbn [parseredirs] in H. apply bind_Ok_inv in H as (more & s1 & _ & H).
  destruct more; cbn [negb] in H; [| by injection H as <- <-]. apply bind_Ok_inv in H as (t & s2 & _ & H). apply bind_Ok_inv in H as (a & s3 & _ & H).
  destruct (negb (a.1 =? WORD)); [done |]. apply bind_Ok_inv in H as (rest & s4 & Hr & H). injection H as <- <-. rewrite forallb_app. apply andb_true_iff. split; [| exact (IH _ _ _ Hr)].
  destruct (t.1 =? LT), (t.1 =? GT), (t.1 =? PLUS); done.
Qed.

Lemma parseargs_std f argv rs s r s' : parseargs f argv rs s = Ok (r, s') -> forallb std_redir rs = true -> forallb std_redir r.2 = true.
Proof.
  revert argv rs s. induction f as [|f IH]; intros argv rs s H Hrs; [done |]. cbn [parseargs] in H. apply bind_Ok_inv in H as (stop & s1 & _ & H).
  destruct stop; [by injection H as <- <- |]. apply bind_Ok_inv in H as (t & s2 & _ & H). destruct (t.1 =? 0); [by injection H as <- <- |].
  destruct (negb (t.1 =? WORD)); [done |]. destruct (_ <=? _)%nat; [done |]. rewrite bind_gets in H. apply bind_Ok_inv in H as (more & s3 & Hm & H).
  apply (IH _ _ _ H). rewrite forallb_app. apply andb_true_iff. split; [exact Hrs | exact (parseredirs_std _ _ _ _ Hm)].
Qed.

Lemma parsebacks_std f c s c' s' : parsebacks f c s = Ok (c', s') -> redirs_ok c = true -> redirs_ok c' = true.
Proof.
  revert c s. induction f as [|f IH]; intros c s H Hc; [done |]. cbn [parsebacks] in H. apply bind_Ok_inv in H as (more & s1 & _ & H).
  destruct more; cbn [negb] in H; [| by injection H as <- <-]. apply bind_Ok_inv in H as (t & s2 & _ & H). by eapply IH.
Qed.

Lemma grammar_std f :
  (forall s c s', parseline f s = Ok (c, s') -> redirs_ok c = true) /\ (forall s c s', parsepipe f s = Ok (c, s') -> redirs_ok c = true) /\
  (forall s c s', parseexec f s = Ok (c, s') -> redirs_ok c = true) /\ (forall s c s', parseblock f s = Ok (c, s') -> redirs_ok c = true).
Proof.
  induction f as [|f (IHl & IHp & IHe & IHb)]; [by split_and! |]. split_and!; intros s c s' H; cbn [parseline parsepipe parseexec parseblock] in H.
  - apply bind_Ok_inv in H as (c1 & s1 & H1 & H). rewrite bind_gets in H. apply bind_Ok_inv in H as (c2 & s2 & H2 & H). pose proof (parsebacks_std _ _ _ _ _ H2 (IHp _ _ _ H1)) as Hc2.
    apply bind_Ok_inv in H as ([] & s3 & _ & H); [| by injection H as <- <-]. apply bind_Ok_inv in H as (t & s4 & _ & H). apply bind_Ok_inv in H as (r & s5 & H5 & H).
    injection H as <- <-. cbn. by rewrite Hc2, (IHl _ _ _ H5).
  - apply bind_Ok_inv in H as (c1 & s1 & H1 & H). apply bind_Ok_inv in H as ([] & s3 & _ & H); [| injection H as <- <-; by eapply IHe].
    apply bind_Ok_inv in H as (t & s4 & _ & H). apply bind_Ok_inv in H as (r & s5 & H5 & H). injection H as <- <-. cbn. by rewrite (IHe _ _ _ H1), (IHp _ _ _ H5).
  - apply bind_Ok_inv in H as ([] & s1 & _ & H); [by eapply IHb |]. rewrite bind_gets in H. apply bind_Ok_inv in H as (rs & s2 & H2 & H). rewrite bind_gets in H.
    apply bind_Ok_inv in H as (r & s3 & H3 & H). injection H as <- <-. apply redirs_wrap; [| done]. eapply parseargs_std; [exact H3 | by eapply parseredirs_std].
  - apply bind_Ok_inv in H as ([] & s1 & _ & H); [| done]. cbn [negb] in H. apply bind_Ok_inv in H as (t & s2 & _ & H). apply bind_Ok_inv in H as (c1 & s3 & H3 & H).
    apply bind_Ok_inv in H as ([] & s4 & _ & H); [| done]. cbn [negb] in H. apply bind_Ok_inv in H as (t2 & s5 & _ & H). rewrite bind_gets in H.
    apply bind_Ok_inv in H as (rs & s6 & H6 & H). injection H as <- <-. apply redirs_wrap; [by eapply parseredirs_std | by eapply IHl].
Qed.

(** The parser delivers a command that redirects standard descriptors only, or an error, and always ends. *)
Lemma parseline_cases buf :
  match parseline (parse_fuel buf) buf with
  | Ok (c, _) => redirs_ok c = true
  | Panic _ => True
  | Diverge => False
  end.
Proof.
  pose proof (proj1 (grammar_std (parse_fuel buf)) buf) as Hstd. destruct (grammar_good (parse_fuel buf)) as [Hg _].
  specialize (Hg buf buf ltac:(by exists []) ltac:(unfold parse_fuel; lia)). destruct (parseline (parse_fuel buf) buf) as [[c s']| |]; [by eapply Hstd | done | done].
Qed.

(** [run_line] and the parser of [Sh]. *)
Lemma line_cmd_eq buf : line_cmd buf =
  match parseline (parse_fuel buf) buf with
  | Ok (c, s) => match skip s with [] => Some (cmap text c) | _ => None end
  | _ => None
  end.
Proof.
  unfold line_cmd, parse. rewrite bind_gets. unfold bind at 1. destruct (parseline (parse_fuel buf) buf) as [[c s]| |]; [| done..].
  unfold peek. rewrite bind_assoc, bind_modify, bind_assoc, bind_gets. cbn. by destruct (skip s).
Qed.

(** ** Lemmas: the plan of the shell *)

Section Plan.
Context (Bg : list nat -> Prop).

Lemma plan_gets {A} n buf (f : list Z -> uprog A) (k : A -> uprog unit) b F nn m U t L N o :
  fd_get F 0 = Some o ->
  plan Bg (pbind (f (buf ++ first_line n t)) k) b [] F nn m U (Some (drop (length (first_line n t)) t)) L N ->
  plan Bg (pbind (pbind (gets_loop n buf) f) k) b [] F nn m U (Some t) L (n + N).
Proof.
  intros HF. revert buf t. induction n as [|n IH]; intros buf t Hp; cbn [gets_loop pbind ask plan Nat.add].
  { cbn [first_line length drop] in Hp. by rewrite app_nil_r in Hp. }
  eexists. split; [done |]. cbn [plan_ask]. rewrite HF. change (Z.to_nat 1) with 1%nat. destruct t as [|c t]; cbn [take drop length fst snd hd].
  - change (Z.of_nat 0 <? 1) with true. cbn in Hp |- *. rewrite app_nil_r in Hp. eapply plan_perm; [done | | exact Hp]. lia.
  - change (Z.of_nat 1 <? 1) with false. cbv iota. rewrite drop_0. cbn [first_line] in Hp. destruct ((c =? nl) || (c =? cr)); cbn [pbind].
    + cbn [length drop] in Hp. rewrite drop_0 in Hp. eapply plan_perm; [done | | exact Hp]. lia.
    + apply IH. cbn [length drop] in Hp. by rewrite <- (assoc_L (++)).
Qed.

Lemma plan_run_line buf b F n :
  standard F -> (forall c y, line_cmd buf = Some c -> y ∈ background c [n] 0 -> Bg y) ->
  plan Bg (run_line buf) b [n] F 0 0 ∅ None (match line_cmd buf with Some c => jobs c F [n] 0 | None => [] end) (line_cost buf).
Proof.
  intros HF Hbg. pose proof (parseline_cases buf) as Hc. rewrite line_cmd_eq in Hbg |- *. unfold run_line, line_cost.
  destruct (parseline (parse_fuel buf) buf) as [[c s]|msg|]; [| | done].
  - destruct (skip s) as [|x l] eqn:Es.
    + apply runcmd_plan; [done | by rewrite redirs_cmap | | lia]. intros y Hy. by eapply Hbg.
    + eapply plan_fprintf; [set (f := line "leftovers: %s"); vm_compute in f; reflexivity | |]; [| apply (plan_panic _ _ _ _ _ _ _ _ _ _ _ 9); [cbn; lia | intros _; split; [done | set_solver]]].
      pose proof (cut0_length (x :: l)). cbn -[cut0]. rewrite length_app. cbn -[cut0] in *. lia.
  - apply plan_panic; [lia |]. intros _. split; [done | set_solver].
Qed.

Lemma rest_shorter t : hd 0 (next_line t) <> 0 -> (length (rest_of t) < length t)%nat.
Proof.
  intros H. unfold rest_of. rewrite length_drop. destruct (first_line_prefix (Z.to_nat (LINEBUF - 1)) t) as [rest E]. apply (f_equal length) in E.
  rewrite length_app in E. fold (next_line t) in E. destruct (next_line t); [done | cbn in *; lia].
Qed.

Lemma plan_loop r t b F n :
  standard F -> (length t < r)%nat -> (forall y, y ∈ session_background (commands r t) n -> Bg y) ->
  plan Bg (sh_loop r) b [] F n 0 ∅ (Some t) (session_jobs (commands r t) F n) (session_cost r t).
Proof.
  intros HF. assert (exists o, fd_get F 0 = Some o) as [o Ho] by (destruct HF as (a & b0 & c0 & ->); by eexists).
  revert t n. induction r as [|r IH]; intros t n Hr Hbg; [lia |]. cbn [sh_loop commands session_cost] in *. unfold getcmd, gets. cbn [pbind ask plan Nat.add].
  eexists. split; [reflexivity |]. cbn [plan_ask]. intros _.
  set (N := (20 + length (next_line t) + line_cost (cut0 (next_line t)) + session_cost r (rest_of t))%nat).
  eapply (plan_perm _ _ _ _ _ _ _ _ _ _ _ (Z.to_nat (LINEBUF - 1) + N)); [reflexivity | unfold N; change (Z.to_nat (LINEBUF - 1)) with 99%nat; lia |].
  eapply plan_gets; [exact Ho |]. cbn [app]. fold (next_line t) (rest_of t). destruct (Z.eqb_spec (hd 0 (next_line t)) 0) as [Hz|Hz]; cbn [pbind].
  { split; [unfold N; lia |]. intros _. split; [done | set_solver]. }
  pose proof (rest_shorter t Hz) as Hrest. set (buf := cut0 (next_line t)) in *. destruct (is_cd buf) eqn:Hcd.
  - pose proof (IH (rest_of t) n ltac:(lia) Hbg) as Hloop. cbn [pbind ask plan]. unfold N. cbn [Nat.add]. eexists. split; [reflexivity |]. cbn [plan_ask]. intros v. destruct (v <? 0).
    + eapply plan_fprintf; [set (f := line "cannot cd %s"); vm_compute in f; reflexivity | | exact Hloop].
      pose proof (cut0_length (drop 3 (removelast buf))) as H1. rewrite length_drop in H1.
      assert (length (removelast buf) <= length buf)%nat as H2 by (clear; induction buf as [|x l IHl]; [done |]; cbn; destruct l; cbn in *; lia).
      pose proof (cut0_length (next_line t)) as H3. fold buf in H3. cbn -[cut0 drop removelast]. rewrite length_app. cbn -[cut0 drop removelast]. lia.
    + eapply plan_perm; [done | | exact Hloop]. lia.
  - cbn [session_jobs session_background] in *.
    eapply (plan_fork1 _ _ _ _ _ _ _ _ _ (match line_cmd buf with Some c => jobs c F [n] 0 | None => [] end) (session_jobs (commands r (rest_of t)) F (S n)) (line_cost buf) (S (session_cost r (rest_of t))));
      [done | unfold N; lia | |].
    + apply plan_run_line; [done |]. intros c y Hc Hy. apply Hbg, elem_of_app. left. by rewrite Hc.
    + intros pid Hpid. destruct (Z.eqb_spec pid 0); [lia |]. cbn [pbind ask plan plan_ask]. eexists. split; [reflexivity |]. split; [set_solver |].
      intros i v Hi _. assert (({[n]} ∪ ∅) ∖ {[i]} =@{gset nat} ∅) as -> by set_solver. apply IH; [lia |]. intros y Hy. apply Hbg, elem_of_app. by right.
Qed.

Lemma plan_main r t b F :
  standard F -> (length t < r)%nat -> (forall y, y ∈ session_background (commands r t) 0 -> Bg y) ->
  plan Bg (sh_main r) b [] F 0 0 ∅ (Some t) (session_jobs (commands r t) F 0) (2 + session_cost r t).
Proof.
  intros HF Hr Hbg. unfold sh_main. cbn [three_fds pbind ask plan Nat.add]. eexists. split; [reflexivity |]. cbn [plan_ask]. split.
  - intros i Hi. pose proof HF as HF'. destruct HF' as (a & b0 & c0 & EF). assert (i = 3)%nat as -> by (subst F; vm_compute in Hi; congruence). cbn.
    eexists. split; [reflexivity |]. subst F. exact (plan_loop r t b _ 0 HF Hr Hbg).
  - cbn. eapply plan_perm; [done | | by apply plan_loop]. lia.
Qed.

End Plan.

(** ** Code: [init.c] *)

Definition CONSOLE : Z := 1.

(** The inner loop, for at most [n] calls of [wait]. *)
Fixpoint init_wait (n : nat) (pid : Z) : uprog unit :=
  match n with
  | O => PMore
  | S n' =>
      let? wpid := ask UWait in
      if wpid =? pid then PRet tt
      else if wpid <? 0 then do? printf (line "init: wait returned an error") [] in PExit 1
      else init_wait n' pid
  end.

(** The outer loop, for at most [rounds] shells. *)
Fixpoint init_loop (rounds waits : nat) : uprog unit :=
  match rounds with
  | O => PMore
  | S r =>
      do? printf (line "init: starting sh") [] in
      let? pid := ask UFork in
      if pid <? 0 then do? printf (line "init: fork failed") [] in PExit 1
      else if pid =? 0 then
        do? ask (UExec (bytes "sh") [bytes "sh"]) in
        do? printf (line "init: exec sh failed") [] in
        PExit 1
      else
        do? init_wait waits pid in
        init_loop r waits
  end.

Definition init_main (rounds waits : nat) : uprog unit :=
  let? fd := ask (UOpen (bytes "console") O_RDWR) in
  do? (if fd <? 0 then
         do? ask (UMknod (bytes "console") CONSOLE 0) in
         do? ask (UOpen (bytes "console") O_RDWR) in
         PRet tt
       else PRet tt) in
  do? ask (UDup 0) in
  do? ask (UDup 0) in
  init_loop rounds waits.

(** Whatever the kernel answers, the program forks only when the shell it forked before, [cur], has been
    returned by [wait]. *)
Definition one_ask (cur : option Z) (c : ucall) : (answer c -> option Z -> Prop) -> Prop :=
  match c as c return (answer c -> option Z -> Prop) -> Prop with
  | UFork => fun P => cur = None /\ forall v, P v (if 0 <? v then Some v else None)
  | UWait => fun P => forall v, P v (if bool_decide (cur = Some v) then None else cur)
  | c => fun P => forall a : answer c, P a cur
  end.

Fixpoint one_shell (cur : option Z) (p : uprog unit) : Prop :=
  match p with
  | PAsk c k => one_ask cur c (fun a cur' => one_shell cur' (k a))
  | _ => True
  end.

Lemma one_shell_print cur s p : one_shell cur p -> one_shell cur (do? printf (line s) [] in p).
Proof.
  intros Hp. unfold printf, fprintf. destruct (vprintf _ _) as [l|]; [| done]. induction l as [|c l IH]; [done |].
  cbn [puts pbind ask one_shell one_ask]. by intros _.
Qed.

Lemma one_shell_wait n pid p : one_shell None p -> one_shell (Some pid) (do? init_wait n pid in p).
Proof.
  intros Hp. induction n as [|n IH]; [done |]. cbn [init_wait pbind ask one_shell one_ask]. intros v. destruct (Z.eqb_spec v pid) as [->|Hne].
  { by rewrite bool_decide_true. }
  rewrite bool_decide_false by congruence. destruct (v <? 0); [| exact IH]. unfold printf, fprintf. destruct (vprintf _ _) as [l|]; [| done].
  induction l as [|c l IHl]; [done |]. cbn [puts pbind ask one_shell one_ask]. by intros _.
Qed.

Lemma init_one_shell rounds waits : one_shell None (init_main rounds waits).
Proof.
  assert (one_shell None (init_loop rounds waits)) as Hloop.
  { induction rounds as [|r IH]; [done |]. cbn [init_loop]. apply one_shell_print. cbn [pbind ask one_shell one_ask]. split; [done |]. intros v. destruct (Z.ltb_spec v 0).
    - by apply one_shell_print.
    - destruct (Z.eqb_spec v 0) as [->|Hne]; cbn [pbind ask one_shell one_ask]; [intros _; by apply one_shell_print |].
      destruct (Z.ltb_spec 0 v); [| lia]. by apply one_shell_wait. }
  unfold init_main. cbn [pbind ask one_shell one_ask]. intros fd. destruct (fd <? 0); cbn [pbind ask one_shell one_ask]; intros; exact Hloop.
Qed.

(** ** Lemmas: the shared terminal *)

(** A step looks at no more of the input than it consumes. *)
Lemma act_input w a w' : act w a = Some w' ->
  exists k, input w' = drop k (input w) /\ forall t, take k t = take k (input w) -> act (with_input t w) a = Some (with_input (drop k t) w').
Proof.
  destruct a as [q ch]. unfold act. cbn [fst snd with_input procs]. destruct (procs w !! q) as [p|]; [| done]. cbn [mbind option_bind].
  destruct (ustatus p) as [code|argv|]; [| intros [= <-]; exists 0%nat; by rewrite drop_0 | done].
  destruct code as [u|st| |c kk]; [intros [= <-]; exists 0%nat; by rewrite drop_0 | intros [= <-]; exists 0%nat; by rewrite drop_0 | done |].
  assert (forall q p F n m (b : world), goes b q p F n m = Some w' -> input b = input w -> exists k, input w' = drop k (input w) /\ forall t,
    take k t = take k (input w) -> goes (with_input t b) q p F n m = Some (with_input (drop k t) w')) as Hgo.
  { intros q0 p0 F n m b [= <-] Hb. exists 0%nat. by rewrite drop_0. }
  destruct c; cbn [call_step]; try done.
  - destruct ch as [pid| |]; [| intros Hg; exact (Hgo _ _ _ _ _ _ Hg eq_refl) | done]. destruct (pid <=? 0); [done |]. intros [= <-]. exists 0%nat. by rewrite drop_0.
  - destruct ch as [v| |i v]; [| done |].
    + cbn [procs with_input]. destruct (no_child (procs w) q); [intros Hg; exact (Hgo _ _ _ _ _ _ Hg eq_refl) | done].
    + cbn [procs with_input]. destruct (procs w !! (i :: q)) as [pc|]; [| done]. destruct (is_zombie pc && (0 <? v)); [| done]. intros [= <-]. exists 0%nat. by rewrite drop_0.
  - destruct ch as [v| |]; [| intros Hg; exact (Hgo _ _ _ _ _ _ Hg eq_refl) | destruct (pipe_fds (ufds p) q (upipes p)) as [[[]]|]; done]. destruct (pipe_fds (ufds p) q (upipes p)) as [[[i j] F']|]; intros Hg; exact (Hgo _ _ _ _ _ _ Hg eq_refl).
  - destruct ch as [v| |]; [| done..]. intros Hg; exact (Hgo _ _ _ _ _ _ Hg eq_refl).
  - destruct ch as [v| |]; [| destruct (fd_get (ufds p) fd); done..]. destruct (fd_get (ufds p) fd); [| intros Hg; exact (Hgo _ _ _ _ _ _ Hg eq_refl)]. intros [= <-].
    exists (Z.to_nat n). split; [done |]. intros t Ht. cbn [with_input input]. by rewrite Ht.
  - destruct ch as [v| |]; [| done..]. intros Hg; exact (Hgo _ _ _ _ _ _ Hg eq_refl).
  - destruct ch as [v| |]; [| intros Hg; exact (Hgo _ _ _ _ _ _ Hg eq_refl) | done]. intros [= <-]. exists 0%nat. by rewrite drop_0.
  - destruct ch as [v| |]; [| intros Hg; exact (Hgo _ _ _ _ _ _ Hg eq_refl) | destruct (lowest (ufds p)); done]. destruct (lowest (ufds p)); intros Hg; exact (Hgo _ _ _ _ _ _ Hg eq_refl).
  - destruct ch as [v| |]; [| done..]. intros Hg; exact (Hgo _ _ _ _ _ _ Hg eq_refl).
  - destruct ch as [v| |]; [| destruct (fd_get (ufds p) fd), (lowest (ufds p)); done..]. destruct (fd_get (ufds p) fd), (lowest (ufds p)); intros Hg; exact (Hgo _ _ _ _ _ _ Hg eq_refl).
Qed.

(** What the programs take might as well never have been typed: the steps of the shell's processes are those of a
    session in which the terminal delivers the rest of the text only. *)
Lemma events_own l w w' : events w l = Some w' ->
  exists t, sublist t (input w) /\ (length t + taken l = length (input w))%nat /\ acts (with_input t w) (own_steps l) = Some w'.
Proof.
  revert w. induction l as [|e l IH]; intros w; cbn [events taken own_steps].
  { intros [= <-]. exists (input w). split_and!; [done | lia |]. by destruct w. }
  destruct (happen w e) as [w1|] eqn:E; [| done]. cbn [mbind option_bind]. intros Hl. destruct (IH w1 Hl) as (t1 & Hs & Hn & Ha).
  destruct e as [a|n]; cbn [happen] in E.
  - destruct (act_input w a w1 E) as (k & Hk & Hact). rewrite Hk in Hs, Hn.
    assert (take k (take k (input w) ++ t1) = take k (input w) /\ drop k (take k (input w) ++ t1) = t1) as [H1 H2].
    { destruct (decide (k <= length (input w))%nat) as [Hle|Hle].
      - rewrite take_app_le, drop_app_length' by (rewrite length_take; lia). by rewrite take_take, Nat.min_id.
      - rewrite (drop_ge (input w)) in Hs by lia. apply sublist_nil_r in Hs as ->. rewrite app_nil_r, take_take, Nat.min_id.
        split; [done |]. apply drop_ge. rewrite length_take. lia. }
    exists (take k (input w) ++ t1). split_and!.
    + rewrite <- (take_drop k (input w)) at 2. by apply sublist_app.
    + rewrite length_app, length_take. rewrite length_drop in Hn. lia.
    + cbn [acts]. rewrite (Hact _ H1), H2. exact Ha.
  - destruct (launched w) as [|x xs]; [done |]. destruct ((1 <=? n)%nat && (n <=? length (input w))%nat) eqn:Hb; [| done].
    apply andb_true_iff in Hb as [Hb1%Nat.leb_le Hb2%Nat.leb_le]. injection E as <-. cbn [with_input input] in Hs, Hn. exists t1.
    split_and!; [etrans; [exact Hs | apply sublist_drop] | rewrite length_drop in Hn; lia | exact Ha].
Qed.

Lemma events_length l w w' : events w l = Some w' -> (length l <= length (own_steps l) + taken l)%nat.
Proof.
  revert w. induction l as [|e l IH]; intros w; cbn [events taken own_steps length]; [lia |].
  destruct (happen w e) as [w1|] eqn:E; [| done]. cbn [mbind option_bind]. intros Hl%IH. destruct e as [a|n]; cbn [length]; [lia |].
  cbn [happen] in E. destruct (launched w); [done |]. destruct (Nat.leb_spec 1 n); [lia | done].
Qed.

(** ** The shell as a whole *)

(** C11: whatever is typed at the terminal, in whatever order the processes run, whatever the kernel refuses and
    whatever part of the text the programs take for themselves, a shell started with three open descriptors starts only
    programs of the command lines of the text that is left for it, [t'], each at most once and with the files its line
    says.  If nothing was refused, all of them have been started when no process runs the shell's code any more, and when
    the shell itself is gone, only parts of the lines in the background are left.  [t'] is the text without the bytes taken,
    so all of it when the programs take none.  The number of events is bounded, and as long as there is a process some
    process can go on. *)
Theorem shell_session (t : list Z) (F : fds) (r : nat) (l : list event) (w : world)
    (HF : standard F) (Hr : (length t < r)%nat) (Hl : events (session r t F) l = Some w) :
  exists t', sublist t' t /\ (length t' + taken l = length t)%nat /\
  let ls := commands r t' in
  launched w ⊆+ session_jobs ls F 0 /\ (length l <= 2 + session_cost r t' + taken l)%nat /\ (procs w <> ∅ -> exists a w', act w a = Some w') /\
  (refused w = false ->
     ((forall q p code, procs w !! q = Some p -> ustatus p <> Shl code) -> launched w ≡ₚ session_jobs ls F 0) /\
     (procs w !! [] = None -> forall q, is_Some (procs w !! q) -> exists pre b, q = pre ++ b /\ b ∈ session_background ls 0)).
Proof.
  destruct (events_own l _ _ Hl) as (t' & Hs & Hn & Ha). change (input (session r t F)) with t in Hs, Hn. exists t'. split_and!; [done | done |].
  intros ls. pose proof (inv_begin _ _ _ _ _ _ (plan_main (fun y => y ∈ session_background ls 0) r t' true F HF ltac:(lia) (fun y H => H))) as I0.
  destruct (winv_acts _ _ _ _ _ _ _ _ I0 Ha) as [R I]. pose proof (events_length l _ _ Hl).
  split_and!; [by eapply started_sub | pose proof (i_count _ _ _ _ _ _ _ _ I); lia | by eapply inv_progress |].
  intros E. split; [by eapply all_started | by eapply left_behind].
Qed.

(** ** Witnesses *)

(** The text "a|b", "cd x", "c&".  The program [a] reads the second line, so the shell sees the two others; at the end the shell is
    gone and [c] still runs. *)
Definition demo_text : list Z := bytes "a|b" ++ [nl] ++ bytes "cd x" ++ [nl] ++ bytes "c&" ++ [nl].
Definition demo_events : list event :=
  let go n q := Own <$> replicate n (q, Go 1) in
  go 8%nat [] ++ go 2%nat [0%nat] ++ go 5%nat [0%nat; 0%nat] ++ [Takes 5] ++ go 1%nat [0%nat; 0%nat] ++ go 1%nat [0%nat] ++ go 6%nat [1%nat; 0%nat] ++
  go 2%nat [0%nat] ++ (Own <$> [([0%nat], Reap 0 1); ([0%nat], Reap 1 1); ([0%nat], Go 1); ([], Reap 0 1)]) ++ go 5%nat [] ++ go 1%nat [1%nat] ++
  go 1%nat [0%nat; 1%nat] ++ go 1%nat [1%nat] ++ [Own ([], Reap 1 1)] ++ go 3%nat [].
Definition demo_launched : list launch :=
  [mklaunch [0%nat; 0%nat] [[97]] (<[1%nat := Some (PipeW [0%nat] 0)]> demo_fds);
   mklaunch [1%nat; 0%nat] [[98]] (<[0%nat := Some (PipeR [0%nat] 0)]> demo_fds);
   mklaunch [0%nat; 1%nat] [[99]] demo_fds].
Definition demo_world : world := mkworld {[ [0%nat; 1%nat] := mkproc (Prog [[99]]) demo_fds 0 0 ]} demo_launched false [].

Lemma demo_run : events (session 20 demo_text demo_fds) demo_events = Some demo_world.
Proof. vm_compute. reflexivity. Qed.

Lemma shell_session_witness :
  exists t', sublist t' demo_text /\ (length t' + 5 = length demo_text)%nat /\
  demo_launched ≡ₚ session_jobs (commands 20 t') demo_fds 0 /\
  (exists pre b, [0%nat; 1%nat] = pre ++ b /\ b ∈ session_background (commands 20 t') 0).
Proof.
  destruct (shell_session demo_text demo_fds 20 demo_events demo_world demo_standard ltac:(vm_compute; lia) demo_run) as (t' & Hs & Hn & _ & _ & _ & H).
  exists t'. split; [exact Hs |]. split; [exact Hn |]. destruct (H eq_refl) as [H1 H2]. split.
  - apply H1. intros q p code Hq Hst. cbn [demo_world procs] in Hq. apply lookup_singleton_Some in Hq as [_ <-]. discriminate Hst.
  - apply H2; [reflexivity | by eexists].
Defined.

(** A [cd] that ends the input without a newline loses the last character of its path. *)
Example cd_at_eof : (let buf := cut0 (next_line (bytes "cd dir")) in (is_cd buf, drop 3 (removelast buf))) = (true, bytes "di").
Proof. vm_compute. reflexivity. Qed.
