(* ===== verification/KernMap.v ===== *)
(** * KernMap: the kernel's page table, [kvmmake] of [kernel/vm.c]

    A kernel with enough free pages builds its page table without running out of memory: [walk]
    takes at most two pages for a range of 2 megabytes ([map_range]), which bounds what each
    [kvmmap] takes.  The table is described by a list of segments ([mapped_as]): every page of a
    segment is translated as it says and every other address is not mapped, which includes
    the guard pages between the kernel stacks.

    The theorem ([kernel_map_built]): after [kinit], [kvmmake] returns the table with the
    layout of [memlayout.h]. *)

From stdpp Require Import base list sets strings.
From Stdlib Require Import ZArith Lia.
From S2P Require Import Prelude Riscv Mem Kalloc Vm PageTable.

(** ** Definitions *)

Record seg : Type := mkseg { sva : Z; ssz : Z; spa : Z; sperm : Z }.

Definition covers (g : seg) (va : Z) : bool := (sva g <=? va) && (va <? sva g + ssz g).

Fixpoint seg_pte (segs : list seg) (va : Z) : Z :=
  match segs with
  | [] => 0
  | g :: l => if covers g va then mk_pte (spa g + (va - sva g)) (sperm g) else seg_pte l va
  end.

Definition mapped_as (m : mem) (r : Z) (segs : list seg) : Prop :=
  forall va, va_ok va -> leaf m r va = seg_pte segs va.

(** The layout of [memlayout.h], last mapped first. *)
Definition kernel_layout `{I : Image} : list seg :=
  [ mkseg TRAMPOLINE PGSIZE trampoline (Z.lor PTE_R PTE_X);
    mkseg etext (PHYSTOP - etext) etext (Z.lor PTE_R PTE_W);
    mkseg KERNBASE (etext - KERNBASE) KERNBASE (Z.lor PTE_R PTE_X);
    mkseg PLIC 0x400000 PLIC (Z.lor PTE_R PTE_W);
    mkseg VIRTIO0 PGSIZE VIRTIO0 (Z.lor PTE_R PTE_W);
    mkseg UART0 PGSIZE UART0 (Z.lor PTE_R PTE_W) ].

Definition stack_seg (i p : Z) : seg := mkseg (KSTACK i) PGSIZE p (Z.lor PTE_R PTE_W).

(** The stacks in the pages [ps], from number [i] on, on top of [segs]. *)
Fixpoint stack_segs (i : Z) (ps : list Z) (segs : list seg) : list seg :=
  match ps with
  | [] => segs
  | p :: ps' => stack_segs (i + 1) ps' (stack_seg i p :: segs)
  end.

(** The 2-megabyte range of an address: one table of the last level. *)
Definition region (va : Z) : Z := va / 2 ^ 21.

(** Conditions of segments an address is not in. *)
Ltac no_cover :=
  repeat match goal with |- context [(?a <=? ?b) && (?c <? ?d)] =>
    replace ((a <=? b) && (c <? d)) with false by (symmetry; apply andb_false_iff; rewrite Z.leb_gt, Z.ltb_ge; lia) end.

(** A budget that does not depend on the image. *)
Ltac fixed_budget :=
  match goal with |- ?x <= _ => let y := eval vm_compute in x in change x with y end; lia.

Section Facts.
Context `{I : Image} {Iok : ImageOk I}.

(** ** [walk] within a budget *)

Lemma path_of_region a b : region a = region b -> path_of a = path_of b.
Proof.
  unfold region. intros E. unfold path_of. rewrite !PX_eq by lia.
  change (2 ^ (12 + 9 * 2)) with (2 ^ 21 * 2 ^ 9). change (2 ^ (12 + 9 * 1)) with (2 ^ 21).
  by rewrite <- !Z.div_div, E by lia.
Qed.

Lemma walk_loop_budget roots l va r a s fl :
  alloc_inv s fl -> pt_wf (mem_of s) roots fl -> r ∈ roots -> (l <= 2)%nat -> (l <= length fl)%nat ->
  node (mem_of s) r (take (2 - l) (path_of va)) = Some a ->
  exists t s' fl', walk_loop l a va true s = Ok (t + 8 * PX 0 va, s') /\ ext roots s fl s' fl' /\
    same_leaves roots (mem_of s) (mem_of s') /\ node (mem_of s') r (path_of va) = Some t /\
    (length fl <= length fl' + l)%nat.
Proof.
  revert a s fl. induction l as [|l IH]; intros a s fl Hi Hwf Hr Hl Hb Ha.
  { exists a, s, fl. split_and!; [done | by apply ext_refl | done | done | lia]. }
  simpl walk_loop. unfold ld64. mrun. set (j := PX (Z.of_nat (S l)) va) in *.
  pose proof (path_step l va ltac:(lia)) as Hstep.
  destruct has eqn:Hv.
  { destruct (IH (PTE2PA (load64 (mem_of s) (a + 8 * j))) s fl) as (t & s' & fl' & H1 & H2 & H3 & H4 & H5);
      try done; [lia | lia | rewrite Hstep, node_snoc, Ha; cbv zeta; fold j; by rewrite Hv |].
    exists t, s', fl'. split_and!; try done. lia. }
  simpl negb. cbv iota. destruct fl as [|p fl1]; [cbn in Hb; lia |]. destruct (kalloc_cons _ _ _ Hi) as [Hk _].
  assert (valid_page p) as Hp by (apply inv_valid in Hi; by apply Forall_cons in Hi as [? _]).
  mrun with Hk. destruct (Z.eqb_spec p 0); [by apply valid_page_bounds in Hp; lia |].
  unfold do_memset, st64. mrun.
  destruct (linked_ext roots s p fl1 r (take (2 - S l) (path_of va)) a j) as (He & Hsl & Hn);
    try done; [apply path_ok_take | rewrite length_take; simpl; lia | apply PX_range; lia |].
  change (set_mem _ (set_mem _ (popped p s))) with (linked p a j s).
  destruct (IH p (linked p a j s) fl1) as (t & s' & fl' & H1 & H2 & H3 & H4 & H5);
    try done; [apply He | apply He | lia | cbn in Hb; lia | by rewrite Hstep |].
  exists t, s', fl'. split_and!; [done | by eapply ext_trans | | done | cbn; lia].
  intros r' va' Hr'. by rewrite H3, Hsl.
Qed.

(** What is left on the free list is enough for one more page. *)
Definition ready (s : vm) (fl : list Z) (r va : Z) (need : Z) : Prop :=
  (exists t, node (mem_of s) r (path_of va) = Some t) /\ need <= Z.of_nat (length fl) \/
  need + 2 <= Z.of_nat (length fl).

Lemma map_page roots f r a last pa perm s fl need :
  alloc_inv s fl -> pt_wf (mem_of s) roots fl -> r ∈ roots -> va_ok a -> 0 <= need -> ready s fl r a need ->
  has (leaf (mem_of s) r a) PTE_V = false -> 0 <= pa < 2 ^ 56 -> 0 <= perm < 1024 ->
  exists s' fl', ext roots s fl s' fl' /\
    mappages_loop (S f) r a last pa perm s =
      (if a =? last then Ok (0, s') else mappages_loop f r (u64 (a + PGSIZE)) last (u64 (pa + PGSIZE)) perm s') /\
    leaf (mem_of s') r a = mk_pte pa perm /\
    (forall va, va_ok va -> va <> a -> leaf (mem_of s') r va = leaf (mem_of s) r va) /\
    (exists t, node (mem_of s') r (path_of a) = Some t) /\ need <= Z.of_nat (length fl').
Proof.
  intros Hi Hwf Hr Ha Hn Hrdy Hv Hpa Hperm. pose proof Ha as [[_ Hlt] _].
  assert (exists t s1 fl1, walk r a true s = Ok (t + 8 * PX 0 a, s1) /\ ext roots s fl s1 fl1 /\
    same_leaves roots (mem_of s) (mem_of s1) /\ node (mem_of s1) r (path_of a) = Some t /\
    need <= Z.of_nat (length fl1)) as (t & s1 & fl1 & Hw & He & Hsl & Ht & Hb).
  { destruct Hrdy as [[[t Ht] Hb]|Hb].
    - exists t, s, fl. rewrite (walk_valid roots fl r a t) by done. unfold slot. rewrite Ht.
      split_and!; try done. by apply ext_refl.
    - destruct (walk_loop_budget roots 2 a r r s fl) as (t & s1 & fl1 & Hw & He & Hsl & Ht & Hb2); try done; [lia |].
      exists t, s1, fl1. split_and!; try done; [| lia]. unfold walk. by destruct (Z.leb_spec MAXVA a); [lia |]. }
  pose proof (PX_range 0 a ltac:(lia)) as HP.
  destruct (slot_nonzero _ _ _ _ _ _ (ext_wf _ _ _ _ _ He) Hr Ht) as (Hsl0 & Hnz & Hvt).
  rewrite Hsl0 in Hnz.
  assert (load64 (mem_of s1) (t + 8 * PX 0 a) = leaf (mem_of s) r a) as Hld.
  { rewrite <- (Hsl r a Hr). unfold leaf. by rewrite Ht. }
  destruct (set_pte_ext roots s1 fl1 r a t (Z.lor (Z.lor (PA2PTE pa) (u64 perm)) PTE_V))
    as (He2 & Hl2 & Hlo2 & _ & Hn2); try done; try apply He.
  rewrite mk_pte_u64 in Hl2 by done.
  eexists _, fl1. split; [by eapply ext_trans |]. split_and!.
  - simpl mappages_loop. rewrite (bind_ok _ _ _ _ _ Hw).
    destruct (Z.eqb_spec (t + 8 * PX 0 a) 0); [done |]. unfold ld64, st64. mrun.
    rewrite Hld, Hv. mrun. by destruct (a =? last).
  - done.
  - intros va Hva Hne. rewrite Hlo2; [by apply Hsl | done | done | congruence].
  - by exists t.
  - done.
Qed.

Lemma region_next a : region (a + PGSIZE) = region a \/ region (a + PGSIZE) = region a + 1.
Proof.
  unfold region, PGSIZE. pose proof (Z.div_mod a (2 ^ 21)). pose proof (Z.mod_pos_bound a (2 ^ 21)).
  pose proof (Z.div_mod (a + 4096) (2 ^ 21)). pose proof (Z.mod_pos_bound (a + 4096) (2 ^ 21)). lia.
Qed.

Lemma region_mono a b : a <= b -> region a <= region b.
Proof. intros. apply Z.div_le_mono; lia. Qed.

(** A range of pages; [k] free pages are left at least. *)
Lemma map_range roots r perm last k n : forall pa f a s fl,
  alloc_inv s fl -> pt_wf (mem_of s) roots fl -> r ∈ roots -> va_ok a ->
  0 <= pa -> pa + Z.of_nat n * PGSIZE < 2 ^ 56 -> 0 <= perm < 1024 ->
  last = a + Z.of_nat n * PGSIZE -> last < MAXVA -> (n < f)%nat ->
  (forall va, va_ok va -> a <= va <= last -> has (leaf (mem_of s) r va) PTE_V = false) ->
  0 <= k -> ready s fl r a (2 * (region last - region a) + k) ->
  exists s' fl',
    mappages_loop f r a last pa perm s = Ok (0, s') /\ ext roots s fl s' fl' /\
    (forall va, va_ok va -> ~ (a <= va <= last) -> leaf (mem_of s') r va = leaf (mem_of s) r va) /\
    (forall va, va_ok va -> a <= va <= last -> leaf (mem_of s') r va = mk_pte (pa + (va - a)) perm) /\
    k <= Z.of_nat (length fl').
Proof.
  induction n as [|n IH]; intros pa f a s fl Hi Hwf Hr Ha Hpa Hpa2 Hperm Hlast Hlt Hf Hfree Hk Hrdy;
    (destruct f as [|f]; [lia |]);
    pose proof (region_mono a last ltac:(unfold PGSIZE in *; lia)) as Hreg;
    (destruct (map_page roots f r a last pa perm s fl (2 * (region last - region a) + k))
      as (s1 & fl1 & He & Heq & Hl & Hlo & [t Ht] & Hb); try done;
      [lia | apply Hfree; [done | unfold PGSIZE in *; lia] | unfold PGSIZE in *; lia |]); rewrite Heq.
  - replace last with a in * by lia. rewrite Z.eqb_refl. exists s1, fl1.
    split_and!; try done; [intros; apply Hlo; [done | lia] | | lia].
    intros va Hva ?. replace va with a by lia. by rewrite Z.sub_diag, Z.add_0_r.
  - destruct (Z.eqb_spec a last); [unfold PGSIZE in *; lia |].
    rewrite !u64_small by (unfold_consts; destruct Ha; lia).
    pose proof (va_ok_next a Ha ltac:(unfold PGSIZE in *; lia)) as Ha'.
    destruct (IH (pa + PGSIZE) f (a + PGSIZE) s1 fl1) as (s2 & fl2 & Hrun & He2 & Hout & Hmap & Hb2);
      try apply He; try done; try (unfold PGSIZE in *; lia).
    { intros va Hva Hin. rewrite Hlo; [apply Hfree; [done | unfold PGSIZE in *; lia] | done |].
      intros ->. unfold PGSIZE in *. lia. }
    { destruct (region_next a) as [E|E].
      - left. rewrite E, (path_of_region _ _ E). split; [by exists t | done].
      - right. rewrite E. lia. }
    exists s2, fl2. split_and!; [done | by eapply ext_trans | | | done].
    + intros va Hva Hne. rewrite Hout; [apply Hlo; [done |] | done |]; intros; unfold PGSIZE in *; lia.
    + intros va Hva Hin. destruct (Z.eq_dec va a) as [->|Hne].
      * rewrite Hout, Hl, Z.sub_diag, Z.add_0_r; try done. unfold PGSIZE. lia.
      * pose proof (va_ok_gap a va Ha Hva ltac:(lia)). rewrite Hmap by (done || lia). f_equal. lia.
Qed.

(** ** The state while the kernel's table is built *)

(** [stk]: the pages given out as kernel stacks. *)
Record kinv (r : Z) (segs : list seg) (stk : list Z) (s : vm) (fl : list Z) : Prop := {
  ki_alloc : alloc_inv s fl;
  ki_wf : pt_wf (mem_of s) [r] fl;
  ki_map : mapped_as (mem_of s) r segs;
  ki_nodup : NoDup stk;
  ki_stk : forall p, p ∈ stk -> valid_page p /\ (p ∉ fl) /\ ~ is_table (mem_of s) [r] p;
}.

(** A segment of whole pages. *)
Definition seg_ok (g : seg) : Prop :=
  0 <= sva g /\ sva g mod PGSIZE = 0 /\ ssz g mod PGSIZE = 0 /\ 0 < ssz g /\ sva g + ssz g <= MAXVA /\
  0 <= spa g /\ spa g + ssz g < 2 ^ 55 /\ 0 <= sperm g < 1024.

Definition seg_last (g : seg) : Z := sva g + ssz g - PGSIZE.

Lemma seg_pages g : seg_ok g ->
  exists n, ssz g = Z.of_nat (S n) * PGSIZE /\ PGROUNDDOWN (sva g) = sva g /\
    PGROUNDDOWN (u64 (sva g + ssz g - 1)) = seg_last g /\ va_ok (sva g) /\
    (forall va, va_ok va -> covers g va = true <-> sva g <= va <= seg_last g).
Proof.
  intros (H0 & Ha & Hs & Hp & He & _). unfold seg_last, va_ok, covers. unfold_consts. rewrite !PGROUNDDOWN_eq. unfold PGSIZE.
  pose proof (Z.div_mod (ssz g) 4096). pose proof (Z.div_mod (sva g) 4096).
  exists (Z.to_nat (ssz g / 4096 - 1)). rewrite u64_small by lia. split_and!; try lia.
  - replace (sva g + ssz g - 1) with (4095 + (sva g / 4096 + ssz g / 4096 - 1) * 4096) by lia.
    rewrite Z.mod_add by lia. change (4095 mod 4096) with 4095. lia.
  - intros va [_ Hva]. pose proof (Z.div_mod va 4096). rewrite andb_true_iff, Z.leb_le, Z.ltb_lt. lia.
Qed.

Lemma kvmmap_adds r segs stk s fl g k :
  kinv r segs stk s fl -> seg_ok g -> (forall va, va_ok va -> covers g va = true -> seg_pte segs va = 0) ->
  0 <= k -> 2 * (region (seg_last g) - region (sva g)) + 2 + k <= Z.of_nat (length fl) ->
  exists s' fl', kvmmap r (sva g) (spa g) (ssz g) (sperm g) s = Ok (tt, s') /\
    kinv r (g :: segs) stk s' fl' /\ k <= Z.of_nat (length fl').
Proof.
  intros [Hi Hwf Hm Hnd Hst] Hg Hdis Hk Hb. destruct (seg_pages g Hg) as (n & Hn & Ea & El & Hva & Hcov).
  destruct Hg as (H0 & Ha & Hs & Hp & He & Hpa & Hpa2 & Hperm).
  destruct (map_range [r] r (sperm g) (seg_last g) k n (spa g) (mappages_fuel (sva g) (seg_last g)) (sva g) s fl)
    as (s' & fl' & Hrun & He' & Hout & Hmap & Hb'); try done.
  - set_solver.
  - unfold PGSIZE in *. lia.
  - unfold seg_last. unfold PGSIZE in *. lia.
  - unfold seg_last. unfold_consts. lia.
  - unfold mappages_fuel, seg_last. destruct (Z.ltb_spec (sva g + ssz g - PGSIZE) (sva g)); [unfold PGSIZE in *; lia |].
    replace (sva g + ssz g - PGSIZE - sva g) with (Z.of_nat n * PGSIZE) by (rewrite Hn; lia).
    rewrite Z.div_mul by (unfold PGSIZE; lia). lia.
  - intros va Hv Hin. rewrite Hm by done. rewrite Hdis; [done | done | by apply Hcov].
  - right. lia.
  - exists s', fl'. split_and!; [| | done].
    + unfold kvmmap, mappages. destruct (Z.eqb_spec (ssz g) 0); [lia |]. cbv zeta. rewrite Ea, El.
      by rewrite (bind_ok _ _ _ _ _ Hrun).
    + split; try apply He'; try done.
      * intros va Hv. cbn [seg_pte]. destruct (covers g va) eqn:Ec.
        -- rewrite Hmap; [done | done | by apply Hcov].
        -- rewrite Hout; [by apply Hm | done |]. intros Hin. apply Hcov in Hin; [congruence | done].
      * intros p Hps. destruct (Hst p Hps) as (H1 & H2 & H3). split_and!; [done | |].
        -- intros Hin. by eapply ext_fl in Hin.
        -- intros [?|?]%(ext_tables _ _ _ _ _ He'); done.
Qed.

(** A page taken for a kernel stack. *)
Lemma stack_page r segs stk s p fl :
  kinv r segs stk s (p :: fl) -> kalloc s = Ok (p, popped p s) /\ p <> 0 /\ kinv r segs (p :: stk) (popped p s) fl.
Proof.
  intros [Hi Hwf Hm Hnd Hst]. destruct (kalloc_cons _ _ _ Hi) as [Hk Hi'].
  assert (valid_page p) as Hp by (apply inv_valid in Hi; by apply Forall_cons in Hi as [? _]).
  assert (p ∉ fl) as Hpn by (apply inv_nodup in Hi; by apply NoDup_cons in Hi as [? _]).
  assert (forall a, is_table (mem_of s) [r] a -> a ∉ [p]) as Hnt.
  { intros a (r' & q & Hr & Hq & Ha). destruct (wf_page _ _ _ Hwf r' q a) as [_ Hn]; try done. set_solver. }
  destruct (tables_outside [p] (mem_of s) (mem_of (popped p s)) [r] (p :: fl) fl)
    as (Hwf' & Hsl & Htab); try done.
  - apply (same_outside_memset _ _ p 5). set_solver.
  - each.
  - set_solver.
  - split_and!; [done | apply valid_page_bounds in Hp; lia |]. split; try done.
    + intros va Hv. rewrite Hsl by set_solver. by apply Hm.
    + constructor; [| done]. intros Hin. destruct (Hst p Hin) as (_ & Hn & _). set_solver.
    + intros q Hq. apply elem_of_cons in Hq as [->|Hq].
      * split_and!; [done | done |]. intros Ht%Htab%Hnt. set_solver.
      * destruct (Hst q Hq) as (H1 & H2 & H3). split_and!; [done | set_solver |]. by intros ?%Htab.
Qed.

Lemma page_seg_ok va pa perm : va_ok va -> va + PGSIZE <= MAXVA -> 0 <= pa < 2 ^ 54 -> 0 <= perm < 1024 ->
  seg_ok (mkseg va PGSIZE pa perm).
Proof. intros [Hr Ha] He Hp Hf. unfold seg_ok. cbn [sva ssz spa sperm]. unfold_consts. split_and!; done || lia. Qed.

Lemma kstack_ok i : 0 <= i < Z.of_nat NPROC -> va_ok (KSTACK i) /\ KSTACK i + PGSIZE <= TRAMPOLINE - PGSIZE /\ PHYSTOP < KSTACK i.
Proof.
  unfold va_ok, KSTACK, NPROC. unfold_consts. intros Hi. split_and!; try lia.
  replace (274877906944 - 4096 - (i + 1) * 2 * 4096) with ((67108863 - (i + 1) * 2) * 4096) by lia. by rewrite Z.mod_mul.
Qed.

(** One stack after another; each takes a page and at most two tables. *)
Lemma mapstacks_adds r k n : forall i segs stk s fl,
  kinv r segs stk s fl -> 0 <= i -> i + Z.of_nat n <= Z.of_nat NPROC ->
  (forall va, PHYSTOP < va < KSTACK i + PGSIZE -> seg_pte segs va = 0) ->
  0 <= k -> 3 * Z.of_nat n + k <= Z.of_nat (length fl) ->
  exists ps s' fl', proc_mapstacks n i r s = Ok (tt, s') /\ length ps = n /\
    kinv r (stack_segs i ps segs) (rev_append ps stk) s' fl' /\ k <= Z.of_nat (length fl').
Proof.
  induction n as [|n IH]; intros i segs stk s fl Hk Hi Hn Hfree Hk0 Hb.
  { exists [], s, fl. split_and!; [done | done | done | lia]. }
  destruct fl as [|p fl]; [cbn in Hb; lia |]. destruct (stack_page _ _ _ _ _ _ Hk) as (Hka & Hp0 & Hk1).
  assert (valid_page p) as Hp by (apply (ki_stk _ _ _ _ _ Hk1); set_solver).
  destruct (kstack_ok i) as (Hok & Htop & Hbot); [lia |].
  destruct (kvmmap_adds r segs (p :: stk) (popped p s) fl (stack_seg i p) (3 * Z.of_nat n + k))
    as (s2 & fl2 & Hm & Hk2 & Hb2).
  - done.
  - apply page_seg_ok; [done | unfold_consts; lia | apply valid_page_bounds in Hp; unfold_consts; lia | done].
  - intros va Hva Hc. apply Hfree. unfold covers, stack_seg in Hc. cbn [sva ssz] in Hc.
    apply andb_true_iff in Hc as [?%Z.leb_le ?%Z.ltb_lt]. lia.
  - lia.
  - unfold seg_last, stack_seg. cbn [sva ssz]. replace (KSTACK i + PGSIZE - PGSIZE) with (KSTACK i) by lia.
    rewrite Z.sub_diag. cbn [length] in Hb. lia.
  - destruct (IH (i + 1) (stack_seg i p :: segs) (p :: stk) s2 fl2) as (ps & s' & fl' & Hrun & Hl & Hk' & Hb'); try done; try lia.
    { intros va Hva. assert (KSTACK (i + 1) + PGSIZE < KSTACK i) by (unfold KSTACK, PGSIZE; lia).
      cbn [seg_pte]. assert (covers (stack_seg i p) va = false) as ->; [| apply Hfree; unfold PGSIZE in *; lia].
      unfold covers, stack_seg. cbn [sva ssz]. apply andb_false_iff. left. apply Z.leb_gt. lia. }
    exists (p :: ps), s', fl'. split_and!; [| cbn; lia | done | done].
    cbn [proc_mapstacks]. rewrite (bind_ok _ _ _ _ _ Hka). destruct (Z.eqb_spec p 0); [done |].
    cbn [stack_seg sva spa ssz sperm] in Hm. by rewrite (bind_ok _ _ _ _ _ Hm).
Qed.

(** Below each stack there is a page without a translation. *)
Lemma guard_segs ps : forall i segs va,
  (forall j, i <= j < i + Z.of_nat (length ps) -> covers (stack_seg j 0) va = false) ->
  seg_pte (stack_segs i ps segs) va = seg_pte segs va.
Proof.
  induction ps as [|p ps IH]; intros i segs va H; [done |]. cbn [stack_segs]. rewrite IH.
  - cbn [seg_pte]. assert (covers (stack_seg i p) va = false) as ->; [apply (H i); cbn; lia | done].
  - intros j Hj. apply H. cbn. lia.
Qed.

Lemma guard_unmapped i ps : 0 <= i < Z.of_nat NPROC -> length ps = NPROC ->
  seg_pte (stack_segs 0 ps kernel_layout) (KSTACK i - PGSIZE) = 0.
Proof.
  intros Hi Hl. pose proof etext_range. pose proof kernel_end_range. unfold NPROC in *. rewrite guard_segs.
  - cbn [seg_pte kernel_layout]. unfold covers. cbn [sva ssz]. unfold KSTACK, PLIC, VIRTIO0, UART0 in *. unfold_consts. no_cover. done.
  - intros j Hj. unfold covers, stack_seg. cbn [sva ssz]. unfold KSTACK. unfold_consts. no_cover. done.
Qed.

Lemma length_pages_down n p acc : length (pages_down n p acc) = (n + length acc)%nat.
Proof. revert p acc. induction n as [|n IH]; intros p acc; [done |]. cbn [pages_down]. rewrite IH. cbn. lia. Qed.

(** The root of the table: the first free page, cleared. *)
Lemma root_page s p fl : alloc_inv s (p :: fl) ->
  exists s', (let! k := kalloc in do! do_memset k 0 PGSIZE in ret k) s = Ok (p, s') /\ kinv p [] [] s' fl.
Proof.
  intros Hi. destruct (uvmcreate_spec [] s p fl Hi) as (s' & Hu & Hi' & Hwf & _ & Hl & _); [split; intros; set_solver |].
  destruct (kalloc_cons _ _ _ Hi) as [Hk _]. unfold uvmcreate in Hu. rewrite (bind_ok _ _ _ _ _ Hk) in Hu.
  assert (valid_page p) as Hp by (apply inv_valid in Hi; by apply Forall_cons in Hi as [? _]).
  destruct (Z.eqb_spec p 0); [apply valid_page_bounds in Hp; lia |].
  exists s'. split; [by rewrite (bind_ok _ _ _ _ _ Hk) |]. split; try done.
  - intros va _. by rewrite Hl.
  - constructor.
  - intros q Hq. by apply elem_of_nil in Hq.
Qed.

(** The segments before the stacks are apart, and each is a range of whole pages. *)
Lemma layout_step r n g segs stk s fl k :
  kinv r segs stk s fl -> drop n kernel_layout = g :: segs -> (n < 6)%nat -> kernel_end < PHYSTOP ->
  0 <= k -> 2 * (region (seg_last g) - region (sva g)) + 2 + k <= Z.of_nat (length fl) ->
  exists s' fl', kvmmap r (sva g) (spa g) (ssz g) (sperm g) s = Ok (tt, s') /\
    kinv r (g :: segs) stk s' fl' /\ k <= Z.of_nat (length fl').
Proof.
  intros Hk Hd Hn He Hk0 Hb. pose proof etext_range. pose proof etext_aligned as Hal. pose proof trampoline_range.
  assert (exists q, etext = q * 4096) as [q Eq] by (exists (etext / 4096); pose proof (Z.div_mod etext 4096); unfold PGSIZE in Hal; lia).
  apply (kvmmap_adds r segs stk s fl g k Hk); [| | done | done]; clear Hk Hb Hal.
  - destruct n as [|[|[|[|[|[|n]]]]]]; [.. | lia]; cbn [drop kernel_layout] in Hd; injection Hd as <- _;
      unfold seg_ok; cbn [sva ssz spa sperm]; unfold_consts; split_and!; try done; try lia; rewrite Eq; try (apply Z.mod_mul; lia).
    + replace (2147483648 + 128 * 1024 * 1024 - q * 4096) with ((557056 - q) * 4096) by lia. by apply Z.mod_mul.
    + replace (q * 4096 - 2147483648) with ((q - 524288) * 4096) by lia. by apply Z.mod_mul.
  - intros va _ Hc. destruct n as [|[|[|[|[|[|n]]]]]]; [.. | lia]; cbn [drop kernel_layout] in Hd; injection Hd as <- <-;
      unfold covers in Hc; cbn [sva ssz] in Hc; apply andb_true_iff in Hc as [H1%Z.leb_le H2%Z.ltb_lt];
      cbn [seg_pte]; unfold covers; cbn [sva ssz]; unfold PLIC, VIRTIO0, UART0 in *; unfold_consts;
      no_cover; done.
Qed.

(** From the table's root to its stacks. *)
Lemma kvmmake_maps s p fl : alloc_inv s (p :: fl) -> 332 <= Z.of_nat (length fl) ->
  exists s' ps fl', kvmmake s = Ok (p, s') /\ length ps = NPROC /\ kinv p (stack_segs 0 ps kernel_layout) (reverse ps) s' fl'.
Proof.
  intros Hi Hlen.
  assert (kernel_end < PHYSTOP) as He.
  { apply inv_valid in Hi. apply Forall_cons in Hi as [[_ ?] _]. lia. }
  destruct (root_page s p fl Hi) as (s0 & Hroot & K0).
  pose proof etext_range. pose proof kernel_end_range.
  assert (region (etext - PGSIZE) <= region etext) as Hr1 by (apply region_mono; unfold PGSIZE; lia).
  assert (region etext <= 1087) as Hr2.
  { change 1087 with (region (PHYSTOP - 1)). apply region_mono. lia. }
  destruct (layout_step p 5 _ _ _ _ _ 330 K0 eq_refl) as (s1 & fl1 & H1 & K1 & B1); [lia | done | lia | fixed_budget |].
  destruct (layout_step p 4 _ _ _ _ _ 328 K1 eq_refl) as (s2 & fl2 & H2 & K2 & B2); [lia | done | lia | fixed_budget |].
  destruct (layout_step p 3 _ _ _ _ _ 324 K2 eq_refl) as (s3 & fl3 & H3 & K3 & B3); [lia | done | lia | fixed_budget |].
  destruct (layout_step p 2 _ _ _ _ _ (194 + 2 * (1087 - region etext) + 2) K3 eq_refl) as (s4 & fl4 & H4 & K4 & B4); [lia | done | lia | |].
  { unfold seg_last. cbn [sva ssz]. replace (KERNBASE + (etext - KERNBASE) - PGSIZE) with (etext - PGSIZE) by lia.
    change (region KERNBASE) with 1024. lia. }
  destruct (layout_step p 1 _ _ _ _ _ 194 K4 eq_refl) as (s5 & fl5 & H5 & K5 & B5); [lia | done | lia | |].
  { unfold seg_last. cbn [sva ssz]. replace (etext + (PHYSTOP - etext) - PGSIZE) with (PHYSTOP - PGSIZE) by lia.
    change (region (PHYSTOP - PGSIZE)) with 1087. lia. }
  destruct (layout_step p 0 _ _ _ _ _ 192 K5 eq_refl) as (s6 & fl6 & H6 & K6 & B6); [lia | done | lia | fixed_budget |].
  destruct (mapstacks_adds p 0 NPROC 0 _ _ _ _ K6) as (ps & s7 & fl7 & H7 & Hl & K7 & _); [lia | done | | lia | unfold NPROC; lia |].
  { intros va Hva. cbn [seg_pte]. unfold covers. cbn [sva ssz]. unfold KSTACK, PLIC, VIRTIO0, UART0 in *. unfold_consts. no_cover. done. }
  exists s7, ps, fl7. split_and!; [| done | exact K7].
  unfold kvmmake. cbn [sva ssz spa sperm] in *.
  destruct (kalloc_cons _ _ _ Hi) as [Hk _]. rewrite (bind_ok _ _ _ _ _ Hk) in Hroot. rewrite (bind_ok _ _ _ _ _ Hk).
  apply bind_Ok_inv in Hroot as ([] & s0' & Hms & [= <-]). rewrite (bind_ok _ _ _ _ _ Hms).
  by rewrite (bind_ok _ _ _ _ _ H1), (bind_ok _ _ _ _ _ H2), (bind_ok _ _ _ _ _ H3), (bind_ok _ _ _ _ _ H4),
    (bind_ok _ _ _ _ _ H5), (bind_ok _ _ _ _ _ H6), (bind_ok _ _ _ _ _ H7).
Qed.

(** C10: on a machine with 333 free pages after the kernel, [kinit] followed by [kvmmake] returns
    (it never panics) a table that is a tree and in which exactly the following is mapped: the
    registers of the UART, of the disk and of the interrupt controller, the kernel's text
    (read and execute only), the rest of memory up to [PHYSTOP] (not executable), each at its own
    address, the trampoline at the top, and below it 64 stacks in pages of their own, which are
    neither tables nor free, with an unmapped page below each. *)
Theorem kernel_map_built (m : mem) (Hroom : 333 * PGSIZE <= PHYSTOP - PGROUNDUP kernel_end) :
  exists r s stacks fl, (do! kinit in kvmmake) (boot_vm m) = Ok (r, s) /\
    alloc_inv s fl /\ pt_wf (mem_of s) [r] fl /\
    length stacks = NPROC /\ mapped_as (mem_of s) r (stack_segs 0 stacks kernel_layout) /\
    (forall i, 0 <= i < Z.of_nat NPROC -> leaf (mem_of s) r (KSTACK i - PGSIZE) = 0) /\
    NoDup stacks /\ (forall p, p ∈ stacks -> valid_page p /\ (p ∉ fl) /\ ~ is_table (mem_of s) [r] p).
Proof.
  destruct (kinit_ok m) as (s0 & Hk & Hi & _). set (n := Z.to_nat _) in Hi.
  assert (333 <= Z.of_nat n) as Hn.
  { unfold n. rewrite Z2Nat.id; [apply Z.div_le_lower_bound; unfold PGSIZE in *; lia | apply Z.div_pos; unfold PGSIZE in *; lia]. }
  destruct (pages_down n _ _) as [|p fl] eqn:E; apply (f_equal length) in E; rewrite length_pages_down in E; cbn in E; [lia |].
  destruct (kvmmake_maps s0 p fl Hi) as (s & ps & fl' & Hm & Hl & K); [lia |].
  exists p, s, ps, fl'. split_and!; try apply K; try done.
  - by rewrite (bind_ok _ _ _ _ _ Hk).
  - intros i Hir. destruct (kstack_ok i Hir) as ([Hr Hal] & Htop & Hbot).
    assert (KSTACK i - PGSIZE = PGSIZE * (KSTACK i / PGSIZE - 1)) as Ed.
    { pose proof (Z.div_mod (KSTACK i) PGSIZE ltac:(done)). lia. }
    rewrite (ki_map _ _ _ _ _ K); [by apply guard_unmapped |].
    split; [unfold_consts; lia | rewrite Ed, Z.mul_comm; by apply Z.mod_mul].
  - pose proof (ki_nodup _ _ _ _ _ K) as Hnd. by rewrite reverse_Permutation in Hnd.
  - intros q Hq. apply (ki_stk _ _ _ _ _ K). by rewrite reverse_Permutation.
Qed.

End Facts.

(** ** Witness *)

(** A kernel that occupies 40 pages. *)
Definition real_image : Image := {|
  kernel_end := KERNBASE + 40 * PGSIZE;
  etext := KERNBASE + 8 * PGSIZE;
  trampoline := KERNBASE + 7 * PGSIZE;
|}.

#[export] Instance real_image_ok : ImageOk real_image.
Proof. split; cbn; unfold_consts; done || lia. Qed.

(** Its table maps a page of text without write permission, and no page at address 0. *)
Lemma kernel_map_built_witness :
  exists r s, (do! kinit (I := real_image) in kvmmake (I := real_image)) (boot_vm zero_mem) = Ok (r, s) /\
    leaf (mem_of s) r KERNBASE = mk_pte KERNBASE (Z.lor PTE_R PTE_X) /\ leaf (mem_of s) r 0 = 0.
Proof.
  destruct (kernel_map_built (I := real_image) zero_mem) as (r & s & ps & fl & Hrun & _ & _ & Hl & Hm & _); [vm_compute; done |].
  exists r, s. split; [exact Hrun |].
  rewrite !Hm by (split; [unfold_consts; lia | done]).
  rewrite !guard_segs; [split; reflexivity | ..]; intros j Hj; rewrite Hl in Hj; unfold NPROC in Hj;
    unfold covers, stack_seg; cbn [sva ssz]; unfold KSTACK; unfold_consts; no_cover; done.
Defined.
