(* ===== verification/Hart.v ===== *)
(** * Hart: the control registers of a hart, [kernel/riscv.h], [kernel/start.c]

    A hart is the record of its control registers with the registers the code below names.
    The accessors [r_x]/[w_x] of [riscv.h] are its operations.  Three of the supervisor registers
    are windows on machine registers: [sstatus] shows the part of [mstatus] in [sstatus_mask],
    [sie] and [sip] show the bits of [mie] and [mip] that are delegated.  Which bits an
    implementation lets software delegate is a parameter ([HartSpec]); its laws ([HartSpecOk])
    are those of the privileged architecture, and [virt_hart] is the machine the kernel runs on.
    Other read-only fields are not modelled: a register keeps what is written to it.

    [start] is run in machine mode by every hart and ends in [mret]; [timervec] is the handler it
    installs ([kernelvec.S]).  The memory the code addresses directly (the words of the CLINT and
    the scratch areas) is a map from addresses to words.

    The theorem and the lemma: [start] leaves the hart in [main] in supervisor mode, with machine timer
    interrupts going to [timervec] and every other interrupt to the supervisor
    ([start_enters_main]); each timer interrupt is turned into one software interrupt and arms
    the next ([timer_irq]). *)

From stdpp Require Import base list sets strings.
From Stdlib Require Import ZArith Lia.
From S2P Require Import Prelude Riscv Proc.

(** ** Registers *)

Inductive priv : Type := PUser | PSupervisor | PMachine.

#[export] Instance priv_eq_dec : EqDecision priv.
Proof. solve_decision. Defined.

Inductive reg : Type :=
  | mhartid | mstatus | mepc | medeleg | mideleg | mie | mip | mtvec | mscratch
  | pmpcfg0 | pmpaddr0 | mcounteren | satp | stvec | sepc | scause | stval | time
  | sp | tp | ra | a0 | a1 | a2 | a3.

#[export] Instance reg_eq_dec : EqDecision reg.
Proof. solve_decision. Defined.

Record hart : Type := mkhart { mode : priv; pc : Z; regs : reg -> Z }.

(** A hart next to the words of memory and devices it addresses. *)
Record board : Type := mkboard { bh : hart; words : Z -> Z }.

Definition set_reg (r : reg) (v : Z) (h : hart) : hart :=
  mkhart (mode h) (pc h) (fun q => if decide (q = r) then v else regs h q).

Definition rd (r : reg) : M board Z := gets (fun b => regs (bh b) r).
Definition wr (r : reg) (v : Z) : M board unit :=
  modify (fun b => mkboard (set_reg r v (bh b)) (words b)).

(** [*(uint64* )a] and [*(uint64* )a = v]; the same at 32 bits. *)
Definition ldw (a : Z) : M board Z := gets (fun b => words b a).
Definition stw (a v : Z) : M board unit :=
  modify (fun b => mkboard (bh b) (fun x => if x =? a then v else words b x)).

(** What an implementation fixes: the bits of [mstatus] seen in [sstatus], and the exceptions and
    interrupts that can be delegated. *)
Class HartSpec : Type := {
  sstatus_mask : Z;
  exc_delegable : Z;
  int_delegable : Z;
}.

Definition MSTATUS_MPP_MASK : Z := Z.shiftl 3 11.
Definition MSTATUS_MPP_M : Z := Z.shiftl 3 11.
Definition MSTATUS_MPP_S : Z := Z.shiftl 1 11.
Definition MSTATUS_MPP_U : Z := Z.shiftl 0 11.
Definition MSTATUS_MIE : Z := Z.shiftl 1 3.
Definition SSTATUS_SPP : Z := Z.shiftl 1 8.
Definition SSTATUS_SPIE : Z := Z.shiftl 1 5.
Definition SSTATUS_UPIE : Z := Z.shiftl 1 4.
Definition SSTATUS_SIE : Z := Z.shiftl 1 1.
Definition SSTATUS_UIE : Z := Z.shiftl 1 0.
Definition SIE_SEIE : Z := Z.shiftl 1 9.
Definition SIE_STIE : Z := Z.shiftl 1 5.
Definition SIE_SSIE : Z := Z.shiftl 1 1.
Definition MIE_MEIE : Z := Z.shiftl 1 11.
Definition MIE_MTIE : Z := Z.shiftl 1 7.
Definition MIE_MSIE : Z := Z.shiftl 1 3.

(** Two bits of [mstatus] that only [mret] and traps touch here. *)
Definition MSTATUS_MPIE : Z := Z.shiftl 1 7.
Definition MSTATUS_MPRV : Z := Z.shiftl 1 17.

(** The bits of [m] from [x], the others from [y]. *)
Definition window (m x y : Z) : Z := Z.lor (Z.land x m) (Z.land y (Z.lnot m)).

Section Accessors.
Context `{HS : HartSpec}.

Definition r_mhartid : M board Z := rd mhartid.
Definition r_mstatus : M board Z := rd mstatus.
Definition w_mstatus (x : Z) : M board unit := wr mstatus x.
Definition w_mepc (x : Z) : M board unit := wr mepc x.
Definition r_sstatus : M board Z := let! x := rd mstatus in ret (Z.land x sstatus_mask).
Definition w_sstatus (x : Z) : M board unit :=
  let! y := rd mstatus in wr mstatus (window sstatus_mask x y).
Definition r_sip : M board Z :=
  let! x := rd mip in let! d := rd mideleg in ret (Z.land x d).
(** Only the software interrupt can be made pending through [sip]. *)
Definition w_sip (x : Z) : M board unit :=
  let! y := rd mip in let! d := rd mideleg in wr mip (window (Z.land d SIE_SSIE) x y).
Definition r_sie : M board Z :=
  let! x := rd mie in let! d := rd mideleg in ret (Z.land x d).
Definition w_sie (x : Z) : M board unit :=
  let! y := rd mie in let! d := rd mideleg in wr mie (window d x y).
Definition r_mie : M board Z := rd mie.
Definition w_mie (x : Z) : M board unit := wr mie x.
Definition w_sepc (x : Z) : M board unit := wr sepc x.
Definition r_sepc : M board Z := rd sepc.
Definition r_medeleg : M board Z := rd medeleg.
Definition w_medeleg (x : Z) : M board unit := wr medeleg (Z.land x exc_delegable).
Definition r_mideleg : M board Z := rd mideleg.
Definition w_mideleg (x : Z) : M board unit := wr mideleg (Z.land x int_delegable).
Definition w_stvec (x : Z) : M board unit := wr stvec x.
Definition r_stvec : M board Z := rd stvec.
Definition w_mtvec (x : Z) : M board unit := wr mtvec x.
Definition w_pmpcfg0 (x : Z) : M board unit := wr pmpcfg0 x.
Definition w_pmpaddr0 (x : Z) : M board unit := wr pmpaddr0 x.
Definition w_satp (x : Z) : M board unit := wr satp x.
Definition r_satp : M board Z := rd satp.
Definition w_mscratch (x : Z) : M board unit := wr mscratch x.
Definition r_scause : M board Z := rd scause.
Definition r_stval : M board Z := rd stval.
Definition w_mcounteren (x : Z) : M board unit := wr mcounteren x.
Definition r_mcounteren : M board Z := rd mcounteren.
Definition r_time : M board Z := rd time.
Definition intr_on : M board unit := let! x := r_sstatus in w_sstatus (Z.lor x SSTATUS_SIE).
Definition intr_off : M board unit :=
  let! x := r_sstatus in w_sstatus (Z.land x (Z.lnot SSTATUS_SIE)).
Definition intr_get : M board bool := let! x := r_sstatus in ret (has x SSTATUS_SIE).
Definition r_sp : M board Z := rd sp.
Definition r_tp : M board Z := rd tp.
Definition w_tp (x : Z) : M board unit := wr tp x.
Definition r_ra : M board Z := rd ra.

(** [cpuid] of [proc.c]. *)
Definition cpuid : M board Z := let! x := r_tp in ret (i32 x).

(** The instruction [mret]: the mode in [mstatus] and what becomes of it. *)
Definition mpp_mode (x : Z) : priv :=
  if Z.land x MSTATUS_MPP_MASK =? MSTATUS_MPP_M then PMachine
  else if Z.land x MSTATUS_MPP_MASK =? MSTATUS_MPP_S then PSupervisor else PUser.

Definition mret_status (x : Z) : Z :=
  let clr := Z.lor (Z.lor MSTATUS_MPP_MASK (if decide (mpp_mode x = PMachine) then 0 else MSTATUS_MPRV))
               (Z.lor MSTATUS_MIE MSTATUS_MPIE) in
  Z.lor (Z.land x (Z.lnot clr)) (Z.lor (if Z.testbit x 7 then MSTATUS_MIE else 0) MSTATUS_MPIE).

Definition mret : M board unit :=
  modify (fun b =>
    let h := bh b in
    let x := regs h mstatus in
    mkboard (mkhart (mpp_mode x) (regs h mepc) (regs (set_reg mstatus (mret_status x) h))) (words b)).

(** Taking an interrupt in machine mode; its cause is not kept. *)
Definition mtrap_status (from : priv) (x : Z) : Z :=
  let clr := Z.lor MSTATUS_MPP_MASK (Z.lor MSTATUS_MIE MSTATUS_MPIE) in
  let mpp := match from with PUser => MSTATUS_MPP_U | PSupervisor => MSTATUS_MPP_S | PMachine => MSTATUS_MPP_M end in
  Z.lor (Z.land x (Z.lnot clr)) (Z.lor mpp (if Z.testbit x 3 then MSTATUS_MPIE else 0)).

Definition mtrap : M board unit :=
  modify (fun b =>
    let h := bh b in
    let y := mtrap_status (mode h) (regs h mstatus) in
    mkboard (mkhart PMachine (regs h mtvec) (regs (set_reg mepc (pc h) (set_reg mstatus y h)))) (words b)).

(** The mode in which a hart takes interrupt [i] now, if it does. *)
Definition takes (h : hart) (i : Z) : option priv :=
  if Z.testbit (regs h mip) i && Z.testbit (regs h mie) i then
    if Z.testbit (regs h mideleg) i then
      match mode h with
      | PUser => Some PSupervisor
      | PSupervisor => if Z.testbit (regs h mstatus) 1 then Some PSupervisor else None
      | PMachine => None
      end
    else
      match mode h with
      | PMachine => if Z.testbit (regs h mstatus) 3 then Some PMachine else None
      | _ => Some PMachine
      end
  else None.

End Accessors.

(** ** [memlayout.h] *)

Definition CLINT : Z := 0x2000000.
Definition CLINT_MTIMECMP (hartid : Z) : Z := CLINT + 0x4000 + 8 * hartid.
Definition CLINT_MTIME : Z := CLINT + 0xBFF8.
Definition PLIC_PRIORITY : Z := PLIC + 0x0.
Definition PLIC_PENDING : Z := PLIC + 0x1000.
Definition PLIC_MENABLE (hart : Z) : Z := PLIC + 0x2000 + hart * 0x100.
Definition PLIC_SENABLE (hart : Z) : Z := PLIC + 0x2080 + hart * 0x100.
Definition PLIC_MPRIORITY (hart : Z) : Z := PLIC + 0x200000 + hart * 0x2000.
Definition PLIC_SPRIORITY (hart : Z) : Z := PLIC + 0x201000 + hart * 0x2000.
Definition PLIC_MCLAIM (hart : Z) : Z := PLIC + 0x200004 + hart * 0x2000.
Definition PLIC_SCLAIM (hart : Z) : Z := PLIC + 0x201004 + hart * 0x2000.

(** ** [start.c] *)

(** Addresses of the functions and of the array [timer_scratch]. *)
Class BootAddrs : Type := {
  main_addr : Z;
  timervec_addr : Z;
  timer_scratch : Z;
}.

Section Start.
Context `{HS : HartSpec} `{BA : BootAddrs}.

(** [&timer_scratch[id][j]] *)
Definition scratch_of (id j : Z) : Z := timer_scratch + 8 * (5 * id + j).

Definition timerinit : M board unit :=
  let! id := (let! x := r_mhartid in ret (i32 x)) in
  let interval := 1000000 in
  let! now := ldw CLINT_MTIME in
  do! stw (CLINT_MTIMECMP id) (u64 (now + interval)) in
  let scratch := scratch_of id 0 in
  do! stw (scratch + 8 * 3) (CLINT_MTIMECMP id) in
  do! stw (scratch + 8 * 4) interval in
  do! w_mscratch scratch in
  do! w_mtvec timervec_addr in
  do! (let! x := r_mstatus in w_mstatus (Z.lor x MSTATUS_MIE)) in
  let! x := r_mie in w_mie (Z.lor x MIE_MTIE).

Definition start : M board unit :=
  let! x := r_mstatus in
  let x := Z.land x (Z.lnot MSTATUS_MPP_MASK) in
  let x := Z.lor x MSTATUS_MPP_S in
  do! w_mstatus x in
  do! w_mepc main_addr in
  do! w_satp 0 in
  do! w_medeleg 0xffff in
  do! w_mideleg 0xffff in
  do! (let! s := r_sie in w_sie (Z.lor (Z.lor (Z.lor s SIE_SEIE) SIE_STIE) SIE_SSIE)) in
  do! w_pmpaddr0 0x3fffffffffffff in
  do! w_pmpcfg0 0xf in
  do! timerinit in
  let! id := (let! x := r_mhartid in ret (i32 x)) in
  do! w_tp (u64 id) in
  mret.

(** [timervec] of [kernelvec.S], from [csrrw] to [mret]. *)
Definition csrrw (d : reg) (c : reg) : M board unit :=
  let! old := rd c in let! v := rd d in do! wr c v in wr d old.

Definition timervec : M board unit :=
  do! csrrw a0 mscratch in
  let! s := rd a0 in
  do! (let! v := rd a1 in stw s v) in
  do! (let! v := rd a2 in stw (s + 8) v) in
  do! (let! v := rd a3 in stw (s + 16) v) in
  do! (let! v := ldw (s + 24) in wr a1 v) in
  do! (let! v := ldw (s + 32) in wr a2 v) in
  do! (let! p := rd a1 in let! v := ldw p in wr a3 v) in
  do! (let! v := rd a3 in let! w := rd a2 in wr a3 (u64 (v + w))) in
  do! (let! p := rd a1 in let! v := rd a3 in stw p v) in
  do! wr a1 2 in
  do! (let! v := rd a1 in w_sip v) in
  do! (let! v := ldw (s + 16) in wr a3 v) in
  do! (let! v := ldw (s + 8) in wr a2 v) in
  do! (let! v := ldw s in wr a1 v) in
  do! csrrw a0 mscratch in
  mret.

End Start.

(** ** Facts *)

(** What the privileged architecture says of the parameters: the supervisor sees its own interrupt
    bits and not the machine's; machine-level interrupts are not delegated. *)
Class HartSpecOk (HS : HartSpec) : Prop := {
  mask_machine : Forall (fun i => Z.testbit sstatus_mask i = false) [3; 7; 11; 12];
  mask_sie : Forall (fun i => Z.testbit sstatus_mask i = true) [1; 5; 8];
  exc_supervisor : Forall (fun i => Z.testbit exc_delegable i = true) [8; 12; 13; 15];
  int_supervisor : Forall (fun i => Z.testbit int_delegable i = true) [1; 5; 9];
  int_machine : Forall (fun i => Z.testbit int_delegable i = false) [3; 7; 11];
}.

(** The harts of QEMU's virt machine. *)
Definition virt_hart : HartSpec := {|
  sstatus_mask := 0x80000003000DE762;
  exc_delegable := 0xb7ff;
  int_delegable := 0x222;
|}.

Lemma virt_hart_ok : HartSpecOk virt_hart.
Proof. split; repeat constructor. Qed.

Lemma set_reg_same r v h : regs (set_reg r v h) r = v.
Proof. cbn. by rewrite decide_True. Qed.

Lemma set_reg_other r v h q : q <> r -> regs (set_reg r v h) q = regs h q.
Proof. intros. cbn. by rewrite decide_False. Qed.

(** Symbolic execution of code on a board. *)
Lemma bind_rdreg {B} r (k : Z -> M board B) h w : bind (rd r) k (mkboard h w) = k (regs h r) (mkboard h w).
Proof. reflexivity. Qed.

Lemma bind_wrreg {B} r v (k : unit -> M board B) h w :
  bind (wr r v) k (mkboard h w) = k tt (mkboard (set_reg r v h) w).
Proof. reflexivity. Qed.

Definition set_word (a v : Z) (w : Z -> Z) : Z -> Z := fun x => if x =? a then v else w x.

Lemma bind_ldw {B} a (k : Z -> M board B) h w : bind (ldw a) k (mkboard h w) = k (w a) (mkboard h w).
Proof. reflexivity. Qed.

Lemma bind_stw {B} a v (k : unit -> M board B) h w :
  bind (stw a v) k (mkboard h w) = k tt (mkboard h (set_word a v w)).
Proof. reflexivity. Qed.

Lemma wr_run r v h w : wr r v (mkboard h w) = Ok (tt, mkboard (set_reg r v h) w).
Proof. reflexivity. Qed.

Lemma set_word_same a v w : set_word a v w a = v.
Proof. unfold set_word. by rewrite Z.eqb_refl. Qed.

Lemma set_word_other a v w x : x <> a -> set_word a v w x = w x.
Proof. intros. unfold set_word. by rewrite (proj2 (Z.eqb_neq _ _)). Qed.

Create Rewrite HintDb hart.
#[export] Hint Rewrite @bind_assoc @bind_ret @bind_rdreg @bind_wrreg @bind_ldw @bind_stw wr_run set_reg_same : hart.

Ltac hrun := repeat (progress (autorewrite with hart; rewrite ?set_reg_other by discriminate; cbn beta)).

(** Case analysis on a member of a list given by its elements. *)
Ltac elems H t := repeat (apply elem_of_cons in H as [->|H]; [t |]); by apply elem_of_nil in H.

(** Bits of the words the code builds. *)
Lemma testbit_1 n i : 0 <= n -> Z.testbit (Z.shiftl 1 n) i = (n =? i).
Proof. intros. rewrite Z.shiftl_1_l. by rewrite Z.pow2_bits_eqb. Qed.

Lemma MPP_bits i : 0 <= i -> Z.testbit MSTATUS_MPP_MASK i = (11 =? i) || (12 =? i).
Proof.
  intros. change MSTATUS_MPP_MASK with (Z.lor (Z.shiftl 1 11) (Z.shiftl 1 12)).
  by rewrite Z.lor_spec, !testbit_1.
Qed.

Ltac unfold_bits :=
  unfold mret_status, mtrap_status, window, MSTATUS_MPP_U, MSTATUS_MPP_S, MSTATUS_MIE, MSTATUS_MPIE, MSTATUS_MPRV,
    SIE_SEIE, SIE_STIE, SIE_SSIE, MIE_MTIE in *.

(** Reduce [Z.testbit] of a bitwise expression at [i]. *)
Ltac bits :=
  repeat first
    [ rewrite Z.lor_spec | rewrite Z.land_spec | rewrite Z.lnot_spec by lia | rewrite MPP_bits by lia
    | rewrite testbit_1 by lia | rewrite Z.bits_0 ].

Lemma mpp_bits_mode x : mpp_mode x = if Z.testbit x 11 then if Z.testbit x 12 then PMachine else PSupervisor else PUser.
Proof.
  assert (Z.land x MSTATUS_MPP_MASK = Z.lor (if Z.testbit x 11 then Z.shiftl 1 11 else 0)
    (if Z.testbit x 12 then Z.shiftl 1 12 else 0)) as E.
  { apply Z.bits_inj'. intros i Hi. bits.
    destruct (Z.eqb_spec 11 i) as [<-|]; [| destruct (Z.eqb_spec 12 i) as [<-|]];
      destruct (Z.testbit x 11), (Z.testbit x 12); bits; try done; destruct (Z.testbit x i); try done;
      by rewrite ?(proj2 (Z.eqb_neq _ _)). }
  unfold mpp_mode. rewrite E. by destruct (Z.testbit x 11), (Z.testbit x 12).
Qed.

(** Bits of [mstatus] that [mret] and the entry of a machine-mode handler keep. *)
Definition plain_bit (i : Z) : Prop := 0 <= i /\ i <> 3 /\ i <> 7 /\ i <> 11 /\ i <> 12 /\ i <> 17.

Ltac neq_bits := rewrite ?(proj2 (Z.eqb_neq _ _)) by lia; cbn; rewrite ?andb_true_r, ?orb_false_r.

Lemma mret_status_plain x i : plain_bit i -> Z.testbit (mret_status x) i = Z.testbit x i.
Proof.
  intros (Hi & ? & ? & ? & ? & ?). unfold_bits. bits.
  destruct decide, (Z.testbit x 7); bits; by neq_bits.
Qed.

Lemma mtrap_status_plain p x i : plain_bit i -> Z.testbit (mtrap_status p x) i = Z.testbit x i.
Proof.
  intros (Hi & ? & ? & ? & ? & ?). unfold_bits. unfold MSTATUS_MPP_M. bits.
  destruct p, (Z.testbit x 3); change (Z.shiftl 0 11) with 0; change (Z.shiftl 3 11) with MSTATUS_MPP_MASK; bits; by neq_bits.
Qed.

Section StartFacts.
Context `{HS : HartSpec} {HO : HartSpecOk HS} `{BA : BootAddrs}.

(** What [timerinit] leaves for [timervec]. *)
Record timer_ready (id : Z) (b : board) : Prop := {
  tr_mtvec : regs (bh b) mtvec = timervec_addr;
  tr_mscratch : regs (bh b) mscratch = scratch_of id 0;
  tr_cmp : words b (scratch_of id 3) = CLINT_MTIMECMP id;
  tr_interval : words b (scratch_of id 4) = 1000000;
  tr_mideleg : Z.testbit (regs (bh b) mideleg) 1 = true;
}.

(** The words of memory that belong to a hart here. *)
Definition own (id : Z) : list Z := CLINT_MTIMECMP id :: map (scratch_of id) [0; 1; 2; 3; 4].

(** The hart after [start]. *)
Definition started_mstatus (x : Z) : Z :=
  Z.lor (Z.lor (Z.land x (Z.lnot MSTATUS_MPP_MASK)) MSTATUS_MPP_S) MSTATUS_MIE.

Lemma start_run (h : hart) (w : Z -> Z) (id : Z) :
  regs h mhartid = id -> 0 <= id < Z.of_nat NCPU ->
  exists h', start (mkboard h w) =
    Ok (tt, mkboard h' (set_word (scratch_of id 4) 1000000
              (set_word (scratch_of id 3) (CLINT_MTIMECMP id)
                (set_word (CLINT_MTIMECMP id) (u64 (w CLINT_MTIME + 1000000)) w)))) /\
    mode h' = mpp_mode (started_mstatus (regs h mstatus)) /\ pc h' = main_addr /\
    regs h' mstatus = mret_status (started_mstatus (regs h mstatus)) /\
    regs h' mie = Z.lor (window (Z.land 0xffff int_delegable)
        (Z.lor (Z.lor (Z.lor (Z.land (regs h mie) (Z.land 0xffff int_delegable)) SIE_SEIE) SIE_STIE) SIE_SSIE)
        (regs h mie)) MIE_MTIE /\
    regs h' mideleg = Z.land 0xffff int_delegable /\ regs h' medeleg = Z.land 0xffff exc_delegable /\
    regs h' mtvec = timervec_addr /\ regs h' mscratch = scratch_of id 0 /\
    regs h' tp = id /\ regs h' satp = 0 /\ regs h' pmpaddr0 = 0x3fffffffffffff /\ regs h' pmpcfg0 = 0xf.
Proof.
  intros Hid Hr.
  assert (i32 id = id) as Ei by (apply i32_small; unfold NCPU in Hr; lia).
  assert (u64 id = id) as Eu by (apply u64_small; unfold NCPU in Hr; lia).
  eexists. split_and!.
  1: { unfold start, timerinit, r_mstatus, w_mstatus, w_mepc, w_satp, w_medeleg, w_mideleg, r_sie, w_sie,
         w_pmpaddr0, w_pmpcfg0, r_mhartid, r_mie, w_mie, w_tp, w_mscratch, w_mtvec. hrun.
       rewrite Hid, Ei, Eu. unfold mret, modify. cbn [bh words]. hrun.
       replace (scratch_of id 0 + 8 * 4) with (scratch_of id 4) by (unfold scratch_of; lia).
       replace (scratch_of id 0 + 8 * 3) with (scratch_of id 3) by (unfold scratch_of; lia). reflexivity. }
  all: cbn [mode pc regs]; hrun; reflexivity.
Qed.

Lemma bit_of (P : Z -> Prop) l i : Forall P l -> i ∈ l -> P i.
Proof. intros H Hi. by apply (proj1 (Forall_forall _ _) H). Qed.

(** Where the interrupts of a hart that has run [start] go, whatever is pending. *)
Definition routed (sie : bool) (h : hart) : Prop :=
  forall p i, Z.testbit p i = true ->
    (i = 7 -> takes (set_reg mip p h) i = Some PMachine) /\
    (i ∈ [1; 5; 9] -> takes (set_reg mip p h) i = if sie then Some PSupervisor else None).

Lemma deleg_bits i :
  (i ∈ [1; 5; 9] -> Z.testbit (Z.land 0xffff int_delegable) i = true) /\
  (i = 7 -> Z.testbit (Z.land 0xffff int_delegable) i = false).
Proof.
  split; intros Hi.
  - rewrite Z.land_spec, (bit_of _ _ _ int_supervisor Hi). elems Hi ltac:(done).
  - subst. rewrite Z.land_spec, (bit_of _ _ _ int_machine) by set_solver. done.
Qed.

Lemma started_sie x : Z.testbit (mret_status (started_mstatus x)) 1 = Z.testbit x 1.
Proof.
  rewrite mret_status_plain by (unfold plain_bit; lia). unfold started_mstatus. unfold_bits. bits. by neq_bits.
Qed.

Lemma start_routed h h' :
  mode h' = PSupervisor ->
  regs h' mstatus = mret_status (started_mstatus (regs h mstatus)) ->
  regs h' mie = Z.lor (window (Z.land 0xffff int_delegable)
        (Z.lor (Z.lor (Z.lor (Z.land (regs h mie) (Z.land 0xffff int_delegable)) SIE_SEIE) SIE_STIE) SIE_SSIE)
        (regs h mie)) MIE_MTIE ->
  regs h' mideleg = Z.land 0xffff int_delegable ->
  routed (Z.testbit (regs h mstatus) 1) h'.
Proof.
  intros Em Es Ee Ed p i Hp. unfold takes. hrun. rewrite Hp, Ed, Ee, Es.
  change (mode (set_reg mip p h')) with (mode h'). rewrite Em. destruct (deleg_bits i) as [D1 D2].
  split; intros Hi.
  - rewrite D2 by done. subst i. unfold_bits. bits. by rewrite orb_true_r.
  - rewrite D1 by done. set (d := Z.land 65535 int_delegable) in *.
    assert (forall x, Z.testbit (Z.lor (window d (Z.lor (Z.lor (Z.lor x SIE_SEIE) SIE_STIE) SIE_SSIE) (regs h mie)) MIE_MTIE) i = true) as ->.
    { intros x. unfold_bits. bits. rewrite D1 by done.
      elems Hi ltac:(cbn; by rewrite ?orb_true_r). }
    by rewrite started_sie.
Qed.

Lemma started_supervisor x : mpp_mode (started_mstatus x) = PSupervisor.
Proof.
  rewrite mpp_bits_mode. unfold started_mstatus. unfold_bits. bits. cbn.
  by rewrite !andb_false_r, ?orb_true_r.
Qed.

Lemma own_apart id j : 0 <= id < Z.of_nat NCPU -> KERNBASE <= timer_scratch -> 0 <= j < 5 ->
  scratch_of id j <> CLINT_MTIMECMP id.
Proof. unfold NCPU, scratch_of, CLINT_MTIMECMP, CLINT, KERNBASE. lia. Qed.

(** Areas of different harts have no word in common. *)
Lemma own_disjoint i j : 0 <= i < Z.of_nat NCPU -> 0 <= j < Z.of_nat NCPU -> KERNBASE <= timer_scratch -> i <> j ->
  own i ## own j.
Proof.
  unfold NCPU, KERNBASE. intros Hi Hj Hk Hne x Hx Hy. unfold own, scratch_of, CLINT_MTIMECMP, CLINT in *. cbn [map] in *.
  rewrite !elem_of_cons, elem_of_nil in Hx, Hy. naive_solver lia.
Qed.

(** What [start] does to a hart and to memory. *)
Lemma start_effect (b : board) (id : Z)
    (Hid : regs (bh b) mhartid = id /\ 0 <= id < Z.of_nat NCPU) (Hs : KERNBASE <= timer_scratch) :
  exists b', start b = Ok (tt, b') /\
    mode (bh b') = PSupervisor /\ pc (bh b') = main_addr /\
    regs (bh b') tp = id /\ regs (bh b') satp = 0 /\
    timer_ready id b' /\ words b' (CLINT_MTIMECMP id) = u64 (words b CLINT_MTIME + 1000000) /\
    routed (Z.testbit (regs (bh b) mstatus) 1) (bh b') /\
    (forall e, e ∈ [8; 12; 13; 15] -> Z.testbit (regs (bh b') medeleg) e = true) /\
    (forall a, a ∉ own id -> words b' a = words b a).
Proof.
  destruct b as [h w], Hid as [Hid Hr]. cbn [bh words] in *.
  destruct (start_run h w id Hid Hr) as (h' & -> & Em & Epc & Es & Ee & Ed & Ex & Et & Ec & Etp & Esp & _).
  eexists. split; [done |]. cbn [bh words].
  assert (forall j, 0 <= j < 5 -> scratch_of id j <> CLINT_MTIMECMP id) as Ha by (intros; by apply own_apart).
  assert (scratch_of id 3 <> scratch_of id 4) as H34 by (unfold scratch_of; lia).
  assert (mode h' = PSupervisor) as Em' by (rewrite Em; apply started_supervisor).
  split_and!; try done.
  - split; cbn [bh words]; try done.
    + rewrite set_word_other by done. apply set_word_same.
    + apply set_word_same.
    + rewrite Ed. apply deleg_bits. set_solver.
  - rewrite !set_word_other by (symmetry; apply Ha; lia). apply set_word_same.
  - by apply start_routed.
  - intros e He. rewrite Ex, Z.land_spec, (bit_of _ _ _ exc_supervisor He).
    elems He ltac:(done).
  - intros a Hn. unfold own in Hn. cbn [map] in Hn. rewrite !set_word_other; [done | set_solver..].
Qed.

Lemma start_keeps_sie b b' : 0 <= regs (bh b) mhartid < Z.of_nat NCPU -> start b = Ok (tt, b') ->
  Z.testbit (regs (bh b') mstatus) 1 = Z.testbit (regs (bh b) mstatus) 1.
Proof.
  destruct b as [h w]. cbn [bh]. intros Hr Hb. destruct (start_run h w _ eq_refl Hr) as (h' & E & _ & _ & Es & _).
  rewrite E in Hb. injection Hb as <-. cbn [bh]. rewrite Es, started_sie. done.
Qed.

(** C29: a hart that runs [start] in machine mode ends up in [main] in supervisor mode without
    paging, its number in [tp], its own timer armed one interval ahead and the scratch area
    prepared for [timervec].  From then on a machine timer interrupt goes to [timervec] even with
    interrupts off, the supervisor's software, timer and external interrupts are taken by the
    supervisor when its interrupts are on and held back when they are off, and system calls and
    page faults go to the supervisor.  No word of another hart's is touched. *)
Theorem start_enters_main (b : board) (id : Z)
    (Hid : regs (bh b) mhartid = id /\ 0 <= id < Z.of_nat NCPU) (Hs : KERNBASE <= timer_scratch) :
  exists b', start b = Ok (tt, b') /\
    mode (bh b') = PSupervisor /\ pc (bh b') = main_addr /\
    regs (bh b') tp = id /\ regs (bh b') satp = 0 /\
    timer_ready id b' /\ words b' (CLINT_MTIMECMP id) = u64 (words b CLINT_MTIME + 1000000) /\
    routed (Z.testbit (regs (bh b) mstatus) 1) (bh b') /\
    (forall e, e ∈ [8; 12; 13; 15] -> Z.testbit (regs (bh b') medeleg) e = true) /\
    (forall a, a ∉ own id -> words b' a = words b a).
Proof. exact (start_effect b id Hid Hs). Qed.

Lemma mtrap_mode p x : mpp_mode (mtrap_status p x) = p.
Proof.
  rewrite mpp_bits_mode. unfold_bits. unfold MSTATUS_MPP_M. bits.
  by destruct p, (Z.testbit x 3); cbn; rewrite ?andb_false_r.
Qed.

Lemma mtrap_mret_mie p x : Z.testbit (mret_status (mtrap_status p x)) 3 = Z.testbit x 3.
Proof.
  assert (Z.testbit (mtrap_status p x) 7 = Z.testbit x 3) as E.
  { unfold_bits. unfold MSTATUS_MPP_M. bits. by destruct p, (Z.testbit x 3); cbn; rewrite ?andb_false_r. }
  unfold mret_status. rewrite E. unfold_bits. bits. by destruct decide, (Z.testbit x 3); cbn; rewrite ?andb_false_r.
Qed.

(** What the handler does to the registers: everything is restored but the two status words. *)
Lemma timervec_run (h : hart) (w : Z -> Z) (s c : Z) :
  regs h mscratch = s -> w (s + 24) = c -> (forall i, i ∈ [0; 8; 16] -> s + i <> c) ->
  exists h', timervec (mkboard h w) =
    Ok (tt, mkboard h' (set_word c (u64 (w c + w (s + 32)))
             (set_word (s + 16) (regs h a3) (set_word (s + 8) (regs h a2) (set_word s (regs h a1) w))))) /\
    mode h' = mpp_mode (regs h mstatus) /\ pc h' = regs h mepc /\
    regs h' mstatus = mret_status (regs h mstatus) /\
    regs h' mip = window (Z.land (regs h mideleg) SIE_SSIE) 2 (regs h mip) /\
    (forall r, r ∉ [mstatus; mip] -> regs h' r = regs h r).
Proof.
  intros Hs Hc Hne.
  assert (c <> s + 16 /\ c <> s + 8 /\ c <> s) as (N1 & N2 & N3).
  { split_and!; intros E; [apply (Hne 16) | apply (Hne 8) | apply (Hne 0)]; [set_solver | lia | set_solver | lia | set_solver | lia]. }
  set (w3 := set_word (s + 16) (regs h a3) (set_word (s + 8) (regs h a2) (set_word s (regs h a1) w))).
  assert (w3 (s + 24) = c) as E1 by (unfold w3; rewrite !set_word_other by lia; done).
  assert (w3 (s + 32) = w (s + 32)) as E2 by (unfold w3; by rewrite !set_word_other by lia).
  assert (w3 c = w c) as E3 by (unfold w3; by rewrite !set_word_other by lia).
  assert (w3 s = regs h a1 /\ w3 (s + 8) = regs h a2 /\ w3 (s + 16) = regs h a3) as (E4 & E5 & E6).
  { unfold w3. split_and!; rewrite ?set_word_other by lia; apply set_word_same. }
  eexists. split_and!.
  1: { unfold timervec, csrrw, w_sip. hrun. rewrite Hs. repeat (progress fold w3). rewrite E1, E2, E3.
       rewrite !(set_word_other c) by lia. rewrite E4, E5, E6. unfold mret, modify. cbn [bh words]. hrun. reflexivity. }
  all: cbn [mode pc regs]; hrun; try reflexivity.
  intros r Hr. repeat match goal with
  | |- context [regs (set_reg ?q ?v ?x) r] => destruct (decide (r = q)) as [->|];
      [rewrite (set_reg_same q v x) | rewrite (set_reg_other q v x r) by done] end; set_solver.
Qed.

(** A machine timer interrupt, taken in any mode on a hart that has run [start], returns to the
    interrupted instruction with every register as it was (the status word up to the bits that
    record the previous mode), and with the supervisor's software interrupt pending; the hart's
    next timer interrupt is set one interval after the previous one, the scratch area is ready
    for it, and no word of another hart's is touched. *)
Lemma timer_irq (b : board) (id : Z) (Hid : 0 <= id < Z.of_nat NCPU) (Hs : KERNBASE <= timer_scratch)
    (Hr : timer_ready id b) :
  exists b', (do! mtrap in timervec) b = Ok (tt, b') /\
    mode (bh b') = mode (bh b) /\ pc (bh b') = pc (bh b) /\
    (forall r, r ∉ [mstatus; mip; mepc] -> regs (bh b') r = regs (bh b) r) /\
    (forall i, plain_bit i \/ i = 3 -> Z.testbit (regs (bh b') mstatus) i = Z.testbit (regs (bh b) mstatus) i) /\
    (forall i, 0 <= i -> Z.testbit (regs (bh b') mip) i = (1 =? i) || Z.testbit (regs (bh b) mip) i) /\
    words b' (CLINT_MTIMECMP id) = u64 (words b (CLINT_MTIMECMP id) + 1000000) /\
    (forall a, a ∉ own id -> words b' a = words b a) /\ timer_ready id b'.
Proof.
  destruct b as [h w], Hr as [Hv Hsc Hc Hi Hd]. cbn [bh words] in *. unfold mtrap. rewrite bind_modify. cbn [bh words].
  set (h1 := mkhart _ _ _).
  assert (forall j, scratch_of id j = scratch_of id 0 + 8 * j) as Ej by (intros; unfold scratch_of; lia).
  assert (forall j, 0 <= j < 5 -> scratch_of id j <> CLINT_MTIMECMP id) as Ha by (intros; by apply own_apart).
  assert (forall r, r ∉ [mstatus; mepc] -> regs h1 r = regs h r) as Hreg.
  { intros r Hn. unfold h1. cbn [regs]. rewrite !set_reg_other by set_solver. done. }
  assert (regs h1 mstatus = mtrap_status (mode h) (regs h mstatus) /\ regs h1 mepc = pc h) as [E1 E2].
  { unfold h1. cbn [regs]. by hrun. }
  destruct (timervec_run h1 w (scratch_of id 0) (CLINT_MTIMECMP id)) as (h' & -> & Em & Ep & Est & Eip & Er).
  - by rewrite Hreg by set_solver.
  - by rewrite (Ej 3) in Hc.
  - intros i Hin E. apply (Ha (i / 8)); [elems Hin ltac:(done) |]. rewrite Ej, <- E. f_equal. elems Hin ltac:(done).
  - eexists. split; [done |]. cbn [bh words].
    rewrite E1 in *. rewrite Em, Ep, E2, mtrap_mode.
    replace (scratch_of id 0 + 32) with (scratch_of id 4) by (rewrite (Ej 4); lia).
    replace (scratch_of id 0 + 16) with (scratch_of id 2) by (rewrite (Ej 2); lia).
    replace (scratch_of id 0 + 8) with (scratch_of id 1) by (rewrite (Ej 1); lia).
    split_and!; try done.
    + intros r Hn. rewrite Er, Hreg by set_solver. done.
    + intros i [Hp| ->]; rewrite Est; [by rewrite mret_status_plain, mtrap_status_plain | apply mtrap_mret_mie].
    + intros i Hpos. rewrite Eip, !Hreg by set_solver. unfold_bits. change 2 with (Z.shiftl 1 1). bits.
      destruct (Z.eqb_spec 1 i) as [<-|]; [by rewrite Hd | cbn; by rewrite andb_false_r, andb_true_r].
    + rewrite set_word_same, Hi. done.
    + intros a Hn. unfold own in Hn. cbn [map] in Hn. rewrite !set_word_other; [done | set_solver..].
    + split; cbn [bh words]; rewrite ?Er, ?Hreg by set_solver; try done.
      * rewrite !set_word_other by (try apply Ha; rewrite ?(Ej 3), ?(Ej 2), ?(Ej 1); lia). done.
      * rewrite !set_word_other by (try apply Ha; rewrite ?(Ej 4), ?(Ej 2), ?(Ej 1); lia). done.
Qed.

End StartFacts.

(** ** Witnesses *)

Definition virt_addrs : BootAddrs := {|
  main_addr := KERNBASE + 0xe00;
  timervec_addr := KERNBASE + 0x5c00;
  timer_scratch := KERNBASE + 0x9000;
|}.

(** Hart 2 out of reset, at time 500. *)
Definition reset_board : board :=
  mkboard (mkhart PMachine KERNBASE (fun r => if decide (r = mhartid) then 2 else 0))
    (fun a => if a =? CLINT_MTIME then 500 else 0).

Lemma start_enters_main_witness :
  exists b', start (HS := virt_hart) (BA := virt_addrs) reset_board = Ok (tt, b') /\
    mode (bh b') = PSupervisor /\ regs (bh b') tp = 2 /\ words b' (CLINT_MTIMECMP 2) = 1000500.
Proof.
  destruct (start_enters_main (HO := virt_hart_ok) (BA := virt_addrs) reset_board 2)
    as (b' & E & Hm & _ & Ht & _ & _ & Hc & _); [done | done |].
  exists b'. rewrite Hc. done.
Defined.
