(* ===== verification/Plic.v ===== *)
(** * Plic: the interrupt controller and [kernel/plic.c]

    The controller is modelled by its registers, a pending bit per source and a gateway per source
    that stays closed from the request to its completion; reading a hart's claim register takes
    the best pending request.  The code runs on a hart ([Hart.v]) next to the controller.

    The theorem ([plic_serves_once]): however the harts come up and devices raise interrupts, a
    pending interrupt of the UART or of the disk is given to the next hart that asks, and to no
    other before it has been completed. *)

From stdpp Require Import base list sets strings.
From Stdlib Require Import ZArith Lia.
From S2P Require Import Prelude Riscv Proc Hart.

(** ** [plic.c] *)

(** The interrupt controller: its registers, and per source whether a request is pending and
    whether the gateway is closed (from the request to its completion). *)
Record plic : Type := mkplic { preg : Z -> Z; pend : Z -> bool; inflight : Z -> bool }.

Definition setb (f : Z -> bool) (i : Z) (v : bool) : Z -> bool := fun x => if x =? i then v else f x.

Definition sources : list Z := map Z.of_nat (seq 1 31).
Definition hart_ids : list Z := map Z.of_nat (seq 0 NCPU).

(** The request a hart would be given: pending, enabled, of a priority above the threshold;
    among those the highest priority, then the lowest number. *)
Definition eligible (d : plic) (h i : Z) : bool :=
  pend d i && Z.testbit (preg d (PLIC_SENABLE h)) i &&
  (preg d (PLIC_SPRIORITY h) <? preg d (PLIC_PRIORITY + 4 * i)).

Definition best (d : plic) (h : Z) : Z :=
  fold_left (fun b i =>
    if eligible d h i && ((b =? 0) || (preg d (PLIC_PRIORITY + 4 * b) <? preg d (PLIC_PRIORITY + 4 * i)))
    then i else b) sources 0.

(** The hart whose claim register is at [a]. *)
Definition claim_of (a : Z) : option Z := List.find (fun h => a =? PLIC_SCLAIM h) hart_ids.

Definition dev_load (a : Z) (d : plic) : Z * plic :=
  match claim_of a with
  | Some h => let i := best d h in (i, mkplic (preg d) (setb (pend d) i false) (inflight d))
  | None => (preg d a, d)
  end.

Definition dev_store (a v : Z) (d : plic) : plic :=
  match claim_of a with
  | Some h => if Z.testbit (preg d (PLIC_SENABLE h)) v
              then mkplic (preg d) (pend d) (setb (inflight d) v false) else d
  | None => mkplic (fun x => if x =? a then v else preg d x) (pend d) (inflight d)
  end.

(** A device raises its interrupt line. *)
Definition raise (i : Z) (d : plic) : plic :=
  if inflight d i then d else mkplic (preg d) (setb (pend d) i true) (setb (inflight d) i true).

(** The code runs on the hart of the board. *)
Definition pstate : Type := board * plic.

Definition on_b {A} (m : M board A) : M pstate A := fun s =>
  match m (fst s) with
  | Ok (a, b) => Ok (a, (b, snd s))
  | Panic msg => Panic msg
  | Diverge => Diverge
  end.
Definition pst (a v : Z) : M pstate unit := modify (fun s => (fst s, dev_store a v (snd s))).
Definition pld (a : Z) : M pstate Z := fun s =>
  let '(v, d) := dev_load a (snd s) in Ok (v, (fst s, d)).

Definition plicinit : M pstate unit :=
  do! pst (PLIC + UART0_IRQ * 4) 1 in
  pst (PLIC + VIRTIO0_IRQ * 4) 1.

Definition plicinithart : M pstate unit :=
  let! hart := on_b cpuid in
  do! pst (PLIC_SENABLE hart) (u32 (Z.lor (Z.shiftl 1 UART0_IRQ) (Z.shiftl 1 VIRTIO0_IRQ))) in
  pst (PLIC_SPRIORITY hart) 0.

Definition plic_claim : M pstate Z :=
  let! hart := on_b cpuid in
  let! irq := pld (PLIC_SCLAIM hart) in
  ret (i32 irq).

Definition plic_complete (irq : Z) : M pstate unit :=
  let! hart := on_b cpuid in
  pst (PLIC_SCLAIM hart) (u32 irq).

(** ** The interrupt controller in use *)

Section Controller.

(** What a hart has to be for the code: its number in [tp]. *)
Definition on_hart (h : Z) (b : board) : Prop := regs (bh b) tp = h /\ 0 <= h < Z.of_nat NCPU.

(** The controller, the harts that have run [plicinithart], and who serves which interrupt. *)
Record irqs : Type := mkirqs { ctl : plic; up : list Z; held : list (Z * Z) }.

Inductive istep : irqs -> irqs -> Prop :=
  | IUp h b b' d d' u hs : on_hart h b -> plicinithart (b, d) = Ok (tt, (b', d')) ->
      istep (mkirqs d u hs) (mkirqs d' (h :: u) hs)
  | IRaise i d u hs : i ∈ sources -> istep (mkirqs d u hs) (mkirqs (raise i d) u hs)
  | IClaim h b b' irq d d' u hs : on_hart h b -> h ∈ u -> plic_claim (b, d) = Ok (irq, (b', d')) ->
      istep (mkirqs d u hs) (mkirqs d' u (if irq =? 0 then hs else (h, irq) :: hs))
  | IComplete h b b' irq d d' u l1 l2 : on_hart h b -> plic_complete irq (b, d) = Ok (tt, (b', d')) ->
      istep (mkirqs d u (l1 ++ (h, irq) :: l2)) (mkirqs d' u (l1 ++ l2)).

Definition plic_reset : plic := mkplic (fun _ => 0) (fun _ => false) (fun _ => false).

Inductive ireach : irqs -> Prop :=
  | IBoot b b' d : plicinit (b, plic_reset) = Ok (tt, (b', d)) -> ireach (mkirqs d [] [])
  | INext s s' : ireach s -> istep s s' -> ireach s'.

(** What the code reads on a hart. *)
Lemma cpuid_run h b : on_hart h b -> cpuid b = Ok (h, b).
Proof.
  intros [Ht Hr]. unfold cpuid, r_tp, rd. rewrite bind_gets, Ht. unfold ret.
  rewrite i32_small; [done | unfold NCPU in Hr; lia].
Qed.

Lemma claim_of_claim h : 0 <= h < Z.of_nat NCPU -> claim_of (PLIC_SCLAIM h) = Some h.
Proof.
  intros Hh. assert (exists n, h = Z.of_nat n /\ (n < NCPU)%nat) as (n & -> & Hn) by (exists (Z.to_nat h); lia).
  do 8 (destruct n as [|n]; [done |]). unfold NCPU in Hn. lia.
Qed.

Lemma claim_of_other a : a < PLIC + 0x201004 \/ a mod 0x2000 = 0x1000 -> claim_of a = None.
Proof.
  intros Ha. unfold claim_of. destruct (List.find _ hart_ids) as [h|] eqn:E; [| done].
  apply List.find_some in E as [Hin Heq%Z.eqb_eq]. subst a.
  assert (0 <= h) by (unfold hart_ids in Hin; apply in_map_iff in Hin as (? & <- & _); lia).
  unfold PLIC_SCLAIM, PLIC in Ha. exfalso. destruct Ha as [Ha|Ha]; [lia |].
  replace (201326592 + 2101252 + h * 8192) with (4100 + (24576 + 256 + h) * 8192) in Ha by lia.
  by rewrite Z.mod_add in Ha by lia.
Qed.

(** The registers the code writes are plain registers. *)
Lemma store_plain a v d : claim_of a = None ->
  dev_store a v d = mkplic (set_word a v (preg d)) (pend d) (inflight d).
Proof. intros H. unfold dev_store. by rewrite H. Qed.

Lemma SENABLE_plain h : 0 <= h < Z.of_nat NCPU -> claim_of (PLIC_SENABLE h) = None.
Proof. intros H. apply claim_of_other. left. unfold PLIC_SENABLE, PLIC, NCPU in *. lia. Qed.

Lemma SPRIORITY_plain h : 0 <= h -> claim_of (PLIC_SPRIORITY h) = None.
Proof.
  intros H. apply claim_of_other. right. unfold PLIC_SPRIORITY, PLIC.
  replace (201326592 + 2101248 + h * 8192) with (4096 + (24576 + 256 + h) * 8192) by lia.
  by rewrite Z.mod_add by lia.
Qed.

Lemma on_b_run {A} (m : M board A) b d a : m b = Ok (a, b) -> on_b m (b, d) = Ok (a, (b, d)).
Proof. intros H. unfold on_b. cbn [fst snd]. by rewrite H. Qed.

Definition enabled_word : Z := 1026.

Lemma plicinithart_run h b d : on_hart h b ->
  plicinithart (b, d) = Ok (tt, (b, mkplic (set_word (PLIC_SPRIORITY h) 0 (set_word (PLIC_SENABLE h) enabled_word (preg d)))
    (pend d) (inflight d))).
Proof.
  intros Hh. unfold plicinithart. rewrite (bind_ok _ _ _ _ _ (on_b_run _ b d h (cpuid_run h b Hh))).
  unfold pst, modify, bind. cbn [fst snd]. destruct Hh as [_ Hr].
  rewrite !store_plain by (apply SENABLE_plain || apply SPRIORITY_plain; lia). done.
Qed.

Lemma plic_claim_run h b d : on_hart h b -> 0 <= best d h < 32 ->
  plic_claim (b, d) = Ok (best d h, (b, mkplic (preg d) (setb (pend d) (best d h) false) (inflight d))).
Proof.
  intros Hh Hb. unfold plic_claim. rewrite (bind_ok _ _ _ _ _ (on_b_run _ b d h (cpuid_run h b Hh))).
  unfold pld, bind, dev_load, ret. cbn [fst snd]. rewrite claim_of_claim by apply Hh. by rewrite i32_small by lia.
Qed.

Lemma plic_complete_run h b d irq : on_hart h b -> 0 <= irq < 32 ->
  plic_complete irq (b, d) = Ok (tt, (b,
    if Z.testbit (preg d (PLIC_SENABLE h)) irq then mkplic (preg d) (pend d) (setb (inflight d) irq false) else d)).
Proof.
  intros Hh Hb. unfold plic_complete. rewrite (bind_ok _ _ _ _ _ (on_b_run _ b d h (cpuid_run h b Hh))).
  unfold pst, modify, dev_store. cbn [fst snd]. rewrite claim_of_claim by apply Hh. by rewrite u32_small by lia.
Qed.

(** The controller as the kernel has set it up. *)
Record ctl_ok (s : irqs) : Prop := {
  co_prio : preg (ctl s) (PLIC_PRIORITY + 4 * VIRTIO0_IRQ) = 1 /\ preg (ctl s) (PLIC_PRIORITY + 4 * UART0_IRQ) = 1;
  co_up : forall h, h ∈ up s -> 0 <= h < Z.of_nat NCPU /\
            preg (ctl s) (PLIC_SENABLE h) = enabled_word /\ preg (ctl s) (PLIC_SPRIORITY h) = 0;
  co_pend : forall i, pend (ctl s) i = true -> inflight (ctl s) i = true;
  co_held : forall h i, (h, i) ∈ held s ->
              h ∈ up s /\ i ∈ [VIRTIO0_IRQ; UART0_IRQ] /\ inflight (ctl s) i = true /\ pend (ctl s) i = false;
  co_once : NoDup (snd <$> held s);
}.

(** What a configured hart is given. *)
Definition offered (d : plic) : Z :=
  if pend d VIRTIO0_IRQ then VIRTIO0_IRQ else if pend d UART0_IRQ then UART0_IRQ else 0.

Lemma enabled_bits i : 0 <= i -> Z.testbit enabled_word i = (10 =? i) || (1 =? i).
Proof.
  intros. change enabled_word with (Z.lor (Z.shiftl 1 10) (Z.shiftl 1 1)). by rewrite Z.lor_spec, !testbit_1.
Qed.

Lemma fold_left_skip {A B} (f : A -> B -> A) l a : (forall a b, b ∈ l -> f a b = a) -> fold_left f l a = a.
Proof. induction l as [|x l IH]; intros H; [done |]. cbn. rewrite H by set_solver. apply IH. set_solver. Qed.

Lemma best_offered s h : ctl_ok s -> h ∈ up s -> best (ctl s) h = offered (ctl s).
Proof.
  intros H Hh. destruct (co_up _ H h Hh) as (_ & He & Ht), (co_prio _ H) as [P1 P10].
  change VIRTIO0_IRQ with 1 in *. change UART0_IRQ with 10 in *.
  assert (forall i, 0 <= i -> eligible (ctl s) h i = if decide (i = 1) then pend (ctl s) 1 else if decide (i = 10) then pend (ctl s) 10 else false) as E.
  { intros i Hi. unfold eligible. rewrite He, Ht, enabled_bits by done.
    destruct (decide (i = 1)) as [->|]; [rewrite P1; cbn; by rewrite !andb_true_r |].
    destruct (decide (i = 10)) as [->|]; [rewrite P10; cbn; by rewrite !andb_true_r |].
    rewrite !(proj2 (Z.eqb_neq _ _)) by lia. cbn. by rewrite andb_false_r. }
  assert (forall l b, (forall i, i ∈ l -> 0 <= i /\ i <> 1 /\ i <> 10) ->
    fold_left (fun b i => if eligible (ctl s) h i && ((b =? 0) || (preg (ctl s) (PLIC_PRIORITY + 4 * b) <?
      preg (ctl s) (PLIC_PRIORITY + 4 * i))) then i else b) l b = b) as Skip.
  { intros l b Hl. apply fold_left_skip. intros c i (Hi & H1 & H10)%Hl. by rewrite E, !decide_False by done. }
  unfold best, offered.
  change sources with ([1] ++ map Z.of_nat (seq 2 8) ++ [10] ++ map Z.of_nat (seq 11 21)).
  assert (forall a n, (2 <= a)%nat -> (10 < a \/ a + n <= 10)%nat -> forall i, i ∈ map Z.of_nat (seq a n) -> 0 <= i /\ i <> 1 /\ i <> 10) as Hseq.
  { intros a n Ha Hn i (k & -> & Hk%elem_of_seq)%list_elem_of_fmap. lia. }
  rewrite !fold_left_app, (Skip (map _ (seq 2 8))), (Skip (map _ (seq 11 21))) by (apply Hseq; lia). cbn [fold_left].
  assert (eligible (ctl s) h 1 = pend (ctl s) 1 /\ eligible (ctl s) h 10 = pend (ctl s) 10) as [-> ->].
  { split; by rewrite E by lia. }
  change VIRTIO0_IRQ with 1. change UART0_IRQ with 10. rewrite P10.
  destruct (pend (ctl s) 1); cbn [andb orb Z.eqb]; [rewrite P1; by rewrite andb_false_r |].
  by rewrite andb_true_r.
Qed.
Lemma plicinit_run b d :
  plicinit (b, d) = Ok (tt, (b, mkplic (set_word (PLIC + VIRTIO0_IRQ * 4) 1 (set_word (PLIC + UART0_IRQ * 4) 1 (preg d)))
    (pend d) (inflight d))).
Proof.
  unfold plicinit, pst, modify, bind. cbn [fst snd].
  rewrite !store_plain by (apply claim_of_other; left; done). done.
Qed.

Lemma ctl_ok_boot b b' d : plicinit (b, plic_reset) = Ok (tt, (b', d)) -> ctl_ok (mkirqs d [] []).
Proof.
  rewrite plicinit_run. intros [= _ <-]. split; cbn [ctl up held preg pend inflight plic_reset]; try done.
  - intros h Hh. by apply elem_of_nil in Hh.
  - intros h i Hh. by apply elem_of_nil in Hh.
  - constructor.
Qed.

Lemma ctl_ok_up h b d u hs : on_hart h b -> ctl_ok (mkirqs d u hs) ->
  ctl_ok (mkirqs (mkplic (set_word (PLIC_SPRIORITY h) 0 (set_word (PLIC_SENABLE h) enabled_word (preg d)))
    (pend d) (inflight d)) (h :: u) hs).
Proof.
  intros [_ Hr] [P Hu Hp Hh Ho]. cbn [ctl up held] in *. split; cbn [ctl up held preg pend inflight]; try done.
  - rewrite !set_word_other
      by (unfold PLIC_SPRIORITY, PLIC_SENABLE, PLIC_PRIORITY, PLIC, VIRTIO0_IRQ, UART0_IRQ; lia). done.
  - intros g Hg. assert (0 <= g < Z.of_nat NCPU) as Hgr by (apply elem_of_cons in Hg as [->|Hg]; [done | by apply Hu]).
    split; [done |].
    assert (PLIC_SENABLE g <> PLIC_SPRIORITY h /\ PLIC_SPRIORITY g <> PLIC_SENABLE h) as [N1 N2]
      by (unfold PLIC_SPRIORITY, PLIC_SENABLE, NCPU in *; lia).
    destruct (decide (g = h)) as [->|Hne].
    + rewrite (set_word_other _ _ _ _ N1), !set_word_same. done.
    + assert (g ∈ u) as (_ & E1 & E2)%Hu by set_solver.
      rewrite !set_word_other by (unfold PLIC_SPRIORITY, PLIC_SENABLE, NCPU in *; lia). done.
  - intros g i (? & ?)%Hh. set_solver.
Qed.

Lemma setb_eq f i v x : setb f i v x = if decide (x = i) then v else f x.
Proof. unfold setb. destruct decide; [subst; by rewrite Z.eqb_refl | by rewrite (proj2 (Z.eqb_neq _ _))]. Qed.

Lemma ctl_ok_raise i d u hs : ctl_ok (mkirqs d u hs) -> ctl_ok (mkirqs (raise i d) u hs).
Proof.
  intros [P Hu Hp Hh Ho]. cbn [ctl up held] in *. unfold raise. destruct (inflight d i) eqn:Ei; [done |].
  split; cbn [ctl up held preg pend inflight]; try done.
  - intros j. rewrite !setb_eq. destruct decide; auto.
  - intros g j Hin. destruct (Hh g j Hin) as (H1 & H2 & H3 & H4). rewrite !setb_eq, !decide_False by congruence. done.
Qed.

Lemma offered_cases d :
  (pend d (offered d) = true /\ offered d ∈ [VIRTIO0_IRQ; UART0_IRQ]) \/
  (offered d = 0 /\ pend d VIRTIO0_IRQ = false /\ pend d UART0_IRQ = false).
Proof.
  unfold offered. destruct (pend d VIRTIO0_IRQ) eqn:E1; [left; split; [done | set_solver] |].
  destruct (pend d UART0_IRQ) eqn:E2; [left; split; [done | set_solver] | by right].
Qed.

Lemma irq_range i : i ∈ [VIRTIO0_IRQ; UART0_IRQ] -> 0 < i < 32.
Proof. intros Hi. elems Hi ltac:(done). Qed.

Lemma offered_range d : 0 <= offered d < 32.
Proof. destruct (offered_cases d) as [[_ ?%irq_range]|[-> _]]; lia. Qed.

Lemma ctl_ok_claim h d u hs : h ∈ u -> ctl_ok (mkirqs d u hs) ->
  ctl_ok (mkirqs (mkplic (preg d) (setb (pend d) (offered d) false) (inflight d)) u
    (if offered d =? 0 then hs else (h, offered d) :: hs)).
Proof.
  intros Hup [P Hu Hp Hh Ho]. cbn [ctl up held] in *.
  assert (forall g j, (g, j) ∈ hs -> setb (pend d) (offered d) false j = false) as Hpf.
  { intros g j (_ & _ & _ & Hf)%Hh. rewrite setb_eq. by destruct decide. }
  split; cbn [ctl up held preg pend inflight]; try done.
  - intros j. rewrite setb_eq. destruct decide; [done | apply Hp].
  - intros g j Hin. destruct (Z.eqb_spec (offered d) 0) as [E|Hne].
    + destruct (Hh g j Hin) as (H1 & H2 & H3 & _). eauto.
    + destruct (offered_cases d) as [[Hpd Hirq]|[? _]]; [| done].
      apply elem_of_cons in Hin as [[= -> ->]|Hin].
      * split_and!; [done | done | by apply Hp | by rewrite setb_eq, decide_True].
      * destruct (Hh g j Hin) as (H1 & H2 & H3 & _). eauto.
  - destruct (Z.eqb_spec (offered d) 0) as [E|Hne]; [done |].
    destruct (offered_cases d) as [[Hpd Hirq]|[? _]]; [| done].
    cbn. constructor; [| done]. intros ([g j] & E & Hin)%list_elem_of_fmap. cbn in E. subst j.
    destruct (Hh g _ Hin) as (_ & _ & _ & Hf). congruence.
Qed.

Lemma ctl_ok_complete h irq d u l1 l2 : ctl_ok (mkirqs d u (l1 ++ (h, irq) :: l2)) ->
  ctl_ok (mkirqs (mkplic (preg d) (pend d) (setb (inflight d) irq false)) u (l1 ++ l2)).
Proof.
  intros [P Hu Hp Hh Ho]. cbn [ctl up held] in *.
  destruct (Hh h irq) as (_ & _ & _ & Hf); [set_solver |].
  rewrite fmap_app, fmap_cons in Ho. cbn [snd] in Ho.
  assert ((irq ∉ (snd <$> (l1 ++ l2))) /\ NoDup (snd <$> (l1 ++ l2))) as [Hni Ho'].
  { rewrite fmap_app. apply NoDup_app in Ho as (H1 & H2 & [H3 H4]%NoDup_cons). split; [set_solver |]. apply NoDup_app. set_solver. }
  split; cbn [ctl up held preg pend inflight]; try done.
  - intros j Hj. rewrite setb_eq, decide_False by congruence. by apply Hp.
  - intros g j Hin. destruct (Hh g j) as (H1 & H2 & H3 & H4); [set_solver |].
    rewrite setb_eq, decide_False; [done |]. intros ->. apply Hni. apply list_elem_of_fmap. by exists (g, irq).
Qed.

Lemma ireach_ok s : ireach s -> ctl_ok s.
Proof.
  induction 1 as [b b' d H|s s' _ IH Hstep]; [by eapply ctl_ok_boot |]. destruct Hstep as
    [h b b' d d' u hs Hh H|i d u hs _|h b b' irq d d' u hs Hh Hu H|h b b' irq d d' u l1 l2 Hh H].
  - rewrite (plicinithart_run h) in H by done. injection H as _ <-. by eapply ctl_ok_up.
  - by apply ctl_ok_raise.
  - pose proof (best_offered _ _ IH Hu) as Eb. cbn [ctl] in Eb.
    rewrite (plic_claim_run h) in H by (rewrite ?Eb; done || apply offered_range).
    rewrite Eb in H. injection H as <- _ <-. by apply ctl_ok_claim.
  - destruct (co_held _ IH h irq) as (Hu & Hi & _); [cbn; set_solver |]. cbn [up] in Hu.
    rewrite (plic_complete_run h) in H by (done || (apply irq_range in Hi; lia)).
    destruct (co_up _ IH h Hu) as (_ & Ee & _). cbn [ctl] in Ee. rewrite Ee in H.
    assert (Z.testbit enabled_word irq = true) as Et by (elems Hi ltac:(done)).
    rewrite Et in H. injection H as _ <-. by eapply ctl_ok_complete.
Qed.

(** C30: however harts run [plicinithart], devices raise interrupts, and harts claim and complete
    them after [plicinit]: no two harts serve the same interrupt at the same time, only the
    UART's and the disk's are served, and a hart that has run [plicinithart] and claims one is
    given the disk's if it is pending, else the UART's if that is pending, else none. *)
Theorem plic_serves_once (s : irqs) (Hs : ireach s) :
  NoDup (snd <$> held s) /\
  (forall h i, (h, i) ∈ held s -> i = VIRTIO0_IRQ \/ i = UART0_IRQ) /\
  (forall h b, h ∈ up s -> on_hart h b ->
     exists d, plic_claim (b, ctl s) =
       Ok (if pend (ctl s) VIRTIO0_IRQ then VIRTIO0_IRQ else if pend (ctl s) UART0_IRQ then UART0_IRQ else 0, (b, d))).
Proof.
  apply ireach_ok in Hs. split_and!.
  - apply (co_once _ Hs).
  - intros h i (_ & Hi & _)%(co_held _ Hs). set_solver.
  - intros h b Hu Hh. rewrite (plic_claim_run h); [| done | rewrite best_offered by done; apply offered_range].
    rewrite best_offered by done. eauto.
Qed.

End Controller.

(** ** Witness *)

(** A hart with its number in [tp]. *)
Definition board_of (h : Z) : board := mkboard (mkhart PSupervisor 0 (fun _ => h)) (fun _ => 0).

Lemma board_of_hart h : 0 <= h < Z.of_nat NCPU -> on_hart h (board_of h).
Proof. done. Qed.

(** Two harts are up, both devices have raised their interrupts, hart 0 has claimed one. *)
Lemma busy_reached : exists d, ireach (mkirqs d [1; 0] [(0, VIRTIO0_IRQ)]) /\ pend d UART0_IRQ = true /\ pend d VIRTIO0_IRQ = false.
Proof.
  eexists. split.
  - eapply INext. 1: eapply INext. 1: eapply INext. 1: eapply INext. 1: eapply INext.
    + apply (IBoot (board_of 0) (board_of 0)). apply plicinit_run.
    + apply (IUp 0 (board_of 0) (board_of 0)); [by apply board_of_hart |]. by apply plicinithart_run, board_of_hart.
    + apply (IUp 1 (board_of 1) (board_of 1)); [by apply board_of_hart |]. by apply plicinithart_run, board_of_hart.
    + apply (IRaise UART0_IRQ). apply (bool_decide_unpack _). by vm_compute.
    + apply (IRaise VIRTIO0_IRQ). apply (bool_decide_unpack _). by vm_compute.
    + apply (IClaim 0 (board_of 0) (board_of 0) VIRTIO0_IRQ); [by apply board_of_hart | set_solver |]. reflexivity.
  - split; reflexivity.
Qed.

Lemma plic_serves_once_witness :
  exists s d, ireach s /\ held s = [(0, VIRTIO0_IRQ)] /\ plic_claim (board_of 1, ctl s) = Ok (UART0_IRQ, (board_of 1, d)).
Proof.
  destruct busy_reached as (d & Hr & P1 & P2). exists (mkirqs d [1; 0] [(0, VIRTIO0_IRQ)]).
  destruct (plic_serves_once _ Hr) as (_ & _ & H). destruct (H 1 (board_of 1)) as (d' & E); [set_solver | by apply board_of_hart |].
  exists d'. cbn [ctl held] in *. rewrite P1, P2 in E. done.
Defined.
