(* ===== verification/Boot.v ===== *)
(** * Boot: [kernel/main.c] on all harts

    Every hart comes out of reset, runs [start] ([Hart.v]) and then [main].  [main] is the list of
    its statements: hart 0 initialises the kernel and sets [started], the others wait for it and
    set up their own registers; then each is in [scheduler].  A state holds the harts with what
    they have left to do, the words of memory [start] uses, the interrupt controller ([Plic.v])
    and the kernel, whose initialisation routines are an interface ([Subsystems]); its only
    law is that none but [kvminit] changes [kernel_pagetable].  Steps of all harts interleave with
    each other, with timer interrupts and with devices raising interrupts.

    The theorem ([boot_order]): no hart is in the scheduler before hart 0 has run all its
    initialisation in order; a hart that is there has its own number, the kernel's page table,
    trap vector, timer and interrupt enables set up. *)

From stdpp Require Import base list sets strings relations.
From Stdlib Require Import ZArith Lia.
From S2P Require Import Prelude Riscv Proc Print Trap Hart Plic.

(** ** Data *)

Inductive initcall : Type :=
  | Consoleinit | Printfinit | Kinit | Kvminit | Procinit | Trapinit | Binit | Iinit | Fileinit
  | Virtio_disk_init | Userinit.

#[export] Instance initcall_eq_dec : EqDecision initcall.
Proof. solve_decision. Defined.

(** The kernel as [main] uses it. *)
Class Subsystems (K : Type) : Type := {
  init : initcall -> M K unit;
  kprintf : list Z -> list varg -> M K unit;
  kernel_pagetable : K -> Z;
  kernel_step : K -> K -> Prop;
}.

Class SubsystemsOk (K : Type) {SK : Subsystems K} : Prop := {
  init_keeps c k k' : c <> Kvminit -> init c k = Ok (tt, k') -> kernel_pagetable k' = kernel_pagetable k;
  kprintf_keeps f a k k' : kprintf f a k = Ok (tt, k') -> kernel_pagetable k' = kernel_pagetable k;
  kernel_step_keeps k k' : kernel_step k k' -> kernel_pagetable k' = kernel_pagetable k;
}.

(** The statements of [main]. *)
Inductive stmt : Type :=
  | SInit (c : initcall)
  | SPrintf (fmt : list Z) (ap : list varg)
  | SKvminithart
  | STrapinithart
  | SPlicinit
  | SPlicinithart
  | SSynchronize
  | SStarted
  | SWait.

#[export] Instance varg_eq_dec : EqDecision varg.
Proof. solve_decision. Defined.

#[export] Instance stmt_eq_dec : EqDecision stmt.
Proof. solve_decision. Defined.

Section Main.
Context {K : Type} `{SK : Subsystems K} `{HS : HartSpec} `{BA : BootAddrs} `{TA : TrapAddrs}.

Definition main (cpuid : Z) : list stmt :=
  if cpuid =? 0 then
    [ SInit Consoleinit; SInit Printfinit;
      SPrintf [10] []; SPrintf (bytes "xv6 kernel is booting" ++ [10]) []; SPrintf [10] [];
      SInit Kinit; SInit Kvminit; SKvminithart; SInit Procinit; SInit Trapinit; STrapinithart;
      SPlicinit; SPlicinithart; SInit Binit; SInit Iinit; SInit Fileinit; SInit Virtio_disk_init;
      SInit Userinit; SSynchronize; SStarted ]
  else
    [ SWait; SSynchronize; SPrintf (bytes "hart %d starting" ++ [10]) [VInt cpuid];
      SKvminithart; STrapinithart; SPlicinithart ].

Record sys : Type := mksys {
  kern : K;
  started : Z;
  ctl : plic;
  mem : Z -> Z;
  hs : nat -> hart;
  todo : nat -> option (list stmt);   (* [None]: still to run [start] *)
}.

Definition hset {A} (f : nat -> A) (i : nat) (v : A) : nat -> A := fun j => if decide (j = i) then v else f j.

Definition set_kern (k : K) (s : sys) : sys := mksys k (started s) (ctl s) (mem s) (hs s) (todo s).
Definition set_todo (i : nat) (l : list stmt) (s : sys) : sys :=
  mksys (kern s) (started s) (ctl s) (mem s) (hs s) (hset (todo s) i (Some l)).
Definition set_started (v : Z) (s : sys) : sys := mksys (kern s) v (ctl s) (mem s) (hs s) (todo s).

(** Code of the kernel as a whole, of hart [i], and of hart [i] with the controller. *)
Definition run_kern (m : M K unit) (s : sys) : outcome (option sys) :=
  match m (kern s) with
  | Ok (_, k) => Ok (Some (set_kern k s))
  | Panic msg => Panic msg
  | Diverge => Diverge
  end.

Definition run_ctl (i : nat) (m : M pstate unit) (s : sys) : outcome (option sys) :=
  match m (mkboard (hs s i) (mem s), ctl s) with
  | Ok (_, (b, d)) => Ok (Some (mksys (kern s) (started s) d (words b) (hset (hs s) i (bh b)) (todo s)))
  | Panic msg => Panic msg
  | Diverge => Diverge
  end.

Definition run_hart (i : nat) (m : M board unit) (s : sys) : outcome (option sys) :=
  run_ctl i (on_b m) s.

(** [kvminithart] of [vm.c]; the fences order memory accesses, which are in order here. *)
Definition sfence_vma : M board unit := ret tt.
Definition kvminithart (kpt : Z) : M board unit :=
  do! sfence_vma in
  do! w_satp (MAKE_SATP kpt) in
  sfence_vma.

(** [trapinithart] of [trap.c] on the registers of [Hart.v]. *)
Definition trapinithart : M board unit := w_stvec kernelvec.

(** One statement on hart [i]; [None] when it goes round in [while(started == 0)]. *)
Definition exec_stmt (i : nat) (st : stmt) (s : sys) : outcome (option sys) :=
  match st with
  | SInit c => run_kern (init c) s
  | SPrintf fmt ap => run_kern (kprintf fmt ap) s
  | SKvminithart => run_hart i (kvminithart (kernel_pagetable (kern s))) s
  | STrapinithart => run_hart i trapinithart s
  | SPlicinit => run_ctl i plicinit s
  | SPlicinithart => run_ctl i plicinithart s
  | SSynchronize => Ok (Some s)
  | SStarted => Ok (Some (set_started 1 s))
  | SWait => if started s =? 0 then Ok None else Ok (Some s)
  end.

(** A turn of hart [i]: [start], a statement of [main], or nothing more to do here. *)
Definition turn (i : nat) (s : sys) : outcome sys :=
  match todo s i with
  | None =>
      match (do! start in cpuid) (mkboard (hs s i) (mem s)) with
      | Ok (id, b) => Ok (mksys (kern s) (started s) (ctl s) (words b) (hset (hs s) i (bh b)) (hset (todo s) i (Some (main id))))
      | Panic msg => Panic msg
      | Diverge => Diverge
      end
  | Some [] => Ok s
  | Some (st :: rest) =>
      match exec_stmt i st s with
      | Ok (Some s') => Ok (set_todo i rest s')
      | Ok None => Ok s
      | Panic msg => Panic msg
      | Diverge => Diverge
      end
  end.

(** The machine from reset.  A hart in the scheduler takes steps of the kernel. *)
Inductive bstep : sys -> sys -> Prop :=
  | BTurn i s s' : (i < NCPU)%nat -> turn i s = Ok s' -> bstep s s'
  | BKernel i k s : (i < NCPU)%nat -> todo s i = Some [] -> kernel_step (kern s) k -> bstep s (set_kern k s)
  | BTimer i s b : (i < NCPU)%nat -> todo s i <> None ->
      (do! mtrap in timervec) (mkboard (hs s i) (mem s)) = Ok (tt, b) ->
      bstep s (mksys (kern s) (started s) (ctl s) (words b) (hset (hs s) i (bh b)) (todo s))
  | BRaise n s : bstep s (mksys (kern s) (started s) (raise n (ctl s)) (mem s) (hs s) (todo s)).

Definition reset (k0 : K) (s : sys) : Prop :=
  kern s = k0 /\ started s = 0 /\ (forall i, todo s i = None) /\
  (forall i, (i < NCPU)%nat -> regs (hs s i) mhartid = Z.of_nat i).

Inductive breach (k0 : K) : sys -> Prop :=
  | BReset s : reset k0 s -> breach k0 s
  | BStep s s' : breach k0 s -> bstep s s' -> breach k0 s'.

(** What the statements of a hart do to the kernel, in order. *)
Fixpoint kern_calls (l : list stmt) : M K unit :=
  match l with
  | [] => ret tt
  | SInit c :: l' => do! init c in kern_calls l'
  | SPrintf fmt ap :: l' => do! kprintf fmt ap in kern_calls l'
  | _ :: l' => kern_calls l'
  end.

(** The kernel once hart 0 is done: initialised in order, then running. *)
Definition after (k k' : K) : Prop :=
  kernel_step k k' \/ exists fmt ap, kprintf fmt ap k = Ok (tt, k').

Definition booted (k0 k : K) : Prop :=
  exists k1, kern_calls (main 0) k0 = Ok (tt, k1) /\ rtc after k1 k.

End Main.
Arguments sys : clear implicits.

(** ** The invariant *)

Section Inv.
Context {K : Type} `{SK : Subsystems K} {SO : SubsystemsOk K} `{HS : HartSpec} {HO : HartSpecOk HS}
  `{BA : BootAddrs} `{TA : TrapAddrs}.
Context (k0 : K) (scratch_ram : KERNBASE <= timer_scratch).

(** What hart [i] has set up for itself when it has run the statements [pre]. *)
Record hart_ok (i : nat) (pre : list stmt) (s : sys K) : Prop := {
  ho_mode : mode (hs s i) = PSupervisor;
  ho_tp : regs (hs s i) tp = Z.of_nat i;
  ho_timer : timer_ready (Z.of_nat i) (mkboard (hs s i) (mem s));
  ho_routed : routed (Z.testbit (regs (hs s i) mstatus) 1) (hs s i);
  ho_satp : SKvminithart ∈ pre -> regs (hs s i) satp = MAKE_SATP (kernel_pagetable (kern s));
  ho_stvec : STrapinithart ∈ pre -> regs (hs s i) stvec = kernelvec;
  ho_plic : SPlicinithart ∈ pre ->
    preg (ctl s) (PLIC_SENABLE (Z.of_nat i)) = enabled_word /\ preg (ctl s) (PLIC_SPRIORITY (Z.of_nat i)) = 0;
}.

(** The progress of a hart, and of the whole by that of hart 0. *)
Definition hart_at (i : nat) (s : sys K) : Prop :=
  (todo s i = None /\ regs (hs s i) mhartid = Z.of_nat i) \/
  exists pre rest, main (Z.of_nat i) = pre ++ rest /\ todo s i = Some rest /\ hart_ok i pre s.

Definition lead (s : sys K) : Prop :=
  match todo s 0%nat with
  | None => kern s = k0 /\ started s = 0
  | Some [] => started s = 1 /\ booted k0 (kern s)
  | Some rest => started s = 0 /\
      exists pre, main 0 = pre ++ rest /\ kern_calls pre k0 = Ok (tt, kern s)
  end.

Record boot_inv (s : sys K) : Prop := {
  bi_harts : forall i, (i < NCPU)%nat -> hart_at i s;
  bi_lead : lead s;
  bi_wait : started s = 0 -> forall i, (0 < i < NCPU)%nat -> todo s i = None \/ todo s i = Some (main (Z.of_nat i));
}.

Lemma hset_same {A} (f : nat -> A) i v : hset f i v i = v.
Proof. unfold hset. by rewrite decide_True. Qed.

Lemma hset_other {A} (f : nat -> A) i v j : j <> i -> hset f i v j = f j.
Proof. intros. unfold hset. by rewrite decide_False. Qed.

Lemma reset_inv s : reset k0 s -> boot_inv s.
Proof.
  intros (Ek & Es & Ht & Hid). split.
  - intros i Hi. left. auto.
  - unfold lead. by rewrite Ht.
  - auto.
Qed.

(** Steps that another hart takes, as hart [i] sees them. *)
Record others (i : nat) (s s' : sys K) : Prop := {
  ot_hs : hs s' i = hs s i;
  ot_todo : todo s' i = todo s i;
  ot_mem : forall a, a ∈ own (Z.of_nat i) -> mem s' a = mem s a;
  ot_kpt : kernel_pagetable (kern s') = kernel_pagetable (kern s) \/
           todo s i = None \/ todo s i = Some (main (Z.of_nat i));
  ot_ctl : preg (ctl s') (PLIC_SENABLE (Z.of_nat i)) = preg (ctl s) (PLIC_SENABLE (Z.of_nat i)) /\
           preg (ctl s') (PLIC_SPRIORITY (Z.of_nat i)) = preg (ctl s) (PLIC_SPRIORITY (Z.of_nat i));
}.

Lemma timer_ready_ext id h h' w w' :
  (forall r, r ∉ [satp; stvec] -> regs h' r = regs h r) -> (forall a, a ∈ own id -> w' a = w a) ->
  timer_ready id (mkboard h w) -> timer_ready id (mkboard h' w').
Proof.
  intros Hh Hw [H1 H2 H3 H4 H5]. cbn [bh words] in *.
  split; cbn [bh words]; rewrite ?Hh by set_solver; try done; rewrite Hw; try done; unfold own; cbn [map]; set_solver.
Qed.

(** A hart's interrupts go by its mode and three of its registers. *)
Lemma routed_ext x h h' :
  mode h' = mode h -> mode h = PSupervisor -> regs h' mie = regs h mie -> regs h' mideleg = regs h mideleg ->
  Z.testbit (regs h' mstatus) 1 = Z.testbit (regs h mstatus) 1 -> routed x h -> routed x h'.
Proof.
  intros Em Es E1 E2 E3 H p i Hp. destruct (H p i Hp) as [H1 H2].
  assert (takes (set_reg mip p h') i = takes (set_reg mip p h) i) as ->; [| done].
  unfold takes. rewrite !set_reg_same, !set_reg_other by discriminate. cbn [mode set_reg].
  by rewrite Em, Es, E1, E2, E3.
Qed.

Lemma hart_at_others i s s' : others i s s' -> hart_at i s -> hart_at i s'.
Proof.
  intros [Eh Et Em Ek [Ee Ep]] [[Hn Hid]|(pre & rest & Ec & Ht & [H1 H2 H3 H4 H5 H6 H7])].
  - left. by rewrite Et, Eh.
  - right. exists pre, rest. split_and!; [done | by rewrite Et |]. split; rewrite ?Eh, ?Ee, ?Ep; try done.
    + by eapply timer_ready_ext.
    + intros Hin. destruct Ek as [->|[Hn|Hm]]; [by apply H5 | congruence |].
      rewrite Ht in Hm. injection Hm as Hm. rewrite Ec in Hm.
      assert (pre = []) as ->; [| by apply elem_of_nil in Hin].
      apply (f_equal length) in Hm. rewrite length_app in Hm. destruct pre; [done | cbn in Hm; lia].
Qed.

(** What one statement does. *)
Record effect (i : nat) (st : stmt) (s s' : sys K) : Prop := {
  ef_todo : todo s' = todo s;
  ef_mem : mem s' = mem s;
  ef_hs : forall j, j <> i -> hs s' j = hs s j;
  ef_started : started s' = match st with SStarted => 1 | _ => started s end;
  ef_kern : kern_calls [st] (kern s) = Ok (tt, kern s');
  ef_mode : mode (hs s' i) = mode (hs s i);
  ef_regs : forall r, r ∉ [satp; stvec] -> regs (hs s' i) r = regs (hs s i) r;
  ef_satp : regs (hs s' i) satp = match st with SKvminithart => MAKE_SATP (kernel_pagetable (kern s)) | _ => regs (hs s i) satp end;
  ef_stvec : regs (hs s' i) stvec = match st with STrapinithart => kernelvec | _ => regs (hs s i) stvec end;
  ef_ctl : forall j, (j < NCPU)%nat ->
    preg (ctl s') (PLIC_SENABLE (Z.of_nat j)) =
      (if decide (st = SPlicinithart /\ j = i) then enabled_word else preg (ctl s) (PLIC_SENABLE (Z.of_nat j))) /\
    preg (ctl s') (PLIC_SPRIORITY (Z.of_nat j)) =
      (if decide (st = SPlicinithart /\ j = i) then 0 else preg (ctl s) (PLIC_SPRIORITY (Z.of_nat j)));
}.

Lemma run_kern_inv m (s s' : sys K) : run_kern m s = Ok (Some s') -> exists k, m (kern s) = Ok (tt, k) /\ s' = set_kern k s.
Proof. unfold run_kern. destruct (m (kern s)) as [[[] k]| |]; [| done..]. intros [= <-]. eauto. Qed.

(** A statement that writes one register of its hart. *)
Lemma run_hart_wr i r v (s : sys K) m : (forall b, m b = Ok (tt, mkboard (set_reg r v (bh b)) (words b))) ->
  run_hart i m s = Ok (Some (mksys (kern s) (started s) (ctl s) (mem s) (hset (hs s) i (set_reg r v (hs s i))) (todo s))).
Proof. intros Hm. unfold run_hart, run_ctl, on_b. cbn [fst snd]. by rewrite Hm. Qed.

Lemma exec_effect i st (s s' : sys K) :
  (i < NCPU)%nat -> regs (hs s i) tp = Z.of_nat i -> exec_stmt i st s = Ok (Some s') -> effect i st s s'.
Proof.
  intros Hi Htp. assert (on_hart (Z.of_nat i) (mkboard (hs s i) (mem s))) as Hh by (split; [done | lia]).
  destruct st; cbn [exec_stmt]; intros H.
  - apply run_kern_inv in H as (k & Hk & ->). split; try done.
    + cbn [kern_calls]. unfold bind. by rewrite Hk.
  - apply run_kern_inv in H as (k & Hk & ->). split; try done.
    + cbn [kern_calls]. unfold bind. by rewrite Hk.
  - rewrite (run_hart_wr i satp (MAKE_SATP (kernel_pagetable (kern s)))) in H by done. injection H as <-.
    split; cbn [kern started ctl mem hs todo]; rewrite ?hset_same; try done.
    + intros. by rewrite hset_other.
    + intros r Hr. apply set_reg_other. set_solver.
  - rewrite (run_hart_wr i stvec kernelvec) in H by done. injection H as <-.
    split; cbn [kern started ctl mem hs todo]; rewrite ?hset_same; try done.
    + intros. by rewrite hset_other.
    + intros r Hr. apply set_reg_other. set_solver.
  - unfold run_ctl in H. rewrite plicinit_run in H. injection H as <-.
    split; cbn [kern started ctl mem hs todo bh words preg]; rewrite ?hset_same; try done.
    + intros. by rewrite hset_other.
    + intros j Hj. rewrite !decide_False by naive_solver.
      rewrite !set_word_other; [done | unfold PLIC_SENABLE, PLIC_SPRIORITY, VIRTIO0_IRQ, UART0_IRQ; lia..].
  - unfold run_ctl in H. rewrite (plicinithart_run _ _ _ Hh) in H. injection H as <-.
    split; cbn [kern started ctl mem hs todo bh words preg]; rewrite ?hset_same; try done.
    + intros. by rewrite hset_other.
    + intros j Hj. unfold NCPU in Hi, Hj. destruct (decide (j = i)) as [->|Hne].
      * rewrite !decide_True by done. rewrite set_word_same.
        rewrite set_word_other by (unfold PLIC_SENABLE, PLIC_SPRIORITY; lia). by rewrite set_word_same.
      * rewrite !decide_False by naive_solver. rewrite !set_word_other by (unfold PLIC_SENABLE, PLIC_SPRIORITY; lia). done.
  - injection H as <-. split; try done.
  - injection H as <-. split; try done.
  - destruct (started s =? 0); [done |]. injection H as <-. split; try done.
Qed.

Lemma kpt_same st k k' :
  st <> SInit Kvminit -> kern_calls [st] k = Ok (tt, k') -> kernel_pagetable k' = kernel_pagetable k.
Proof.
  intros Hne H. destruct st as [c|fmt ap| | | | | | |]; cbn [kern_calls] in H;
    [apply bind_Ok_inv in H as ([] & k1 & H & [= <-]); eapply (init_keeps c); [congruence | done]
    |apply bind_Ok_inv in H as ([] & k1 & H & [= <-]); by eapply kprintf_keeps
    |injection H as <-; done..].
Qed.

(** [kvminit] is run by hart 0 alone, before any page table is installed. *)
Lemma kvminit_first i pre rest : main (Z.of_nat i) = pre ++ SInit Kvminit :: rest ->
  i = 0%nat /\ SKvminithart ∉ pre.
Proof.
  intros H. destruct i as [|i].
  - split; [done |]. cbn in H. do 21 (destruct pre as [|? pre]; [by simplify_eq || set_solver | simplify_eq/=]).
  - exfalso. assert (SInit Kvminit ∈ main (Z.of_nat (S i))) as Hin by (rewrite H; set_solver).
    revert Hin. unfold main. rewrite (proj2 (Z.eqb_neq _ _)) by lia. rewrite !elem_of_cons, elem_of_nil. naive_solver.
Qed.

(** A statement, as its own hart sees it. *)
Lemma hart_at_stmt i st pre rest s s' :
  (i < NCPU)%nat -> main (Z.of_nat i) = pre ++ st :: rest -> hart_ok i pre s -> effect i st s s' ->
  hart_at i (set_todo i rest s').
Proof.
  intros Hi Ec [H1 H2 H3 H4 H5 H6 H7] [Et Em _ _ Ek Emd Er Esa Est Ect]. right.
  exists (pre ++ [st]), rest. split_and!; [by rewrite <- app_assoc | cbn; by rewrite hset_same |].
  destruct (Ect i Hi) as [E1 E2].
  split; cbn [hs kern ctl mem set_todo].
  - congruence.
  - by rewrite Er by set_solver.
  - rewrite Em. eapply timer_ready_ext; [exact Er | done | done].
  - rewrite Er by set_solver. eapply routed_ext; [done | done | apply Er; set_solver.. | by rewrite Er by set_solver | done].
  - intros Hin. rewrite Esa. destruct (decide (st = SInit Kvminit)) as [->|Hne].
    { apply kvminit_first in Ec as [_ Hn]. set_solver. }
    rewrite (kpt_same st _ _ Hne Ek). destruct (decide (st = SKvminithart)) as [->|]; [done |].
    assert (SKvminithart ∈ pre) as <-%H5 by set_solver. by destruct st.
  - intros Hin. rewrite Est. destruct (decide (st = STrapinithart)) as [->|]; [done |].
    assert (STrapinithart ∈ pre) as <-%H6 by set_solver. by destruct st.
  - intros Hin. rewrite E1, E2. destruct (decide (st = SPlicinithart)) as [->|]; [by rewrite !decide_True by done |].
    rewrite !decide_False by naive_solver. apply H7. set_solver.
Qed.

(** ... and as the other harts see it. *)
Lemma others_stmt i j st rest s s' :
  (j < NCPU)%nat -> j <> i -> effect i st s s' ->
  (st = SInit Kvminit -> todo s j = None \/ todo s j = Some (main (Z.of_nat j))) ->
  others j s (set_todo i rest s').
Proof.
  intros Hj Hne [Et Em Eh _ Ek _ _ _ _ Ect] Hk. destruct (Ect j Hj) as [E1 E2].
  rewrite !decide_False in E1, E2 by naive_solver.
  split; cbn [hs kern ctl mem todo set_todo].
  - by apply Eh.
  - by rewrite hset_other, Et.
  - intros. by rewrite Em.
  - destruct (decide (st = SInit Kvminit)) as [->|Hn]; [right; by apply Hk |]. left. by eapply kpt_same.
  - done.
Qed.

Lemma kern_calls_app l1 l2 k : kern_calls (l1 ++ l2) k = (do! kern_calls l1 in kern_calls l2) k.
Proof.
  revert k. induction l1 as [|st l1 IH]; intros k; [done |]. destruct st; cbn [app kern_calls]; try apply IH.
  - rewrite bind_assoc. unfold bind at 1 2. destruct (init c k) as [[a k']| |]; [apply IH | done..].
  - rewrite bind_assoc. unfold bind at 1 2. destruct (kprintf fmt ap k) as [[a k']| |]; [apply IH | done..].
Qed.

(** While [started] is 0 hart 0 has something left to do. *)
Lemma lead_started s : lead s -> started s <> 0 -> todo s 0%nat = Some [] /\ started s = 1 /\ booted k0 (kern s).
Proof. unfold lead. destruct (todo s 0%nat) as [[|st l]|]; naive_solver. Qed.

Lemma booted_after k k' : booted k0 k -> after k k' -> booted k0 k'.
Proof. intros (k1 & H1 & H2) H. exists k1. split; [done |]. by eapply rtc_r. Qed.

(** The statements of harts other than 0. *)
Lemma worker_stmt i pre st rest : (0 < i)%nat -> main (Z.of_nat i) = pre ++ st :: rest ->
  (pre = [] /\ st = SWait) \/
  (pre <> [] /\ (st = SSynchronize \/ (exists f a, st = SPrintf f a) \/ st = SKvminithart \/ st = STrapinithart \/ st = SPlicinithart)).
Proof.
  intros Hi. unfold main. rewrite (proj2 (Z.eqb_neq _ _)) by lia. intros H.
  do 7 (destruct pre as [|? pre]; [simplify_eq/=; naive_solver | simplify_eq/=]).
Qed.

Lemma main0_started pre st rest : main 0 = pre ++ st :: rest -> st = SStarted <-> rest = [].
Proof.
  intros H. cbn in H. do 21 (destruct pre as [|? pre]; [simplify_eq/=; naive_solver | simplify_eq/=]).
Qed.

Lemma hart_at_inv i st rest s : hart_at i s -> todo s i = Some (st :: rest) ->
  exists pre, main (Z.of_nat i) = pre ++ st :: rest /\ hart_ok i pre s.
Proof. intros [[? _]|(pre & r & Hm & Ht & Hok)] E; [congruence |]. rewrite E in Ht. injection Ht as <-. eauto. Qed.

Lemma harts_stmt i st pre rest s s' :
  boot_inv s -> (i < NCPU)%nat -> main (Z.of_nat i) = pre ++ st :: rest -> hart_ok i pre s -> effect i st s s' ->
  (i = 0%nat -> started s = 0) ->
  forall j, (j < NCPU)%nat -> hart_at j (set_todo i rest s').
Proof.
  intros [Hh _ Hw] Hi Hm Hok He H0 j Hj. destruct (decide (j = i)) as [->|Hne]; [by eapply hart_at_stmt |].
  eapply hart_at_others; [| by apply Hh]. eapply others_stmt; try done.
  intros ->. apply kvminit_first in Hm as [-> _]. apply Hw; [by apply H0 | lia].
Qed.

(** Hart 0 executes a statement. *)
Lemma stmt_inv_0 st rest s s' :
  boot_inv s -> todo s 0%nat = Some (st :: rest) -> exec_stmt 0 st s = Ok (Some s') -> boot_inv (set_todo 0 rest s').
Proof.
  intros Hinv Ht Hx. pose proof Hinv as [Hh Hl Hw]. unfold lead in Hl. rewrite Ht in Hl. destruct Hl as (Hs0 & pre & Hm & Hk).
  destruct (hart_at_inv _ _ _ _ (Hh 0%nat ltac:(unfold NCPU; lia)) Ht) as (pre' & Hm' & Hok).
  change (Z.of_nat 0) with 0 in Hm'.
  assert (pre' = pre) as -> by (rewrite Hm in Hm'; by apply app_inv_tail in Hm').
  apply exec_effect in Hx; [| unfold NCPU; lia | apply (ho_tp _ _ _ Hok)].
  pose proof (main0_started _ _ _ Hm) as Hlast.
  assert (kern_calls (pre ++ [st]) k0 = Ok (tt, kern s')) as Hk'.
  { rewrite kern_calls_app. rewrite (bind_ok _ _ _ _ _ Hk). apply (ef_kern _ _ _ _ Hx). }
  split.
  - eapply harts_stmt; try done. unfold NCPU; lia.
  - unfold lead. cbn [todo set_todo kern started]. rewrite hset_same. destruct rest as [|st' rest'].
    + assert (st = SStarted) as -> by tauto. split; [apply (ef_started _ _ _ _ Hx) |].
      exists (kern s'). rewrite Hm. split; [done | apply rtc_refl].
    + split; [| exists (pre ++ [st]); by rewrite <- app_assoc].
      rewrite (ef_started _ _ _ _ Hx). destruct st; try done. by apply proj1 in Hlast; specialize (Hlast eq_refl).
  - intros Hs i Hi. cbn [todo set_todo]. rewrite hset_other by lia. rewrite (ef_todo _ _ _ _ Hx). by apply Hw.
Qed.

(** Another hart executes a statement. *)
Lemma stmt_inv_worker i st rest s s' :
  (0 < i < NCPU)%nat -> boot_inv s -> todo s i = Some (st :: rest) -> exec_stmt i st s = Ok (Some s') ->
  boot_inv (set_todo i rest s').
Proof.
  intros Hi Hinv Ht Hx. pose proof Hinv as [Hh Hl Hw].
  destruct (hart_at_inv _ _ _ _ (Hh i ltac:(lia)) Ht) as (pre & Hm & Hok).
  pose proof (worker_stmt _ _ _ _ (proj1 Hi) Hm) as Hst.
  assert (started s <> 0) as Hs.
  { intros Hs. destruct Hst as [[-> ->]|[Hp _]].
    - cbn [exec_stmt] in Hx. by rewrite Hs in Hx.
    - destruct (Hw Hs i Hi) as [E|E]; [congruence |]. rewrite Ht, Hm in E. injection E as E.
      apply (f_equal length) in E. rewrite length_app in E. destruct pre; [done | cbn in E; lia]. }
  apply exec_effect in Hx; [| lia | apply (ho_tp _ _ _ Hok)].
  destruct (lead_started _ Hl Hs) as (Ht0 & Hs1 & Hb).
  assert (started s' = 1) as Hs'.
  { rewrite (ef_started _ _ _ _ Hx). destruct Hst as [[_ ->]|[_ [->|[(f & a & ->)|[->|[->| ->]]]]]]; done. }
  split.
  - eapply harts_stmt; try done; lia.
  - unfold lead. cbn [todo set_todo kern started]. rewrite hset_other, (ef_todo _ _ _ _ Hx), Ht0 by lia.
    split; [done |]. pose proof (ef_kern _ _ _ _ Hx) as Hk.
    destruct Hst as [[_ ->]|[_ [->|[(f & a & ->)|[->|[->| ->]]]]]]; cbn [kern_calls] in Hk;
      try (injection Hk as <-; done).
    apply bind_Ok_inv in Hk as ([] & k1 & Hk & [= <-]). eapply booted_after; [done |]. right. eauto.
  - cbn [started set_todo]. rewrite Hs'. done.
Qed.

(** A hart runs code that stays within its own words. *)
Lemma others_words i j s b t :
  (i < NCPU)%nat -> (j < NCPU)%nat -> j <> i -> (forall a, a ∉ own (Z.of_nat i) -> words b a = mem s a) ->
  (t j = todo s j) ->
  others j s (mksys (kern s) (started s) (ctl s) (words b) (hset (hs s) i (bh b)) t).
Proof.
  intros Hi Hj Hne Hw Ht. split; cbn [hs kern ctl mem todo]; try done.
  - by rewrite hset_other.
  - intros a Ha. apply Hw. intros Ha'.
    assert (own (Z.of_nat i) ## own (Z.of_nat j)) as Hd by (apply own_disjoint; [lia.. | done | lia]).
    by apply (Hd a).
  - by left.
Qed.

Lemma main_nonempty i : exists st l, main i = st :: l.
Proof. unfold main. destruct (i =? 0); eauto. Qed.

Lemma start_inv i s s' :
  (i < NCPU)%nat -> boot_inv s -> todo s i = None -> turn i s = Ok s' -> boot_inv s'.
Proof.
  intros Hi [Hh Hl Hw] Ht Hx. unfold turn in Hx. rewrite Ht in Hx.
  destruct (Hh i Hi) as [[_ Hid]|(? & ? & _ & ? & _)]; [| congruence].
  destruct (start_effect (mkboard (hs s i) (mem s)) (Z.of_nat i)) as
    (b & Hb & Hm & _ & Htp & _ & Htr & _ & Hr & _ & Hfr); [split; [done | lia] | done |]. cbn [bh words] in *.
  assert (Z.testbit (regs (bh b) mstatus) 1 = Z.testbit (regs (hs s i) mstatus) 1) as Esie
    by (apply (start_keeps_sie _ _) in Hb; [done | cbn [bh]; lia]).
  assert (cpuid b = Ok (Z.of_nat i, b)) as Hc by (apply cpuid_run; split; [done | lia]).
  rewrite (bind_ok _ _ _ _ _ Hb), Hc in Hx. injection Hx as <-. clear Hb. split.
  - intros j Hj. destruct (decide (j = i)) as [->|Hne].
    + right. exists [], (main (Z.of_nat i)). split_and!; [done | cbn; by rewrite hset_same |].
      split; cbn [hs kern ctl mem]; rewrite ?hset_same; try done; try (intros Hin; by apply elem_of_nil in Hin).
      * by destruct b.
      * intros p n Hp. destruct (Hr p n Hp) as [R1 R2]. split; [done |]. intros Hn. rewrite R2 by done.
        by rewrite Esie.
    + eapply hart_at_others; [| by apply Hh]. apply others_words; try done. by rewrite hset_other.
  - unfold lead in *. cbn [todo kern started]. destruct (decide (i = 0%nat)) as [->|Hne].
    + rewrite Ht in Hl. rewrite hset_same. destruct (main_nonempty (Z.of_nat 0)) as (st & l & Em). rewrite Em.
      destruct Hl as [-> ->]. split; [done |]. exists []. by rewrite <- Em.
    + by rewrite hset_other by lia.
  - cbn [started todo]. intros Hs j Hj. destruct (decide (j = i)) as [->|Hne]; [rewrite hset_same; by right |].
    rewrite hset_other by done. by apply Hw.
Qed.

Lemma timer_inv i s b :
  (i < NCPU)%nat -> boot_inv s -> todo s i <> None ->
  (do! mtrap in timervec) (mkboard (hs s i) (mem s)) = Ok (tt, b) ->
  boot_inv (mksys (kern s) (started s) (ctl s) (words b) (hset (hs s) i (bh b)) (todo s)).
Proof.
  intros Hi [Hh Hl Hw] Ht Hx. split; [| done..].
  destruct (Hh i Hi) as [[? _]|(pre & rest & Hm & Ht' & [H1 H2 H3 H4 H5 H6 H7])]; [congruence |].
  destruct (timer_irq (mkboard (hs s i) (mem s)) (Z.of_nat i)) as
    (b' & Hb & Em & _ & Er & Est & _ & _ & Hfr & Htr); [lia | done | done |].
  rewrite Hx in Hb. injection Hb as <-. clear Hx. cbn [bh words] in *.
  intros j Hj. destruct (decide (j = i)) as [->|Hne].
  - right. exists pre, rest. split_and!; [done | done |].
    assert (Z.testbit (regs (bh b) mstatus) 1 = Z.testbit (regs (hs s i) mstatus) 1) as Eb
      by (apply Est; left; unfold plain_bit; lia).
    assert (regs (bh b) tp = regs (hs s i) tp /\ regs (bh b) satp = regs (hs s i) satp /\
      regs (bh b) stvec = regs (hs s i) stvec) as (E1 & E2 & E3) by (split_and!; apply Er; set_solver).
    split; cbn [hs kern ctl mem]; rewrite ?hset_same, ?E1, ?E2, ?E3; try done.
    + congruence.
    + by destruct b.
    + rewrite Eb. eapply routed_ext; [done | done | apply Er; set_solver.. | done | done].
  - eapply hart_at_others; [apply (others_words i j s b); done | by apply Hh].
Qed.

Lemma bstep_inv s s' : boot_inv s -> bstep s s' -> boot_inv s'.
Proof.
  intros Hinv Hstep. destruct Hstep as [i s1 s2 Hi Hx|i k s1 Hi Ht Hk|i s1 b Hi Ht Hx|n s1].
  - destruct (todo s1 i) as [[|st rest]|] eqn:Ht; [| | exact (start_inv i s1 s2 Hi Hinv Ht Hx)].
    + unfold turn in Hx. rewrite Ht in Hx. injection Hx as <-. exact Hinv.
    + unfold turn in Hx. rewrite Ht in Hx. destruct (exec_stmt i st s1) as [[s3|]| |] eqn:E; [| | done..]; injection Hx as <-; [| exact Hinv].
      destruct i as [|i]; [by eapply stmt_inv_0 | eapply stmt_inv_worker; [lia | done..]].
  - destruct Hinv as [Hh Hl Hw]. pose proof (kernel_step_keeps _ _ Hk) as Ek. split; [| | done].
    + intros j Hj. eapply hart_at_others; [| by apply Hh]. split; try done. by left.
    + assert (started s1 <> 0) as Hs.
      { intros Hs. destruct i as [|i].
        - unfold lead in Hl. rewrite Ht in Hl. lia.
        - destruct (Hw Hs (S i)) as [E|E]; [lia | congruence |]. destruct (main_nonempty (Z.of_nat (S i))) as (st & l & Em). congruence. }
      destruct (lead_started _ Hl Hs) as (Ht0 & Hs1 & Hb). unfold lead. cbn [todo set_kern kern started]. rewrite Ht0.
      split; [done |]. eapply booted_after; [done | by left].
  - by apply timer_inv.
  - destruct Hinv as [Hh Hl Hw]. split; [| done..]. intros j Hj. eapply hart_at_others; [| by apply Hh].
    split; try done; [by left |]. cbn [ctl]. unfold raise. by destruct inflight.
Qed.

Lemma breach_inv s : breach k0 s -> boot_inv s.
Proof. induction 1; [by apply reset_inv | by eapply bstep_inv]. Qed.

(** Who is in the scheduler has waited for hart 0. *)
Lemma scheduler_booted s i : boot_inv s -> (i < NCPU)%nat -> todo s i = Some [] -> started s = 1 /\ booted k0 (kern s).
Proof.
  intros [Hh Hl Hw] Hi Ht. apply lead_started; [done |]. intros Hs.
  destruct i as [|i]; [unfold lead in Hl; rewrite Ht in Hl; lia |].
  destruct (Hw Hs (S i)) as [E|E]; [lia | congruence |]. destruct (main_nonempty (Z.of_nat (S i))) as (st & l & Em). congruence.
Qed.

(** C9: from reset, however the harts, timer interrupts and devices interleave: a hart is in the
    scheduler only after hart 0 has run every initialisation routine of [main] in order without
    a panic and has set [started]; it then runs in supervisor mode with its own number in
    [tp], on the kernel's page table, with the kernel's trap vector, its timer relayed and its
    interrupts routed, and with the UART's and the disk's interrupts enabled for it.  Until
    [started] is set the other harts have not passed their loop. *)
Theorem boot_order (s : sys K) (Hs : breach k0 s) :
  (forall i, (i < NCPU)%nat -> todo s i = Some [] ->
     started s = 1 /\ booted k0 (kern s) /\
     mode (hs s i) = PSupervisor /\ regs (hs s i) tp = Z.of_nat i /\
     regs (hs s i) satp = MAKE_SATP (kernel_pagetable (kern s)) /\ regs (hs s i) stvec = kernelvec /\
     timer_ready (Z.of_nat i) (mkboard (hs s i) (mem s)) /\
     routed (Z.testbit (regs (hs s i) mstatus) 1) (hs s i) /\
     preg (ctl s) (PLIC_SENABLE (Z.of_nat i)) = Z.lor (Z.shiftl 1 UART0_IRQ) (Z.shiftl 1 VIRTIO0_IRQ) /\
     preg (ctl s) (PLIC_SPRIORITY (Z.of_nat i)) = 0) /\
  (started s = 0 -> forall i, (0 < i < NCPU)%nat -> todo s i = None \/ todo s i = Some (main (Z.of_nat i))).
Proof.
  apply breach_inv in Hs as Hinv. pose proof Hinv as [Hh Hl Hw]. split; [| exact Hw]. intros i Hi Ht.
  destruct (scheduler_booted s i Hinv Hi Ht) as [Hs1 Hb].
  destruct (Hh i Hi) as [[? _]|(pre & rest & Hm & Ht' & [H1 H2 H3 H4 H5 H6 H7])]; [congruence |].
  assert (pre = main (Z.of_nat i)) as -> by (rewrite Ht in Ht'; injection Ht' as <-; by rewrite Hm, app_nil_r).
  assert (SKvminithart ∈ main (Z.of_nat i) /\ STrapinithart ∈ main (Z.of_nat i) /\ SPlicinithart ∈ main (Z.of_nat i)) as (M1 & M2 & M3).
  { unfold main. destruct (Z.of_nat i =? 0); set_solver. }
  destruct (H7 M3). split_and!; auto.
Qed.

End Inv.

(** ** Witness *)

(** A kernel that records the order of its initialisation. *)
Definition trace : Type := Z * list initcall.

#[export] Instance trace_subsystems : Subsystems trace := {
  init := fun c => modify (fun k => (if decide (c = Kvminit) then 0x87fff000 else fst k, snd k ++ [c]));
  kprintf := fun _ _ => ret tt;
  kernel_pagetable := fst;
  kernel_step := eq;
}.

#[export] Instance trace_ok : SubsystemsOk trace.
Proof.
  split.
  - intros c k k' Hne [= <-]. cbn. by rewrite decide_False.
  - intros f a k k' [= <-]. done.
  - by intros k k' ->.
Qed.

Definition virt_traps : TrapAddrs := {|
  kernelvec := KERNBASE + 0x5b00; uservec := KERNBASE + 0x7000; userret := KERNBASE + 0x7090; usertrap_addr := KERNBASE + 0x2a00;
|}.

(** Turns of harts in a given order. *)
Fixpoint turns {K} `{SK : Subsystems K} `{HS : HartSpec} `{BA : BootAddrs} `{TA : TrapAddrs} (l : list nat) (s : sys K) : outcome (sys K) :=
  match l with
  | [] => Ok s
  | i :: l' => match turn i s with Ok s' => turns l' s' | Panic msg => Panic msg | Diverge => Diverge end
  end.

Lemma turns_breach {K} `{SK : Subsystems K} `{HS : HartSpec} `{BA : BootAddrs} `{TA : TrapAddrs} k0 l :
  Forall (fun i => i < NCPU)%nat l -> forall s s', breach k0 s -> turns l s = Ok s' -> breach k0 s'.
Proof.
  induction 1 as [|i l Hi _ IH]; intros s s' Hb; cbn [turns]; [by intros [= <-] |].
  destruct (turn i s) as [s1| |] eqn:E; [| done..]. apply IH. eapply BStep; [exact Hb |]. by eapply BTurn.
Qed.

Definition reset_sys : sys trace :=
  mksys (0, []) 0 plic_reset (fun _ => 0)
    (fun i => mkhart PMachine KERNBASE (fun r => if decide (r = mhartid) then Z.of_nat i else 0)) (fun _ => None).

(** Hart 3 comes first and has to wait; then hart 0 runs, then hart 3 again. *)
Definition schedule : list nat := [3; 3; 3; 3]%nat ++ replicate 21 0%nat ++ replicate 6 3%nat.

Definition holds {A} (o : outcome A) (f : A -> bool) : bool := match o with Ok a => f a | _ => false end.

Lemma holds_Ok {A} (o : outcome A) (f : A -> bool) : holds o f = true -> exists a, o = Ok a /\ f a = true.
Proof. destruct o as [a| |]; [eauto | done..]. Qed.

Definition through (s : sys trace) : bool :=
  bool_decide (todo s 0%nat = Some []) && bool_decide (todo s 3%nat = Some []) && bool_decide (todo s 1%nat = None) &&
  (fst (kern s) =? 0x87fff000).

Lemma schedule_through :
  holds (turns (HS := virt_hart) (BA := virt_addrs) (TA := virt_traps) schedule reset_sys) through = true.
Proof. vm_compute. reflexivity. Qed.

Lemma boot_order_witness :
  exists s, breach (HS := virt_hart) (BA := virt_addrs) (TA := virt_traps) (0, []) s /\
    todo s 0%nat = Some [] /\ todo s 3%nat = Some [] /\ todo s 1%nat = None /\
    regs (hs s 3%nat) satp = MAKE_SATP 0x87fff000 /\ fst (kern s) = 0x87fff000.
Proof.
  destruct (holds_Ok _ _ schedule_through) as (s & E & Hx). unfold through in Hx.
  apply andb_true_iff in Hx as [Hx Ek%Z.eqb_eq]. apply andb_true_iff in Hx as [Hx T1%bool_decide_eq_true].
  apply andb_true_iff in Hx as [T0%bool_decide_eq_true T3%bool_decide_eq_true].
  assert (breach (HS := virt_hart) (BA := virt_addrs) (TA := virt_traps) (0, []) s) as Hb.
  { eapply turns_breach; [| | exact E]; [by apply (bool_decide_unpack _); vm_compute |]. apply BReset. by split_and!. }
  destruct (boot_order (HO := virt_hart_ok) (TA := virt_traps) (BA := virt_addrs) (0, []) ltac:(done) s Hb) as [H _].
  destruct (H 3%nat ltac:(unfold NCPU; lia) T3) as (_ & _ & _ & _ & Hs & _).
  exists s. rewrite <- Ek at 1. exact (conj Hb (conj T0 (conj T3 (conj T1 (conj Hs Ek))))).
Defined.
