(* ===== verification/BootKernel.v ===== *)
(** * BootKernel: the kernel that [main] boots

    [Boot.v] leaves the kernel as an interface; here it is the kernel of the other files: processes
    and memory ([Proc], [Kalloc], [Vm]) over the file table, the inode table and the buffer
    cache ([File], [Fs], [Bio]), with the disk driver ([Virtio]), the console ([Console]) and
    [printf] ([Print]).  Locks are not part of these states; which of them have
    been initialised is recorded next to them.  [forkret], where the first process initialises the file system, is
    here too.

    Lemmas [booted_processes] and [booted_locks]: from reset on, in every state with a hart in the scheduler, the
    process table is well formed and every lock has been initialised once. *)

From stdpp Require Import base list sets strings relations.
From Stdlib Require Import ZArith Lia.
From S2P Require Import Prelude Riscv Mem Kalloc Vm Proc Sched ProcLife ProcInv Bio Log Fs Syscall Trap File Print Console Virtio Hart Plic Boot.

Section World.
Context `{I : Image} `{TA : TrapAddrs} (me log_addr forkret_addr : Z).
Context (vreg : list (Z * Z) -> Z -> Z) (lsr : nat -> Z) (patience : nat).

#[local] Instance cache_here : Cache bcache := bio_cache me.
#[local] Instance files_here : FileLayer (files bcache) := kernel_files log_addr.

#[local] Instance files_here_ok : FileLayerOk (files bcache) := kernel_files_ok log_addr.

(** The spin locks that exist once; the locks of an array count as one. *)
Inductive klock : Type :=
  | LCons | LUart | LPr | LKmem | LCowrefs | LPid | LWait | LProcs | LTicks | LBcache | LItable | LFtable | LDisk.

(** [devsw[CONSOLE]] is connected or not. *)
Record world : Type := mkworld {
  wk : kernel (files bcache);
  wkpt : Z;
  wdisk : option vdisk;
  wcon : con;
  wuart : list (Z * Z);
  wdevsw : bool;
  pr_locking : bool;
  wlocks : list klock;   (* locks that have been initialised *)
}.

Definition on_wk {A} (m : M (kernel (files bcache)) A) : M world A := fun w =>
  match m (wk w) with
  | Ok (a, k) => Ok (a, mkworld k (wkpt w) (wdisk w) (wcon w) (wuart w) (wdevsw w) (pr_locking w) (wlocks w))
  | Panic msg => Panic msg
  | Diverge => Diverge
  end.

Definition on_con {A} (m : M con A) : M world A := fun w =>
  match m (wcon w) with
  | Ok (a, c) => Ok (a, mkworld (wk w) (wkpt w) (wdisk w) c (wuart w) (wdevsw w) (pr_locking w) (wlocks w))
  | Panic msg => Panic msg
  | Diverge => Diverge
  end.

(** The buffer cache inside the file system. *)
Definition on_cache {A} (m : M bcache A) : M (kernel (files bcache)) A :=
  onf (fun f => match m (lcache (flog f)) with
                | Ok (a, c) => Ok (a, set_cache c f)
                | Panic msg => Panic msg
                | Diverge => Diverge
                end).

(** [initlock]: the lock is free from here on. *)
Definition lock_init (l : klock) : M world unit := modify (fun w =>
  mkworld (wk w) (wkpt w) (wdisk w) (wcon w) (wuart w) (wdevsw w) (pr_locking w) (wlocks w ++ [l])).

Definition uart_init : M world unit :=
  do! modify (fun w => mkworld (wk w) (wkpt w) (wdisk w) (wcon w) (wuart w ++ uartinit) (wdevsw w) (pr_locking w) (wlocks w)) in
  lock_init LUart.
Definition consoleinit : M world unit :=
  do! lock_init LCons in
  do! uart_init in
  modify (fun w => mkworld (wk w) (wkpt w) (wdisk w) (wcon w) (wuart w) true (pr_locking w) (wlocks w)).
Definition printfinit : M world unit :=
  do! lock_init LPr in
  modify (fun w => mkworld (wk w) (wkpt w) (wdisk w) (wcon w) (wuart w) (wdevsw w) true (wlocks w)).
Definition kvminit : M world unit :=
  let! t := on_wk (on_vm kvmmake) in
  modify (fun w => mkworld (wk w) t (wdisk w) (wcon w) (wuart w) (wdevsw w) (pr_locking w) (wlocks w)).
Definition trapinit : M world unit := lock_init LTicks.
Definition fileinit : M world unit := lock_init LFtable.
Definition diskinit : M world unit :=
  do! lock_init LDisk in
  let! d := on_wk (on_vm (virtio_disk_init vreg)) in
  modify (fun w => mkworld (wk w) (wkpt w) (Some d) (wcon w) (wuart w) (wdevsw w) (pr_locking w) (wlocks w)).

(** A format that does not fit its arguments has no meaning; [panic] does not return. *)
Definition wprintf (fmt : list Z) (ap : list varg) : M world unit :=
  match Print.printf (Some fmt) ap with
  | PDone l => on_con (consputs lsr patience l)
  | PFrozen _ | PUndef => diverge
  end.

Definition winit (c : initcall) : M world unit :=
  match c with
  | Consoleinit => consoleinit
  | Printfinit => printfinit
  | Kinit => do! lock_init LKmem in do! lock_init LCowrefs in on_wk (on_vm kinit)
  | Kvminit => kvminit
  | Procinit => do! lock_init LPid in do! lock_init LWait in do! lock_init LProcs in on_wk procinit
  | Trapinit => trapinit
  | Binit => do! lock_init LBcache in on_wk (on_cache binit)
  | Iinit => do! lock_init LItable in on_wk (onf iinit)
  | Fileinit => fileinit
  | Virtio_disk_init => diskinit
  | Userinit => on_wk (userinit forkret_addr)
  end.

#[local] Instance world_subsystems : Subsystems world := {
  init := winit;
  kprintf := wprintf;
  kernel_pagetable := wkpt;
  kernel_step := fun w w' => exists k, kstep forkret_addr (wk w) k /\
    w' = mkworld k (wkpt w) (wdisk w) (wcon w) (wuart w) (wdevsw w) (pr_locking w) (wlocks w);
}.

(** [forkret] of [proc.c], with its static variable next to the hart's registers.  The lock of the
    process is not part of this state. *)
Context `{FC : FileCalls (files bcache)}.

Definition forkret (c : nat) : M (Trap.machine (F := files bcache) * Z) (trapout fsusp) := fun s =>
  let '(m, first) := s in
  match (do! (if negb (first =? 0) then on_k (onf (fsinit ROOTDEV)) else ret tt) in usertrapret c) m with
  | Ok (o, m') => Ok (o, (m', 0))
  | Panic msg => Panic msg
  | Diverge => Diverge
  end.

(** ** Facts *)

Lemma on_wk_inv {A} (m : M (kernel (files bcache)) A) w a w' : on_wk m w = Ok (a, w') ->
  m (wk w) = Ok (a, wk w') /\ wkpt w' = wkpt w /\ wlocks w' = wlocks w.
Proof. unfold on_wk. destruct (m (wk w)) as [[b k]| |]; [| done..]. intros [= -> <-]. done. Qed.

Lemma bind_lock_init {B} l (n : unit -> M world B) w :
  bind (lock_init l) n w = n tt (mkworld (wk w) (wkpt w) (wdisk w) (wcon w) (wuart w) (wdevsw w) (pr_locking w) (wlocks w ++ [l])).
Proof. reflexivity. Qed.

(** The locks a routine initialises. *)
Definition locks_of (c : initcall) : list klock :=
  match c with
  | Consoleinit => [LCons; LUart]
  | Printfinit => [LPr]
  | Kinit => [LKmem; LCowrefs]
  | Procinit => [LPid; LWait; LProcs]
  | Trapinit => [LTicks]
  | Binit => [LBcache]
  | Iinit => [LItable]
  | Fileinit => [LFtable]
  | Virtio_disk_init => [LDisk]
  | Kvminit | Userinit => []
  end.

Lemma wprintf_inv fmt ap w w' : wprintf fmt ap w = Ok (tt, w') -> wk w' = wk w /\ wkpt w' = wkpt w /\ wlocks w' = wlocks w.
Proof.
  unfold wprintf. destruct (Print.printf (Some fmt) ap); [| done..]. unfold on_con.
  destruct (consputs _ _ _ _) as [[[] c]| |]; [| done..]. by intros [= <-].
Qed.

(** The kernel state after a routine, by the kinds of routine there are. *)
Lemma winit_cases c w w' : winit c w = Ok (tt, w') ->
  match c with
  | Consoleinit | Printfinit | Trapinit | Fileinit => wk w' = wk w /\ wkpt w' = wkpt w
  | Kinit => on_vm kinit (wk w) = Ok (tt, wk w') /\ wkpt w' = wkpt w
  | Kvminit => exists t, on_vm kvmmake (wk w) = Ok (t, wk w') /\ wkpt w' = t
  | Procinit => procinit (wk w) = Ok (tt, wk w') /\ wkpt w' = wkpt w
  | Binit => on_cache binit (wk w) = Ok (tt, wk w') /\ wkpt w' = wkpt w
  | Iinit => onf iinit (wk w) = Ok (tt, wk w') /\ wkpt w' = wkpt w
  | Virtio_disk_init => (exists d, on_vm (virtio_disk_init vreg) (wk w) = Ok (d, wk w')) /\ wkpt w' = wkpt w
  | Userinit => userinit forkret_addr (wk w) = Ok (tt, wk w') /\ wkpt w' = wkpt w
  end.
Proof.
  destruct c; cbn [winit]; intros H.
  - injection H as <-. split; reflexivity.
  - injection H as <-. split; reflexivity.
  - rewrite !bind_lock_init in H. apply on_wk_inv in H as (H1 & H2 & _). exact (conj H1 H2).
  - unfold kvminit in H. apply bind_Ok_inv in H as (t & w1 & [E _]%on_wk_inv & H). injection H as <-. exists t. split; [exact E | reflexivity].
  - rewrite !bind_lock_init in H. apply on_wk_inv in H as (H1 & H2 & _). exact (conj H1 H2).
  - injection H as <-. split; reflexivity.
  - rewrite !bind_lock_init in H. apply on_wk_inv in H as (H1 & H2 & _). exact (conj H1 H2).
  - rewrite !bind_lock_init in H. apply on_wk_inv in H as (H1 & H2 & _). exact (conj H1 H2).
  - injection H as <-. split; reflexivity.
  - unfold diskinit in H. rewrite bind_lock_init in H. apply bind_Ok_inv in H as (d & w1 & (E1 & E2 & _)%on_wk_inv & H).
    injection H as <-. split; [exists d; exact E1 | exact E2].
  - apply on_wk_inv in H as (H1 & H2 & _). exact (conj H1 H2).
Qed.

Lemma winit_locks c w w' : winit c w = Ok (tt, w') -> wlocks w' = wlocks w ++ locks_of c.
Proof.
  destruct c; cbn [winit locks_of]; intros H.
  - injection H as <-. cbn [wlocks]. by rewrite <- app_assoc.
  - injection H as <-. reflexivity.
  - rewrite !bind_lock_init in H. apply on_wk_inv in H as (_ & _ & ->). cbn [wlocks]. by rewrite <- app_assoc.
  - unfold kvminit in H. apply bind_Ok_inv in H as (t & w1 & (_ & _ & E)%on_wk_inv & H). injection H as <-. cbn [wlocks]. by rewrite E, app_nil_r.
  - rewrite !bind_lock_init in H. apply on_wk_inv in H as (_ & _ & ->). cbn [wlocks]. by rewrite <- !app_assoc.
  - injection H as <-. reflexivity.
  - rewrite !bind_lock_init in H. apply on_wk_inv in H as (_ & _ & ->). reflexivity.
  - rewrite !bind_lock_init in H. apply on_wk_inv in H as (_ & _ & ->). reflexivity.
  - injection H as <-. reflexivity.
  - unfold diskinit in H. rewrite bind_lock_init in H. apply bind_Ok_inv in H as (d & w1 & (_ & _ & E)%on_wk_inv & H).
    injection H as <-. cbn [wlocks] in *. exact E.
  - apply on_wk_inv in H as (_ & _ & ->). by rewrite app_nil_r.
Qed.

#[local] Instance world_subsystems_ok : SubsystemsOk world.
Proof.
  split.
  - intros c w w' Hne H%winit_cases. destruct c; try apply H. by destruct Hne.
  - intros f a w w' H. apply (wprintf_inv f a w w' H).
  - intros w w' (k & _ & ->). reflexivity.
Qed.

Lemma kc_init c l (w w1 : world) : kern_calls (SInit c :: l) w = Ok (tt, w1) ->
  exists w', winit c w = Ok (tt, w') /\ kern_calls l w' = Ok (tt, w1).
Proof. cbn [kern_calls]. intros ([] & w' & H1 & H2)%bind_Ok_inv. eauto. Qed.

Lemma kc_printf f a l (w w1 : world) : kern_calls (SPrintf f a :: l) w = Ok (tt, w1) ->
  exists w', wk w' = wk w /\ kern_calls l w' = Ok (tt, w1).
Proof. cbn [kern_calls]. intros ([] & w' & [H1 _]%wprintf_inv & H2)%bind_Ok_inv. eauto. Qed.

Lemma kc_skip st l (w : world) r : match st with SInit _ | SPrintf _ _ => False | _ => True end ->
  kern_calls (st :: l) w = r -> kern_calls l w = r.
Proof. by destruct st. Qed.

Lemma kern_calls_locks l (w w1 : world) : kern_calls l w = Ok (tt, w1) ->
  wlocks w1 = wlocks w ++ mjoin ((fun st => match st with SInit c => locks_of c | _ => [] end) <$> l).
Proof.
  revert w. induction l as [|st l IH]; intros w H.
  { injection H as <-. by rewrite app_nil_r. }
  destruct st as [c|f a| | | | | | |]; cbn; try (apply kc_skip in H; [| exact Logic.I]; by apply IH).
  - apply kc_init in H as (w' & E%winit_locks & H). rewrite (IH _ H), E. by rewrite <- app_assoc.
  - cbn [kern_calls] in H. apply bind_Ok_inv in H as ([] & w' & (_ & _ & E)%wprintf_inv & H). by rewrite (IH _ H), E.
Qed.

(** Memory routines leave the processes as they are. *)
Lemma on_vm_boot {A} (m : M vm A) s f a k : on_vm m (boot_kernel s f) = Ok (a, k) ->
  exists s', k = boot_kernel (F := files bcache) s' f.
Proof. unfold on_vm. cbn [kvm boot_kernel]. destruct (m s) as [[b s']| |]; [| done..]. intros [= _ <-]. by exists s'. Qed.

Lemma onf_abs {A} (m : M (fs bcache) A) k a k' : onf m k = Ok (a, k') -> absk k' = absk k.
Proof. apply frames_on_fs. Qed.

Lemma on_cache_abs {A} (m : M bcache A) k a k' : on_cache m k = Ok (a, k') -> absk k' = absk k.
Proof. apply onf_abs. Qed.

(** The processes after hart 0's initialisation: the first one alone, ready to run. *)
Lemma boot_calls_abs w w1 s f :
  wk w = boot_kernel s f -> kern_calls (main 0) w = Ok (tt, w1) -> life_inv (absk (wk w1)).
Proof.
  intros E0 H. unfold main in H. cbn [Z.eqb] in H.
  apply kc_init in H as (w2 & [E2 _]%winit_cases & H). apply kc_init in H as (w3 & [E3 _]%winit_cases & H).
  apply kc_printf in H as (w4 & E4 & H). apply kc_printf in H as (w5 & E5 & H). apply kc_printf in H as (w6 & E6 & H).
  assert (wk w6 = boot_kernel s f) as E by congruence. clear E0 E2 E3 E4 E5 E6.
  apply kc_init in H as (w7 & [E7 _]%winit_cases & H). rewrite E in E7. apply on_vm_boot in E7 as (s7 & E7).
  apply kc_init in H as (w8 & (t & E8 & _)%winit_cases & H). rewrite E7 in E8. apply on_vm_boot in E8 as (s8 & E8).
  apply kc_skip in H; [| exact Logic.I].
  apply kc_init in H as (w9 & [E9 _]%winit_cases & H). rewrite E8 in E9. apply procinit_abs in E9.
  apply kc_init in H as (w10 & [E10 _]%winit_cases & H). do 3 (apply kc_skip in H; [| exact Logic.I]).
  apply kc_init in H as (w11 & [E11 _]%winit_cases & H). apply kc_init in H as (w12 & [E12 _]%winit_cases & H).
  apply kc_init in H as (w13 & [E13 _]%winit_cases & H). apply kc_init in H as (w14 & [[d E14] _]%winit_cases & H).
  apply kc_init in H as (w15 & [E15 _]%winit_cases & H). do 2 (apply kc_skip in H; [| exact Logic.I]).
  cbn [kern_calls] in H. injection H as <-.
  apply frames_on_vm in E14. apply onf_abs in E12. apply on_cache_abs in E11.
  apply userinit_abs in E15 as (i & Hi & ->); [by apply boot_life | congruence].
Qed.

Context `{HS : HartSpec} {HO : HartSpecOk HS} `{BA : BootAddrs}.

Lemma after_life w w' : after w w' -> life_inv (absk (wk w)) -> life_inv (absk (wk w')).
Proof.
  intros [(k & Hk & ->)|(f & a & [E _]%wprintf_inv)] H; [| by rewrite E].
  cbn [wk]. eapply kstep_inv; [exact H | exact Hk].
Qed.

Lemma booted_life w0 w s f : wk w0 = boot_kernel s f -> booted w0 w -> life_inv (absk (wk w)).
Proof.
  intros E0 (w1 & H1 & Hrtc). apply (boot_calls_abs _ _ _ _ E0) in H1.
  induction Hrtc as [|x y z Hxy _ IH]; [exact H1 |]. apply IH. by eapply after_life.
Qed.

(** Before any hart is in the scheduler every lock of the kernel has been initialised, once. *)
Lemma booted_locks w0 w : booted w0 w ->
  wlocks w = wlocks w0 ++ [LCons; LUart; LPr; LKmem; LCowrefs; LPid; LWait; LProcs; LTicks; LBcache; LItable; LFtable; LDisk].
Proof.
  intros (w1 & H1%kern_calls_locks & Hrtc). cbn in H1. rewrite <- H1. clear H1.
  induction Hrtc as [|x y z Hxy _ ->]; [reflexivity |].
  destruct Hxy as [(k & _ & ->)|(f & a & (_ & _ & E)%wprintf_inv)]; [reflexivity | exact E].
Qed.

(** In every state of the machine from reset with a hart in the scheduler the process table is well
    formed: live processes have distinct positive pids, a running process is on one hart, every
    process but init has a parent that can reap it, unused slots are clean. *)
Lemma booted_processes (w0 : world) (s : vm) (f : files bcache) (E0 : wk w0 = boot_kernel s f)
    (Hram : KERNBASE <= timer_scratch) (y : sys world) (Hy : breach w0 y) (i : nat) :
  (i < NCPU)%nat -> todo y i = Some [] -> life_inv (absk (wk (kern y))).
Proof.
  intros Hi Ht. destruct (scheduler_booted w0 y i) as [_ Hb]; [by apply breach_inv | done | done |].
  by eapply booted_life.
Qed.

(** The first process to run initialises the file system, the others do not. *)
Lemma forkret_once c m first o m' v :
  forkret c (m, first) = Ok (o, (m', v)) -> v = 0 /\ (first = 0 -> usertrapret c m = Ok (o, m')).
Proof.
  unfold forkret. match goal with |- context [bind ?x ?y m] => destruct (bind x y m) as [[o1 m1]| |] eqn:E end; [| done..].
  intros H. injection H as <- <- <-. split; [reflexivity |]. intros ->. exact E.
Qed.

End World.
